(* ===== verification/_CoqProject ===== *)
-Q . S2P
Prelude.v
PyStr.v
Num.v
Exact.v
ExactText.v
PyObj.v
Json.v
JsonRoundtrip.v
Bytes.v
ByteLaws.v
Market.v
CaptureModel.v
LighterAdapter.v
HyperliquidAdapter.v
Provenance.v
Decision.v
Economics.v
Evidence.v
Decoders.v
Reconstruction.v
Identity.v
Vwap.v
Calculation.v
Calendar.v
EvidenceIo.v
Documents.v
Decoded.v
MezoDex.v
DexReport.v
MezoTroves.v
TroveReport.v
FrozenPackage.v
PackageErrors.v
Verdict.v
Package.v
Pipeline.v
JsonBounds.v
Environ.v
Runtime.v
SealedInput.v
JsonBytes.v
CapturePackage.v
Archive.v
Report.v
Tree.v
Bundle.v
ReportText.v
SnapshotBundle.v
Programs.v
Store.v
StoreSafety.v
StoreOperations.v
StoreHistory.v
StoreRuns.v
Service.v
ServiceSafety.v
ServiceScope.v
ServiceReplies.v
ServiceStore.v
IsoTime.v
PublicRead.v
PublicReadSafety.v
Authority.v
Operator.v
OperatorSafety.v
Captures.v
CaptureService.v
CapturesSafety.v
ChunkedReader.v
Compatibility.v
CompatibilitySafety.v
