(* ===== verification/Prelude.v ===== *)
(** * Liqvera: a verification development of the Python packages

    Liqvera observes public order books and on-chain pools, freezes what it saw in a
    sealed package, and decides or reports from the package alone.  Four packages of
    [src/packages/*/src] are modelled, those tools of [src/tools] that spend the
    authority of an operator, and its probe of remote ends.

    ** The program and its model

    - [liqvera_contracts], the shared data and arithmetic: [exact.py] in [Exact] and
      [ExactText], [market.py] in [Market], [provenance.py] in [Provenance],
      [decision.py] and [reasons.py] in [Decision], [economics.py] in [Economics],
      [evidence.py] in [Evidence].
    - [liqvera_public_capture], what is observed: [model.py] in [CaptureModel], the
      adapters of [public_adapters/] in [LighterAdapter], [HyperliquidAdapter],
      [MezoDex] and [MezoTroves], the writer of packages, [package.py], in
      [Package], that of sealed inputs, [evidence_capture.py] and
      [evidence_package.py], in [CapturePackage], its requests and its publication, in
      [Captures], the service that publishes captures, [evidence_service.py], in
      [CaptureService] ([CapturesSafety] holds the proofs of their runs), and the
      process, [config.py], [runtime.py] and [__main__.py], in [Runtime] (over [Environ]).
    - [liqvera_readonly_analyzer], the decision: [frozen_package/] in [FrozenPackage]
      (and [PackageErrors], on its error codes), [reconstruction/] in [Decoders] and
      [Reconstruction], [identity.py] in [Identity], [vwap.py] in [Vwap],
      [verdict.py] in [Verdict], the process, [config.py] and [__main__.py], in
      [Runtime].
    - [liqvera_evidence_report], the reports: [calculation.py] in [Calculation] and,
      the calendar, in [Calendar]; [canonical.py] and [evidence_io.py] in [EvidenceIo]
      (and [Documents] and [Decoded], on what is encoded and what is decoded);
      [mezo_dex.py] in [DexReport], [trove_report.py] in [TroveReport],
      [sealed_input.py] in [SealedInput], [report.py] in [Report];
      [evidence_bundle.py] in [Archive] (the ZIP files), [Bundle] (and
      [ReportText] and [SnapshotBundle], on the texts and the bundles of snapshot
      reports) and [Store] (the publication, reading and deletion of reports;
      [StoreSafety], [StoreOperations], [StoreHistory] and [StoreRuns] hold their
      proofs); what reads directories ([read_tree],
      [inspect_package], [build_report], [trove_capture.py]) in [Tree];
      [product_request.py] and [service.py], the service that answers requests, in
      [Service] (its handlers together are in [ServiceSafety]; [ServiceScope],
      [ServiceReplies] and [ServiceStore] hold the proofs).
    - [tools/mezo_acceptance], the live acceptance run: [public_read.py] and the A07
      case of [live_cases.py], reads that a grant allows once, in [PublicRead]
      ([PublicReadSafety] holds the proofs of their runs); [live.py], the bundles of
      grants, in [Authority]; [p3_operator.py], one payment for one grant, in
      [Operator] (and [OperatorSafety]).
    - [tools/mezo_compatibility.py], a probe of the remote ends the project builds on:
      its reader of responses in [ChunkedReader], the rest in [Compatibility]
      ([CompatibilitySafety] holds the proofs of its traces).

    Below them is the part of Python and of its standard library that the packages
    use: exceptions and the [result] monad (this file), [str] and [int] ([PyStr]),
    [Fraction] and [Decimal] ([Num]), the formats of [datetime] ([IsoTime]), decoded
    values, [float] and [dict] ([PyObj]),
    [json] ([Json], [JsonRoundtrip], [JsonBounds], [JsonBytes]), [bytes], UTF-8, SHA-256 and UUIDs
    ([Bytes], [ByteLaws]), [zipfile], [struct] and CRC-32 ([Archive]).

    A capture process runs an adapter and writes a package; the analyzer opens the
    package, reconstructs the books, binds them to sealed mappings and decides.
    [Pipeline] composes the two: what [Package.write_frozen_package] writes is what
    [Verdict.evaluate_frozen_package] decides from; [Runtime] does it for the two
    processes, from their environments to their exit codes.  A report starts from a sealed
    input ([CapturePackage.EvidencePackage.capture_members]), which
    [SealedInput.inspect_members] inspects with the analyzer's own reader,
    [Report.build_inspected_report] reports on and [Bundle.build_bundle] archives;
    [Bundle.verify_bundle_bytes] reads the archive and builds the report again.
    [Store.publish_artifact] puts both under the identifier of the report.  The
    handlers of [Service] do all this for a request: they are the operations of the
    store, and [ServiceStore] proves of them what [StoreRuns] proves of the store.
    An acceptance run validates a bundle ([Authority.validate_p2_bundle],
    [Authority.validate_p3_bundle]); the grant of its read goes to
    [PublicRead.execute_public_read] or [PublicRead.execute_a07], which consume it in a
    directory of markers, and that of its payment to [Operator.execute], which
    consumes it in a database behind the interface [OperatorSafety.PaymentStore].

    ** How the code is rendered

    A call returns [Ok] or [Raise]s an exception of a class with its message; the
    inheritance between classes is Python's, so that an [except] clause is
    [try_except] over the classes it names.  Guards stand in the order of the source.
    Fields declared with a type have it, which discharges [type(x) is T] checks;
    where a constructor takes unchecked values ([Provenance], decoded JSON) the value
    is an [obj] or a [json].  Integers are unbounded as in Python, and the bounds of
    [ExactDecimal] (64 bits) and of the contracts (256 bits) are the checks of the
    code.  A dictionary is an association list in insertion order.  Objects that
    methods mutate ([LighterBookReducer]) are states that a raising method still
    leaves; the log of reads of a trove verification and the history of a transport
    are states passed along.  The operations of the store are programs of atomic
    file-system calls ([Programs]), which interleave, fail and stop at any call; the
    handlers of the service are programs over these and the calls of a connection,
    and the reads and the payments of an acceptance run programs over the calls of
    their directory, their clock, and the peers they were given.  What an operation
    answers is compared with the states that the system passed through between its
    start and its end ([Programs.at_a_moment]).  The compatibility probe
    runs alone: what is proved of it holds of every trace of its program.

    ** What the theorems show

    - Of the decision: which decision and reasons follow from the inputs, what the
      two counters of its gates count, which exceptions escape, and what it is on a
      written package.
    - Of packages: a reader exists only for a package whose files are exactly the
      declared ones with the declared digests, and a written package is read back.
    - Of books: reconstructed and captured books are well formed, sequences are
      contiguous, a failure never leaves an unusable book available, applying a
      delta is an update of a map from prices to sizes.
    - Of the sweep: it decides fillability, and its fill is optimal among all
      allocations.
    - Of on-chain evidence: a verified pool quote is that of the checked arithmetic,
      the exact-output quote is the least input; a verified trove queue is a linked
      list of all the troves and the place in it that of the reference definition;
      verification always ends; what is captured verifies.
    - Of reports: an inspected input is sealed, the times it records agree with each
      other and its book is fresh, ordered and not crossed; the
      archive reader accepts exactly what the writer makes; what verifies is rebuilt
      byte for byte from what it holds, and every bundle of either report verifies.
    - Of directories and the store: the reader of a tree accepts exactly the trees
      within its bounds; whatever operations run at once and wherever they fail or
      stop, a report is absent, published as one verified pair of files, or partly
      deleted, moves along these phases by the holder of its lock alone, and is read
      only as it was published; what an operation answers was so at a moment while it
      ran, and it leaves its lock behind only when a call of its cleanup failed; every
      operation ends, and a deletion can be resumed.
    - Of captures: whatever requests run at once and wherever they fail or stop, a
      capture is absent or the whole package of its members, never changes once it is
      there, and is what a reply 201 names; a lock left behind keeps it absent.
    - Of the service: of any number of handlers at once, no two work on a report, none
      touches a report that it does not work on, and none leaves one refused; each sends one reply of the vocabulary of its method;
      what it answers of a report is of files that the store has verified.
    - Of grants: of any number of runs at once, wherever they fail or stop, one at
      most uses a grant, to send a request or to settle; what a run returns is what it
      read, or what the store held of that payment while it ran; a validated bundle with
      limits that are integers yields a grant, and none that does not authorise what the
      runner executes.
    - Of the compatibility probe: it asks nothing but ten fixed requests, and those only
      after its lock is accepted, puts out nothing but the whole summary of answers that
      pass its judgement, and reports nothing but a reason of a closed list; its decoder
      of chunked bodies accepts exactly the encodings within its budgets.
    - Of the processes: what each exit code means; a capture of the fixture always
      writes a package, and its analysis always ends with the same decision.
    - Of values: what the strict decoder accepts is a normalised document without
      floats and repeated keys; exact decimals, canonical JSON, sealed economics and documents round
      trip through their texts.

    ** Bounds and fuel

    Fuel stands for recursion that is not structural, and is proved to be enough:
    JSON decoding has two units per character and one more, and never reports that
    they are used up ([Json.json_loads_terminates]); digits of an integer take its
    logarithm; UTF-8 takes a unit per byte; the walk along the troves takes one more
    than there are owners; the extra fields and the directory of an archive take a
    unit per byte, and every turn takes four bytes and 46 bytes of them; the body of a
    public read is at most its limit, and each of its chunks takes a byte of it; the
    decoder of chunked bodies takes a turn per byte of its stream and one more, and no
    turn takes less than a byte.

    ** Parameters

    Code outside [src/] is an argument: transports and clocks of the adapters, the
    reviewed mappings, the Unicode tables beyond those of [PyStr] ([UnicodeTables],
    [UnicodeLower], [UnicodeUpper]), Unicode normal form C ([UnicodeNormal]), the JSON Schema validator
    (a third-party library), the files of the distribution ([ReportResources]),
    [urlsplit] ([UrlLibrary]), the tables of special addresses of [ipaddress]
    ([AddressTables]), and the store of payments ([PaymentStore], whose laws are those
    of a table with a unique key).
    The theorems ask of them that normal form C leaves printable ASCII alone, that a
    schema does not see the order of keys, and that the files are not empty.  The
    standard library is that of Python 3.12.

    ** Not modelled

    Interpreter limits on recursion depth and memory, permissions; outside [Store],
    the I/O errors of a file system and its changes during a read; inside it, the loss
    of data that was not flushed and what a removal of a temporary directory shows
    half done; the texts of messages where nothing reads them; HTTP itself (its
    clients, the parsing of requests, sockets, their time limits and the number of
    connections at once); the command lines of the reports; of [src/tools], what drives processes, containers,
    name resolution, connections and git checkouts; of the compatibility probe, the opener
    of connections, the parser of arguments, and an alarm anywhere but while a response
    is awaited. *)

From stdpp Require Export base tactics option list numbers strings gmap.
From Stdlib Require Export Lia Sorted.

#[export] Set Default Goal Selector "!".

(** ** Python exceptions

    The classes the modelled code raises, catches or lets escape, with Python's
    own inheritance between them. *)

Inductive exc_class :=
  | Exception
  | ArithmeticError | OverflowError | ZeroDivisionError
  | DecimalException | InvalidOperation | DecimalOverflow | DivisionByZero
  | LookupError | KeyError | IndexError
  | TypeError | AttributeError | RuntimeError | RecursionError | BadZipFile
  | OSError | FileExistsError | FileNotFoundError | BlockingIOError
  | ValueError | UnicodeError | UnicodeDecodeError | UnicodeEncodeError | JSONDecodeError
  | ExactError | ExactPrecisionError | ExactOverflowError | ExactDivisionError
  | DecimalRenderingError
  | ReconstructionError | IdentityBindError | VwapError | DepthRejected
  | FrozenPackageError | EvidenceRejected | CaptureRejected
  | PublicConfigError | AnalyzerConfigError
  | GrantError | LiveAuthorityError | P3OperatorError
  | HTTPException | CompatibilityError.

#[global] Instance exc_class_eq_dec : EqDecision exc_class.
Proof. solve_decision. Defined.

(** The direct base class of each exception class. *)
Definition exc_base (c : exc_class) : option exc_class :=
  match c with
  | Exception => None
  | ArithmeticError | LookupError | TypeError | AttributeError | OSError
  | RuntimeError | ValueError | BadZipFile | HTTPException => Some Exception
  | OverflowError | ZeroDivisionError | DecimalException => Some ArithmeticError
  | InvalidOperation | DecimalOverflow | DivisionByZero => Some DecimalException
  | KeyError | IndexError => Some LookupError
  | FileExistsError | FileNotFoundError | BlockingIOError => Some OSError
  | RecursionError | PublicConfigError | AnalyzerConfigError => Some RuntimeError
  | UnicodeError | JSONDecodeError | ExactError | DecimalRenderingError
  | ReconstructionError | IdentityBindError | VwapError | DepthRejected
  | FrozenPackageError | EvidenceRejected | CaptureRejected
  | GrantError | LiveAuthorityError | P3OperatorError | CompatibilityError => Some ValueError
  | UnicodeDecodeError | UnicodeEncodeError => Some UnicodeError
  | ExactPrecisionError | ExactOverflowError | ExactDivisionError => Some ExactError
  end.

(** [isinstance] on classes; the inheritance tree is four levels deep. *)
Fixpoint exc_subclass_fuel (fuel : nat) (c d : exc_class) : bool :=
  bool_decide (c = d) ||
  match fuel, exc_base c with
  | S fuel, Some b => exc_subclass_fuel fuel b d
  | _, _ => false
  end.

Definition exc_subclass : exc_class -> exc_class -> bool := exc_subclass_fuel 4.

(** A raised exception: its class and its message.  The classes that carry a
    [code] attribute ([FrozenPackageError], [EvidenceRejected], ...) pass the
    code's value to [super().__init__], so the message is the code. *)
Record exn := Exc { exn_class : exc_class; exn_msg : string }.

#[global] Instance exn_eq_dec : EqDecision exn.
Proof. solve_decision. Defined.

(** ** The result monad: a Python call returns a value or raises. *)

Inductive result (A : Type) :=
  | Ok (a : A)
  | Raise (e : exn).
Arguments Ok {A} a.
Arguments Raise {A} e.

#[global] Instance result_ret : MRet result := @Ok.
#[global] Instance result_bind : MBind result := fun A B f m =>
  match m with Ok a => f a | Raise e => Raise e end.
#[global] Instance result_fmap : FMap result := fun A B f m =>
  match m with Ok a => Ok (f a) | Raise e => Raise e end.

#[global] Instance result_eq_dec {A} `{EqDecision A} : EqDecision (result A).
Proof. solve_decision. Defined.

Definition raise {A} (c : exc_class) (msg : string) : result A := Raise (Exc c msg).

(** [if b: raise c(msg)] *)
Definition raise_if (b : bool) (c : exc_class) (msg : string) : result unit :=
  if b then raise c msg else Ok tt.

(** [try: m; except cs as e: h e] *)
Definition try_except {A} (m : result A) (cs : list exc_class) (h : exn -> result A)
  : result A :=
  match m with
  | Ok a => Ok a
  | Raise e => if existsb (exc_subclass (exn_class e)) cs then h e else Raise e
  end.

(** [for x in l: s = step(s, x)], an exception leaving the loop. *)
Fixpoint foldM {A S} (step : S -> A -> result S) (s : S) (l : list A) : result S :=
  match l with
  | [] => Ok s
  | x :: l => s ← step s x; foldM step s l
  end.

(** [tuple(f(x) for x in l)] *)
Fixpoint mapR {A B} (f : A -> result B) (l : list A) : result (list B) :=
  match l with
  | [] => Ok []
  | x :: l => y ← f x; ys ← mapR f l; Ok (y :: ys)
  end.

Definition is_Ok {A} (m : result A) : bool :=
  match m with Ok _ => true | Raise _ => false end.

Lemma is_Ok_exists {A} (m : result A) : is_Ok m = true -> exists a, m = Ok a.
Proof. destruct m; [by eexists|done]. Qed.

(** The same, with what a test says of the value. *)
Lemma Ok_satisfies {A} (p : A -> bool) (m : result A) :
  match m with Ok a => p a | Raise _ => false end = true -> exists a, m = Ok a /\ p a = true.
Proof. destruct m; [by eexists|done]. Qed.

Lemma both_satisfy {A B} (m : result A) (f : A -> result B) (p : B -> bool) :
  match m with Ok a => match f a with Ok b => p b | Raise _ => false end | Raise _ => false end = true ->
  exists a b, m = Ok a /\ f a = Ok b /\ p b = true.
Proof. destruct m as [a|]; [|done]. destruct (f a) as [b|] eqn:E; [|done]. intros Hp. by exists a, b. Qed.

Lemma is_Ok_unit (m : result unit) : is_Ok m = true -> m = Ok tt.
Proof. by destruct m as [[]|]. Qed.

Lemma chain_satisfies {A B C D} (m : result A) (f : A -> result B) (g : B -> result C) (h : C -> result D)
    (p : B -> C -> D -> bool) :
  match m with
  | Ok a => match f a with
            | Ok b => match g b with
                      | Ok c => match h c with Ok d => p b c d | Raise _ => false end
                      | Raise _ => false
                      end
            | Raise _ => false
            end
  | Raise _ => false
  end = true ->
  exists a b c d, m = Ok a /\ f a = Ok b /\ g b = Ok c /\ h c = Ok d /\ p b c d = true.
Proof.
  destruct m as [a|]; [|done]. destruct (f a) as [b|] eqn:E; [|done]. destruct (g b) as [c|] eqn:E'; [|done].
  destruct (h c) as [d|] eqn:E''; [|done]. intros Hp. by exists a, b, c, d.
Qed.

Definition isSome {A} (o : option A) : bool :=
  match o with Some _ => true | None => false end.

(** A value that must be present. *)
Definition expect {A} (o : option A) (c : exc_class) (msg : string) : result A :=
  match o with Some a => Ok a | None => raise c msg end.

Lemma expect_Ok {A} (o : option A) c msg a : expect o c msg = Ok a <-> o = Some a.
Proof. destruct o; cbn; unfold raise; naive_solver. Qed.

(** ** Inversion lemmas and the tactics built on them *)

Section result_lemmas.
Context {A B : Type}.

Lemma bind_Ok (f : A -> result B) m b :
  m ≫= f = Ok b <-> exists a, m = Ok a /\ f a = Ok b.
Proof. destruct m; cbn; split; [eauto|by intros (? & [= ->] & ?)|done|by intros (? & [=] & ?)]. Qed.

Lemma bind_Raise (f : A -> result B) m e :
  m ≫= f = Raise e <-> m = Raise e \/ exists a, m = Ok a /\ f a = Raise e.
Proof. destruct m; cbn; naive_solver. Qed.

Lemma fmap_Ok (f : A -> B) m b :
  f <$> m = Ok b <-> exists a, m = Ok a /\ b = f a.
Proof. destruct m; cbn; naive_solver. Qed.

Lemma raise_if_Ok b c msg u : raise_if b c msg = Ok u <-> b = false.
Proof. destruct b, u; cbn; naive_solver. Qed.

Lemma raise_if_Raise b c msg e : raise_if b c msg = Raise e <-> b = true /\ e = Exc c msg.
Proof. destruct b; cbn; unfold raise; naive_solver. Qed.

Lemma try_except_Ok (m : result A) cs h a :
  try_except m cs h = Ok a ->
  m = Ok a \/ exists e, m = Raise e /\ h e = Ok a.
Proof. destruct m; cbn; [naive_solver|]. destruct (existsb _ _); naive_solver. Qed.

End result_lemmas.

Section loop_lemmas.
Context {A B : Type}.

Lemma foldM_app (step : B -> A -> result B) s l1 l2 :
  foldM step s (l1 ++ l2) = s' ← foldM step s l1; foldM step s' l2.
Proof.
  revert s; induction l1 as [|x l1 IH]; intros s; cbn; [done|].
  destruct (step s x); cbn; [apply IH|done].
Qed.

(** The invariant rule of a loop. *)
Lemma foldM_invariant (P : B -> Prop) (step : B -> A -> result B) s l s' :
  P s -> (forall s x s', x ∈ l -> P s -> step s x = Ok s' -> P s') ->
  foldM step s l = Ok s' -> P s'.
Proof.
  revert s; induction l as [|x l IH]; intros s Hs Hstep; cbn; [naive_solver|].
  intros (t & Ht & Hl)%bind_Ok. eapply (IH t); [| |done].
  - eapply Hstep; [left|done|done].
  - intros ??? Hin. apply Hstep. by right.
Qed.

Lemma mapR_Ok (f : A -> result B) l ys :
  mapR f l = Ok ys <-> Forall2 (fun x y => f x = Ok y) l ys.
Proof.
  revert ys; induction l as [|x l IH]; intros ys; cbn.
  - split; [intros [= <-]; constructor|by inversion 1].
  - split.
    + intros (y & Hy & (ys' & Hys & [= <-])%bind_Ok)%bind_Ok.
      constructor; [done|by apply IH].
    + inversion 1 as [|?? ? ys' Hy Hys]; subst.
      apply IH in Hys. by rewrite Hy, Hys.
Qed.

Lemma mapR_length (f : A -> result B) l ys : mapR f l = Ok ys -> length ys = length l.
Proof. intros H%mapR_Ok. symmetry. by eapply Forall2_length. Qed.
End loop_lemmas.

Lemma mapR_map {A B C} (f : A -> B) (g : A -> C) (h : B -> result C) l :
  Forall (fun x => h (f x) = Ok (g x)) l -> mapR h (map f l) = Ok (map g l).
Proof. induction 1 as [|x l Hx _ IH]; cbn [map mapR]; [done|]. by rewrite Hx, IH. Qed.

(** [for value in values: check(value)] *)
Definition require_all {A} (check : A -> result unit) (l : list A) : result unit :=
  foldM (fun _ x => check x) tt l.

Lemma require_all_Ok {A} (check : A -> result unit) l :
  require_all check l = Ok tt <-> Forall (fun x => check x = Ok tt) l.
Proof.
  unfold require_all. induction l as [|x l IH]; cbn [foldM]; [done|]. rewrite Forall_cons, <- IH, bind_Ok.
  split; [by intros ([] & ? & ?)|intros [? ?]; by exists tt].
Qed.

(** Splits every successful computation of the context into its steps. *)
Ltac inv_step :=
  match goal with
  | H : _ ≫= _ = Ok _ |- _ => apply bind_Ok in H as (? & ? & ?)
  | H : mbind _ _ = Ok _ |- _ => apply bind_Ok in H as (? & ? & ?)
  | H : _ <$> _ = Ok _ |- _ => apply fmap_Ok in H as (? & ? & ?)
  | H : raise_if _ _ _ = Ok _ |- _ => apply raise_if_Ok in H
  | H : expect _ _ _ = Ok _ |- _ => apply expect_Ok in H
  | H : raise _ _ = Ok _ |- _ => discriminate H
  | H : Raise _ = Ok _ |- _ => discriminate H
  | H : Ok _ = Raise _ |- _ => discriminate H
  | H : Ok _ = Ok _ |- _ => injection H as H
  | H : mret _ = Ok _ |- _ => injection H as H
  | H : (_ || _) = false |- _ => apply orb_false_iff in H as [? ?]
  | H : (_ && _) = true |- _ => apply andb_true_iff in H as [? ?]
  | H : negb _ = false |- _ => apply negb_false_iff in H
  | H : negb _ = true |- _ => apply negb_true_iff in H
  | H : bool_decide _ = true |- _ => apply bool_decide_eq_true in H
  | H : bool_decide _ = false |- _ => apply bool_decide_eq_false in H
  | x : unit |- _ => destruct x
  end.
Ltac inv_ok := repeat (inv_step; simplify_eq).

(** Boolean comparisons of the code as propositions. *)
Ltac reflect_bools :=
  repeat match goal with
  | H : (_ <? _)%Z = true |- _ => apply Z.ltb_lt in H
  | H : (_ <? _)%Z = false |- _ => apply Z.ltb_ge in H
  | H : (_ <=? _)%Z = true |- _ => apply Z.leb_le in H
  | H : (_ <=? _)%Z = false |- _ => apply Z.leb_gt in H
  | H : (_ =? _)%Z = true |- _ => apply Z.eqb_eq in H
  | H : (_ =? _)%Z = false |- _ => apply Z.eqb_neq in H
  | H : (_ <? _)%nat = true |- _ => apply Nat.ltb_lt in H
  | H : (_ <? _)%nat = false |- _ => apply Nat.ltb_ge in H
  | H : (_ <=? _)%nat = true |- _ => apply Nat.leb_le in H
  | H : (_ <=? _)%nat = false |- _ => apply Nat.leb_gt in H
  | H : (_ || _) = true |- _ => apply orb_true_iff in H
  | H : (_ || _) = false |- _ => apply orb_false_iff in H as [? ?]
  | H : (_ && _) = true |- _ => apply andb_true_iff in H as [? ?]
  | H : (_ && _) = false |- _ => apply andb_false_iff in H
  | H : negb _ = false |- _ => apply negb_false_iff in H
  | H : negb _ = true |- _ => apply negb_true_iff in H
  | H : bool_decide _ = true |- _ => apply bool_decide_eq_true in H
  | H : bool_decide _ = false |- _ => apply bool_decide_eq_false in H
  end.

Create Rewrite HintDb result_norm.
#[export] Hint Rewrite @bind_Ok @fmap_Ok @raise_if_Ok : result_norm.


(** ** Python's [sorted]: a stable sort, as an insertion sort

    The result of a stable sort is unique, so the algorithm does not matter. *)

Section py_sorted.
Context {A : Type} (leb : A -> A -> bool).

Fixpoint insert_sorted (x : A) (l : list A) : list A :=
  match l with
  | [] => [x]
  | y :: l => if leb x y then x :: y :: l else y :: insert_sorted x l
  end.

Definition py_sorted (l : list A) : list A := foldr insert_sorted [] l.

Lemma insert_sorted_perm x l : insert_sorted x l ≡ₚ x :: l.
Proof.
  induction l as [|y l IH]; cbn; [done|]. destruct (leb x y); [done|].
  rewrite IH. apply Permutation_swap.
Qed.

Lemma py_sorted_perm l : py_sorted l ≡ₚ l.
Proof.
  induction l as [|x l IH]; [done|]. change (insert_sorted x (py_sorted l) ≡ₚ x :: l).
  by rewrite insert_sorted_perm, IH.
Qed.

Lemma py_sorted_elem x l : x ∈ py_sorted l <-> x ∈ l.
Proof. by rewrite py_sorted_perm. Qed.

Context (leb_total : forall x y, leb x y = true \/ leb y x = true).
Context (leb_trans : forall x y z, leb x y = true -> leb y z = true -> leb x z = true).

Lemma insert_sorted_sorted x l :
  StronglySorted (fun x y => leb x y = true) l ->
  StronglySorted (fun x y => leb x y = true) (insert_sorted x l).
Proof.
  induction l as [|y l IH]; intros Hs; cbn; [repeat constructor|].
  inversion Hs as [|?? Hl Hy]; subst. destruct (leb x y) eqn:E.
  - constructor; [done|]. constructor; [done|]. eapply Forall_impl; [exact Hy|eauto].
  - constructor; [by apply IH|]. rewrite insert_sorted_perm. constructor; [|done].
    destruct (leb_total x y); congruence.
Qed.

Lemma py_sorted_sorted l : StronglySorted (fun x y => leb x y = true) (py_sorted l).
Proof. induction l; cbn; [constructor|by apply insert_sorted_sorted]. Qed.
End py_sorted.

(** A list already in order is left as it is. *)
Lemma py_sorted_id {A} (leb : A -> A -> bool) l :
  StronglySorted (fun x y => leb x y = true) l -> py_sorted leb l = l.
Proof.
  induction 1 as [|x l Hl IH Hx]; [done|].
  change (insert_sorted leb x (py_sorted leb l) = x :: l). rewrite IH.
  destruct l as [|y l]; cbn; [done|]. apply Forall_inv in Hx. by rewrite Hx.
Qed.

(** ** Equality of the sets of two lists *)

Definition same_members {A} `{EqDecision A} (l k : list A) : bool :=
  forallb (fun x => bool_decide (x ∈ k)) l && forallb (fun x => bool_decide (x ∈ l)) k.

Lemma same_members_spec {A} `{EqDecision A} (l k : list A) :
  same_members l k = true <-> forall x, x ∈ l <-> x ∈ k.
Proof.
  unfold same_members. rewrite andb_true_iff, !forallb_forall.
  setoid_rewrite bool_decide_eq_true. setoid_rewrite <- list_elem_of_In. naive_solver.
Qed.

(** ** [List.filter] *)

Lemma list_filter_perm {A} (p : A -> bool) l k : l ≡ₚ k -> List.filter p l ≡ₚ List.filter p k.
Proof.
  induction 1 as [| x l k _ IH | x y l | l k h _ IH1 _ IH2]; cbn [List.filter]; [done|by destruct (p x); rewrite ?IH| |by etrans].
  destruct (p x), (p y); try done. apply Permutation_swap.
Qed.

Lemma list_filter_none {A} (p : A -> bool) l : (forall x, x ∈ l -> p x = false) -> List.filter p l = [].
Proof.
  induction l as [|x l IH]; intros Hp; [done|]. cbn [List.filter]. rewrite (Hp x) by left. apply IH. intros y Hy. apply Hp. by right.
Qed.

Lemma list_filter_all {A} (p : A -> bool) l : (forall x, x ∈ l -> p x = true) -> List.filter p l = l.
Proof.
  induction l as [|x l IH]; intros Hl; [done|]. cbn [List.filter]. rewrite (Hl x) by left. f_equal. apply IH.
  intros y Hy. apply Hl. by right.
Qed.

(** ** Which exceptions a computation can raise

    [fails_with c m]: when [m] raises, it raises an instance of [c]. *)

Definition fails_with {A} (c : exc_class) (m : result A) : Prop :=
  match m with Ok _ => True | Raise e => exc_subclass (exn_class e) c = true end.

Section fails_with.
Context {A B : Type} (c : exc_class).

Lemma fails_with_Raise (m : result A) e :
  fails_with c m -> m = Raise e -> exc_subclass (exn_class e) c = true.
Proof. by intros H ->. Qed.

Lemma fails_with_intro (m : result A) :
  (forall e, m = Raise e -> exc_subclass (exn_class e) c = true) -> fails_with c m.
Proof. destruct m; cbn; auto. Qed.

Lemma fails_Ok (a : A) : fails_with c (Ok a).
Proof. done. Qed.

Lemma fails_raise d msg : exc_subclass d c = true -> fails_with c (raise (A := A) d msg).
Proof. done. Qed.

Lemma fails_raise_if b d msg : exc_subclass d c = true -> fails_with c (raise_if b d msg).
Proof. by destruct b. Qed.

Lemma fails_expect (o : option A) d msg : exc_subclass d c = true -> fails_with c (expect o d msg).
Proof. by destruct o. Qed.

Lemma fails_bind (m : result A) (f : A -> result B) :
  fails_with c m -> (forall a, m = Ok a -> fails_with c (f a)) -> fails_with c (m ≫= f).
Proof. destruct m; cbn; auto. Qed.

Lemma fails_fmap (m : result A) (f : A -> B) : fails_with c m -> fails_with c (f <$> m).
Proof. by destruct m. Qed.

Lemma fails_mapR (f : A -> result B) l :
  (forall x, x ∈ l -> fails_with c (f x)) -> fails_with c (mapR f l).
Proof.
  induction l as [|x l IH]; intros Hf; cbn; [done|].
  specialize (Hf x ltac:(left)) as Hx.
  assert (fails_with c (mapR f l)) as Hl by (apply IH; intros y Hy; apply Hf; by right).
  destruct (f x); cbn; [|done]. by destruct (mapR f l).
Qed.

(** A loop whose invariant [P] makes every turn fail with [c]. *)
Lemma fails_foldM (P : B -> Prop) (step : B -> A -> result B) s l :
  P s -> (forall s x, x ∈ l -> P s -> fails_with c (step s x)) ->
  (forall s x s', x ∈ l -> P s -> step s x = Ok s' -> P s') ->
  fails_with c (foldM step s l).
Proof.
  revert s; induction l as [|x l IH]; intros s Hs Hf Hp; cbn; [done|].
  pose proof (Hf s x ltac:(left) Hs) as Hx. destruct (step s x) as [s'|e] eqn:E; cbn; [|done].
  apply IH; [by eapply Hp; [left|..]|..].
  - intros t y Hy. apply Hf. by right.
  - intros t y t' Hy. apply Hp. by right.
Qed.
End fails_with.

Create HintDb fails.
#[export] Hint Resolve fails_Ok fails_fmap : fails.
#[export] Hint Extern 1 (exc_subclass _ _ = true) => reflexivity : fails.

(** Follows a computation down to its primitive steps. *)
Ltac fails_step :=
  match goal with
  | |- fails_with _ (_ ≫= _) => apply fails_bind; [|intros]
  | |- fails_with _ (mbind _ _) => apply fails_bind; [|intros]
  | |- fails_with _ (_ <$> _) => apply fails_fmap
  | |- fails_with _ (raise _ _) => apply fails_raise; reflexivity
  | |- fails_with _ (raise_if _ _ _) => apply fails_raise_if; reflexivity
  | |- fails_with _ (expect _ _ _) => apply fails_expect; reflexivity
  | |- fails_with _ (Ok _) => exact I
  | |- fails_with _ (Raise (Exc _ _)) => reflexivity
  | |- fails_with _ (match ?x with _ => _ end) => destruct x eqn:?
  | |- fails_with _ (let '(_, _) := ?x in _) => destruct x eqn:?
  | |- fails_with _ _ => solve [eauto with fails]
  end.
Ltac fails := repeat fails_step.

(** A computation only raises what an [except] clause lists. *)
Definition caught {A} (cs : list exc_class) (m : result A) : Prop :=
  match m with Ok _ => True | Raise e => existsb (exc_subclass (exn_class e)) cs = true end.

Lemma caught_fails {A} c cs (m : result A) : c ∈ cs -> fails_with c m -> caught cs m.
Proof.
  intros Hc. destruct m as [|e]; [done|]. cbn. intros Hs. apply existsb_exists. exists c.
  by rewrite <- list_elem_of_In.
Qed.

Lemma caught_bind {A B} cs (m : result A) (f : A -> result B) :
  caught cs m -> (forall a, m = Ok a -> caught cs (f a)) -> caught cs (m ≫= f).
Proof. destruct m; cbn; auto. Qed.

Lemma Forall_at {A} (P : A -> Prop) l x : Forall P l -> x ∈ l -> P x.
Proof. intros H Hx. by eapply Forall_forall in H. Qed.

Lemma StronglySorted_map {A B} (R : B -> B -> Prop) (f : A -> B) l :
  StronglySorted (fun x y => R (f x) (f y)) l <-> StronglySorted R (map f l).
Proof.
  induction l as [|x l IH]; cbn; [by split; constructor|].
  split; inversion 1; subst; constructor; try (by apply IH); by apply Forall_map.
Qed.

(** A list is determined by its elements and the order of their keys. *)
Lemma perm_by_key {A B} (f : A -> B) (l k : list A) :
  l ≡ₚ k -> NoDup (map f l) -> map f l = map f k -> l = k.
Proof.
  revert k; induction l as [|x l IH]; intros [|y k] Hp Hd Hm; cbn in *; try done.
  injection Hm as Hv Hm. apply NoDup_cons in Hd as [Hn Hd].
  assert (x = y) as ->.
  { assert (y ∈ x :: l) as Hin by (rewrite Hp; by left).
    apply elem_of_cons in Hin as [->|Hin]; [done|]. exfalso. apply Hn. rewrite Hv.
    by apply list_elem_of_fmap_2. }
  f_equal. apply IH; [by apply (Permutation_cons_inv (a := y))|done..].
Qed.

Lemma StronglySorted_weaken {A} (R S : A -> A -> Prop) l :
  (forall x y, R x y -> S x y) -> StronglySorted R l -> StronglySorted S l.
Proof.
  intros HRS. induction 1 as [|x l _ IH Hx]; constructor; [done|]. eapply Forall_impl; [exact Hx|]. eauto.
Qed.

Lemma StronglySorted_snoc {A} (R : A -> A -> Prop) l y :
  StronglySorted R l -> (forall x, x ∈ l -> R x y) -> StronglySorted R (l ++ [y]).
Proof.
  induction 1 as [|x l Hs IH Hx]; intros Hy; cbn; [by repeat constructor|].
  constructor; [apply IH; intros z Hz; apply Hy; by right|].
  apply Forall_app. split; [done|]. apply Forall_cons_2, Forall_nil_2. apply Hy. by left.
Qed.

(** [len(l)] *)
Definition zlength {A} (l : list A) : Z := Z.of_nat (length l).

Lemma zlength_app {A} (l k : list A) : zlength (l ++ k) = (zlength l + zlength k)%Z.
Proof. unfold zlength. rewrite length_app. lia. Qed.

Lemma zlength_nonneg {A} (l : list A) : (0 <= zlength l)%Z.
Proof. unfold zlength. lia. Qed.
