(* ===== verification/PyStr.v ===== *)
(** * Python's [str] and [int] conversions

    A Python string is the list of its code points ([pystr]); [u "..."] is a
    literal.  The file models the string operations the packages use ([strip],
    [split], [startswith], [isdigit], [casefold]), [int(text, base)] and
    [str(int)], with the Unicode tables of Python 3.12 (Unicode 15.0, the oldest
    version the packages support), and proves the laws of digit conversion the
    components need. *)

From S2P Require Import Prelude.
From Stdlib Require Import Ascii.
Open Scope Z_scope.

Abbreviation pystr := (list Z).

(** A literal: the code points of an ASCII text of the source. *)
Definition u (s : string) : pystr :=
  map (fun a => Z.of_N (N_of_ascii a)) (String.list_ascii_of_string s).

Definition str_eqb (s t : pystr) : bool := bool_decide (s = t).

Lemma str_eqb_spec s t : str_eqb s t = true <-> s = t.
Proof. apply bool_decide_eq_true. Qed.

Lemma str_eqb_refl s : str_eqb s s = true.
Proof. by apply str_eqb_spec. Qed.

Lemma str_eqb_false s t : str_eqb s t = false <-> s <> t.
Proof. apply bool_decide_eq_false. Qed.

(** ** Unicode properties *)
Module Unicode.

(** The first code point of every run of ten decimal digits (category Nd). *)
Definition nd_starts : list Z :=
  [48; 1632; 1776; 1984; 2406; 2534; 2662; 2790; 2918; 3046; 3174; 3302; 3430;
   3558; 3664; 3792; 3872; 4160; 4240; 6112; 6160; 6470; 6608; 6784; 6800; 6992;
   7088; 7232; 7248; 42528; 43216; 43264; 43472; 43504; 43600; 44016; 65296;
   66720; 68912; 69734; 69872; 69942; 70096; 70384; 70736; 70864; 71248; 71360;
   71472; 71904; 72016; 72784; 73040; 73120; 73552; 92768; 92864; 93008; 120782;
   120792; 120802; 120812; 120822; 123200; 123632; 124144; 125264; 130032].

(** Digits that are not decimal digits: superscripts, circled digits, ... *)
Definition other_digits : list (Z * Z) :=
  [(178, 179); (185, 185); (4969, 4977); (6618, 6618); (8304, 8304); (8308, 8313);
   (8320, 8329); (9312, 9320); (9332, 9340); (9352, 9360); (9450, 9450);
   (9461, 9469); (9471, 9471); (10102, 10110); (10112, 10120); (10122, 10130);
   (68160, 68163); (69216, 69224); (69714, 69722); (127232, 127242)].

Definition spaces : list Z :=
  [9; 10; 11; 12; 13; 28; 29; 30; 31; 32; 133; 160; 5760; 8192; 8193; 8194; 8195;
   8196; 8197; 8198; 8199; 8200; 8201; 8202; 8232; 8233; 8239; 8287; 12288].

Definition in_run (c s : Z) : bool := (s <=? c) && (c <? s + 10).

(** [unicodedata.decimal] *)
Definition decimal (c : Z) : option Z :=
  if in_run c 48 then Some (c - 48) else
  match List.find (in_run c) nd_starts with Some s => Some (c - s) | None => None end.

Definition isdigit (c : Z) : bool :=
  match decimal c with
  | Some _ => true
  | None => existsb (fun '(a, b) => (a <=? c) && (c <=? b)) other_digits
  end.

Definition isspace (c : Z) : bool := existsb (Z.eqb c) spaces.

(** [str.casefold] of one code point, for every code point whose folding
    contains an ASCII character.  The packages compare folded text with ASCII
    constants only, and the remaining code points never fold into ASCII, so
    leaving them unchanged decides those comparisons as Python does. *)
Definition casefold (c : Z) : pystr :=
  if (65 <=? c) && (c <=? 90) then [c + 32]
  else match c with
  | 223 | 7838 => u "ss" | 304 => [105; 775] | 329 => [700; 110] | 383 => u "s"
  | 496 => [106; 780] | 7830 => [104; 817] | 7831 => [116; 776] | 7832 => [119; 778]
  | 7833 => [121; 778] | 7834 => [97; 702] | 8490 => u "k" | 64256 => u "ff"
  | 64257 => u "fi" | 64258 => u "fl" | 64259 => u "ffi" | 64260 => u "ffl"
  | 64261 | 64262 => u "st"
  | _ => [c]
  end.
End Unicode.

(** ** [str] methods *)

Definition str_isdigit (s : pystr) : bool :=
  match s with [] => false | _ => forallb Unicode.isdigit s end.

Definition str_casefold (s : pystr) : pystr := flat_map Unicode.casefold s.

Fixpoint drop_while (p : Z -> bool) (s : pystr) : pystr :=
  match s with
  | [] => []
  | c :: t => if p c then drop_while p t else s
  end.

Definition strip_by (p : Z -> bool) (s : pystr) : pystr :=
  rev (drop_while p (rev (drop_while p s))).

Definition str_strip : pystr -> pystr := strip_by Unicode.isspace.

(** [s.rstrip(chr(c))] *)
Definition str_rstrip (c : Z) (s : pystr) : pystr :=
  rev (drop_while (Z.eqb c) (rev s)).

(** [s.split(chr(sep))] *)
Fixpoint str_split (sep : Z) (s : pystr) : list pystr :=
  match s with
  | [] => [[]]
  | c :: t =>
    if c =? sep then [] :: str_split sep t
    else match str_split sep t with
         | w :: ws => (c :: w) :: ws
         | [] => [[c]]
         end
  end.

Fixpoint str_startswith (prefix s : pystr) : bool :=
  match prefix, s with
  | [], _ => true
  | p :: prefix, c :: s => (p =? c) && str_startswith prefix s
  | _ :: _, [] => false
  end.

(** [chr(c) in s] *)
Definition str_contains (c : Z) (s : pystr) : bool := existsb (Z.eqb c) s.

(** ** Positional notation *)

(** The digits of [n], most significant first; [0] has the single digit 0.
    Each step divides by [base >= 2], so [log2 n] further steps are enough. *)
Fixpoint digits_fuel (fuel : nat) (base n : Z) (acc : list Z) : list Z :=
  let acc := (n mod base) :: acc in
  match fuel with
  | O => acc
  | S fuel => if n / base =? 0 then acc else digits_fuel fuel base (n / base) acc
  end.

Definition digits (base n : Z) : list Z :=
  digits_fuel (Z.to_nat (Z.log2 n)) base n [].

Definition of_digits (base : Z) (ds : list Z) : Z :=
  fold_left (fun a d => a * base + d) ds 0.

(** The character of a digit below 16, lower case. *)
Definition digit_char (d : Z) : Z := if d <? 10 then 48 + d else 87 + d.

Definition str_of_nonneg (base n : Z) : pystr := map digit_char (digits base n).

(** [str(z)] *)
Definition str_of_Z (z : Z) : pystr :=
  if z <? 0 then 45 :: str_of_nonneg 10 (- z) else str_of_nonneg 10 z.

(** [s.zfill]-like padding of [f"{n:0kd}"] and [f"{n:0kx}"] for [n >= 0]. *)
Definition pad_zeros (width : nat) (s : pystr) : pystr :=
  repeat 48 (width - length s) ++ s.

(** ** [int(text, base)] for bases 10 and 16 *)

(** White space [int] skips: the C locale's for ASCII, Unicode's elsewhere. *)
Definition int_space (c : Z) : bool :=
  if c <? 128 then ((9 <=? c) && (c <=? 13)) || (c =? 32) else Unicode.isspace c.

Definition int_digit (base c : Z) : option Z :=
  match Unicode.decimal c with
  | Some d => Some d
  | None =>
    if base =? 16 then
      if (97 <=? c) && (c <=? 102) then Some (c - 87)
      else if (65 <=? c) && (c <=? 70) then Some (c - 55) else None
    else None
  end.

(** Digits with single underscores between them. *)
Fixpoint int_digits (base : Z) (s : pystr) : option (list Z) :=
  match s with
  | [] => None
  | c :: t =>
    d ← int_digit base c;
    match t with
    | [] => Some [d]
    | 95 :: t' => ds ← int_digits base t'; Some (d :: ds)
    | _ => ds ← int_digits base t; Some (d :: ds)
    end
  end.

(** [sys.int_info.default_max_str_digits] *)
Definition max_str_digits : nat := 4300.

Definition split_sign (s : pystr) : Z * pystr :=
  match s with
  | 45 :: t => (-1, t)
  | 43 :: t => (1, t)
  | _ => (1, s)
  end.

Definition skip_hex_prefix (s : pystr) : pystr :=
  match s with
  | 48 :: x :: t =>
    if (x =? 120) || (x =? 88) then match t with 95 :: t' => t' | _ => t end else s
  | _ => s
  end.

Definition py_int (base : Z) (s : pystr) : result Z :=
  let '(sign, t) := split_sign (strip_by int_space s) in
  match int_digits base (if base =? 16 then skip_hex_prefix t else t) with
  | None => raise ValueError "invalid literal for int()"
  | Some ds =>
    raise_if ((base =? 10) && (max_str_digits <? length ds)%nat) ValueError
      "Exceeds the limit (4300 digits) for integer string conversion" ;;
    Ok (sign * of_digits base ds)
  end.

(** [str(z)], which refuses integers of more than 4300 digits. *)
Definition py_str_int (z : Z) : result pystr :=
  raise_if (max_str_digits <? length (digits 10 (Z.abs z)))%nat ValueError
    "Exceeds the limit (4300 digits) for integer string conversion" ;;
  Ok (str_of_Z z).

Example py_int_ex1 : py_int 10 (u " -1_000 ") = Ok (-1000). Proof. reflexivity. Qed.
Example py_int_ex2 : py_int 10 [1635; 1636] = Ok 34. Proof. reflexivity. Qed.
Example py_int_ex3 : is_Ok (py_int 10 [178]) = false. Proof. reflexivity. Qed.
Example py_int_ex4 : py_int 16 (u "-0x_1F") = Ok (-31). Proof. reflexivity. Qed.
Example py_int_ex5 : is_Ok (py_int 10 (u "1__0")) = false. Proof. reflexivity. Qed.

(** ** Laws of positional notation *)

Section digits_laws.
Context (base : Z) (Hbase : 2 <= base).

Lemma of_digits_snoc ds d : of_digits base (ds ++ [d]) = of_digits base ds * base + d.
Proof. unfold of_digits. by rewrite fold_left_app. Qed.

Lemma of_digits_app xs ys :
  of_digits base (xs ++ ys) = of_digits base xs * base ^ Z.of_nat (length ys) + of_digits base ys.
Proof.
  induction ys as [|y ys IH] using rev_ind.
  - rewrite app_nil_r. cbn. lia.
  - rewrite app_assoc, !of_digits_snoc, IH, length_app. cbn [length].
    rewrite Nat2Z.inj_add, Z.pow_add_r by lia. cbn. lia.
Qed.

Lemma of_digits_cons d ds :
  of_digits base (d :: ds) = d * base ^ Z.of_nat (length ds) + of_digits base ds.
Proof. apply (of_digits_app [d] ds). Qed.

Lemma of_digits_zeros k ds : of_digits base (repeat 0 k ++ ds) = of_digits base ds.
Proof. induction k as [|k IH]; [done|]. cbn [repeat app]. rewrite of_digits_cons, IH. lia. Qed.

Lemma of_digits_repeat0 k : of_digits base (repeat 0 k) = 0.
Proof. rewrite <- (app_nil_r (repeat 0 k)). apply of_digits_zeros. Qed.

Lemma of_digits_bound ds :
  Forall (fun d => 0 <= d < base) ds ->
  0 <= of_digits base ds < base ^ Z.of_nat (length ds).
Proof.
  induction 1 as [|d ds Hd _ IH]; [cbn; lia|].
  rewrite of_digits_cons. cbn [length]. rewrite Nat2Z.inj_succ, Z.pow_succ_r by lia. nia.
Qed.

Lemma digits_fuel_value fuel n acc :
  0 <= n < 2 ^ Z.of_nat (S fuel) ->
  of_digits base (digits_fuel fuel base n acc) = of_digits base (n :: acc).
Proof.
  revert n acc; induction fuel as [|fuel IH]; intros n acc Hn; cbn [digits_fuel].
  - rewrite Z.mod_small; [done|]. cbn in Hn. lia.
  - rewrite Nat2Z.inj_succ, Z.pow_succ_r in Hn by lia.
    pose proof (Z.div_mod n base ltac:(lia)) as Hdm.
    destruct (n / base =? 0) eqn:E; reflect_bools.
    + rewrite E in Hdm. repeat f_equal. lia.
    + rewrite IH, !of_digits_cons by
        (split; [apply Z.div_pos; lia|apply Z.div_lt_upper_bound; nia]).
      cbn [length]. rewrite Nat2Z.inj_succ, Z.pow_succ_r by lia. nia.
Qed.

Lemma log2_fuel n : 0 <= n -> 0 <= n < 2 ^ Z.of_nat (S (Z.to_nat (Z.log2 n))).
Proof.
  intros Hn. rewrite Nat2Z.inj_succ, Z2Nat.id by apply Z.log2_nonneg.
  destruct (Z.eq_dec n 0) as [->|]; [done|]. pose proof (Z.log2_spec n). lia.
Qed.

Lemma of_digits_digits n : 0 <= n -> of_digits base (digits base n) = n.
Proof.
  intros Hn. unfold digits. rewrite digits_fuel_value by by apply log2_fuel. done.
Qed.

Lemma digits_fuel_range fuel n acc :
  Forall (fun d => 0 <= d < base) acc ->
  Forall (fun d => 0 <= d < base) (digits_fuel fuel base n acc).
Proof.
  revert n acc; induction fuel as [|fuel IH]; intros n acc Hacc; cbn [digits_fuel];
    [|destruct (_ =? _); [|apply IH]]; constructor; auto; by apply Z.mod_pos_bound; lia.
Qed.

Lemma digits_range n : Forall (fun d => 0 <= d < base) (digits base n).
Proof. by apply digits_fuel_range. Qed.

Lemma digits_fuel_length fuel n acc k :
  0 <= n < base ^ Z.of_nat (S k) ->
  (length (digits_fuel fuel base n acc) <= S k + length acc)%nat.
Proof.
  revert n acc k; induction fuel as [|fuel IH]; intros n acc k Hn; cbn [digits_fuel];
    [cbn; lia|].
  destruct (n / base =? 0) eqn:E; reflect_bools; [cbn; lia|].
  rewrite Nat2Z.inj_succ, Z.pow_succ_r in Hn by lia.
  assert (0 <= n / base) by (apply Z.div_pos; lia).
  destruct k as [|k].
  - cbn in Hn. rewrite Z.div_small in E; lia.
  - specialize (IH (n / base) (n mod base :: acc) k). cbn [length] in IH. etransitivity; [apply IH|lia].
    split; [lia|]. apply Z.div_lt_upper_bound; lia.
Qed.

Lemma digits_length n k :
  0 <= n < base ^ Z.of_nat (S k) -> (length (digits base n) <= S k)%nat.
Proof. intros Hn. etransitivity; [by apply (digits_fuel_length _ _ _ k)|]. cbn [length]. lia. Qed.

(** The digits of [n] padded with zeros to a width. *)
Definition padded_digits (width : nat) (n : Z) : list Z :=
  repeat 0 (width - length (digits base n)) ++ digits base n.

Lemma padded_digits_length k n :
  0 <= n < base ^ Z.of_nat (S k) -> length (padded_digits (S k) n) = S k.
Proof. intros Hn. unfold padded_digits. rewrite length_app, repeat_length. pose proof (digits_length n k Hn). lia. Qed.

Lemma padded_digits_range width n : Forall (fun d => 0 <= d < base) (padded_digits width n).
Proof.
  apply Forall_app. split; [|apply digits_range].
  apply Forall_forall. intros x Hx%list_elem_of_In%repeat_spec. lia.
Qed.

Lemma padded_digits_value width n : 0 <= n -> of_digits base (padded_digits width n) = n.
Proof. intros Hn. unfold padded_digits. rewrite of_digits_zeros. by apply of_digits_digits. Qed.

Lemma pad_zeros_digits width n : pad_zeros width (str_of_nonneg base n) = map digit_char (padded_digits width n).
Proof.
  unfold pad_zeros, padded_digits, str_of_nonneg. rewrite length_map, map_app. f_equal.
  generalize (width - length (digits base n))%nat. intros k. induction k as [|k IH]; [done|].
  cbn [repeat map]. by rewrite IH.
Qed.

Lemma digits_fuel_head fuel n acc :
  0 < n < 2 ^ Z.of_nat (S fuel) ->
  exists d ds, digits_fuel fuel base n acc = d :: ds /\ 0 < d.
Proof.
  revert n acc; induction fuel as [|fuel IH]; intros n acc Hn; cbn [digits_fuel].
  - cbn in Hn. eexists _, _; split; [done|]. rewrite Z.mod_small; lia.
  - rewrite Nat2Z.inj_succ, Z.pow_succ_r in Hn by lia.
    assert (0 <= n / base) by (apply Z.div_pos; lia).
    destruct (n / base =? 0) eqn:E; reflect_bools.
    + eexists _, _; split; [done|]. pose proof (Z.div_mod n base). nia.
    + apply IH. split; [lia|]. apply Z.div_lt_upper_bound; nia.
Qed.

(** No leading zero. *)
Lemma digits_head n : 0 < n -> exists d ds, digits base n = d :: ds /\ 0 < d.
Proof. intros Hn. apply digits_fuel_head. pose proof (log2_fuel n). lia. Qed.

Lemma digits_nonempty n : digits base n <> [].
Proof.
  unfold digits. generalize (Z.to_nat (Z.log2 n)). intros fuel.
  assert (forall acc, digits_fuel fuel base n acc <> []) as H; [|apply H].
  revert n. induction fuel as [|fuel IH]; intros n acc; cbn; [done|].
  destruct (_ =? _); [done|apply IH].
Qed.
End digits_laws.

(** ** [isdigit] text read back by [int] *)

(** Neither white space, nor a sign, a point or an underscore is a digit. *)
Lemma isdigit_not_space c : Unicode.isdigit c = true -> Unicode.isspace c = false.
Proof.
  intros H. apply not_true_is_false. intros (x & Hin & Hx)%existsb_exists. reflect_bools. subst x.
  assert (forallb (fun c => negb (Unicode.isdigit c)) Unicode.spaces = true) as Hall by done.
  rewrite forallb_forall in Hall. specialize (Hall c Hin). by rewrite H in Hall.
Qed.

Lemma isdigit_ne c k :
  Unicode.isdigit c = true -> Unicode.isdigit k = false -> c <> k.
Proof. congruence. Qed.

Lemma isdigit_not_int_space c : Unicode.isdigit c = true -> int_space c = false.
Proof.
  intros H. unfold int_space. destruct (c <? 128) eqn:E; [|by apply isdigit_not_space].
  apply isdigit_not_space in H. apply not_true_is_false. intros Hc.
  enough (Unicode.isspace c = true) by congruence.
  apply existsb_exists. exists c. split; [|apply Z.eqb_refl]. cbn. reflect_bools. lia.
Qed.

Lemma str_isdigit_spec s :
  str_isdigit s = true <-> s <> [] /\ Forall (fun c => Unicode.isdigit c = true) s.
Proof.
  destruct s as [|c s]; [split; [done|by intros []]|].
  unfold str_isdigit. rewrite forallb_forall, Forall_forall.
  setoid_rewrite list_elem_of_In. naive_solver.
Qed.

Lemma str_isdigit_app s t :
  str_isdigit s = true -> Forall (fun c => Unicode.isdigit c = true) t -> str_isdigit (s ++ t) = true.
Proof.
  rewrite !str_isdigit_spec. intros [Hs Ha] Ht. split; [by destruct s|by apply Forall_app].
Qed.

Lemma drop_while_none p s : Forall (fun c => p c = false) s -> drop_while p s = s.
Proof. intros [|c t Hc H]; [done|]. cbn. by rewrite Hc. Qed.

(** Stripping leaves a text whose first and last characters are not stripped. *)
Lemma strip_by_ends p c m d :
  p c = false -> p d = false -> strip_by p (c :: m ++ [d]) = c :: m ++ [d].
Proof.
  intros Hc Hd. unfold strip_by. cbn. rewrite Hc. cbn. rewrite rev_app_distr. cbn.
  rewrite Hd. cbn. rewrite rev_app_distr, rev_involutive. done.
Qed.

Lemma strip_by_none p s : Forall (fun c => p c = false) s -> strip_by p s = s.
Proof.
  intros H. unfold strip_by. rewrite (drop_while_none p s), drop_while_none, rev_involutive;
    [done|by apply Forall_rev|done].
Qed.

Lemma split_sign_digit c s : Unicode.isdigit c = true -> split_sign (c :: s) = (1, c :: s).
Proof.
  intros H. assert (c <> 45) by (by apply isdigit_ne). assert (c <> 43) by (by apply isdigit_ne).
  unfold split_sign. repeat (case_match; try done).
Qed.

Lemma int_digits_isdigit s :
  str_isdigit s = true -> int_digits 10 s = mapM Unicode.decimal s.
Proof.
  intros [Hs H]%str_isdigit_spec. induction H as [|c s Hc H IH]; [done|].
  cbn [int_digits mapM]. unfold int_digit at 1. cbn [Z.eqb].
  replace (match Unicode.decimal c with Some d => Some d | None => _ end)
    with (Unicode.decimal c) by (by destruct (Unicode.decimal c)).
  destruct (Unicode.decimal c) as [d|]; cbn; [|done].
  destruct H as [|c' s' Hc' H']; [done|]. rewrite IH by done.
  assert (c' <> 95) as Hne by (by apply isdigit_ne).
  repeat (case_match; try done).
Qed.

(** [int] on a text that [isdigit] accepts: superscripts and the like are
    refused, and so are more than 4300 digits. *)
Lemma py_int_isdigit s :
  str_isdigit s = true ->
  py_int 10 s =
    match mapM Unicode.decimal s with
    | None => raise ValueError "invalid literal for int()"
    | Some ds =>
      raise_if (max_str_digits <? length ds)%nat ValueError
        "Exceeds the limit (4300 digits) for integer string conversion" ;;
      Ok (of_digits 10 ds)
    end.
Proof.
  intros Hs. pose proof Hs as [Hne H]%str_isdigit_spec. unfold py_int.
  rewrite strip_by_none by (eapply Forall_impl; [done|]; apply isdigit_not_int_space).
  destruct s as [|c s]; [done|]. rewrite split_sign_digit by by apply Forall_inv in H.
  change (10 =? 16) with false; change (10 =? 10) with true. cbn iota.
  rewrite int_digits_isdigit by done.
  destruct (mapM _ _); [|done]. cbn [andb]. by rewrite Z.mul_1_l.
Qed.

(** ** ASCII digits *)

Definition ascii_digits (s : pystr) : Prop := Forall (fun c => 48 <= c <= 57) s.

Lemma decimal_zeros k zs :
  Forall2 (fun c d => Unicode.decimal c = Some d) (repeat 48 k) zs -> zs = repeat 0 k.
Proof.
  revert zs. induction k as [|k IH]; intros zs H; inversion H as [|?? y ys Hy Hys]; subst; [done|].
  injection Hy as <-. cbn. f_equal. by apply IH.
Qed.

Lemma decimal_ascii c : 48 <= c <= 57 -> Unicode.decimal c = Some (c - 48).
Proof.
  intros H. unfold Unicode.decimal, Unicode.in_run.
  rewrite (proj2 (Z.leb_le _ _)), (proj2 (Z.ltb_lt _ _)) by lia. done.
Qed.

Lemma isdigit_decimal c d : Unicode.decimal c = Some d -> Unicode.isdigit c = true.
Proof. intros H. unfold Unicode.isdigit. by rewrite H. Qed.

Lemma ascii_isdigit s : ascii_digits s -> Forall (fun c => Unicode.isdigit c = true) s.
Proof. intros H. eapply Forall_impl; [exact H|]. intros c Hc. by eapply isdigit_decimal, decimal_ascii. Qed.

Lemma str_isdigit_ascii s : s <> [] -> ascii_digits s -> str_isdigit s = true.
Proof. intros Hs H. apply str_isdigit_spec. split; [done|by apply ascii_isdigit]. Qed.

Lemma mapM_decimal_ascii s :
  ascii_digits s -> mapM Unicode.decimal s = Some (map (fun c => c - 48) s).
Proof.
  intros H. apply mapM_Some. induction H as [|c s Hc H IH]; constructor; [|done].
  by apply decimal_ascii.
Qed.

Lemma py_int_ascii s :
  s <> [] -> ascii_digits s -> (length s <= max_str_digits)%nat ->
  py_int 10 s = Ok (of_digits 10 (map (fun c => c - 48) s)).
Proof.
  intros Hs H Hlen. rewrite py_int_isdigit by by apply str_isdigit_ascii.
  rewrite mapM_decimal_ascii, length_map by done.
  by rewrite (proj2 (Nat.ltb_ge _ _)).
Qed.

(** The decimal digits of a number as text, and back. *)
Lemma str_of_nonneg_ascii n : ascii_digits (str_of_nonneg 10 n).
Proof.
  unfold str_of_nonneg, ascii_digits. apply Forall_map.
  eapply Forall_impl; [apply digits_range; lia|]. intros d Hd. cbn in *. unfold digit_char.
  destruct (d <? 10) eqn:E; reflect_bools; lia.
Qed.

Lemma str_of_nonneg_nonempty n : str_of_nonneg 10 n <> [].
Proof.
  unfold str_of_nonneg. pose proof (digits_nonempty 10 n). by destruct (digits 10 n).
Qed.

Lemma digit_values n : map (fun c => c - 48) (str_of_nonneg 10 n) = digits 10 n.
Proof.
  unfold str_of_nonneg. rewrite map_map. rewrite <- (map_id (digits 10 n)) at 2.
  apply map_ext_in. intros d Hd%list_elem_of_In.
  pose proof (proj1 (Forall_forall _ _) (digits_range 10 ltac:(lia) n) d Hd). cbn in *.
  unfold digit_char. rewrite (proj2 (Z.ltb_lt _ _)) by lia. lia.
Qed.

Lemma length_str_of_nonneg base n : length (str_of_nonneg base n) = length (digits base n).
Proof. apply length_map. Qed.

Lemma py_int_str_of_nonneg n k :
  0 <= n < 10 ^ Z.of_nat (S k) -> (S k <= max_str_digits)%nat ->
  py_int 10 (str_of_nonneg 10 n) = Ok n.
Proof.
  intros Hn Hk. rewrite py_int_ascii; [|apply str_of_nonneg_nonempty|apply str_of_nonneg_ascii|].
  - rewrite digit_values, of_digits_digits by lia. done.
  - rewrite length_str_of_nonneg. etransitivity; [apply (digits_length 10 ltac:(lia) n k Hn)|done].
Qed.

(** ** Splitting and stripping *)

Lemma str_split_none sep s : Forall (fun c => c <> sep) s -> str_split sep s = [s].
Proof.
  induction 1 as [|c s Hc H IH]; [done|]. cbn.
  rewrite (proj2 (Z.eqb_neq _ _)) by done. by rewrite IH.
Qed.

Lemma str_split_once sep s t :
  Forall (fun c => c <> sep) s -> str_split sep (s ++ sep :: t) = s :: str_split sep t.
Proof.
  induction 1 as [|c s Hc H IH]; cbn; [by rewrite Z.eqb_refl|].
  rewrite (proj2 (Z.eqb_neq _ _)) by done. by rewrite IH.
Qed.

(** What [split] returns, put back together. *)
Lemma str_split_join sep s :
  exists w ws, str_split sep s = w :: ws /\ s = w ++ concat (map (cons sep) ws).
Proof.
  induction s as [|c s (w & ws & Hs & Heq)]; [by exists [], []|]. cbn.
  destruct (c =? sep) eqn:E; reflect_bools.
  - exists [], (str_split sep s). rewrite Hs. subst. by cbn.
  - rewrite Hs. exists (c :: w), ws. by rewrite Heq at 1.
Qed.

Lemma str_rstrip_app c s k :
  str_rstrip c (s ++ repeat c k) = str_rstrip c s.
Proof.
  unfold str_rstrip. f_equal. rewrite rev_app_distr, rev_repeat.
  induction k as [|k IH]; [done|]. cbn. by rewrite Z.eqb_refl.
Qed.

(** [rstrip] removes a block of the character, and leaves none at the end. *)
Lemma str_rstrip_spec c s :
  exists k, s = str_rstrip c s ++ repeat c k /\ (forall t, str_rstrip c s <> t ++ [c]).
Proof.
  induction s as [|x s (k & Hk & Hlast)] using rev_ind.
  - exists 0%nat. split; [done|]. intros [|??]; done.
  - unfold str_rstrip. rewrite rev_app_distr. cbn. destruct (c =? x) eqn:E; reflect_bools.
    + subst x. exists (S k). unfold str_rstrip in *. split; [|done].
      replace (repeat c (S k)) with (repeat c k ++ [c]) by (by rewrite <- repeat_cons).
      by rewrite app_assoc, <- Hk.
    + exists 0%nat. cbn. rewrite rev_involutive, app_nil_r. split; [done|].
      intros t [_ ?]%app_inj_tail. congruence.
Qed.

(** ** The order of texts: code points, left to right *)

Fixpoint str_leb (s t : pystr) : bool :=
  match s, t with
  | [], _ => true
  | _ :: _, [] => false
  | c :: s, d :: t => (c <? d) || ((c =? d) && str_leb s t)
  end.

Definition str_ltb (s t : pystr) : bool := negb (str_leb t s).

Lemma str_leb_total s t : str_leb s t = true \/ str_leb t s = true.
Proof.
  revert t; induction s as [|c s IH]; intros [|d t]; cbn; auto.
  destruct (Z.ltb_spec c d); [by left|]. destruct (Z.ltb_spec d c); [by right|].
  assert (c = d) as -> by lia. rewrite Z.eqb_refl. apply IH.
Qed.

Lemma str_leb_trans s t r : str_leb s t = true -> str_leb t r = true -> str_leb s r = true.
Proof.
  revert t r; induction s as [|c s IH]; intros [|d t] [|e r]; cbn; try done.
  intros [H1|[H1 H1']%andb_true_iff]%orb_true_iff [H2|[H2 H2']%andb_true_iff]%orb_true_iff;
    reflect_bools; apply orb_true_iff;
    first [left; lia | right; apply andb_true_iff; split; [lia|by eapply IH]].
Qed.

Lemma str_leb_antisym s t : str_leb s t = true -> str_leb t s = true -> s = t.
Proof.
  revert t; induction s as [|c s IH]; intros [|d t]; cbn; try done.
  intros [H1|[H1 H1']%andb_true_iff]%orb_true_iff [H2|[H2 H2']%andb_true_iff]%orb_true_iff;
    reflect_bools; try lia. f_equal; [lia|by apply IH].
Qed.

Lemma str_leb_refl s : str_leb s s = true.
Proof. induction s as [|c s IH]; cbn; [done|]. by rewrite Z.eqb_refl, IH, orb_true_r. Qed.

Lemma str_ltb_irrefl s : str_ltb s s = false.
Proof. unfold str_ltb. by rewrite str_leb_refl. Qed.

Lemma str_ltb_leb s t : str_ltb s t = true -> str_leb s t = true.
Proof. unfold str_ltb. destruct (str_leb_total s t) as [->| ->]; done. Qed.

Lemma str_leb_ltb s t : str_leb s t = true -> s <> t -> str_ltb s t = true.
Proof.
  intros H Hne. unfold str_ltb. apply negb_true_iff, not_true_is_false. intros H'.
  by apply Hne, str_leb_antisym.
Qed.

Lemma str_ltb_trans s t r : str_ltb s t = true -> str_ltb t r = true -> str_ltb s r = true.
Proof.
  intros H1 H2. apply str_leb_ltb.
  - eapply str_leb_trans; by apply str_ltb_leb.
  - intros ->. apply str_ltb_leb in H1. unfold str_ltb in H2. by rewrite H1 in H2.
Qed.

(** A weak order without equal elements is strict. *)
Lemma str_ltb_asym s t : str_ltb s t = true -> str_ltb t s = true -> False.
Proof. intros H1 H2. pose proof (str_ltb_trans _ _ _ H1 H2) as H. by rewrite str_ltb_irrefl in H. Qed.

Lemma StronglySorted_strict_ext (l k : list pystr) :
  l ≡ₚ k -> StronglySorted (fun a b => str_ltb a b = true) l ->
  StronglySorted (fun a b => str_ltb a b = true) k -> l = k.
Proof.
  revert k; induction l as [|x l IH]; intros [|y k] Hp Hl Hk.
  - done.
  - by apply Permutation_nil_cons in Hp.
  - by apply symmetry, Permutation_nil_cons in Hp.
  - inversion Hl as [|?? Hl' Hx]; inversion Hk as [|?? Hk' Hy]; subst.
    assert (x = y) as ->.
    { assert (x ∈ y :: k) as Hxin by (rewrite <- Hp; by left).
      assert (y ∈ x :: l) as Hyin by (rewrite Hp; by left).
      apply elem_of_cons in Hxin as [->|Hxin]; [done|]. apply elem_of_cons in Hyin as [->|Hyin]; [done|].
      eapply Forall_forall in Hx; [|exact Hyin]. eapply Forall_forall in Hy; [|exact Hxin].
      by destruct (str_ltb_asym x y). }
    f_equal. apply IH; [|done..]. by apply (Permutation_cons_inv (a := y)).
Qed.

Lemma sorted_strict (vs : list pystr) :
  StronglySorted (fun a b => str_leb a b = true) vs -> NoDup vs ->
  StronglySorted (fun a b => str_ltb a b = true) vs.
Proof.
  induction 1 as [|v vs Hs IH Hv]; intros Hd; [constructor|].
  apply NoDup_cons in Hd as [Hn Hd]. constructor; [by apply IH|].
  apply Forall_forall. intros w Hw. eapply Forall_forall in Hv; [|exact Hw].
  apply str_leb_ltb; [done|]. by intros ->.
Qed.


Lemma sorted_names_id names : StronglySorted (fun a b => str_ltb a b = true) names -> py_sorted str_leb names = names.
Proof. intros Hs. apply py_sorted_id. eapply StronglySorted_weaken; [|exact Hs]. intros a b. apply str_ltb_leb. Qed.

Lemma sorted_names_NoDup names : StronglySorted (fun a b => str_ltb a b = true) names -> NoDup names.
Proof.
  induction 1 as [|n names _ IH Hn]; constructor; [|done]. intros Hin. rewrite Forall_forall in Hn.
  apply Hn in Hin. by rewrite str_ltb_irrefl in Hin.
Qed.
