(* ===== verification/Num.v ===== *)
(** * Python's [fractions.Fraction] and [decimal.Decimal]

    A [Fraction] is a canonical rational ([Qc]): its numerator and denominator
    are reduced, the denominator positive, and equality is Leibniz equality.  A
    [Decimal] keeps its sign, coefficient and exponent, as [as_tuple] shows them.
    The file models the constructors, comparisons, [format(d, "f")] and the
    28-digit division of the standard library that the packages rely on. *)

From S2P Require Import Prelude PyStr.
From Stdlib Require Import QArith Qcanon Lqa.
Open Scope Z_scope.

(** ** Fractions *)

(** [Fraction(n)] and [Fraction(n, d)] for [d > 0]. *)
Definition frac_of_Z (n : Z) : Qc := Q2Qc (n # 1).
Definition frac (n : Z) (d : positive) : Qc := Q2Qc (n # d).

Definition numerator (q : Qc) : Z := Qnum (this q).
Definition denominator (q : Qc) : Z := Zpos (Qden (this q)).

(** [Fraction(n, d)] for any [d]: a zero denominator raises. *)
Definition mk_fraction (n d : Z) : result Qc :=
  match d with
  | Z0 => raise ZeroDivisionError "Fraction"
  | Zpos p => Ok (frac n p)
  | Zneg p => Ok (frac (- n) p)
  end.

(** [a / b] *)
Definition frac_div (a b : Qc) : result Qc :=
  raise_if (bool_decide (b = 0%Qc)) ZeroDivisionError "Fraction" ;; Ok (a / b)%Qc.

Definition frac_ltb (a b : Qc) : bool := bool_decide (a < b)%Qc.
Definition frac_leb (a b : Qc) : bool := bool_decide (a <= b)%Qc.
Definition frac_eqb (a b : Qc) : bool := bool_decide (a = b).
Definition frac_max (a b : Qc) : Qc := if frac_ltb a b then b else a.

(** [sum(l, Fraction())] *)
Definition sum_fractions (l : list Qc) : Qc := foldr Qcplus 0%Qc l.

(** ** Decimals *)

Inductive decimal :=
  | DFin (neg : bool) (coeff : Z) (exp : Z)
  | DInf (neg : bool)
  | DNaN (neg signaling : bool).

#[global] Instance decimal_eq_dec : EqDecision decimal.
Proof. solve_decision. Defined.

Definition dec_is_finite (d : decimal) : bool :=
  match d with DFin _ _ _ => true | _ => false end.

Definition signed (neg : bool) (c : Z) : Z := if neg then - c else c.

(** [c * 10^e] *)
Definition scale10 (c e : Z) : Qc :=
  if 0 <=? e then frac_of_Z (c * 10 ^ e) else frac c (Z.to_pos (10 ^ (- e))).

(** The numeric value of a finite decimal. *)
Definition dec_value (d : decimal) : Qc :=
  match d with DFin neg c e => scale10 (signed neg c) e | _ => 0%Qc end.

(** The order of two numbers; [None] when one is a NaN. *)
Definition dec_compare (a b : decimal) : option comparison :=
  match a, b with
  | DNaN _ _, _ | _, DNaN _ _ => None
  | DInf s, DInf t =>
    Some (if s then if t then Eq else Lt else if t then Gt else Eq)
  | DInf s, DFin _ _ _ => Some (if s then Lt else Gt)
  | DFin _ _ _, DInf t => Some (if t then Gt else Lt)
  | DFin _ _ _, DFin _ _ _ => Some (dec_value a ?= dec_value b)%Qc
  end.

(** [a <= b], [a < b]: an ordering comparison with a NaN raises. *)
Definition dec_le (a b : decimal) : result bool :=
  match dec_compare a b with
  | None => raise InvalidOperation "comparison involving NaN"
  | Some Gt => Ok false
  | Some _ => Ok true
  end.
Definition dec_lt (a b : decimal) : result bool :=
  match dec_compare a b with
  | None => raise InvalidOperation "comparison involving NaN"
  | Some Lt => Ok true
  | Some _ => Ok false
  end.

(** [a == b]: false with a quiet NaN, an error with a signaling one. *)
Definition dec_eq (a b : decimal) : result bool :=
  match dec_compare a b with
  | Some Eq => Ok true
  | Some _ => Ok false
  | None =>
    match a, b with
    | DNaN _ true, _ | _, DNaN _ true => raise InvalidOperation "comparison involving sNaN"
    | _, _ => Ok false
    end
  end.

Definition dec_zero : decimal := DFin false 0 0.

(** ** [Decimal(text)] *)

Definition max_emax : Z := 999999999999999999.
Definition min_etiny : Z := -1999999999999999997.

(** The longest prefix of decimal digits, as digit values, and the rest. *)
Fixpoint span_digits (s : pystr) : list Z * pystr :=
  match s with
  | [] => ([], [])
  | c :: t =>
    match Unicode.decimal c with
    | Some d => let '(ds, r) := span_digits t in (d :: ds, r)
    | None => ([], s)
    end
  end.

Definition ascii_lower (s : pystr) : pystr :=
  map (fun c => if (65 <=? c) && (c <=? 90) then c + 32 else c) s.

(** An optional exponent part up to the end of the text. *)
Definition parse_exponent (s : pystr) : option Z :=
  match s with
  | [] => Some 0
  | c :: t =>
    if (c =? 101) || (c =? 69) then
      let '(sign, t) := split_sign t in
      match span_digits t with
      | (d :: ds, []) => Some (sign * of_digits 10 (d :: ds))
      | _ => None
      end
    else None
  end.

Definition parse_special (neg : bool) (s : pystr) : option decimal :=
  let s := ascii_lower s in
  if str_eqb s (u "inf") || str_eqb s (u "infinity") then Some (DInf neg)
  else if str_startswith (u "nan") s then
    match span_digits (drop 3 s) with (_, []) => Some (DNaN neg false) | _ => None end
  else if str_startswith (u "snan") s then
    match span_digits (drop 4 s) with (_, []) => Some (DNaN neg true) | _ => None end
  else None.

Definition parse_finite (neg : bool) (s : pystr) : option decimal :=
  let '(whole, r) := span_digits s in
  let '(frac, r) := match r with 46 :: t => span_digits t | _ => ([], r) end in
  match whole ++ frac with
  | [] => None
  | ds =>
    e ← parse_exponent r;
    let c := of_digits 10 ds in
    let e := e - Z.of_nat (length frac) in
    if (max_emax <? e + Z.of_nat (length (digits 10 c)) - 1) || (e <? min_etiny) then None
    else Some (DFin neg c e)
  end.

Definition dec_parse (s : pystr) : result decimal :=
  let s := List.filter (fun c => negb (c =? 95)) (str_strip s) in
  let '(sign, t) := split_sign s in
  let neg := sign <? 0 in
  match (match parse_finite neg t with Some d => Some d | None => parse_special neg t end) with
  | Some d => Ok d
  | None => raise InvalidOperation "ConversionSyntax"
  end.

(** ** [format(d, "f")] of a finite decimal *)

Definition dec_format_f (neg : bool) (c e : Z) : pystr :=
  let e := if (c =? 0) && (0 <? e) then 0 else e in
  let ds := str_of_nonneg 10 c in
  let n := Z.of_nat (length ds) in
  let dotplace := e + n in
  let '(intpart, fracpart) :=
    if dotplace <? 0 then ([48], repeat 48 (Z.to_nat (- dotplace)) ++ ds)
    else if n <? dotplace then (ds ++ repeat 48 (Z.to_nat (dotplace - n)), [])
    else (match take (Z.to_nat dotplace) ds with [] => [48] | w => w end,
          drop (Z.to_nat dotplace) ds) in
  (if neg then [45] else []) ++ intpart ++
  match fracpart with [] => [] | _ => 46 :: fracpart end.

Example dec_parse_ex1 : dec_parse (u " -1_0.50E-2 ") = Ok (DFin true 1050 (-4)).
Proof. reflexivity. Qed.
Example dec_parse_ex2 : dec_parse (u "sNaN12") = Ok (DNaN false true). Proof. reflexivity. Qed.
Example dec_parse_ex3 : dec_parse (u "1e999999999999999999") = Ok (DFin false 1 999999999999999999).
Proof. reflexivity. Qed.
Example dec_parse_ex4 : is_Ok (dec_parse (u "10e999999999999999999")) = false. Proof. reflexivity. Qed.
Example dec_format_ex1 : dec_format_f true 1250 (-2) = u "-12.50". Proof. reflexivity. Qed.
Example dec_format_ex2 : dec_format_f false 5 (-3) = u "0.005". Proof. reflexivity. Qed.
Example dec_format_ex3 : dec_format_f false 1 3 = u "1000". Proof. reflexivity. Qed.

(** ** Division in a context of [prec] digits, rounding half to even

    [Decimal(n) / Decimal(d)] as the standard library computes it: a quotient
    with at least one guard digit, made sticky when inexact, then rounded.  The
    exponent limits of the context (18 decimal digits) are beyond the reach of
    integers that fit in memory, but are part of the definition. *)

Definition num_digits (n : Z) : Z := Z.of_nat (length (digits 10 n)).

Definition half_even (q r base : Z) : Z :=
  if (base <? 2 * r) || ((base =? 2 * r) && Z.odd q) then q + 1 else q.

(** [Decimal._fix]: rounds a coefficient of more than [prec] digits. *)
Definition dec_fix (prec : Z) (neg : bool) (c e : Z) : result decimal :=
  let len := num_digits c in
  raise_if (max_emax <? e + len - 1) DecimalOverflow "Overflow" ;;
  if len <=? prec then Ok (DFin neg c e)
  else
    let drop := len - prec in
    let base := 10 ^ drop in
    let c' := half_even (c / base) (c mod base) base in
    let e' := e + drop in
    let '(c', e') := if num_digits c' <=? prec then (c', e') else (c' / 10, e' + 1) in
    raise_if (max_emax <? e' + prec - 1) DecimalOverflow "Overflow" ;;
    Ok (DFin neg c' e').

(** Removes trailing zeros while the exponent is below the ideal exponent 0. *)
Fixpoint strip_zeros (fuel : nat) (c e : Z) : Z * Z :=
  match fuel with
  | O => (c, e)
  | S fuel => if (e <? 0) && (c mod 10 =? 0) then strip_zeros fuel (c / 10) (e + 1) else (c, e)
  end.

Definition dec_div_ints (prec n d : Z) : result decimal :=
  raise_if (d =? 0) DivisionByZero "x / 0" ;;
  let neg := xorb (n <? 0) (d <? 0) in
  let n := Z.abs n in
  let d := Z.abs d in
  if n =? 0 then Ok (DFin neg 0 0)
  else
    let shift := num_digits d - num_digits n + prec + 1 in
    let '(num, den) := if 0 <=? shift then (n * 10 ^ shift, d) else (n, d * 10 ^ (- shift)) in
    let q := num / den in
    if num mod den =? 0 then
      let '(c, e) := strip_zeros (Z.to_nat shift) q (- shift) in dec_fix prec neg c e
    else dec_fix prec neg (if q mod 5 =? 0 then q + 1 else q) (- shift).

Example dec_div_ex1 : dec_div_ints 28 1 3 = Ok (DFin false 3333333333333333333333333333 (-28)).
Proof. vm_compute. reflexivity. Qed.
Example dec_div_ex2 : dec_div_ints 28 (-2) 3 = Ok (DFin true 6666666666666666666666666667 (-28)).
Proof. vm_compute. reflexivity. Qed.
Example dec_div_ex3 : dec_div_ints 28 10 4 = Ok (DFin false 25 (-1)).
Proof. vm_compute. reflexivity. Qed.

(** ** Laws of fractions *)

Lemma this_Q2Qc x : (this (Q2Qc x) == x)%Q.
Proof. apply Qred_correct. Qed.

Lemma this_frac n d : (this (frac n d) == n # d)%Q.
Proof. apply Qred_correct. Qed.

Lemma frac_eq n d m e : frac n d = frac m e <-> n * Zpos e = m * Zpos d.
Proof.
  split.
  - intros H. apply (f_equal this) in H.
    enough (n # d == m # e)%Q as Heq by exact Heq.
    by rewrite <- this_frac, H, this_frac.
  - intros H. apply Qc_is_canon. by rewrite !this_frac.
Qed.

Lemma frac_le n d m e : (frac n d <= frac m e)%Qc <-> n * Zpos e <= m * Zpos d.
Proof. unfold Qcle. by rewrite (Qle_comp _ _ (this_frac n d) _ _ (this_frac m e)). Qed.

Lemma frac_lt n d m e : (frac n d < frac m e)%Qc <-> n * Zpos e < m * Zpos d.
Proof. unfold Qclt. by rewrite (Qlt_compat _ _ (this_frac n d) _ _ (this_frac m e)). Qed.

Lemma frac_mul n d m e : (frac n d * frac m e)%Qc = frac (n * m) (d * e).
Proof. apply Qc_is_canon. unfold Qcmult. by rewrite this_Q2Qc, !this_frac. Qed.

Lemma frac_add n d m e : (frac n d + frac m e)%Qc = frac (n * Zpos e + m * Zpos d) (d * e).
Proof. apply Qc_is_canon. unfold Qcplus. by rewrite this_Q2Qc, !this_frac. Qed.

Lemma frac_opp n d : (- frac n d)%Qc = frac (- n) d.
Proof. apply Qc_is_canon. unfold Qcopp. by rewrite this_Q2Qc, !this_frac. Qed.

Lemma frac_sub n d m e : (frac n d - frac m e)%Qc = frac (n * Zpos e - m * Zpos d) (d * e).
Proof. unfold Qcminus. rewrite frac_opp, frac_add. f_equal. lia. Qed.

(** Every fraction is its reduced numerator over its denominator. *)
Lemma frac_parts q : q = frac (numerator q) (Qden (this q)).
Proof. apply Qc_is_canon. rewrite this_frac. unfold numerator. by destruct (this q). Qed.

Lemma frac_zero n d : frac n d = 0%Qc <-> n = 0.
Proof. change 0%Qc with (frac 0 1). rewrite frac_eq. lia. Qed.

Lemma frac_of_Z_frac n : frac_of_Z n = frac n 1.
Proof. done. Qed.

(** Rewrites a statement over fractions into one over integers. *)
Ltac frac_to_Z :=
  rewrite ?frac_of_Z_frac, ?frac_opp, ?frac_mul, ?frac_add, ?frac_sub in *;
  rewrite ?frac_eq, ?frac_le, ?frac_lt, ?frac_zero in *.

Lemma frac_eqb_spec a b : frac_eqb a b = true <-> a = b.
Proof. apply bool_decide_eq_true. Qed.

(** ** Powers of ten *)

Definition pow10 (e : Z) : Qc := scale10 1 e.

Lemma scale10_frac c e :
  scale10 c e = frac (c * 10 ^ Z.max e 0) (Z.to_pos (10 ^ Z.max (- e) 0)).
Proof.
  unfold scale10. destruct (0 <=? e) eqn:E; reflect_bools.
  - rewrite Z.max_l, Z.max_r by lia. done.
  - rewrite Z.max_r, Z.max_l, Z.pow_0_r, Z.mul_1_r by lia. done.
Qed.

Lemma to_pos_pow10 e : 0 <= e -> Zpos (Z.to_pos (10 ^ e)) = 10 ^ e.
Proof. intros H. apply Z2Pos.id. lia. Qed.

Lemma scale10_mul c d e f : (scale10 c e * scale10 d f)%Qc = scale10 (c * d) (e + f).
Proof.
  rewrite !scale10_frac, frac_mul, frac_eq, Pos2Z.inj_mul, !to_pos_pow10 by lia.
  replace (Z.max (e + f) 0 + (Z.max (- e) 0 + Z.max (- f) 0))
    with (Z.max e 0 + Z.max f 0 + Z.max (- (e + f)) 0) by lia.
  transitivity (c * d * 10 ^ (Z.max e 0 + Z.max f 0 + Z.max (- (e + f)) 0)).
  - rewrite !Z.pow_add_r by lia. ring.
  - replace (Z.max e 0 + Z.max f 0 + Z.max (- (e + f)) 0)
      with (Z.max (e + f) 0 + (Z.max (- e) 0 + Z.max (- f) 0)) by lia.
    rewrite !Z.pow_add_r by lia. ring.
Qed.

Lemma scale10_split c e : scale10 c e = (frac_of_Z c * pow10 e)%Qc.
Proof.
  unfold pow10. rewrite <- (Z.mul_1_r c) at 1. rewrite <- (Z.add_0_l e) at 1.
  rewrite <- scale10_mul. f_equal. unfold scale10. cbn [Z.leb Z.compare]. by rewrite Z.mul_1_r.
Qed.

Lemma pow10_add e f : pow10 (e + f) = (pow10 e * pow10 f)%Qc.
Proof. unfold pow10. by rewrite scale10_mul. Qed.

Lemma pow10_pos e : (0 < pow10 e)%Qc.
Proof.
  unfold pow10. rewrite scale10_frac. change 0%Qc with (frac 0 1). apply frac_lt. lia.
Qed.

Lemma pow10_nonneg_exp e : 0 <= e -> pow10 e = frac_of_Z (10 ^ e).
Proof.
  intros H. unfold pow10, scale10. rewrite (proj2 (Z.leb_le _ _)) by done. by rewrite Z.mul_1_l.
Qed.

Lemma pow10_opp e : (pow10 (- e) * pow10 e)%Qc = 1%Qc.
Proof. rewrite <- pow10_add. replace (- e + e) with 0 by lia. done. Qed.

Lemma pow10_nonzero e : pow10 e <> 0%Qc.
Proof. intros H. pose proof (pow10_pos e) as Hp. rewrite H in Hp. by apply Qclt_not_eq in Hp. Qed.

(** ** Counting digits *)

Lemma num_digits_bounds n : 0 < n -> 10 ^ (num_digits n - 1) <= n < 10 ^ num_digits n.
Proof.
  intros Hn. unfold num_digits. pose proof (digits_range 10 ltac:(lia) n) as Hr.
  pose proof (of_digits_digits 10 ltac:(lia) n ltac:(lia)) as Hv.
  destruct (digits_head 10 ltac:(lia) n Hn) as (d & ds & Hds & Hd).
  pose proof (of_digits_bound 10 ltac:(lia) (digits 10 n) Hr) as Hb. rewrite Hv in Hb. split; [|lia].
  rewrite Hds in *. rewrite of_digits_cons in Hv. apply Forall_inv_tail in Hr.
  pose proof (of_digits_bound 10 ltac:(lia) ds Hr). cbn [length].
  replace (Z.of_nat (S (length ds)) - 1) with (Z.of_nat (length ds)) by lia. nia.
Qed.

Lemma num_digits_unique n k : 0 <= k -> 10 ^ k <= n < 10 ^ (k + 1) -> num_digits n = k + 1.
Proof.
  intros Hk Hn. pose proof (num_digits_bounds n ltac:(lia)) as Hb.
  assert (num_digits n - 1 < k + 1) by (apply (Z.pow_lt_mono_r_iff 10); lia).
  assert (k < num_digits n) by (apply (Z.pow_lt_mono_r_iff 10); [lia|unfold num_digits; lia|lia]).
  lia.
Qed.

Lemma num_digits_pos n : 0 < num_digits n.
Proof.
  unfold num_digits. pose proof (digits_nonempty 10 n). destruct (digits 10 n); [done|cbn; lia].
Qed.

(** ** The order of decimals

    [dec_lt a b = Ok true] is a strict order on numbers and infinities. *)

Definition dec_less (a b : decimal) : Prop := dec_lt a b = Ok true.

Lemma dec_less_compare a b : dec_less a b <-> dec_compare a b = Some Lt.
Proof. unfold dec_less, dec_lt. by destruct (dec_compare a b) as [[]|]. Qed.

Lemma dec_less_fin n c e n' c' e' :
  dec_less (DFin n c e) (DFin n' c' e') <-> (dec_value (DFin n c e) < dec_value (DFin n' c' e'))%Qc.
Proof.
  rewrite dec_less_compare. cbn [dec_compare]. rewrite Qclt_alt. split; [by intros [=]|by intros ->].
Qed.

#[global] Instance dec_less_trans : Transitive dec_less.
Proof.
  intros a b c Hab Hbc.
  destruct a as [na ca ea|[]|], b as [nb cb eb|[]|], c as [nc cc ec|[]|]; try done.
  apply dec_less_fin in Hab, Hbc. apply dec_less_fin. by eapply Qclt_trans.
Qed.

Lemma dec_le_false a b : dec_le a b = Ok false -> dec_less b a.
Proof.
  unfold dec_le. intros H. apply dec_less_compare.
  destruct a as [na ca ea|[]|], b as [nb cb eb|[]|]; try done. cbn [dec_compare] in *.
  destruct (_ ?= _)%Qc eqn:E; try done. apply Qcgt_alt in E. by rewrite (proj1 (Qclt_alt _ _) E).
Qed.

Lemma dec_less_not_le a b : dec_less b a -> dec_le a b = Ok false.
Proof.
  intros H%dec_less_compare. unfold dec_le.
  destruct a as [na ca ea|[]|], b as [nb cb eb|[]|]; try done.
  cbn [dec_compare dec_value] in *. injection H as H. apply Qclt_alt, Qcgt_alt in H. by rewrite H.
Qed.

Lemma dec_less_irrefl a : ~ dec_less a a.
Proof.
  rewrite dec_less_compare. destruct a as [n c e|[]|]; cbn [dec_compare]; try done.
  intros [=H%Qclt_alt]. by apply Qclt_not_eq in H.
Qed.

Lemma dec_less_zero n c e : dec_less dec_zero (DFin n c e) <-> (0 < dec_value (DFin n c e))%Qc.
Proof. unfold dec_zero. rewrite dec_less_fin. done. Qed.

(** ** Linear arithmetic over fractions

    [qc_nra] moves a goal and its hypotheses from [Qc] to [Q]. *)

Lemma this_add x y : (this (x + y)%Qc == this x + this y)%Q.
Proof. apply this_Q2Qc. Qed.
Lemma this_mul x y : (this (x * y)%Qc == this x * this y)%Q.
Proof. apply this_Q2Qc. Qed.
Lemma this_neg x : (this (- x)%Qc == - this x)%Q.
Proof. apply this_Q2Qc. Qed.
Lemma this_sub x y : (this (x - y)%Qc == this x - this y)%Q.
Proof. unfold Qcminus. by rewrite this_add, this_neg. Qed.
Lemma this_zero : (this 0%Qc == 0)%Q.
Proof. done. Qed.
Lemma this_one : (this 1%Qc == 1)%Q.
Proof. done. Qed.

Lemma Qc_eq_iff x y : x = y <-> (this x == this y)%Q.
Proof. split; [by intros ->|apply Qc_is_canon]. Qed.

Ltac qc_to_q :=
  repeat match goal with
  | H : @eq Qc _ _ |- _ => rewrite Qc_eq_iff in H
  | |- @eq Qc _ _ => rewrite Qc_eq_iff
  end;
  unfold Qcle, Qclt in *;
  repeat first [rewrite this_sub | rewrite this_add | rewrite this_mul | rewrite this_neg];
  rewrite ?this_zero, ?this_one;
  repeat match goal with
  | H : context [this (_ - _)%Qc] |- _ => rewrite this_sub in H
  | H : context [this (_ + _)%Qc] |- _ => rewrite this_add in H
  | H : context [this (_ * _)%Qc] |- _ => rewrite this_mul in H
  | H : context [this (- _)%Qc] |- _ => rewrite this_neg in H
  | H : context [this 0%Qc] |- _ => rewrite this_zero in H
  | H : context [this 1%Qc] |- _ => rewrite this_one in H
  end.
Ltac qc_nra := qc_to_q; nra.
Ltac qc_lra := qc_to_q; lra.
