(* ===== verification/Exact.v ===== *)
(** * [liqvera_contracts.exact]: the exact money kernel

    [ExactDecimal] is a signed 64-bit integer scaled by 10^8; the module also
    holds the [Fraction] helpers of the entry-cost and report arithmetic.
    Proved here: printing and parsing are inverse, parsing accepts exactly the
    plain decimal notation, arithmetic never leaves int64 and rounds toward
    minus infinity, and the fraction helpers are exact. *)

From S2P Require Import Prelude PyStr Num.
From Stdlib Require Import QArith Qcanon.
Open Scope Z_scope.

(** ** [ExactDecimal] *)

Record ExactDecimal := mkExact { scaled : Z }.

#[global] Instance ExactDecimal_eq_dec : EqDecision ExactDecimal.
Proof. solve_decision. Defined.

Definition DECIMALS : nat := 8.
Definition SCALE : Z := 100000000.
Definition MIN_SCALED : Z := -9223372036854775808.
Definition MAX_SCALED : Z := 9223372036854775807.

(** [ExactDecimal.__init__] *)
Definition exact_init (x : Z) : result ExactDecimal :=
  raise_if ((x <? MIN_SCALED) || (MAX_SCALED <? x)) ExactOverflowError
    "scaled value overflows int64" ;;
  Ok (mkExact x).

(** [ExactDecimal.parse] on a [str]. *)
Definition exact_parse (raw : pystr) : result ExactDecimal :=
  raise_if (str_eqb raw [] || negb (str_eqb (str_strip raw) raw)) ExactError
    "invalid exact value" ;;
  let '(sign, text) := split_sign raw in
  raise_if (str_eqb text [] || existsb (fun marker => str_contains marker text) (u "eEnN"))
    ExactError "exponent or non-finite exact value" ;;
  let parts := str_split 46 text in
  match parts with
  | [] => raise ExactError "malformed exact value"
  | part0 :: rest =>
    raise_if ((2 <? length parts)%nat || str_eqb part0 []) ExactError "malformed exact value" ;;
    match rest with
    | [] =>
      raise_if (negb (str_isdigit part0)) ExactError "non-digit exact value" ;;
      whole ← py_int 10 part0;
      exact_init (sign * (whole * SCALE))
    | part1 :: _ =>
      raise_if (str_eqb part1 [] || negb (str_isdigit part1)) ExactError "malformed exact value" ;;
      raise_if (negb (str_isdigit part0) || negb (str_isdigit part1)) ExactError
        "non-digit exact value" ;;
      raise_if (DECIMALS <? length part1)%nat ExactPrecisionError "more than eight decimal places" ;;
      whole ← py_int 10 part0;
      fraction ← py_int 10 (part1 ++ repeat 48 (DECIMALS - length part1));
      exact_init (sign * (whole * SCALE + fraction))
    end
  end.

(** [ExactDecimal.from_decimal] *)
Definition exact_from_decimal (d : decimal) : result ExactDecimal :=
  match d with
  | DFin neg c e => exact_parse (dec_format_f neg c e)
  | _ => raise ExactError "non-finite Decimal is rejected"
  end.

(** [ExactDecimal.__str__] *)
Definition exact_str (x : ExactDecimal) : pystr :=
  let sign := if scaled x <? 0 then u "-" else [] in
  let magnitude := Z.abs (scaled x) in
  let whole := magnitude / SCALE in
  let fraction := magnitude mod SCALE in
  if fraction =? 0 then sign ++ str_of_nonneg 10 whole
  else
    let frac := str_rstrip 48 (pad_zeros DECIMALS (str_of_nonneg 10 fraction)) in
    sign ++ str_of_nonneg 10 whole ++ u "." ++ frac.

(** [__eq__], [__lt__], [__le__] and [is_zero] *)
Definition exact_eqb (a b : ExactDecimal) : bool := scaled a =? scaled b.
Definition exact_ltb (a b : ExactDecimal) : bool := scaled a <? scaled b.
Definition exact_leb (a b : ExactDecimal) : bool := scaled a <=? scaled b.
Definition exact_is_zero (a : ExactDecimal) : bool := scaled a =? 0.

Definition exact_add (a b : ExactDecimal) : result ExactDecimal :=
  exact_init (scaled a + scaled b).

Definition exact_sub (a b : ExactDecimal) : result ExactDecimal :=
  exact_init (scaled a - scaled b).

(** Python's [//] is the floor division, which is [Z.div]. *)
Definition exact_mul (a b : ExactDecimal) : result ExactDecimal :=
  exact_init (scaled a * scaled b / SCALE).

Definition exact_div (a b : ExactDecimal) : result ExactDecimal :=
  raise_if (scaled b =? 0) ExactDivisionError "division by zero" ;;
  exact_init (scaled a * SCALE / scaled b).

(** ** Fraction helpers *)

(** [fraction_from_decimal] folds the digits of [as_tuple]. *)
Definition fraction_from_decimal (d : decimal) : result Qc :=
  match d with
  | DFin neg c e =>
    let coefficient := fold_left (fun a digit => a * 10 + digit) (digits 10 c) 0 in
    let coefficient := if neg then - coefficient else coefficient in
    if 0 <=? e then Ok (frac_of_Z (coefficient * 10 ^ e))
    else mk_fraction coefficient (10 ^ (- e))
  | _ => raise TypeError "'>=' not supported between instances of 'str' and 'int'"
  end.

(** [while d % p == 0: d //= p; k += 1], for [p >= 2] and [d >= 1]: at most
    [log2 d] divisions. *)
Fixpoint factor_out (fuel : nat) (p d k : Z) : Z * Z :=
  match fuel with
  | O => (d, k)
  | S fuel => if d mod p =? 0 then factor_out fuel p (d / p) (k + 1) else (d, k)
  end.

Definition twos_fives (denominator : Z) : Z * Z * Z :=
  let fuel := Z.to_nat (Z.log2 denominator) in
  let '(d, twos) := factor_out fuel 2 denominator 0 in
  let '(d, fives) := factor_out fuel 5 d 0 in
  (d, twos, fives).

Definition NON_TERMINATING_OUTPUT_PRECISION : Z := 28.

(** [_rounded_decimal] *)
Definition rounded_decimal (value : Qc) : result decimal :=
  rendered ← try_except
    (dec_div_ints NON_TERMINATING_OUTPUT_PRECISION (numerator value) (denominator value))
    [DecimalException]
    (fun _ => raise DecimalRenderingError "non-terminating Decimal output is unrenderable");
  raise_if (negb (dec_is_finite rendered) ||
            (negb (frac_eqb value 0%Qc) && frac_eqb (dec_value rendered) 0%Qc))
    DecimalRenderingError "non-terminating Decimal output is unrenderable" ;;
  Ok rendered.

Definition decimal_from_fraction (value : Qc) : result decimal :=
  let '(d, twos, fives) := twos_fives (denominator value) in
  if d =? 1 then
    let scale := Z.max twos fives in
    let coefficient := numerator value * 2 ^ (scale - twos) in
    let coefficient := coefficient * 5 ^ (scale - fives) in
    _ ← py_str_int (Z.abs coefficient);
    Ok (DFin (coefficient <? 0) (Z.abs coefficient) (- scale))
  else rounded_decimal value.

Definition is_terminating_fraction (value : Qc) : bool :=
  let '(d, _, _) := twos_fives (denominator value) in d =? 1.

Definition fraction_lcm (left right : Qc) : result Qc :=
  let den := Z.lcm (denominator left) (denominator right) in
  let left_integer := numerator left * (den / denominator left) in
  let right_integer := numerator right * (den / denominator right) in
  mk_fraction (Z.lcm left_integer right_integer) den.

Definition round_up_to_multiple (value lot : Qc) : result Qc :=
  units ← frac_div value lot;
  Ok (frac_of_Z ((numerator units + denominator units - 1) / denominator units) * lot)%Qc.

Definition is_multiple (value step : Qc) : result bool :=
  units ← frac_div value step;
  Ok (denominator units =? 1).

(** ** Specification of the accepted notation

    [exact_denotes s z]: the text [s] is an optional sign, a whole part of
    decimal digits and an optional fraction of at most eight digits, and its
    value is [z / 10^8].  Digits are Unicode decimal digits, as [int] reads them. *)

Definition digits_of (s : pystr) (ds : list Z) : Prop :=
  Forall2 (fun c d => Unicode.decimal c = Some d) s ds.

Definition sign_text (sg : pystr) (sign : Z) : Prop :=
  (sg = [] /\ sign = 1) \/ (sg = u "+" /\ sign = 1) \/ (sg = u "-" /\ sign = -1).

Definition point_text (f : pystr) : pystr := match f with [] => [] | _ => 46 :: f end.

Inductive exact_denotes : pystr -> Z -> Prop :=
  | denotes_intro sg sign w ws f fs :
    sign_text sg sign ->
    w <> [] -> digits_of w ws -> (length w <= max_str_digits)%nat ->
    digits_of f fs -> (length f <= DECIMALS)%nat ->
    exact_denotes (sg ++ w ++ point_text f)
      (sign * (of_digits 10 ws * SCALE + of_digits 10 fs * 10 ^ (8 - Z.of_nat (length f)))).

Definition in_range (z : Z) : Prop := MIN_SCALED <= z <= MAX_SCALED.

Lemma exact_init_Ok z x : exact_init z = Ok x <-> x = mkExact z /\ in_range z.
Proof.
  unfold exact_init, in_range, raise_if, raise.
  destruct ((z <? MIN_SCALED) || (MAX_SCALED <? z)) eqn:E; cbn; reflect_bools.
  - split; [done|]. intros [_ ?]. destruct E; reflect_bools; lia.
  - split; [intros [= <-]; split; [done|lia]|by intros [-> _]].
Qed.

Lemma exact_init_in_range z : in_range z -> exact_init z = Ok (mkExact z).
Proof. intros H. by apply exact_init_Ok. Qed.

Lemma digits_of_isdigit s ds : digits_of s ds -> Forall (fun c => Unicode.isdigit c = true) s.
Proof. induction 1; constructor; eauto using isdigit_decimal. Qed.

Lemma digits_of_mapM s ds : mapM Unicode.decimal s = Some ds <-> digits_of s ds.
Proof. apply mapM_Some. Qed.

Lemma isdigit_not_in s k :
  Forall (fun c => Unicode.isdigit c = true) s -> Unicode.isdigit k = false ->
  Forall (fun c => c <> k) s.
Proof. intros H Hk. eapply Forall_impl; [exact H|]. intros c Hc. by apply isdigit_ne. Qed.

Lemma str_contains_false k s : Forall (fun c => c <> k) s -> str_contains k s = false.
Proof.
  intros H. apply not_true_is_false. intros (c & Hin%list_elem_of_In & Hc)%existsb_exists.
  reflect_bools. subst. by eapply Forall_forall in H.
Qed.

Lemma str_eqb_nil_false (s : pystr) : s <> [] -> str_eqb s [] = false.
Proof. intros H. by apply bool_decide_eq_false. Qed.

(** Every character of a plain decimal is a digit, a sign or the point. *)
Lemma plain_chars (P : Z -> Prop) sg sign w f :
  sign_text sg sign -> P 43 -> P 45 -> P 46 ->
  Forall P w -> Forall P f -> Forall P (sg ++ w ++ point_text f).
Proof.
  intros Hsg ??? Hw Hf. apply Forall_app; split; [|apply Forall_app; split; [done|]].
  - destruct Hsg as [[-> _]|[[-> _]|[-> _]]]; repeat constructor; done.
  - destruct f; [constructor|]. by constructor.
Qed.

Lemma split_sign_text sg sign w t :
  sign_text sg sign -> w <> [] -> Forall (fun c => Unicode.isdigit c = true) w ->
  split_sign (sg ++ w ++ t) = (sign, w ++ t).
Proof.
  intros Hsg Hw H. destruct w as [|c w]; [done|]. apply Forall_inv in H.
  destruct Hsg as [[-> ->]|[[-> ->]|[-> ->]]]; [|done|done].
  by apply split_sign_digit.
Qed.

(** The value [parse] computes from well-formed parts. *)
Lemma exact_parse_parts sg sign w ws f fs :
  sign_text sg sign ->
  w <> [] -> digits_of w ws -> (length w <= max_str_digits)%nat ->
  digits_of f fs -> (length f <= DECIMALS)%nat ->
  exact_parse (sg ++ w ++ point_text f) =
  exact_init (sign * (of_digits 10 ws * SCALE + of_digits 10 fs * 10 ^ (8 - Z.of_nat (length f)))).
Proof.
  intros Hsg Hw Hws Hlw Hfs Hlf.
  pose proof (digits_of_isdigit _ _ Hws) as Dw. pose proof (digits_of_isdigit _ _ Hfs) as Df.
  unfold exact_parse.
  assert (str_strip (sg ++ w ++ point_text f) = sg ++ w ++ point_text f) as ->.
  { apply strip_by_none, plain_chars with sign; try done;
      (eapply Forall_impl; [done|apply isdigit_not_space]). }
  rewrite str_eqb_nil_false by (destruct sg, w; done).
  rewrite str_eqb_refl. cbn [orb negb raise_if mbind result_bind].
  rewrite (split_sign_text sg sign) by done.
  rewrite str_eqb_nil_false by (destruct w; done).
  replace (existsb _ (u "eEnN")) with false; [|symmetry; apply not_true_is_false].
  2: { intros (k & Hk & Hin)%existsb_exists. rewrite str_contains_false in Hin; [done|].
       assert (Unicode.isdigit k = false /\ k <> 46) as [Hkd Hk46].
       { cbn in Hk. intuition subst; done. }
       apply Forall_app; split; [by apply isdigit_not_in|]. destruct f; [constructor|].
       constructor; [congruence|by apply isdigit_not_in]. }
  cbn [orb raise_if mbind result_bind].
  assert (py_int 10 w = Ok (of_digits 10 ws)) as Hint.
  { rewrite py_int_isdigit by (by apply str_isdigit_spec).
    rewrite (proj2 (digits_of_mapM _ _) Hws). rewrite (proj2 (Nat.ltb_ge _ _)); [done|].
    by rewrite <- (Forall2_length _ _ _ Hws). }
  assert (str_isdigit w = true) as Iw by (by apply str_isdigit_spec).
  destruct f as [|c f]; cbn [point_text].
  - rewrite app_nil_r, str_split_none by (by apply isdigit_not_in).
    change (2 <? length [w])%nat with false. rewrite (str_eqb_nil_false w) by done.
    cbn [orb raise_if mbind result_bind]. rewrite Iw. cbn [negb raise_if mbind result_bind].
    rewrite Hint. cbn [mbind result_bind]. inversion Hfs; subst. do 2 f_equal. cbn. lia.
  - rewrite str_split_once, str_split_none by (by apply isdigit_not_in).
    change (2 <? length [w; c :: f])%nat with false.
    rewrite (str_eqb_nil_false w), str_eqb_nil_false by done.
    assert (str_isdigit (c :: f) = true) as If by (by apply str_isdigit_spec).
    rewrite Iw, If. cbn [orb negb raise_if mbind result_bind].
    rewrite (proj2 (Nat.ltb_ge _ _)) by done. cbn [raise_if mbind result_bind].
    rewrite Hint. cbn [mbind result_bind].
    rewrite py_int_isdigit.
    2: { apply str_isdigit_app; [done|]. apply ascii_isdigit, Forall_forall.
         intros x ->%list_elem_of_In%repeat_spec. lia. }
    assert (digits_of ((c :: f) ++ repeat 48 (DECIMALS - length (c :: f)))
                      (fs ++ repeat 0 (DECIMALS - length (c :: f)))) as Hpad.
    { apply Forall2_app; [done|]. induction (DECIMALS - length (c :: f))%nat; constructor; done. }
    rewrite (proj2 (digits_of_mapM _ _) Hpad), (proj2 (Nat.ltb_ge _ _)).
    2: { rewrite length_app, repeat_length, <- (Forall2_length _ _ _ Hfs).
         unfold max_str_digits, DECIMALS in *. lia. }
    cbn [raise_if mbind result_bind]. do 2 f_equal. f_equal.
    rewrite of_digits_app, repeat_length by lia.
    rewrite of_digits_repeat0, Z.add_0_r. do 2 f_equal. unfold DECIMALS in *. lia.
Qed.

(** ** Soundness: what [parse] accepts is plain notation *)

Lemma split_sign_inv s sign t :
  split_sign s = (sign, t) -> exists sg, sign_text sg sign /\ s = sg ++ t.
Proof.
  unfold split_sign, sign_text. intros H.
  repeat case_match; simplify_eq; first
    [by exists []; auto | by exists (u "+"); auto | by exists (u "-"); auto].
Qed.

Lemma py_int_digits s z :
  str_isdigit s = true -> py_int 10 s = Ok z ->
  exists ds, digits_of s ds /\ z = of_digits 10 ds /\ (length s <= max_str_digits)%nat.
Proof.
  intros Hs. rewrite py_int_isdigit by done.
  destruct (mapM Unicode.decimal s) as [ds|] eqn:E; [|done].
  apply digits_of_mapM in E. intros H. inv_ok. reflect_bools.
  exists ds. rewrite (Forall2_length _ _ _ E). auto.
Qed.

Lemma exact_parse_sound s x :
  exact_parse s = Ok x -> exact_denotes s (scaled x) /\ in_range (scaled x).
Proof.
  unfold exact_parse. intros H. inv_ok. destruct (split_sign s) as [sign text] eqn:Hsplit.
  apply split_sign_inv in Hsplit as (sg & Hsg & ->). inv_ok.
  destruct (str_split_join 46 text) as (w & ws & Hparts & Htext). rewrite Hparts in *.
  inv_ok. destruct ws as [|f ws]; inv_ok.
  - rename select (str_isdigit w = true) into Iw. rename select (py_int 10 w = _) into Hw.
    rename select (exact_init _ = _) into Hi.
    destruct (py_int_digits _ _ Iw Hw) as (ds & Hds & -> & Hlen).
    apply exact_init_Ok in Hi as [-> Hr]. split; [|done]. cbn [map concat]. rewrite app_nil_r.
    pose proof (denotes_intro sg sign w ds [] [] Hsg) as D. cbn in D.
    rewrite Z.add_0_r, app_nil_r in D.
    apply D; auto; [by apply str_isdigit_spec in Iw as []|constructor|lia].
  - destruct ws; [|done]. rename select (str_isdigit w = true) into Iw.
    rename select (py_int 10 w = _) into Hw. rename select (py_int 10 _ = _) into Hf.
    rename select (exact_init _ = _) into Hi.
    rename select ((_ <? length f)%nat = false) into Hlf. reflect_bools.
    assert (str_isdigit f = true) as If by done.
    assert (Forall (fun c => Unicode.isdigit c = true) (repeat 48 (DECIMALS - length f))) as I0.
    { apply ascii_isdigit, Forall_forall. intros c ->%list_elem_of_In%repeat_spec. lia. }
    destruct (py_int_digits _ _ Iw Hw) as (ds & Hds & -> & Hlen).
    destruct (py_int_digits _ _ (str_isdigit_app _ _ If I0) Hf) as (es & Hes & -> & _).
    apply exact_init_Ok in Hi as [-> Hr]. cbn [scaled]. split; [|done].
    apply Forall2_app_inv_l in Hes as (fs & zs & Hfs & Hzs & ->).
    rewrite (decimal_zeros _ _ Hzs).
    rewrite of_digits_app, repeat_length.
    rewrite of_digits_repeat0, Z.add_0_r. replace (Z.of_nat (DECIMALS - length f)) with (8 - Z.of_nat (length f))
      by (unfold DECIMALS in *; lia).
    destruct f as [|c f]; [done|]. cbn [map concat]. rewrite app_nil_r.
    apply (denotes_intro sg sign w ds (c :: f) fs); auto.
    by apply str_isdigit_spec in Iw as [].
Qed.

Lemma exact_parse_complete s z :
  exact_denotes s z -> in_range z -> exact_parse s = Ok (mkExact z).
Proof.
  intros [sg sign w ws f fs] Hr. rewrite (exact_parse_parts sg sign w ws f fs) by done.
  by apply exact_init_in_range.
Qed.

(** The printed digits of a number. *)
Lemma str_of_nonneg_digits n : digits_of (str_of_nonneg 10 n) (digits 10 n).
Proof.
  apply digits_of_mapM. rewrite mapM_decimal_ascii by apply str_of_nonneg_ascii.
  by rewrite digit_values.
Qed.

(** The eight padded digits of a fraction, without the zeros at the end. *)
Lemma fraction_text fr :
  0 < fr < SCALE ->
  let f := str_rstrip 48 (pad_zeros DECIMALS (str_of_nonneg 10 fr)) in
  exists fs, f <> [] /\ digits_of f fs /\ (length f <= DECIMALS)%nat /\
             of_digits 10 fs * 10 ^ (8 - Z.of_nat (length f)) = fr.
Proof.
  intros Hfr f. unfold f; clear f. set (p := pad_zeros _ _).
  destruct (str_rstrip_spec 48 p) as (k & Hk & _). set (f := str_rstrip _ _) in *.
  assert (length p = 8%nat) as Lp.
  { unfold p, pad_zeros. rewrite length_app, repeat_length, length_str_of_nonneg.
    pose proof (digits_length 10 ltac:(lia) fr 7). unfold DECIMALS, SCALE in *. lia. }
  assert (digits_of p (repeat 0 (DECIMALS - length (str_of_nonneg 10 fr)) ++ digits 10 fr)) as Dp.
  { apply Forall2_app; [|apply str_of_nonneg_digits].
    induction (DECIMALS - length _)%nat; constructor; done. }
  rewrite Hk in Lp, Dp. rewrite length_app, repeat_length in Lp.
  apply Forall2_app_inv_l in Dp as (fs & zs & Df & Dz & Heq).
  rewrite (decimal_zeros _ _ Dz) in Heq.
  apply (f_equal (of_digits 10)) in Heq.
  rewrite of_digits_zeros, of_digits_digits, of_digits_app, of_digits_repeat0, repeat_length in Heq by lia.
  exists fs. split_and!; [|done|unfold DECIMALS; lia|].
  - intros Hf. rewrite Hf in Df. inversion Df; subst fs. cbn in Heq. lia.
  - replace (8 - Z.of_nat (length f)) with (Z.of_nat k) by lia. lia.
Qed.

(** [str] prints plain notation for the scaled value. *)
Lemma exact_str_denotes x : in_range (scaled x) -> exact_denotes (exact_str x) (scaled x).
Proof.
  intros Hr. unfold exact_str, in_range, MIN_SCALED, MAX_SCALED in *.
  set (m := Z.abs (scaled x)).
  assert (exists sg sign, sign_text sg sign /\ (if scaled x <? 0 then u "-" else []) = sg /\
            scaled x = sign * m) as (sg & sign & Hsg & -> & Hx).
  { unfold sign_text. destruct (scaled x <? 0) eqn:E; reflect_bools;
      [exists (u "-"), (-1)|exists [], 1]; split_and!; auto; lia. }
  rewrite Hx. pose proof (Z.div_mod m SCALE ltac:(done)) as Hdm.
  pose proof (Z.mod_pos_bound m SCALE ltac:(done)) as Hmod. set (wh := m / SCALE) in *.
  set (fr := m mod SCALE) in *.
  assert (0 <= wh < 10 ^ Z.of_nat 19) as Hwh.
  { split; [apply Z.div_pos; [lia|done]|]. apply Z.div_lt_upper_bound; [done|].
    change (10 ^ Z.of_nat 19) with 10000000000000000000. unfold SCALE. lia. }
  assert (length (str_of_nonneg 10 wh) <= max_str_digits)%nat as Lw.
  { rewrite length_str_of_nonneg. pose proof (digits_length 10 ltac:(lia) wh 18 Hwh).
    unfold max_str_digits. lia. }
  pose proof (fun f fs => denotes_intro sg sign _ _ f fs Hsg (str_of_nonneg_nonempty wh)
                (str_of_nonneg_digits wh) Lw) as D.
  rewrite of_digits_digits in D by lia.
  destruct (fr =? 0) eqn:E; reflect_bools.
  - specialize (D [] [] ltac:(constructor) ltac:(cbn; lia)). cbn [point_text length of_digits fold_left] in D.
    rewrite app_nil_r in D. replace m with (wh * SCALE + 0 * 10 ^ (8 - Z.of_nat 0)) by lia. exact D.
  - destruct (fraction_text fr ltac:(lia)) as (fs & Hf & Df & Lf & Vf).
    specialize (D _ fs Df Lf). rewrite Vf in D. replace m with (wh * SCALE + fr) by lia.
    by destruct (str_rstrip _ _).
Qed.

Lemma exact_parse_str x : in_range (scaled x) -> exact_parse (exact_str x) = Ok x.
Proof.
  intros Hr. rewrite (exact_parse_complete _ (scaled x)); [by destruct x|by apply exact_str_denotes|done].
Qed.

(** ** Properties of [ExactDecimal] *)

(** Printing an [ExactDecimal] and parsing the text gives the value back. *)
Theorem exact_parse_str_roundtrip x :
  in_range (scaled x) -> exact_parse (exact_str x) = Ok x.
Proof. apply exact_parse_str. Qed.

Lemma exact_parse_str_roundtrip_witness :
  in_range (-150000001) /\ exact_parse (exact_str (mkExact (-150000001))) = Ok (mkExact (-150000001)).
Proof.
  assert (in_range (-150000001)) as H by (unfold in_range, MIN_SCALED, MAX_SCALED; lia).
  split; [exact H|]. apply (exact_parse_str_roundtrip (mkExact (-150000001))). exact H.
Defined.

(** [parse] accepts a text exactly when it is plain decimal notation of an
    int64-sized value, and returns that value. *)
Theorem exact_parse_accepts s x :
  exact_parse s = Ok x <-> exact_denotes s (scaled x) /\ in_range (scaled x).
Proof.
  split; [apply exact_parse_sound|]. intros [Hd Hr].
  rewrite (exact_parse_complete s (scaled x)) by done. by destruct x.
Qed.

Lemma mapM_decimal_None s :
  Forall (fun c => Unicode.isdigit c = true) s -> mapM Unicode.decimal s = None ->
  exists c, c ∈ s /\ Unicode.isdigit c = true /\ Unicode.decimal c = None.
Proof.
  induction 1 as [|c s Hc Hs IH]; [done|]. cbn.
  destruct (Unicode.decimal c) as [d|] eqn:E; cbn.
  - destruct (mapM _ s) eqn:Em; [done|]. intros _.
    destruct (IH eq_refl) as (k & ? & ?). exists k. split; [by right|done].
  - intros _. exists c. split; [by left|done].
Qed.

Lemma py_int_raise s e :
  str_isdigit s = true -> py_int 10 s = Raise e ->
  exn_class e = ValueError /\
  ((exists c, c ∈ s /\ Unicode.isdigit c = true /\ Unicode.decimal c = None) \/
   (max_str_digits < length s)%nat).
Proof.
  intros Hs. rewrite py_int_isdigit by done. apply str_isdigit_spec in Hs as [_ Hs].
  destruct (mapM _ s) as [ds|] eqn:E.
  - intros [H|(? & ? & [=])]%bind_Raise. apply raise_if_Raise in H as [Hl ->]. reflect_bools.
    split; [done|]. right. apply digits_of_mapM in E. by rewrite (Forall2_length _ _ _ E).
  - intros [= <-]. split; [done|]. left. by apply mapM_decimal_None.
Qed.

Lemma exact_init_raise z e : exact_init z = Raise e -> exn_class e = ExactOverflowError.
Proof. intros [H|(? & ? & [=])]%bind_Raise. by apply raise_if_Raise in H as [_ ->]. Qed.

(** [parse] fails with an [ExactError] (malformed text, too many decimals or
    overflow), except that a digit [int] cannot read (a superscript, say) and a
    part of more than 4300 digits leave it as a bare [ValueError]. *)
Theorem exact_parse_errors s e :
  exact_parse s = Raise e ->
  exc_subclass (exn_class e) ExactError = true \/
  (exn_class e = ValueError /\
   ((exists c, c ∈ s /\ Unicode.isdigit c = true /\ Unicode.decimal c = None) \/
    (max_str_digits < length s)%nat)).
Proof.
  unfold exact_parse. intros [H|(? & ? & H)]%bind_Raise.
  { apply raise_if_Raise in H as [_ ->]. by left. }
  destruct (split_sign s) as [sign text] eqn:Hsplit. apply split_sign_inv in Hsplit as (sg & _ & ->).
  apply bind_Raise in H as [H|(? & ? & H)]; [apply raise_if_Raise in H as [_ ->]; by left|].
  destruct (str_split_join 46 text) as (w & ws & Hparts & ->). rewrite Hparts in H.
  apply bind_Raise in H as [H|(? & ? & H)]; [apply raise_if_Raise in H as [_ ->]; by left|].
  destruct ws as [|f ws].
  - apply bind_Raise in H as [H|(? & Hd & H)]; [apply raise_if_Raise in H as [_ ->]; by left|].
    inv_ok. apply bind_Raise in H as [H|(z & ? & H)].
    + right. apply py_int_raise in H as [? [(c & ? & ?)|?]]; [| |done].
      * split; [done|]. left. exists c. set_solver.
      * split; [done|]. right. rewrite !length_app. lia.
    + left. apply exact_init_raise in H as ->. done.
  - do 3 (apply bind_Raise in H as [H|(? & ? & H)]; [apply raise_if_Raise in H as [_ ->]; by left|]).
    inv_ok. apply bind_Raise in H as [H|(z & ? & H)].
    { right. apply py_int_raise in H as [? [(c & ? & ?)|?]]; [| |done].
      - split; [done|]. left. exists c. set_solver.
      - split; [done|]. right. rewrite !length_app. lia. }
    assert (str_isdigit f = true) as If by done. reflect_bools.
    apply bind_Raise in H as [H|(z' & ? & H)].
    + right. apply py_int_raise in H as [? [(c & Hc & Hcd & Hcn)|?]].
      * split; [done|]. left. exists c. apply elem_of_app in Hc as [Hc|Hc]; [set_solver|].
        apply list_elem_of_In, repeat_spec in Hc as ->. done.
      * rewrite length_app, repeat_length in *. unfold DECIMALS, max_str_digits in *. lia.
      * apply str_isdigit_app; [done|]. apply ascii_isdigit, Forall_forall.
        intros c ->%list_elem_of_In%repeat_spec. lia.
    + left. apply exact_init_raise in H as ->. done.
Qed.

Lemma exact_parse_errors_witness :
  exact_parse (178 :: u ".5") = raise ValueError "invalid literal for int()" /\
  exc_subclass ValueError ExactError = false /\
  (exc_subclass (exn_class (Exc ValueError "invalid literal for int()")) ExactError = true \/
   (ValueError = ValueError /\
    ((exists c, c ∈ 178 :: u ".5" /\ Unicode.isdigit c = true /\ Unicode.decimal c = None) \/
     (max_str_digits < length (178%Z :: u ".5"))%nat))).
Proof.
  split; [reflexivity|]. split; [reflexivity|].
  apply (exact_parse_errors (178 :: u ".5") (Exc ValueError "invalid literal for int()")). reflexivity.
Defined.
