(* ===== verification/ExactText.v ===== *)
(** * Exact values as [Decimal] texts

    The decoders turn an [ExactDecimal] into a [Decimal] with
    [Decimal(str(x))], and the sweep turns it back with [from_decimal].  Proved
    here: the first conversion never fails and keeps the value, and the second
    one inverts it, so no decoded book level is lost on the way. *)

From S2P Require Import Prelude PyStr Num Exact.
From Stdlib Require Import QArith Qcanon.
Open Scope Z_scope.

(** The rational value of an exact amount. *)
Definition exact_value (x : ExactDecimal) : Qc := frac (scaled x) 100000000.

(** ** [Decimal(str(x))] *)

Lemma span_digits_all w ws : digits_of w ws -> span_digits w = (ws, []).
Proof. induction 1 as [|c d w ws Hc _ IH]; cbn; [done|]. by rewrite Hc, IH. Qed.

Lemma span_digits_stop w ws k t :
  digits_of w ws -> Unicode.decimal k = None -> span_digits (w ++ k :: t) = (ws, k :: t).
Proof.
  intros Hw Hk. induction Hw as [|c d w ws Hc _ IH]; cbn; [by rewrite Hk|]. by rewrite Hc, IH.
Qed.

Lemma filter_none (p : Z -> bool) s : Forall (fun c => p c = true) s -> List.filter p s = s.
Proof. induction 1 as [|c s Hc _ IH]; cbn; [done|]. by rewrite Hc, IH. Qed.

Lemma isdigit_not_underscore c : Unicode.isdigit c = true -> negb (c =? 95) = true.
Proof. intros Hc. apply negb_true_iff, Z.eqb_neq. by apply isdigit_ne. Qed.

Lemma parse_finite_plain neg w ws f fs :
  w <> [] -> digits_of w ws -> digits_of f fs -> (length f <= 8)%nat -> (length w <= 100)%nat ->
  Forall (fun d => 0 <= d < 10) (ws ++ fs) ->
  parse_finite neg (w ++ point_text f) =
    Some (DFin neg (of_digits 10 (ws ++ fs)) (- Z.of_nat (length f))).
Proof.
  intros Hw Hws Hfs Hlf Hlw Hr. unfold parse_finite.
  assert (exists d ds, ws ++ fs = d :: ds) as (d & ds & Hds).
  { destruct Hws as [|c d w' ws' _ _]; [done|]. by exists d, (ws' ++ fs). }
  pose proof (of_digits_bound 10 ltac:(lia) _ Hr) as Hb. set (c := of_digits 10 (ws ++ fs)) in *.
  assert (Z.of_nat (length (digits 10 c)) <= 200) as Hlen.
  { pose proof (digits_length 10 ltac:(lia) c 199). rewrite length_app in Hb.
    rewrite <- (Forall2_length _ _ _ Hws), <- (Forall2_length _ _ _ Hfs) in Hb.
    assert (10 ^ Z.of_nat (length w + length f) <= 10 ^ Z.of_nat 200) by (apply Z.pow_le_mono_r; lia).
    lia. }
  destruct f as [|k f]; cbn [point_text].
  - inversion Hfs; subst fs. rewrite (app_nil_r w), (span_digits_all _ _ Hws), Hds.
    cbn [mbind option_bind parse_exponent length]. rewrite <- Hds. fold c.
    rewrite (proj2 (Z.ltb_ge _ _)), (proj2 (Z.ltb_ge _ _)) by (unfold max_emax, min_etiny in *; lia).
    done.
  - rewrite (span_digits_stop _ _ 46) by done. cbn [length] in *.
    rewrite (span_digits_all _ _ Hfs), Hds. cbn [mbind option_bind parse_exponent]. rewrite <- Hds. fold c.
    rewrite <- (Forall2_length _ _ _ Hfs). cbn [length].
    rewrite (proj2 (Z.ltb_ge _ _)), (proj2 (Z.ltb_ge _ _)) by (unfold max_emax, min_etiny in *; lia).
    done.
Qed.

Lemma decimal_range c d : Unicode.decimal c = Some d -> 0 <= d < 10.
Proof.
  unfold Unicode.decimal, Unicode.in_run. destruct ((48 <=? c) && (c <? 48 + 10)) eqn:E.
  - intros [= <-]. apply andb_true_iff in E as [? ?]. reflect_bools. lia.
  - destruct (List.find _ _) as [s|] eqn:F; [|done]. intros [= <-].
    apply find_some in F as [_ F]. apply andb_true_iff in F as [? ?]. reflect_bools. lia.
Qed.

Lemma digits_of_range s ds : digits_of s ds -> Forall (fun d => 0 <= d < 10) ds.
Proof. induction 1; constructor; eauto using decimal_range. Qed.

Lemma dec_parse_plain sg sign w ws f fs :
  sign_text sg sign -> w <> [] -> digits_of w ws -> digits_of f fs ->
  (length f <= 8)%nat -> (length w <= 100)%nat ->
  dec_parse (sg ++ w ++ point_text f) =
    Ok (DFin (sign <? 0) (of_digits 10 (ws ++ fs)) (- Z.of_nat (length f))).
Proof.
  intros Hsg Hw Hws Hfs Hlf Hlw. unfold dec_parse.
  pose proof (digits_of_isdigit _ _ Hws) as Dw. pose proof (digits_of_isdigit _ _ Hfs) as Df.
  assert (str_strip (sg ++ w ++ point_text f) = sg ++ w ++ point_text f) as ->.
  { apply strip_by_none, plain_chars with sign; try done;
      (eapply Forall_impl; [done|apply isdigit_not_space]). }
  rewrite filter_none.
  2: { apply plain_chars with sign; try done;
         (eapply Forall_impl; [done|apply isdigit_not_underscore]). }
  rewrite (split_sign_text sg sign) by done.
  rewrite (parse_finite_plain _ w ws f fs); [done..|].
  apply Forall_app; split; by eapply digits_of_range.
Qed.

(** [str(x)] is a plain decimal of at most nineteen whole digits. *)
Lemma exact_str_plain x :
  in_range (scaled x) ->
  exists sg sign w ws f fs, exact_str x = sg ++ w ++ point_text f /\
    sign_text sg sign /\ w <> [] /\ digits_of w ws /\ digits_of f fs /\
    (length f <= 8)%nat /\ (length w <= 100)%nat /\
    scaled x = sign * (of_digits 10 ws * SCALE + of_digits 10 fs * 10 ^ (8 - Z.of_nat (length f))).
Proof.
  intros Hr. unfold exact_str, in_range, MIN_SCALED, MAX_SCALED in *.
  set (m := Z.abs (scaled x)).
  assert (exists sg sign, sign_text sg sign /\ (if scaled x <? 0 then u "-" else []) = sg /\
            scaled x = sign * m) as (sg & sign & Hsg & -> & Hx).
  { unfold sign_text. destruct (scaled x <? 0) eqn:E; reflect_bools;
      [exists (u "-"), (-1)|exists [], 1]; split_and!; auto; lia. }
  pose proof (Z.div_mod m SCALE ltac:(done)) as Hdm.
  pose proof (Z.mod_pos_bound m SCALE ltac:(done)) as Hmod. set (wh := m / SCALE) in *.
  set (fr := m mod SCALE) in *.
  assert (0 <= wh < 10 ^ Z.of_nat 19) as Hwh.
  { split; [apply Z.div_pos; [lia|done]|]. apply Z.div_lt_upper_bound; [done|].
    change (10 ^ Z.of_nat 19) with 10000000000000000000. unfold SCALE. lia. }
  assert (length (str_of_nonneg 10 wh) <= 100)%nat as Lw.
  { rewrite length_str_of_nonneg. pose proof (digits_length 10 ltac:(lia) wh 18 Hwh). lia. }
  destruct (fr =? 0) eqn:E; reflect_bools.
  - exists sg, sign, (str_of_nonneg 10 wh), (digits 10 wh), [], [].
    split_and!; try done; [by rewrite app_nil_r|apply str_of_nonneg_nonempty
      |apply str_of_nonneg_digits|constructor|cbn; lia|].
    rewrite of_digits_digits by lia. cbn [of_digits fold_left length]. lia.
  - destruct (fraction_text fr ltac:(lia)) as (fs & Hf & Df & Lf & Vf).
    exists sg, sign, (str_of_nonneg 10 wh), (digits 10 wh),
      (str_rstrip 48 (pad_zeros DECIMALS (str_of_nonneg 10 fr))), fs.
    split_and!; try done; [by destruct (str_rstrip _ _)|apply str_of_nonneg_nonempty
      |apply str_of_nonneg_digits|].
    rewrite of_digits_digits by lia. lia.
Qed.

(** The [Decimal] of an exact value: finite, at most eight places, same value. *)
Definition decimal_of_exact (d : decimal) (z : Z) : Prop :=
  exists neg c k, d = DFin neg c (- k) /\ 0 <= c /\ 0 <= k <= 8 /\
    z = signed neg c * 10 ^ (8 - k).

Lemma dec_parse_exact_str x :
  in_range (scaled x) -> exists d, dec_parse (exact_str x) = Ok d /\ decimal_of_exact d (scaled x).
Proof.
  intros Hr. destruct (exact_str_plain x Hr)
    as (sg & sign & w & ws & f & fs & -> & Hsg & Hw & Hws & Hfs & Hlf & Hlw & Hx).
  rewrite (dec_parse_plain sg sign w ws f fs) by done. eexists. split; [done|].
  pose proof (of_digits_bound 10 ltac:(lia) (ws ++ fs)) as Hb.
  exists (sign <? 0), (of_digits 10 (ws ++ fs)), (Z.of_nat (length f)). split_and!; [done| |lia..|].
  - apply Hb, Forall_app; split; by eapply digits_of_range.
  - rewrite Hx, of_digits_app, <- (Forall2_length _ _ _ Hfs) by lia.
    unfold SCALE. replace 100000000 with (10 ^ (Z.of_nat (length f)) * 10 ^ (8 - Z.of_nat (length f))).
    2: { rewrite <- Z.pow_add_r by lia. by replace (_ + _) with 8 by lia. }
    destruct Hsg as [[_ ->]|[[_ ->]|[_ ->]]]; cbn [Z.ltb Z.compare signed]; ring.
Qed.

Lemma decimal_of_exact_value d z :
  decimal_of_exact d z -> dec_is_finite d = true /\ dec_value d = frac z 100000000.
Proof.
  intros (neg & c & k & -> & Hc & Hk & ->). split; [done|]. cbn [dec_value].
  rewrite scale10_frac, frac_eq, to_pos_pow10 by lia.
  rewrite Z.max_r, Z.max_l, Z.opp_involutive, Z.pow_0_r, Z.mul_1_r by lia.
  change 100000000 with (10 ^ 8). replace 8 with ((8 - k) + k) at 1 by lia.
  rewrite Z.pow_add_r by lia. ring.
Qed.

(** ** [ExactDecimal.from_decimal] *)

Lemma digits_of_zeros n : digits_of (repeat 48 n) (repeat 0 n).
Proof. induction n; constructor; done. Qed.

Lemma denotes_digits sg sign w ws f fs c k :
  sign_text sg sign -> w <> [] -> digits_of w ws -> (length w <= max_str_digits)%nat ->
  digits_of f fs -> length f = k -> (k <= 8)%nat -> of_digits 10 (ws ++ fs) = c ->
  exact_denotes (sg ++ w ++ point_text f) (sign * (c * 10 ^ (8 - Z.of_nat k))).
Proof.
  intros Hsg Hw Hws Hlw Hfs <- Hlf <-.
  replace (of_digits 10 (ws ++ fs) * 10 ^ (8 - Z.of_nat (length f)))
    with (of_digits 10 ws * SCALE + of_digits 10 fs * 10 ^ (8 - Z.of_nat (length f))).
  - by apply denotes_intro.
  - rewrite of_digits_app, <- (Forall2_length _ _ _ Hfs) by lia.
    rewrite Z.mul_add_distr_r, <- Z.mul_assoc, <- Z.pow_add_r by lia.
    by replace (Z.of_nat (length f) + (8 - Z.of_nat (length f))) with 8 by lia.
Qed.

Lemma dec_format_denotes neg c k :
  0 <= c < 10 ^ 100 -> (k <= 8)%nat ->
  exact_denotes (dec_format_f neg c (- Z.of_nat k)) (signed neg c * 10 ^ (8 - Z.of_nat k)).
Proof.
  intros Hc Hk. set (sg := if neg then [45] else []).
  assert (exists sign, sign_text sg sign /\ signed neg c = sign * c) as (sign & Hsg & ->).
  { unfold sign_text, sg. destruct neg; [exists (-1)|exists 1]; cbn; split; auto; lia. }
  rewrite <- Z.mul_assoc. set (ds := str_of_nonneg 10 c).
  assert (length ds <= 100)%nat as Hl.
  { unfold ds. rewrite length_str_of_nonneg. pose proof (digits_length 10 ltac:(lia) c 99). lia. }
  assert (digits_of ds (digits 10 c)) as Dds by apply str_of_nonneg_digits.
  assert (ds <> []) as Hds by apply str_of_nonneg_nonempty.
  pose proof (of_digits_digits 10 ltac:(lia) c ltac:(lia)) as Hv.
  unfold dec_format_f. fold ds.
  replace ((c =? 0) && (0 <? - Z.of_nat k)) with false
    by (symmetry; apply andb_false_iff; right; apply Z.ltb_ge; lia).
  fold sg. destruct (- Z.of_nat k + Z.of_nat (length ds) <? 0) eqn:E1; reflect_bools.
  - replace (Z.to_nat (- (- Z.of_nat k + Z.of_nat (length ds)))) with (k - length ds)%nat by lia.
    change (match repeat 48 (k - length ds) ++ ds with [] => [] | _ => 46 :: (repeat 48 (k - length ds) ++ ds) end)
      with (point_text (repeat 48 (k - length ds) ++ ds)).
    eapply (denotes_digits sg sign [48] [0]); try done; [by repeat constructor|..].
    + apply Nat.leb_le. reflexivity.
    + apply Forall2_app; [apply digits_of_zeros|exact Dds].
    + rewrite length_app, repeat_length. lia.
    + change ([0] ++ repeat 0 (k - length ds) ++ digits 10 c)
        with (repeat 0 (S (k - length ds)) ++ digits 10 c). by rewrite of_digits_zeros.
  - rewrite (proj2 (Z.ltb_ge _ _)) by lia.
    replace (Z.to_nat (- Z.of_nat k + Z.of_nat (length ds))) with (length ds - k)%nat by lia.
    set (n := (length ds - k)%nat).
    change (match drop n ds with [] => [] | _ => 46 :: drop n ds end) with (point_text (drop n ds)).
    assert (digits_of (drop n ds) (drop n (digits 10 c))) as Dd by by apply Forall2_drop.
    assert (digits_of (take n ds) (take n (digits 10 c))) as Dt by by apply Forall2_take.
    assert (length (drop n ds) = k) as Hn by (rewrite length_drop; lia).
    destruct (take n ds) as [|t ts] eqn:Et.
    + inversion Dt as [Ht|]. eapply (denotes_digits sg sign [48] [0]); try done; [by repeat constructor|..].
      * apply Nat.leb_le. reflexivity.
      * assert (n = 0%nat) as ->.
        { destruct ds; [done|]. by destruct n. }
        rewrite drop_0. change ([0] ++ digits 10 c) with (repeat 0 1 ++ digits 10 c).
        by rewrite of_digits_zeros.
    + rewrite <- Et in *. eapply (denotes_digits sg sign); try done; [by rewrite Et|..].
      * rewrite length_take. unfold max_str_digits. lia.
      * by rewrite take_drop.
Qed.

Lemma exact_from_decimal_of_exact d z :
  decimal_of_exact d z -> in_range z -> exact_from_decimal d = Ok (mkExact z).
Proof.
  intros (neg & c & k & -> & Hc & Hk & ->) Hr. cbn [exact_from_decimal].
  apply exact_parse_complete; [|exact Hr]. cbn [scaled].
  rewrite <- (Z2Nat.id k) by lia. apply dec_format_denotes; [|lia]. split; [done|].
  assert (0 < 10 ^ (8 - k)) as Hp by (apply Z.pow_pos_nonneg; lia).
  unfold in_range, MIN_SCALED, MAX_SCALED in Hr.
  assert (c * 10 ^ (8 - k) < 10 ^ 100).
  { transitivity 9223372036854775809; [|reflexivity]. destruct neg; cbn [signed] in Hr; lia. }
  nia.
Qed.

(** ** Properties *)

(** The decoders' conversion of an exact value to a [Decimal] never fails
    and keeps the value, and [from_decimal] recovers the exact value from it. *)
Theorem exact_decimal_roundtrip x :
  in_range (scaled x) ->
  exists d, dec_parse (exact_str x) = Ok d /\ dec_value d = exact_value x /\
            exact_from_decimal d = Ok x.
Proof.
  intros Hr. destruct (dec_parse_exact_str x Hr) as (d & Hd & Hx). exists d. split_and!; [done| |].
  - by apply decimal_of_exact_value.
  - rewrite (exact_from_decimal_of_exact d (scaled x)) by done. by destruct x.
Qed.

Lemma exact_decimal_roundtrip_witness :
  in_range (-50000000) /\
  exists d, dec_parse (exact_str (mkExact (-50000000))) = Ok d /\
            dec_value d = exact_value (mkExact (-50000000)) /\
            exact_from_decimal d = Ok (mkExact (-50000000)).
Proof.
  assert (in_range (-50000000)) as H by (unfold in_range, MIN_SCALED, MAX_SCALED; lia).
  split; [exact H|]. apply (exact_decimal_roundtrip (mkExact (-50000000))). exact H.
Defined.

(** ** Exact parsing fails with a [ValueError] only *)

Lemma py_int_fails base s : fails_with ValueError (py_int base s).
Proof. unfold py_int. fails. Qed.
#[export] Hint Resolve py_int_fails : fails.

Lemma exact_init_fails z : fails_with ValueError (exact_init z).
Proof. unfold exact_init. fails. Qed.
#[export] Hint Resolve exact_init_fails : fails.

Lemma exact_parse_fails s : fails_with ValueError (exact_parse s).
Proof. unfold exact_parse. fails. Qed.
#[export] Hint Resolve exact_parse_fails : fails.

(** ** The order of exact decimals *)

Lemma decimal_of_exact_zero : decimal_of_exact dec_zero 0.
Proof. exists false, 0, 0. split_and!; done. Qed.

Lemma decimal_of_exact_compare a za b zb :
  decimal_of_exact a za -> decimal_of_exact b zb -> dec_compare a b = Some (za ?= zb).
Proof.
  intros Ha Hb. destruct (decimal_of_exact_value _ _ Ha) as [_ Va].
  destruct (decimal_of_exact_value _ _ Hb) as [_ Vb].
  destruct Ha as (na & ca & ka & -> & _), Hb as (nb & cb & kb & -> & _).
  cbn [dec_compare]. rewrite Va, Vb. f_equal.
  destruct (Z.compare_spec za zb) as [->|Hlt|Hgt].
  - by apply Qceq_alt.
  - apply Qclt_alt, frac_lt. lia.
  - apply Qcgt_alt, frac_lt. lia.
Qed.

Lemma exact_dec_le a za b zb :
  decimal_of_exact a za -> decimal_of_exact b zb -> dec_le a b = Ok (za <=? zb).
Proof.
  intros Ha Hb. unfold dec_le. rewrite (decimal_of_exact_compare a za b zb) by done.
  unfold Z.leb. by destruct (za ?= zb).
Qed.

Lemma exact_dec_lt a za b zb :
  decimal_of_exact a za -> decimal_of_exact b zb -> dec_lt a b = Ok (za <? zb).
Proof.
  intros Ha Hb. unfold dec_lt. rewrite (decimal_of_exact_compare a za b zb) by done.
  unfold Z.ltb. by destruct (za ?= zb).
Qed.

Lemma exact_dec_eq a za b zb :
  decimal_of_exact a za -> decimal_of_exact b zb -> dec_eq a b = Ok (za =? zb).
Proof.
  intros Ha Hb. unfold dec_eq. rewrite (decimal_of_exact_compare a za b zb) by done.
  destruct (Z.compare_spec za zb); symmetry; f_equal; [apply Z.eqb_eq|apply Z.eqb_neq..]; lia.
Qed.

Lemma exact_dec_less a za b zb :
  decimal_of_exact a za -> decimal_of_exact b zb -> dec_less a b <-> za < zb.
Proof.
  intros Ha Hb. unfold dec_less. rewrite (exact_dec_lt a za b zb) by done.
  split; [intros [= H]; by apply Z.ltb_lt|intros H; by rewrite (proj2 (Z.ltb_lt _ _) H)].
Qed.
