(* ===== verification/PyObj.v ===== *)
(** * Dynamic values: decoded JSON documents and dataclass arguments

    [json] is the type of the values [json.loads] returns, [obj] that of the
    arguments of the dataclass constructors that check their fields' types.  The
    file models [float] (binary64 with correct rounding), [str(x)], [repr(x)] and
    [int(x)] of such values, and [dict] as an association list in insertion order. *)

From S2P Require Import Prelude PyStr Num.
From Stdlib Require Import QArith Qcanon.
Open Scope Z_scope.

(** ** Binary64 floats: [m * 2^e] with [m < 2^53], infinities and NaN *)

Inductive pyfloat :=
  | FNan
  | FInf (neg : bool)
  | FFin (neg : bool) (m e : Z).

#[global] Instance pyfloat_eq_dec : EqDecision pyfloat.
Proof. solve_decision. Defined.

(** [n / d], for [n > 0] and [d > 0], to the nearest float, ties to even. *)
Definition float_of_ratio (neg : bool) (n d : Z) : pyfloat :=
  let scaled e := if 0 <=? e then (n, d * 2 ^ e) else (n * 2 ^ (- e), d) in
  let e0 := Z.log2 n - Z.log2 d - 52 in
  let '(n0, d0) := scaled e0 in
  let e := Z.max (if n0 / d0 <? 2 ^ 52 then e0 - 1 else e0) (-1074) in
  let '(n, d) := scaled e in
  let m := half_even (n / d) (n mod d) d in
  let '(m, e) := if m =? 2 ^ 53 then (2 ^ 52, e + 1) else (m, e) in
  if 971 <? e then FInf neg
  else if m =? 0 then FFin neg 0 0 else FFin neg m e.

(** [float("<c>e<e>")]: exponents beyond the range are decided without
    computing the power. *)
Definition float_of_decimal (neg : bool) (c e : Z) : pyfloat :=
  if c =? 0 then FFin neg 0 0
  else
    let top := num_digits c + e in
    if 310 <? top then FInf neg
    else if top <? -330 then FFin neg 0 0
    else if 0 <=? e then float_of_ratio neg (c * 10 ^ e) 1
    else float_of_ratio neg c (10 ^ (- e)).

(** The [k]-digit decimals next to [m * 2^e], as [(coefficient, exponent)]. *)
Definition decimal_neighbours (m e k : Z) : list (Z * Z) :=
  let '(n, d) := if 0 <=? e then (m * 2 ^ e, 1) else (m, 2 ^ (- e)) in
  let top := num_digits (n / d) in
  let top := if n / d =? 0 then num_digits n - num_digits d else top in
  let at_exp x :=
    let '(n, d) := if 0 <=? x then (n, d * 10 ^ x) else (n * 10 ^ (- x), d) in
    (n / d, n mod d, d) in
  let x := top - k in
  let '(c, _, _) := at_exp x in
  let x := if num_digits c <? k then x - 1 else if k <? num_digits c then x + 1 else x in
  let '(c, r, d) := at_exp x in
  if r =? 0 then [(c, x)]
  else if 2 * r <=? d then [(c, x); (c + 1, x)] else [(c + 1, x); (c, x)].

(** The shortest decimal that reads back as the float, the nearest of that
    length; seventeen digits always do. *)
Fixpoint shortest_decimal (fuel : nat) (m e k : Z) : Z * Z :=
  match List.find (fun '(c, x) => bool_decide (float_of_decimal false c x = FFin false m e))
          (decimal_neighbours m e k), fuel with
  | Some r, _ => r
  | None, S fuel => shortest_decimal fuel m e (k + 1)
  | None, O => (0, 0)
  end.

(** [repr(float)] *)
Definition float_repr (f : pyfloat) : pystr :=
  match f with
  | FNan => u "nan"
  | FInf neg => if neg then u "-inf" else u "inf"
  | FFin neg m e =>
    (if neg then u "-" else []) ++
    if m =? 0 then u "0.0"
    else
      let '(c, x) := shortest_decimal 17 m e 1 in
      let ds := str_of_nonneg 10 c in
      let ds := str_rstrip 48 ds in
      let n := Z.of_nat (length ds) in
      let point := num_digits c + x in
      if (-4 <? point) && (point <=? 16) then
        if point <=? 0 then u "0." ++ repeat 48 (Z.to_nat (- point)) ++ ds
        else if n <=? point then ds ++ repeat 48 (Z.to_nat (point - n)) ++ u ".0"
        else take (Z.to_nat point) ds ++ u "." ++ drop (Z.to_nat point) ds
      else
        let exp := point - 1 in
        take 1 ds ++ (match drop 1 ds with [] => [] | r => u "." ++ r end) ++ u "e" ++
        (if exp <? 0 then u "-" else u "+") ++ pad_zeros 2 (str_of_nonneg 10 (Z.abs exp))
  end.

Example float_repr_ex1 : float_repr (float_of_decimal false 1 (-1)) = u "0.1".
Proof. vm_compute. reflexivity. Qed.
Example float_repr_ex2 : float_repr (float_of_decimal true 123456789012345678 3) = u "-1.2345678901234568e+20".
Proof. vm_compute. reflexivity. Qed.
Example float_repr_ex3 : float_repr (FFin false 1 (-1074)) = u "5e-324".
Proof. vm_compute. reflexivity. Qed.
Example float_repr_ex5 : float_repr (float_of_decimal false 100 0) = u "100.0".
Proof. vm_compute. reflexivity. Qed.
Example float_repr_ex6 : float_repr (FFin false (2 ^ 52) (-96)) = u "5.684341886080802e-14".
Proof. vm_compute. reflexivity. Qed.
Example float_repr_ex7 : float_of_decimal false 1 400 = FInf false.
Proof. vm_compute. reflexivity. Qed.

(** [int(float)]: truncation toward zero. *)
Definition int_of_float (f : pyfloat) : result Z :=
  match f with
  | FNan => raise ValueError "cannot convert float NaN to integer"
  | FInf _ => raise OverflowError "cannot convert float infinity to integer"
  | FFin neg m e =>
    let n := if 0 <=? e then m * 2 ^ e else m / 2 ^ (- e) in
    Ok (if neg then - n else n)
  end.

(** ** Decoded JSON values *)

Inductive json :=
  | JNull
  | JBool (b : bool)
  | JInt (z : Z)
  | JFloat (f : pyfloat)
  | JStr (s : pystr)
  | JList (l : list json)
  | JDict (d : list (pystr * json)).

(** The induction principle through the nested lists. *)
Section json_induction.
Context (P : json -> Prop).
Context (Hnull : P JNull) (Hbool : forall b, P (JBool b)) (Hint : forall z, P (JInt z)).
Context (Hfloat : forall f, P (JFloat f)) (Hstr : forall s, P (JStr s)).
Context (Hlist : forall l, Forall P l -> P (JList l)).
Context (Hdict : forall d, Forall (fun kv => P (snd kv)) d -> P (JDict d)).

Fixpoint json_ind_nested (j : json) : P j :=
  match j with
  | JNull => Hnull | JBool b => Hbool b | JInt z => Hint z
  | JFloat f => Hfloat f | JStr s => Hstr s
  | JList l => Hlist l ((fix go l : Forall P l :=
      match l with [] => Forall_nil_2 _ | x :: l => Forall_cons_2 _ _ _ (json_ind_nested x) (go l) end) l)
  | JDict d => Hdict d ((fix go d : Forall (fun kv => P (snd kv)) d :=
      match d with
      | [] => Forall_nil_2 _
      | kv :: d => Forall_cons_2 _ kv _ (json_ind_nested (snd kv)) (go d)
      end) d)
  end.
End json_induction.

Fixpoint json_eq_dec_fix (x y : json) : {x = y} + {x <> y}.
Proof.
  assert (forall p q : pystr * json, {p = q} + {p <> q}) as Hpair.
  { intros [k v] [k' v']. destruct (List.list_eq_dec Z.eq_dec k k') as [->|Hk]; [|right; congruence].
    destruct (json_eq_dec_fix v v') as [->|Hv]; [by left|right; congruence]. }
  decide equality;
    [apply bool_dec | apply Z.eq_dec | apply pyfloat_eq_dec | apply (List.list_eq_dec Z.eq_dec)
    | apply (List.list_eq_dec json_eq_dec_fix) | apply (List.list_eq_dec Hpair)].
Defined.
#[global] Instance json_eq_dec : EqDecision json := json_eq_dec_fix.

(** ** [dict] as an association list with distinct keys, in insertion order *)

Fixpoint assoc {K V} `{EqDecision K} (k : K) (d : list (K * V)) : option V :=
  match d with
  | [] => None
  | (k', v) :: d => if decide (k = k') then Some v else assoc k d
  end.

(** [d[k] = v]: a present key keeps its place. *)
Fixpoint assoc_set {K V} `{EqDecision K} (k : K) (v : V) (d : list (K * V)) : list (K * V) :=
  match d with
  | [] => [(k, v)]
  | (k', v') :: d => if decide (k = k') then (k', v) :: d else (k', v') :: assoc_set k v d
  end.

(** [d.pop(k, None)] and [del d[k]] *)
Fixpoint assoc_del {K V} `{EqDecision K} (k : K) (d : list (K * V)) : list (K * V) :=
  match d with
  | [] => []
  | (k', v') :: d => if decide (k = k') then d else (k', v') :: assoc_del k d
  end.

(** [d.get(k)] on a decoded object: an absent key reads as [None]. *)
Definition json_get (k : pystr) (d : list (pystr * json)) : json :=
  match assoc k d with Some v => v | None => JNull end.

(** [d[k]] *)
Definition json_item (k : pystr) (d : list (pystr * json)) : result json :=
  match assoc k d with Some v => Ok v | None => raise KeyError "key" end.

(** [x[k]] of any decoded value and a text [k]. *)
Definition subscript (k : pystr) (x : json) : result json :=
  match x with
  | JDict d => json_item k d
  | _ => raise TypeError "not subscriptable by a text"
  end.

(** [x == y] of decoded values: a boolean is the integer it stands for, a float is
    compared exactly, and the order of a dictionary does not matter. *)
Definition number_of (x : json) : option (Z * Z) :=
  match x with
  | JBool b => Some (if b then 1 else 0, 0)
  | JInt z => Some (z, 0)
  | JFloat (FFin neg m e) => Some (if neg then - m else m, e)
  | _ => None
  end.

Definition number_eqb (x y : Z * Z) : bool :=
  let e := Z.min (snd x) (snd y) in
  fst x * 2 ^ (snd x - e) =? fst y * 2 ^ (snd y - e).

Fixpoint py_eq (x y : json) : bool :=
  match x, y with
  | JNull, JNull => true
  | JStr s, JStr t => str_eqb s t
  | JFloat (FInf b), JFloat (FInf c) => Bool.eqb b c
  | JList l, JList k =>
    (fix go l k := match l, k with
                   | [], [] => true
                   | x :: l, y :: k => py_eq x y && go l k
                   | _, _ => false
                   end) l k
  | JDict d, JDict d' =>
    (length d =? length d')%nat &&
    forallb (fun kv => match assoc (fst kv) d' with Some v => py_eq (snd kv) v | None => false end) d
  | _, _ =>
    match number_of x, number_of y with Some a, Some b => number_eqb a b | _, _ => false end
  end.

(** [x == "s"] *)
Definition json_is (x : json) (s : pystr) : bool :=
  match x with JStr t => str_eqb t s | _ => false end.

(** What compares equal to a text is the text. *)
Lemma py_eq_text x s : py_eq x (JStr s) = true -> x = JStr s.
Proof. destruct x as [| | |f|t| |]; try done; [by destruct f|]. cbn. by intros ->%str_eqb_spec. Qed.

Lemma json_is_Ok x s : json_is x s = true <-> x = JStr s.
Proof.
  destruct x as [| | | |t| |]; cbn; split; try done; [by intros ->%str_eqb_spec|intros [= ->]; apply str_eqb_refl].
Qed.

(** [set(d) == keys] and [set(d) <= keys] *)
Definition keys_subset (d : list (pystr * json)) (keys : list pystr) : bool :=
  forallb (fun kv => bool_decide (fst kv ∈ keys)) d.
Definition keys_cover (keys : list pystr) (d : list (pystr * json)) : bool :=
  forallb (fun k => bool_decide (k ∈ map fst d)) keys.
Definition keys_equal (d : list (pystr * json)) (keys : list pystr) : bool :=
  keys_subset d keys && keys_cover keys d.

(** ** [repr] and [str] *)

(** Which code points beyond ASCII [str.isprintable] accepts depends on the
    interpreter's Unicode version; only [repr] of a nested non-ASCII text asks. *)
Class UnicodeTables := printable_beyond_ascii : Z -> bool.

Definition hex_escape (c : Z) : pystr :=
  let hex w := pad_zeros w (str_of_nonneg 16 c) in
  if c <? 256 then u "\x" ++ hex 2%nat
  else if c <? 65536 then u "\u" ++ hex 4%nat else u "\U" ++ hex 8%nat.

Definition str_repr `{UnicodeTables} (s : pystr) : pystr :=
  let quote := if str_contains 39 s && negb (str_contains 34 s) then 34 else 39 in
  let char c :=
    if (c =? quote) || (c =? 92) then [92; c]
    else if c =? 9 then u "\t" else if c =? 10 then u "\n" else if c =? 13 then u "\r"
    else if (c <? 32) || (c =? 127) then hex_escape c
    else if (c <? 127) || printable_beyond_ascii c then [c] else hex_escape c in
  [quote] ++ flat_map char s ++ [quote].

Fixpoint str_join (sep : pystr) (l : list pystr) : pystr :=
  match l with
  | [] => []
  | [x] => x
  | x :: l => x ++ sep ++ str_join sep l
  end.

Fixpoint json_repr `{UnicodeTables} (j : json) : result pystr :=
  match j with
  | JNull => Ok (u "None")
  | JBool b => Ok (if b then u "True" else u "False")
  | JInt z => py_str_int z
  | JFloat f => Ok (float_repr f)
  | JStr s => Ok (str_repr s)
  | JList l =>
    items ← mapR json_repr l; Ok (u "[" ++ str_join (u ", ") items ++ u "]")
  | JDict d =>
    items ← mapR (fun kv => r ← json_repr (snd kv); Ok (str_repr (fst kv) ++ u ": " ++ r)) d;
    Ok (u "{" ++ str_join (u ", ") items ++ u "}")
  end.

(** [str(x)] *)
Definition json_str `{UnicodeTables} (j : json) : result pystr :=
  match j with JStr s => Ok s | _ => json_repr j end.

(** [int(x)] *)
Definition json_int (j : json) : result Z :=
  match j with
  | JBool b => Ok (if b then 1 else 0)
  | JInt z => Ok z
  | JFloat f => int_of_float f
  | JStr s => py_int 10 s
  | _ => raise TypeError "int() argument must be a string, a bytes-like object or a real number"
  end.

(** ** Arguments of the checking constructors *)

Inductive obj :=
  | OJson (j : json)
  | OBytes (b : list Z)
  | ODecimal (d : decimal)
  | OFraction (q : Qc)
  | OEnum (cls : string) (value : pystr).

(** [type(x) is str] and the like. *)
Definition as_str (o : obj) : option pystr :=
  match o with OJson (JStr s) => Some s | _ => None end.
Definition as_int (o : obj) : option Z :=
  match o with OJson (JInt z) => Some z | _ => None end.
Definition as_decimal (o : obj) : option decimal :=
  match o with ODecimal d => Some d | _ => None end.
Definition as_fraction (o : obj) : option Qc :=
  match o with OFraction q => Some q | _ => None end.
Definition is_none (o : obj) : bool :=
  match o with OJson JNull => true | _ => false end.

#[global] Instance ascii_tables : UnicodeTables | 100 := fun _ => false.

Example json_repr_ex : json_repr (JDict [(u "a'", JList [JInt (-1); JNull; JStr (u "x")])])
  = Ok (u "{" ++ [34] ++ u "a'" ++ [34] ++ u ": [-1, None, 'x']}").
Proof. vm_compute. reflexivity. Qed.

(** ** Laws of association lists *)

Section assoc_laws.
Context {K V : Type} `{EqDecision K}.
Implicit Types (d : list (K * V)) (k : K) (v : V).

Lemma assoc_set_same k v d : assoc k (assoc_set k v d) = Some v.
Proof.
  induction d as [|[k' v'] d IH]; cbn; [by rewrite decide_True|].
  destruct (decide (k = k')); cbn; [by rewrite decide_True|by rewrite decide_False].
Qed.

Lemma assoc_set_other k k' v d : k <> k' -> assoc k (assoc_set k' v d) = assoc k d.
Proof.
  intros Hne. induction d as [|[k1 v1] d IH]; cbn; [by rewrite decide_False|].
  destruct (decide (k' = k1)) as [<-|]; cbn; [by rewrite !(decide_False (P := k = k'))|].
  destruct (decide (k = k1)); [done|exact IH].
Qed.

Lemma assoc_elem k v d : assoc k d = Some v -> (k, v) ∈ d.
Proof.
  induction d as [|[k' v'] d IH]; cbn; [done|]. case_decide; intros Hv; simplify_eq; set_solver.
Qed.

Lemma assoc_key k v d : assoc k d = Some v -> k ∈ map fst d.
Proof. intros H%assoc_elem. by apply (list_elem_of_fmap_2 fst) in H. Qed.

Lemma assoc_None k d : assoc k d = None <-> k ∉ map fst d.
Proof.
  induction d as [|[k' v'] d IH]; cbn; [split; [intros _; apply not_elem_of_nil|done]|].
  rewrite not_elem_of_cons. case_decide; naive_solver.
Qed.

Lemma assoc_app k d e : assoc k (d ++ e) = match assoc k d with Some v => Some v | None => assoc k e end.
Proof. induction d as [|[k' v'] d IH]; cbn [assoc app]; [done|]. by case_decide. Qed.

(** A new key goes to the end. *)
Lemma assoc_set_new k v d : k ∉ map fst d -> assoc_set k v d = d ++ [(k, v)].
Proof.
  induction d as [|[k' v'] d IH]; cbn [assoc_set map fst app]; [done|]. intros [Hk Hd]%not_elem_of_cons.
  rewrite decide_False by done. by rewrite IH.
Qed.

Lemma assoc_del_subset k d x : x ∈ assoc_del k d -> x ∈ d.
Proof.
  induction d as [|[k' v'] d IH]; cbn; [done|]. case_decide; set_solver.
Qed.

Lemma assoc_set_elem k v d x : x ∈ assoc_set k v d -> x = (k, v) \/ x ∈ d.
Proof.
  induction d as [|[k' v'] d IH]; cbn; [set_solver|]. case_decide; set_solver.
Qed.

Lemma assoc_del_other k k' d : k <> k' -> assoc k (assoc_del k' d) = assoc k d.
Proof.
  intros Hne. induction d as [|[k1 v1] d IH]; cbn; [done|].
  destruct (decide (k' = k1)) as [<-|]; cbn; [by rewrite decide_False|].
  destruct (decide (k = k1)); [done|exact IH].
Qed.

Lemma assoc_del_same k d : NoDup (map fst d) -> assoc k (assoc_del k d) = None.
Proof.
  induction d as [|[k1 v1] d IH]; cbn; [done|]. intros [Hn Hd]%NoDup_cons.
  case_decide as Hk; cbn; [subst; by apply assoc_None|]. rewrite decide_False by done. by apply IH.
Qed.

Lemma assoc_set_keys k v d :
  map fst (assoc_set k v d) = if decide (k ∈ map fst d) then map fst d else map fst d ++ [k].
Proof.
  induction d as [|[k1 v1] d IH]; cbn.
  - rewrite decide_False by apply not_elem_of_nil. done.
  - destruct (decide (k = k1)) as [->|Hne]; cbn.
    + rewrite decide_True by left. done.
    + rewrite IH. destruct (decide (k ∈ map fst d)) as [Hin|Hin].
      * rewrite decide_True by (by right). done.
      * rewrite decide_False by (rewrite not_elem_of_cons; done). done.
Qed.

Lemma assoc_set_NoDup k v d : NoDup (map fst d) -> NoDup (map fst (assoc_set k v d)).
Proof.
  intros Hd. rewrite assoc_set_keys. case_decide as Hin; [done|].
  apply NoDup_app. split_and!; [done| |apply NoDup_singleton]. set_solver.
Qed.

Lemma assoc_unique k v d : NoDup (map fst d) -> (k, v) ∈ d -> assoc k d = Some v.
Proof.
  induction d as [|[k' v'] d IH]; intros Hnd Hin; [by apply not_elem_of_nil in Hin|].
  cbn [assoc map fst] in *. apply NoDup_cons in Hnd as [Hk Hnd].
  apply elem_of_cons in Hin as [[= <- <-]|Hin]; [by rewrite decide_True|].
  rewrite decide_False; [by apply IH|]. intros ->. apply Hk, (list_elem_of_fmap_2 fst _ _ Hin).
Qed.

(** The order of the items does not matter to a lookup. *)
Lemma assoc_perm k d d' : NoDup (map fst d) -> d ≡ₚ d' -> assoc k d = assoc k d'.
Proof.
  intros Hnd Hp. assert (NoDup (map fst d')) as Hnd' by (by rewrite <- Hp).
  destruct (assoc k d) as [v|] eqn:E.
  - apply assoc_elem in E. symmetry. apply assoc_unique; [done|]. by rewrite <- Hp.
  - rewrite assoc_None in E. symmetry. apply assoc_None. by rewrite <- Hp.
Qed.
End assoc_laws.

Lemma assoc_map_values {K V W} `{EqDecision K} (f : V -> W) (k : K) (d : list (K * V)) :
  assoc k (map (fun kv => (fst kv, f (snd kv))) d) = f <$> assoc k d.
Proof. induction d as [|[k' v] d IH]; [done|]. cbn [map assoc fst snd]. by case_decide. Qed.
