(* ===== verification/Json.v ===== *)
(** * [json.loads] and [json.dumps]

    The decoder of the standard library with its hooks, and the canonical
    encoder [json.dumps(x, sort_keys=True, separators=(",", ":"))] the packages
    write and hash, with or without [ensure_ascii].  Texts are decoded from the left with the rest returned;
    fuel counts nested calls and loop turns, each of which consumes a character. *)

From S2P Require Import Prelude PyStr Num PyObj.
Open Scope Z_scope.

(** ** Encoding *)

Definition hex4 (c : Z) : pystr := u "\u" ++ pad_zeros 4 (str_of_nonneg 16 c).

(** The escapes of a text; with [ensure_ascii], of everything but printable ASCII,
    beyond the basic plane by a surrogate pair. *)
Definition escape_char (ascii : bool) (c : Z) : pystr :=
  if c =? 34 then [92; 34] else if c =? 92 then [92; 92]
  else if c =? 8 then u "\b" else if c =? 9 then u "\t" else if c =? 10 then u "\n"
  else if c =? 12 then u "\f" else if c =? 13 then u "\r"
  else if (32 <=? c) && (negb ascii || (c <=? 126)) then [c]
  else if c <? 65536 then hex4 c
  else hex4 (55296 + (c - 65536) / 1024) ++ hex4 (56320 + (c - 65536) mod 1024).

Definition encode_str (ascii : bool) (s : pystr) : pystr := [34] ++ flat_map (escape_char ascii) s ++ [34].

Definition encode_float (f : pyfloat) : pystr :=
  match f with
  | FNan => u "NaN"
  | FInf neg => if neg then u "-Infinity" else u "Infinity"
  | FFin _ _ _ => float_repr f
  end.

(** [sort_keys]: the items in the order of their keys. *)
Definition sort_items {V} (d : list (pystr * V)) : list (pystr * V) :=
  py_sorted (fun x y => str_leb (fst x) (fst y)) d.

(** How a document is laid out: the text between items, the text after a key,
    whether keys are sorted and whether texts are written in ASCII. *)
Record json_style := mkStyle { item_sep : pystr; key_sep : pystr; sort_keys : bool; ensure_ascii : bool }.

(** [json.dumps(x, sort_keys=True, separators=(",", ":"))], [json.dumps(x)], and the
    first with [ensure_ascii=False]. *)
Definition canonical_style : json_style := mkStyle (u ",") (u ":") true true.
Definition default_style : json_style := mkStyle (u ", ") (u ": ") false true.
Definition unicode_style : json_style := mkStyle (u ",") (u ":") true false.

Fixpoint json_dumps_with (y : json_style) (j : json) : result pystr :=
  match j with
  | JNull => Ok (u "null")
  | JBool b => Ok (if b then u "true" else u "false")
  | JInt z => py_str_int z
  | JFloat f => Ok (encode_float f)
  | JStr s => Ok (encode_str (ensure_ascii y) s)
  | JList l =>
    items ← mapR (json_dumps_with y) l;
    Ok (u "[" ++ str_join (item_sep y) items ++ u "]")
  | JDict d =>
    items ← mapR (fun kv => v ← json_dumps_with y (snd kv); Ok (fst kv, v)) d;
    let items := if sort_keys y then sort_items items else items in
    Ok (u "{" ++ str_join (item_sep y)
                   (map (fun kv => encode_str (ensure_ascii y) (fst kv) ++ key_sep y ++ snd kv) items) ++ u "}")
  end.

Definition json_dumps : json -> result pystr := json_dumps_with canonical_style.

(** The text is ASCII, so its bytes are its code points:
    [(json.dumps(document, sort_keys=True, ...) + "\n").encode("ascii")]. *)
Definition canonical_json_bytes (j : json) : result (list Z) :=
  text ← json_dumps j; Ok (text ++ [10]).

(** ** Decoding *)

Definition json_error {A} : result A := raise JSONDecodeError "json".

Definition json_space (c : Z) : bool := (c =? 32) || (c =? 9) || (c =? 10) || (c =? 13).
Definition skip_space : pystr -> pystr := drop_while json_space.

Definition hex_value (c : Z) : option Z :=
  if (48 <=? c) && (c <=? 57) then Some (c - 48)
  else if (97 <=? c) && (c <=? 102) then Some (c - 87)
  else if (65 <=? c) && (c <=? 70) then Some (c - 55) else None.

Definition read_hex4 (s : pystr) : option (Z * pystr) :=
  match s with
  | a :: b :: c :: d :: t =>
    a ← hex_value a; b ← hex_value b; c ← hex_value c; d ← hex_value d;
    Some (4096 * a + 256 * b + 16 * c + d, t)
  | _ => None
  end.

Definition is_high_surrogate (c : Z) : bool := (55296 <=? c) && (c <=? 56319).
Definition is_low_surrogate (c : Z) : bool := (56320 <=? c) && (c <=? 57343).

(** An escape sequence after its backslash. *)
Definition read_escape (s : pystr) : result (Z * pystr) :=
  match s with
  | 34 :: t => Ok (34, t) | 92 :: t => Ok (92, t) | 47 :: t => Ok (47, t)
  | 98 :: t => Ok (8, t) | 102 :: t => Ok (12, t) | 110 :: t => Ok (10, t)
  | 114 :: t => Ok (13, t) | 116 :: t => Ok (9, t)
  | 117 :: t =>
    match read_hex4 t with
    | None => json_error
    | Some (c, t) =>
      match t with
      | 92 :: 117 :: t' =>
        if is_high_surrogate c then
          match read_hex4 t' with
          | None => json_error
          | Some (c2, t'') =>
            if is_low_surrogate c2 then Ok (65536 + 1024 * (c - 55296) + (c2 - 56320), t'')
            else Ok (c, t)
          end
        else Ok (c, t)
      | _ => Ok (c, t)
      end
    end
  | _ => json_error
  end.

(** The rest of a string literal after its opening quote. *)
Fixpoint scan_string (fuel : nat) (s : pystr) : result (pystr * pystr) :=
  match fuel with
  | O => raise RecursionError "fuel"
  | S fuel =>
    match s with
    | [] => json_error
    | 34 :: t => Ok ([], t)
    | 92 :: t =>
      '(c, t) ← read_escape t; '(cs, r) ← scan_string fuel t; Ok (c :: cs, r)
    | c :: t =>
      if c <=? 31 then json_error
      else '(cs, r) ← scan_string fuel t; Ok (c :: cs, r)
    end
  end.

(** ASCII digits and the rest. *)
Fixpoint span_ascii (s : pystr) : pystr * pystr :=
  match s with
  | c :: t =>
    if (48 <=? c) && (c <=? 57) then let '(ds, r) := span_ascii t in (c :: ds, r) else ([], s)
  | [] => ([], [])
  end.

(** What [json.loads] lets the caller replace: [object_pairs_hook],
    [parse_float] and [parse_constant]. *)
Record json_hooks := {
  on_pairs : list (pystr * json) -> result (list (pystr * json));
  on_float : bool -> pystr -> pystr -> Z -> result json; (* sign, whole, fraction, exponent *)
  on_constant : pyfloat -> result json }.

(** [dict(pairs)] *)
Definition dict_of_pairs (ps : list (pystr * json)) : list (pystr * json) :=
  fold_left (fun d kv => assoc_set (fst kv) (snd kv) d) ps [].

Definition ascii_value (ds : pystr) : Z := of_digits 10 (map (fun c => c - 48) ds).

Definition default_hooks : json_hooks := {|
  on_pairs := fun ps => Ok (dict_of_pairs ps);
  on_float := fun neg whole frac e =>
    Ok (JFloat (float_of_decimal neg (ascii_value (whole ++ frac)) (e - Z.of_nat (length frac))));
  on_constant := fun f => Ok (JFloat f) |}.

(** A number after its sign; fraction and exponent are taken when well formed. *)
Definition scan_number (h : json_hooks) (neg : bool) (s : pystr) : result (json * pystr) :=
  match s with
  | [] => json_error
  | c :: t =>
    let '(whole, r) :=
      if (49 <=? c) && (c <=? 57) then span_ascii s
      else if c =? 48 then ([48], t) else ([], s) in
    match whole with
    | [] => json_error
    | _ =>
      let '(frac, r) := match r with
        | 46 :: t => match span_ascii t with ([], _) => ([], r) | p => p end
        | _ => ([], r) end in
      let '(exp, r) := match r with
        | e :: t =>
          if (e =? 101) || (e =? 69) then
            let '(sign, t) := split_sign t in
            match span_ascii t with ([], _) => (None, r) | (ds, r) => (Some (sign * ascii_value ds), r) end
          else (None, r)
        | [] => (None, r) end in
      match frac, exp with
      | [], None =>
        raise_if (max_str_digits <? length whole)%nat ValueError
          "Exceeds the limit (4300 digits) for integer string conversion" ;;
        let n := ascii_value whole in Ok (JInt (if neg then - n else n), r)
      | _, _ => v ← on_float h neg whole frac (default 0 exp); Ok (v, r)
      end
    end
  end.

(** The constant names and how many characters each takes. *)
Definition scan_constant (h : json_hooks) (s : pystr) : option (result (json * pystr)) :=
  if str_startswith (u "null") s then Some (Ok (JNull, drop 4 s))
  else if str_startswith (u "true") s then Some (Ok (JBool true, drop 4 s))
  else if str_startswith (u "false") s then Some (Ok (JBool false, drop 5 s))
  else if str_startswith (u "NaN") s then Some (v ← on_constant h FNan; Ok (v, drop 3 s))
  else if str_startswith (u "Infinity") s then
    Some (v ← on_constant h (FInf false); Ok (v, drop 8 s))
  else if str_startswith (u "-Infinity") s then
    Some (v ← on_constant h (FInf true); Ok (v, drop 9 s))
  else None.

Fixpoint scan_value (h : json_hooks) (fuel : nat) (s : pystr) : result (json * pystr) :=
  match fuel with
  | O => raise RecursionError "fuel"
  | S fuel =>
    match s with
    | [] => json_error
    | c :: t =>
      if c =? 34 then '(v, r) ← scan_string fuel t; Ok (JStr v, r)
      else if c =? 91 then
        match skip_space t with
        | [] => json_error
        | d :: r =>
          if d =? 93 then Ok (JList [], r)
          else '(l, r) ← scan_items h fuel (d :: r); Ok (JList l, r)
        end
      else if c =? 123 then
        match skip_space t with
        | [] => json_error
        | d :: r =>
          if d =? 125 then ps ← on_pairs h []; Ok (JDict ps, r)
          else '(ps, r) ← scan_pairs h fuel (d :: r); ps ← on_pairs h ps; Ok (JDict ps, r)
        end
      else
        match scan_constant h s with
        | Some m => m
        | None => if c =? 45 then scan_number h true t else scan_number h false s
        end
    end
  end
(** The items of an array, the white space before the first one skipped. *)
with scan_items (h : json_hooks) (fuel : nat) (s : pystr) : result (list json * pystr) :=
  match fuel with
  | O => raise RecursionError "fuel"
  | S fuel =>
    '(v, r) ← scan_value h fuel s;
    match skip_space r with
    | [] => json_error
    | c :: t =>
      if c =? 93 then Ok ([v], t)
      else if c =? 44 then '(l, r) ← scan_items h fuel (skip_space t); Ok (v :: l, r)
      else json_error
    end
  end
(** The members of an object, likewise. *)
with scan_pairs (h : json_hooks) (fuel : nat) (s : pystr)
    : result (list (pystr * json) * pystr) :=
  match fuel with
  | O => raise RecursionError "fuel"
  | S fuel =>
    match s with
    | [] => json_error
    | c :: t =>
      if c =? 34 then
        '(k, r) ← scan_string fuel t;
        match skip_space r with
        | [] => json_error
        | c :: t =>
          if c =? 58 then
            '(v, r) ← scan_value h fuel (skip_space t);
            match skip_space r with
            | [] => json_error
            | c :: t =>
              if c =? 125 then Ok ([(k, v)], t)
              else if c =? 44 then
                '(l, r) ← scan_pairs h fuel (skip_space t); Ok ((k, v) :: l, r)
              else json_error
            end
          else json_error
        end
      else json_error
    end
  end.

Definition json_loads_with (h : json_hooks) (s : pystr) : result json :=
  match s with
  | 65279 :: _ => json_error
  | _ =>
    '(v, r) ← scan_value h (S (2 * length s)) (skip_space s);
    match skip_space r with [] => Ok v | _ => json_error end
  end.

Definition json_loads : pystr -> result json := json_loads_with default_hooks.

Example json_loads_ex1 :
  json_loads (u " {" ++ [34] ++ u "a" ++ [34] ++ u ": [1, -2.50, true, null, {}], " ++
              [34] ++ u "\ud83d\ude00" ++ [34] ++ u " : " ++ [34; 92; 110; 34] ++ u "}")
  = Ok (JDict [(u "a", JList [JInt 1; JFloat (FFin true (5 * 2 ^ 50) (-51)); JBool true; JNull; JDict []]);
               ([128512], JStr [10])]).
Proof. vm_compute. reflexivity. Qed.
Example json_loads_ex2 : is_Ok (json_loads (u "[1,]")) = false. Proof. reflexivity. Qed.
Example json_loads_ex3 : is_Ok (json_loads (u "01")) = false. Proof. reflexivity. Qed.
Example json_dumps_ex1 :
  json_dumps (JDict [(u "b", JInt (-5)); (u "a", JList [JStr [233; 128512]; JNull])])
  = Ok (u "{" ++ [34] ++ u "a" ++ [34] ++ u ":[" ++ [34] ++ u "\u00e9\ud83d\ude00" ++ [34] ++
        u ",null]," ++ [34] ++ u "b" ++ [34] ++ u ":-5}").
Proof. vm_compute. reflexivity. Qed.

(** ** The decoder terminates: fuel never runs out *)

(** What the decoder and its hooks raise, none of which is that fuel ran out. *)
Section terminates.
Context (P : exc_class -> bool) (HPjson : P JSONDecodeError = true) (HPvalue : P ValueError = true).

(** A scan consumes at least one character, or fails other than by fuel. *)
Definition consumes {A} (s : pystr) (m : result (A * pystr)) : Prop :=
  match m with
  | Ok (_, r) => (length r < length s)%nat
  | Raise e => P (exn_class e) = true
  end.

Lemma consumes_bind {A B} s (m : result (A * pystr)) (f : A * pystr -> result (B * pystr)) :
  consumes s m -> (forall a r, (length r < length s)%nat -> consumes s (f (a, r))) ->
  consumes s (m ≫= f).
Proof. destruct m as [[a r]|e]; cbn; auto. Qed.

Lemma consumes_shorter {A} s t (m : result (A * pystr)) :
  consumes t m -> (length t <= length s)%nat -> consumes s m.
Proof. destruct m as [[a r]|e]; cbn; [lia|done]. Qed.

Lemma consumes_error {A} s : consumes s (json_error (A := A * pystr)).
Proof. done. Qed.
Hint Resolve consumes_error : core.

Lemma drop_while_length p s : (length (drop_while p s) <= length s)%nat.
Proof. induction s as [|c s IH]; cbn; [lia|]. destruct (p c); cbn; lia. Qed.

Lemma span_ascii_length s ds r : span_ascii s = (ds, r) -> length s = (length ds + length r)%nat.
Proof.
  revert ds r; induction s as [|c s IH]; intros ds r; cbn; [by intros [= <- <-]|].
  destruct (_ && _); [|by intros [= <- <-]].
  destruct (span_ascii s) as [ds' r'] eqn:E. intros [= <- <-]. cbn. f_equal. by apply IH.
Qed.

Lemma read_hex4_length s c r : read_hex4 s = Some (c, r) -> length s = (4 + length r)%nat.
Proof.
  destruct s as [|x1 [|x2 [|x3 [|x4 t]]]]; try done. cbn [read_hex4].
  intros (? & _ & (? & _ & (? & _ & (? & _ & [= _ <-])%bind_Some)%bind_Some)%bind_Some)%bind_Some.
  done.
Qed.

Lemma read_escape_consumes s : consumes s (read_escape s).
Proof.
  unfold read_escape. repeat (case_match; subst; cbn [length] in *; try (cbn; lia); try done).
  all: repeat match goal with H : read_hex4 _ = Some _ |- _ => apply read_hex4_length in H end;
    cbn in *; lia.
Qed.

Lemma scan_string_consumes fuel s : (length s < fuel)%nat -> consumes s (scan_string fuel s).
Proof.
  revert s; induction fuel as [|fuel IH]; intros s Hl; [lia|]. cbn [scan_string].
  destruct s as [|c t]; [done|]. cbn [length] in *.
  assert (forall t', (length t' <= length t)%nat -> forall k : Z,
    consumes (c :: t) ('(cs, r) ← scan_string fuel t'; Ok (k :: cs, r))) as Hrec.
  { intros t' Ht k. apply consumes_bind.
    - eapply consumes_shorter; [apply IH; lia|cbn; lia].
    - intros a r Hr. exact Hr. }
  assert (consumes (c :: t) ('(k, t') ← read_escape t; '(cs, r) ← scan_string fuel t'; Ok (k :: cs, r))) as Hesc.
  { pose proof (read_escape_consumes t) as He. destruct (read_escape t) as [[k t']|e]; [|exact He].
    cbn in He |- *. apply Hrec. lia. }
  destruct (Z.eq_dec c 34) as [->|]; [cbn; lia|]. destruct (Z.eq_dec c 92) as [->|]; [exact Hesc|].
  repeat (case_match; try done); try lia; apply Hrec; lia.
Qed.

(** Hooks never report that fuel ran out. *)
Record hooks_ok (h : json_hooks) : Prop := {
  ok_pairs : forall ps e, on_pairs h ps = Raise e -> P (exn_class e) = true;
  ok_float : forall n w f x e, on_float h n w f x = Raise e -> P (exn_class e) = true;
  ok_constant : forall f e, on_constant h f = Raise e -> P (exn_class e) = true }.

Lemma default_hooks_ok : hooks_ok default_hooks.
Proof. by split. Qed.

Section scan_terminates.
Context (h : json_hooks) (Hh : hooks_ok h).

Lemma scan_number_consumes neg s : consumes s (scan_number h neg s).
Proof.
  unfold scan_number. destruct s as [|c t]; [done|].
  set (wr := if (49 <=? c) && (c <=? 57) then span_ascii (c :: t) else _).
  assert (match wr with ([], _) => True | (_, r) => (length r < length (c :: t))%nat end) as Hw.
  { unfold wr. destruct (_ && _).
    - destruct (span_ascii (c :: t)) as [[|d ds] r] eqn:E; [done|].
      apply span_ascii_length in E. cbn in *. lia.
    - destruct (c =? 48); cbn; [lia|done]. }
  destruct wr as [[|w ws] r]; [done|].
  set (fr := match r with 46 :: t0 => _ | _ => _ end).
  assert (length (snd fr) <= length r)%nat as Hf.
  { unfold fr. repeat case_match; subst; cbn [snd length]; try lia.
    match goal with H : span_ascii _ = _ |- _ => apply span_ascii_length in H; cbn in H; lia end. }
  destruct fr as [f r']. cbn [snd] in Hf.
  set (er := match r' with [] => (None, r') | _ => _ end).
  assert (length (snd er) <= length r')%nat as He.
  { unfold er, split_sign. repeat case_match; subst; simplify_eq; cbn [snd length]; try lia.
    all: match goal with H : span_ascii _ = _ |- _ => apply span_ascii_length in H; cbn in *; lia end. }
  destruct er as [x r'']. cbn [snd] in He.
  assert (forall m : result json, (forall e, m = Raise e -> P (exn_class e) = true) ->
    consumes (c :: t) (v ← m; Ok (v, r''))) as Hend.
  { intros m Hm. destruct m as [v|e]; cbn; [cbn in *; lia|by apply Hm]. }
  destruct f, x; try (apply Hend; intros e; apply (ok_float _ Hh)).
  unfold raise_if. destruct (_ <? _)%nat; cbn; [done|cbn in *; lia].
Qed.

Lemma constant_consumes s t f :
  (length t < length s)%nat -> consumes s (v ← on_constant h f; Ok (v, t)).
Proof.
  intros Hl. destruct (on_constant h f) eqn:E; cbn; [exact Hl|]. by eapply (ok_constant _ Hh).
Qed.

Lemma scan_constant_consumes s m : scan_constant h s = Some m -> consumes s m.
Proof.
  unfold scan_constant.
  assert (forall p n, str_startswith p s = true -> (0 < n <= length p)%nat ->
    (length (drop n s) < length s)%nat) as Hd.
  { intros p n Hp Hn. assert (length p <= length s)%nat.
    { clear -Hp. revert s Hp. induction p as [|a p IH]; intros [|b s]; cbn; try lia; try done.
      intros [_ H]%andb_true_iff. apply IH in H. lia. }
    rewrite length_drop. lia. }
  repeat (match goal with |- context [str_startswith ?p s] =>
      destruct (str_startswith p s) eqn:?; [intros [= <-]|] end;
    [first [eapply Hd; [eassumption|cbn; lia]
           |apply constant_consumes; eapply Hd; [eassumption|cbn; lia]]|]).
  done.
Qed.

Lemma pairs_consumes s t ps :
  (length t < length s)%nat -> consumes s (d ← on_pairs h ps; Ok (JDict d, t)).
Proof.
  intros Hl. destruct (on_pairs h ps) eqn:E; cbn; [exact Hl|]. by eapply (ok_pairs _ Hh).
Qed.

Lemma skip_space_length s : (length (skip_space s) <= length s)%nat.
Proof. apply drop_while_length. Qed.

(** A value needs [2 n + 1] fuel for [n] characters, a list of them [2 n + 2]. *)
Lemma scan_consumes fuel :
  (forall s, (2 * length s + 1 <= fuel)%nat -> consumes s (scan_value h fuel s)) /\
  (forall s, (2 * length s + 2 <= fuel)%nat -> consumes s (scan_items h fuel s)) /\
  (forall s, (2 * length s + 2 <= fuel)%nat -> consumes s (scan_pairs h fuel s)).
Proof.
  induction fuel as [|fuel (IHv & IHi & IHp)]; split_and!; intros s Hl; try lia.
  - cbn [scan_value]. destruct s as [|c t]; [done|]. cbn [length] in Hl.
    pose proof (skip_space_length t) as Hsk.
    destruct (c =? 34).
    { apply consumes_bind; [|by intros].
      eapply consumes_shorter; [apply scan_string_consumes; lia|cbn; lia]. }
    destruct (c =? 91).
    { destruct (skip_space t) as [|d r]; [done|]. cbn [length] in Hsk.
      destruct (d =? 93); [cbn; lia|]. apply consumes_bind; [|by intros].
      eapply consumes_shorter; [apply IHi; cbn; lia|cbn; lia]. }
    destruct (c =? 123).
    { destruct (skip_space t) as [|d r]; [done|]. cbn [length] in Hsk.
      destruct (d =? 125); [apply pairs_consumes; cbn; lia|]. apply consumes_bind.
      - eapply consumes_shorter; [apply IHp; cbn; lia|cbn; lia].
      - intros ps r' Hr. by apply pairs_consumes. }
    destruct (scan_constant h (c :: t)) eqn:Ec; [by apply scan_constant_consumes|].
    destruct (c =? 45); [|apply scan_number_consumes].
    eapply consumes_shorter; [apply scan_number_consumes|cbn; lia].
  - cbn [scan_items]. apply consumes_bind; [apply IHv; lia|]. intros v r Hr.
    pose proof (skip_space_length r) as Hsk. destruct (skip_space r) as [|c t]; [done|].
    cbn [length] in Hsk. destruct (c =? 93); [cbn; lia|]. destruct (c =? 44); [|done].
    pose proof (skip_space_length t). apply consumes_bind; [|by intros].
    eapply consumes_shorter; [apply IHi; lia|lia].
  - cbn [scan_pairs]. destruct s as [|c t]; [done|]. cbn [length] in Hl.
    destruct (c =? 34); [|done]. apply consumes_bind.
    { eapply consumes_shorter; [apply scan_string_consumes; lia|cbn; lia]. }
    intros k r Hr. pose proof (skip_space_length r) as Hsk. cbn [length] in Hr.
    destruct (skip_space r) as [|d t']; [done|]. cbn [length] in Hsk. destruct (d =? 58); [|done].
    pose proof (skip_space_length t'). apply consumes_bind.
    { eapply consumes_shorter; [apply IHv; lia|cbn; lia]. }
    intros v r' Hr'. pose proof (skip_space_length r') as Hsk'. cbn [length] in Hr'.
    destruct (skip_space r') as [|d' t'']; [done|]. cbn [length] in Hsk'.
    destruct (d' =? 125); [cbn; lia|]. destruct (d' =? 44); [|done].
    pose proof (skip_space_length t''). apply consumes_bind; [|by intros].
    (* the rest after the first member is shorter than the text *)
    eapply consumes_shorter; [apply IHp; cbn in Hr'; lia|cbn; lia].
Qed.

(** The decoder never runs out of fuel. *)
Lemma json_loads_with_terminates s e :
  json_loads_with h s = Raise e -> P (exn_class e) = true.
Proof.
  unfold json_loads_with. pose proof (proj1 (scan_consumes (S (2 * length s))) (skip_space s)) as Hc.
  pose proof (skip_space_length s). specialize (Hc ltac:(lia)).
  assert (((v ← scan_value h (S (2 * length s)) (skip_space s);
            (let '(v, r) := v in match skip_space r with [] => Ok v | _ => json_error end))
           = Raise e -> P (exn_class e) = true)) as Hmain.
  { destruct (scan_value _ _ _) as [[v r]|e']; cbn.
    - destruct (skip_space r); [done|by intros [= <-]].
    - by intros [= <-]. }
  destruct s as [|c t]; [exact Hmain|]. repeat (case_match; try exact Hmain); by intros [= <-].
Qed.
End scan_terminates.

End terminates.

Lemma json_loads_fails s : fails_with ValueError (json_loads s).
Proof. apply fails_with_intro. intros e. by apply (json_loads_with_terminates (fun c => exc_subclass c ValueError)). Qed.
#[export] Hint Resolve json_loads_fails : fails.

(** It raises no class of the program's own. *)
Lemma json_loads_builtin s e : json_loads s = Raise e -> exn_class e = JSONDecodeError \/ exn_class e = ValueError.
Proof.
  intros He. apply (json_loads_with_terminates (fun c => bool_decide (c = JSONDecodeError \/ c = ValueError))) in He;
    [by apply bool_decide_eq_true in He|done|done|apply default_hooks_ok].
Qed.

(** [json.loads] terminates on every text: the recursion of the decoder is
    bounded by twice the length of the text, and what it raises is a
    [ValueError] ([JSONDecodeError], or an integer of more than 4300 digits). *)
Lemma json_loads_terminates s : fails_with ValueError (json_loads s).
Proof. apply fails_with_intro. intros e. by apply (json_loads_with_terminates (fun c => exc_subclass c ValueError)). Qed.
