(* ===== verification/JsonRoundtrip.v ===== *)
(** * Decoding an encoded document gives it back

    For documents without floats, whose texts hold Unicode scalar values and whose
    objects have distinct keys, [json.loads] inverts [json.dumps] in the three styles
    the packages use; under [sort_keys] the members come back sorted. *)

From S2P Require Import Prelude PyStr Num PyObj Json.
Open Scope Z_scope.

(** ** Escaped texts *)

(** A code point that is not a surrogate. *)
Definition scalar_value (c : Z) : bool :=
  (0 <=? c) && (c <=? 1114111) && negb ((55296 <=? c) && (c <=? 57343)).

Definition text_ok (s : pystr) : bool := forallb scalar_value s.

Lemma digit_cases d : 0 <= d < 16 ->
  d = 0 \/ d = 1 \/ d = 2 \/ d = 3 \/ d = 4 \/ d = 5 \/ d = 6 \/ d = 7 \/ d = 8 \/ d = 9 \/
  d = 10 \/ d = 11 \/ d = 12 \/ d = 13 \/ d = 14 \/ d = 15.
Proof. lia. Qed.

Lemma hex_value_digit d : 0 <= d < 16 -> hex_value (digit_char d) = Some d.
Proof. intros Hd%digit_cases. by repeat destruct Hd as [->|Hd]; [..|subst]. Qed.

Lemma hex4_digits c : 0 <= c < 65536 ->
  exists a b d e, pad_zeros 4 (str_of_nonneg 16 c) = map digit_char [a; b; d; e] /\
    Forall (fun x => 0 <= x < 16) [a; b; d; e] /\ 4096 * a + 256 * b + 16 * d + e = c.
Proof.
  intros Hc. rewrite pad_zeros_digits.
  pose proof (padded_digits_length 16 ltac:(lia) 3 c ltac:(cbn; lia)) as Hl.
  pose proof (padded_digits_range 16 ltac:(lia) 4 c) as Hr.
  pose proof (padded_digits_value 16 ltac:(lia) 4 c ltac:(lia)) as Hz.
  destruct (padded_digits 16 4 c) as [|a [|b [|d [|e [|? ?]]]]]; try done. exists a, b, d, e.
  split_and!; [done..|]. cbn in Hz. lia.
Qed.

Lemma read_hex4_pad c t :
  0 <= c < 65536 -> read_hex4 (pad_zeros 4 (str_of_nonneg 16 c) ++ t) = Some (c, t).
Proof.
  intros Hc. destruct (hex4_digits c Hc) as (a & b & d & e & -> & Hr & <-).
  rewrite !Forall_cons in Hr. destruct Hr as (? & ? & ? & ? & _). cbn [map app read_hex4].
  by rewrite !hex_value_digit.
Qed.

Lemma read_escape_hex4 c t :
  0 <= c < 65536 -> is_high_surrogate c = false ->
  read_escape (117 :: pad_zeros 4 (str_of_nonneg 16 c) ++ t) = Ok (c, t).
Proof.
  intros Hc Hs. cbn [read_escape]. rewrite read_hex4_pad by done. rewrite Hs.
  repeat (case_match; try done).
Qed.

Lemma read_escape_pair c t :
  65536 <= c <= 1114111 ->
  read_escape (117 :: pad_zeros 4 (str_of_nonneg 16 (55296 + (c - 65536) / 1024)) ++
               92 :: 117 :: pad_zeros 4 (str_of_nonneg 16 (56320 + (c - 65536) mod 1024)) ++ t)
  = Ok (c, t).
Proof.
  intros Hc. pose proof (Z.mod_pos_bound (c - 65536) 1024 ltac:(lia)).
  pose proof (Z.div_mod (c - 65536) 1024 ltac:(lia)).
  assert (0 <= (c - 65536) / 1024 < 1024) by (split; [apply Z.div_pos|apply Z.div_lt_upper_bound]; lia).
  cbn [read_escape]. rewrite read_hex4_pad by lia.
  unfold is_high_surrogate at 1. rewrite !(proj2 (Z.leb_le _ _)) by lia. cbn [andb].
  rewrite read_hex4_pad by lia. unfold is_low_surrogate.
  rewrite !(proj2 (Z.leb_le _ _)) by lia. cbn [andb]. do 2 f_equal. lia.
Qed.

(** An escaped character is read back, by one turn of the scan. *)
Lemma scan_string_char ascii fuel c t :
  scalar_value c = true ->
  scan_string (S fuel) (escape_char ascii c ++ t) = '(cs, r) ← scan_string fuel t; Ok (c :: cs, r).
Proof.
  unfold scalar_value. intros [[??]%andb_true_iff Hs]%andb_true_iff.
  apply negb_true_iff in Hs. reflect_bools. unfold escape_char.
  repeat match goal with |- context [if ?k =? ?n then _ else _] =>
    destruct (Z.eqb_spec k n) as [->|]; [reflexivity|] end.
  destruct ((32 <=? c) && (negb ascii || (c <=? 126))) eqn:E; [apply andb_true_iff in E as [E _]|]; reflect_bools.
  { cbn [app scan_string]. rewrite (proj2 (Z.leb_gt c 31)) by lia.
    repeat (case_match; try done); lia. }
  destruct (c <? 65536) eqn:E2; reflect_bools.
  - unfold hex4. rewrite <- app_assoc. change (u "\u") with [92; 117]. cbn [app scan_string].
    rewrite read_escape_hex4; [done|lia|]. unfold is_high_surrogate.
    destruct (_ && _) eqn:Eh; [|done]. reflect_bools. destruct Hs; reflect_bools; lia.
  - unfold hex4. rewrite <- !app_assoc. change (u "\u") with [92; 117]. cbn [app scan_string].
    rewrite read_escape_pair by lia. done.
Qed.

Lemma escape_char_nonempty ascii c : (1 <= length (escape_char ascii c))%nat.
Proof. unfold escape_char, hex4. repeat case_match; cbn [length u map app]; cbn; lia. Qed.

Lemma scan_string_escaped ascii s fuel rest :
  text_ok s = true -> (length s < fuel)%nat ->
  scan_string fuel (flat_map (escape_char ascii) s ++ 34 :: rest) = Ok (s, rest).
Proof.
  revert fuel; induction s as [|c s IH]; intros [|fuel] Hok Hf; cbn [length] in Hf; try lia; [done|].
  cbn [text_ok forallb] in Hok. apply andb_true_iff in Hok as [Hc Hok].
  cbn [flat_map]. rewrite <- app_assoc, scan_string_char by done. rewrite IH by (done || lia). done.
Qed.

Lemma length_escaped ascii s : (length s <= length (flat_map (escape_char ascii) s))%nat.
Proof.
  induction s as [|c s IH]; cbn; [lia|]. rewrite length_app. pose proof (escape_char_nonempty ascii c). lia.
Qed.

(** ** Integers *)

(** What may follow a number so that it ends there. *)
Definition ends_value (rest : pystr) : Prop :=
  match rest with
  | c :: _ => ((48 <=? c) && (c <=? 57) || (c =? 46) || (c =? 101) || (c =? 69)) = false
  | [] => True
  end.

Lemma span_ascii_app ds rest :
  ascii_digits ds -> match rest with c :: _ => (48 <=? c) && (c <=? 57) = false | [] => True end ->
  span_ascii (ds ++ rest) = (ds, rest).
Proof.
  intros Hds Hr. induction Hds as [|c ds Hc _ IH]; cbn [app span_ascii].
  - destruct rest; cbn; [done|]. by rewrite Hr.
  - rewrite !(proj2 (Z.leb_le _ _)) by lia. by rewrite IH.
Qed.

Lemma ends_value_digit rest : ends_value rest ->
  match rest with c :: _ => (48 <=? c) && (c <=? 57) = false | [] => True end.
Proof. destruct rest; cbn; [done|]. by intros [[[? _]%orb_false_iff _]%orb_false_iff _]%orb_false_iff. Qed.

Lemma scan_digits h neg n rest :
  0 <= n -> (length (digits 10 n) <= max_str_digits)%nat -> ends_value rest ->
  scan_number h neg (str_of_nonneg 10 n ++ rest) = Ok (JInt (if neg then - n else n), rest).
Proof.
  intros Hn Hl Hr. unfold scan_number.
  pose proof (str_of_nonneg_ascii n) as Ha. pose proof (str_of_nonneg_nonempty n) as Hne.
  pose proof (span_ascii_app _ rest Ha (ends_value_digit _ Hr)) as Hspan.
  assert (ascii_value (str_of_nonneg 10 n) = n) as Hv.
  { unfold ascii_value. rewrite digit_values. apply of_digits_digits; lia. }
  assert (length (str_of_nonneg 10 n) = length (digits 10 n)) as Hlen by apply length_map.
  assert (forall t, str_of_nonneg 10 n = 48 :: t -> t = []) as Hzero.
  { intros t Ht. destruct (Z.eq_dec n 0) as [->|]; [by injection Ht as <-|].
    destruct (digits_head 10 ltac:(lia) n ltac:(lia)) as (d & ds & Hd & Hpos).
    unfold str_of_nonneg in Ht. rewrite Hd in Ht. injection Ht as Ht _.
    pose proof (digits_range 10 ltac:(lia) n) as Hrange. rewrite Hd, Forall_cons in Hrange.
    unfold digit_char in Ht. destruct (d <? 10) eqn:?; reflect_bools; lia. }
  destruct (str_of_nonneg 10 n) as [|c t] eqn:E; [done|]. cbn [app] in *.
  assert ((if (49 <=? c) && (c <=? 57) then span_ascii (c :: t ++ rest)
           else if c =? 48 then ([48], t ++ rest) else ([], c :: t ++ rest)) = (c :: t, rest)) as ->.
  { destruct ((49 <=? c) && (c <=? 57)) eqn:E1; [done|].
    apply Forall_inv in Ha. assert (c = 48) as -> by (reflect_bools; destruct E1; reflect_bools; lia).
    cbn. by rewrite (Hzero t). }
  assert (match rest with 46 :: t0 => match span_ascii t0 with ([], _) => ([], rest) | p => p end
          | _ => ([], rest) end = ([], rest)) as ->.
  { destruct rest as [|d r]; [done|]. destruct (Z.eq_dec d 46) as [->|]; [done|].
    repeat (case_match; try done). }
  assert (match rest with
          | [] => (None, rest)
          | e :: t0 => if (e =? 101) || (e =? 69) then
              let '(sign, t1) := split_sign t0 in
              match span_ascii t1 with ([], _) => (None, rest) | (ds, r) => (Some (sign * ascii_value ds), r) end
            else (None, rest) end = (None, rest)) as ->.
  { destruct rest as [|d r]; [done|]. cbn in Hr. reflect_bools.
    rewrite (proj2 (Z.eqb_neq d 101)), (proj2 (Z.eqb_neq d 69)) by done. done. }
  rewrite Hlen, (proj2 (Nat.ltb_ge _ _)) by done.
  cbv beta iota zeta delta [raise_if mbind result_bind]. by rewrite Hv.
Qed.

(** No constant starts with a digit. *)
Lemma scan_constant_digit h c t :
  48 <= c <= 57 -> scan_constant h (c :: t) = None /\ scan_constant h (45 :: c :: t) = None.
Proof.
  intros Hc. unfold scan_constant. cbn -[drop].
  repeat rewrite ?(proj2 (Z.eqb_neq _ c)) by lia. done.
Qed.

(** ** Documents *)

(** No floats, texts of scalar values, objects with distinct keys. *)
Fixpoint json_plain (j : json) : bool :=
  match j with
  | JNull | JBool _ | JInt _ => true
  | JFloat _ => false
  | JStr s => text_ok s
  | JList l => forallb json_plain l
  | JDict d =>
    bool_decide (NoDup (map fst d)) &&
    forallb (fun kv => text_ok (fst kv) && json_plain (snd kv)) d
  end.

(** The document with the members of its objects in the order a style writes them. *)
Fixpoint json_arranged (y : json_style) (j : json) : json :=
  match j with
  | JList l => JList (map (json_arranged y) l)
  | JDict d =>
    let d := map (fun kv => (fst kv, json_arranged y (snd kv))) d in
    JDict (if sort_keys y then sort_items d else d)
  | _ => j
  end.

(** Texts of a value: they start with neither white space nor a closing bracket. *)
Definition starts_value (s : pystr) : Prop :=
  match s with c :: _ => json_space c = false /\ c <> 93 /\ c < 65279 | [] => False end.

Lemma skip_space_app sp s rest :
  Forall (fun c => json_space c = true) sp -> starts_value s ->
  skip_space (sp ++ s ++ rest) = s ++ rest.
Proof.
  intros Hsp Hs. induction Hsp as [|c sp Hc _ IH]; cbn [app].
  - destruct s as [|c s]; [done|]. destruct Hs as [Hs _]. unfold skip_space. cbn. by rewrite Hs.
  - unfold skip_space in *. cbn [drop_while]. by rewrite Hc.
Qed.

Lemma encode_str_starts ascii s : starts_value (encode_str ascii s).
Proof. done. Qed.

Lemma str_of_Z_starts z : starts_value (str_of_Z z).
Proof.
  unfold str_of_Z. destruct (z <? 0); [done|].
  pose proof (str_of_nonneg_ascii z) as Ha. pose proof (str_of_nonneg_nonempty z) as Hn.
  destruct (str_of_nonneg 10 z) as [|c t]; [done|]. apply Forall_inv in Ha.
  unfold starts_value, json_space. rewrite !(proj2 (Z.eqb_neq c _)) by lia. split_and!; [done|lia..].
Qed.

Lemma dumps_starts y j s : json_plain j = true -> json_dumps_with y j = Ok s -> starts_value s.
Proof.
  intros Hp Hd. destruct j as [|b|z|f|t|l|d]; cbn in Hp, Hd; simplify_eq.
  - done.
  - by destruct b.
  - unfold py_str_int in Hd. inv_ok. apply str_of_Z_starts.
  - apply encode_str_starts.
  - inv_ok. done.
  - inv_ok. done.
Qed.

(** Sorting items by their keys ignores the values. *)
Section sort_items_pairs.
Context {V W : Type} (R : pystr * V -> pystr * W -> Prop) (HR : forall a b, R a b -> fst a = fst b).
Lemma sort_items_Forall2 l l' :
  Forall2 R l l' -> Forall2 R (sort_items l) (sort_items l').
Proof using HR.
  unfold sort_items. induction 1 as [|a b l l' Hab _ IH]; [constructor|].
  change (Forall2 R (insert_sorted (fun x y => str_leb (fst x) (fst y)) a (py_sorted (fun x y => str_leb (fst x) (fst y)) l))
    (insert_sorted (fun x y => str_leb (fst x) (fst y)) b (py_sorted (fun x y => str_leb (fst x) (fst y)) l'))).
  induction IH as [|c d m m' Hcd Hm IHm]; cbn [insert_sorted]; [by repeat constructor|].
  rewrite <- (HR a b), <- (HR c d) by done. destruct (str_leb _ _); by repeat constructor.
Qed.
End sort_items_pairs.

Section roundtrip.
Context (h : json_hooks)
  (Hh : forall ps, NoDup (map fst ps) -> on_pairs h ps = Ok ps)
  (y : json_style) (sp1 sp2 : pystr)
  (Hitem : item_sep y = 44 :: sp1) (Hkey : key_sep y = 58 :: sp2)
  (Hsp1 : Forall (fun c => json_space c = true) sp1)
  (Hsp2 : Forall (fun c => json_space c = true) sp2).

(** The decoder reads [j] off the text, whatever follows. *)
Definition reads (s : pystr) (j : json) : Prop :=
  starts_value s /\
  forall fuel rest, (2 * length s + 1 <= fuel)%nat -> ends_value rest ->
    scan_value h fuel (s ++ rest) = Ok (j, rest).

Lemma reads_text s : text_ok s = true -> reads (encode_str (ensure_ascii y) s) (JStr s).
Proof using.
  intros Hok. split; [apply encode_str_starts|]. intros [|fuel] rest Hf _; [lia|].
  unfold encode_str in *. rewrite !length_app in Hf. cbn [length] in Hf.
  pose proof (length_escaped (ensure_ascii y) s). rewrite <- !app_assoc. cbn [app scan_value].
  change (34 =? 34) with true. cbv iota. rewrite scan_string_escaped by (done || lia). done.
Qed.

Lemma reads_int z s : py_str_int z = Ok s -> reads s (JInt z).
Proof using.
  unfold py_str_int. intros Hs. inv_ok. reflect_bools. split; [apply str_of_Z_starts|].
  intros [|fuel] rest Hf Hr; [lia|].
  pose proof (str_of_nonneg_nonempty (Z.abs z)) as Hne.
  pose proof (str_of_nonneg_ascii (Z.abs z)) as Ha.
  pose proof (scan_digits h (z <? 0) (Z.abs z) rest ltac:(lia) ltac:(lia) Hr) as Hd.
  assert (JInt (if z <? 0 then - Z.abs z else Z.abs z) = JInt z) as Hz
    by (destruct (z <? 0) eqn:?; reflect_bools; f_equal; lia). rewrite Hz in Hd. clear Hz.
  unfold str_of_Z. destruct (z <? 0) eqn:E; reflect_bools.
  - replace (- z) with (Z.abs z) by lia. destruct (str_of_nonneg 10 (Z.abs z)) as [|c t]; [done|].
    apply Forall_inv in Ha. cbn [app scan_value] in *.
    rewrite (proj2 (scan_constant_digit h c (t ++ rest) Ha)). exact Hd.
  - rewrite Z.abs_eq in * by lia. destruct (str_of_nonneg 10 z) as [|c t]; [done|].
    apply Forall_inv in Ha. cbn [app scan_value] in *.
    rewrite (proj1 (scan_constant_digit h c (t ++ rest) Ha)).
    rewrite !(proj2 (Z.eqb_neq c _)) by lia. exact Hd.
Qed.

Lemma scan_items_reads ss js : Forall2 reads ss js -> ss <> [] ->
  forall fuel rest, (2 * length (str_join (item_sep y) ss) + 2 <= fuel)%nat ->
  scan_items h fuel (str_join (item_sep y) ss ++ 93 :: rest) = Ok (js, rest).
Proof using Hitem Hsp1.
  induction 1 as [|s j ss js [Hs Hr] Hrs IH]; intros Hne [|fuel] rest Hf; [done|done|lia|].
  destruct Hrs as [|s' j' ss js [Hs' Hr'] Hrs].
  - cbn [str_join] in *. cbn [scan_items]. rewrite Hr by (done || lia). done.
  - change (str_join (item_sep y) (s :: s' :: ss)) with
      (s ++ item_sep y ++ str_join (item_sep y) (s' :: ss)) in *.
    set (tl := str_join (item_sep y) (s' :: ss)) in *.
    assert (exists r, tl = s' ++ r) as [r Htl].
    { unfold tl. destruct ss; cbn [str_join]; [exists []; by rewrite app_nil_r|by eexists]. }
    rewrite Hitem in *. rewrite !length_app in Hf. cbn [length] in Hf.
    rewrite <- !app_assoc. cbn [app scan_items]. rewrite Hr by (done || lia). cbn [mbind result_bind].
    change (skip_space (44 :: ?x)) with (44 :: x). cbv beta iota.
    change (44 =? 93) with false. change (44 =? 44) with true. cbv iota.
    rewrite Htl, <- !app_assoc, skip_space_app by done.
    rewrite app_assoc, <- Htl, IH by (done || lia). done.
Qed.

(** A member of an object, as written. *)
Definition member_text (kt : pystr * pystr) : pystr :=
  encode_str (ensure_ascii y) (fst kt) ++ key_sep y ++ snd kt.

Definition reads_member (kt : pystr * pystr) (kv : pystr * json) : Prop :=
  fst kt = fst kv /\ text_ok (fst kt) = true /\ reads (snd kt) (snd kv).

Lemma scan_pairs_reads ts ps : Forall2 reads_member ts ps -> ts <> [] ->
  forall fuel rest, (2 * length (str_join (item_sep y) (map member_text ts)) + 2 <= fuel)%nat ->
  scan_pairs h fuel (str_join (item_sep y) (map member_text ts) ++ 125 :: rest) = Ok (ps, rest).
Proof using Hitem Hkey Hsp1 Hsp2.
  induction 1 as [|[k s] [k' j] ts ps (Hk & Hok & Hs & Hr) Hrs IH]; intros Hne [|fuel] rest Hf;
    [done|done|lia|]. cbn [fst snd] in *. subst k'.
  assert (forall fuel' more, (2 * length (member_text (k, s)) <= fuel')%nat -> ends_value more ->
    scan_pairs h (S fuel') (member_text (k, s) ++ more) =
    match skip_space more with
    | [] => json_error
    | c :: t =>
      if c =? 125 then Ok ([(k, j)], t)
      else if c =? 44 then '(l, r) ← scan_pairs h fuel' (skip_space t); Ok ((k, j) :: l, r)
      else json_error
    end) as Hmember.
  { intros fuel' more Hf' Hmore. unfold member_text, encode_str in *. cbn [fst snd] in *.
    rewrite Hkey in *. rewrite !length_app in Hf'. cbn [length] in Hf'. pose proof (length_escaped (ensure_ascii y) k).
    rewrite <- !app_assoc. cbn [app scan_pairs]. change (34 =? 34) with true. cbv iota.
    rewrite scan_string_escaped by (done || lia). cbn [mbind result_bind].
    change (skip_space (58 :: ?x)) with (58 :: x). cbv beta iota. change (58 =? 58) with true. cbv iota.
    rewrite skip_space_app by done. rewrite Hr by (done || lia). done. }
  destruct Hrs as [|[k2 s2] [k2' j2] ts ps (Hk2 & Hok2 & Hs2 & Hr2) Hrs].
  - cbn [str_join map] in *. rewrite Hmember by (done || lia). done.
  - cbn [map] in *.
    change (str_join (item_sep y) (?a :: ?b :: ?l)) with (a ++ item_sep y ++ str_join (item_sep y) (b :: l)) in *.
    set (tl := str_join (item_sep y) (member_text (k2, s2) :: map member_text ts)) in *.
    assert (exists r, tl = encode_str (ensure_ascii y) k2 ++ r) as [r Htl].
    { unfold tl, member_text. destruct ts; cbn [str_join map]; rewrite <- ?app_assoc; by eexists. }
    rewrite Hitem in *. rewrite !length_app in Hf. cbn [length] in Hf.
    rewrite <- !app_assoc. cbn [app]. rewrite Hmember by (done || lia).
    change (skip_space (44 :: ?x)) with (44 :: x). cbv beta iota.
    change (44 =? 125) with false. change (44 =? 44) with true. cbv iota.
    rewrite Htl, <- !app_assoc, skip_space_app by done.
    rewrite app_assoc, <- Htl, IH by (done || lia). done.
Qed.

Lemma reads_list l ss :
  Forall (fun j => forall s, json_plain j = true -> json_dumps_with y j = Ok s -> reads s (json_arranged y j)) l ->
  forallb json_plain l = true -> mapR (json_dumps_with y) l = Ok ss ->
  reads (u "[" ++ str_join (item_sep y) ss ++ u "]") (JList (map (json_arranged y) l)).
Proof using Hitem Hsp1.
  intros IH Hp Hss%mapR_Ok. split; [done|]. intros [|fuel] rest Hf Hrest; [lia|].
  change (u "[") with [91] in *. change (u "]") with [93] in *.
  rewrite !length_app in Hf. cbn [length] in Hf. rewrite <- !app_assoc. cbn [app scan_value].
  change (91 =? 34) with false. change (91 =? 91) with true. cbv iota.
  assert (Forall2 reads ss (map (json_arranged y) l)) as Hrs.
  { clear Hf. induction Hss as [|j s l ss Hj _ IHl]; cbn [map]; [constructor|]. cbn in Hp.
    apply andb_true_iff in Hp as [Hpj Hpl]. apply Forall_cons in IH as [IHj IH]. constructor; [by apply IHj|by apply IHl]. }
  destruct ss as [|s ss].
  - inversion Hss; subst. by cbn.
  - assert (starts_value s) as Hs by (by inversion Hrs as [|? ? ? ? [? _]]).
    pose proof (scan_items_reads _ _ Hrs ltac:(done) fuel rest ltac:(lia)) as Hscan.
    assert (exists r, str_join (item_sep y) (s :: ss) = s ++ r) as [r Hj]
      by (destruct ss; cbn [str_join]; [exists []; by rewrite app_nil_r|by eexists]).
    rewrite Hj, <- !app_assoc in *. rewrite <- (app_nil_l (s ++ _)) at 1.
    rewrite skip_space_app by (done || constructor). destruct s as [|c s]; [done|].
    destruct Hs as (_ & Hc & _). cbn [app] in *. rewrite (proj2 (Z.eqb_neq c 93)) by done.
    by rewrite Hscan.
Qed.

Lemma reads_dict d ts :
  Forall (fun kv => forall s, json_plain (snd kv) = true -> json_dumps_with y (snd kv) = Ok s ->
            reads s (json_arranged y (snd kv))) d ->
  json_plain (JDict d) = true ->
  mapR (fun kv => v ← json_dumps_with y (snd kv); Ok (fst kv, v)) d = Ok ts ->
  reads (u "{" ++ str_join (item_sep y)
           (map member_text (if sort_keys y then sort_items ts else ts)) ++ u "}")
        (json_arranged y (JDict d)).
Proof using Hh Hitem Hkey Hsp1 Hsp2.
  intros IH Hp Hts%mapR_Ok. cbn [json_plain json_arranged] in *.
  apply andb_true_iff in Hp as [Hnd%bool_decide_eq_true Hp]. split; [done|].
  set (ps := map (fun kv => (fst kv, json_arranged y (snd kv))) d).
  assert (Forall2 reads_member ts ps) as Hrs.
  { unfold ps. clear Hnd ps. induction Hts as [|[k j] t d ts Ht _ IHd]; cbn [map]; [constructor|].
    cbn in Hp. apply andb_true_iff in Hp as [[Hk Hj]%andb_true_iff Hd].
    apply Forall_cons in IH as [IHj IH]. cbn [fst snd] in *. inv_ok.
    constructor; [|by apply IHd]. split_and!; [done..|]. by apply IHj. }
  assert (map fst ps = map fst d) as Hkeys by (unfold ps; by rewrite map_map).
  set (ts' := if sort_keys y then sort_items ts else ts).
  set (ps' := if sort_keys y then sort_items ps else ps).
  assert (Forall2 reads_member ts' ps') as Hrs'.
  { unfold ts', ps'. destruct (sort_keys y); [|done]. apply sort_items_Forall2; [by intros ?? [? _]|done]. }
  assert (on_pairs h ps' = Ok ps') as Hpairs.
  { apply Hh. unfold ps'. destruct (sort_keys y); [|by rewrite Hkeys].
    unfold sort_items. rewrite py_sorted_perm, Hkeys. done. }
  intros [|fuel] rest Hf Hrest; [lia|].
  change (u "{") with [123] in *. change (u "}") with [125] in *.
  rewrite !length_app in Hf. cbn [length] in Hf. rewrite <- !app_assoc. cbn [app scan_value].
  change (123 =? 34) with false. change (123 =? 91) with false. change (123 =? 123) with true. cbv iota.
  destruct ts' as [|t1 ts1].
  - apply Forall2_nil_inv_l in Hrs'. cbn. rewrite Hrs' in *. by rewrite Hpairs.
  - pose proof (scan_pairs_reads _ _ Hrs' ltac:(done) fuel rest ltac:(lia)) as Hscan.
    assert (exists r, str_join (item_sep y) (map member_text (t1 :: ts1)) = encode_str (ensure_ascii y) (fst t1) ++ r) as [r Hj]
      by (unfold member_text; destruct ts1; cbn [str_join map]; rewrite <- ?app_assoc; by eexists).
    rewrite Hj, <- !app_assoc in *. rewrite <- (app_nil_l (encode_str _ _ ++ _)) at 1.
    rewrite skip_space_app by (done || constructor). unfold encode_str in *. cbn [app] in *.
    change (34 =? 125) with false. cbv iota. rewrite Hscan. cbn [mbind result_bind]. by rewrite Hpairs.
Qed.

Lemma dumps_reads j s :
  json_plain j = true -> json_dumps_with y j = Ok s -> reads s (json_arranged y j).
Proof using Hh Hitem Hkey Hsp1 Hsp2.
  revert s. induction j as [|b|z|f|t|l IH|d IH] using json_ind_nested; intros s Hp Hd.
  - cbn in Hd. simplify_eq. split; [done|]. intros [|fuel] rest Hf _; [lia|]. done.
  - cbn in Hd. destruct b; simplify_eq; (split; [done|]); intros [|fuel] rest Hf _; try lia; done.
  - by apply reads_int.
  - done.
  - cbn in Hd. simplify_eq. by apply reads_text.
  - cbn [json_dumps_with] in Hd. apply bind_Ok in Hd as (ss & Hss & [= <-]). by apply reads_list.
  - cbn [json_dumps_with] in Hd. apply bind_Ok in Hd as (ts & Hts & [= <-]). by apply reads_dict.
Qed.

Lemma loads_dumps_with j s w :
  json_plain j = true -> json_dumps_with y j = Ok s -> Forall (fun c => json_space c = true) w ->
  json_loads_with h (s ++ w) = Ok (json_arranged y j).
Proof using Hh Hitem Hkey Hsp1 Hsp2.
  intros Hp Hd Hw. destruct (dumps_reads j s Hp Hd) as [Hs Hr]. unfold json_loads_with.
  assert (skip_space (s ++ w) = s ++ w) as Hskip by by apply (skip_space_app [] s w).
  assert (skip_space w = []) as Hend.
  { clear -Hw. induction Hw as [|c w Hc _ IH]; [done|]. unfold skip_space in *. cbn. by rewrite Hc. }
  rewrite Hskip, Hr; [cbn [mbind result_bind]; rewrite Hend|..].
  - destruct s as [|c s]; [done|]. destruct Hs as (_ & _ & Hc). cbn [app].
    repeat (case_match; try done); lia.
  - rewrite length_app. lia.
  - destruct w as [|c w]; [done|]. apply Forall_inv in Hw. unfold json_space in Hw.
    rewrite !orb_true_iff, !Z.eqb_eq in Hw. by destruct Hw as [[[-> | ->] | ->] | ->].
Qed.
End roundtrip.

(** [dict(pairs)] keeps pairs of distinct keys as they are. *)
Lemma dict_of_pairs_NoDup ps : NoDup (map fst ps) -> dict_of_pairs ps = ps.
Proof.
  intros Hnd. unfold dict_of_pairs.
  assert (forall acc, NoDup (map fst (acc ++ ps)) ->
    fold_left (fun d kv => assoc_set (fst kv) (snd kv) d) ps acc = acc ++ ps) as H; [|by apply (H [])].
  clear Hnd. induction ps as [|[k v] ps IH]; intros acc Hnd; cbn [fold_left fst snd]; [by rewrite app_nil_r|].
  assert (assoc_set k v acc = acc ++ [(k, v)]) as ->.
  { rewrite map_app in Hnd. apply NoDup_app in Hnd as (_ & Hk & _).
    apply assoc_set_new. intros Hin. apply (Hk k Hin). left. }
  rewrite IH; by rewrite <- app_assoc.
Qed.

Lemma default_hooks_pairs ps : NoDup (map fst ps) -> on_pairs default_hooks ps = Ok ps.
Proof. intros Hps. cbn. by rewrite dict_of_pairs_NoDup. Qed.

Lemma loads_dumps y j s w :
  (y = canonical_style \/ y = default_style) ->
  json_plain j = true -> json_dumps_with y j = Ok s -> Forall (fun c => json_space c = true) w ->
  json_loads (s ++ w) = Ok (json_arranged y j).
Proof.
  intros [-> | ->].
  - by apply (loads_dumps_with default_hooks default_hooks_pairs canonical_style [] []).
  - by apply (loads_dumps_with default_hooks default_hooks_pairs default_style [32] [32]);
      [..|repeat constructor|repeat constructor].
Qed.

(** ** Encoded texts are printable ASCII *)

Definition printable (c : Z) : Prop := 32 <= c <= 126.

Lemma digit_char_printable d : 0 <= d < 16 -> printable (digit_char d).
Proof. unfold printable, digit_char. intros Hd. destruct (d <? 10) eqn:?; reflect_bools; lia. Qed.

Lemma hex4_printable c : 0 <= c < 65536 -> Forall printable (hex4 c).
Proof.
  intros Hc. unfold hex4. apply Forall_app. split; [by repeat constructor|].
  destruct (hex4_digits c Hc) as (a & b & d & e & -> & Hr & _). apply Forall_map.
  eapply Forall_impl; [exact Hr|]. apply digit_char_printable.
Qed.

Lemma escape_printable c : scalar_value c = true -> Forall printable (escape_char true c).
Proof.
  unfold scalar_value. intros [[Hl Hu]%andb_true_iff _]%andb_true_iff. reflect_bools. unfold escape_char.
  assert (forall p, forallb (fun c => (32 <=? c) && (c <=? 126)) p = true -> Forall printable p) as Hp.
  { intros p Hp. rewrite forallb_forall in Hp. apply Forall_forall. intros x Hx%list_elem_of_In.
    specialize (Hp x Hx). reflect_bools. by split. }
  repeat match goal with |- context [if ?k =? ?n then _ else _] =>
    destruct (Z.eqb_spec k n); [by apply Hp|] end.
  cbn [negb orb]. destruct ((32 <=? c) && (c <=? 126)) eqn:E; [reflect_bools; by repeat constructor|].
  destruct (c <? 65536) eqn:?; reflect_bools; [by apply hex4_printable|].
  pose proof (Z.mod_pos_bound (c - 65536) 1024 ltac:(lia)).
  assert (0 <= (c - 65536) / 1024 < 1024) by (split; [apply Z.div_pos|apply Z.div_lt_upper_bound]; lia).
  apply Forall_app. split; apply hex4_printable; lia.
Qed.

Lemma encode_str_printable s : text_ok s = true -> Forall printable (encode_str true s).
Proof.
  intros Hok. unfold encode_str. apply Forall_cons_2; [by unfold printable|].
  apply Forall_app. split; [|by repeat constructor].
  induction s as [|c s IH]; cbn [flat_map]; [constructor|]. cbn in Hok.
  apply andb_true_iff in Hok as [Hc Hok]. apply Forall_app. split; [by apply escape_printable|by apply IH].
Qed.

Lemma str_of_Z_printable z : Forall printable (str_of_Z z).
Proof.
  assert (forall n, Forall printable (str_of_nonneg 10 n)) as Hn.
  { intros n. eapply Forall_impl; [apply str_of_nonneg_ascii|]. unfold printable. cbn. lia. }
  unfold str_of_Z. destruct (z <? 0); [apply Forall_cons_2; [by unfold printable|]|]; apply Hn.
Qed.

Lemma str_join_Forall (P : Z -> Prop) sep l :
  Forall P sep -> Forall (Forall P) l -> Forall P (str_join sep l).
Proof.
  intros Hs. induction 1 as [|x l Hx Hl IH]; cbn [str_join]; [constructor|].
  destruct Hl; [done|]. by rewrite !Forall_app.
Qed.

(** The characters of a text are those of its layout and of its encoded strings. *)
Lemma dumps_Forall (P : Z -> Prop) y j s :
  (forall c, printable c -> P c) -> Forall P (item_sep y) -> Forall P (key_sep y) ->
  (forall t, text_ok t = true -> Forall P (encode_str (ensure_ascii y) t)) ->
  json_plain j = true -> json_dumps_with y j = Ok s -> Forall P s.
Proof.
  intros HP Hi Hk Hstr.
  assert (forall t, forallb (fun c => (32 <=? c) && (c <=? 126)) t = true -> Forall P t) as Hlit.
  { intros t Ht. rewrite forallb_forall in Ht. apply Forall_forall. intros x Hx%list_elem_of_In.
    specialize (Ht x Hx). reflect_bools. apply HP. by split. }
  revert s. induction j as [|b|z|f|t|l IH|d IH] using json_ind_nested; intros s Hp Hd.
  - cbn in Hd. simplify_eq. by apply Hlit.
  - cbn in Hd. destruct b; simplify_eq; by apply Hlit.
  - cbn in Hd. unfold py_str_int in Hd. inv_ok. eapply Forall_impl; [apply str_of_Z_printable|done].
  - done.
  - cbn in Hd. simplify_eq. by apply Hstr.
  - cbn [json_dumps_with] in Hd. apply bind_Ok in Hd as (ss & Hss%mapR_Ok & [= <-]). cbn in Hp.
    apply Forall_cons_2; [by apply HP; unfold printable|]. apply Forall_app. split; [|by apply Hlit].
    apply str_join_Forall; [done|].
    induction Hss as [|j s l ss Hj _ IHl]; [constructor|]. apply Forall_cons in IH as [IHj IH].
    apply andb_true_iff in Hp as [Hpj Hp]. constructor; [by apply IHj|by apply IHl].
  - cbn [json_dumps_with json_plain] in *. apply bind_Ok in Hd as (ts & Hts%mapR_Ok & [= <-]).
    apply andb_true_iff in Hp as [_ Hp].
    apply Forall_cons_2; [by apply HP; unfold printable|]. apply Forall_app. split; [|by apply Hlit].
    apply str_join_Forall; [done|]. apply Forall_map.
    assert (Forall (fun kt => text_ok (fst kt) = true /\ Forall P (snd kt)) ts) as Hall.
    { induction Hts as [|[k j] t d ts Hj _ IHd]; [constructor|]. apply Forall_cons in IH as [IHj IH].
      cbn in Hp. apply andb_true_iff in Hp as [[Hkey Hpj]%andb_true_iff Hp]. cbn [fst snd] in *. inv_ok.
      constructor; [|by apply IHd]. split; [done|]. by apply IHj. }
    assert (Forall (fun kt => text_ok (fst kt) = true /\ Forall P (snd kt))
      (if sort_keys y then sort_items ts else ts)) as Hall'.
    { destruct (sort_keys y); [|done]. unfold sort_items. by rewrite py_sorted_perm. }
    eapply Forall_impl; [exact Hall'|]. intros kt [Hkt Hv].
    change (Forall P (encode_str (ensure_ascii y) (fst kt) ++ key_sep y ++ snd kt)).
    rewrite !Forall_app. split_and!; [|done..]. by apply Hstr.
Qed.

Lemma dumps_printable y j s :
  (y = canonical_style \/ y = default_style) ->
  json_plain j = true -> json_dumps_with y j = Ok s -> Forall printable s.
Proof.
  intros Hy. apply dumps_Forall; [done|..].
  1,2: destruct Hy as [-> | ->]; repeat constructor; done.
  destruct Hy as [-> | ->]; apply encode_str_printable.
Qed.

Lemma printable_scalar c : printable c -> scalar_value c = true.
Proof.
  unfold printable, scalar_value. intros Hc. rewrite !(proj2 (Z.leb_le _ _)) by lia.
  by rewrite (proj2 (Z.leb_gt 55296 c)) by lia.
Qed.

(** With [ensure_ascii=False] the text is made of scalar values. *)
Lemma encode_str_scalar t : text_ok t = true -> Forall (fun c => scalar_value c = true) (encode_str false t).
Proof.
  intros Ht. unfold encode_str. rewrite !Forall_app. split; [by repeat constructor|]. split; [|by repeat constructor].
  induction t as [|c t IH]; cbn [flat_map]; [constructor|]. cbn in Ht. apply andb_true_iff in Ht as [Hc Ht].
  apply Forall_app. split; [|by apply IH]. clear IH Ht.
  destruct ((32 <=? c) && (c <=? 126)) eqn:E.
  - assert (escape_char false c = escape_char true c) as ->
      by (unfold escape_char; cbn [negb orb]; by rewrite E, (proj1 (proj1 (andb_true_iff _ _) E))).
    eapply Forall_impl; [by apply escape_printable|apply printable_scalar].
  - destruct (32 <=? c) eqn:E2.
    + unfold escape_char. rewrite E2. cbn [negb orb andb].
      repeat match goal with |- context [if ?k =? ?n then _ else _] =>
        destruct (Z.eqb_spec k n) as [->|]; [by repeat constructor|] end. by repeat constructor.
    + assert (escape_char false c = escape_char true c) as -> by (unfold escape_char; by rewrite E2).
      eapply Forall_impl; [by apply escape_printable|apply printable_scalar].
Qed.

Lemma dumps_scalar j s :
  json_plain j = true -> json_dumps_with unicode_style j = Ok s -> text_ok s = true.
Proof.
  intros Hp Hs. unfold text_ok. rewrite forallb_forall. intros c Hc%list_elem_of_In.
  revert c Hc. apply Forall_forall. revert Hp Hs. apply dumps_Forall; [apply printable_scalar| | |].
  1,2: repeat constructor; done.
  apply encode_str_scalar.
Qed.

(** ** Arranging a document does not change its text *)

Lemma sort_items_sorted {V} (d : list (pystr * V)) : sort_items (sort_items d) = sort_items d.
Proof.
  unfold sort_items. apply py_sorted_id. apply py_sorted_sorted.
  - intros x y. apply str_leb_total.
  - intros x y z. apply str_leb_trans.
Qed.

Lemma sorted_items_id {V} (d : list (pystr * V)) :
  StronglySorted (fun a b => str_ltb a b = true) (map fst d) -> sort_items d = d.
Proof.
  intros Hs. apply py_sorted_id. apply StronglySorted_map in Hs. eapply StronglySorted_weaken; [|exact Hs].
  intros a b. apply str_ltb_leb.
Qed.

Lemma sorted_by_name {V} (d : list (pystr * V)) :
  NoDup (map fst d) -> StronglySorted (fun a b => str_ltb a b = true) (map fst (sort_items d)).
Proof.
  intros Hd. assert (map fst (sort_items d) ≡ₚ map fst d) as Hp by (unfold sort_items; by rewrite py_sorted_perm).
  apply sorted_strict; [|by rewrite Hp]. apply StronglySorted_map, py_sorted_sorted.
  - intros. apply str_leb_total.
  - intros a b c. apply str_leb_trans.
Qed.

(** The sorted items are the only arrangement of the items in the order of their keys. *)
Lemma sort_items_unique {V} (d e : list (pystr * V)) :
  d ≡ₚ e -> StronglySorted (fun a b => str_ltb a b = true) (map fst e) -> sort_items d = e.
Proof.
  intros Hp Hs. assert (sort_items d ≡ₚ e) as Hpe by (unfold sort_items; by rewrite py_sorted_perm).
  assert (NoDup (map fst d)) as Hd by (rewrite Hp; by apply sorted_names_NoDup).
  apply (perm_by_key fst); [done|rewrite Hpe; by apply sorted_names_NoDup|].
  apply StronglySorted_strict_ext; [by rewrite Hpe|by apply sorted_by_name|done].
Qed.

Lemma dumps_arranged y j s :
  json_dumps_with y j = Ok s -> json_dumps_with y (json_arranged y j) = Ok s.
Proof.
  revert s. induction j as [|b|z|f|t|l IH|d IH] using json_ind_nested; intros s Hd; try done.
  - cbn [json_dumps_with json_arranged] in *. apply bind_Ok in Hd as (ss & Hss%mapR_Ok & [= <-]).
    assert (mapR (json_dumps_with y) (map (json_arranged y) l) = Ok ss) as ->; [|done].
    apply mapR_Ok. induction Hss as [|j s l ss Hj _ IHl]; cbn [map]; constructor.
    + apply Forall_inv in IH. by apply IH.
    + apply Forall_inv_tail in IH. by apply IHl.
  - cbn [json_dumps_with json_arranged] in *. apply bind_Ok in Hd as (ts & Hts%mapR_Ok & [= <-]).
    set (R := fun (kv : pystr * json) (kt : pystr * pystr) =>
      fst kv = fst kt /\ json_dumps_with y (snd kv) = Ok (snd kt)).
    assert (Forall2 R (map (fun kv => (fst kv, json_arranged y (snd kv))) d) ts) as HR.
    { induction Hts as [|[k j] t d ts Ht _ IHd]; cbn [map]; constructor.
      - apply Forall_inv in IH. cbn [fst snd] in *. inv_ok. split; [done|]. by apply IH.
      - apply Forall_inv_tail in IH. by apply IHd. }
    assert (forall d' ts', Forall2 R d' ts' ->
      mapR (fun kv => v ← json_dumps_with y (snd kv); Ok (fst kv, v)) d' = Ok ts') as Hmap.
    { intros d' ts' Hr. apply mapR_Ok. eapply Forall2_impl; [exact Hr|].
      intros [k j] [k' t] [Hk Hj]. cbn [fst snd] in *. subst. by rewrite Hj. }
    destruct (sort_keys y).
    + rewrite (Hmap _ (sort_items ts)); [cbn [mbind result_bind]; by rewrite sort_items_sorted|].
      apply sort_items_Forall2; [by intros ?? [? _]|done].
    + by rewrite (Hmap _ ts).
Qed.

(** [json.loads] inverts [json.dumps]: the text of a document without
    floats, whose texts are Unicode scalar values and whose objects have distinct
    keys, decodes, whatever white space follows it, to that document, its members
    sorted by key when the style sorts them. *)
Lemma json_loads_dumps y j s w :
  (y = canonical_style \/ y = default_style) ->
  json_plain j = true -> json_dumps_with y j = Ok s -> Forall (fun c => json_space c = true) w ->
  json_loads (s ++ w) = Ok (json_arranged y j).
Proof. apply loads_dumps. Qed.

Definition demo_document : json :=
  JDict [(u "b", JList [JInt (-120); JStr [10; 34; 233; 128512]; JNull]); (u "a", JDict [])].

Lemma json_loads_dumps_witness :
  exists s, json_dumps_with canonical_style demo_document = Ok s /\
    json_loads (s ++ [10]) = Ok (json_arranged canonical_style demo_document).
Proof.
  eexists. split; [vm_compute; reflexivity|].
  apply json_loads_dumps; [by left|vm_compute; reflexivity..|].
  apply Forall_cons_2; [reflexivity|apply Forall_nil_2].
Defined.
