(* ===== verification/Bytes.v ===== *)
(** * Bytes: text encodings, hexadecimal, SHA-256 and UUIDs

    Bytes are lists of integers between 0 and 255.  The operations are those of
    the standard library the packages call: [bytes.decode], [Path.read_text],
    [str.splitlines], [bytes.fromhex], [hashlib.sha256] and [uuid.UUID]. *)

From S2P Require Import Prelude PyStr.
Open Scope Z_scope.

Abbreviation bytes := (list Z).

(** ** [b.decode("ascii")] and [b.decode("utf-8")], both strict *)

Definition decode_ascii (b : bytes) : result pystr :=
  if forallb (fun c => c <? 128) b then Ok b else raise UnicodeDecodeError "ascii".

(** What a value of type [bytes] is. *)
Definition byte_list (b : bytes) : Prop := Forall (fun c => 0 <= c < 256) b.

(** One code point, whose continuation bytes are all between 128 and 191 and
    which is neither overlong, a surrogate nor beyond U+10FFFF. *)
Definition utf8_head (b : bytes) : option (Z * bytes) :=
  let cont c := (128 <=? c) && (c <=? 191) in
  match b with
  | [] => None
  | c0 :: t =>
    if c0 <? 128 then Some (c0, t)
    else if (194 <=? c0) && (c0 <=? 223) then
      match t with
      | c1 :: t => if cont c1 then Some (64 * (c0 - 192) + (c1 - 128), t) else None
      | _ => None
      end
    else if (224 <=? c0) && (c0 <=? 239) then
      match t with
      | c1 :: c2 :: t =>
        let c := 4096 * (c0 - 224) + 64 * (c1 - 128) + (c2 - 128) in
        if cont c1 && cont c2 && (2048 <=? c) && negb ((55296 <=? c) && (c <=? 57343))
        then Some (c, t) else None
      | _ => None
      end
    else if (240 <=? c0) && (c0 <=? 244) then
      match t with
      | c1 :: c2 :: c3 :: t =>
        let c := 262144 * (c0 - 240) + 4096 * (c1 - 128) + 64 * (c2 - 128) + (c3 - 128) in
        if cont c1 && cont c2 && cont c3 && (65536 <=? c) && (c <=? 1114111)
        then Some (c, t) else None
      | _ => None
      end
    else None
  end.

Fixpoint decode_utf8_fuel (fuel : nat) (b : bytes) : result pystr :=
  match b, fuel with
  | [], _ => Ok []
  | _, O => raise RecursionError "fuel"
  | _, S fuel =>
    match utf8_head b with
    | Some (c, t) => s ← decode_utf8_fuel fuel t; Ok (c :: s)
    | None => raise UnicodeDecodeError "utf-8"
    end
  end.

(** Every step consumes a byte. *)
Definition decode_utf8 (b : bytes) : result pystr := decode_utf8_fuel (length b) b.

(** [c.encode("utf-8")] of a code point that is not a surrogate. *)
Definition encode_utf8_char (c : Z) : bytes :=
  if c <? 128 then [c]
  else if c <? 2048 then [192 + c / 64; 128 + c mod 64]
  else if c <? 65536 then [224 + c / 4096; 128 + c / 64 mod 64; 128 + c mod 64]
  else [240 + c / 262144; 128 + c / 4096 mod 64; 128 + c / 64 mod 64; 128 + c mod 64].

Definition encode_utf8 (s : pystr) : result bytes :=
  if existsb (fun c => (55296 <=? c) && (c <=? 57343)) s then raise UnicodeEncodeError "utf-8"
  else Ok (flat_map encode_utf8_char s).

(** [read_text] translates CR LF and CR to LF. *)
Fixpoint universal_newlines (s : pystr) : pystr :=
  match s with
  | 13 :: 10 :: t => 10 :: universal_newlines t
  | 13 :: t => 10 :: universal_newlines t
  | c :: t => c :: universal_newlines t
  | [] => []
  end.

(** [Path.read_text(encoding="utf-8")] on the file's bytes. *)
Definition read_text (b : bytes) : result pystr := universal_newlines <$> decode_utf8 b.

Definition line_break (c : Z) : bool :=
  existsb (Z.eqb c) [10; 11; 12; 13; 28; 29; 30; 133; 8232; 8233].

(** [s.splitlines()]: no empty line after a final break. *)
Fixpoint split_lines (s : pystr) : list pystr :=
  match s with
  | [] => []
  | 13 :: 10 :: t => [] :: split_lines t
  | c :: t =>
    if line_break c then [] :: split_lines t
    else match split_lines t with
         | w :: ws => match t with
                      | d :: _ => if line_break d then [c] :: tl (split_lines t) else (c :: w) :: ws
                      | [] => [[c]]
                      end
         | [] => [[c]]
         end
  end.

(** [b.startswith] and [b.endswith(b"\n")] *)
Definition ends_with_newline (b : bytes) : bool :=
  match rev b with c :: _ => c =? 10 | [] => false end.

Example decode_utf8_ex1 : decode_utf8 [226; 130; 172; 240; 159; 152; 128; 10] = Ok [8364; 128512; 10].
Proof. reflexivity. Qed.
Example decode_utf8_ex2 : is_Ok (decode_utf8 [192; 128]) = false. Proof. reflexivity. Qed.
Example decode_utf8_ex3 : is_Ok (decode_utf8 [237; 160; 128]) = false. Proof. reflexivity. Qed.
Example split_lines_ex : split_lines (u "ab" ++ [13; 10; 10] ++ u "c" ++ [8232]) = [u "ab"; []; u "c"].
Proof. reflexivity. Qed.
Example split_lines_ex2 : split_lines (u "a" ++ [10] ++ u "bc") = [u "a"; u "bc"].
Proof. reflexivity. Qed.

(** ** Hexadecimal *)

Definition hex_digit (c : Z) : option Z :=
  if (48 <=? c) && (c <=? 57) then Some (c - 48)
  else if (97 <=? c) && (c <=? 102) then Some (c - 87)
  else if (65 <=? c) && (c <=? 70) then Some (c - 55) else None.

Definition ascii_space (c : Z) : bool := ((9 <=? c) && (c <=? 13)) || (c =? 32).

(** [bytes.fromhex(s)]: pairs of digits, ASCII white space between pairs. *)
Fixpoint bytes_fromhex (s : pystr) : result bytes :=
  match s with
  | [] => Ok []
  | c :: t =>
    if ascii_space c then bytes_fromhex t
    else match t with
         | d :: t =>
           match hex_digit c, hex_digit d with
           | Some a, Some b => r ← bytes_fromhex t; Ok (16 * a + b :: r)
           | _, _ => raise ValueError "non-hexadecimal number found in fromhex() arg"
           end
         | [] => raise ValueError "non-hexadecimal number found in fromhex() arg"
         end
  end.

(** [b.hex()] *)
Definition bytes_hex (b : bytes) : pystr :=
  flat_map (fun x => [digit_char (x / 16); digit_char (x mod 16)]) b.

Definition lower_hex (c : Z) : bool :=
  ((48 <=? c) && (c <=? 57)) || ((97 <=? c) && (c <=? 102)).

(** ** SHA-256 (FIPS 180-4), on 32-bit words *)

Module Sha256.

Definition w32 (x : Z) : Z := Z.land x 4294967295.
Definition add (x y : Z) : Z := w32 (x + y).
Definition rotr (n x : Z) : Z := Z.lor (Z.shiftr x n) (w32 (Z.shiftl x (32 - n))).
Definition ch (x y z : Z) : Z := Z.lxor (Z.land x y) (Z.land (Z.lxor x 4294967295) z).
Definition maj (x y z : Z) : Z := Z.lxor (Z.lxor (Z.land x y) (Z.land x z)) (Z.land y z).
Definition bsig0 (x : Z) : Z := Z.lxor (Z.lxor (rotr 2 x) (rotr 13 x)) (rotr 22 x).
Definition bsig1 (x : Z) : Z := Z.lxor (Z.lxor (rotr 6 x) (rotr 11 x)) (rotr 25 x).
Definition ssig0 (x : Z) : Z := Z.lxor (Z.lxor (rotr 7 x) (rotr 18 x)) (Z.shiftr x 3).
Definition ssig1 (x : Z) : Z := Z.lxor (Z.lxor (rotr 17 x) (rotr 19 x)) (Z.shiftr x 10).

Definition round_constants : list Z :=
  [1116352408; 1899447441; 3049323471; 3921009573; 961987163; 1508970993; 2453635748; 2870763221;
   3624381080; 310598401; 607225278; 1426881987; 1925078388; 2162078206; 2614888103; 3248222580;
   3835390401; 4022224774; 264347078; 604807628; 770255983; 1249150122; 1555081692; 1996064986;
   2554220882; 2821834349; 2952996808; 3210313671; 3336571891; 3584528711; 113926993; 338241895;
   666307205; 773529912; 1294757372; 1396182291; 1695183700; 1986661051; 2177026350; 2456956037;
   2730485921; 2820302411; 3259730800; 3345764771; 3516065817; 3600352804; 4094571909; 275423344;
   430227734; 506948616; 659060556; 883997877; 958139571; 1322822218; 1537002063; 1747873779;
   1955562222; 2024104815; 2227730452; 2361852424; 2428436474; 2756734187; 3204031479; 3329325298].

Definition initial : list Z :=
  [1779033703; 3144134277; 1013904242; 2773480762; 1359893119; 2600822924; 528734635; 1541459225].

Fixpoint words (b : bytes) : list Z :=
  match b with
  | a :: b :: c :: d :: t => 16777216 * a + 65536 * b + 256 * c + d :: words t
  | _ => []
  end.

(** The message schedule: [window] holds the last sixteen words. *)
Fixpoint schedule (n : nat) (window : list Z) : list Z :=
  match n with
  | O => window
  | S n =>
    let w i := nth i window 0 in
    let x := add (add (ssig1 (w 14%nat)) (w 9%nat)) (add (ssig0 (w 1%nat)) (w 0%nat)) in
    w 0%nat :: schedule n (drop 1 window ++ [x])
  end.

Definition round (s : list Z) (kw : Z * Z) : list Z :=
  match s with
  | [a; b; c; d; e; f; g; h] =>
    let t1 := add (add (add h (bsig1 e)) (add (ch e f g) (fst kw))) (snd kw) in
    let t2 := add (bsig0 a) (maj a b c) in
    [add t1 t2; a; b; c; add d t1; e; f; g]
  | _ => s
  end.

Definition compress (state : list Z) (block : bytes) : list Z :=
  let ws := schedule 48 (words block) in
  zip_with add state (fold_left round (zip round_constants ws) state).

Fixpoint big_endian (n : nat) (x : Z) : bytes :=
  match n with O => [] | S n => big_endian n (x / 256) ++ [x mod 256] end.

(** The message, a one bit, zeros, and the bit length in eight bytes. *)
Definition pad (b : bytes) : bytes :=
  let len := Z.of_nat (length b) in
  b ++ [128] ++ repeat 0 (Z.to_nat ((55 - len) mod 64)) ++ big_endian 8 (8 * len).

Fixpoint blocks (fuel : nat) (b : bytes) : list bytes :=
  match b, fuel with
  | [], _ | _, O => []
  | _, S fuel => take 64 b :: blocks fuel (drop 64 b)
  end.

Definition digest (b : bytes) : bytes :=
  let p := pad b in
  flat_map (big_endian 4) (fold_left compress (blocks (length p) p) initial).

End Sha256.

(** [hashlib.sha256(b).hexdigest()] *)
Definition sha256_hex (b : bytes) : pystr := bytes_hex (Sha256.digest b).

Example sha256_ex1 :
  sha256_hex (u "abc") = u "ba7816bf8f01cfea414140de5dae2223b00361a396177a9cb410ff61f20015ad".
Proof. vm_compute. reflexivity. Qed.
Example sha256_ex2 :
  sha256_hex [] = u "e3b0c44298fc1c149afbf4c8996fb92427ae41e4649b934ca495991b7852b855".
Proof. vm_compute. reflexivity. Qed.
Example sha256_ex3 :
  sha256_hex (u "abcdbcdecdefdefgefghfghighijhijkijkljklmklmnlmnomnopnopq")
  = u "248d6a61d20638b8e5c026930c3e6039a33ce45964ff2167f6ecedd419db06c1".
Proof. vm_compute. reflexivity. Qed.

(** ** [uuid.UUID]: a 128-bit integer *)

Definition uuid := Z.

Fixpoint str_remove (fuel : nat) (w s : pystr) : pystr :=
  match s, fuel with
  | [], _ | _, O => s
  | c :: t, S fuel =>
    if str_startswith w s then str_remove fuel w (drop (length w) s)
    else c :: str_remove fuel w t
  end.

(** [UUID(text)]: drops "urn:", "uuid:", outer braces and every hyphen. *)
Definition uuid_parse (s : pystr) : result uuid :=
  let remove w s := str_remove (length s) w s in
  let hex := remove (u "uuid:") (remove (u "urn:") s) in
  let hex := strip_by (fun c => (c =? 123) || (c =? 125)) hex in
  let hex := List.filter (fun c => negb (c =? 45)) hex in
  raise_if (negb (length hex =? 32)%nat) ValueError "badly formed hexadecimal UUID string" ;;
  n ← py_int 16 hex;
  raise_if (n <? 0) ValueError "int is out of range (need a 128-bit value)" ;;
  Ok n.

(** [str(uuid)]: 8-4-4-4-12 lower-case digits. *)
Definition uuid_str (n : uuid) : pystr :=
  let h := pad_zeros 32 (str_of_nonneg 16 n) in
  take 8 h ++ [45] ++ take 4 (drop 8 h) ++ [45] ++ take 4 (drop 12 h) ++ [45] ++
  take 4 (drop 16 h) ++ [45] ++ drop 20 h.

Example uuid_ex1 : uuid_parse (u "{12345678-1234-5678-1234-567812345678}")
  = Ok 24197857161011715162171839636988778104.
Proof. vm_compute. reflexivity. Qed.
Example uuid_ex2 : uuid_str 24197857161011715162171839636988778104
  = u "12345678-1234-5678-1234-567812345678".
Proof. vm_compute. reflexivity. Qed.

(** ** Decoding terminates *)

Lemma utf8_head_shorter b c t : utf8_head b = Some (c, t) -> (length t < length b)%nat.
Proof.
  unfold utf8_head. intros H. repeat case_match; simplify_eq; cbn [length]; lia.
Qed.

Lemma decode_utf8_fails b : fails_with UnicodeDecodeError (decode_utf8 b).
Proof.
  unfold decode_utf8. assert (forall fuel b, (length b <= fuel)%nat ->
    fails_with UnicodeDecodeError (decode_utf8_fuel fuel b)) as Hf; [|apply Hf; lia].
  clear b. induction fuel as [|fuel IH]; intros b Hl; destruct b as [|x b]; try done; [cbn in Hl; lia|].
  cbn [decode_utf8_fuel]. destruct (utf8_head (x :: b)) as [[c t]|] eqn:E; [|done].
  apply utf8_head_shorter in E. cbn in *. apply fails_bind; [apply IH; lia|done].
Qed.

Lemma fails_weaken {A} c d (m : result A) :
  (forall e, exc_subclass e c = true -> exc_subclass e d = true) -> fails_with c m -> fails_with d m.
Proof. intros Hcd. destruct m as [|e]; [done|]. apply Hcd. Qed.

Lemma decode_utf8_value_error b : fails_with ValueError (decode_utf8 b).
Proof.
  eapply fails_weaken; [|apply decode_utf8_fails]. intros e. by destruct e.
Qed.

Lemma decode_ascii_fails b : fails_with UnicodeDecodeError (decode_ascii b).
Proof. unfold decode_ascii. fails. Qed.

Lemma bytes_fromhex_fails s : fails_with ValueError (bytes_fromhex s).
Proof.
  remember (length s) as n eqn:Hn. revert s Hn. induction n as [n IH] using lt_wf_ind; intros s ->.
  destruct s as [|c t]; [done|]. cbn [bytes_fromhex]. destruct (ascii_space c).
  { eapply IH; [|done]. cbn. lia. }
  destruct t as [|d t]; [done|]. destruct (hex_digit c), (hex_digit d); try done.
  apply fails_bind; [eapply IH; [|done]; cbn; lia|done].
Qed.
#[export] Hint Resolve decode_utf8_value_error bytes_fromhex_fails : fails.
