(* ===== verification/ByteLaws.v ===== *)
(** * Laws of the text encodings

    What is written as hexadecimal digits, as a UUID or as lines of ASCII is read
    back: [bytes.fromhex] inverts [bytes.hex], [UUID] inverts [str], and the
    strict decoders leave ASCII as it is. *)

From S2P Require Import Prelude PyStr Num PyObj Json JsonRoundtrip Bytes.
Open Scope Z_scope.

(** ** Hexadecimal digits *)

Definition hexchar (c : Z) : Prop := 48 <= c <= 57 \/ 97 <= c <= 102.

Lemma hexchar_digit d : 0 <= d < 16 -> hexchar (digit_char d).
Proof. unfold hexchar, digit_char. intros Hd. destruct (d <? 10) eqn:?; reflect_bools; lia. Qed.

Lemma hexchar_printable c : hexchar c -> printable c.
Proof. unfold hexchar, printable. lia. Qed.

Lemma lower_hex_spec c : lower_hex c = true <-> hexchar c.
Proof. unfold lower_hex, hexchar. rewrite orb_true_iff, !andb_true_iff, !Z.leb_le. done. Qed.

Lemma hex_digit_char d : 0 <= d < 16 -> hex_digit (digit_char d) = Some d.
Proof. intros Hd%digit_cases. by repeat destruct Hd as [->|Hd]; [..|subst]. Qed.

Lemma int_digit_char d : 0 <= d < 16 -> int_digit 16 (digit_char d) = Some d.
Proof. intros Hd%digit_cases. by repeat destruct Hd as [->|Hd]; [..|subst]. Qed.

Lemma hexchar_text s : Forall hexchar s -> text_ok s = true.
Proof.
  intros Hs. apply forallb_forall. intros c Hc%list_elem_of_In. apply (Forall_at _ _ _ Hs) in Hc.
  unfold scalar_value. unfold hexchar in Hc. rewrite !andb_true_iff, !Z.leb_le, negb_true_iff, andb_false_iff, !Z.leb_gt. lia.
Qed.

Definition byte (x : Z) : Prop := 0 <= x < 256.

Lemma byte_nibbles x : byte x -> 0 <= x / 16 < 16 /\ 0 <= x mod 16 < 16 /\ 16 * (x / 16) + x mod 16 = x.
Proof.
  intros Hx. pose proof (Z.div_mod x 16 ltac:(lia)). pose proof (Z.mod_pos_bound x 16 ltac:(lia)).
  unfold byte in Hx. lia.
Qed.

Lemma bytes_hex_chars b : Forall byte b -> Forall hexchar (bytes_hex b).
Proof.
  unfold bytes_hex. induction 1 as [|x b Hx _ IH]; cbn [flat_map]; [constructor|].
  destruct (byte_nibbles x Hx) as (? & ? & _). repeat apply Forall_cons_2; auto using hexchar_digit.
Qed.

Lemma length_bytes_hex b : length (bytes_hex b) = (2 * length b)%nat.
Proof. unfold bytes_hex. induction b as [|x b IH]; cbn [flat_map app length]; lia. Qed.

Lemma bytes_fromhex_hex b : Forall byte b -> bytes_fromhex (bytes_hex b) = Ok b.
Proof.
  unfold bytes_hex. induction 1 as [|x b Hx _ IH]; cbn [flat_map app]; [done|].
  destruct (byte_nibbles x Hx) as (H1 & H2 & H3). cbn [bytes_fromhex].
  assert (ascii_space (digit_char (x / 16)) = false) as ->.
  { destruct (hexchar_digit _ H1); unfold ascii_space;
      rewrite orb_false_iff, andb_false_iff, Z.eqb_neq, !Z.leb_gt; lia. }
  rewrite !hex_digit_char, IH by done. cbn. by rewrite H3.
Qed.

(** ** Digests *)

Lemma length_big_endian n x : length (Sha256.big_endian n x) = n.
Proof. revert x; induction n as [|n IH]; intros x; cbn; [done|]. rewrite length_app, IH. cbn. lia. Qed.

Lemma big_endian_bytes n x : Forall byte (Sha256.big_endian n x).
Proof.
  revert x; induction n as [|n IH]; intros x; cbn; [constructor|]. apply Forall_app. split; [done|].
  apply Forall_cons_2; [|apply Forall_nil_2]. apply Z.mod_pos_bound. lia.
Qed.

Lemma round_length s kw : length (Sha256.round s kw) = length s.
Proof. unfold Sha256.round. by repeat case_match. Qed.

Lemma rounds_length kws s : length (fold_left Sha256.round kws s) = length s.
Proof. revert s; induction kws as [|kw kws IH]; intros s; cbn [fold_left]; [done|]. by rewrite IH, round_length. Qed.

Lemma compress_length s b : length (Sha256.compress s b) = length s.
Proof. unfold Sha256.compress. rewrite length_zip_with, rounds_length. lia. Qed.

Lemma digest_length b : length (Sha256.digest b) = 32%nat.
Proof.
  unfold Sha256.digest. set (bs := Sha256.blocks _ _).
  assert (length (fold_left Sha256.compress bs Sha256.initial) = 8%nat) as Hl.
  { change 8%nat with (length Sha256.initial). generalize Sha256.initial.
    induction bs as [|x bs IH]; intros s; cbn [fold_left]; [done|]. by rewrite IH, compress_length. }
  destruct (fold_left _ _ _) as [|x1 [|x2 [|x3 [|x4 [|x5 [|x6 [|x7 [|x8 [|]]]]]]]]]; try done.
Qed.

Lemma digest_bytes b : Forall byte (Sha256.digest b).
Proof.
  unfold Sha256.digest. generalize (fold_left Sha256.compress (Sha256.blocks (length (Sha256.pad b)) (Sha256.pad b)) Sha256.initial).
  intros ws. induction ws as [|w ws IH]; cbn [flat_map]; [constructor|].
  apply Forall_app. split; [apply big_endian_bytes|done].
Qed.

Lemma sha256_hex_length b : length (sha256_hex b) = 64%nat.
Proof. unfold sha256_hex. rewrite length_bytes_hex, digest_length. done. Qed.

Lemma sha256_hex_chars b : Forall hexchar (sha256_hex b).
Proof. apply bytes_hex_chars, digest_bytes. Qed.

(** ** ASCII *)

(** ** UTF-8 is decoded as it was encoded *)

Lemma utf8_head_char c t : scalar_value c = true -> utf8_head (encode_utf8_char c ++ t) = Some (c, t).
Proof.
  unfold scalar_value. intros [[H0 H1]%andb_true_iff Hs%negb_true_iff]%andb_true_iff. reflect_bools.
  unfold encode_utf8_char.
  pose proof (Z.div_mod c 64 ltac:(lia)) as Hd1. pose proof (Z.mod_pos_bound c 64 ltac:(lia)).
  pose proof (Z.div_mod (c / 64) 64 ltac:(lia)) as Hd2. pose proof (Z.mod_pos_bound (c / 64) 64 ltac:(lia)).
  pose proof (Z.div_mod (c / 4096) 64 ltac:(lia)) as Hd3. pose proof (Z.mod_pos_bound (c / 4096) 64 ltac:(lia)).
  assert (c / 64 / 64 = c / 4096) as E1 by (rewrite Z.div_div by lia; done).
  assert (c / 4096 / 64 = c / 262144) as E2 by (rewrite Z.div_div by lia; done).
  rewrite E1 in Hd2. rewrite E2 in Hd3.
  assert (forall x, 128 <= x <= 191 -> (128 <=? x) && (x <=? 191) = true) as Hcont
    by (intros x Hx; apply andb_true_iff; rewrite !Z.leb_le; lia).
  destruct (c <? 128) eqn:L1; reflect_bools.
  { cbn [app utf8_head]. by rewrite (proj2 (Z.ltb_lt c 128)) by lia. }
  destruct (c <? 2048) eqn:L2; reflect_bools.
  { cbn [app utf8_head]. rewrite (proj2 (Z.ltb_ge _ 128)), (proj2 (Z.leb_le 194 _)), (proj2 (Z.leb_le _ 223)) by lia.
    cbn [andb]. rewrite Hcont by lia. do 2 f_equal. lia. }
  destruct (c <? 65536) eqn:L3; reflect_bools.
  { cbn [app utf8_head]. rewrite (proj2 (Z.ltb_ge _ 128)) by lia.
    rewrite (proj2 (Z.leb_gt (224 + c / 4096) 223)), andb_false_r by lia.
    rewrite (proj2 (Z.leb_le 224 _)), (proj2 (Z.leb_le _ 239)) by lia. cbn [andb].
    rewrite !Hcont by lia. cbn [andb].
    replace (4096 * (224 + c / 4096 - 224) + 64 * (128 + c / 64 mod 64 - 128) + (128 + c mod 64 - 128)) with c by lia.
    rewrite (proj2 (Z.leb_le 2048 c)), (proj2 (andb_false_iff _ _) Hs) by lia. done. }
  cbn [app utf8_head]. rewrite (proj2 (Z.ltb_ge _ 128)) by lia.
  rewrite (proj2 (Z.leb_gt (240 + c / 262144) 223)), andb_false_r by lia.
  rewrite (proj2 (Z.leb_gt (240 + c / 262144) 239)), andb_false_r by lia.
  rewrite (proj2 (Z.leb_le 240 _)), (proj2 (Z.leb_le _ 244)) by lia. cbn [andb].
  rewrite !Hcont by lia. cbn [andb].
  replace (262144 * (240 + c / 262144 - 240) + 4096 * (128 + c / 4096 mod 64 - 128) +
    64 * (128 + c / 64 mod 64 - 128) + (128 + c mod 64 - 128)) with c by lia.
  rewrite (proj2 (Z.leb_le 65536 c)), (proj2 (Z.leb_le c 1114111)) by lia. done.
Qed.

Lemma encode_utf8_char_length c : (1 <= length (encode_utf8_char c))%nat.
Proof. unfold encode_utf8_char. repeat case_match; cbn; lia. Qed.

Lemma decode_utf8_encoded s fuel :
  text_ok s = true -> (length (flat_map encode_utf8_char s) <= fuel)%nat ->
  decode_utf8_fuel fuel (flat_map encode_utf8_char s) = Ok s.
Proof.
  revert fuel; induction s as [|c s IH]; intros fuel Hok Hf; [by destruct fuel|].
  cbn [text_ok forallb] in Hok. apply andb_true_iff in Hok as [Hc Hok].
  cbn [flat_map] in *. rewrite length_app in Hf. pose proof (encode_utf8_char_length c).
  destruct fuel as [|fuel]; [lia|].
  destruct (encode_utf8_char c ++ flat_map encode_utf8_char s) as [|x b] eqn:E.
  { apply app_eq_nil in E as [E _]. rewrite E in *. cbn in *. lia. }
  cbn [decode_utf8_fuel]. rewrite <- E, utf8_head_char by done. rewrite IH by (done || lia). done.
Qed.

Lemma encode_utf8_text s : text_ok s = true -> encode_utf8 s = Ok (flat_map encode_utf8_char s).
Proof.
  intros Hok. unfold encode_utf8. replace (existsb _ s) with false; [done|]. symmetry.
  apply not_true_is_false. intros (c & Hin & Hc)%existsb_exists. unfold text_ok in Hok.
  rewrite forallb_forall in Hok. specialize (Hok c Hin). unfold scalar_value in Hok. rewrite Hc in Hok.
  by rewrite andb_false_r in Hok.
Qed.

Lemma decode_ascii_printable s : Forall (fun c => c < 128) s -> decode_ascii s = Ok s.
Proof.
  intros Hs. unfold decode_ascii. replace (forallb _ _) with true; [done|]. symmetry.
  apply forallb_forall. intros c Hc%list_elem_of_In. apply Z.ltb_lt. exact (Forall_at _ _ _ Hs Hc).
Qed.

Lemma decode_utf8_ascii s : Forall (fun c => c < 128) s -> decode_utf8 s = Ok s.
Proof.
  unfold decode_utf8. induction 1 as [|c s Hc _ IH]; [done|]. cbn [length decode_utf8_fuel utf8_head].
  rewrite (proj2 (Z.ltb_lt _ _)) by done. by rewrite IH.
Qed.

Lemma universal_newlines_id s : Forall (fun c => c <> 13) s -> universal_newlines s = s.
Proof.
  induction 1 as [|c s Hc _ IH]; [done|]. cbn [universal_newlines].
  repeat case_match; subst; try done; congruence.
Qed.

(** Lines of printable characters. *)
Definition is_line (w : pystr) : Prop := Forall printable w.
Definition lines_text (ws : list pystr) : pystr := concat (map (fun w => w ++ [10]) ws).

Lemma line_break_printable c : printable c -> line_break c = false.
Proof.
  unfold printable. intros Hc. unfold line_break. cbn [existsb].
  rewrite !(proj2 (Z.eqb_neq c _)) by lia. done.
Qed.

Lemma split_lines_app w t : is_line w -> split_lines (w ++ 10 :: t) = w :: split_lines t.
Proof.
  induction 1 as [|c w Hc Hw IH]; cbn [app].
  - done.
  - assert (c <> 13) as Hc13 by (unfold printable in Hc; lia).
    assert (split_lines (c :: w ++ 10 :: t) =
      if line_break c then [] :: split_lines (w ++ 10 :: t)
      else match split_lines (w ++ 10 :: t) with
           | w' :: ws => match w ++ 10 :: t with
                         | d :: _ => if line_break d then [c] :: tl (split_lines (w ++ 10 :: t)) else (c :: w') :: ws
                         | [] => [[c]]
                         end
           | [] => [[c]]
           end) as ->.
    { cbn [split_lines]. repeat (case_match; try done). }
    rewrite line_break_printable, IH by done. destruct Hw as [|d w Hd Hw]; [done|]. cbn [app].
    by rewrite line_break_printable.
Qed.

Lemma split_lines_text ws : Forall is_line ws -> split_lines (lines_text ws) = ws.
Proof.
  unfold lines_text. induction 1 as [|w ws Hw _ IH]; cbn [map concat]; [done|].
  rewrite <- app_assoc. cbn [app]. by rewrite split_lines_app, IH.
Qed.

Lemma read_text_lines ws : Forall is_line ws -> read_text (lines_text ws) = Ok (lines_text ws).
Proof.
  intros Hws. assert (Forall (fun c => c = 10 \/ printable c) (lines_text ws)) as Hc.
  { unfold lines_text. induction Hws as [|w ws Hw _ IH]; cbn [map concat]; [constructor|].
    rewrite !Forall_app. split_and!; [|by repeat constructor; left|done].
    eapply Forall_impl; [exact Hw|]. by right. }
  unfold read_text. rewrite decode_utf8_ascii.
  - cbn. f_equal. apply universal_newlines_id. eapply Forall_impl; [exact Hc|]. unfold printable. cbn. lia.
  - eapply Forall_impl; [exact Hc|]. unfold printable. cbn. lia.
Qed.

(** ** UUIDs *)

Lemma str_remove_none fuel c w s : Forall (fun x => x <> c) s -> str_remove fuel (c :: w) s = s.
Proof.
  intros Hs. revert fuel. induction Hs as [|x s Hx _ IH]; intros [|fuel]; cbn [str_remove]; try done.
  cbn [str_startswith]. rewrite (proj2 (Z.eqb_neq c x)) by congruence. cbn [andb]. by rewrite IH.
Qed.

Lemma int_digits_hex ds : Forall (fun d => 0 <= d < 16) ds -> ds <> [] ->
  int_digits 16 (map digit_char ds) = Some ds.
Proof.
  induction 1 as [|d ds Hd Hds IH]; intros Hn; [done|]. cbn [map int_digits].
  rewrite int_digit_char by done. cbn. destruct Hds as [|e ds He Hds]; [done|].
  assert (digit_char e <> 95) as Hne by (pose proof (hexchar_digit e He) as Hx; unfold hexchar in Hx; lia).
  specialize (IH ltac:(done)). cbn [map] in *. destruct (digit_char e); try (rewrite IH; done).
  repeat (case_match; try (rewrite IH; done)). done.
Qed.

Lemma split_sign_hex c s : hexchar c -> split_sign (c :: s) = (1, c :: s).
Proof.
  unfold hexchar. intros Hc. unfold split_sign. repeat (case_match; try done); lia.
Qed.

Lemma skip_hex_prefix_hex c d s : hexchar d -> skip_hex_prefix (c :: d :: s) = c :: d :: s.
Proof.
  unfold hexchar. intros Hd. unfold skip_hex_prefix.
  rewrite (proj2 (Z.eqb_neq d 120)), (proj2 (Z.eqb_neq d 88)) by lia. repeat (case_match; try done).
Qed.

(** The 32 digits of a UUID. *)
Definition uuid_digits (n : uuid) : list Z := padded_digits 16 32 n.

Definition uuid_range (n : uuid) : Prop := 0 <= n < 2 ^ 128.

Section uuid_text.
Context (n : uuid) (Hn : uuid_range n).

Lemma uuid_digits_length : length (uuid_digits n) = 32%nat.
Proof using Hn. apply padded_digits_length; [lia|]. exact Hn. Qed.

Lemma uuid_digits_range : Forall (fun d => 0 <= d < 16) (uuid_digits n).
Proof using. apply padded_digits_range. lia. Qed.

Lemma uuid_digits_value : of_digits 16 (uuid_digits n) = n.
Proof using Hn. apply padded_digits_value; unfold uuid_range in Hn; lia. Qed.

Lemma uuid_hex : pad_zeros 32 (str_of_nonneg 16 n) = map digit_char (uuid_digits n).
Proof using. apply pad_zeros_digits. Qed.

Lemma uuid_str_chars : Forall (fun c => c = 45 \/ hexchar c) (uuid_str n).
Proof using.
  assert (Forall (fun c => c = 45 \/ hexchar c) (pad_zeros 32 (str_of_nonneg 16 n))) as Hh.
  { rewrite uuid_hex. apply Forall_map. eapply Forall_impl; [apply uuid_digits_range|].
    intros d Hd. right. by apply hexchar_digit. }
  unfold uuid_str. rewrite !Forall_app.
  split_and!; try (by apply Forall_take, Forall_drop); try (by repeat constructor; left);
    [by apply Forall_take|by apply Forall_drop].
Qed.

Lemma filter_hyphens s : Forall hexchar s -> List.filter (fun c => negb (c =? 45)) s = s.
Proof using.
  induction 1 as [|c s Hc _ IH]; [done|]. cbn [List.filter].
  rewrite (proj2 (Z.eqb_neq c 45)) by (unfold hexchar in Hc; lia). cbn. by rewrite IH.
Qed.

Lemma uuid_str_digits :
  List.filter (fun c => negb (c =? 45)) (uuid_str n) = map digit_char (uuid_digits n).
Proof using.
  unfold uuid_str. rewrite uuid_hex. set (h := map digit_char (uuid_digits n)).
  assert (Forall hexchar h) as Hh.
  { apply Forall_map. eapply Forall_impl; [apply uuid_digits_range|]. apply hexchar_digit. }
  rewrite !List.filter_app.
  rewrite !(filter_hyphens (take _ _)) by (apply Forall_take; by try apply Forall_drop).
  rewrite (filter_hyphens (drop _ _)) by by apply Forall_drop.
  cbn [List.filter negb Z.eqb Pos.eqb app].
  rewrite <- (take_drop 8 h) at 6. rewrite <- (take_drop 4 (drop 8 h)) at 2.
  rewrite <- (take_drop 4 (drop 4 (drop 8 h))) at 1. rewrite <- (take_drop 4 (drop 4 (drop 4 (drop 8 h)))) at 1.
  rewrite !drop_drop. done.
Qed.

Lemma uuid_parse_text : uuid_parse (uuid_str n) = Ok n.
Proof using Hn.
  unfold uuid_parse. change (u "urn:") with (117 :: u "rn:"). change (u "uuid:") with (117 :: u "uid:").
  assert (Forall (fun c => c <> 117) (uuid_str n)) as Hu.
  { eapply Forall_impl; [apply uuid_str_chars|]. unfold hexchar. cbn. lia. }
  cbv zeta. rewrite (str_remove_none _ 117 (u "rn:") _ Hu), (str_remove_none _ 117 (u "uid:") _ Hu).
  rewrite strip_by_none.
  2: { eapply Forall_impl; [apply uuid_str_chars|]. intros c Hx. unfold hexchar in Hx.
       rewrite orb_false_iff, !Z.eqb_neq. lia. }
  rewrite uuid_str_digits, length_map, uuid_digits_length. cbn [Nat.eqb negb raise_if mbind result_bind].
  assert (Forall hexchar (map digit_char (uuid_digits n))) as Hh.
  { apply Forall_map. eapply Forall_impl; [apply uuid_digits_range|]. apply hexchar_digit. }
  pose proof (int_digits_hex (uuid_digits n) uuid_digits_range) as Hd.
  pose proof uuid_digits_length as Hl. pose proof uuid_digits_value as Hv.
  destruct (uuid_digits n) as [|d [|e ds]]; try done. specialize (Hd ltac:(done)). cbn [map] in *.
  unfold py_int. rewrite strip_by_none.
  2: { eapply Forall_impl; [exact Hh|]. intros c Hx. unfold hexchar in Hx. unfold int_space.
       rewrite (proj2 (Z.ltb_lt c 128)), orb_false_iff, andb_false_iff, Z.eqb_neq, !Z.leb_gt by lia. lia. }
  apply Forall_cons in Hh as [Hx Hh]. apply Forall_inv in Hh as Hy. clear Hh.
  rewrite split_sign_hex by done. cbn [Z.eqb Pos.eqb]. rewrite skip_hex_prefix_hex by done. rewrite Hd.
  cbn [Z.eqb Pos.eqb andb raise_if mbind result_bind]. rewrite Hv.
  replace (1 * n) with n by lia. rewrite (proj2 (Z.ltb_ge n 0)) by (unfold uuid_range in Hn; lia). done.
Qed.
End uuid_text.
