(* ===== verification/Market.v ===== *)
(** * [liqvera_contracts.market]: market identity, discovery and order books

    [VenueMarket], [BookLevel] and [OrderBookSnapshot] with the checks of their
    constructors, and [discover_common_markets].  Proved here: what a constructed
    market and order book satisfy, and that discovery groups exactly the
    instruments listed by enough distinct venues, in order. *)

From stdpp Require sorting.
From S2P Require Import Prelude PyStr Num PyObj.
Open Scope Z_scope.

(** ** Instruments and markets *)

Record InstrumentIdentity := mkIdentity {
  base_asset : pystr; quote_asset : pystr; product_kind : pystr;
  settlement_asset : pystr; payoff_kind : pystr }.

#[global] Instance InstrumentIdentity_eq_dec : EqDecision InstrumentIdentity.
Proof. solve_decision. Defined.

(** [order=True]: the order of the fields as a tuple. *)
Definition identity_key (i : InstrumentIdentity) : list pystr :=
  [base_asset i; quote_asset i; product_kind i; settlement_asset i; payoff_kind i].

Fixpoint tuple_leb (x y : list pystr) : bool :=
  match x, y with
  | [], _ => true
  | _ :: _, [] => false
  | a :: x, b :: y => str_ltb a b || (str_eqb a b && tuple_leb x y)
  end.

Definition identity_leb (a b : InstrumentIdentity) : bool :=
  tuple_leb (identity_key a) (identity_key b).

Record VenueMarket := mkMarket {
  vm_venue : pystr; vm_symbol : pystr; vm_identity : InstrumentIdentity;
  contract_multiplier : decimal; vm_displayed_size_unit : pystr;
  vm_quantity_step : decimal; vm_price_tick : option decimal; vm_min_notional : decimal;
  equivalence_evidence : pystr; vm_price_decimals : option Z;
  vm_max_price_significant_digits : option Z; vm_min_quantity : option decimal }.

#[global] Instance VenueMarket_eq_dec : EqDecision VenueMarket.
Proof. solve_decision. Defined.

(** An optional Decimal that must be positive; a NaN makes the comparison raise. *)
Definition positive_or_none (o : obj) (name : string) : result (option decimal) :=
  if is_none o then Ok None
  else
    d ← expect (as_decimal o) TypeError (name +:+ " must be Decimal or None");
    nonpos ← dec_le d dec_zero;
    raise_if nonpos ValueError (name +:+ " must be positive") ;;
    Ok (Some d).

(** [VenueMarket(...)] with [__post_init__]: the text and integer fields are used
    at their declared types, the numeric constraints are checked. *)
Definition venue_market_init (venue symbol : pystr) (identity : InstrumentIdentity)
    (multiplier size_unit step tick notional : obj) (evidence : pystr)
    (decimals digits : option Z) (min_qty : obj) : result VenueMarket :=
  unit_text ← expect (s ← as_str size_unit; if str_eqb s [] then None else Some s)
    ValueError "displayed size unit is required";
  let positive_fields := [multiplier; step; notional] in
  values ← mapR (fun o => expect (as_decimal o) TypeError
                            "market numeric constraints must be Decimal") positive_fields;
  raise_if (existsb (fun d => negb (dec_is_finite d)) values) ValueError
    "market numeric constraints must be finite" ;;
  nonpos ← mapR (fun d => dec_le d dec_zero) values;
  raise_if (existsb id nonpos) ValueError "market numeric constraints must be positive" ;;
  tick ← positive_or_none tick "price_tick";
  min_qty ← positive_or_none min_qty "min_quantity";
  raise_if (match decimals with Some z => z <? 0 | None => false end)
    ValueError "price_decimals cannot be negative" ;;
  raise_if (match digits with Some z => z <=? 0 | None => false end)
    ValueError "max_price_significant_digits must be positive" ;;
  raise_if (negb (isSome tick || isSome decimals || isSome digits))
    ValueError "market must define a price rule" ;;
  match values with
  | [m; s; n] => Ok (mkMarket venue symbol identity m unit_text s tick n evidence
                              decimals digits min_qty)
  | _ => raise TypeError "unreachable"
  end.

(** ** Discovery *)

Record CommonMarket := mkCommon { cm_identity : InstrumentIdentity; cm_markets : list VenueMarket }.

Abbreviation grouping := (list (InstrumentIdentity * list (pystr * VenueMarket))).

(** [grouped[identity]] of the [defaultdict]: missing groups are empty. *)
Definition group_of (i : InstrumentIdentity) (g : grouping) : list (pystr * VenueMarket) :=
  default [] (assoc i g).

Definition group_market (g : grouping) (item : VenueMarket) : result grouping :=
  if str_eqb (str_strip (equivalence_evidence item)) [] then Ok g
  else
    let venues := group_of (vm_identity item) g in
    raise_if (isSome (assoc (vm_venue item) venues)) ValueError
      "venue returned an ambiguous normalized instrument" ;;
    Ok (assoc_set (vm_identity item) (assoc_set (vm_venue item) item venues) g).

Definition common_of (entry : InstrumentIdentity * list (pystr * VenueMarket)) : CommonMarket :=
  mkCommon (fst entry)
    (map snd (py_sorted (fun x y => str_leb (fst x) (fst y)) (snd entry))).

Definition discover_common_markets (markets : list VenueMarket) (minimum_venues : Z)
  : result (list CommonMarket) :=
  raise_if (minimum_venues <? 2) ValueError "common market discovery requires two venues" ;;
  grouped ← foldM group_market [] markets;
  let enough entry := minimum_venues <=? Z.of_nat (length (snd entry)) in
  Ok (py_sorted (fun a b => identity_leb (cm_identity a) (cm_identity b))
        (map common_of (List.filter enough grouped))).

(** ** Order books *)

Record BookLevel := mkLevel { price : decimal; quantity : decimal }.

#[global] Instance BookLevel_eq_dec : EqDecision BookLevel.
Proof. solve_decision. Defined.

Definition book_level_init (p q : decimal) : result BookLevel :=
  p_bad ← dec_le p dec_zero;
  q_bad ← match p_bad with true => Ok true | false => dec_le q dec_zero end;
  raise_if q_bad ValueError "book level values must be positive" ;;
  Ok (mkLevel p q).

Record OrderBookSnapshot := mkSnapshot {
  ob_venue : pystr; ob_symbol : pystr; sequence : option Z;
  exchange_timestamp_ms : Z; received_timestamp_ms : Z;
  bids : list BookLevel; asks : list BookLevel }.

#[global] Instance OrderBookSnapshot_eq_dec : EqDecision OrderBookSnapshot.
Proof. solve_decision. Defined.

(** [all(rel(previous, current) for ... in zip(levels, levels[1:]))], stopping at
    the first pair that fails. *)
Fixpoint all_adjacent (rel : BookLevel -> BookLevel -> result bool) (l : list BookLevel)
  : result bool :=
  match l with
  | x :: ((y :: _) as t) => b ← rel x y; match b with true => all_adjacent rel t | false => Ok false end
  | _ => Ok true
  end.

Definition strictly_descending : list BookLevel -> result bool :=
  all_adjacent (fun previous current => dec_lt (price current) (price previous)).
Definition strictly_ascending : list BookLevel -> result bool :=
  all_adjacent (fun previous current => dec_lt (price previous) (price current)).

Definition order_book_init (venue symbol : pystr) (seq : option Z) (exchange received : Z)
    (bid_levels ask_levels : list BookLevel) : result OrderBookSnapshot :=
  match bid_levels, ask_levels with
  | bid :: _, ask :: _ =>
    down ← strictly_descending bid_levels;
    raise_if (negb down) ValueError "bids must be strictly price-descending" ;;
    up ← strictly_ascending ask_levels;
    raise_if (negb up) ValueError "asks must be strictly price-ascending" ;;
    crossed ← dec_le (price ask) (price bid);
    raise_if crossed ValueError "order book cannot be crossed or locked" ;;
    Ok (mkSnapshot venue symbol seq exchange received bid_levels ask_levels)
  | _, _ => raise ValueError "order book must contain both sides"
  end.

(** [best_bid], [best_ask] and [age_at_receive_ms]; [self.bids[0]] of an empty
    tuple raises. *)
Definition best_bid (b : OrderBookSnapshot) : result BookLevel :=
  match bids b with x :: _ => Ok x | [] => raise IndexError "tuple index out of range" end.
Definition best_ask (b : OrderBookSnapshot) : result BookLevel :=
  match asks b with x :: _ => Ok x | [] => raise IndexError "tuple index out of range" end.
Definition age_at_receive_ms (b : OrderBookSnapshot) : Z :=
  received_timestamp_ms b - exchange_timestamp_ms b.

(** ** Constructed books and levels *)

Definition level_ok (l : BookLevel) : Prop :=
  dec_less dec_zero (price l) /\ dec_less dec_zero (quantity l).

Lemma book_level_init_Ok p q l :
  book_level_init p q = Ok l -> l = mkLevel p q /\ level_ok l.
Proof.
  unfold book_level_init, level_ok. intros H. inv_ok. destruct x; inv_ok.
  split; [done|]. split; by apply dec_le_false.
Qed.

Definition price_below (x y : BookLevel) : Prop := dec_less (price x) (price y).

#[global] Instance price_below_trans : Transitive price_below.
Proof. intros x y z. apply dec_less_trans. Qed.

Lemma all_adjacent_sorted (R : BookLevel -> BookLevel -> Prop) rel l :
  (forall x y, rel x y = Ok true -> R x y) -> Transitive R ->
  all_adjacent rel l = Ok true -> StronglySorted R l.
Proof.
  intros Hrel HR H. apply Sorted_StronglySorted; [exact HR|].
  induction l as [|x [|y l] IH]; [constructor|by repeat constructor|].
  change (rel x y ≫= (fun b => match b with true => all_adjacent rel (y :: l) | false => Ok false end)
          = Ok true) in H.
  inv_ok. destruct x0; [|done]. constructor; [by apply IH|]. constructor. by apply Hrel.
Qed.

(** The bids of a book fall, its asks rise, and every bid is below every ask. *)
Record book_wf (b : OrderBookSnapshot) : Prop := {
  wf_bids : StronglySorted (fun x y => price_below y x) (bids b);
  wf_asks : StronglySorted price_below (asks b);
  wf_nonempty : bids b <> [] /\ asks b <> [];
  wf_spread : forall x y, x ∈ bids b -> y ∈ asks b -> price_below x y }.

Lemma StronglySorted_head {A} (R : A -> A -> Prop) x l y :
  StronglySorted R (x :: l) -> y ∈ x :: l -> y = x \/ R x y.
Proof.
  intros H [->|Hin]%elem_of_cons; [by left|]. right.
  inversion H as [|?? _ Hall]; subst. by eapply Forall_forall in Hall.
Qed.

Lemma order_book_init_Ok v s q e r bl al b :
  order_book_init v s q e r bl al = Ok b ->
  b = mkSnapshot v s q e r bl al /\ book_wf b.
Proof.
  unfold order_book_init. intros H. destruct bl as [|bid bl], al as [|ask al]; try done. inv_ok.
  rename select (strictly_descending _ = _) into Hd. rename select (strictly_ascending _ = _) into Ha.
  rename select (dec_le _ _ = _) into Hc. apply dec_le_false in Hc.
  apply (all_adjacent_sorted (fun x y => price_below y x)) in Hd;
    [|done|by intros x y z ??; eapply dec_less_trans].
  apply (all_adjacent_sorted price_below) in Ha; [|done|apply price_below_trans].
  split; [done|]. split; cbn; [done..|].
  intros x y Hx Hy. unfold price_below in *.
  destruct (StronglySorted_head _ _ _ _ Hd Hx) as [->|Hx'];
    destruct (StronglySorted_head _ _ _ _ Ha Hy) as [->|Hy']; eauto using dec_less_trans.
Qed.

(** ** The grouping loop of the discovery *)

Definition verified (m : VenueMarket) : bool :=
  negb (str_eqb (str_strip (equivalence_evidence m)) []).

Definition listing (m : VenueMarket) : InstrumentIdentity * pystr := (vm_identity m, vm_venue m).

(** The verified markets of an instrument, in the order they were offered. *)
Definition markets_of (i : InstrumentIdentity) (l : list VenueMarket) : list VenueMarket :=
  filter (fun m => verified m = true /\ vm_identity m = i) l.

Definition by_venue (m : VenueMarket) : pystr * VenueMarket := (vm_venue m, m).

Record grouped (l : list VenueMarket) (g : grouping) : Prop := {
  grouped_keys : NoDup (map fst g);
  grouped_nonempty : forall i vs, (i, vs) ∈ g -> vs <> [];
  grouped_groups : forall i, group_of i g = map by_venue (markets_of i l);
  grouped_venues : forall i, NoDup (map vm_venue (markets_of i l)) }.

Lemma markets_of_snoc i l m :
  markets_of i (l ++ [m]) = markets_of i l ++ (if decide (verified m = true /\ vm_identity m = i) then [m] else []).
Proof. unfold markets_of. rewrite filter_app. cbn. by case_decide. Qed.

Lemma assoc_by_venue v l : assoc v (map by_venue l) = None <-> v ∉ map vm_venue l.
Proof. rewrite assoc_None, map_map. done. Qed.

Lemma assoc_set_by_venue m l :
  vm_venue m ∉ map vm_venue l ->
  assoc_set (vm_venue m) m (map by_venue l) = map by_venue (l ++ [m]).
Proof.
  intros Hn. rewrite map_app. induction l as [|x l IH]; cbn in *; [done|].
  rewrite not_elem_of_cons in Hn. destruct Hn as [Hx Hl].
  rewrite decide_False by done. f_equal. by apply IH.
Qed.

Lemma group_of_set i j vs g :
  group_of i (assoc_set j vs g) = if decide (i = j) then vs else group_of i g.
Proof.
  unfold group_of. case_decide as Hij; [subst; by rewrite assoc_set_same|].
  by rewrite assoc_set_other.
Qed.

Lemma group_market_Ok l g m g' :
  grouped l g -> group_market g m = Ok g' -> grouped (l ++ [m]) g'.
Proof.
  unfold group_market. intros [Hk Hne Hg Hv] H.
  destruct (str_eqb _ _) eqn:Hver.
  - inv_ok. assert (verified m = false) as Hm by (unfold verified; by rewrite Hver).
    assert (forall i, markets_of i (l ++ [m]) = markets_of i l) as Hsame.
    { intros i. rewrite markets_of_snoc, decide_False by (rewrite Hm; naive_solver). apply app_nil_r. }
    split; try done; intros i; rewrite Hsame; done.
  - assert (verified m = true) as Hm by (unfold verified; by rewrite Hver).
    inv_ok. rename select (isSome _ = false) into Hfree. rewrite Hg in *.
    destruct (assoc _ _) eqn:Ha; [done|]. apply assoc_by_venue in Ha.
    rewrite assoc_set_by_venue in * by done. split.
    + by apply assoc_set_NoDup.
    + intros i vs [Heq|Hin]%assoc_set_elem; [|by eapply Hne]. simplify_eq.
      rewrite map_app. by destruct (map by_venue _).
    + intros i. rewrite group_of_set, markets_of_snoc. case_decide as Hi.
      * rewrite decide_True by done. by subst.
      * rewrite decide_False by naive_solver. by rewrite app_nil_r.
    + intros i. rewrite markets_of_snoc. case_decide as Hi; [|by rewrite app_nil_r].
      destruct Hi as [_ <-]. rewrite map_app. apply NoDup_app. split_and!; [done| |apply NoDup_singleton].
      intros v Hin Hv'. cbn in Hv'. apply list_elem_of_singleton in Hv' as ->. done.
Qed.

Lemma group_markets_Ok l k g g' :
  grouped k g -> foldM group_market g l = Ok g' -> grouped (k ++ l) g'.
Proof.
  revert k g; induction l as [|m l IH]; intros k g Hg H; cbn in H; inv_ok.
  - by rewrite app_nil_r.
  - replace (k ++ m :: l) with ((k ++ [m]) ++ l) by by rewrite <- app_assoc.
    eapply IH; [|done]. by eapply group_market_Ok.
Qed.

Lemma grouped_nil : grouped [] [].
Proof. split; try done; intros; [apply NoDup_nil_2|set_solver|apply NoDup_nil_2]. Qed.

(** The loop fails only on a listing offered twice. *)
Lemma group_markets_raise l k g e :
  grouped k g -> foldM group_market g l = Raise e ->
  exn_class e = ValueError /\ ~ NoDup (map listing (filter (fun m => verified m = true) (k ++ l))).
Proof.
  revert k g; induction l as [|m l IH]; intros k g Hg H; cbn in H; [done|].
  assert (k ++ m :: l = (k ++ [m]) ++ l) as Heq by by rewrite <- app_assoc.
  apply bind_Raise in H as [H|(g1 & H1 & H)].
  - unfold group_market in H. destruct (str_eqb _ _) eqn:Hver; [done|].
    assert (verified m = true) as Hm by (unfold verified; by rewrite Hver).
    apply bind_Raise in H as [H|(? & _ & [=])]. apply raise_if_Raise in H as [Hs ->].
    split; [done|]. rewrite (grouped_groups _ _ Hg) in Hs.
    destruct (assoc _ _) as [m'|] eqn:Ha; [|done]. apply assoc_elem in Ha.
    apply list_elem_of_fmap in Ha as (m1 & Heq1 & Hin). unfold by_venue in Heq1. simplify_eq.
    apply list_elem_of_filter in Hin as ((Hm1 & Hi) & Hin).
    rewrite filter_app, filter_cons, decide_True, map_app by done. cbn.
    intros (_ & Hd & _)%NoDup_app. eapply (Hd (listing m)); [|left].
    apply list_elem_of_fmap. exists m1. unfold listing. split; [congruence|].
    by apply list_elem_of_filter.
  - rewrite Heq. eapply IH; [|done]. by eapply group_market_Ok.
Qed.

(** ** The order of instruments *)

Lemma tuple_leb_total x y : tuple_leb x y = true \/ tuple_leb y x = true.
Proof.
  revert y; induction x as [|a x IH]; intros [|b y]; cbn; try by auto.
  destruct (decide (a = b)) as [->|Hne].
  - rewrite str_eqb_refl. destruct (IH y) as [->| ->]; rewrite !orb_true_r; auto.
  - destruct (str_leb_total a b) as [H|H]; apply str_leb_ltb in H; rewrite ?H; auto.
Qed.

Lemma tuple_leb_trans x y z : tuple_leb x y = true -> tuple_leb y z = true -> tuple_leb x z = true.
Proof.
  revert y z; induction x as [|a x IH]; intros [|b y] [|c z]; cbn; try done.
  intros [H1|[->%str_eqb_spec H1]%andb_true_iff]%orb_true_iff
    [H2|[->%str_eqb_spec H2]%andb_true_iff]%orb_true_iff; apply orb_true_iff.
  - left. by eapply str_ltb_trans.
  - by left.
  - by left.
  - right. rewrite str_eqb_refl. by eapply IH.
Qed.

Lemma tuple_leb_antisym x y : tuple_leb x y = true -> tuple_leb y x = true -> x = y.
Proof.
  revert y; induction x as [|a x IH]; intros [|b y]; cbn; try done.
  intros [H1|[->%str_eqb_spec H1]%andb_true_iff]%orb_true_iff
    [H2|[Heq%str_eqb_spec H2]%andb_true_iff]%orb_true_iff.
  - by destruct (str_ltb_asym a b).
  - subst. by rewrite str_ltb_irrefl in H1.
  - by rewrite str_ltb_irrefl in H2.
  - f_equal. by apply IH.
Qed.

Lemma identity_leb_antisym a b : identity_leb a b = true -> identity_leb b a = true -> a = b.
Proof.
  intros H1 H2. pose proof (tuple_leb_antisym _ _ H1 H2) as H. destruct a, b.
  unfold identity_key in H. cbn in H. congruence.
Qed.

Definition common_leb (a b : CommonMarket) : bool := identity_leb (cm_identity a) (cm_identity b).

(** ** What a common market is *)

(** The markets of one instrument, one per venue, in the order of the venues. *)
Definition common_for (ms : list VenueMarket) (n : Z) (c : CommonMarket) : Prop :=
  n <= Z.of_nat (length (markets_of (cm_identity c) ms)) /\
  cm_markets c ≡ₚ markets_of (cm_identity c) ms /\
  StronglySorted (fun a b => str_ltb (vm_venue a) (vm_venue b) = true) (cm_markets c).

(** [common_for] determines the markets of its instrument. *)
Lemma common_for_unique ms n a b :
  common_for ms n a -> common_for ms n b -> cm_identity a = cm_identity b -> a = b.
Proof.
  destruct a as [i ams], b as [j bms]; cbn. intros (_ & Ha & Sa) (_ & Hb & Sb) ->; cbn in *.
  apply (StronglySorted_map (fun a b => str_ltb a b = true) vm_venue) in Sa, Sb.
  assert (ams ≡ₚ bms) as Hp by by rewrite Ha, Hb. f_equal. apply (perm_by_key vm_venue); [done| |].
  - assert (Hirr : forall v : pystr, str_ltb v v <> true) by (intros v; by rewrite str_ltb_irrefl).
    induction Sa as [|v vs _ IH Hv]; [apply NoDup_nil_2|]. apply NoDup_cons. split; [|done].
    intros Hin. eapply Forall_forall in Hv; [|exact Hin]. by apply Hirr in Hv.
  - apply StronglySorted_strict_ext; [|done..]. by apply Permutation_map.
Qed.

Lemma common_of_for ms g n i vs :
  grouped ms g -> (i, vs) ∈ g -> n <= Z.of_nat (length vs) -> common_for ms n (common_of (i, vs)).
Proof.
  intros [Hk Hne Hg Hv] Hin Hn.
  assert (vs = map by_venue (markets_of i ms)) as ->.
  { rewrite <- Hg. unfold group_of. destruct (assoc i g) as [vs'|] eqn:Ha; cbn.
    - apply assoc_elem in Ha. clear -Hk Hin Ha. induction g as [|[j ws] g IH]; [set_solver|].
      cbn in Hk. apply NoDup_cons in Hk as [Hj Hg].
      assert (forall us, (j, us) ∉ g) as Hout.
      { intros us Hu. apply Hj. by apply (list_elem_of_fmap_2 fst) in Hu. }
      apply elem_of_cons in Hin as [Hin|Hin], Ha as [Ha|Ha]; simplify_eq; try done; naive_solver.
    - apply assoc_None in Ha. destruct Ha. by apply (list_elem_of_fmap_2 fst) in Hin. }
  set (l := map by_venue (markets_of i ms)) in *.
  pose proof (py_sorted_perm (fun x y : pystr * VenueMarket => str_leb (fst x) (fst y)) l) as Hp.
  set (s := py_sorted _ l) in *.
  assert (Forall (fun x : pystr * VenueMarket => fst x = vm_venue (snd x)) s) as Hs.
  { rewrite Hp. apply Forall_map, Forall_true. done. }
  assert (map vm_venue (map snd s) = map fst s) as Hm.
  { rewrite map_map. clear -Hs. induction Hs as [|x s Hx _ IH]; cbn; [done|]. by rewrite IH, Hx. }
  unfold common_for. cbn [cm_identity cm_markets common_of fst snd]. fold l s. split_and!.
  - unfold l in Hn. by rewrite length_map in Hn.
  - rewrite Hp. unfold l. by rewrite map_map, map_id.
  - apply (StronglySorted_map (fun a b => str_ltb a b = true) vm_venue). rewrite Hm.
    apply sorted_strict.
    + apply (StronglySorted_map (fun a b => str_leb a b = true) fst). apply py_sorted_sorted.
      * intros x y. apply str_leb_total.
      * intros x y z. apply str_leb_trans.
    + rewrite <- Hm, map_map. rewrite Hp. unfold l. rewrite map_map. apply Hv.
Qed.

Lemma grouped_length ms g i vs : grouped ms g -> (i, vs) ∈ g -> length vs = length (markets_of i ms).
Proof.
  intros Hg Hin. destruct (common_of_for ms g (Z.of_nat (length vs)) i vs Hg Hin) as (_ & Hp & _); [lia|].
  apply Permutation_length in Hp. cbn [cm_markets common_of snd] in Hp.
  rewrite length_map in Hp. by rewrite py_sorted_perm in Hp.
Qed.

(** An instrument with a verified market has its group. *)
Lemma grouped_member ms g i : grouped ms g -> markets_of i ms <> [] -> exists vs, (i, vs) ∈ g.
Proof.
  intros [_ _ Hg _] Hne. specialize (Hg i). unfold group_of in Hg.
  destruct (assoc i g) as [vs|] eqn:Ha; [exists vs; by apply assoc_elem|].
  by destruct (markets_of i ms).
Qed.

(** No listing twice, from one venue list per instrument. *)
Lemma listings_NoDup (l : list VenueMarket) :
  (forall i, NoDup (map vm_venue (filter (fun m => vm_identity m = i) l))) -> NoDup (map listing l).
Proof.
  induction l as [|m l IH]; intros Hall; [apply NoDup_nil_2|]. cbn [map]. apply NoDup_cons. split.
  - intros (m' & Heq & Hin)%list_elem_of_fmap. unfold listing in Heq. simplify_eq.
    specialize (Hall (vm_identity m)). rewrite filter_cons, decide_True in Hall by done.
    cbn [map] in Hall. apply NoDup_cons in Hall as [Hn _]. apply Hn.
    apply list_elem_of_fmap. exists m'. split; [done|]. by apply list_elem_of_filter.
  - apply IH. intros i. specialize (Hall i). rewrite filter_cons in Hall. case_decide; [|done].
    cbn [map] in Hall. by apply NoDup_cons in Hall as [_ ?].
Qed.

(** What a discovery that succeeds returns. *)
Lemma discover_groups ms n cs :
  discover_common_markets ms n = Ok cs ->
  StronglySorted (fun a b => identity_leb (cm_identity a) (cm_identity b) = true) cs /\
  NoDup (map cm_identity cs) /\
  forall c, c ∈ cs <-> common_for ms n c.
Proof.
  unfold discover_common_markets. intros ([] & Hmin%raise_if_Ok%Z.ltb_ge & (g & Hg & [= <-])%bind_Ok)%bind_Ok.
  apply (group_markets_Ok ms []) in Hg; [|apply grouped_nil].
  pose proof (py_sorted_perm common_leb (map common_of
    (List.filter (fun e => n <=? Z.of_nat (length (snd e))) g))) as Hp.
  split_and!.
  - apply (py_sorted_sorted common_leb).
    + intros x y. apply tuple_leb_total.
    + intros x y z. apply tuple_leb_trans.
  - change (NoDup (map cm_identity (py_sorted common_leb (map common_of
      (List.filter (fun e => n <=? Z.of_nat (length (snd e))) g))))).
    rewrite Hp, map_map. change (fun x => cm_identity (common_of x)) with
      (fst : InstrumentIdentity * list (pystr * VenueMarket) -> InstrumentIdentity).
    destruct Hg as [Hk _ _ _]. clear -Hk. induction g as [|[i vs] g IH]; [apply NoDup_nil_2|].
    cbn in *. apply NoDup_cons in Hk as [Hi Hk]. destruct (_ <=? _); cbn; [|by apply IH].
    apply NoDup_cons. split; [|by apply IH]. intros Hin. apply Hi.
    apply list_elem_of_fmap in Hin as (e & -> & Hin). apply list_elem_of_fmap_2.
    apply list_elem_of_In. apply list_elem_of_In, filter_In in Hin. by destruct Hin.
  - intros c. change (c ∈ py_sorted common_leb (map common_of
      (List.filter (fun e => n <=? Z.of_nat (length (snd e))) g)) <-> common_for ms n c).
    rewrite Hp. split.
    + intros ([i vs] & -> & Hin)%list_elem_of_fmap.
      apply list_elem_of_In, filter_In in Hin as [Hin Hn]. apply list_elem_of_In in Hin.
      eapply common_of_for; [done..|]. by apply Z.leb_le in Hn.
    + intros Hc. destruct Hc as (Hn & Hrest).
      destruct (grouped_member ms g (cm_identity c) Hg) as [vs Hin].
      { intros Hnil. rewrite Hnil in Hn. cbn in Hn. lia. }
      assert (n <= Z.of_nat (length vs)) as Hn' by by rewrite (grouped_length ms g (cm_identity c)).
      apply list_elem_of_fmap. exists (cm_identity c, vs). split.
      * eapply common_for_unique; [by split|by eapply common_of_for|done].
      * apply list_elem_of_In, filter_In. split; [by apply list_elem_of_In|by apply Z.leb_le].
Qed.

(** Discovery succeeds exactly when it is asked for two venues or more and no venue
    lists an instrument twice among the verified markets. *)
Lemma discover_succeeds ms n :
  is_Ok (discover_common_markets ms n) = true <->
  2 <= n /\ NoDup (map listing (filter (fun m => verified m = true) ms)).
Proof.
  unfold discover_common_markets, raise_if. destruct (n <? 2) eqn:En; reflect_bools; cbn.
  { split; [done|lia]. }
  destruct (foldM group_market [] ms) as [g|e] eqn:Hg; cbn.
  - split; [|done]. intros _. split; [lia|].
    apply (group_markets_Ok ms []) in Hg; [|apply grouped_nil].
    apply listings_NoDup. intros i. pose proof (grouped_venues _ _ Hg i) as Hd.
    rewrite list_filter_filter. cbn [app] in Hd. unfold markets_of in Hd.
    erewrite list_filter_iff; [exact Hd|]. intros m. tauto.
  - split; [done|]. intros [_ Hd].
    apply (group_markets_raise ms [] [] e grouped_nil) in Hg as [_ Hg]. done.
Qed.

(** The entries of a discovery are determined by their order and their members. *)
Lemma common_markets_unique ms n cs ds :
  StronglySorted (fun a b => identity_leb (cm_identity a) (cm_identity b) = true) cs ->
  StronglySorted (fun a b => identity_leb (cm_identity a) (cm_identity b) = true) ds ->
  NoDup (map cm_identity cs) -> NoDup (map cm_identity ds) ->
  (forall c, c ∈ cs <-> common_for ms n c) -> (forall c, c ∈ ds <-> common_for ms n c) -> cs = ds.
Proof.
  intros Sc Sd Nc Nd Hc Hd.
  eapply sorting.StronglySorted_unique_strong; [|exact Sc|exact Sd|].
  - intros x y Hx%Hc Hy%Hd Hxy Hyx. apply (common_for_unique ms n); [done..|].
    apply identity_leb_antisym; done.
  - apply NoDup_Permutation; [by eapply NoDup_fmap_1..|]. intros c. by rewrite Hc, Hd.
Qed.

(** The checks of the constructor are exactly the well-formedness of the book. *)
Lemma all_adjacent_complete (R : BookLevel -> BookLevel -> Prop) rel l :
  (forall x y, R x y -> rel x y = Ok true) -> StronglySorted R l -> all_adjacent rel l = Ok true.
Proof.
  intros Hrel. induction 1 as [|x l Hl IH Hx]; [done|]. destruct l as [|y l]; [done|].
  change (rel x y ≫= (fun b => match b with true => all_adjacent rel (y :: l) | false => Ok false end)
          = Ok true).
  by rewrite (Hrel x y (Forall_inv Hx)).
Qed.

Lemma order_book_init_complete v s q e r bl al :
  book_wf (mkSnapshot v s q e r bl al) ->
  order_book_init v s q e r bl al = Ok (mkSnapshot v s q e r bl al).
Proof.
  intros [Hb Ha [Hbn Han] Hs]. cbn [bids asks] in *. destruct bl as [|b bl], al as [|a al]; try done.
  unfold order_book_init, strictly_descending, strictly_ascending.
  rewrite (all_adjacent_complete (fun x y => price_below y x) _ (b :: bl)) by done.
  cbn [mbind result_bind negb raise_if].
  rewrite (all_adjacent_complete price_below _ (a :: al)) by done. cbn [mbind result_bind negb raise_if].
  rewrite dec_less_not_le by (apply Hs; by left). done.
Qed.

(** ** Properties *)

(** Discovery succeeds exactly when it is asked for two venues or more and no
    venue lists an instrument twice among the verified markets; it then returns, in
    the strict order of the instruments, exactly one entry per instrument that at
    least [minimum_venues] verified markets list, which holds those markets, one per
    venue, in the order of the venues. *)
Theorem discover_common_markets_spec ms n cs :
  discover_common_markets ms n = Ok cs <->
  2 <= n /\ NoDup (map listing (filter (fun m => verified m = true) ms)) /\
  StronglySorted (fun a b => identity_leb (cm_identity a) (cm_identity b) = true) cs /\
  NoDup (map cm_identity cs) /\
  forall c, c ∈ cs <-> common_for ms n c.
Proof.
  split.
  - intros H. destruct (discover_groups _ _ _ H) as (? & ? & ?).
    assert (is_Ok (discover_common_markets ms n) = true) as Hok by by rewrite H.
    apply discover_succeeds in Hok as []. done.
  - intros (Hn & Hl & Hs & Hd & Hc).
    destruct (is_Ok_exists (discover_common_markets ms n)) as [ds Hds]; [by apply discover_succeeds|].
    rewrite Hds. destruct (discover_groups _ _ _ Hds) as (? & ? & ?). f_equal.
    by eapply common_markets_unique.
Qed.

(** An order book is constructed exactly from sides that are both present, the
    bids falling and the asks rising strictly in price, with every bid strictly below
    every ask, all prices being comparable (no NaN); it keeps its arguments. *)
Theorem order_book_init_spec v s q e r bl al b :
  order_book_init v s q e r bl al = Ok b <-> b = mkSnapshot v s q e r bl al /\ book_wf b.
Proof.
  split; [apply order_book_init_Ok|]. intros [-> Hwf]. by apply order_book_init_complete.
Qed.
