(* ===== verification/CaptureModel.v ===== *)
(** * [liqvera_public_capture.model]: the records at the capture boundary

    The enumerations, the checking constructors and the payload of one WebSocket
    message.  Fields have their declared types here, so the [type(x) is T] checks
    hold by construction; what is left of each constructor are the checks on values.
    Proved here: which arguments each constructor accepts, and that the bytes kept
    for a text message decode to the text. *)

From S2P Require Import Prelude PyStr Num PyObj JsonRoundtrip Bytes ByteLaws.
Open Scope Z_scope.

Definition CAPTURE_BOUNDARY_PROFILE : pystr := u "websocket-application-message-post-decompression/v1".
Definition ENVELOPE_SCHEMA : pystr := u "liqvera-a2-envelope/v1".
Definition NDJSON_SCHEMA : pystr := u "liqvera-a2-ndjson/v1".
Definition COMPRESSION_PROFILE : pystr := u "gzip-raw-deflate-6-mtime0-os255/v1".
Definition WARMUP_MINUTES : Z := 60.
Definition MEASURED_SECONDS : Z := 5 * 24 * 60 * 60.
Definition MEASURED_WINDOW_NS : Z := MEASURED_SECONDS * 1000000000.

(** ** Enumerations *)

Inductive Venue := HYPERLIQUID | LIGHTER.
Inductive WebSocketMessageType := TEXT | BINARY.
Inductive MessageClass :=
  | CONTROL | SNAPSHOT | DELTA | TRADE | MARKET_STATS | FUNDING | UNKNOWN.
Inductive ContinuityState :=
  | NOT_APPLICABLE | VALID | GAP_OPEN | AWAITING_SNAPSHOT | INVALID_SOURCE_TIME.
Inductive RunState := PLANNED | WARMING | MEASURING | PASS | FAIL.
Inductive A2ReasonCode :=
  | INSUFFICIENT_REVIEWED_MARKETS | MALFORMED_JSON | DUPLICATE_JSON_KEY | UNEXPECTED_TOP_LEVEL
  | UNKNOWN_MESSAGE | MISSING_FIELD | TYPE_MISMATCH | UNROUTABLE_MARKET | SUBSCRIPTION_REJECTED
  | SOURCE_TIME_REGRESSION | LIGHTER_NONCE_GAP | QUEUE_SATURATED | FRAME_TOO_LARGE
  | PERSISTENCE_UNAVAILABLE | INTEGRITY_CONFLICT | WEBSOCKET_DISCONNECTED
  | CLOCK_EVIDENCE_INVALID | CLOCK_ERROR_EXCEEDED | CLOCK_DIVERGENCE | OWNERSHIP_CONFLICT
  | BATCH_HASH_MISMATCH | DECODER_VERSION_MISMATCH | REPLAY_INTEGRITY_FAILED | RUN_WINDOW_INVALID
  | COVERAGE_BELOW_THRESHOLD | SILENT_DROP_DETECTED | RETENTION_CHECK_FAILED | WARMUP_RESET.

(** ** Checks on values *)

Definition require_nonnegative_int (z : Z) : result unit :=
  raise_if (z <? 0) ValueError "nonnegative integer".

Definition require_optional_nonnegative_int (o : option Z) : result unit :=
  match o with Some z => require_nonnegative_int z | None => Ok tt end.

Definition require_identifier (s : pystr) : result unit :=
  raise_if (str_eqb s []) ValueError "identifier".

Definition require_optional_identifier (o : option pystr) : result unit :=
  match o with Some s => require_identifier s | None => Ok tt end.

Definition code_detail_chars : pystr := u "abcdefghijklmnopqrstuvwxyz0123456789._:-".

Definition require_code_detail (s : pystr) : result unit :=
  raise_if (str_eqb s [] || (256 <? Z.of_nat (length s)) ||
            existsb (fun c => negb (str_contains c code_detail_chars)) s) ValueError "error_detail".

Definition require_optional_detail (o : option pystr) : result unit :=
  match o with Some s => require_code_detail s | None => Ok tt end.

(** ** Records *)

Record ReceivedFrame := mkFrame {
  fr_run_id : uuid; fr_boot_id : uuid; fr_venue : Venue; connection_epoch : Z;
  connection_frame_index : Z; arrival_ticket : Z; received_wall_ns : Z;
  received_monotonic_ns : Z; recorder_clock_error_ms : decimal;
  websocket_message_type : WebSocketMessageType; fr_payload : bytes }.

Definition received_frame_init (run boot : uuid) (venue : Venue) (epoch index ticket wall monotonic : Z)
    (clock_error : decimal) (kind : WebSocketMessageType) (payload : bytes) : result ReceivedFrame :=
  require_all require_nonnegative_int [epoch; index; ticket; wall; monotonic] ;;
  raise_if (negb (dec_is_finite clock_error)) ValueError "recorder_clock_error_ms" ;;
  Ok (mkFrame run boot venue epoch index ticket wall monotonic clock_error kind payload).

Record DecoderObservation := mkObservation {
  do_decoder_version : pystr; market_identity : option pystr; venue_market_id : option pystr;
  channel : pystr; do_message_class : MessageClass; do_continuity_state : ContinuityState;
  source_timestamp_value : option Z; source_timestamp_unit : option pystr;
  source_nonce : option Z; source_begin_nonce : option Z; source_offset : option Z;
  do_error_code : option A2ReasonCode; do_error_detail : option pystr }.

Definition decoder_observation_init (version : pystr) (identity market : option pystr) (channel : pystr)
    (class : MessageClass) (state : ContinuityState) (stamp : option Z) (stamp_unit : option pystr)
    (nonce begin_nonce offset : option Z) (code : option A2ReasonCode) (detail : option pystr)
  : result DecoderObservation :=
  require_identifier version ;;
  require_optional_identifier identity ;;
  require_optional_identifier market ;;
  require_identifier channel ;;
  require_optional_nonnegative_int stamp ;;
  require_optional_identifier stamp_unit ;;
  require_optional_nonnegative_int nonce ;;
  require_optional_nonnegative_int begin_nonce ;;
  require_optional_nonnegative_int offset ;;
  require_optional_detail detail ;;
  Ok (mkObservation version identity market channel class state stamp stamp_unit nonce begin_nonce
        offset code detail).

Record StoredDecoderEvidence := mkStored {
  ingest_index : Z; sd_decoder_version : pystr; sd_message_class : MessageClass;
  sd_continuity_state : ContinuityState; sd_error_code : option A2ReasonCode;
  sd_error_detail : option pystr }.

Definition stored_decoder_evidence_init (index : Z) (version : pystr) (class : MessageClass)
    (state : ContinuityState) (code : option A2ReasonCode) (detail : option pystr)
  : result StoredDecoderEvidence :=
  require_nonnegative_int index ;;
  require_identifier version ;;
  require_optional_detail detail ;;
  Ok (mkStored index version class state code detail).

Record CaptureProfile := mkProfile {
  collector_version : pystr; python_version : pystr; websocket_library : pystr;
  websocket_library_version : pystr; zlib_version : pystr; capture_boundary_profile : pystr;
  envelope_schema : pystr; ndjson_schema : pystr; compression_profile : pystr }.

Definition capture_profile_init (collector python library library_version zlib boundary envelope ndjson
    compression : pystr) : result CaptureProfile :=
  require_all require_identifier [collector; python; library; library_version; zlib] ;;
  raise_if (negb (str_eqb boundary CAPTURE_BOUNDARY_PROFILE)) ValueError "capture_boundary_profile" ;;
  raise_if (negb (str_eqb envelope ENVELOPE_SCHEMA)) ValueError "envelope_schema" ;;
  raise_if (negb (str_eqb ndjson NDJSON_SCHEMA)) ValueError "ndjson_schema" ;;
  raise_if (negb (str_eqb compression COMPRESSION_PROFILE)) ValueError "compression_profile" ;;
  Ok (mkProfile collector python library library_version zlib boundary envelope ndjson compression).

(** ** The payload of one message *)

Inductive message_data := DStr (s : pystr) | DBytes (b : bytes).

Definition application_payload_bytes (kind : WebSocketMessageType) (data : message_data) : result bytes :=
  match kind, data with
  | TEXT, DStr s => encode_utf8 s
  | BINARY, DBytes b => Ok b
  | _, _ => raise ValueError "message payload type"
  end.

(** ** Accepted arguments *)

Lemma require_nonnegative_Ok z : require_nonnegative_int z = Ok tt <-> 0 <= z.
Proof. unfold require_nonnegative_int. rewrite raise_if_Ok. apply Z.ltb_ge. Qed.

Lemma require_identifier_Ok s : require_identifier s = Ok tt <-> s <> [].
Proof. unfold require_identifier. rewrite raise_if_Ok. apply str_eqb_false. Qed.

(** A detail is a short text over the code alphabet. *)
Definition code_detail (s : pystr) : Prop :=
  s <> [] /\ Z.of_nat (length s) <= 256 /\ Forall (fun c => c ∈ code_detail_chars) s.

Lemma require_code_detail_Ok s : require_code_detail s = Ok tt <-> code_detail s.
Proof.
  unfold require_code_detail, code_detail. rewrite raise_if_Ok, !orb_false_iff, str_eqb_false, Z.ltb_ge.
  assert (existsb (fun c => negb (str_contains c code_detail_chars)) s = false <->
    Forall (fun c => c ∈ code_detail_chars) s) as ->; [|tauto].
  rewrite <- not_true_iff_false, existsb_exists, Forall_forall. split.
  - intros H c Hc. destruct (str_contains c code_detail_chars) eqn:E.
    + unfold str_contains in E. apply existsb_exists in E as (x & Hx & ->%Z.eqb_eq). by apply list_elem_of_In.
    + exfalso. apply H. exists c. rewrite E. split; [by apply list_elem_of_In|done].
  - intros H (c & Hc%list_elem_of_In & Hx). apply H in Hc. apply negb_true_iff in Hx.
    apply not_true_iff_false in Hx. apply Hx. unfold str_contains. apply existsb_exists. exists c.
    rewrite Z.eqb_refl. split; [by apply list_elem_of_In|done].
Qed.

(** A received frame is constructed exactly from nonnegative counters and clock
    readings and a finite clock error, and keeps its arguments. *)
Lemma received_frame_init_spec run boot venue epoch index ticket wall monotonic err kind payload f :
  received_frame_init run boot venue epoch index ticket wall monotonic err kind payload = Ok f <->
  Forall (Z.le 0) [epoch; index; ticket; wall; monotonic] /\ dec_is_finite err = true /\
  f = mkFrame run boot venue epoch index ticket wall monotonic err kind payload.
Proof.
  unfold received_frame_init. rewrite bind_Ok. split.
  - intros ([] & Hall%require_all_Ok & (_ & He%raise_if_Ok & [= <-])%bind_Ok).
    apply negb_false_iff in He. split; [|done]. eapply Forall_impl; [exact Hall|]. intros z. apply require_nonnegative_Ok.
  - intros (Hall & He & ->). exists tt. split; [|by rewrite He].
    apply require_all_Ok. eapply Forall_impl; [exact Hall|]. intros z. apply require_nonnegative_Ok.
Qed.

(** An observation of the decoder is constructed exactly when its identifiers are
    nonempty, its numbers nonnegative and its error detail, if any, a short code. *)
Lemma decoder_observation_init_spec version identity market ch class state stamp stamp_unit nonce begin
    offset code detail o :
  decoder_observation_init version identity market ch class state stamp stamp_unit nonce begin offset code
    detail = Ok o <->
  version <> [] /\ ch <> [] /\ Forall (fun x => x <> Some []) [identity; market; stamp_unit] /\
  Forall (fun x => forall z, x = Some z -> 0 <= z) [stamp; nonce; begin; offset] /\
  (forall s, detail = Some s -> code_detail s) /\
  o = mkObservation version identity market ch class state stamp stamp_unit nonce begin offset code detail.
Proof.
  assert (forall x, require_optional_identifier x = Ok tt <-> x <> Some []) as Hid.
  { intros [s|]; cbn; [rewrite require_identifier_Ok|]; split; congruence. }
  assert (forall x, require_optional_nonnegative_int x = Ok tt <-> forall z, x = Some z -> 0 <= z) as Hn.
  { intros [z|]; cbn; [rewrite require_nonnegative_Ok|]; split; try done; [by intros ? ? [= <-]|auto]. }
  assert (require_optional_detail detail = Ok tt <-> forall s, detail = Some s -> code_detail s) as Hd.
  { destruct detail as [s|]; cbn; [rewrite require_code_detail_Ok|]; split; try done; [by intros ? ? [= <-]|auto]. }
  rewrite !Forall_cons, Forall_nil, Forall_nil, <- !Hid, <- !Hn, <- Hd, <- !require_identifier_Ok.
  unfold decoder_observation_init. split.
  - intros H. repeat (apply bind_Ok in H as ([] & ? & H)). injection H as <-. tauto.
  - intros (-> & -> & (-> & -> & -> & _) & (-> & -> & -> & -> & _) & -> & ->). done.
Qed.

(** ** Properties *)

(** The payload of a text message is returned exactly for texts without
    surrogates, and decodes as UTF-8 to the text; a binary payload is the message. *)
Theorem application_payload_roundtrip kind data :
  match kind, data with
  | TEXT, DStr s =>
    text_ok s = true -> exists b, application_payload_bytes kind data = Ok b /\ decode_utf8 b = Ok s
  | BINARY, DBytes b => application_payload_bytes kind data = Ok b
  | _, _ => application_payload_bytes kind data = raise ValueError "message payload type"
  end.
Proof.
  destruct kind, data as [s|b]; try done. intros Hok. exists (flat_map encode_utf8_char s).
  split; [by apply encode_utf8_text|]. by apply decode_utf8_encoded.
Qed.

Lemma application_payload_roundtrip_witness :
  exists b, application_payload_bytes TEXT (DStr [8364; 128512; 65]) = Ok b /\
    decode_utf8 b = Ok [8364; 128512; 65].
Proof. apply (application_payload_roundtrip TEXT (DStr [8364; 128512; 65])). reflexivity. Defined.
