(* ===== verification/LighterAdapter.v ===== *)
(** * [liqvera_public_capture.public_adapters.lighter]: the Lighter book reducer

    [LighterBookReducer] keeps two price dictionaries, a nonce and an availability
    flag, and mutates them in place: an exception in the middle of a message leaves
    what was already written.  Its operations are computations over the reducer
    that return or raise and always leave a state.  Proved here: an available book
    is complete and well formed, updates are only accepted in nonce order, a gap or
    an exception makes the book unavailable until the next snapshot, and an update
    writes the sides as a map from prices to sizes. *)

From S2P Require Import Prelude PyStr Num PyObj Json Market.
From Stdlib Require Import QArith Qcanon.
Open Scope Z_scope.

(** ** Fields of a message *)

(** [_object], [_array], [_string], [_integer] and [_decimal]. *)
Definition object_field (j : json) : result (list (pystr * json)) :=
  match j with JDict d => Ok d | _ => raise ValueError "must be an object" end.

Definition array_field (j : json) : result (list json) :=
  match j with JList l => Ok l | _ => raise ValueError "must be an array" end.

Definition string_field (j : json) : result pystr :=
  match j with
  | JStr s => if str_eqb (str_strip s) [] then raise ValueError "must be a nonempty string" else Ok s
  | _ => raise ValueError "must be a nonempty string"
  end.

Definition integer_field (j : json) : result Z :=
  match j with JInt z => Ok z | _ => raise ValueError "must be an integer" end.

Definition decimal_field (j : json) : result decimal :=
  match j with
  | JStr s =>
    d ← try_except (dec_parse s) [InvalidOperation] (fun _ => raise ValueError "must be a decimal string");
    raise_if (negb (dec_is_finite d)) ValueError "must be finite" ;;
    Ok d
  | _ => raise ValueError "must be a decimal string"
  end.

(** ** Price dictionaries

    Keys are finite Decimals, which are equal when their values are; assigning to a
    present key keeps the key that is there. *)

Abbreviation price_dict := (list (decimal * decimal)).

Definition same_key (a b : decimal) : bool := frac_eqb (dec_value a) (dec_value b).

Fixpoint dict_set (p q : decimal) (d : price_dict) : price_dict :=
  match d with
  | [] => [(p, q)]
  | (k, v) :: d => if same_key p k then (k, q) :: d else (k, v) :: dict_set p q d
  end.

Fixpoint dict_pop (p : decimal) (d : price_dict) : price_dict :=
  match d with
  | [] => []
  | (k, v) :: d => if same_key p k then d else (k, v) :: dict_pop p d
  end.

(** One turn of the loop of [_apply_levels]. *)
Definition apply_level (levels : price_dict) (item : json) : result price_dict :=
  level ← object_field item;
  price ← decimal_field (json_get (u "price") level);
  size ← decimal_field (json_get (u "size") level);
  negative ← dec_lt size dec_zero;
  bad ← match negative with true => Ok true | false => dec_le price dec_zero end;
  raise_if bad ValueError "invalid L2 level" ;;
  zero ← dec_eq size dec_zero;
  match zero with true => Ok (dict_pop price levels) | false => Ok (dict_set price size levels) end.

(** The loop, which leaves the levels written so far when it raises. *)
Fixpoint apply_items (levels : price_dict) (items : list json) : price_dict * result unit :=
  match items with
  | [] => (levels, Ok tt)
  | item :: items =>
    match apply_level levels item with
    | Ok levels => apply_items levels items
    | Raise e => (levels, Raise e)
    end
  end.

Definition apply_levels (levels : price_dict) (book : list (pystr * json)) (side : pystr)
  : price_dict * result unit :=
  match array_field (json_get side book) with
  | Ok items => apply_items levels items
  | Raise e => (levels, Raise e)
  end.

(** [_levels]: into a fresh dictionary. *)
Definition levels_of (book : list (pystr * json)) (side : pystr) : result price_dict :=
  let '(levels, m) := apply_levels [] book side in _ ← m; Ok levels.

(** ** The reducer *)

Record reducer := mkReducer {
  rd_symbol : pystr; rd_market_index : Z; rd_bids : price_dict; rd_asks : price_dict;
  rd_nonce : option Z; rd_timestamp_ms : option Z; rd_unavailable : bool }.

(** [LighterBookReducer(symbol, market_index, clock)]; the clock is read when a
    snapshot is taken, its reading is an argument of the operations. *)
Definition reducer_init (symbol : pystr) (market_index : Z) : reducer :=
  mkReducer symbol market_index [] [] None None true.

(** Methods: from the object before to the object after and the outcome. *)
Definition method (A : Type) : Type := reducer -> reducer * result A.

#[global] Instance method_ret : MRet method := fun A a r => (r, Ok a).
#[global] Instance method_bind : MBind method := fun A B f m r =>
  match m r with
  | (r, Ok a) => f a r
  | (r, Raise e) => (r, Raise e)
  end.

Definition lift {A} (m : result A) : method A := fun r => (r, m).
Definition get_self : method reducer := fun r => (r, Ok r).

(** Assignments to one attribute. *)
Definition set_bids (d : price_dict) : method unit := fun r =>
  (mkReducer (rd_symbol r) (rd_market_index r) d (rd_asks r) (rd_nonce r) (rd_timestamp_ms r) (rd_unavailable r), Ok tt).
Definition set_asks (d : price_dict) : method unit := fun r =>
  (mkReducer (rd_symbol r) (rd_market_index r) (rd_bids r) d (rd_nonce r) (rd_timestamp_ms r) (rd_unavailable r), Ok tt).
Definition set_nonce (n : Z) : method unit := fun r =>
  (mkReducer (rd_symbol r) (rd_market_index r) (rd_bids r) (rd_asks r) (Some n) (rd_timestamp_ms r) (rd_unavailable r), Ok tt).
Definition set_timestamp (t : Z) : method unit := fun r =>
  (mkReducer (rd_symbol r) (rd_market_index r) (rd_bids r) (rd_asks r) (rd_nonce r) (Some t) (rd_unavailable r), Ok tt).
Definition set_unavailable (b : bool) : method unit := fun r =>
  (mkReducer (rd_symbol r) (rd_market_index r) (rd_bids r) (rd_asks r) (rd_nonce r) (rd_timestamp_ms r) b, Ok tt).

(** In-place application to one side: what was written stays when it raises. *)
Definition apply_bids (book : list (pystr * json)) : method unit := fun r =>
  let '(d, m) := apply_levels (rd_bids r) book (u "bids") in (fst (set_bids d r), m).
Definition apply_asks (book : list (pystr * json)) : method unit := fun r =>
  let '(d, m) := apply_levels (rd_asks r) book (u "asks") in (fst (set_asks d r), m).

(** The order of [(price, size)] tuples. *)
Definition entry_leb (a b : decimal * decimal) : bool :=
  if same_key (fst a) (fst b) then frac_leb (dec_value (snd a)) (dec_value (snd b))
  else frac_leb (dec_value (fst a)) (dec_value (fst b)).

Definition sorted_entries (d : price_dict) : price_dict := py_sorted entry_leb d.
(** [sorted(..., reverse=True)] keeps the order of equal elements. *)
Definition sorted_entries_reverse (d : price_dict) : price_dict := rev (py_sorted entry_leb (rev d)).

Definition entry_levels (d : price_dict) : result (list BookLevel) :=
  mapR (fun x => book_level_init (fst x) (snd x)) d.

Definition LIGHTER_VENUE : pystr := u "LIGHTER".

(** [snapshot], at the clock's reading [now]. *)
Definition reducer_snapshot (r : reducer) (now : Z) : result OrderBookSnapshot :=
  match rd_unavailable r, rd_nonce r, rd_timestamp_ms r with
  | false, Some nonce, Some timestamp =>
    bid_levels ← entry_levels (sorted_entries_reverse (rd_bids r));
    ask_levels ← entry_levels (sorted_entries (rd_asks r));
    order_book_init LIGHTER_VENUE (rd_symbol r) (Some nonce) timestamp now bid_levels ask_levels
  | _, _, _ => raise ValueError "Lighter order book is unavailable"
  end.

(** [_snapshot] *)
Definition stamped_snapshot (message : list (pystr * json)) (now : Z)
  : method (option OrderBookSnapshot) :=
  t ← lift (integer_field (json_get (u "timestamp") message));
  _ ← set_timestamp t;
  r ← get_self;
  b ← lift (reducer_snapshot r now);
  mret (Some b).

(** The body of [apply] inside its [try]. *)
Definition apply_body (message : list (pystr * json)) (now : Z) : method (option OrderBookSnapshot) :=
  channel ← lift (string_field (json_get (u "channel") message));
  r ← get_self;
  index ← lift (py_str_int (rd_market_index r));
  _ ← lift (raise_if (negb (str_eqb channel (u "order_book:" ++ index))) ValueError
              "order book channel does not match market");
  book ← lift (object_field (json_get (u "order_book") message));
  message_type ← lift (string_field (json_get (u "type") message));
  if str_eqb message_type (u "subscribed/order_book") then
    bids ← lift (levels_of book (u "bids"));
    _ ← set_bids bids;
    asks ← lift (levels_of book (u "asks"));
    _ ← set_asks asks;
    nonce ← lift (integer_field (json_get (u "nonce") book));
    _ ← set_nonce nonce;
    _ ← set_unavailable false;
    stamped_snapshot message now
  else if rd_unavailable r || negb (str_eqb message_type (u "update/order_book")) then mret None
  else
    begin_nonce ← lift (integer_field (json_get (u "begin_nonce") book));
    next_nonce ← lift (integer_field (json_get (u "nonce") book));
    if negb (bool_decide (rd_nonce r = Some begin_nonce)) || (next_nonce <=? begin_nonce) then
      _ ← set_unavailable true; mret None
    else
      _ ← apply_bids book;
      _ ← apply_asks book;
      _ ← set_nonce next_nonce;
      stamped_snapshot message now.

Definition reducer_apply (message : list (pystr * json)) (now : Z) : method (option OrderBookSnapshot) :=
  fun r =>
    match apply_body message now r with
    | (r, Ok x) => (r, Ok x)
    | (r, Raise e) => (fst (set_unavailable true r), Raise e)
    end.

(** ** The adapter *)

Record LighterInstrumentMapping := mkLighterMapping {
  lm_identity : InstrumentIdentity; lm_contract_multiplier : decimal;
  lm_displayed_size_unit : pystr; lm_equivalence_evidence : pystr }.

(** [LighterInstrumentMapping(...)] with [__post_init__]. *)
Definition lighter_mapping_init (identity : InstrumentIdentity) (multiplier : decimal)
    (size_unit evidence : pystr) : result LighterInstrumentMapping :=
  nonpos ← dec_le multiplier dec_zero;
  raise_if (nonpos || str_eqb (str_strip size_unit) [] || str_eqb (str_strip evidence) [])
    ValueError "reviewed Lighter mapping is required" ;;
  Ok (mkLighterMapping identity multiplier size_unit evidence).

Record KnownMarket := mkKnown { market_index : Z; km_market : VenueMarket }.

Record lighter_adapter := mkLighterAdapter {
  la_known : list (pystr * KnownMarket); la_books : list (pystr * reducer) }.

Definition lighter_adapter_init : lighter_adapter := mkLighterAdapter [] [].

(** [Decimal(1).scaleb(-n)] for [n >= 0] in the default context: the exponent is
    limited, and beyond the least subnormal the result rounds to zero. *)
Definition scaleb_one (n : Z) : result decimal :=
  raise_if (2000054 <? n) InvalidOperation "scaleb" ;;
  Ok (if n <=? 1000026 then DFin false 1 (- n) else DFin false 0 (-1000026)).

(** [==] of two optional Decimals that are not NaNs. *)
Definition same_decimal (a b : decimal) : bool :=
  match dec_eq a b with Ok b => b | Raise _ => false end.
Definition same_optional (a b : option decimal) : bool :=
  match a, b with
  | Some a, Some b => same_decimal a b
  | None, None => true
  | _, _ => false
  end.

(** [==] of two markets: field by field, Decimals by value. *)
Definition market_eqb (a b : VenueMarket) : bool :=
  str_eqb (vm_venue a) (vm_venue b) && str_eqb (vm_symbol a) (vm_symbol b) &&
  bool_decide (vm_identity a = vm_identity b) &&
  same_decimal (contract_multiplier a) (contract_multiplier b) &&
  str_eqb (vm_displayed_size_unit a) (vm_displayed_size_unit b) &&
  same_decimal (vm_quantity_step a) (vm_quantity_step b) &&
  same_optional (vm_price_tick a) (vm_price_tick b) &&
  same_decimal (vm_min_notional a) (vm_min_notional b) &&
  str_eqb (equivalence_evidence a) (equivalence_evidence b) &&
  bool_decide (vm_price_decimals a = vm_price_decimals b) &&
  bool_decide (vm_max_price_significant_digits a = vm_max_price_significant_digits b) &&
  same_optional (vm_min_quantity a) (vm_min_quantity b).

(** [_response] *)
Definition accepted_response (value : json) : result (list (pystr * json)) :=
  d ← object_field value;
  code ← integer_field (json_get (u "code") d);
  raise_if (negb (code =? 200)) ValueError "Lighter response is not accepted" ;;
  Ok d.

Section lighter_adapter.
(** The injected transport and the reviewed mappings. *)
Context (read_transport : pystr -> json -> result json).
Context (mapping_for : pystr -> list (pystr * json) -> result (option LighterInstrumentMapping)).

(** One turn of the loop of [list_markets]. *)
Definition discover_market (known : list (pystr * KnownMarket)) (raw : json)
  : result (list (pystr * KnownMarket)) :=
  detail ← object_field raw;
  market_type ← string_field (json_get (u "market_type") detail);
  raise_if (negb (str_eqb market_type (u "perp"))) ValueError
    "perp filter returned a non-perp market" ;;
  status ← string_field (json_get (u "status") detail);
  if negb (str_eqb status (u "active")) then Ok known
  else
    symbol ← string_field (json_get (u "symbol") detail);
    mapping ← mapping_for symbol detail;
    match mapping with
    | None => Ok known
    | Some mapping =>
      size_decimals ← integer_field (json_get (u "supported_size_decimals") detail);
      price_decimals ← integer_field (json_get (u "supported_price_decimals") detail);
      raise_if ((size_decimals <? 0) || (price_decimals <? 0)) ValueError
        "decimal places must be nonnegative" ;;
      step ← scaleb_one size_decimals;
      tick ← scaleb_one price_decimals;
      min_quote ← decimal_field (json_get (u "min_quote_amount") detail);
      min_base ← decimal_field (json_get (u "min_base_amount") detail);
      market ← venue_market_init LIGHTER_VENUE symbol (lm_identity mapping)
        (ODecimal (lm_contract_multiplier mapping)) (OJson (JStr (lm_displayed_size_unit mapping)))
        (ODecimal step) (ODecimal tick) (ODecimal min_quote) (lm_equivalence_evidence mapping)
        None None (ODecimal min_base);
      index ← integer_field (json_get (u "market_id") detail);
      Ok (assoc_set symbol (mkKnown index market) known)
    end.

Definition list_markets (a : lighter_adapter) : lighter_adapter * result (list VenueMarket) :=
  match (reply ← read_transport (u "order_book_details") (JDict [(u "filter", JStr (u "perp"))]);
         payload ← accepted_response reply;
         details ← array_field (json_get (u "order_book_details") payload);
         foldM discover_market [] details) with
  | Ok known => (mkLighterAdapter known (la_books a), Ok (map (fun x => km_market (snd x)) known))
  | Raise e => (a, Raise e)
  end.
End lighter_adapter.

Definition require_market (a : lighter_adapter) (market : VenueMarket) : result KnownMarket :=
  match assoc (vm_symbol market) (la_known a) with
  | Some known =>
    raise_if (negb (str_eqb (vm_venue market) LIGHTER_VENUE) || negb (market_eqb (km_market known) market))
      ValueError "market is not currently discovered" ;;
    Ok known
  | None => raise ValueError "market is not currently discovered"
  end.

Definition adapter_order_book (a : lighter_adapter) (market : VenueMarket) (now : Z)
  : result OrderBookSnapshot :=
  _ ← require_market a market;
  match assoc (vm_symbol market) (la_books a) with
  | Some r =>
    raise_if (rd_unavailable r) ValueError "Lighter websocket book is unavailable" ;;
    reducer_snapshot r now
  | None => raise ValueError "Lighter websocket book is unavailable"
  end.

Definition apply_order_book_message (a : lighter_adapter) (market : VenueMarket)
    (message : list (pystr * json)) (now : Z) : lighter_adapter * result (option OrderBookSnapshot) :=
  match require_market a market with
  | Raise e => (a, Raise e)
  | Ok known =>
    let r := default (reducer_init (vm_symbol market) (market_index known))
               (assoc (vm_symbol market) (la_books a)) in
    let '(r, m) := reducer_apply message now r in
    (mkLighterAdapter (la_known a) (assoc_set (vm_symbol market) r (la_books a)), m)
  end.

(** ** Price dictionaries as maps from values *)

Definition size_at (d : price_dict) (q : Qc) : option decimal :=
  snd <$> List.find (fun e => frac_eqb q (dec_value (fst e))) d.

Definition side_ok (d : price_dict) : Prop :=
  NoDup (map (fun e => dec_value (fst e)) d) /\
  Forall (fun e => dec_is_finite (fst e) = true /\ dec_is_finite (snd e) = true /\
    (0 < dec_value (fst e))%Qc /\ (0 < dec_value (snd e))%Qc) d.

Lemma size_at_cons k v d q :
  size_at ((k, v) :: d) q = if bool_decide (q = dec_value k) then Some v else size_at d q.
Proof. unfold size_at, frac_eqb. cbn [List.find fst]. by case_bool_decide. Qed.

Lemma size_at_None d q : size_at d q = None <-> q ∉ map (fun e => dec_value (fst e)) d.
Proof.
  induction d as [|[k v] d IH]; [split; [intros _; apply not_elem_of_nil|done]|].
  rewrite size_at_cons. cbn [map fst]. rewrite not_elem_of_cons.
  case_bool_decide; naive_solver.
Qed.

Lemma same_key_spec a b : same_key a b = true <-> dec_value a = dec_value b.
Proof. apply frac_eqb_spec. Qed.

Lemma dict_set_keys p q d x :
  x ∈ map (fun e => dec_value (fst e)) (dict_set p q d) <->
  x = dec_value p \/ x ∈ map (fun e => dec_value (fst e)) d.
Proof.
  induction d as [|[k v] d IH]; cbn [dict_set map fst]; [by rewrite elem_of_cons|].
  destruct (same_key p k) eqn:E; cbn [map fst]; rewrite !elem_of_cons.
  - apply same_key_spec in E. rewrite <- E. tauto.
  - rewrite IH. tauto.
Qed.

Lemma dict_set_size p q d x :
  size_at (dict_set p q d) x = if bool_decide (x = dec_value p) then Some q else size_at d x.
Proof.
  induction d as [|[k v] d IH]; cbn [dict_set]; [by rewrite size_at_cons|].
  destruct (same_key p k) eqn:E; rewrite !size_at_cons.
  - apply same_key_spec in E. rewrite E. by repeat case_bool_decide.
  - rewrite IH. destruct (decide (x = dec_value p)) as [->|].
    + rewrite (bool_decide_false (dec_value p = dec_value k)); [done|].
      intros H%same_key_spec. congruence.
    + rewrite (bool_decide_false (x = dec_value p)) by done. done.
Qed.

Lemma dict_pop_keys p d x :
  x ∈ map (fun e => dec_value (fst e)) (dict_pop p d) -> x ∈ map (fun e => dec_value (fst e)) d.
Proof.
  induction d as [|[k v] d IH]; cbn [dict_pop map fst]; [done|].
  destruct (same_key p k); cbn [map fst]; rewrite ?elem_of_cons; tauto.
Qed.

Lemma dict_pop_size p d x :
  NoDup (map (fun e => dec_value (fst e)) d) ->
  size_at (dict_pop p d) x = if bool_decide (x = dec_value p) then None else size_at d x.
Proof.
  induction d as [|[k v] d IH]; cbn [dict_pop map fst]; intros Hd; [by case_bool_decide|].
  apply NoDup_cons in Hd as [Hk Hd]. destruct (same_key p k) eqn:E; rewrite ?size_at_cons.
  - apply same_key_spec in E. rewrite E. repeat case_bool_decide; subst; try done. apply size_at_None. by rewrite E.
  - rewrite IH by done. destruct (decide (x = dec_value p)) as [->|].
    + rewrite (bool_decide_false (dec_value p = dec_value k)); [done|]. intros H%same_key_spec. congruence.
    + rewrite (bool_decide_false (x = dec_value p)) by done. done.
Qed.

Lemma dict_set_ok p q d :
  side_ok d -> dec_is_finite p = true -> dec_is_finite q = true ->
  (0 < dec_value p)%Qc -> (0 < dec_value q)%Qc -> side_ok (dict_set p q d).
Proof.
  intros [Hd Hf] Hp Hq Hp0 Hq0. split.
  - clear Hf. induction d as [|[k v] d IH]; cbn [dict_set map fst]; [apply NoDup_singleton|].
    cbn [map fst] in Hd. apply NoDup_cons in Hd as [Hk Hd]. destruct (same_key p k) eqn:E; cbn [map fst].
    + by constructor.
    + constructor; [|by apply IH]. intros [Hx|Hx]%dict_set_keys; [|done].
      assert (same_key p k = true) by by apply same_key_spec. congruence.
  - clear Hd. induction Hf as [|[k v] d He Hf IH]; cbn [dict_set]; [by repeat constructor|].
    destruct (same_key p k); constructor; try done. cbn [fst snd] in *. tauto.
Qed.

Lemma dict_pop_ok p d : side_ok d -> side_ok (dict_pop p d).
Proof.
  intros [Hd Hf]. split.
  - clear Hf. induction d as [|[k v] d IH]; cbn [dict_pop map fst]; [done|].
    cbn [map fst] in Hd. apply NoDup_cons in Hd as [Hk Hd]. destruct (same_key p k); [done|]. cbn [map fst].
    constructor; [|by apply IH]. by intros ?%dict_pop_keys.
  - clear Hd. induction Hf as [|[k v] d He Hf IH]; cbn [dict_pop]; [constructor|].
    destruct (same_key p k); [done|by constructor].
Qed.

(** What one item of a message writes at its price. *)
Definition item_write (item : json) : option (Qc * option decimal) :=
  match item with
  | JDict level =>
    match decimal_field (json_get (u "price") level), decimal_field (json_get (u "size") level) with
    | Ok p, Ok q => Some (dec_value p, if bool_decide (dec_value q = 0%Qc) then None else Some q)
    | _, _ => None
    end
  | _ => None
  end.

(** The size at a price after the items, the last item for the price deciding. *)
Fixpoint size_after (items : list json) (size : Qc -> option decimal) (x : Qc) : option decimal :=
  match items with
  | [] => size x
  | item :: items =>
    match item_write item with
    | Some (p, w) => size_after items (fun y => if bool_decide (y = p) then w else size y) x
    | None => size_after items size x
    end
  end.

Lemma decimal_field_finite j d : decimal_field j = Ok d -> dec_is_finite d = true.
Proof.
  destruct j; cbn [decimal_field]; try done. intros H. apply bind_Ok in H as (x & _ & H).
  inv_ok. done.
Qed.

Lemma finite_compare_zero d : dec_is_finite d = true -> dec_compare d dec_zero = Some (dec_value d ?= 0)%Qc.
Proof. by destruct d. Qed.

Lemma apply_level_Ok d item d' :
  side_ok d -> apply_level d item = Ok d' ->
  side_ok d' /\ exists p w, item_write item = Some (p, w) /\
    forall x, size_at d' x = if bool_decide (x = p) then w else size_at d x.
Proof.
  intros Hd. unfold apply_level. intros H. apply bind_Ok in H as (level & Hl & H).
  destruct item as [| | | | | |level']; try done. injection Hl as ->.
  apply bind_Ok in H as (p & Hp & (q & Hq & (neg & Hneg & (bad & Hbad & (_ & Hb%raise_if_Ok & H)%bind_Ok)%bind_Ok)%bind_Ok)%bind_Ok).
  subst bad. cbn [item_write]. rewrite Hp, Hq.
  pose proof (decimal_field_finite _ _ Hp) as Hpf. pose proof (decimal_field_finite _ _ Hq) as Hqf.
  unfold dec_lt in Hneg. rewrite finite_compare_zero in Hneg by done.
  destruct neg; [done|]. unfold dec_le in Hbad. rewrite finite_compare_zero in Hbad by done.
  unfold dec_eq in H. rewrite finite_compare_zero in H by done.
  assert (0 < dec_value p)%Qc as Hp0.
  { apply Qcgt_alt. by destruct (dec_value p ?= 0)%Qc. }
  destruct (dec_value q ?= 0)%Qc eqn:Eq; [|done|].
  - apply Qceq_alt in Eq. cbn in H. injection H as <-. rewrite bool_decide_true by done.
    split; [by apply dict_pop_ok|]. eexists _, _. split; [reflexivity|]. intros x. apply dict_pop_size, Hd.
  - apply Qcgt_alt in Eq. cbn in H. injection H as <-.
    rewrite bool_decide_false by (intros E; rewrite E in Eq; by apply Qclt_not_eq in Eq).
    split; [by apply dict_set_ok|]. eexists _, _. split; [reflexivity|]. apply dict_set_size.
Qed.

Lemma size_after_ext items f g x : (forall y, f y = g y) -> size_after items f x = size_after items g x.
Proof.
  revert f g; induction items as [|item items IH]; intros f g Hfg; cbn [size_after]; [done|].
  destruct (item_write item) as [[p w]|]; apply IH; [|done]. intros y. by rewrite Hfg.
Qed.

Lemma apply_items_Ok d items d' :
  side_ok d -> apply_items d items = (d', Ok tt) ->
  side_ok d' /\ forall x, size_at d' x = size_after items (size_at d) x.
Proof.
  revert d; induction items as [|item items IH]; intros d Hd H; cbn [apply_items] in H.
  - injection H as <-. done.
  - destruct (apply_level d item) as [d1|] eqn:E; [|done].
    apply apply_level_Ok in E as (Hd1 & p & w & Hw & Hs); [|done].
    destruct (IH d1 Hd1 H) as [Hd' Hsize]. split; [done|]. intros x. rewrite Hsize. cbn [size_after]. rewrite Hw.
    by apply size_after_ext.
Qed.

(** ** The reducer's state machine *)

(** The state after a sequence of messages, each with the clock's reading. *)
Definition reducer_run (r : reducer) (messages : list (list (pystr * json) * Z)) : reducer :=
  fold_left (fun r m => fst (reducer_apply (fst m) (snd m) r)) messages r.

(** A book that is available is complete, and its snapshot is well formed. *)
Definition consistent (r : reducer) : Prop :=
  side_ok (rd_bids r) /\ side_ok (rd_asks r) /\
  (rd_unavailable r = false ->
   forall now, exists b, reducer_snapshot r now = Ok b /\ book_wf b /\ sequence b = rd_nonce r).

Lemma method_bind_Ok {A B} (m : method A) (f : A -> method B) r r' b :
  (m ≫= f) r = (r', Ok b) <-> exists r1 a, m r = (r1, Ok a) /\ f a r1 = (r', Ok b).
Proof.
  unfold mbind, method_bind. destruct (m r) as [r1 [a|e]].
  - split; [by exists r1, a|]. by intros (? & ? & [= <- <-] & ?).
  - split; [done|]. by intros (? & ? & [=] & ?).
Qed.

Lemma lift_Ok {A} (m : result A) r r' a : lift m r = (r', Ok a) <-> r' = r /\ m = Ok a.
Proof. unfold lift. split; [by intros [= <- <-]|by intros [-> ->]]. Qed.

(** A snapshot at another reading of the clock. *)
Lemma reducer_snapshot_now r now b :
  reducer_snapshot r now = Ok b ->
  forall now', exists b', reducer_snapshot r now' = Ok b' /\ book_wf b' /\ sequence b' = rd_nonce r.
Proof.
  intros H now'. unfold reducer_snapshot in *.
  destruct (rd_unavailable r), (rd_nonce r), (rd_timestamp_ms r); try done.
  apply bind_Ok in H as (bl & -> & (al & -> & H)%bind_Ok). cbn [mbind result_bind].
  assert (exists b', order_book_init LIGHTER_VENUE (rd_symbol r) (Some z) z0 now' bl al = Ok b') as [b' Hb'].
  { unfold order_book_init in *. destruct bl, al; try done.
    apply bind_Ok in H as (d & -> & (? & Hd & (a & -> & (? & Ha & (c & -> & (? & Hc & _)%bind_Ok)%bind_Ok)%bind_Ok)%bind_Ok)%bind_Ok).
    cbn [mbind result_bind]. apply raise_if_Ok in Hd, Ha, Hc. rewrite Hd, Ha, Hc. by eexists. }
  exists b'. split; [done|]. apply order_book_init_Ok in Hb' as [-> Hwf]. done.
Qed.

Lemma stamped_snapshot_Ok message now r r' x :
  stamped_snapshot message now r = (r', Ok x) ->
  exists b, x = Some b /\ reducer_snapshot r' now = Ok b /\
    rd_bids r' = rd_bids r /\ rd_asks r' = rd_asks r /\ rd_nonce r' = rd_nonce r.
Proof.
  unfold stamped_snapshot. intros (r1 & t & [-> _]%lift_Ok & H)%method_bind_Ok.
  apply method_bind_Ok in H as (r2 & [] & Hset & H). injection Hset as <-.
  apply method_bind_Ok in H as (r3 & r4 & Hget & H). injection Hget as <- <-.
  apply method_bind_Ok in H as (r5 & b & [-> Hb]%lift_Ok & H). injection H as <- <-.
  exists b. done.
Qed.

(** What an accepted message does, by its kind. *)
Definition outcome_of (message : list (pystr * json)) (now : Z) (r r' : reducer)
    (x : option OrderBookSnapshot) : Prop :=
  match x with
  | None => r' = r \/ rd_unavailable r' = true /\ rd_bids r' = rd_bids r /\ rd_asks r' = rd_asks r
  | Some b =>
    reducer_snapshot r' now = Ok b /\
    exists book bid_items ask_items next,
      json_get (u "order_book") message = JDict book /\
      json_get (u "bids") book = JList bid_items /\ json_get (u "asks") book = JList ask_items /\
      json_get (u "nonce") book = JInt next /\ rd_nonce r' = Some next /\
      ((json_get (u "type") message = JStr (u "subscribed/order_book") /\
        apply_items [] bid_items = (rd_bids r', Ok tt) /\ apply_items [] ask_items = (rd_asks r', Ok tt)) \/
       (json_get (u "type") message = JStr (u "update/order_book") /\ rd_unavailable r = false /\
        (exists begin, json_get (u "begin_nonce") book = JInt begin /\ rd_nonce r = Some begin /\ begin < next) /\
        apply_items (rd_bids r) bid_items = (rd_bids r', Ok tt) /\
        apply_items (rd_asks r) ask_items = (rd_asks r', Ok tt)))
  end.

Lemma string_field_Ok j s : string_field j = Ok s -> j = JStr s.
Proof. destruct j; cbn; try done. by destruct (str_eqb _ _); intros [= <-]. Qed.
Lemma integer_field_Ok j z : integer_field j = Ok z -> j = JInt z.
Proof. destruct j; cbn; try done. by intros [= <-]. Qed.
Lemma object_field_Ok j d : object_field j = Ok d -> j = JDict d.
Proof. destruct j; cbn; try done. by intros [= <-]. Qed.

Lemma apply_levels_Ok d book side d' :
  apply_levels d book side = (d', Ok tt) ->
  exists items, json_get side book = JList items /\ apply_items d items = (d', Ok tt).
Proof. unfold apply_levels. destruct (json_get side book); cbn; try done. by eexists. Qed.

Lemma levels_of_Ok book side d :
  levels_of book side = Ok d ->
  exists items, json_get side book = JList items /\ apply_items [] items = (d, Ok tt).
Proof.
  unfold levels_of. destruct (apply_levels [] book side) as [d' m] eqn:E.
  intros ([] & -> & [= <-])%bind_Ok. by apply apply_levels_Ok.
Qed.

Lemma apply_body_Ok message now r r' x :
  apply_body message now r = (r', Ok x) -> outcome_of message now r r' x.
Proof.
  unfold apply_body. intros (r1 & channel & [-> _]%lift_Ok & H)%method_bind_Ok.
  apply method_bind_Ok in H as (r2 & self & Hget & H). injection Hget as <- <-.
  apply method_bind_Ok in H as (r2 & index & [-> _]%lift_Ok & H).
  apply method_bind_Ok in H as (r2 & [] & [-> _]%lift_Ok & H).
  apply method_bind_Ok in H as (r2 & book & [-> Hbook%object_field_Ok]%lift_Ok & H).
  apply method_bind_Ok in H as (r2 & kind & [-> Hkind%string_field_Ok]%lift_Ok & H).
  destruct (str_eqb kind (u "subscribed/order_book")) eqn:Esub.
  - apply str_eqb_spec in Esub as ->.
    apply method_bind_Ok in H as (r2 & bids & [-> Hbids%levels_of_Ok]%lift_Ok & H).
    apply method_bind_Ok in H as (r2 & [] & Hs1 & H). injection Hs1 as <-.
    apply method_bind_Ok in H as (r2 & asks & [-> Hasks%levels_of_Ok]%lift_Ok & H).
    apply method_bind_Ok in H as (r2 & [] & Hs2 & H). injection Hs2 as <-.
    apply method_bind_Ok in H as (r2 & nonce & [-> Hnonce%integer_field_Ok]%lift_Ok & H).
    apply method_bind_Ok in H as (r2 & [] & Hs3 & H). injection Hs3 as <-.
    apply method_bind_Ok in H as (r2 & [] & Hs4 & H). injection Hs4 as <-.
    apply stamped_snapshot_Ok in H as (b & -> & Hb & Hb1 & Ha1 & Hn1). cbn in Hb1, Ha1, Hn1.
    destruct Hbids as (bi & Hbi & Hbids), Hasks as (ai & Hai & Hasks).
    split; [done|]. exists book, bi, ai, nonce. rewrite Hb1, Ha1. split_and!; try done. by left.
  - destruct (rd_unavailable r || _) eqn:Eskip.
    { injection H as <- <-. by left. }
    apply orb_false_iff in Eskip as [Hav Hupd]. apply negb_false_iff, str_eqb_spec in Hupd as ->.
    apply method_bind_Ok in H as (r2 & begin & [-> Hbegin%integer_field_Ok]%lift_Ok & H).
    apply method_bind_Ok in H as (r2 & next & [-> Hnext%integer_field_Ok]%lift_Ok & H).
    destruct (negb _ || _) eqn:Egap.
    { apply method_bind_Ok in H as (r2 & [] & Hs & H). injection Hs as <-. injection H as <- <-. by right. }
    apply orb_false_iff in Egap as [Hn Hlt]. apply negb_false_iff, bool_decide_eq_true in Hn.
    apply Z.leb_gt in Hlt.
    apply method_bind_Ok in H as (r2 & [] & Hs1 & H). unfold apply_bids in Hs1.
    destruct (apply_levels (rd_bids r) book (u "bids")) as [d1 m1] eqn:E1. injection Hs1 as <- ->.
    apply method_bind_Ok in H as (r2 & [] & Hs2 & H). unfold apply_asks in Hs2. cbn [fst set_bids rd_asks] in Hs2.
    destruct (apply_levels (rd_asks r) book (u "asks")) as [d2 m2] eqn:E2. injection Hs2 as <- ->.
    apply method_bind_Ok in H as (r2 & [] & Hs3 & H). injection Hs3 as <-.
    apply stamped_snapshot_Ok in H as (b & -> & Hb & Hb1 & Ha1 & Hn1). cbn in Hb1, Ha1, Hn1.
    apply apply_levels_Ok in E1 as (bi & Hbi & E1), E2 as (ai & Hai & E2).
    split; [done|]. exists book, bi, ai, next. rewrite Hb1, Ha1. split_and!; try done. right. split_and!; try done.
    by exists begin.
Qed.

(** ** The sides stay maps, whatever is raised *)

Definition sides_ok (r : reducer) : Prop := side_ok (rd_bids r) /\ side_ok (rd_asks r).

Definition keeps {A} (m : method A) : Prop := forall r, sides_ok r -> sides_ok (fst (m r)).

Lemma keeps_bind {A B} (m : method A) (f : A -> method B) :
  keeps m -> (forall a, keeps (f a)) -> keeps (m ≫= f).
Proof.
  intros Hm Hf r Hr. unfold mbind, method_bind. specialize (Hm r Hr).
  destruct (m r) as [r1 [a|e]]; [by apply Hf|done].
Qed.

Lemma keeps_same {A} (m : method A) :
  (forall r, rd_bids (fst (m r)) = rd_bids r /\ rd_asks (fst (m r)) = rd_asks r) -> keeps m.
Proof. intros Hm r [Hb Ha]. unfold sides_ok. destruct (Hm r) as [-> ->]. done. Qed.

Lemma keeps_lift_bind {A B} (m : result A) (f : A -> method B) :
  (forall a, m = Ok a -> keeps (f a)) -> keeps (lift m ≫= f).
Proof. intros Hf r Hr. unfold mbind, method_bind, lift. destruct m; [by apply Hf|done]. Qed.

Lemma keeps_set_bids d : side_ok d -> keeps (set_bids d).
Proof. intros Hd r [_ Ha]. done. Qed.
Lemma keeps_set_asks d : side_ok d -> keeps (set_asks d).
Proof. intros Hd r [Hb _]. done. Qed.

Lemma side_ok_nil : side_ok [].
Proof. split; [apply NoDup_nil_2|constructor]. Qed.

Lemma apply_items_side_ok d items : side_ok d -> side_ok (fst (apply_items d items)).
Proof.
  revert d; induction items as [|item items IH]; intros d Hd; cbn [apply_items]; [done|].
  destruct (apply_level d item) as [d1|] eqn:E; [|done]. apply apply_level_Ok in E as [Hd1 _]; [|done]. by apply IH.
Qed.

Lemma apply_levels_side_ok d book side : side_ok d -> side_ok (fst (apply_levels d book side)).
Proof. intros Hd. unfold apply_levels. destruct (array_field _); [by apply apply_items_side_ok|done]. Qed.

Lemma levels_of_side_ok book side d : levels_of book side = Ok d -> side_ok d.
Proof.
  intros (items & _ & H)%levels_of_Ok. pose proof (apply_items_side_ok [] items side_ok_nil) as Hd.
  by rewrite H in Hd.
Qed.

Lemma keeps_apply_bids book : keeps (apply_bids book).
Proof.
  intros r [Hb Ha]. unfold apply_bids. pose proof (apply_levels_side_ok _ book (u "bids") Hb) as Hd.
  by destruct (apply_levels _ _ _).
Qed.
Lemma keeps_apply_asks book : keeps (apply_asks book).
Proof.
  intros r [Hb Ha]. unfold apply_asks. pose proof (apply_levels_side_ok _ book (u "asks") Ha) as Hd.
  by destruct (apply_levels _ _ _).
Qed.

Create HintDb keeps.
#[local] Hint Resolve keeps_set_bids keeps_set_asks keeps_apply_bids keeps_apply_asks levels_of_side_ok : keeps.
#[local] Hint Extern 5 (keeps _) => apply keeps_same; intros ?; done : keeps.

Ltac keeps :=
  repeat match goal with
  | |- keeps (lift _ ≫= _) => apply keeps_lift_bind; intros ? ?
  | |- keeps (mbind _ (lift _)) => apply keeps_lift_bind; intros ? ?
  | |- keeps (_ ≫= _) => apply keeps_bind; [|intros ?]
  | |- keeps (if ?b then _ else _) => destruct b
  | |- keeps _ => solve [eauto with keeps]
  end.

Lemma keeps_stamped message now : keeps (stamped_snapshot message now).
Proof. unfold stamped_snapshot. keeps. Qed.
#[local] Hint Resolve keeps_stamped : keeps.

Lemma keeps_apply_body message now : keeps (apply_body message now).
Proof. unfold apply_body. keeps. Qed.

Lemma reducer_apply_consistent message now r :
  consistent r -> consistent (fst (reducer_apply message now r)).
Proof.
  intros (Hb & Ha & Hs). pose proof (keeps_apply_body message now r (conj Hb Ha)) as [Hb' Ha'].
  unfold reducer_apply. destruct (apply_body message now r) as [r' [x|e]] eqn:E; cbn [fst] in *.
  - split_and!; [done|done|]. intros Hav. apply apply_body_Ok in E. destruct x as [b|].
    + destruct E as [Hsnap _]. by eapply reducer_snapshot_now.
    + destruct E as [-> |[Hun _]]; [by apply Hs|congruence].
  - split_and!; done.
Qed.

(** ** Properties *)

(** C31: after any sequence of messages, malformed ones included, the sides map
    distinct positive prices to positive sizes, and a book that is available can
    be read at any time: it is well formed and carries the reducer's nonce. *)
Theorem reducer_run_consistent symbol index messages :
  consistent (reducer_run (reducer_init symbol index) messages).
Proof.
  assert (forall r, consistent r -> consistent (reducer_run r messages)) as H.
  { unfold reducer_run. induction messages as [|m ms IH]; intros r Hr; [done|]. cbn [fold_left].
    by apply IH, reducer_apply_consistent. }
  apply H. split_and!; [apply side_ok_nil..|done].
Qed.

(** A message that returns a book is a snapshot or an update that continues the
    reducer's nonce and raises it; the sizes of the book's sides are then those the
    message wrote over the empty sides or over the previous ones. *)
Theorem reducer_apply_writes message now r r' b :
  consistent r -> reducer_apply message now r = (r', Ok (Some b)) ->
  exists book bid_items ask_items next,
    json_get (u "order_book") message = JDict book /\
    json_get (u "bids") book = JList bid_items /\ json_get (u "asks") book = JList ask_items /\
    json_get (u "nonce") book = JInt next /\ rd_nonce r' = Some next /\ sequence b = Some next /\
    ((json_get (u "type") message = JStr (u "subscribed/order_book") /\
      forall q, size_at (rd_bids r') q = size_after bid_items (fun _ => None) q /\
                size_at (rd_asks r') q = size_after ask_items (fun _ => None) q) \/
     (json_get (u "type") message = JStr (u "update/order_book") /\ rd_unavailable r = false /\
      (exists begin, json_get (u "begin_nonce") book = JInt begin /\ rd_nonce r = Some begin /\ begin < next) /\
      forall q, size_at (rd_bids r') q = size_after bid_items (size_at (rd_bids r)) q /\
                size_at (rd_asks r') q = size_after ask_items (size_at (rd_asks r)) q)).
Proof.
  intros (Hb & Ha & _) H. unfold reducer_apply in H.
  destruct (apply_body message now r) as [r1 [x|e]] eqn:E; [|done]. injection H as <- ->.
  apply apply_body_Ok in E as (Hsnap & book & bi & ai & next & H1 & H2 & H3 & H4 & H5 & Hcase).
  exists book, bi, ai, next.
  assert (sequence b = Some next) as Hseq.
  { unfold reducer_snapshot in Hsnap. rewrite H5 in Hsnap.
    destruct (rd_unavailable r1), (rd_timestamp_ms r1); try done.
    apply bind_Ok in Hsnap as (? & _ & (? & _ & Hb')%bind_Ok). by apply order_book_init_Ok in Hb' as [-> _]. }
  split_and!; try done.
  destruct Hcase as [(Ht & Hbi & Hai)|(Ht & Hav & Hn & Hbi & Hai)]; [left|right]; split_and!; try done.
  - intros q. apply apply_items_Ok in Hbi as [_ ->], Hai as [_ ->]; [done|apply side_ok_nil..].
  - intros q. apply apply_items_Ok in Hbi as [_ ->], Hai as [_ ->]; done.
Qed.

(** A message that raises leaves the book unavailable; one that returns nothing
    leaves the reducer as it was or makes the book unavailable; and an unavailable
    book becomes available only by a snapshot message that is accepted. *)
Theorem reducer_apply_fails_closed message now r :
  let '(r', x) := reducer_apply message now r in
  match x with
  | Raise _ => rd_unavailable r' = true
  | Ok None => r' = r \/ rd_unavailable r' = true
  | Ok (Some b) => rd_unavailable r' = false /\ reducer_snapshot r' now = Ok b /\
      (rd_unavailable r = true -> json_get (u "type") message = JStr (u "subscribed/order_book"))
  end.
Proof.
  unfold reducer_apply. destruct (apply_body message now r) as [r' [x|e]] eqn:E; [|done].
  apply apply_body_Ok in E. destruct x as [b|].
  - destruct E as (Hsnap & book & bi & ai & next & _ & _ & _ & _ & _ & Hcase).
    assert (rd_unavailable r' = false) as Hav.
    { unfold reducer_snapshot in Hsnap. by destruct (rd_unavailable r'). }
    split_and!; try done. intros Hun. destruct Hcase as [(Ht & _)|(_ & Hav' & _)]; [done|congruence].
  - destruct E as [-> |[? _]]; [by left|by right].
Qed.

(** A snapshot, then an update that moves a price. *)
Definition demo_levels (p q : string) : json :=
  JList [JDict [(u "price", JStr (u p)); (u "size", JStr (u q))]].

Definition demo_message (kind : string) (begin next : Z) (bid ask : string) : list (pystr * json) :=
  [(u "channel", JStr (u "order_book:1")); (u "type", JStr (u kind)); (u "timestamp", JInt 5);
   (u "order_book", JDict [(u "begin_nonce", JInt begin); (u "nonce", JInt next);
     (u "bids", demo_levels bid "2"); (u "asks", demo_levels ask "1")])].

Definition demo_reducer : reducer :=
  reducer_run (reducer_init (u "BTC") 1) [(demo_message "subscribed/order_book" 0 7 "99" "101", 9)].

Lemma reducer_apply_writes_witness :
  exists b, snd (reducer_apply (demo_message "update/order_book" 7 8 "98.5" "101.0") 10 demo_reducer) = Ok (Some b) /\
    sequence b = Some 8.
Proof.
  assert (consistent demo_reducer) as Hc.
  { apply reducer_apply_consistent. split_and!; [apply side_ok_nil..|done]. }
  destruct (reducer_apply (demo_message "update/order_book" 7 8 "98.5" "101.0") 10 demo_reducer) as [r' x] eqn:E.
  assert (exists b, x = Ok (Some b)) as [b ->].
  { assert (match snd (reducer_apply (demo_message "update/order_book" 7 8 "98.5" "101.0") 10 demo_reducer) with
            | Ok (Some _) => true | _ => false end = true) as Hx by (vm_compute; reflexivity).
    rewrite E in Hx. cbn [snd] in Hx. destruct x as [[b|]|]; [by exists b|done|done]. }
  pose proof (reducer_apply_writes _ _ _ _ _ Hc E) as (book & bi & ai & next & H1 & _ & _ & H4 & _ & H6 & _).
  exists b. split; [reflexivity|]. rewrite H6. injection H1 as <-. by injection H4 as <-.
Defined.
