(* ===== verification/HyperliquidAdapter.v ===== *)
(** * [liqvera_public_capture.public_adapters.hyperliquid]: public discovery and books

    The adapter keeps the markets of its last successful discovery and maps one
    [l2Book] response to a book.  The transport and the reviewed mappings are
    injected: they are parameters here.  Proved here: a failed discovery changes
    nothing, discovered markets carry the venue's price rule, and a book is only
    returned for a discovered market and is well formed. *)

From S2P Require Import Prelude PyStr Num PyObj Json Market LighterAdapter.
From Stdlib Require Import QArith Qcanon.
Open Scope Z_scope.

Definition HYPERLIQUID_VENUE : pystr := u "HYPERLIQUID".

Record HyperliquidInstrumentMapping := mkHyperliquidMapping {
  hm_identity : InstrumentIdentity; hm_contract_multiplier : decimal;
  hm_displayed_size_unit : pystr; hm_min_notional : decimal; hm_equivalence_evidence : pystr }.

(** [HyperliquidInstrumentMapping(...)] with [__post_init__]. *)
Definition hyperliquid_mapping_init (identity : InstrumentIdentity) (multiplier : decimal)
    (size_unit : pystr) (min_notional : decimal) (evidence : pystr)
  : result HyperliquidInstrumentMapping :=
  bad ← dec_le multiplier dec_zero;
  raise_if bad ValueError "contract multiplier must be positive" ;;
  bad ← dec_le min_notional dec_zero;
  raise_if bad ValueError "minimum notional must be positive" ;;
  raise_if (str_eqb (str_strip size_unit) []) ValueError "displayed size unit is required" ;;
  raise_if (str_eqb (str_strip evidence) []) ValueError "equivalence evidence is required" ;;
  Ok (mkHyperliquidMapping identity multiplier size_unit min_notional evidence).

(** [_KnownMarket]: the asset index and the market. *)
Record hyperliquid_adapter := mkHyperliquidAdapter { ha_known : list (pystr * KnownMarket) }.

Definition hyperliquid_adapter_init : hyperliquid_adapter := mkHyperliquidAdapter [].

(** [_meta_and_contexts]: the entries of the universe. *)
Definition meta_and_contexts (response : json) : result (list (list (pystr * json)) * list json) :=
  outer ← array_field response;
  match outer with
  | [first; second] =>
    metadata ← object_field first;
    universe ← array_field (json_get (u "universe") metadata);
    contexts ← array_field second;
    raise_if (negb (length universe =? length contexts)%nat) ValueError
      "meta universe and asset contexts length mismatch" ;;
    entries ← mapR object_field universe;
    Ok (entries, contexts)
  | _ => raise ValueError "metaAndAssetCtxs must contain metadata and contexts"
  end.

(** One level; [_mapping(item, side)] is asked for twice. *)
Definition l2_level (item : json) : result BookLevel :=
  d ← object_field item;
  p ← decimal_field (json_get (u "px") d);
  q ← decimal_field (json_get (u "sz") d);
  book_level_init p q.

(** [_book_levels] *)
Definition l2_levels (raw : json) : result (list BookLevel) :=
  items ← array_field raw;
  levels ← mapR l2_level items;
  raise_if (match levels with [] => true | _ => false end) ValueError "side cannot be empty" ;;
  Ok levels.

Section hyperliquid_adapter.
Context (info_transport : json -> result json).
Context (mapping_for : pystr -> list (pystr * json) -> result (option HyperliquidInstrumentMapping)).

(** One turn of the loop over [enumerate(universe)]. *)
Definition discover_asset (s : Z * list (pystr * KnownMarket)) (metadata : list (pystr * json))
  : result (Z * list (pystr * KnownMarket)) :=
  let '(asset_index, known) := s in
  symbol ← string_field (json_get (u "name") metadata);
  sz_decimals ← integer_field (json_get (u "szDecimals") metadata);
  raise_if (negb ((0 <=? sz_decimals) && (sz_decimals <=? 6))) ValueError
    "Hyperliquid szDecimals is outside perp bounds" ;;
  mapping ← mapping_for symbol metadata;
  match mapping with
  | None => Ok (asset_index + 1, known)
  | Some mapping =>
    step ← scaleb_one sz_decimals;
    market ← venue_market_init HYPERLIQUID_VENUE symbol (hm_identity mapping)
      (ODecimal (hm_contract_multiplier mapping)) (OJson (JStr (hm_displayed_size_unit mapping)))
      (ODecimal step) (OJson JNull) (ODecimal (hm_min_notional mapping))
      (hm_equivalence_evidence mapping) (Some (6 - sz_decimals)) (Some 5) (OJson JNull);
    Ok (asset_index + 1, assoc_set symbol (mkKnown asset_index market) known)
  end.

(** [list_markets] *)
Definition hyperliquid_list_markets (a : hyperliquid_adapter)
  : hyperliquid_adapter * result (list VenueMarket) :=
  match (response ← info_transport (JDict [(u "type", JStr (u "metaAndAssetCtxs"))]);
         '(universe, contexts) ← meta_and_contexts response;
         foldM discover_asset (0, []) universe) with
  | Ok (_, known) => (mkHyperliquidAdapter known, Ok (map (fun x => km_market (snd x)) known))
  | Raise e => (a, Raise e)
  end.

(** [_require_market] *)
Definition hyperliquid_require_market (a : hyperliquid_adapter) (market : VenueMarket)
  : result KnownMarket :=
  raise_if (negb (str_eqb (vm_venue market) HYPERLIQUID_VENUE)) ValueError
    "market does not belong to Hyperliquid" ;;
  match assoc (vm_symbol market) (ha_known a) with
  | Some known =>
    raise_if (negb (market_eqb (km_market known) market)) ValueError
      "market was not discovered from current metadata" ;;
    Ok known
  | None => raise ValueError "market was not discovered from current metadata"
  end.

(** [order_book], at the clock's reading [now]. *)
Definition hyperliquid_order_book (a : hyperliquid_adapter) (market : VenueMarket) (now : Z)
  : result OrderBookSnapshot :=
  _ ← hyperliquid_require_market a market;
  response ← info_transport (JDict [(u "type", JStr (u "l2Book")); (u "coin", JStr (vm_symbol market))]);
  payload ← object_field response;
  coin ← string_field (json_get (u "coin") payload);
  raise_if (negb (str_eqb coin (vm_symbol market))) ValueError
    "l2Book coin does not match requested market" ;;
  timestamp ← integer_field (json_get (u "time") payload);
  levels ← array_field (json_get (u "levels") payload);
  match levels with
  | [bid_side; ask_side] =>
    bid_levels ← l2_levels bid_side;
    ask_levels ← l2_levels ask_side;
    order_book_init HYPERLIQUID_VENUE (vm_symbol market) None timestamp now bid_levels ask_levels
  | _ => raise ValueError "l2Book must contain bid and ask arrays"
  end.

(** ** Discovered markets *)

(** The rule every discovered market carries. *)
Definition hyperliquid_market (m : VenueMarket) : Prop :=
  vm_venue m = HYPERLIQUID_VENUE /\ vm_price_tick m = None /\
  exists d, 0 <= d <= 6 /\ vm_quantity_step m = DFin false 1 (- d) /\
    vm_price_decimals m = Some (6 - d) /\ vm_max_price_significant_digits m = Some 5.

Lemma venue_market_init_fields v s i mult un step tick notional ev dec dig mq m :
  venue_market_init v s i mult un step tick notional ev dec dig mq = Ok m ->
  vm_venue m = v /\ vm_symbol m = s /\ as_decimal step = Some (vm_quantity_step m) /\
  vm_price_decimals m = dec /\ vm_max_price_significant_digits m = dig /\
  (tick = OJson JNull -> vm_price_tick m = None).
Proof using.
  unfold venue_market_init. intros H. apply bind_Ok in H as (un' & _ & H). cbv zeta in H.
  apply bind_Ok in H as (values & Hv & H).
  do 3 apply bind_Ok in H as (? & _ & H). apply bind_Ok in H as (tk & Htk & H).
  do 4 apply bind_Ok in H as (? & _ & H). destruct values as [|m1 [|s1 [|n1 [|]]]]; try done.
  injection H as <-. cbn. split_and!; try done.
  - apply mapR_Ok in Hv. inversion Hv as [|? ? ? ? _ Hv']; subst. inversion Hv' as [|? ? ? ? Hs _]; subst.
    by apply expect_Ok in Hs.
  - intros ->. by injection Htk as <-.
Qed.

Lemma discover_asset_Ok s metadata s' :
  Forall (fun x => hyperliquid_market (km_market (snd x)) /\ vm_symbol (km_market (snd x)) = fst x) (snd s) ->
  discover_asset s metadata = Ok s' ->
  Forall (fun x => hyperliquid_market (km_market (snd x)) /\ vm_symbol (km_market (snd x)) = fst x) (snd s').
Proof using.
  destruct s as [n known]. cbn [snd]. intros Hk. unfold discover_asset. intros H.
  apply bind_Ok in H as (symbol & _ & (d & _ & (_ & Hd%raise_if_Ok & (mp & _ & H)%bind_Ok)%bind_Ok)%bind_Ok).
  apply negb_false_iff in Hd. reflect_bools. destruct mp as [mp|]; [|by injection H as <-].
  apply bind_Ok in H as (step & Hstep & (m & Hm & [= <-])%bind_Ok). cbn [snd].
  apply venue_market_init_fields in Hm as (Hv & Hs & Hq & Hpd & Hdig & Htick). cbn in Hq.
  apply Forall_forall. intros x [-> |Hx]%assoc_set_elem; [|exact (Forall_at _ _ _ Hk Hx)]. cbn [snd fst km_market].
  split; [|done]. split; [done|]. split; [by apply Htick|]. exists d. split; [lia|].
  unfold scaleb_one in Hstep. rewrite (proj2 (Z.ltb_ge _ _)), (proj2 (Z.leb_le d _)) in Hstep by lia.
  cbn in Hstep. split; [congruence|]. done.
Qed.

(** ** Properties *)

(** A discovery that raises leaves the known markets as they were; one that
    succeeds returns exactly the markets it will accept from then on, each of them
    a Hyperliquid market with its step and price decimals summing to six. *)
Theorem hyperliquid_list_markets_spec a :
  let '(a', x) := hyperliquid_list_markets a in
  match x with
  | Raise _ => a' = a
  | Ok markets => markets = map (fun x => km_market (snd x)) (ha_known a') /\
      Forall hyperliquid_market markets
  end.
Proof using.
  unfold hyperliquid_list_markets.
  destruct (info_transport _ ≫= _) as [[n known]|e] eqn:E; [|done]. split; [done|].
  apply bind_Ok in E as (response & _ & ([universe contexts] & _ & H)%bind_Ok).
  apply (foldM_invariant (fun s => Forall (fun x => hyperliquid_market (km_market (snd x)) /\
    vm_symbol (km_market (snd x)) = fst x) (snd s))) in H.
  - cbn [snd] in H. apply Forall_map. eapply Forall_impl; [exact H|]. by intros x [? _].
  - constructor.
  - intros s x s' _ Hs Hstep. by eapply discover_asset_Ok.
Qed.

(** A book is returned only for a market equal to the discovered one of its
    symbol, and it is a well-formed book of that symbol without a sequence. *)
Theorem hyperliquid_order_book_sound a market now :
  match hyperliquid_order_book a market now with
  | Raise _ => True
  | Ok b => vm_venue market = HYPERLIQUID_VENUE /\
      (exists known, assoc (vm_symbol market) (ha_known a) = Some known /\
        market_eqb (km_market known) market = true) /\
      ob_symbol b = vm_symbol market /\ ob_venue b = HYPERLIQUID_VENUE /\
      sequence b = None /\ received_timestamp_ms b = now /\ book_wf b
  end.
Proof using.
  destruct (hyperliquid_order_book a market now) as [b|] eqn:H; [|done].
  unfold hyperliquid_order_book in H. apply bind_Ok in H as (known & Hk & H).
  do 6 apply bind_Ok in H as (? & _ & H). destruct x4 as [|bid [|ask [|]]]; try done.
  apply bind_Ok in H as (bl & _ & (al & _ & H)%bind_Ok). apply order_book_init_Ok in H as [-> Hwf].
  unfold hyperliquid_require_market in Hk. apply bind_Ok in Hk as (_ & Hv%raise_if_Ok & Hk).
  apply negb_false_iff, str_eqb_spec in Hv. split; [done|]. split; [|done].
  destruct (assoc (vm_symbol market) (ha_known a)) as [known'|]; [|done].
  apply bind_Ok in Hk as (_ & Heq%raise_if_Ok & [= <-]). apply negb_false_iff in Heq. by exists known'.
Qed.
End hyperliquid_adapter.
