(* ===== verification/Provenance.v ===== *)
(** * [liqvera_contracts.provenance]: entry costs and reviewed market mappings

    The cost calculation takes evidence whose fields are unchecked values
    ([obj]); a mapping is built by a constructor that checks its fields.
    Proved here: costs are returned exactly for complete evidence and are the
    documented amounts, a constructed mapping is well formed, and a mapping is
    valid for a market exactly when it is approved, current and agrees on every
    reviewed field. *)

From S2P Require Import Prelude PyStr Num PyObj Exact Market.
From Stdlib Require Import QArith Qcanon.
Open Scope Z_scope.

(** ** Field checks *)

(** [33 <= ord(c) <= 126 and c != "\\"] *)
Definition printable_ascii (c : Z) : bool := (33 <=? c) && (c <=? 126) && negb (c =? 92).

Definition nonempty_ascii_text (s : pystr) : bool :=
  negb (str_eqb s []) && forallb printable_ascii s.

Definition sha256_text (s : pystr) : bool :=
  (length s =? 64)%nat && forallb (fun c => ((48 <=? c) && (c <=? 57)) || ((97 <=? c) && (c <=? 102))) s.

(** [_nonempty_ascii], [_is_timestamp], [_is_sha256] and [_nonnegative_decimal],
    each returning the checked value. *)
Definition nonempty_ascii (o : obj) : option pystr :=
  s ← as_str o; if nonempty_ascii_text s then Some s else None.

Definition timestamp (o : obj) : option Z :=
  z ← as_int o; if 0 <=? z then Some z else None.

Definition sha256_of (o : obj) : option pystr :=
  s ← as_str o; if sha256_text s then Some s else None.

Definition dec_nonneg (d : decimal) : bool :=
  match d with DFin neg c _ => negb neg || (c =? 0) | _ => false end.

Definition nonnegative_decimal (o : obj) : option decimal :=
  d ← as_decimal o; if dec_nonneg d then Some d else None.

Definition nonneg_fraction (o : obj) : option Qc :=
  q ← as_fraction o; if frac_ltb q 0 then None else Some q.

Definition check (b : bool) : option unit := if b then Some tt else None.

(** ** Entry costs *)

Record FeeEvidence := mkFee {
  fe_venue : obj; liquidity_role : obj; fee_rate_bps : obj; fee_currency : obj;
  fee_tier : obj; fee_scenario : obj; schedule_as_of_ms : obj; schedule_sha256 : obj;
  rounding_rule : obj; minimum_fee_quote : obj }.

Record CostComponent := mkCost {
  component_type : obj; amount_quote : obj; currency : obj;
  cc_model_version : obj; as_of_ms : obj; cc_evidence_sha256 : obj }.

Record EntryCostModel := mkCostModel {
  model_version : obj; buy_fee : FeeEvidence; sell_fee : FeeEvidence;
  additional_costs : list CostComponent }.

Record ExactEntryCosts := mkEntryCosts {
  buy_fee_quote : Qc; sell_fee_quote : Qc; additional_cost_quote : Qc }.

Definition SUPPORTED_ADDITIONAL_COST_COMPONENTS : list (pystr * pystr) :=
  [(u "GAS", u "documented-entry-cost/v1"); (u "ENTRY_STRESS", u "synthetic-entry-stress/v1")].

(** [type(x) is E and x is E.MEMBER] *)
Definition is_member (cls : string) (value : pystr) (o : obj) : bool :=
  match o with OEnum c v => String.eqb c cls && str_eqb v value | _ => false end.

Definition text_is (o : obj) (expected : pystr) : option unit :=
  s ← nonempty_ascii o; check (str_eqb s expected).

Definition decimal_fraction (d : decimal) : Qc :=
  match fraction_from_decimal d with Ok q => q | Raise _ => 0%Qc end.

Definition fee_cost (evidence : FeeEvidence) (venue quote_currency : pystr)
    (evaluated_at_ms : Z) (notional : Qc) : option Qc :=
  text_is (fe_venue evidence) venue ;;
  check (is_member "LiquidityRole" (u "TAKER") (liquidity_role evidence)) ;;
  text_is (fee_currency evidence) quote_currency ;;
  check (is_member "FeeRoundingRule" (u "EXACT_QUOTE") (rounding_rule evidence)) ;;
  rate ← nonnegative_decimal (fee_rate_bps evidence);
  minimum ← nonnegative_decimal (minimum_fee_quote evidence);
  _ ← nonempty_ascii (fee_tier evidence);
  _ ← nonempty_ascii (fee_scenario evidence);
  as_of ← timestamp (schedule_as_of_ms evidence);
  check (as_of <=? evaluated_at_ms) ;;
  _ ← sha256_of (schedule_sha256 evidence);
  let rate_fee := (notional * decimal_fraction rate / frac_of_Z 10000)%Qc in
  Some (frac_max rate_fee (decimal_fraction minimum)).

(** One turn of the loop of [_additional_cost]. *)
Definition component_cost (quote_currency : pystr) (evaluated_at_ms : Z) (c : CostComponent)
  : option Qc :=
  kind ← nonempty_ascii (component_type c);
  amount ← nonnegative_decimal (amount_quote c);
  text_is (currency c) quote_currency ;;
  version ← nonempty_ascii (cc_model_version c);
  check (bool_decide ((kind, version) ∈ SUPPORTED_ADDITIONAL_COST_COMPONENTS)) ;;
  as_of ← timestamp (as_of_ms c);
  check (as_of <=? evaluated_at_ms) ;;
  _ ← sha256_of (cc_evidence_sha256 c);
  Some (decimal_fraction amount).

Fixpoint additional_cost (components : list CostComponent) (quote_currency : pystr)
    (evaluated_at_ms : Z) (result : Qc) : option Qc :=
  match components with
  | [] => Some result
  | c :: components =>
    amount ← component_cost quote_currency evaluated_at_ms c;
    additional_cost components quote_currency evaluated_at_ms (result + amount)%Qc
  end.

Definition calculate_entry_costs (model : EntryCostModel)
    (evaluated_at_ms quote_currency buy_venue sell_venue buy_notional sell_notional : obj)
  : option ExactEntryCosts :=
  check (bool_decide (as_str (model_version model) = Some (u "displayed-taker-entry-cost/v1"))) ;;
  at_ms ← timestamp evaluated_at_ms;
  quote ← nonempty_ascii quote_currency;
  buy ← nonempty_ascii buy_venue;
  sell ← nonempty_ascii sell_venue;
  buy_amount ← nonneg_fraction buy_notional;
  sell_amount ← nonneg_fraction sell_notional;
  buy_cost ← fee_cost (buy_fee model) buy quote at_ms buy_amount;
  sell_cost ← fee_cost (sell_fee model) sell quote at_ms sell_amount;
  extra ← additional_cost (additional_costs model) quote at_ms 0%Qc;
  Some (mkEntryCosts buy_cost sell_cost extra).

(** ** Reviewed mappings *)

Inductive MappingDecision := APPROVED | REJECTED.

#[global] Instance MappingDecision_eq_dec : EqDecision MappingDecision.
Proof. solve_decision. Defined.

Record MarketMappingEvidence := mkMapping {
  mapping_id : pystr; mapping_version : pystr; decision : MappingDecision;
  mm_venue : pystr; mm_symbol : pystr; mm_identity : InstrumentIdentity;
  evidence_sha256 : pystr; evidence_reference : pystr;
  valid_from_ms : Z; valid_until_ms : option Z;
  reviewed_contract_multiplier : decimal; mm_displayed_size_unit : pystr;
  mm_quantity_step : decimal; mm_price_tick : option decimal;
  mm_price_decimals : option Z; mm_max_price_significant_digits : option Z;
  mm_min_quantity : option decimal; mm_min_notional : decimal;
  lighter_market_index : option Z }.

#[global] Instance MarketMappingEvidence_eq_dec : EqDecision MarketMappingEvidence.
Proof. solve_decision. Defined.

Definition require_printable_ascii (o : obj) : result pystr :=
  expect (nonempty_ascii o) ValueError "mapping text must be nonempty printable ASCII".

Definition require_sha256 (o : obj) : result pystr :=
  expect (sha256_of o) ValueError "evidence SHA-256 must be lowercase hexadecimal".

Definition require_timestamp (o : obj) : result Z :=
  expect (timestamp o) TypeError "timestamp must be an integer".

Definition require_positive_decimal (o : obj) : result decimal :=
  d ← expect (as_decimal o) TypeError "value must be Decimal";
  raise_if (negb (dec_is_finite d)) ValueError "Decimal value must be finite and positive" ;;
  nonpos ← dec_le d dec_zero;
  raise_if nonpos ValueError "Decimal value must be finite and positive" ;;
  Ok d.

(** [if value is not None: check] *)
Definition optional {A} (f : obj -> result A) (o : obj) : result (option A) :=
  if is_none o then Ok None else Some <$> f o.

Definition require_int (low : Z) (msg : string) (o : obj) : result Z :=
  expect (z ← as_int o; if z <? low then None else Some z) TypeError msg.

Definition require_lighter_index (o : obj) : result Z :=
  z ← expect (as_int o) TypeError "lighter_market_index must be an integer";
  raise_if (z <? 0) ValueError "lighter_market_index must be nonnegative" ;;
  Ok z.

(** [MarketMappingEvidence(...)] with [__post_init__]. *)
Definition mapping_init (id version : obj) (dec : MappingDecision) (venue symbol : obj)
    (identity : InstrumentIdentity) (sha reference from until multiplier size_unit step tick
     decimals digits min_qty notional lighter_index : obj) : result MarketMappingEvidence :=
  id ← require_printable_ascii id;
  version ← require_printable_ascii version;
  venue ← require_printable_ascii venue;
  symbol ← require_printable_ascii symbol;
  reference ← require_printable_ascii reference;
  size_unit ← require_printable_ascii size_unit;
  sha ← require_sha256 sha;
  from ← require_timestamp from;
  until ← optional (fun o =>
    z ← require_timestamp o;
    raise_if (z <? from) ValueError "validity interval is inconsistent" ;; Ok z) until;
  multiplier ← require_positive_decimal multiplier;
  step ← require_positive_decimal step;
  notional ← require_positive_decimal notional;
  tick ← optional require_positive_decimal tick;
  min_qty ← optional require_positive_decimal min_qty;
  decimals ← optional (require_int 0 "decimal places must be a nonnegative integer") decimals;
  digits ← optional (require_int 1 "significant digits must be a positive integer") digits;
  raise_if (negb (isSome tick || isSome decimals || isSome digits)) ValueError
    "mapping must define a price rule" ;;
  lighter_index ← optional require_lighter_index lighter_index;
  Ok (mkMapping id version dec venue symbol identity sha reference from until multiplier
        size_unit step tick decimals digits min_qty notional lighter_index).

(** [a and b] of two comparisons. *)
Definition and_then (a b : result bool) : result bool :=
  x ← a; match x with true => b | false => Ok false end.

(** [a == b] of two optional Decimals. *)
Definition opt_dec_eq (a b : option decimal) : result bool :=
  match a, b with
  | Some a, Some b => dec_eq a b
  | None, None => Ok true
  | _, _ => Ok false
  end.

(** [evaluated_at_ms < valid_from_ms], [> valid_until_ms]: outside the interval. *)
Definition is_current (m : MarketMappingEvidence) (at_ms : Z) : bool :=
  negb (at_ms <? valid_from_ms m) &&
  match valid_until_ms m with Some t => negb (t <? at_ms) | None => true end.

Definition valid_for (m : MarketMappingEvidence) (market : VenueMarket) (evaluated_at_ms : obj)
  : result bool :=
  match timestamp evaluated_at_ms with
  | None => Ok false
  | Some at_ms =>
    if bool_decide (decision m <> APPROVED) then Ok false
    else if negb (is_current m at_ms) then Ok false
    else
      and_then (Ok (str_eqb (mm_venue m) (vm_venue market) &&
                    str_eqb (mm_symbol m) (vm_symbol market) &&
                    bool_decide (mm_identity m = vm_identity market)))
      (and_then (dec_eq (reviewed_contract_multiplier m) (contract_multiplier market))
      (and_then (Ok (str_eqb (mm_displayed_size_unit m) (vm_displayed_size_unit market)))
      (and_then (dec_eq (mm_quantity_step m) (vm_quantity_step market))
      (and_then (opt_dec_eq (mm_price_tick m) (vm_price_tick market))
      (and_then (Ok (bool_decide (mm_price_decimals m = vm_price_decimals market) &&
                     bool_decide (mm_max_price_significant_digits m =
                                  vm_max_price_significant_digits market)))
      (and_then (opt_dec_eq (mm_min_quantity m) (vm_min_quantity market))
                (dec_eq (mm_min_notional m) (vm_min_notional market))))))))
  end.

(** [validate_mapping_pair]; an absent mapping is [None]. *)
Definition validate_mapping_pair (evaluated_at_ms : obj)
    (buy_market : VenueMarket) (buy_mapping : option MarketMappingEvidence)
    (sell_market : VenueMarket) (sell_mapping : option MarketMappingEvidence) : result bool :=
  match buy_mapping, sell_mapping with
  | Some b, Some s =>
    and_then (Ok (negb (str_eqb (mapping_id b) (mapping_id s))))
      (and_then (valid_for b buy_market evaluated_at_ms) (valid_for s sell_market evaluated_at_ms))
  | _, _ => Ok false
  end.

(** ** Specification of complete evidence *)

Definition is_text (o : obj) (s : pystr) : Prop :=
  o = OJson (JStr s) /\ nonempty_ascii_text s = true.
Definition is_sha256 (o : obj) : Prop :=
  exists s, o = OJson (JStr s) /\ sha256_text s = true.
Definition is_amount (o : obj) (d : decimal) : Prop :=
  o = ODecimal d /\ dec_nonneg d = true.
Definition is_time (o : obj) (t : Z) : Prop := o = OJson (JInt t) /\ 0 <= t.
Definition is_notional (o : obj) (q : Qc) : Prop := o = OFraction q /\ (0 <= q)%Qc.

Lemma as_str_Some o s : as_str o = Some s <-> o = OJson (JStr s).
Proof. split; [|by intros ->]. destruct o as [[]| | | |]; cbn; naive_solver. Qed.
Lemma as_int_Some o z : as_int o = Some z <-> o = OJson (JInt z).
Proof. split; [|by intros ->]. destruct o as [[]| | | |]; cbn; naive_solver. Qed.
Lemma as_decimal_Some o d : as_decimal o = Some d <-> o = ODecimal d.
Proof. split; [|by intros ->]. destruct o; cbn; naive_solver. Qed.

Lemma nonempty_ascii_Some o s : nonempty_ascii o = Some s <-> is_text o s.
Proof.
  unfold nonempty_ascii, is_text. rewrite bind_Some. setoid_rewrite as_str_Some.
  split; [intros (t & -> & H); destruct (nonempty_ascii_text t) eqn:E; naive_solver|].
  intros [-> H]. exists s. by rewrite H.
Qed.

Lemma text_is_Some o s x : text_is o s = Some x <-> is_text o s.
Proof.
  unfold text_is. rewrite bind_Some. setoid_rewrite nonempty_ascii_Some. unfold check. split.
  - intros (t & Ht & H). destruct (str_eqb t s) eqn:E; [|done]. by apply str_eqb_spec in E as ->.
  - intros H. exists s. rewrite str_eqb_refl. by destruct x.
Qed.

Lemma timestamp_Some o t : timestamp o = Some t <-> is_time o t.
Proof.
  unfold timestamp, is_time. rewrite bind_Some. setoid_rewrite as_int_Some. split.
  - intros (z & -> & H). destruct (0 <=? z) eqn:E; reflect_bools; naive_solver.
  - intros [-> H]. exists t. by rewrite (proj2 (Z.leb_le _ _) H).
Qed.

Lemma sha256_of_Some o s :
  sha256_of o = Some s <-> o = OJson (JStr s) /\ sha256_text s = true.
Proof.
  unfold sha256_of. rewrite bind_Some. setoid_rewrite as_str_Some. split.
  - intros (t & -> & H). destruct (sha256_text t) eqn:E; naive_solver.
  - intros [-> H]. exists s. by rewrite H.
Qed.

Lemma nonnegative_decimal_Some o d : nonnegative_decimal o = Some d <-> is_amount o d.
Proof.
  unfold nonnegative_decimal, is_amount. rewrite bind_Some. setoid_rewrite as_decimal_Some. split.
  - intros (t & -> & H). destruct (dec_nonneg t) eqn:E; naive_solver.
  - intros [-> H]. exists d. by rewrite H.
Qed.

Lemma nonneg_fraction_Some o q : nonneg_fraction o = Some q <-> is_notional o q.
Proof.
  unfold nonneg_fraction, is_notional, frac_ltb. rewrite bind_Some. split.
  - intros (t & Ht & H). destruct o; cbn in Ht; simplify_eq. case_bool_decide; simplify_eq.
    split; [done|]. by apply Qcnot_lt_le.
  - intros [-> H]. exists q. split; [done|]. rewrite bool_decide_false; [done|]. by apply Qcle_not_lt.
Qed.

Lemma check_Some b x : check b = Some x <-> b = true.
Proof. destruct b, x; cbn; naive_solver. Qed.

Lemma is_member_spec cls v o : is_member cls v o = true <-> o = OEnum cls v.
Proof.
  destruct o; cbn; try (split; [done|by intros [=]]).
  rewrite andb_true_iff, String.eqb_eq, str_eqb_spec. naive_solver.
Qed.

(** A taker fee documented in the quote currency, no later than the evaluation. *)
Record fee_documented (e : FeeEvidence) (venue quote : pystr) (at_ms : Z) (rate minimum : decimal)
  : Prop := {
  fd_venue : is_text (fe_venue e) venue;
  fd_role : liquidity_role e = OEnum "LiquidityRole" (u "TAKER");
  fd_currency : is_text (fee_currency e) quote;
  fd_rounding : rounding_rule e = OEnum "FeeRoundingRule" (u "EXACT_QUOTE");
  fd_rate : is_amount (fee_rate_bps e) rate;
  fd_minimum : is_amount (minimum_fee_quote e) minimum;
  fd_tier : exists s, is_text (fee_tier e) s;
  fd_scenario : exists s, is_text (fee_scenario e) s;
  fd_schedule : exists t, is_time (schedule_as_of_ms e) t /\ t <= at_ms;
  fd_sha256 : is_sha256 (schedule_sha256 e) }.

Definition fee_amount (rate minimum : decimal) (notional : Qc) : Qc :=
  frac_max (notional * decimal_fraction rate / frac_of_Z 10000)%Qc (decimal_fraction minimum).

Record cost_documented (c : CostComponent) (quote : pystr) (at_ms : Z) (amount : decimal) : Prop := {
  cd_kind : exists kind version, is_text (component_type c) kind /\
    is_text (cc_model_version c) version /\
    (kind, version) ∈ SUPPORTED_ADDITIONAL_COST_COMPONENTS;
  cd_amount : is_amount (amount_quote c) amount;
  cd_currency : is_text (currency c) quote;
  cd_as_of : exists t, is_time (as_of_ms c) t /\ t <= at_ms;
  cd_sha256 : is_sha256 (cc_evidence_sha256 c) }.

#[local] Opaque nonempty_ascii text_is timestamp sha256_of nonnegative_decimal nonneg_fraction check.

Ltac evidence := repeat (setoid_rewrite bind_Some || setoid_rewrite text_is_Some
  || setoid_rewrite timestamp_Some || setoid_rewrite sha256_of_Some
  || setoid_rewrite nonempty_ascii_Some || setoid_rewrite nonnegative_decimal_Some
  || setoid_rewrite nonneg_fraction_Some || setoid_rewrite check_Some
  || setoid_rewrite is_member_spec || setoid_rewrite Z.leb_le
  || setoid_rewrite bool_decide_eq_true).

Lemma fee_cost_Some e venue quote at_ms notional q :
  fee_cost e venue quote at_ms notional = Some q <->
  exists rate minimum, fee_documented e venue quote at_ms rate minimum /\
    q = fee_amount rate minimum notional.
Proof.
  unfold fee_cost. evidence. split.
  - intros (_ & H1 & _ & H2 & _ & H3 & _ & H4 & rate & H5 & minimum & H6 & t & H7 & s & H8 & at' &
      H9 & _ & H10 & h & H11 & [= <-]).
    exists rate, minimum. split; [|done]. split; eauto. by exists h.
  - intros (rate & minimum & [H1 H2 H3 H4 H5 H6 [t H7] [s H8] (at' & H9 & H10) (h & H11)] & ->).
    exists tt. split; [done|]. exists tt. split; [done|]. exists tt. split; [done|].
    exists tt. split; [done|]. exists rate. split; [done|]. exists minimum. split; [done|].
    exists t. split; [done|]. exists s. split; [done|]. exists at'. split; [done|].
    exists tt. split; [done|]. by exists h.
Qed.

Lemma component_cost_Some c quote at_ms q :
  component_cost quote at_ms c = Some q <->
  exists amount, cost_documented c quote at_ms amount /\ q = decimal_fraction amount.
Proof.
  unfold component_cost. evidence. split.
  - intros (k & H1 & a & H2 & _ & H3 & v & H4 & _ & H5 & t & H6 & _ & H7 & h & H8 & [= <-]).
    exists a. split; [|done]. split; eauto. by exists h.
  - intros (a & [(k & v & H1 & H2 & H3) H4 H5 (t & H6 & H7) (h & H8)] & ->).
    exists k. split; [done|]. exists a. split; [done|]. exists tt. split; [done|].
    exists v. split; [done|]. exists tt. split; [done|]. exists t. split; [done|].
    exists tt. split; [done|]. by exists h.
Qed.

#[local] Opaque fee_cost component_cost.

Lemma additional_cost_Some cs quote at_ms acc q :
  additional_cost cs quote at_ms acc = Some q <->
  exists amounts, Forall2 (fun c a => cost_documented c quote at_ms a) cs amounts /\
    q = (acc + sum_fractions (map decimal_fraction amounts))%Qc.
Proof.
  revert acc; induction cs as [|c cs IH]; intros acc; cbn [additional_cost].
  - split.
    + intros [= <-]. exists []. split; [constructor|]. cbn. by rewrite Qcplus_0_r.
    + intros (l & H & ->). inversion H; subst. cbn. by rewrite Qcplus_0_r.
  - rewrite bind_Some. setoid_rewrite component_cost_Some. setoid_rewrite IH. split.
    + intros (x & (a & Ha & ->) & l & Hl & ->). exists (a :: l). split; [by constructor|].
      unfold sum_fractions. cbn [map foldr]. ring.
    + intros (l & H & ->). inversion H as [|? a ? l' Ha Hl]; subst.
      exists (decimal_fraction a). split; [eauto|]. exists l'. split; [done|]. unfold sum_fractions. cbn [map foldr]. ring.
Qed.

Lemma fraction_from_decimal_Ok neg c e :
  0 <= c -> fraction_from_decimal (DFin neg c e) = Ok (dec_value (DFin neg c e)).
Proof.
  intros Hc. unfold fraction_from_decimal, dec_value, scale10, signed.
  change (fold_left _ (digits 10 c) 0) with (of_digits 10 (digits 10 c)).
  rewrite of_digits_digits by lia. destruct (0 <=? e) eqn:E; [done|]. reflect_bools.
  assert (0 < 10 ^ (- e)) as Hp by lia. by destruct (10 ^ (- e)).
Qed.

#[local] Opaque additional_cost.

(** ** Properties of the entry costs *)

(** Costs are returned exactly when the model version, the evaluation time,
    the venues, the notionals and every piece of fee and cost evidence are
    complete; they are then the documented amounts: per leg the larger of the
    proportional fee and the minimum fee, and the sum of the other components. *)
Theorem calculate_entry_costs_complete model at_ms quote bv sv bn sn costs :
  calculate_entry_costs model at_ms quote bv sv bn sn = Some costs <->
  exists t q b s nb ns rb mb rs ms amounts,
    model_version model = OJson (JStr (u "displayed-taker-entry-cost/v1")) /\
    is_time at_ms t /\ is_text quote q /\ is_text bv b /\ is_text sv s /\
    is_notional bn nb /\ is_notional sn ns /\
    fee_documented (buy_fee model) b q t rb mb /\ fee_documented (sell_fee model) s q t rs ms /\
    Forall2 (fun c a => cost_documented c q t a) (additional_costs model) amounts /\
    costs = mkEntryCosts (fee_amount rb mb nb) (fee_amount rs ms ns)
              (sum_fractions (map decimal_fraction amounts)).
Proof.
  unfold calculate_entry_costs. evidence. setoid_rewrite as_str_Some.
  setoid_rewrite fee_cost_Some. setoid_rewrite additional_cost_Some.
  setoid_rewrite Qcplus_0_l. split.
  - intros (_ & H1 & t & H2 & q & H3 & b & H4 & s & H5 & nb & H6 & ns & H7 & ? &
      (rb & mb & H8 & ->) & ? & (rs & ms & H9 & ->) & ? & (amounts & H10 & ->) & [= <-]).
    by exists t, q, b, s, nb, ns, rb, mb, rs, ms, amounts.
  - intros (t & q & b & s & nb & ns & rb & mb & rs & ms & amounts & H1 & H2 & H3 & H4 & H5 & H6 &
      H7 & H8 & H9 & H10 & ->).
    exists tt. split; [done|]. exists t. split; [done|]. exists q. split; [done|].
    exists b. split; [done|]. exists s. split; [done|]. exists nb. split; [done|].
    exists ns. split; [done|]. eexists. split; [by exists rb, mb|].
    eexists. split; [by exists rs, ms|]. eexists. split; [by exists amounts|done].
Qed.

#[local] Transparent nonempty_ascii text_is timestamp sha256_of nonnegative_decimal nonneg_fraction check
  fee_cost component_cost additional_cost.

(** ** Well-formed mappings *)

Definition positive_decimal (d : decimal) : Prop :=
  dec_is_finite d = true /\ dec_less dec_zero d.

Definition on_option {A} (P : A -> Prop) (o : option A) : Prop :=
  match o with Some a => P a | None => True end.

Record mapping_wf (m : MarketMappingEvidence) : Prop := {
  mw_texts : Forall (fun s => nonempty_ascii_text s = true)
    [mapping_id m; mapping_version m; mm_venue m; mm_symbol m; evidence_reference m;
     mm_displayed_size_unit m];
  mw_sha256 : sha256_text (evidence_sha256 m) = true;
  mw_interval : 0 <= valid_from_ms m /\ on_option (fun t => valid_from_ms m <= t) (valid_until_ms m);
  mw_decimals : Forall positive_decimal
    [reviewed_contract_multiplier m; mm_quantity_step m; mm_min_notional m];
  mw_optional_decimals : on_option positive_decimal (mm_price_tick m) /\
    on_option positive_decimal (mm_min_quantity m);
  mw_price_rule : mm_price_tick m <> None \/ mm_price_decimals m <> None \/
    mm_max_price_significant_digits m <> None;
  mw_counts : on_option (Z.le 0) (mm_price_decimals m) /\
    on_option (Z.le 1) (mm_max_price_significant_digits m) /\
    on_option (Z.le 0) (lighter_market_index m) }.

Lemma require_printable_ascii_Ok o s :
  require_printable_ascii o = Ok s -> nonempty_ascii_text s = true.
Proof. unfold require_printable_ascii. rewrite expect_Ok, nonempty_ascii_Some. by intros []. Qed.

Lemma require_positive_decimal_Ok o d : require_positive_decimal o = Ok d -> positive_decimal d.
Proof.
  unfold require_positive_decimal, positive_decimal. intros H. inv_ok. split; [done|].
  by apply dec_le_false.
Qed.

Lemma optional_Ok {A} (P : A -> Prop) (f : obj -> result A) o a :
  (forall o a, f o = Ok a -> P a) -> optional f o = Ok a -> on_option P a.
Proof.
  intros Hf. unfold optional. destruct (is_none o); [by intros [= <-]|].
  intros (b & Hb & ->)%fmap_Ok. cbn. by eapply Hf.
Qed.

Lemma require_int_Ok low msg o z : require_int low msg o = Ok z -> low <= z.
Proof.
  unfold require_int. rewrite expect_Ok, bind_Some. intros (x & _ & H).
  destruct (x <? low) eqn:E; reflect_bools; naive_solver.
Qed.

Lemma require_lighter_index_Ok o z : require_lighter_index o = Ok z -> 0 <= z.
Proof. unfold require_lighter_index. intros H. inv_ok. by reflect_bools. Qed.

Create HintDb mapping.
#[export] Hint Resolve require_printable_ascii_Ok require_positive_decimal_Ok require_int_Ok
  require_lighter_index_Ok : mapping.

Lemma mapping_init_Ok id version dec venue symbol identity sha reference from until multiplier
    size_unit step tick decimals digits min_qty notional lighter_index m :
  mapping_init id version dec venue symbol identity sha reference from until multiplier
    size_unit step tick decimals digits min_qty notional lighter_index = Ok m ->
  mapping_wf m.
Proof.
  unfold mapping_init. intros H.
  repeat (apply bind_Ok in H as (? & ? & H)). injection H as <-.
  repeat match goal with
  | H : require_timestamp _ = Ok _ |- _ =>
    unfold require_timestamp in H; apply expect_Ok, timestamp_Some in H as [_ H]
  | H : require_sha256 _ = Ok _ |- _ =>
    unfold require_sha256 in H; apply expect_Ok, sha256_of_Some in H as [_ H]
  end.
  rename select (raise_if _ _ _ = _) into Hrule. apply raise_if_Ok in Hrule.
  split; cbn; try done.
  - repeat apply Forall_cons_2; eauto using Forall_nil_2 with mapping.
  - split; [done|]. eapply optional_Ok; [|done]. cbn. intros o t Ht. inv_ok. by reflect_bools.
  - repeat apply Forall_cons_2; eauto using Forall_nil_2 with mapping.
  - split; (eapply optional_Ok; [|done]); eauto with mapping.
  - apply negb_false_iff in Hrule. rewrite !orb_true_iff in Hrule.
    destruct Hrule as [[Hs|Hs]|Hs]; [left|right; left|right; right]; intros Hn; by rewrite Hn in Hs.
  - split_and!; (eapply optional_Ok; [|done]); eauto with mapping.
Qed.

(** ** Validity of a mapping for a market *)

(** Numeric equality, as [Decimal.__eq__] decides it. *)
Definition dec_same (a b : decimal) : Prop := dec_eq a b = Ok true.
Definition opt_dec_same (a b : option decimal) : Prop := opt_dec_eq a b = Ok true.

Record covers (m : MarketMappingEvidence) (k : VenueMarket) : Prop := {
  cv_venue : mm_venue m = vm_venue k;
  cv_symbol : mm_symbol m = vm_symbol k;
  cv_identity : mm_identity m = vm_identity k;
  cv_multiplier : dec_same (reviewed_contract_multiplier m) (contract_multiplier k);
  cv_unit : mm_displayed_size_unit m = vm_displayed_size_unit k;
  cv_step : dec_same (mm_quantity_step m) (vm_quantity_step k);
  cv_tick : opt_dec_same (mm_price_tick m) (vm_price_tick k);
  cv_decimals : mm_price_decimals m = vm_price_decimals k;
  cv_digits : mm_max_price_significant_digits m = vm_max_price_significant_digits k;
  cv_min_quantity : opt_dec_same (mm_min_quantity m) (vm_min_quantity k);
  cv_min_notional : dec_same (mm_min_notional m) (vm_min_notional k) }.

Definition current_at (m : MarketMappingEvidence) (t : Z) : Prop :=
  valid_from_ms m <= t /\ on_option (fun until => t <= until) (valid_until_ms m).

Lemma is_current_spec m t : is_current m t = true <-> current_at m t.
Proof.
  unfold is_current, current_at. rewrite andb_true_iff, negb_true_iff, Z.ltb_ge.
  destruct (valid_until_ms m); cbn; rewrite ?negb_true_iff, ?Z.ltb_ge; tauto.
Qed.

Lemma and_then_true a b : and_then a b = Ok true <-> a = Ok true /\ b = Ok true.
Proof.
  unfold and_then. destruct a as [[]|]; cbn; split; try done; try (by intros [? ?]); by intros.
Qed.

Lemma Ok_true (b : bool) : Ok b = Ok true <-> b = true.
Proof. split; [by intros [= ->]|by intros ->]. Qed.

(** A mapping is valid for a market at a time exactly when it is approved, the time
    lies in its validity interval, and the market agrees with it on every reviewed
    field. *)
Definition reviewed_for (m : MarketMappingEvidence) (k : VenueMarket) (t : Z) : Prop :=
  decision m = APPROVED /\ current_at m t /\ covers m k.

Lemma valid_for_spec m k at_ms :
  valid_for m k at_ms = Ok true <-> exists t, is_time at_ms t /\ reviewed_for m k t.
Proof.
  unfold reviewed_for. setoid_rewrite <- timestamp_Some. setoid_rewrite <- is_current_spec.
  unfold valid_for.
  destruct (timestamp at_ms) as [t|]; [|naive_solver].
  case_bool_decide as Ha; [naive_solver|].
  destruct (is_current m t) eqn:Hc; cbn [negb].
  2: { split; [done|]. intros (t' & [= <-] & _ & Hcur & _). congruence. }
  rewrite !and_then_true, !Ok_true, !andb_true_iff, !str_eqb_spec, !bool_decide_eq_true.
  split.
  - intros. exists t. split_and!; try done. destruct_and!. by split.
  - intros (t' & Ht & _ & _ & []). by split_and!.
Qed.

(** A pair is admitted exactly when both mappings are present, their ids
    differ, and each is approved, in force at the evaluation time and in agreement with
    its market on every reviewed field. *)
Theorem validate_mapping_pair_spec at_ms bk bm sk sm :
  validate_mapping_pair at_ms bk bm sk sm = Ok true <->
  exists b s t, bm = Some b /\ sm = Some s /\ mapping_id b <> mapping_id s /\
    is_time at_ms t /\ reviewed_for b bk t /\ reviewed_for s sk t.
Proof.
  unfold validate_mapping_pair. destruct bm as [b|], sm as [s|]; try naive_solver.
  rewrite !and_then_true, Ok_true, negb_true_iff, str_eqb_false, !valid_for_spec. split.
  - intros (Hd & (t & Ht & Hb) & (t' & Ht' & Hs)). exists b, s, t.
    unfold is_time in *. destruct_and!. assert (t' = t) as -> by congruence. done.
  - intros (b' & s' & t & [= <-] & [= <-] & ?). naive_solver.
Qed.
