(* ===== verification/Decision.v ===== *)
(** * [liqvera_contracts.decision] and [liqvera_contracts.reasons]

    The closed decision and reason codes of Stage A and the constructor of
    [StageADecision], which normalises its reasons.  Proved here: which calls
    succeed, and that the stored reasons are the given ones, in the order of the
    enumeration, without repetition and all of the decision's class. *)

From stdpp Require sorting.
From S2P Require Import Prelude PyStr PyObj Json Bytes.
Open Scope Z_scope.

Definition STAGE_A_DECISION_SCHEMA : pystr := u "liqvera-stage-a-decision/v1".
Definition STAGE_A_PACKAGE_SCHEMA : pystr := u "liqvera-readonly-frozen-package/v1".

Inductive StageADecisionCode :=
  | INVALID_DATASET | INSUFFICIENT_EVIDENCE | STOP | EXTEND_LONGER_SHADOW.

#[global] Instance StageADecisionCode_eq_dec : EqDecision StageADecisionCode.
Proof. solve_decision. Defined.

Definition decision_value (d : StageADecisionCode) : pystr :=
  match d with
  | INVALID_DATASET => u "INVALID_DATASET"
  | INSUFFICIENT_EVIDENCE => u "INSUFFICIENT_EVIDENCE"
  | STOP => u "STOP"
  | EXTEND_LONGER_SHADOW => u "EXTEND_LONGER_SHADOW"
  end.

Inductive StageAReasonCode :=
  | INVALID_MEMBER_SET_MISMATCH | INVALID_MEMBER_HASH_MISMATCH | INVALID_MANIFEST
  | INVALID_RECORD | INVALID_SYMLINK | INVALID_UNSUPPORTED_VERSION | INVALID_PATH
  | INSUFFICIENT_ACQUISITION_WINDOW | INSUFFICIENT_COMPLETE_UTC_DAYS
  | INSUFFICIENT_STRICT_HEALTHY_MINUTES | INSUFFICIENT_INDEPENDENT_EPISODES
  | STOP_TOTAL_NET_NON_POSITIVE | STOP_MEDIAN_NET_NON_POSITIVE
  | STOP_USD_1000_NET_NON_POSITIVE | STOP_USD_5000_NET_NEGATIVE
  | STOP_DELAY_300MS_NOT_SURVIVED | STOP_DELAY_500MS_NOT_SURVIVED
  | STOP_FEE_CASE_NOT_SURVIVED | STOP_CONCENTRATION_NOT_BELOW_25_PERCENT
  | EXTEND_ALL_V2_GATES_PASS.

#[global] Instance StageAReasonCode_eq_dec : EqDecision StageAReasonCode.
Proof. solve_decision. Defined.

(** The members in the order of the class body. *)
Definition all_reasons : list StageAReasonCode :=
  [INVALID_MEMBER_SET_MISMATCH; INVALID_MEMBER_HASH_MISMATCH; INVALID_MANIFEST;
   INVALID_RECORD; INVALID_SYMLINK; INVALID_UNSUPPORTED_VERSION; INVALID_PATH;
   INSUFFICIENT_ACQUISITION_WINDOW; INSUFFICIENT_COMPLETE_UTC_DAYS;
   INSUFFICIENT_STRICT_HEALTHY_MINUTES; INSUFFICIENT_INDEPENDENT_EPISODES;
   STOP_TOTAL_NET_NON_POSITIVE; STOP_MEDIAN_NET_NON_POSITIVE;
   STOP_USD_1000_NET_NON_POSITIVE; STOP_USD_5000_NET_NEGATIVE;
   STOP_DELAY_300MS_NOT_SURVIVED; STOP_DELAY_500MS_NOT_SURVIVED;
   STOP_FEE_CASE_NOT_SURVIVED; STOP_CONCENTRATION_NOT_BELOW_25_PERCENT;
   EXTEND_ALL_V2_GATES_PASS].

Definition reason_value (r : StageAReasonCode) : pystr :=
  match r with
  | INVALID_MEMBER_SET_MISMATCH => u "INVALID_MEMBER_SET_MISMATCH"
  | INVALID_MEMBER_HASH_MISMATCH => u "INVALID_MEMBER_HASH_MISMATCH"
  | INVALID_MANIFEST => u "INVALID_MANIFEST"
  | INVALID_RECORD => u "INVALID_RECORD"
  | INVALID_SYMLINK => u "INVALID_SYMLINK"
  | INVALID_UNSUPPORTED_VERSION => u "INVALID_UNSUPPORTED_VERSION"
  | INVALID_PATH => u "INVALID_PATH"
  | INSUFFICIENT_ACQUISITION_WINDOW => u "INSUFFICIENT_ACQUISITION_WINDOW"
  | INSUFFICIENT_COMPLETE_UTC_DAYS => u "INSUFFICIENT_COMPLETE_UTC_DAYS"
  | INSUFFICIENT_STRICT_HEALTHY_MINUTES => u "INSUFFICIENT_STRICT_HEALTHY_MINUTES"
  | INSUFFICIENT_INDEPENDENT_EPISODES => u "INSUFFICIENT_INDEPENDENT_EPISODES"
  | STOP_TOTAL_NET_NON_POSITIVE => u "STOP_TOTAL_NET_NON_POSITIVE"
  | STOP_MEDIAN_NET_NON_POSITIVE => u "STOP_MEDIAN_NET_NON_POSITIVE"
  | STOP_USD_1000_NET_NON_POSITIVE => u "STOP_USD_1000_NET_NON_POSITIVE"
  | STOP_USD_5000_NET_NEGATIVE => u "STOP_USD_5000_NET_NEGATIVE"
  | STOP_DELAY_300MS_NOT_SURVIVED => u "STOP_DELAY_300MS_NOT_SURVIVED"
  | STOP_DELAY_500MS_NOT_SURVIVED => u "STOP_DELAY_500MS_NOT_SURVIVED"
  | STOP_FEE_CASE_NOT_SURVIVED => u "STOP_FEE_CASE_NOT_SURVIVED"
  | STOP_CONCENTRATION_NOT_BELOW_25_PERCENT => u "STOP_CONCENTRATION_NOT_BELOW_25_PERCENT"
  | EXTEND_ALL_V2_GATES_PASS => u "EXTEND_ALL_V2_GATES_PASS"
  end.

(** [_REASON_INDEX]: the position among the members. *)
Fixpoint index_of {A} `{EqDecision A} (x : A) (l : list A) : nat :=
  match l with
  | [] => 0%nat
  | y :: l => if decide (x = y) then 0%nat else S (index_of x l)
  end.

Definition reason_index (r : StageAReasonCode) : nat := index_of r all_reasons.

(** [_DECISION_CLASS] *)
Definition decision_class (d : StageADecisionCode) : pystr :=
  match d with
  | INVALID_DATASET => u "INVALID"
  | INSUFFICIENT_EVIDENCE => u "INSUFFICIENT"
  | STOP => u "STOP"
  | EXTEND_LONGER_SHADOW => u "EXTEND"
  end.

Definition class_prefixes : list pystr := [u "INVALID_"; u "INSUFFICIENT_"; u "STOP_"; u "EXTEND_"].

(** [_reason_class]: the first prefix of the value, without its underscore. *)
Definition reason_class (r : StageAReasonCode) : result pystr :=
  match List.find (fun p => str_startswith p (reason_value r)) class_prefixes with
  | Some p => Ok (take (length p - 1) p)
  | None => raise ValueError "reason has no class prefix"
  end.

Record StageADecision := mkDecision {
  sd_decision : StageADecisionCode; reasons : list StageAReasonCode;
  capture_run_id : option uuid; schema : pystr; package_schema : pystr }.

#[global] Instance StageADecision_eq_dec : EqDecision StageADecision.
Proof. solve_decision. Defined.

Definition sort_reasons (rs : list StageAReasonCode) : list StageAReasonCode :=
  py_sorted (fun a b => (reason_index a <=? reason_index b)%nat) (remove_dups rs).

(** [StageADecision(...)] with [__post_init__]; enumeration and UUID arguments
    have their types. *)
Definition stage_a_decision_init (d : StageADecisionCode) (rs : list StageAReasonCode)
    (run : option uuid) (schema package_schema : pystr) : result StageADecision :=
  raise_if (match rs with [] => true | _ => false end) ValueError
    "reasons must be a nonempty tuple" ;;
  classes ← mapR reason_class rs;
  match remove_dups classes with
  | [c] =>
    raise_if (negb (str_eqb c (decision_class d))) ValueError "reasons must belong to one class" ;;
    raise_if (negb (str_eqb schema STAGE_A_DECISION_SCHEMA)) ValueError
      "schema must be liqvera-stage-a-decision/v1" ;;
    raise_if (negb (str_eqb package_schema STAGE_A_PACKAGE_SCHEMA)) ValueError
      "package_schema must be liqvera-readonly-frozen-package/v1" ;;
    Ok (mkDecision d (sort_reasons rs) run schema package_schema)
  | _ => raise ValueError "reasons must belong to one class"
  end.

(** With the default schemas. *)
Definition make_decision (d : StageADecisionCode) (rs : list StageAReasonCode) (run : option uuid)
  : result StageADecision :=
  stage_a_decision_init d rs run STAGE_A_DECISION_SCHEMA STAGE_A_PACKAGE_SCHEMA.

(** The document of [to_canonical_json]. *)
Definition decision_document (d : StageADecision) : json :=
  JDict [(u "capture_run_id", match capture_run_id d with
                              | None => JNull | Some n => JStr (uuid_str n) end);
         (u "decision", JStr (decision_value (sd_decision d)));
         (u "package_schema", JStr (package_schema d));
         (u "reasons", JList (map (fun r => JStr (reason_value r)) (reasons d)));
         (u "schema", JStr (schema d))].

Definition decision_to_canonical_json (d : StageADecision) : result bytes :=
  canonical_json_bytes (decision_document d).

(** [ShadowRejectCode] of [liqvera_contracts.reasons], in [SHADOW_REASON_ORDER]. *)
Inductive ShadowRejectCode :=
  | MARKET_MAPPING_REJECTED | UNSUPPORTED_PAYOFF | COST_MODEL_INCOMPLETE | TARGET_OVERSHOOT
  | QUANTITY_UNSUPPORTED | DEPTH_INSUFFICIENT | NON_POSITIVE_AFTER_COSTS.

Definition SHADOW_REASON_ORDER : list ShadowRejectCode :=
  [MARKET_MAPPING_REJECTED; UNSUPPORTED_PAYOFF; COST_MODEL_INCOMPLETE; TARGET_OVERSHOOT;
   QUANTITY_UNSUPPORTED; DEPTH_INSUFFICIENT; NON_POSITIVE_AFTER_COSTS].

(** ** Lemmas *)

(** The class of a reason, by its constructor. *)
Definition class_of (r : StageAReasonCode) : StageADecisionCode :=
  match r with
  | INVALID_MEMBER_SET_MISMATCH | INVALID_MEMBER_HASH_MISMATCH | INVALID_MANIFEST
  | INVALID_RECORD | INVALID_SYMLINK | INVALID_UNSUPPORTED_VERSION | INVALID_PATH => INVALID_DATASET
  | INSUFFICIENT_ACQUISITION_WINDOW | INSUFFICIENT_COMPLETE_UTC_DAYS
  | INSUFFICIENT_STRICT_HEALTHY_MINUTES | INSUFFICIENT_INDEPENDENT_EPISODES => INSUFFICIENT_EVIDENCE
  | EXTEND_ALL_V2_GATES_PASS => EXTEND_LONGER_SHADOW
  | _ => STOP
  end.

Lemma reason_class_Ok r : reason_class r = Ok (decision_class (class_of r)).
Proof. by destruct r. Qed.

Lemma decision_class_inj d e : decision_class d = decision_class e -> d = e.
Proof. by destruct d, e. Qed.

Lemma reason_index_inj r s : reason_index r = reason_index s -> r = s.
Proof. destruct r, s; by intros [=]. Qed.

Lemma mapR_pure {A B} (f : A -> B) (g : A -> result B) l :
  (forall x, g x = Ok (f x)) -> mapR g l = Ok (map f l).
Proof. intros H. induction l as [|x l IH]; cbn; [done|]. by rewrite H, IH. Qed.

(** A nonempty list has one distinct element exactly when all are that one. *)
Lemma remove_dups_single {A} `{EqDecision A} (l : list A) x :
  remove_dups l = [x] <-> l <> [] /\ Forall (eq x) l.
Proof.
  split.
  - intros Hl. assert (forall y, y ∈ l <-> y = x) as He.
    { intros y. rewrite <- elem_of_remove_dups, Hl. apply list_elem_of_singleton. }
    split; [intros ->; done|]. apply Forall_forall. intros y Hy. symmetry. by apply He.
  - intros [Hne Hall]. induction l as [|y l IH]; [done|].
    inversion Hall as [|?? <- Hl]; subst. cbn. destruct l as [|z l].
    + case_decide as Hin; [by apply not_elem_of_nil in Hin|done].
    + inversion Hl; subst. case_decide as Hin; [by apply IH|]. destruct Hin. by left.
Qed.

(** What [stage_a_decision_init] accepts. *)
Lemma stage_a_decision_init_Ok d rs run s p x :
  stage_a_decision_init d rs run s p = Ok x <->
  rs <> [] /\ Forall (fun r => class_of r = d) rs /\
  s = STAGE_A_DECISION_SCHEMA /\ p = STAGE_A_PACKAGE_SCHEMA /\
  x = mkDecision d (sort_reasons rs) run s p.
Proof.
  unfold stage_a_decision_init. rewrite (mapR_pure (fun r => decision_class (class_of r)))
    by apply reason_class_Ok.
  cbn [mbind result_bind].
  assert (Forall (eq (decision_class d)) (map (fun r => decision_class (class_of r)) rs) <->
          Forall (fun r => class_of r = d) rs) as Hclass.
  { rewrite Forall_map. split; intros H; (eapply Forall_impl; [exact H|]); cbn.
    - intros r Hr. by apply decision_class_inj.
    - by intros r ->. }
  split.
  - intros H. apply bind_Ok in H as ([] & Hne & H).
    assert (rs <> []) as Hrs by (by intros ->).
    destruct (remove_dups _) as [|c [|]] eqn:Hd; [done| |done].
    apply remove_dups_single in Hd as [_ Hall]. inv_ok.
    repeat match goal with H : str_eqb _ _ = true |- _ => apply str_eqb_spec in H end; subst.
    split_and!; try done. by apply Hclass.
  - intros (Hne & Hall & -> & -> & ->). destruct rs as [|r rs]; [done|].
    rewrite (proj2 (remove_dups_single _ (decision_class d))) by (split; [done|by apply Hclass]).
    cbn [raise_if mbind result_bind]. by rewrite !str_eqb_refl.
Qed.

Lemma reason_order_total r s : (reason_index r <=? reason_index s)%nat = true \/ (reason_index s <=? reason_index r)%nat = true.
Proof. rewrite !Nat.leb_le. lia. Qed.

(** The sorted reasons: the given ones, in the strict order of the enumeration. *)
Lemma sort_reasons_elem rs r : r ∈ sort_reasons rs <-> r ∈ rs.
Proof. unfold sort_reasons. by rewrite py_sorted_elem, elem_of_remove_dups. Qed.

Lemma strict_of_weak l :
  StronglySorted (fun a b => (reason_index a <=? reason_index b)%nat = true) l -> NoDup l ->
  StronglySorted (fun a b => (reason_index a < reason_index b)%nat) l.
Proof.
  induction 1 as [|r l _ IH Hr]; intros Hn; [constructor|].
  apply NoDup_cons in Hn as [Hnr Hn]. constructor; [by apply IH|].
  apply Forall_forall. intros r' Hr'. eapply Forall_forall in Hr; [|exact Hr'].
  apply Nat.leb_le in Hr. enough (reason_index r <> reason_index r') by lia.
  by intros ->%reason_index_inj.
Qed.

Lemma sort_reasons_strict rs :
  StronglySorted (fun a b => (reason_index a < reason_index b)%nat) (sort_reasons rs).
Proof.
  apply strict_of_weak.
  - apply py_sorted_sorted; [apply reason_order_total|]. intros a b c. rewrite !Nat.leb_le. lia.
  - unfold sort_reasons. rewrite py_sorted_perm. apply NoDup_remove_dups.
Qed.

Lemma strict_NoDup l :
  StronglySorted (fun a b => (reason_index a < reason_index b)%nat) l -> NoDup l.
Proof.
  induction 1 as [|r l _ IH Hr]; [apply NoDup_nil_2|]. apply NoDup_cons. split; [|done].
  intros Hin. eapply Forall_forall in Hr; [|exact Hin]. lia.
Qed.

(** They are the only list with those members in that order. *)
Lemma sort_reasons_unique rs l :
  StronglySorted (fun a b => (reason_index a < reason_index b)%nat) l ->
  (forall r, r ∈ l <-> r ∈ rs) -> l = sort_reasons rs.
Proof.
  intros Hs He. pose proof (sort_reasons_strict rs) as Hs'.
  eapply sorting.StronglySorted_unique_strong; [|exact Hs|exact Hs'|].
  - intros a b _ _ Hab Hba. cbn in *. lia.
  - apply NoDup_Permutation; [by apply strict_NoDup..|]. intros r. by rewrite He, sort_reasons_elem.
Qed.

(** ** Properties *)

(** A decision is constructed exactly when it has at least one reason, every
    reason belongs to the decision's class and both schemas are the fixed ones; the
    stored reasons are then the given ones, without repetition and in the strict order
    of the enumeration, whatever order they were given in. *)
Theorem stage_a_decision_init_spec d rs run s p x :
  stage_a_decision_init d rs run s p = Ok x <->
  rs <> [] /\ Forall (fun r => class_of r = d) rs /\
  s = STAGE_A_DECISION_SCHEMA /\ p = STAGE_A_PACKAGE_SCHEMA /\
  x = mkDecision d (reasons x) run s p /\
  (forall r, r ∈ reasons x <-> r ∈ rs) /\
  StronglySorted (fun a b => (reason_index a < reason_index b)%nat) (reasons x).
Proof.
  rewrite stage_a_decision_init_Ok. split.
  - intros (? & ? & ? & ? & ->). cbn [reasons].
    split_and!; try done; [by intros; apply sort_reasons_elem|apply sort_reasons_strict].
  - intros (? & ? & ? & ? & Hx & He & Hs). split_and!; try done.
    by rewrite <- (sort_reasons_unique rs (reasons x)).
Qed.
