(* ===== verification/Economics.v ===== *)
(** * [liqvera_contracts.economics]: sealed Stage A claims

    [SealedStageAEconomics], decoded from a JSON object with a closed key set.
    Proved here: decoding the document of valid claims gives them back, and
    whatever is decoded is valid. *)

From S2P Require Import Prelude PyStr PyObj Exact Json Bytes.
Open Scope Z_scope.

Definition STAGE_A_SEALED_ECONOMICS_SCHEMA : pystr := u "liqvera-stage-a-sealed-economics/v1".

(** [_CLOSED_KEYS] *)
Definition CLOSED_KEYS : list pystr :=
  [u "schema"; u "independent_episode_count"; u "total_net"; u "median_net"; u "usd_1000_net";
   u "usd_5000_net"; u "largest_episode_concentration"; u "survived_delay_300ms";
   u "survived_delay_500ms"; u "survived_both_fee_cases"].

Definition parse_money (value : json) : result ExactDecimal :=
  match value with
  | JStr s => exact_parse s
  | _ => raise TypeError "must be an ExactDecimal string"
  end.

Definition require_bool (value : json) : result bool :=
  match value with JBool b => Ok b | _ => raise TypeError "must be bool" end.

Record SealedStageAEconomics := mkEconomics {
  ec_schema : pystr; independent_episode_count : Z;
  total_net : ExactDecimal; median_net : ExactDecimal;
  usd_1000_net : ExactDecimal; usd_5000_net : ExactDecimal;
  largest_episode_concentration : ExactDecimal;
  survived_delay_300ms : bool; survived_delay_500ms : bool; survived_both_fee_cases : bool }.

#[global] Instance SealedStageAEconomics_eq_dec : EqDecision SealedStageAEconomics.
Proof. solve_decision. Defined.

(** [__post_init__]: the remaining checks are on the types of the fields. *)
Definition economics_init (schema : pystr) (count : Z) (total median usd1 usd5 largest : ExactDecimal)
    (d300 d500 fees : bool) : result SealedStageAEconomics :=
  raise_if (negb (str_eqb schema STAGE_A_SEALED_ECONOMICS_SCHEMA)) ValueError
    "schema must be liqvera-stage-a-sealed-economics/v1" ;;
  raise_if (count <? 0) ValueError "independent_episode_count must be >= 0" ;;
  Ok (mkEconomics schema count total median usd1 usd5 largest d300 d500 fees).

(** [from_document]; the message of every error is not modelled in detail. *)
Definition economics_from_document (document : json) : result SealedStageAEconomics :=
  match document with
  | JDict d =>
    raise_if (negb (keys_equal d CLOSED_KEYS)) ValueError
      "sealed economics keys must match the closed set" ;;
    schema ← json_item (u "schema") d;
    raise_if (negb (bool_decide (schema = JStr STAGE_A_SEALED_ECONOMICS_SCHEMA))) ValueError
      "schema must be liqvera-stage-a-sealed-economics/v1" ;;
    count ← json_item (u "independent_episode_count") d;
    count ← match count with
            | JInt z => Ok z
            | _ => raise TypeError "independent_episode_count must be int" end;
    raise_if (count <? 0) ValueError "independent_episode_count must be >= 0" ;;
    total ← json_item (u "total_net") d ≫= parse_money;
    median ← json_item (u "median_net") d ≫= parse_money;
    usd1 ← json_item (u "usd_1000_net") d ≫= parse_money;
    usd5 ← json_item (u "usd_5000_net") d ≫= parse_money;
    largest ← json_item (u "largest_episode_concentration") d ≫= parse_money;
    d300 ← json_item (u "survived_delay_300ms") d ≫= require_bool;
    d500 ← json_item (u "survived_delay_500ms") d ≫= require_bool;
    fees ← json_item (u "survived_both_fee_cases") d ≫= require_bool;
    economics_init STAGE_A_SEALED_ECONOMICS_SCHEMA count total median usd1 usd5 largest d300 d500 fees
  | _ => raise TypeError "sealed economics must be an object"
  end.

(** The document of [to_canonical_json]. *)
Definition economics_document (e : SealedStageAEconomics) : json :=
  JDict [(u "independent_episode_count", JInt (independent_episode_count e));
         (u "largest_episode_concentration", JStr (exact_str (largest_episode_concentration e)));
         (u "median_net", JStr (exact_str (median_net e)));
         (u "schema", JStr (ec_schema e));
         (u "survived_both_fee_cases", JBool (survived_both_fee_cases e));
         (u "survived_delay_300ms", JBool (survived_delay_300ms e));
         (u "survived_delay_500ms", JBool (survived_delay_500ms e));
         (u "total_net", JStr (exact_str (total_net e)));
         (u "usd_1000_net", JStr (exact_str (usd_1000_net e)));
         (u "usd_5000_net", JStr (exact_str (usd_5000_net e)))].

Definition economics_to_canonical_json (e : SealedStageAEconomics) : result bytes :=
  canonical_json_bytes (economics_document e).

(** ** Valid claims *)

Record economics_wf (e : SealedStageAEconomics) : Prop := {
  ew_schema : ec_schema e = STAGE_A_SEALED_ECONOMICS_SCHEMA;
  ew_count : 0 <= independent_episode_count e;
  ew_amounts : Forall (fun x => in_range (scaled x))
    [total_net e; median_net e; usd_1000_net e; usd_5000_net e; largest_episode_concentration e] }.

Lemma parse_money_Ok j x : parse_money j = Ok x -> in_range (scaled x).
Proof. destruct j; cbn; try done. intros H. by apply exact_parse_sound in H as []. Qed.

Lemma economics_from_document_wf j e : economics_from_document j = Ok e -> economics_wf e.
Proof.
  destruct j as [| | | | | |d]; try done. cbn [economics_from_document]. intros H.
  repeat (apply bind_Ok in H as (? & ? & H)). injection H as <-.
  repeat match goal with
  | H : _ ≫= parse_money = Ok _ |- _ => apply bind_Ok in H as (? & _ & H); apply parse_money_Ok in H
  end.
  repeat match goal with H : raise_if (_ <? 0) _ _ = Ok _ |- _ => apply raise_if_Ok in H end.
  reflect_bools. split; [done..|].
  repeat apply Forall_cons_2; done || apply Forall_nil_2.
Qed.

Lemma economics_init_wf e :
  economics_wf e ->
  economics_init (ec_schema e) (independent_episode_count e) (total_net e) (median_net e)
    (usd_1000_net e) (usd_5000_net e) (largest_episode_concentration e)
    (survived_delay_300ms e) (survived_delay_500ms e) (survived_both_fee_cases e) = Ok e.
Proof.
  intros [Hs Hc _]. unfold economics_init. rewrite Hs, str_eqb_refl, (proj2 (Z.ltb_ge _ _)) by done.
  cbn [negb raise_if mbind result_bind]. rewrite <- Hs. by destruct e.
Qed.

Lemma parse_money_str x : in_range (scaled x) -> parse_money (JStr (exact_str x)) = Ok x.
Proof.
  intros Hr. cbn. rewrite (exact_parse_complete _ (scaled x)) by (done || by apply exact_str_denotes).
  by destruct x.
Qed.

(** The decoder on a document with the keys in canonical order. *)
Lemma economics_from_fields count largest median schema fees d300 d500 total usd1 usd5 :
  economics_from_document (JDict
    [(u "independent_episode_count", JInt count); (u "largest_episode_concentration", largest);
     (u "median_net", median); (u "schema", JStr schema); (u "survived_both_fee_cases", JBool fees);
     (u "survived_delay_300ms", JBool d300); (u "survived_delay_500ms", JBool d500);
     (u "total_net", total); (u "usd_1000_net", usd1); (u "usd_5000_net", usd5)]) =
  (raise_if (negb (bool_decide (JStr schema = JStr STAGE_A_SEALED_ECONOMICS_SCHEMA))) ValueError
     "schema must be liqvera-stage-a-sealed-economics/v1" ;;
   raise_if (count <? 0) ValueError "independent_episode_count must be >= 0" ;;
   total ← parse_money total; median ← parse_money median;
   usd1 ← parse_money usd1; usd5 ← parse_money usd5; largest ← parse_money largest;
   economics_init STAGE_A_SEALED_ECONOMICS_SCHEMA count total median usd1 usd5 largest d300 d500 fees).
Proof. reflexivity. Qed.

(** Decoding the document of a valid claims record gives the record back. *)
Lemma economics_document_decodes e :
  economics_wf e -> economics_from_document (economics_document e) = Ok e.
Proof.
  intros Hwf. pose proof (economics_init_wf e Hwf) as Hinit. destruct Hwf as [Hs Hc Ha].
  repeat (apply Forall_cons in Ha as [? Ha]).
  unfold economics_document. rewrite economics_from_fields, Hs, bool_decide_true by done.
  rewrite (proj2 (Z.ltb_ge _ _)) by done. cbn [negb raise_if mbind result_bind].
  rewrite !parse_money_str by done. cbn [mbind result_bind]. by rewrite <- Hs.
Qed.
