(* ===== verification/Evidence.v ===== *)
(** * [liqvera_contracts.evidence]: immutable capture-evidence records

    The record types an evidence reader returns, with the checks of their
    constructors; UUID, integer, text and byte arguments have their types.
    Proved here: what a constructed record satisfies. *)

From S2P Require Import Prelude PyStr PyObj Bytes Market Provenance.
Open Scope Z_scope.

(** [_require_sha256] and [_require_timestamp] *)
Definition ev_require_sha256 (s : pystr) : result pystr :=
  raise_if (negb (sha256_text s)) ValueError "evidence SHA-256 must be lowercase hexadecimal" ;; Ok s.
Definition ev_require_timestamp (t : Z) : result Z :=
  raise_if (t <? 0) TypeError "timestamp must be a nonnegative integer" ;; Ok t.
Definition require_text (msg : string) (s : pystr) : result pystr :=
  raise_if (str_eqb s []) ValueError msg ;; Ok s.
Definition require_count (msg : string) (z : Z) : result Z :=
  raise_if (z <? 0) ValueError msg ;; Ok z.

Record CaptureManifest := mkManifest {
  cm_run : uuid; started_at_ms : Z; venue_set : list pystr; schema_version : pystr }.

Definition capture_manifest_init (run : uuid) (started : Z) (venues : list pystr) (version : pystr)
  : result CaptureManifest :=
  started ← ev_require_timestamp started;
  raise_if (match venues with [] => true | _ => false end) ValueError
    "venue_set must be a nonempty tuple" ;;
  version ← require_text "schema_version is required" version;
  Ok (mkManifest run started venues version).

Record CaptureTerminal := mkTerminal { ct_run : uuid; terminated_at_ms : Z; status : pystr }.

Definition capture_terminal_init (run : uuid) (at_ms : Z) (status : pystr) : result CaptureTerminal :=
  at_ms ← ev_require_timestamp at_ms;
  status ← require_text "status is required" status;
  Ok (mkTerminal run at_ms status).

Record ControlEvidenceRecord := mkControl {
  ce_run : uuid; recorded_at_ms : Z; kind : pystr; ce_payload_sha256 : pystr }.

Definition control_evidence_init (run : uuid) (at_ms : Z) (kind sha : pystr)
  : result ControlEvidenceRecord :=
  at_ms ← ev_require_timestamp at_ms;
  kind ← require_text "kind is required" kind;
  sha ← ev_require_sha256 sha;
  Ok (mkControl run at_ms kind sha).

Record RawBatchRecord := mkBatch {
  rb_run : uuid; batch_index : Z; stored_sha256 : pystr; content_sha256 : pystr;
  rb_payload : bytes }.

Definition raw_batch_init (run : uuid) (index : Z) (stored content : pystr) (payload : bytes)
  : result RawBatchRecord :=
  index ← require_count "batch_index must be a nonnegative integer" index;
  stored ← ev_require_sha256 stored;
  content ← ev_require_sha256 content;
  Ok (mkBatch run index stored content payload).

Record RawPublicEnvelope := mkEnvelope {
  re_run : uuid; envelope_index : Z; observed_at_ms : Z; re_venue : pystr;
  payload_sha256 : pystr; payload : bytes }.

Definition raw_envelope_init (run : uuid) (index observed : Z) (venue sha : pystr) (payload : bytes)
  : result RawPublicEnvelope :=
  index ← require_count "envelope_index must be a nonnegative integer" index;
  observed ← ev_require_timestamp observed;
  venue ← require_text "venue is required" venue;
  sha ← ev_require_sha256 sha;
  Ok (mkEnvelope run index observed venue sha payload).

Record QualityMinuteRecord := mkMinute {
  qm_run : uuid; minute_start_ms : Z; qm_venue : pystr; accepted : Z; rejected : Z }.

Definition quality_minute_init (run : uuid) (start : Z) (venue : pystr) (accepted rejected : Z)
  : result QualityMinuteRecord :=
  start ← ev_require_timestamp start;
  venue ← require_text "venue is required" venue;
  accepted ← require_count "accepted must be a nonnegative integer" accepted;
  rejected ← require_count "rejected must be a nonnegative integer" rejected;
  Ok (mkMinute run start venue accepted rejected).

Record MappingSnapshot := mkMappingSnapshot {
  ms_run : uuid; mappings : list MarketMappingEvidence; snapshot_sha256 : pystr }.

Definition mapping_snapshot_init (run : uuid) (ms : list MarketMappingEvidence) (sha : pystr)
  : result MappingSnapshot :=
  sha ← ev_require_sha256 sha; Ok (mkMappingSnapshot run ms sha).

(** ** Constructed records *)

Lemma quality_minute_init_Ok run start venue a r m :
  quality_minute_init run start venue a r = Ok m ->
  m = mkMinute run start venue a r /\ 0 <= start /\ 0 <= a /\ 0 <= r /\ venue <> [].
Proof.
  unfold quality_minute_init, ev_require_timestamp, require_text, require_count. intros H. inv_ok.
  reflect_bools. split_and!; try done. by apply str_eqb_false.
Qed.

Lemma raw_envelope_init_Ok run index observed venue sha body e :
  raw_envelope_init run index observed venue sha body = Ok e ->
  e = mkEnvelope run index observed venue sha body /\
  0 <= index /\ 0 <= observed /\ venue <> [] /\ sha256_text sha = true.
Proof.
  unfold raw_envelope_init, ev_require_timestamp, require_text, require_count, ev_require_sha256.
  intros H. inv_ok. reflect_bools. split_and!; try done. by apply str_eqb_false.
Qed.

Lemma capture_manifest_init_Ok run started venues version m :
  capture_manifest_init run started venues version = Ok m ->
  m = mkManifest run started venues version /\ 0 <= started /\ venues <> [] /\ version <> [].
Proof.
  unfold capture_manifest_init, ev_require_timestamp, require_text. intros H. inv_ok.
  reflect_bools. split_and!; [done..|by intros ->|by apply str_eqb_false].
Qed.

Lemma capture_terminal_init_Ok run at_ms status t :
  capture_terminal_init run at_ms status = Ok t ->
  t = mkTerminal run at_ms status /\ 0 <= at_ms /\ status <> [].
Proof.
  unfold capture_terminal_init, ev_require_timestamp, require_text. intros H. inv_ok.
  reflect_bools. split_and!; [done..|by apply str_eqb_false].
Qed.
