(* ===== verification/Decoders.v ===== *)
(** * [reconstruction.hyperliquid] and [reconstruction.lighter]

    The decoders of claimed venue payloads and the application of a Lighter
    delta to a book.  Proved here: every failure of a decoder is a
    [ReconstructionError], the levels of a decoded book are positive exact
    amounts, and applying a delta sets, inserts or deletes exactly the prices it
    names. *)

From S2P Require Import Prelude PyStr Num Exact ExactText PyObj Json Bytes Market Provenance.
From Stdlib Require Import QArith Qcanon.
Open Scope Z_scope.

(** [try: m; except ReconstructionError: raise; except cs: raise ReconstructionError] *)
Definition or_reconstruction_error {A} (m : result A) (cs : list exc_class) : result A :=
  match m with
  | Ok a => Ok a
  | Raise e =>
    if exc_subclass (exn_class e) ReconstructionError then Raise e
    else if existsb (exc_subclass (exn_class e)) cs then raise ReconstructionError "not admitted"
    else Raise e
  end.

Definition decode_errors : list exc_class :=
  [UnicodeDecodeError; JSONDecodeError; TypeError; ValueError; ExactError].

Definition reject {A} (msg : string) : result A := raise ReconstructionError msg.

(** [json.loads(payload.decode("utf-8"))], which must be an object. *)
Definition load_object (payload : bytes) : result (list (pystr * json)) :=
  text ← decode_utf8 payload;
  document ← json_loads text;
  match document with JDict d => Ok d | _ => reject "payload must be an object" end.

Definition require_json_int (j : json) : result Z :=
  match j with JInt z => Ok z | _ => reject "must be an integer" end.

(** [Decimal(str(ExactDecimal.parse(text)))] *)
Definition exact_decimal (text : pystr) : result decimal :=
  x ← exact_parse text; dec_parse (exact_str x).

(** The two decimal texts of a level object. *)
Definition level_texts (price_key size_key : pystr) (item : json) : result (pystr * pystr) :=
  match item with
  | JDict d =>
    match json_get price_key d, json_get size_key d with
    | JStr p, JStr s => Ok (p, s)
    | _, _ => reject "price/size must be decimal strings"
    end
  | _ => reject "level must be an object"
  end.

(** One turn of [_book_levels]: both texts are parsed before either is converted. *)
Definition decode_level (price_key size_key : pystr) (item : json) : result BookLevel :=
  '(p, s) ← level_texts price_key size_key item;
  price ← exact_parse p;
  quantity ← exact_parse s;
  p ← dec_parse (exact_str price);
  q ← dec_parse (exact_str quantity);
  book_level_init p q.

Definition book_levels (price_key size_key : pystr) (raw : json) : result (list BookLevel) :=
  match raw with
  | JList items => mapR (decode_level price_key size_key) items
  | _ => reject "side must be an array"
  end.

(** ** Hyperliquid *)

Module Hyperliquid.

Definition VENUE : pystr := u "HYPERLIQUID".

Definition decode (payload : bytes) (observed_at_ms : Z) : result OrderBookSnapshot :=
  document ← load_object payload;
  match json_get (u "coin") document with
  | JStr coin =>
    raise_if (str_eqb (str_strip coin) []) ReconstructionError "coin must be a nonempty string" ;;
    time ← require_json_int (json_get (u "time") document);
    match json_get (u "levels") document with
    | JList [raw_bids; raw_asks] =>
      bids ← book_levels (u "px") (u "sz") raw_bids;
      asks ← book_levels (u "px") (u "sz") raw_asks;
      order_book_init VENUE coin None time observed_at_ms bids asks
    | _ => reject "l2Book levels must contain bid and ask arrays"
    end
  | _ => reject "l2Book coin must be a nonempty string"
  end.

Definition decode_hyperliquid_l2book (payload : bytes) (observed_at_ms : Z)
  : result OrderBookSnapshot :=
  or_reconstruction_error (decode payload observed_at_ms) decode_errors.

End Hyperliquid.

(** ** Lighter *)

Module Lighter.

Definition VENUE : pystr := u "LIGHTER".
Definition CHANNEL_PREFIX : pystr := u "order_book:".
Definition SNAPSHOT_TYPE : pystr := u "subscribed/order_book".
Definition UPDATE_TYPE : pystr := u "update/order_book".

Record LighterSnapshot := mkLighterSnapshot {
  ls_channel : pystr; ls_symbol : option pystr; ls_timestamp : Z; ls_nonce : Z;
  ls_bids : list BookLevel; ls_asks : list BookLevel }.

Record LighterUpdate := mkLighterUpdate {
  lu_channel : pystr; lu_symbol : option pystr; lu_timestamp : Z; lu_nonce : Z;
  begin_nonce : Z; lu_bids : list (decimal * decimal); lu_asks : list (decimal * decimal) }.

Inductive message := Snapshot (s : LighterSnapshot) | Update (d : LighterUpdate).

(** [_channel]: the prefix and a market index [int] can read. *)
Definition decode_channel (document : list (pystr * json)) : result pystr :=
  match json_get (u "channel") document with
  | JStr channel =>
    raise_if (str_eqb channel []) ReconstructionError "channel must be a nonempty string" ;;
    raise_if (negb (str_startswith CHANNEL_PREFIX channel)) ReconstructionError
      "channel must start with order_book:" ;;
    let suffix := drop (length CHANNEL_PREFIX) channel in
    raise_if (negb (str_isdigit suffix)) ReconstructionError
      "channel market index must be digits" ;;
    _ ← py_int 10 suffix;
    Ok channel
  | _ => reject "channel must be a nonempty string"
  end.

Definition optional_symbol (document : list (pystr * json)) : result (option pystr) :=
  match assoc (u "symbol") document with
  | None => Ok None
  | Some (JStr (c :: s)) => Ok (Some (c :: s))
  | Some _ => reject "symbol must be a nonempty string"
  end.

Definition order_book_object (document : list (pystr * json)) : result (list (pystr * json)) :=
  match json_get (u "order_book") document with
  | JDict d => Ok d
  | _ => reject "order_book must be an object"
  end.

Definition decode_delta (item : json) : result (decimal * decimal) :=
  '(p, s) ← level_texts (u "price") (u "size") item;
  price ← exact_parse p;
  quantity ← exact_parse s;
  p ← dec_parse (exact_str price);
  q ← dec_parse (exact_str quantity);
  p_bad ← dec_le p dec_zero;
  bad ← match p_bad with true => Ok true | false => dec_lt q dec_zero end;
  raise_if bad ReconstructionError "price must be positive and size nonnegative" ;;
  Ok (p, q).

Definition delta_levels (raw : json) : result (list (decimal * decimal)) :=
  match raw with
  | JList items => mapR decode_delta items
  | _ => reject "side must be an array"
  end.

Definition decode_snapshot (document : list (pystr * json)) : result LighterSnapshot :=
  channel ← decode_channel document;
  timestamp ← require_json_int (json_get (u "timestamp") document);
  symbol ← optional_symbol document;
  order_book ← order_book_object document;
  nonce ← require_json_int (json_get (u "nonce") order_book);
  bids ← book_levels (u "price") (u "size") (json_get (u "bids") order_book);
  asks ← book_levels (u "price") (u "size") (json_get (u "asks") order_book);
  Ok (mkLighterSnapshot channel symbol timestamp nonce bids asks).

Definition decode_update (document : list (pystr * json)) : result LighterUpdate :=
  channel ← decode_channel document;
  timestamp ← require_json_int (json_get (u "timestamp") document);
  symbol ← optional_symbol document;
  order_book ← order_book_object document;
  begin_nonce ← require_json_int (json_get (u "begin_nonce") order_book);
  nonce ← require_json_int (json_get (u "nonce") order_book);
  bids ← delta_levels (json_get (u "bids") order_book);
  asks ← delta_levels (json_get (u "asks") order_book);
  Ok (mkLighterUpdate channel symbol timestamp nonce begin_nonce bids asks).

Definition decode_envelope (payload : bytes) : result message :=
  document ← load_object payload;
  let message_type := json_get (u "type") document in
  if bool_decide (message_type = JStr SNAPSHOT_TYPE) then Snapshot <$> decode_snapshot document
  else if bool_decide (message_type = JStr UPDATE_TYPE) then Update <$> decode_update document
  else reject "type must be subscribed/order_book or update/order_book".

Definition decode_lighter_envelope (payload : bytes) : result message :=
  or_reconstruction_error (decode_envelope payload) decode_errors.

(** [OrderBookSnapshot(...)] of a snapshot whose symbol is known. *)
Definition snapshot_book (s : LighterSnapshot) (symbol : pystr) (observed_at_ms : Z)
  : result OrderBookSnapshot :=
  or_reconstruction_error
    (order_book_init VENUE symbol (Some (ls_nonce s)) (ls_timestamp s) observed_at_ms
       (ls_bids s) (ls_asks s))
    [TypeError; ValueError].

Definition decode_lighter_subscribed_order_book (payload : bytes) (observed_at_ms : Z)
  : result OrderBookSnapshot :=
  decoded ← decode_lighter_envelope payload;
  match decoded with
  | Update _ => reject "type must be subscribed/order_book"
  | Snapshot s =>
    match ls_symbol s with
    | None => reject "symbol must be a nonempty string"
    | Some symbol => snapshot_book s symbol observed_at_ms
    end
  end.

(** [level.price == price], for the first such level [_apply_side] replaces. *)
Fixpoint replace_level (price_ size : decimal) (levels : list BookLevel)
  : result (option (list BookLevel)) :=
  match levels with
  | [] => Ok None
  | level :: levels =>
    same ← dec_eq (price level) price_;
    match same with
    | true => l ← book_level_init price_ size; Ok (Some (l :: levels))
    | false => rest ← replace_level price_ size levels; Ok (option_map (cons level) rest)
    end
  end.

(** [[level for level in levels if level.price != price]] *)
Fixpoint delete_price (price_ : decimal) (levels : list BookLevel) : result (list BookLevel) :=
  match levels with
  | [] => Ok []
  | level :: levels =>
    same ← dec_eq (price level) price_;
    rest ← delete_price price_ levels;
    Ok (match same with true => rest | false => level :: rest end)
  end.

Definition apply_delta (levels : list BookLevel) (delta : decimal * decimal)
  : result (list BookLevel) :=
  let '(price_, size) := delta in
  zero ← dec_eq size dec_zero;
  match zero with
  | true => delete_price price_ levels
  | false =>
    replaced ← replace_level price_ size levels;
    match replaced with
    | Some levels => Ok levels
    | None => l ← book_level_init price_ size; Ok (levels ++ [l])
    end
  end.

Definition apply_side (previous : list BookLevel) (deltas : list (decimal * decimal))
  : result (list BookLevel) := foldM apply_delta previous deltas.

Definition apply_lighter_update (previous : OrderBookSnapshot) (update : LighterUpdate)
    (observed_at_ms : Z) : result OrderBookSnapshot :=
  let symbol := default (ob_symbol previous) (lu_symbol update) in
  new_bids ← apply_side (bids previous) (lu_bids update);
  new_asks ← apply_side (asks previous) (lu_asks update);
  order_book_init VENUE symbol (Some (lu_nonce update)) (lu_timestamp update) observed_at_ms
    new_bids new_asks.

(** [mapping.decision is APPROVED and mapping.venue.casefold() == "lighter" and ...] *)
Definition ticker_candidate (index observed_at_ms : Z) (m : MarketMappingEvidence) : bool :=
  bool_decide (decision m = APPROVED) &&
  str_eqb (str_casefold (mm_venue m)) (u "lighter") &&
  bool_decide (lighter_market_index m = Some index) &&
  is_current m observed_at_ms.

Definition lighter_ticker_for_channel (channel : pystr) (mappings : list MarketMappingEvidence)
    (observed_at_ms : Z) : result pystr :=
  index ← py_int 10 (drop (length CHANNEL_PREFIX) channel);
  match List.filter (ticker_candidate index observed_at_ms) mappings with
  | [m] => Ok (mm_symbol m)
  | _ => reject "claimed Lighter snapshot has no unique current indexed mapping"
  end.

End Lighter.

(** ** Decoded levels are positive exact amounts *)

Definition exact_dec (d : decimal) (z : Z) : Prop := decimal_of_exact d z /\ in_range z.

(** A level with the scaled price [p] and the scaled quantity [q]. *)
Definition level_amounts (l : BookLevel) (p q : Z) : Prop :=
  exact_dec (price l) p /\ exact_dec (quantity l) q /\ 0 < p /\ 0 < q.

Definition exact_level (l : BookLevel) : Prop := exists p q, level_amounts l p q.
Definition exact_delta (d : decimal * decimal) : Prop :=
  exists p q, exact_dec (fst d) p /\ exact_dec (snd d) q /\ 0 < p /\ 0 <= q.
Definition exact_book (b : OrderBookSnapshot) : Prop :=
  Forall exact_level (bids b) /\ Forall exact_level (asks b).

Lemma exact_dec_str x : in_range (scaled x) -> exists d, dec_parse (exact_str x) = Ok d /\ exact_dec d (scaled x).
Proof. intros Hr. destruct (dec_parse_exact_str x Hr) as (d & ? & ?). by exists d. Qed.

Lemma exact_parse_range s x : exact_parse s = Ok x -> in_range (scaled x).
Proof. by intros [_ ?]%exact_parse_sound. Qed.

Lemma level_init_exact p q zp zq :
  exact_dec p zp -> exact_dec q zq ->
  book_level_init p q = (raise_if (negb ((0 <? zp) && (0 <? zq))) ValueError
                           "book level values must be positive" ;; Ok (mkLevel p q)).
Proof.
  intros [Hp _] [Hq _]. unfold book_level_init.
  rewrite (exact_dec_le p zp dec_zero 0), (exact_dec_le q zq dec_zero 0)
    by (done || apply decimal_of_exact_zero).
  destruct (Z.leb_spec zp 0), (Z.ltb_spec 0 zp), (Z.leb_spec zq 0), (Z.ltb_spec 0 zq);
    try lia; done.
Qed.

Lemma level_init_exact_Ok p q zp zq l :
  exact_dec p zp -> exact_dec q zq -> book_level_init p q = Ok l ->
  l = mkLevel p q /\ level_amounts l zp zq.
Proof.
  intros Hp Hq. rewrite (level_init_exact p q zp zq) by done. intros H. inv_ok.
  reflect_bools. split; [done|]. split_and!; done || lia.
Qed.

Lemma decode_level_spec pk sk item :
  fails_with ValueError (decode_level pk sk item) /\
  forall l, decode_level pk sk item = Ok l -> exact_level l.
Proof.
  unfold decode_level. destruct (level_texts pk sk item) as [[p s]|e] eqn:Ht; cbn [mbind result_bind].
  2: { split; [|done]. unfold level_texts, reject in Ht.
       repeat case_match; unfold raise in *; simplify_eq; reflexivity. }
  destruct (exact_parse p) as [xp|e] eqn:Ep; cbn [mbind result_bind].
  2: { split; [|done]. exact (fails_with_Raise _ _ _ (exact_parse_fails p) Ep). }
  destruct (exact_parse s) as [xs|e] eqn:Es; cbn [mbind result_bind].
  2: { split; [|done]. exact (fails_with_Raise _ _ _ (exact_parse_fails s) Es). }
  destruct (exact_dec_str xp) as (dp & -> & Hp); [by eapply exact_parse_range|].
  destruct (exact_dec_str xs) as (ds & -> & Hs); [by eapply exact_parse_range|].
  cbn [mbind result_bind]. split.
  - rewrite (level_init_exact dp ds (scaled xp) (scaled xs)) by done. fails.
  - intros l Hl. eapply level_init_exact_Ok in Hl as [_ ?]; [|done..]. by exists (scaled xp), (scaled xs).
Qed.

Lemma book_levels_fails pk sk raw : fails_with ValueError (book_levels pk sk raw).
Proof. destruct raw; try done. apply fails_mapR. intros x _. apply decode_level_spec. Qed.
#[export] Hint Resolve book_levels_fails : fails.

Lemma book_levels_exact pk sk raw ls : book_levels pk sk raw = Ok ls -> Forall exact_level ls.
Proof.
  destruct raw; try done. cbn [book_levels]. intros H%mapR_Ok.
  induction H as [|x y xs ys Hx _ IH]; constructor; [by eapply decode_level_spec|done].
Qed.

(** ** The order book constructor on exact levels *)

Lemma all_adjacent_fails rel ls :
  (forall x y, x ∈ ls -> y ∈ ls -> exists b, rel x y = Ok b) -> exists b, all_adjacent rel ls = Ok b.
Proof.
  induction ls as [|x [|y ls] IH]; intros H; [by eexists..|].
  destruct (H x y) as [b Hb]; [by left|by right; left|].
  change (all_adjacent rel (x :: y :: ls))
    with (b ← rel x y; match b with true => all_adjacent rel (y :: ls) | false => Ok false end).
  rewrite Hb. cbn [mbind result_bind]. destruct b; [|by eexists].
  apply IH. intros ????. apply H; by right.
Qed.

Lemma exact_level_lt x y :
  exact_level x -> exact_level y -> exists b, dec_lt (price x) (price y) = Ok b.
Proof.
  intros (px & qx & [Hx _] & _) (py & qy & [Hy _] & _). eexists. by apply (exact_dec_lt _ px _ py).
Qed.

Lemma order_book_init_fails v s q e r bl al :
  Forall exact_level bl -> Forall exact_level al ->
  fails_with ValueError (order_book_init v s q e r bl al).
Proof.
  intros Hb Ha. unfold order_book_init. destruct bl as [|b bl], al as [|a al]; try done.
  destruct (all_adjacent_fails (fun x y => dec_lt (price y) (price x)) (b :: bl)) as [down Hd].
  { intros x y Hx Hy. apply exact_level_lt; by apply (Forall_at _ (b :: bl)). }
  destruct (all_adjacent_fails (fun x y => dec_lt (price x) (price y)) (a :: al)) as [up Hu].
  { intros x y Hx Hy. apply exact_level_lt; by apply (Forall_at _ (a :: al)). }
  unfold strictly_descending, strictly_ascending. rewrite Hd, Hu.
  apply Forall_inv in Hb as (pb & qb & [Hpb _] & _). apply Forall_inv in Ha as (pa & qa & [Hpa _] & _).
  rewrite (exact_dec_le (price a) pa (price b) pb) by done. fails.
Qed.

Lemma load_object_fails b : fails_with ValueError (load_object b).
Proof. unfold load_object, reject. fails. Qed.

Lemma require_json_int_fails j : fails_with ValueError (require_json_int j).
Proof. by destruct j. Qed.
#[export] Hint Resolve load_object_fails require_json_int_fails : fails.

(** A wrapped computation that fails with [ValueError]s fails with
    [ReconstructionError] only. *)
Lemma or_reconstruction_error_fails {A} (m : result A) cs :
  ValueError ∈ cs -> fails_with ValueError m ->
  fails_with ReconstructionError (or_reconstruction_error m cs).
Proof.
  intros Hin Hm. destruct m as [a|e]; [done|]. cbn [fails_with or_reconstruction_error] in *.
  destruct (exc_subclass (exn_class e) ReconstructionError) eqn:E; [exact E|].
  replace (existsb _ cs) with true; [done|]. symmetry. apply existsb_exists. exists ValueError.
  split; [by apply list_elem_of_In|done].
Qed.

Lemma or_reconstruction_error_Ok {A} (m : result A) cs a :
  or_reconstruction_error m cs = Ok a <-> m = Ok a.
Proof.
  destruct m as [b|e]; cbn; [done|]. split; [|done]. by repeat case_match.
Qed.

Lemma hyperliquid_decode_fails b t :
  fails_with ReconstructionError (Hyperliquid.decode_hyperliquid_l2book b t).
Proof.
  apply or_reconstruction_error_fails; [unfold decode_errors; set_solver|].
  unfold Hyperliquid.decode, reject. fails.
  apply order_book_init_fails; by eapply book_levels_exact.
Qed.

Lemma hyperliquid_decode_Ok b t s :
  Hyperliquid.decode_hyperliquid_l2book b t = Ok s ->
  exact_book s /\ book_wf s /\ ob_venue s = Hyperliquid.VENUE /\ sequence s = None /\
  received_timestamp_ms s = t.
Proof.
  unfold Hyperliquid.decode_hyperliquid_l2book. rewrite or_reconstruction_error_Ok.
  unfold Hyperliquid.decode, reject. intros H. inv_ok. repeat (case_match; inv_ok).
  rename select (order_book_init _ _ _ _ _ _ _ = _) into Hb. apply order_book_init_Ok in Hb as [-> ?].
  split_and!; try done. split; cbn; by eapply book_levels_exact.
Qed.

(** ** Lighter messages *)

Lemma optional_symbol_fails d : fails_with ValueError (Lighter.optional_symbol d).
Proof. unfold Lighter.optional_symbol, reject. fails. Qed.

Lemma decode_channel_fails d : fails_with ValueError (Lighter.decode_channel d).
Proof. unfold Lighter.decode_channel, reject. fails. Qed.

Lemma order_book_object_fails d : fails_with ValueError (Lighter.order_book_object d).
Proof. unfold Lighter.order_book_object, reject. fails. Qed.

Lemma decode_delta_spec item :
  fails_with ValueError (Lighter.decode_delta item) /\
  forall d, Lighter.decode_delta item = Ok d -> exact_delta d.
Proof.
  unfold Lighter.decode_delta. destruct (level_texts _ _ item) as [[p s]|e] eqn:Ht; cbn [mbind result_bind].
  2: { split; [|done]. unfold level_texts, reject in Ht.
       repeat case_match; unfold raise in *; simplify_eq; reflexivity. }
  destruct (exact_parse p) as [xp|e] eqn:Ep; cbn [mbind result_bind].
  2: { split; [|done]. exact (fails_with_Raise _ _ _ (exact_parse_fails p) Ep). }
  destruct (exact_parse s) as [xs|e] eqn:Es; cbn [mbind result_bind].
  2: { split; [|done]. exact (fails_with_Raise _ _ _ (exact_parse_fails s) Es). }
  destruct (exact_dec_str xp) as (dp & -> & Hp); [by eapply exact_parse_range|].
  destruct (exact_dec_str xs) as (ds & -> & Hs); [by eapply exact_parse_range|].
  cbn [mbind result_bind]. pose proof Hp as [Hp' _]. pose proof Hs as [Hs' _].
  rewrite (exact_dec_le dp (scaled xp) dec_zero 0), (exact_dec_lt ds (scaled xs) dec_zero 0)
    by (done || apply decimal_of_exact_zero).
  split.
  - destruct (_ <=? _); fails.
  - intros d H. destruct (scaled xp <=? 0) eqn:E1; inv_ok. reflect_bools.
    by exists (scaled xp), (scaled xs).
Qed.

Lemma delta_levels_fails raw : fails_with ValueError (Lighter.delta_levels raw).
Proof. destruct raw; try done. apply fails_mapR. intros x _. apply decode_delta_spec. Qed.

Lemma delta_levels_exact raw ds : Lighter.delta_levels raw = Ok ds -> Forall exact_delta ds.
Proof.
  destruct raw; try done. cbn [Lighter.delta_levels]. intros H%mapR_Ok.
  induction H as [|x y xs ys Hx _ IH]; constructor; [by eapply decode_delta_spec|done].
Qed.
#[export] Hint Resolve optional_symbol_fails decode_channel_fails order_book_object_fails
  delta_levels_fails : fails.

Definition exact_message (m : Lighter.message) : Prop :=
  match m with
  | Lighter.Snapshot s => Forall exact_level (Lighter.ls_bids s) /\ Forall exact_level (Lighter.ls_asks s)
  | Lighter.Update d => Forall exact_delta (Lighter.lu_bids d) /\ Forall exact_delta (Lighter.lu_asks d)
  end.

Lemma decode_lighter_envelope_fails b :
  fails_with ReconstructionError (Lighter.decode_lighter_envelope b).
Proof.
  apply or_reconstruction_error_fails; [unfold decode_errors; set_solver|].
  unfold Lighter.decode_envelope, Lighter.decode_snapshot, Lighter.decode_update, reject. fails.
Qed.

Lemma decode_lighter_envelope_exact b m :
  Lighter.decode_lighter_envelope b = Ok m -> exact_message m.
Proof.
  unfold Lighter.decode_lighter_envelope. rewrite or_reconstruction_error_Ok.
  unfold Lighter.decode_envelope, Lighter.decode_snapshot, Lighter.decode_update, reject.
  intros H. inv_ok. repeat case_bool_decide; inv_ok; split;
    eauto using book_levels_exact, delta_levels_exact.
Qed.

(** ** A side of a book as a map from prices to sizes *)

(** The price or size in units of [10^-8]. *)
Definition dec_scaled (d : decimal) : Z :=
  match d with DFin neg c e => signed neg c * 10 ^ (8 + e) | _ => 0 end.

Definition level_price (l : BookLevel) : Z := dec_scaled (price l).
Definition level_entry (l : BookLevel) : Z * Z := (dec_scaled (price l), dec_scaled (quantity l)).
Definition side_map (ls : list BookLevel) : gmap Z Z := list_to_map (map level_entry ls).

(** What a delta means: size zero deletes the price, any other size sets it. *)
Definition set_price (m : gmap Z Z) (delta : decimal * decimal) : gmap Z Z :=
  let '(p, q) := delta in
  if decide (dec_scaled q = 0) then delete (dec_scaled p) m else <[dec_scaled p := dec_scaled q]> m.

Lemma exact_dec_scaled d z : exact_dec d z -> dec_scaled d = z.
Proof. by intros [(neg & c & k & -> & _ & _ & ->) _]. Qed.

Definition side_wf (ls : list BookLevel) : Prop :=
  Forall exact_level ls /\ NoDup (map level_price ls).

Lemma level_price_eq l p z :
  exact_level l -> exact_dec p z -> dec_eq (price l) p = Ok (bool_decide (level_price l = z)).
Proof.
  intros (zl & ql & Hl & _) Hp. unfold level_price. rewrite (exact_dec_scaled _ _ Hl).
  rewrite (exact_dec_eq (price l) zl p z) by (apply Hl || apply Hp). f_equal.
  by destruct (Z.eqb_spec zl z), (bool_decide_reflect (zl = z)).
Qed.

Lemma delete_price_exact p z ls :
  Forall exact_level ls -> exact_dec p z ->
  Lighter.delete_price p ls = Ok (filter (fun l => level_price l <> z) ls).
Proof.
  intros H Hp. induction H as [|l ls Hl _ IH]; cbn [Lighter.delete_price]; [done|].
  rewrite (level_price_eq l p z) by done. rewrite IH. cbn [mbind result_bind].
  rewrite filter_cons. case_bool_decide; by repeat case_decide.
Qed.

Lemma side_map_cons l ls :
  side_map (l :: ls) = <[level_price l := dec_scaled (quantity l)]> (side_map ls).
Proof. done. Qed.

Lemma side_map_delete z ls :
  side_map (filter (fun l => level_price l <> z) ls) = delete z (side_map ls).
Proof.
  induction ls as [|l ls IH]; [by unfold side_map; cbn; rewrite delete_empty|].
  rewrite filter_cons. case_decide as Hz; rewrite !side_map_cons.
  - rewrite IH. by rewrite delete_insert_ne.
  - rewrite IH. subst. by rewrite delete_insert_eq.
Qed.

Lemma replace_level_exact p q z zq ls :
  Forall exact_level ls -> exact_dec p z -> exact_dec q zq -> 0 < z -> 0 < zq ->
  (Lighter.replace_level p q ls = Ok None /\ z ∉ map level_price ls) \/
  (exists ls', Lighter.replace_level p q ls = Ok (Some ls') /\ Forall exact_level ls' /\
    map level_price ls' = map level_price ls /\ side_map ls' = <[z := zq]> (side_map ls)).
Proof.
  intros H Hp Hq Hz Hzq. induction H as [|l ls Hl Hls IH]; cbn [Lighter.replace_level].
  { left. split; [done|]. apply not_elem_of_nil. }
  rewrite (level_price_eq l p z) by done. cbn [mbind result_bind]. case_bool_decide as Hsame.
  - right. rewrite (level_init_exact p q z zq) by done.
    rewrite (proj2 (Z.ltb_lt 0 z)), (proj2 (Z.ltb_lt 0 zq)) by done.
    cbn [mbind result_bind raise_if andb negb]. exists (mkLevel p q :: ls). split_and!; [done| | |].
    + constructor; [|done]. by exists z, zq.
    + cbn. unfold level_price at 1. cbn. rewrite (exact_dec_scaled _ _ Hp). by f_equal.
    + rewrite !side_map_cons, Hsame, insert_insert_eq. unfold level_price. cbn [price quantity].
      by rewrite (exact_dec_scaled _ _ Hp), (exact_dec_scaled _ _ Hq).
  - destruct IH as [[-> Hn]|(ls' & -> & He & Hm & Hs)]; cbn [mbind result_bind option_map]; [left|right].
    + split; [done|]. cbn [map]. rewrite not_elem_of_cons. done.
    + exists (l :: ls'). split_and!; [done|by constructor|cbn; by f_equal|].
      rewrite !side_map_cons, Hs. by rewrite insert_insert_ne.
Qed.

Lemma apply_delta_exact ls d :
  side_wf ls -> exact_delta d ->
  exists ls', Lighter.apply_delta ls d = Ok ls' /\ side_wf ls' /\ side_map ls' = set_price (side_map ls) d.
Proof.
  intros [He Hn] (z & zq & Hp & Hq & Hz & Hzq). destruct d as [p q]. cbn [fst snd] in *.
  unfold Lighter.apply_delta, set_price.
  rewrite (exact_dec_eq q zq dec_zero 0) by (apply Hq || apply decimal_of_exact_zero).
  rewrite (exact_dec_scaled _ _ Hp), (exact_dec_scaled _ _ Hq). cbn [mbind result_bind].
  destruct (Z.eqb_spec zq 0) as [->|Hne].
  - rewrite decide_True by done. rewrite (delete_price_exact p z) by done.
    eexists. split; [done|]. split; [split|apply side_map_delete].
    + apply Forall_forall. intros x [_ Hx]%list_elem_of_filter. by eapply Forall_at.
    + clear -Hn. induction ls as [|l ls IH]; [done|]. cbn in Hn. apply NoDup_cons in Hn as [Hl Hn].
      rewrite filter_cons. case_decide; [|by apply IH]. cbn. apply NoDup_cons. split; [|by apply IH].
      intros (l' & Heq & [_ Hin]%list_elem_of_filter)%list_elem_of_fmap. apply Hl. rewrite Heq.
      by apply list_elem_of_fmap_2.
  - rewrite decide_False by done.
    destruct (replace_level_exact p q z zq ls) as [[-> Hnew]|(ls' & -> & He' & Hm & Hs)];
      try done; try lia; cbn [mbind result_bind].
    + rewrite (level_init_exact p q z zq) by done.
      rewrite (proj2 (Z.ltb_lt 0 z)), (proj2 (Z.ltb_lt 0 zq)) by lia. cbn.
      eexists. split; [done|]. split; [split|].
      * apply Forall_app; split; [done|]. repeat constructor. exists z, zq. by split_and!; try lia.
      * rewrite map_app. apply NoDup_app. split_and!; [done| |apply NoDup_singleton].
        intros x Hx Hx'. cbn in Hx'. apply list_elem_of_singleton in Hx' as ->.
        apply Hnew. assert (level_price (mkLevel p q) = z) as <- by exact (exact_dec_scaled _ _ Hp).
        exact Hx.
      * unfold side_map. rewrite map_app. change (map level_entry [mkLevel p q]) with
          [(dec_scaled p, dec_scaled q)].
        rewrite (exact_dec_scaled _ _ Hp), (exact_dec_scaled _ _ Hq).
        rewrite list_to_map_snoc; [done|]. rewrite map_map. exact Hnew.
    + eexists. split; [done|]. split; [split; [done|by rewrite Hm]|done].
Qed.

Lemma apply_side_exact ls ds :
  side_wf ls -> Forall exact_delta ds ->
  exists ls', Lighter.apply_side ls ds = Ok ls' /\ side_wf ls' /\
    side_map ls' = fold_left set_price ds (side_map ls).
Proof.
  intros Hls Hds. revert ls Hls. induction Hds as [|d ds Hd _ IH]; intros ls Hls; [by exists ls|].
  destruct (apply_delta_exact ls d Hls Hd) as (l1 & H1 & Hw1 & Hm1).
  destruct (IH l1 Hw1) as (l2 & H2 & Hw2 & Hm2). exists l2.
  unfold Lighter.apply_side in *. cbn [foldM]. rewrite H1. cbn [mbind result_bind].
  split_and!; [done..|]. by rewrite Hm2, Hm1.
Qed.

(** The sides of a well-formed exact book have distinct prices. *)
Lemma sorted_prices_NoDup ls (R : BookLevel -> BookLevel -> Prop) :
  Forall exact_level ls -> (forall x y, R x y -> exact_level x -> exact_level y -> level_price x <> level_price y) ->
  StronglySorted R ls -> NoDup (map level_price ls).
Proof.
  intros He HR Hs. induction Hs as [|l ls Hs IH Hl]; cbn; [apply NoDup_nil_2|].
  apply Forall_cons in He as [Hel He]. apply NoDup_cons. split; [|by apply IH].
  intros (l' & Heq & Hin)%list_elem_of_fmap. eapply HR; [by eapply Forall_at| |by eapply Forall_at|done]. done.
Qed.

Lemma price_below_ne x y :
  price_below x y -> exact_level x -> exact_level y -> level_price x <> level_price y.
Proof.
  intros H (px & qx & Hx & _) (py & qy & Hy & _). unfold level_price.
  rewrite (exact_dec_scaled _ _ Hx), (exact_dec_scaled _ _ Hy).
  apply (exact_dec_less _ px _ py) in H; [lia|apply Hx|apply Hy].
Qed.

Lemma book_sides_wf b : exact_book b -> book_wf b -> side_wf (bids b) /\ side_wf (asks b).
Proof.
  intros [Hb Ha] [Sb Sa _ _]. split; (split; [done|]).
  - eapply sorted_prices_NoDup; [done| |exact Sb]. cbn. intros x y H ?? Heq.
    by eapply price_below_ne; [exact H|..].
  - eapply sorted_prices_NoDup; [done| |exact Sa]. apply price_below_ne.
Qed.

Lemma apply_lighter_update_spec b d t :
  exact_book b -> book_wf b -> Forall exact_delta (Lighter.lu_bids d) ->
  Forall exact_delta (Lighter.lu_asks d) ->
  fails_with ValueError (Lighter.apply_lighter_update b d t) /\
  forall b', Lighter.apply_lighter_update b d t = Ok b' ->
    exact_book b' /\ book_wf b' /\ ob_venue b' = Lighter.VENUE /\
    ob_symbol b' = default (ob_symbol b) (Lighter.lu_symbol d) /\
    sequence b' = Some (Lighter.lu_nonce d) /\
    side_map (bids b') = fold_left set_price (Lighter.lu_bids d) (side_map (bids b)) /\
    side_map (asks b') = fold_left set_price (Lighter.lu_asks d) (side_map (asks b)).
Proof.
  intros He Hwf Hb Ha. destruct (book_sides_wf b He Hwf) as [Sb Sa].
  destruct (apply_side_exact _ _ Sb Hb) as (nb & Eb & [Wb _] & Mb).
  destruct (apply_side_exact _ _ Sa Ha) as (na & Ea & [Wa _] & Ma).
  unfold Lighter.apply_lighter_update. rewrite Eb, Ea. cbn [mbind result_bind]. split.
  - by apply order_book_init_fails.
  - intros b' [-> Hb']%order_book_init_Ok. by split_and!.
Qed.

Lemma snapshot_book_fails s symbol t :
  Forall exact_level (Lighter.ls_bids s) -> Forall exact_level (Lighter.ls_asks s) ->
  fails_with ReconstructionError (Lighter.snapshot_book s symbol t).
Proof.
  intros Hb Ha. apply or_reconstruction_error_fails; [set_solver|]. by apply order_book_init_fails.
Qed.

Lemma snapshot_book_Ok s symbol t b :
  Lighter.snapshot_book s symbol t = Ok b ->
  b = mkSnapshot Lighter.VENUE symbol (Some (Lighter.ls_nonce s)) (Lighter.ls_timestamp s) t
        (Lighter.ls_bids s) (Lighter.ls_asks s) /\ book_wf b.
Proof. unfold Lighter.snapshot_book. rewrite or_reconstruction_error_Ok. apply order_book_init_Ok. Qed.

(** A decoded channel has the prefix and a market index. *)
Definition channel_ok (c : pystr) : Prop :=
  str_startswith Lighter.CHANNEL_PREFIX c = true /\
  str_isdigit (drop (length Lighter.CHANNEL_PREFIX) c) = true /\
  is_Ok (py_int 10 (drop (length Lighter.CHANNEL_PREFIX) c)) = true.

Lemma decode_channel_Ok d c : Lighter.decode_channel d = Ok c -> channel_ok c.
Proof.
  unfold Lighter.decode_channel, reject, channel_ok. intros H. case_match; inv_ok.
  split_and!; try done. by match goal with H : py_int _ _ = Ok _ |- _ => rewrite H end.
Qed.

Definition message_channel (m : Lighter.message) : pystr :=
  match m with
  | Lighter.Snapshot s => Lighter.ls_channel s
  | Lighter.Update d => Lighter.lu_channel d
  end.

Lemma decode_lighter_envelope_channel b m :
  Lighter.decode_lighter_envelope b = Ok m -> channel_ok (message_channel m).
Proof.
  unfold Lighter.decode_lighter_envelope. rewrite or_reconstruction_error_Ok.
  unfold Lighter.decode_envelope, Lighter.decode_snapshot, Lighter.decode_update, reject.
  intros H. inv_ok. repeat case_bool_decide; inv_ok; by eapply decode_channel_Ok.
Qed.

(** ** Properties *)

(** Applying Lighter deltas to one side of a book never fails, keeps the
    levels positive, exact and with distinct prices, and has the effect of setting
    or deleting each named price in the map from prices to sizes, in order. *)
Theorem apply_side_map ls ds :
  side_wf ls -> Forall exact_delta ds ->
  exists ls', Lighter.apply_side ls ds = Ok ls' /\ side_wf ls' /\
    side_map ls' = fold_left set_price ds (side_map ls).
Proof. apply apply_side_exact. Qed.

Definition level_of (p q : Z) : BookLevel := mkLevel (DFin false p 0) (DFin false q 0).

Lemma exact_dec_int z : 0 <= z < 1000 -> exact_dec (DFin false z 0) (z * 10 ^ 8).
Proof.
  intros Hz. split; [exists false, z, 0; split_and!; done || lia|].
  unfold in_range, MIN_SCALED, MAX_SCALED. lia.
Qed.

Lemma apply_side_map_witness :
  side_wf [level_of 3 1; level_of 2 5] /\
  exists ls', Lighter.apply_side [level_of 3 1; level_of 2 5]
      [(DFin false 2 0, DFin false 0 0); (DFin false 4 0, DFin false 7 0)] = Ok ls' /\
    side_wf ls' /\
    side_map ls' = fold_left set_price
      [(DFin false 2 0, DFin false 0 0); (DFin false 4 0, DFin false 7 0)]
      (side_map [level_of 3 1; level_of 2 5]).
Proof.
  assert (side_wf [level_of 3 1; level_of 2 5]) as H.
  { split.
    - repeat apply Forall_cons_2; [..|apply Forall_nil_2].
      + exists 300000000, 100000000. split_and!; try lia; [exact (exact_dec_int 3 ltac:(lia))|exact (exact_dec_int 1 ltac:(lia))].
      + exists 200000000, 500000000. split_and!; try lia; [exact (exact_dec_int 2 ltac:(lia))|exact (exact_dec_int 5 ltac:(lia))].
    - change (NoDup [300000000; 200000000]). repeat apply NoDup_cons_2; try apply NoDup_nil_2;
        intros H; inversion H as [|??? H1]; inversion H1. }
  split; [exact H|]. apply apply_side_map; [exact H|].
  repeat apply Forall_cons_2; [..|apply Forall_nil_2].
  - exists 200000000, 0. split_and!; try lia; [exact (exact_dec_int 2 ltac:(lia))|exact (exact_dec_int 0 ltac:(lia))].
  - exists 400000000, 700000000. split_and!; try lia; [exact (exact_dec_int 4 ltac:(lia))|exact (exact_dec_int 7 ltac:(lia))].
Defined.
