(* ===== verification/Reconstruction.v ===== *)
(** * [reconstruction.common]: the reconstruction of sealed envelopes

    A fold over the envelopes that keeps, per Lighter channel, the last admitted
    book (the channel's epoch).  Proved here: the only failure is a
    [ReconstructionError]; every admitted book is well formed and numbered in
    order; and every Lighter book either is a decoded snapshot or continues the
    last admitted book of its channel, whose nonce it names. *)

From S2P Require Import Prelude PyStr Num Exact ExactText PyObj Json Bytes Market Provenance.
From S2P Require Import Evidence Decoders.
Open Scope Z_scope.

Definition HYPERLIQUID_DECODER_ID : pystr := u "liqvera-hyperliquid-l2book-snapshot/v1".
Definition LIGHTER_DECODER_ID : pystr := u "liqvera-lighter-subscribed-order-book-snapshot/v1".

Record ReconstructedBook := mkBook {
  snapshot : OrderBookSnapshot; rb_envelope_index : Z; rb_payload_sha256 : pystr;
  decoder_id : pystr; epoch_id : Z; rb_mapping_id : option pystr;
  mapping : option MarketMappingEvidence; channel : option pystr }.

(** [_require_channel]; [int(suffix)] can still refuse the digits. *)
Definition require_channel (venue : pystr) (channel : option pystr) : result unit :=
  if str_eqb venue (u "HYPERLIQUID") then
    raise_if (isSome channel) ReconstructionError "Hyperliquid channel must be None"
  else
    match channel with
    | None => reject "Lighter channel must start with order_book:"
    | Some c =>
      raise_if (negb (str_startswith Lighter.CHANNEL_PREFIX c)) ReconstructionError
        "Lighter channel must start with order_book:" ;;
      let suffix := drop (length Lighter.CHANNEL_PREFIX) c in
      raise_if (negb (str_isdigit suffix)) ReconstructionError
        "Lighter channel market index must be digits" ;;
      _ ← py_int 10 suffix;
      Ok tt
    end.

(** [ReconstructedBook(...)] with [__post_init__]. *)
Definition reconstructed_book_init (book : OrderBookSnapshot) (index : Z) (sha decoder : pystr)
    (epoch : Z) (map_id : option pystr) (m : option MarketMappingEvidence) (ch : option pystr)
  : result ReconstructedBook :=
  (if str_eqb (ob_venue book) (u "HYPERLIQUID") then
     raise_if (isSome (sequence book)) ReconstructionError "sequence must be None" ;;
     raise_if (negb (str_eqb decoder HYPERLIQUID_DECODER_ID)) ReconstructionError "decoder_id"
   else if str_eqb (ob_venue book) (u "LIGHTER") then
     raise_if (negb (isSome (sequence book))) ReconstructionError "sequence must be an integer" ;;
     raise_if (negb (str_eqb decoder LIGHTER_DECODER_ID)) ReconstructionError "decoder_id"
   else reject "snapshot venue must be HYPERLIQUID or LIGHTER") ;;
  raise_if (index <? 0) ReconstructionError "envelope_index must be a nonnegative integer" ;;
  raise_if (epoch <? 0) ReconstructionError "epoch_id must be a nonnegative integer" ;;
  raise_if (negb (sha256_text sha)) ReconstructionError "payload_sha256 must be lowercase hexadecimal" ;;
  raise_if (negb (bool_decide (isSome m = isSome map_id))) ReconstructionError
    "mapping and mapping_id must both be set or both None" ;;
  raise_if (match map_id with Some s => str_eqb s [] | None => false end) ReconstructionError
    "mapping_id must be a nonempty string or None" ;;
  raise_if (match m, map_id with
            | Some m, Some s => negb (str_eqb (mapping_id m) s) | _, _ => false end)
    ReconstructionError "mapping.mapping_id must equal mapping_id" ;;
  require_channel (ob_venue book) ch ;;
  Ok (mkBook book index sha decoder epoch map_id m ch).

(** ** The loop *)

Record state := mkState {
  books : list ReconstructedBook; previous_index : option Z; next_epoch : Z;
  lighter_epochs : list (pystr * OrderBookSnapshot) }.

(** What one envelope contributes: nothing, with the channels it leaves, or a
    book with its decoder and channel. *)
Inductive outcome :=
  | Skip (epochs : list (pystr * OrderBookSnapshot))
  | Admit (book : OrderBookSnapshot) (decoder : pystr) (channel : option pystr)
          (epochs : list (pystr * OrderBookSnapshot)).

Definition read_lighter (epochs : list (pystr * OrderBookSnapshot))
    (mappings : list MarketMappingEvidence) (envelope : RawPublicEnvelope) : result outcome :=
  let observed := observed_at_ms envelope in
  decoded ← Lighter.decode_lighter_envelope (payload envelope);
  match decoded with
  | Lighter.Snapshot s =>
    let ch := Lighter.ls_channel s in
    symbol ← match Lighter.ls_symbol s with
             | Some symbol => Ok symbol
             | None => Lighter.lighter_ticker_for_channel ch mappings observed
             end;
    book ← Lighter.snapshot_book s symbol observed;
    Ok (Admit book LIGHTER_DECODER_ID (Some ch) (assoc_set ch book epochs))
  | Lighter.Update d =>
    let ch := Lighter.lu_channel d in
    match assoc ch epochs with
    | None => Ok (Skip epochs)
    | Some previous =>
      if match Lighter.lu_symbol d with
         | Some s => negb (str_eqb s (ob_symbol previous)) | None => false end
         || negb (bool_decide (sequence previous = Some (Lighter.begin_nonce d)))
         || (Lighter.lu_nonce d <=? Lighter.begin_nonce d)
      then Ok (Skip (assoc_del ch epochs))
      else
        match Lighter.apply_lighter_update previous d observed with
        | Ok book => Ok (Admit book LIGHTER_DECODER_ID (Some ch) (assoc_set ch book epochs))
        | Raise e =>
          if exc_subclass (exn_class e) ReconstructionError then Raise e
          else if exc_subclass (exn_class e) ValueError then Ok (Skip (assoc_del ch epochs))
          else Raise e
        end
    end
  end.

Definition read_envelope (epochs : list (pystr * OrderBookSnapshot))
    (mappings : list MarketMappingEvidence) (envelope : RawPublicEnvelope) : result outcome :=
  let venue := str_casefold (re_venue envelope) in
  if str_eqb venue (u "hyperliquid") then
    book ← Hyperliquid.decode_hyperliquid_l2book (payload envelope) (observed_at_ms envelope);
    Ok (Admit book HYPERLIQUID_DECODER_ID None epochs)
  else if str_eqb venue (u "lighter") then read_lighter epochs mappings envelope
  else Ok (Skip epochs).

Definition reconstruct_step (mappings : list MarketMappingEvidence) (s : state)
    (envelope : RawPublicEnvelope) : result state :=
  let index := envelope_index envelope in
  raise_if (match previous_index s with Some i => index <=? i | None => false end)
    ReconstructionError "envelope_index must be strictly increasing" ;;
  o ← read_envelope (lighter_epochs s) mappings envelope;
  match o with
  | Skip epochs => Ok (mkState (books s) (Some index) (next_epoch s) epochs)
  | Admit book decoder ch epochs =>
    b ← reconstructed_book_init book index (payload_sha256 envelope) decoder (next_epoch s)
          None None ch;
    Ok (mkState (books s ++ [b]) (Some index) (next_epoch s + 1) epochs)
  end.

Definition reconstruct_books (envelopes : list RawPublicEnvelope)
    (mappings : list MarketMappingEvidence) : result (list ReconstructedBook) :=
  books <$> foldM (reconstruct_step mappings) (mkState [] None 0 []) envelopes.

(** ** The epochs of the loop hold admitted exact books *)

Definition epoch_book (b : OrderBookSnapshot) : Prop :=
  exact_book b /\ book_wf b /\ ob_venue b = Lighter.VENUE /\ sequence b <> None.

Definition epochs_ok (epochs : list (pystr * OrderBookSnapshot)) : Prop :=
  forall c b, (c, b) ∈ epochs -> epoch_book b.

Lemma epochs_ok_set c b epochs :
  epochs_ok epochs -> epoch_book b -> epochs_ok (assoc_set c b epochs).
Proof. intros H Hb c' b' [Heq|Hin]%assoc_set_elem; simplify_eq; [done|by eapply H]. Qed.

Lemma epochs_ok_del c epochs : epochs_ok epochs -> epochs_ok (assoc_del c epochs).
Proof. intros H c' b' Hin%assoc_del_subset. by eapply H. Qed.

Lemma ticker_fails c ms t :
  channel_ok c -> fails_with ReconstructionError (Lighter.lighter_ticker_for_channel c ms t).
Proof.
  intros (_ & _ & Hi). unfold Lighter.lighter_ticker_for_channel, reject.
  destruct (py_int _ _); [|done]. cbn [mbind result_bind]. by repeat case_match.
Qed.

(** A snapshot's book is an epoch book. *)
Lemma snapshot_epoch_book s symbol t b :
  exact_message (Lighter.Snapshot s) -> Lighter.snapshot_book s symbol t = Ok b -> epoch_book b.
Proof. intros [Hb Ha] [-> Hwf]%snapshot_book_Ok. by split_and!. Qed.

Lemma update_epoch_book b d t b' :
  epoch_book b -> exact_message (Lighter.Update d) ->
  Lighter.apply_lighter_update b d t = Ok b' -> epoch_book b'.
Proof.
  intros (He & Hwf & _ & _) [Hb Ha] H.
  eapply apply_lighter_update_spec in H as (He' & Hwf' & Hv & _ & Hs & _); [|done..].
  split_and!; try done. by rewrite Hs.
Qed.

Lemma read_lighter_fails epochs ms e :
  epochs_ok epochs -> fails_with ReconstructionError (read_lighter epochs ms e).
Proof.
  intros Hep. unfold read_lighter. apply fails_bind; [apply decode_lighter_envelope_fails|].
  intros m Hm. pose proof (decode_lighter_envelope_exact _ _ Hm) as Hx.
  apply decode_lighter_envelope_channel in Hm. destruct m as [s|d]; cbn in Hm.
  - apply fails_bind; [destruct (Lighter.ls_symbol s); [done|by apply ticker_fails]|].
    intros symbol _. apply fails_bind; [|done]. destruct Hx. by apply snapshot_book_fails.
  - destruct (assoc _ epochs) as [b|] eqn:Ha; [|done]. apply assoc_elem in Ha.
    pose proof (Hep _ _ Ha) as (He & Hwf & _ & _). destruct (_ || _); [done|].
    destruct Hx as [Hdb Hda].
    destruct (apply_lighter_update_spec b d (observed_at_ms e) He Hwf Hdb Hda) as [Hf _].
    destruct (Lighter.apply_lighter_update _ _ _) as [b'|x]; [done|].
    cbn [fails_with] in Hf. destruct (exc_subclass (exn_class x) ReconstructionError) eqn:E; [done|].
    by rewrite Hf.
Qed.

(** What [read_envelope] returns keeps the epochs in order; an admitted book is
    well formed, with the decoder and channel its constructor asks for. *)
Definition admissible (book : OrderBookSnapshot) (decoder : pystr) (ch : option pystr) : Prop :=
  exact_book book /\ book_wf book /\
  ((ob_venue book = Hyperliquid.VENUE /\ sequence book = None /\
    decoder = HYPERLIQUID_DECODER_ID /\ ch = None) \/
   (ob_venue book = Lighter.VENUE /\ sequence book <> None /\
    decoder = LIGHTER_DECODER_ID /\ exists c, ch = Some c /\ channel_ok c)).

Definition outcome_ok (o : outcome) : Prop :=
  match o with
  | Skip epochs => epochs_ok epochs
  | Admit book decoder ch epochs => epochs_ok epochs /\ admissible book decoder ch
  end.

Lemma read_envelope_ok epochs ms e :
  epochs_ok epochs ->
  fails_with ReconstructionError (read_envelope epochs ms e) /\
  forall o, read_envelope epochs ms e = Ok o -> outcome_ok o.
Proof.
  intros Hep. unfold read_envelope. split.
  { destruct (str_eqb _ (u "hyperliquid")); [|destruct (str_eqb _ _)].
    - apply fails_bind; [apply hyperliquid_decode_fails|done].
    - by apply read_lighter_fails.
    - done. }
  intros o H. destruct (str_eqb _ (u "hyperliquid")); [|destruct (str_eqb _ _)]; inv_ok; [| |done].
  - rename select (Hyperliquid.decode_hyperliquid_l2book _ _ = _) into Hd.
    apply hyperliquid_decode_Ok in Hd as (? & ? & ? & ? & _). split; [done|]. split_and!; auto.
  - unfold read_lighter in H. apply bind_Ok in H as (m & Hm & H).
    pose proof (decode_lighter_envelope_exact _ _ Hm) as Hx.
    apply decode_lighter_envelope_channel in Hm.
    assert (forall b, epoch_book b -> forall c, channel_ok c ->
      outcome_ok (Admit b LIGHTER_DECODER_ID (Some c) (assoc_set c b epochs))) as Hok.
    { intros b (? & ? & ? & ?) c Hc. split; [by apply epochs_ok_set|].
      split_and!; [done..|right]. split_and!; try done. by exists c. }
    destruct m as [s|d]; cbn in Hm.
    + apply bind_Ok in H as (symbol & _ & (b & Hb & [= <-])%bind_Ok).
      apply Hok; [by eapply snapshot_epoch_book|done].
    + destruct (assoc _ epochs) as [b|] eqn:Ha; [|by injection H as <-].
      apply assoc_elem, Hep in Ha. destruct (_ || _); [injection H as <-; by apply epochs_ok_del|].
      destruct (Lighter.apply_lighter_update _ _ _) as [b'|x] eqn:Hu.
      * injection H as <-. apply Hok; [by eapply update_epoch_book|done].
      * repeat case_match; simplify_eq; by apply epochs_ok_del.
Qed.

Lemma book_init_admissible book index sha decoder epoch ch :
  admissible book decoder ch ->
  fails_with ReconstructionError (reconstructed_book_init book index sha decoder epoch None None ch) /\
  forall b, reconstructed_book_init book index sha decoder epoch None None ch = Ok b ->
    b = mkBook book index sha decoder epoch None None ch.
Proof.
  intros (_ & _ & Hcase). split.
  - unfold reconstructed_book_init. destruct Hcase as [(-> & -> & -> & ->)|(-> & Hs & -> & (c & -> & Hc & Hd & Hi))].
    + fails; done.
    + destruct (sequence book); [|done]. fails; try done.
      unfold require_channel. destruct (str_eqb _ _); [done|]. rewrite Hc, Hd. cbn [negb].
      by destruct (py_int _ _).
  - intros b H. unfold reconstructed_book_init in H.
    repeat (apply bind_Ok in H as (? & _ & H)). by injection H as <-.
Qed.

(** ** The invariant of the loop *)

Definition last_of (c : pystr) (bs : list ReconstructedBook) : option ReconstructedBook :=
  last (filter (fun b => channel b = Some c) bs).

(** Where a Lighter book comes from, given the books admitted before it. *)
Definition lighter_origin (es : list RawPublicEnvelope) (before : list ReconstructedBook)
    (b : ReconstructedBook) : Prop :=
  forall c, channel b = Some c ->
  exists e m, e ∈ es /\ envelope_index e = rb_envelope_index b /\
    Lighter.decode_lighter_envelope (payload e) = Ok m /\ message_channel m = c /\
    match m with
    | Lighter.Snapshot s =>
      bids (snapshot b) = Lighter.ls_bids s /\ asks (snapshot b) = Lighter.ls_asks s /\
      sequence (snapshot b) = Some (Lighter.ls_nonce s)
    | Lighter.Update d =>
      exists p, last_of c before = Some p /\
        sequence (snapshot p) = Some (Lighter.begin_nonce d) /\
        Lighter.begin_nonce d < Lighter.lu_nonce d /\
        sequence (snapshot b) = Some (Lighter.lu_nonce d) /\
        side_map (bids (snapshot b)) =
          fold_left set_price (Lighter.lu_bids d) (side_map (bids (snapshot p))) /\
        side_map (asks (snapshot b)) =
          fold_left set_price (Lighter.lu_asks d) (side_map (asks (snapshot p)))
    end.

Record loop_inv (es : list RawPublicEnvelope) (s : state) : Prop := {
  li_epochs : epochs_ok (lighter_epochs s);
  li_last : forall c b, assoc c (lighter_epochs s) = Some b ->
    exists p, last_of c (books s) = Some p /\ snapshot p = b;
  li_wf : Forall (fun b => book_wf (snapshot b) /\ exact_book (snapshot b) /\
    (channel b = None <-> ob_venue (snapshot b) = Hyperliquid.VENUE) /\
    rb_mapping_id b = None /\ mapping b = None) (books s);
  li_epoch_ids : map epoch_id (books s) = map Z.of_nat (seq 0 (length (books s))) /\
    next_epoch s = Z.of_nat (length (books s));
  li_indexes : StronglySorted Z.lt (map rb_envelope_index (books s)) /\
    forall b, b ∈ books s -> exists i, previous_index s = Some i /\ rb_envelope_index b <= i;
  li_origin : forall l1 b l2, books s = l1 ++ b :: l2 -> lighter_origin es l1 b }.

Lemma loop_inv_init es : loop_inv es (mkState [] None 0 []).
Proof.
  split; cbn; try done.
  - intros c b Hin. by apply not_elem_of_nil in Hin.
  - split; [constructor|]. intros b Hin. by apply not_elem_of_nil in Hin.
  - intros [] ? ? [=].
Qed.

(** A step that admits no book. *)
Lemma loop_inv_skip es s epochs i :
  loop_inv es s -> epochs_ok epochs ->
  (forall c b, assoc c epochs = Some b -> exists p, last_of c (books s) = Some p /\ snapshot p = b) ->
  match previous_index s with Some j => j < i | None => True end ->
  loop_inv es (mkState (books s) (Some i) (next_epoch s) epochs).
Proof.
  intros [He Hl Hw Hi [Hs Hp] Ho] Hep Hlast Hij. split; cbn; try done.
  split; [done|]. intros b Hb. exists i. split; [done|].
  destruct (Hp b Hb) as (j & Hj & Hle). rewrite Hj in Hij. lia.
Qed.

Lemma last_of_snoc c bs b :
  last_of c (bs ++ [b]) = if decide (channel b = Some c) then Some b else last_of c bs.
Proof.
  unfold last_of. rewrite filter_app, filter_cons. case_decide.
  - cbn. by rewrite last_snoc.
  - cbn. by rewrite app_nil_r.
Qed.

(** A step that admits a book. *)
Lemma loop_inv_admit es s b epochs :
  loop_inv es s -> epochs_ok epochs ->
  (forall c k, assoc c epochs = Some k ->
     (channel b = Some c /\ snapshot b = k) \/
     (channel b <> Some c /\ assoc c (lighter_epochs s) = Some k)) ->
  match previous_index s with Some j => j < rb_envelope_index b | None => True end ->
  book_wf (snapshot b) /\ exact_book (snapshot b) /\
    (channel b = None <-> ob_venue (snapshot b) = Hyperliquid.VENUE) /\
    rb_mapping_id b = None /\ mapping b = None ->
  epoch_id b = next_epoch s -> lighter_origin es (books s) b ->
  loop_inv es (mkState (books s ++ [b]) (Some (rb_envelope_index b)) (next_epoch s + 1) epochs).
Proof.
  intros [He Hl Hw [Hi Hn] [Hs Hp] Ho] Hep Hlast Hij Hb Hid Horig.
  split; cbn [books lighter_epochs next_epoch previous_index].
  - done.
  - intros c k Hk. rewrite last_of_snoc. destruct (Hlast c k Hk) as [[Hc <-]|[Hc Hold]].
    + rewrite decide_True by done. by exists b.
    + rewrite decide_False by done. by apply Hl.
  - apply Forall_app. split; [done|]. by apply Forall_cons_2, Forall_nil_2.
  - rewrite length_app, !map_app, Hi. cbn [map length]. replace (length (books s) + 1)%nat with (S (length (books s))) by lia.
    rewrite seq_S, map_app. cbn. split; [by rewrite Hid, Hn|lia].
  - split.
    + rewrite map_app. apply StronglySorted_snoc; [done|].
      intros x (b' & -> & Hb')%list_elem_of_fmap. destruct (Hp b' Hb') as (j & Hj & Hle).
      rewrite Hj in Hij. lia.
    + intros b' [Hb'| ->%list_elem_of_singleton]%elem_of_app; (eexists; split; [done|]); [|lia].
      destruct (Hp b' Hb') as (j & Hj & Hle). rewrite Hj in Hij. lia.
  - intros l1 x l2 Heq. destruct l2 as [|y l2] using rev_ind; [|clear IHl2].
    + apply app_inj_tail in Heq as [<- <-]. done.
    + rewrite app_comm_cons, app_assoc in Heq. apply app_inj_tail in Heq as [Heq _]. by eapply Ho.
Qed.

(** ** The invariant is preserved *)

Lemma update_guard d (previous : OrderBookSnapshot) :
  match Lighter.lu_symbol d with
  | Some s => negb (str_eqb s (ob_symbol previous)) | None => false end
  || negb (bool_decide (sequence previous = Some (Lighter.begin_nonce d)))
  || (Lighter.lu_nonce d <=? Lighter.begin_nonce d) = false ->
  sequence previous = Some (Lighter.begin_nonce d) /\ Lighter.begin_nonce d < Lighter.lu_nonce d.
Proof. intros H. inv_ok. by reflect_bools. Qed.

Lemma del_last es s c i :
  loop_inv es s -> NoDup (map fst (lighter_epochs s)) ->
  match previous_index s with Some j => j < i | None => True end ->
  loop_inv es (mkState (books s) (Some i) (next_epoch s) (assoc_del c (lighter_epochs s))).
Proof.
  intros Hinv Hd Hi. apply loop_inv_skip; [done|apply epochs_ok_del, Hinv| |done].
  intros c' b Hb. destruct (decide (c' = c)) as [->|Hne].
  - by rewrite assoc_del_same in Hb.
  - rewrite assoc_del_other in Hb by done. by eapply li_last.
Qed.

(** The channels of the epochs are distinct, as the keys of a dict. *)
Definition inv (es : list RawPublicEnvelope) (s : state) : Prop :=
  loop_inv es s /\ NoDup (map fst (lighter_epochs s)).

Lemma assoc_del_NoDup {V} c (d : list (pystr * V)) :
  NoDup (map fst d) -> NoDup (map fst (assoc_del c d)).
Proof.
  induction d as [|[k v] d IH]; cbn; [done|]. intros [Hk Hd]%NoDup_cons. case_decide; [done|].
  cbn. apply NoDup_cons. split; [|by apply IH]. intros (x & -> & Hx%assoc_del_subset)%list_elem_of_fmap.
  apply Hk. by apply list_elem_of_fmap_2.
Qed.

Lemma index_guard (s : state) i :
  match previous_index s with Some j => i <=? j | None => false end = false ->
  match previous_index s with Some j => j < i | None => True end.
Proof. destruct (previous_index s); [apply Z.leb_gt|done]. Qed.

Lemma admit_set es s e b ch :
  inv es s -> e ∈ es -> channel b = Some ch ->
  match previous_index s with Some j => j < rb_envelope_index b | None => True end ->
  epoch_book (snapshot b) -> rb_mapping_id b = None -> mapping b = None ->
  epoch_id b = next_epoch s -> lighter_origin es (books s) b ->
  inv es (mkState (books s ++ [b]) (Some (rb_envelope_index b)) (next_epoch s + 1)
            (assoc_set ch (snapshot b) (lighter_epochs s))).
Proof.
  intros [Hinv Hd] He Hch Hi Hep Hm1 Hm2 Hid Ho. split; [|by apply assoc_set_NoDup].
  apply loop_inv_admit; try done.
  - apply epochs_ok_set; [apply Hinv|done].
  - intros c k Hk. destruct (decide (c = ch)) as [->|Hne].
    + rewrite assoc_set_same in Hk. left. by simplify_eq.
    + rewrite assoc_set_other in Hk by done. right. split; [congruence|done].
  - destruct Hep as (? & ? & Hv & ?). split_and!; try done.
    rewrite Hch, Hv. split; [done|]. intros Habs. vm_compute in Habs. done.
Qed.

Lemma reconstruct_step_inv es ms s e s' :
  inv es s -> e ∈ es -> reconstruct_step ms s e = Ok s' -> inv es s'.
Proof.
  intros [Hinv Hd] He H. pose proof (li_epochs _ _ Hinv) as Hep.
  unfold reconstruct_step in H. apply bind_Ok in H as ([] & Hi%raise_if_Ok%index_guard & H).
  apply bind_Ok in H as (o & Hread & H).
  destruct (read_envelope_ok (lighter_epochs s) ms e Hep) as [_ Hok]. specialize (Hok o Hread).
  destruct o as [epochs|book decoder ch epochs].
  - injection H as <-. unfold read_envelope, read_lighter in Hread.
    assert (inv es (mkState (books s) (Some (envelope_index e)) (next_epoch s) (lighter_epochs s))) as Hskip.
    { split; [|done]. apply loop_inv_skip; [done..|apply Hinv|done]. }
    assert (forall c, inv es (mkState (books s) (Some (envelope_index e)) (next_epoch s)
              (assoc_del c (lighter_epochs s)))) as Hdel.
    { intros c. split; [by apply del_last|]. by apply assoc_del_NoDup. }
    repeat (case_match; inv_ok); simplify_eq; done || apply Hdel.
  - destruct Hok as [Hep' Hadm]. apply bind_Ok in H as (b & Hb & [= <-]).
    apply (book_init_admissible _ _ _ _ _ _ Hadm) in Hb.
    assert (snapshot b = book /\ channel b = ch /\ epoch_id b = next_epoch s /\
      rb_mapping_id b = None /\ mapping b = None /\ rb_envelope_index b = envelope_index e)
      as (Hbs & Hbc & Hbe & Hbm & Hbm' & Hbi) by by subst.
    clear Hb. rewrite <- Hbi in *. unfold read_envelope in Hread.
    destruct (str_eqb _ (u "hyperliquid")); [|destruct (str_eqb _ _); [|done]].
    + apply bind_Ok in Hread as (bk & _ & [= -> <- Hch <-]). rewrite <- Hbs, <- Hch in *.
      destruct Hadm as (Hx & Hwf & Hcase). split; [|done]. apply loop_inv_admit; try done.
      * intros c k Hk. right. split; [by rewrite Hbc|done].
      * split_and!; try done. destruct Hcase as [(Hv & _)|(_ & _ & Hdec & _)]; [done|].
        vm_compute in Hdec. done.
      * intros c Hc. by rewrite Hbc in Hc.
    + unfold read_lighter in Hread. apply bind_Ok in Hread as (m & Hm & Hread).
      pose proof (decode_lighter_envelope_exact _ _ Hm) as Hxm. destruct m as [sn|d].
      * apply bind_Ok in Hread as (symbol & _ & (bk & Hsn & [= <- <- Hch <-])%bind_Ok).
        pose proof (snapshot_epoch_book _ _ _ _ Hxm Hsn) as Hepb.
        apply snapshot_book_Ok in Hsn as [Hbk _]. rewrite <- Hbs in *. rewrite <- Hch in Hbc.
        apply (admit_set es s e b); try done.
        intros c Hc. rewrite Hbc in Hc. injection Hc as <-. exists e, (Lighter.Snapshot sn).
        by rewrite Hbk.
      * cbn in Hread. destruct (assoc _ _) as [previous|] eqn:Ha; [|done].
        destruct (_ || _) eqn:Hg; [done|]. apply update_guard in Hg as [Hseq Hlt].
        destruct (Lighter.apply_lighter_update _ _ _) as [bk|x] eqn:Hu; [|by repeat case_match].
        injection Hread as <- <- Hch <-. rewrite <- Hch in Hbc.
        pose proof (Hep _ _ (assoc_elem _ _ _ Ha)) as Hepp.
        pose proof (update_epoch_book _ _ _ _ Hepp Hxm Hu) as Hepb.
        destruct Hepp as (Hxp & Hwp & _ & _), Hxm as [Hxb Hxa].
        eapply apply_lighter_update_spec in Hu as (_ & _ & _ & _ & Hs & Hbm1 & Ham); [|done..].
        destruct (li_last _ _ Hinv _ _ Ha) as (p & Hlast & Hp). rewrite <- Hbs in *.
        apply (admit_set es s e b); try done.
        intros c Hc. rewrite Hbc in Hc. injection Hc as <-. exists e, (Lighter.Update d).
        split_and!; try done. exists p. rewrite Hp. by split_and!.
Qed.

Lemma reconstruct_step_fails es ms s e :
  inv es s -> fails_with ReconstructionError (reconstruct_step ms s e).
Proof.
  intros [Hinv _]. unfold reconstruct_step. apply fails_bind; [fails|intros _ _].
  destruct (read_envelope_ok (lighter_epochs s) ms e (li_epochs _ _ Hinv)) as [Hf Hok].
  apply fails_bind; [exact Hf|]. intros o Ho. specialize (Hok o Ho).
  destruct o as [|book decoder ch epochs]; [done|]. destruct Hok as [_ Hadm].
  apply fails_bind; [by apply book_init_admissible|done].
Qed.

Lemma reconstruct_books_inv es ms bs :
  reconstruct_books es ms = Ok bs -> exists s, inv es s /\ books s = bs.
Proof.
  unfold reconstruct_books. intros (s & Hs & ->)%fmap_Ok. exists s. split; [|done].
  eapply (foldM_invariant (inv es)); [|intros; by eapply reconstruct_step_inv|exact Hs].
  split; [apply loop_inv_init|apply NoDup_nil_2].
Qed.

(** ** Properties *)

Lemma reconstruct_books_fails es ms :
  fails_with ReconstructionError (reconstruct_books es ms).
Proof.
  unfold reconstruct_books. apply fails_fmap. apply (fails_foldM _ (inv es)).
  - split; [apply loop_inv_init|apply NoDup_nil_2].
  - intros s e _ Hs. by eapply reconstruct_step_fails.
  - intros. by eapply reconstruct_step_inv.
Qed.

(** Reconstruction either returns or raises a [ReconstructionError], on
    every sequence of envelopes and mappings. *)
Theorem reconstruct_books_fails_closed es ms :
  fails_with ReconstructionError (reconstruct_books es ms).
Proof. apply reconstruct_books_fails. Qed.

(** Every reconstructed book is well formed and unbound, the books carry the
    epochs 0, 1, 2, ... and the strictly increasing indexes of their envelopes. *)
Theorem reconstruct_books_wf es ms bs :
  reconstruct_books es ms = Ok bs ->
  Forall (fun b => book_wf (snapshot b) /\ rb_mapping_id b = None /\ mapping b = None) bs /\
  map epoch_id bs = map Z.of_nat (seq 0 (length bs)) /\
  StronglySorted Z.lt (map rb_envelope_index bs).
Proof.
  intros (s & [[_ _ Hw [Hi _] [Hs _] _] _] & <-)%reconstruct_books_inv. split_and!; [|done..].
  eapply Forall_impl; [exact Hw|]. by intros b (? & _ & _ & ? & ?).
Qed.

(** C30: every reconstructed Lighter book is the book of a snapshot envelope of
    its channel, or it is the last earlier book of that channel with one update
    applied, an update that begins at that book's nonce and raises it. *)
Theorem reconstruct_books_contiguous es ms l1 b l2 :
  reconstruct_books es ms = Ok (l1 ++ b :: l2) -> lighter_origin es l1 b.
Proof. intros (s & [[_ _ _ _ _ Ho] _] & Hb)%reconstruct_books_inv. by apply (Ho l1 b l2). Qed.

(** ** A snapshot and an update of one Lighter channel *)

(** A JSON text written with apostrophes. *)
Definition quoted (s : string) : pystr := map (fun c => if c =? 39 then 34 else c) (u s).

Definition demo_envelope (index : Z) (text : string) : RawPublicEnvelope :=
  mkEnvelope 0 index (1000 + index) (u "LIGHTER") (sha256_hex (quoted text)) (quoted text).

Definition demo_envelopes : list RawPublicEnvelope :=
  [demo_envelope 3 ("{'type':'subscribed/order_book','channel':'order_book:1','timestamp':5,'symbol':'BTC'," +:+
     "'order_book':{'nonce':7,'bids':[{'price':'10','size':'1'}],'asks':[{'price':'11','size':'2'}]}}");
   demo_envelope 4 ("{'type':'update/order_book','channel':'order_book:1','timestamp':6," +:+
     "'order_book':{'begin_nonce':7,'nonce':9,'bids':[{'price':'10','size':'3'}],'asks':[]}}")].

Definition demo_books : list ReconstructedBook :=
  match reconstruct_books demo_envelopes [] with Ok bs => bs | Raise _ => [] end.

Lemma demo_books_Ok : reconstruct_books demo_envelopes [] = Ok demo_books.
Proof. vm_compute. reflexivity. Qed.

Example demo_books_length : length demo_books = 2%nat.
Proof. vm_compute. reflexivity. Qed.

Lemma reconstruct_books_wf_witness :
  length demo_books = 2%nat /\
  Forall (fun b => book_wf (snapshot b) /\ rb_mapping_id b = None /\ mapping b = None) demo_books /\
  map epoch_id demo_books = map Z.of_nat (seq 0 (length demo_books)) /\
  StronglySorted Z.lt (map rb_envelope_index demo_books).
Proof.
  split; [apply demo_books_length|].
  apply (reconstruct_books_wf demo_envelopes [] demo_books). apply demo_books_Ok.
Defined.

Lemma reconstruct_books_contiguous_witness :
  exists l1 b, demo_books = l1 ++ b :: [] /\ l1 <> [] /\ lighter_origin demo_envelopes l1 b.
Proof.
  pose proof demo_books_Ok as H. pose proof demo_books_length as Hl.
  destruct demo_books as [|b1 [|b2 [|]]]; try discriminate Hl.
  exists [b1], b2. split; [reflexivity|]. split; [discriminate|].
  apply (reconstruct_books_contiguous demo_envelopes [] [b1] b2 []). exact H.
Defined.
