(* ===== verification/Identity.v ===== *)
(** * [liqvera_readonly_analyzer.identity]: binding books to sealed mappings

    Proved here: binding succeeds exactly when every book has one candidate
    mapping, the bound book differs from the given one in that mapping only, and
    on reconstructed books the only failure is an [IdentityBindError]. *)

From S2P Require Import Prelude PyStr Num PyObj Bytes Market Provenance Evidence Decoders.
From S2P Require Import Reconstruction.
Open Scope Z_scope.

Definition bind_reject {A} (msg : string) : result A := raise IdentityBindError msg.

(** [_is_candidate] *)
Definition is_candidate (m : MarketMappingEvidence) (book : ReconstructedBook) : bool :=
  bool_decide (decision m = APPROVED) &&
  str_eqb (str_casefold (mm_venue m)) (str_casefold (ob_venue (snapshot book))) &&
  str_eqb (mm_symbol m) (ob_symbol (snapshot book)) &&
  is_current m (received_timestamp_ms (snapshot book)).

(** [_lighter_candidates]: mappings with the channel's market index, or, when
    there is none, those without an index. *)
Definition lighter_candidates (ms : list MarketMappingEvidence) (book : ReconstructedBook)
  : result (list MarketMappingEvidence) :=
  match channel book with
  | None => bind_reject "Lighter book channel is missing"
  | Some c =>
    raise_if (negb (str_startswith Lighter.CHANNEL_PREFIX c)) IdentityBindError
      "Lighter book channel must start with order_book:" ;;
    let suffix := drop (length Lighter.CHANNEL_PREFIX) c in
    raise_if (negb (str_isdigit suffix)) IdentityBindError
      "Lighter book channel market index must be digits" ;;
    index ← py_int 10 suffix;
    let indexed := List.filter (fun m => is_candidate m book &&
                     bool_decide (lighter_market_index m = Some index)) ms in
    Ok (match indexed with
        | _ :: _ => indexed
        | [] => List.filter (fun m => is_candidate m book &&
                  bool_decide (lighter_market_index m = None)) ms
        end)
  end.

Definition candidates (ms : list MarketMappingEvidence) (book : ReconstructedBook)
  : result (list MarketMappingEvidence) :=
  if str_eqb (str_casefold (ob_venue (snapshot book))) (u "lighter") then lighter_candidates ms book
  else Ok (List.filter (fun m => is_candidate m book) ms).

(** [replace(book, mapping_id=m.mapping_id, mapping=m)], which runs the
    constructor again. *)
Definition replace_mapping (book : ReconstructedBook) (m : MarketMappingEvidence)
  : result ReconstructedBook :=
  reconstructed_book_init (snapshot book) (rb_envelope_index book) (rb_payload_sha256 book)
    (decoder_id book) (epoch_id book) (Some (mapping_id m)) (Some m) (channel book).

Definition bind_book (ms : list MarketMappingEvidence) (book : ReconstructedBook)
  : result ReconstructedBook :=
  raise_if (isSome (rb_mapping_id book) || isSome (mapping book)) IdentityBindError
    "book is already bound" ;;
  found ← candidates ms book;
  match found with
  | [chosen] => replace_mapping book chosen
  | _ => bind_reject "claimed book has no unique current approved mapping for its snapshot venue"
  end.

Definition bind_reconstructed_books (books : list ReconstructedBook)
    (ms : list MarketMappingEvidence) : result (list ReconstructedBook) :=
  mapR (bind_book ms) books.

(** ** Checked books *)

(** The book passes its own constructor. *)
Definition checked (b : ReconstructedBook) : Prop :=
  reconstructed_book_init (snapshot b) (rb_envelope_index b) (rb_payload_sha256 b) (decoder_id b)
    (epoch_id b) (rb_mapping_id b) (mapping b) (channel b) = Ok b.

Lemma reconstructed_book_init_checked book i sha dec ep mid m ch b :
  reconstructed_book_init book i sha dec ep mid m ch = Ok b -> checked b.
Proof.
  intros H. pose proof H as H'. unfold reconstructed_book_init in H'.
  repeat (apply bind_Ok in H' as (? & _ & H')). injection H' as <-. exact H.
Qed.

Lemma reconstruct_books_checked es ms bs :
  reconstruct_books es ms = Ok bs -> Forall checked bs.
Proof.
  unfold reconstruct_books. intros (s & Hs & ->)%fmap_Ok.
  apply (foldM_invariant (fun s => Forall checked (books s))) in Hs; [done|constructor|].
  intros t e t' _ Ht H. unfold reconstruct_step in H.
  apply bind_Ok in H as (? & _ & (o & _ & H)%bind_Ok). destruct o.
  - by injection H as <-.
  - apply bind_Ok in H as (b & Hb & [= <-]). cbn. apply Forall_app. split; [done|].
    apply Forall_cons_2; [by eapply reconstructed_book_init_checked|apply Forall_nil_2].
Qed.

Definition bound_to (b : ReconstructedBook) (m : MarketMappingEvidence) : ReconstructedBook :=
  mkBook (snapshot b) (rb_envelope_index b) (rb_payload_sha256 b) (decoder_id b) (epoch_id b)
    (Some (mapping_id m)) (Some m) (channel b).

Definition unbound (b : ReconstructedBook) : Prop := rb_mapping_id b = None /\ mapping b = None.

Lemma reconstruct_books_unbound es ms bs : reconstruct_books es ms = Ok bs -> Forall unbound bs.
Proof.
  intros (s & [Hinv _] & <-)%reconstruct_books_inv. eapply Forall_impl; [apply (li_wf _ _ Hinv)|].
  by intros b (_ & _ & _ & ? & ?).
Qed.

(** The constructor accepts the replaced mapping of a checked book. *)
Lemma replace_mapping_Ok b m :
  checked b -> unbound b -> mapping_id m <> [] -> replace_mapping b m = Ok (bound_to b m).
Proof.
  unfold checked, replace_mapping, reconstructed_book_init. intros H [Hi Hm] Hne. rewrite Hi, Hm in H.
  repeat (apply bind_Ok in H as ([] & ? & H)).
  repeat match goal with H : ?m = Ok tt |- context [?m] => rewrite H; cbn [mbind result_bind] end.
  rewrite bool_decide_true by done. rewrite (proj2 (str_eqb_false _ _) Hne), str_eqb_refl.
  cbn [negb raise_if mbind result_bind].
  repeat match goal with H : ?m = Ok tt |- context [?m] => rewrite H; cbn [mbind result_bind] end.
  done.
Qed.

(** The channel of a checked Lighter book has a market index. *)
Lemma require_channel_Ok v c x :
  require_channel v c = Ok x ->
  if str_eqb v (u "HYPERLIQUID") then c = None else exists ch, c = Some ch /\ channel_ok ch.
Proof.
  unfold require_channel, channel_ok, reject. intros H. destruct (str_eqb v _).
  { inv_ok. by destruct c. }
  destruct c as [ch|]; [|done]. inv_ok. exists ch. split_and!; try done.
  by match goal with H : py_int _ _ = Ok _ |- _ => rewrite H end.
Qed.

Lemma checked_venue b :
  checked b ->
  (ob_venue (snapshot b) = u "HYPERLIQUID" /\ channel b = None) \/
  (ob_venue (snapshot b) = u "LIGHTER" /\ exists c, channel b = Some c /\ channel_ok c).
Proof.
  unfold checked, reconstructed_book_init, reject. intros H. apply bind_Ok in H as ([] & Hv & H).
  repeat (apply bind_Ok in H as ([] & ? & H)).
  rename select (require_channel _ _ = _) into Hc. apply require_channel_Ok in Hc.
  destruct (str_eqb _ (u "HYPERLIQUID")) eqn:E1; [left; by apply str_eqb_spec in E1|].
  destruct (str_eqb _ (u "LIGHTER")) eqn:E2; [right; by apply str_eqb_spec in E2|done].
Qed.

Lemma candidates_fails ms b : checked b -> fails_with IdentityBindError (candidates ms b).
Proof.
  intros [[Hv Hc]|(Hv & c & Hc & Hp & Hd & Hi)]%checked_venue; unfold candidates; rewrite Hv.
  - done.
  - destruct (str_eqb _ _); [|done]. unfold lighter_candidates. rewrite Hc, Hp, Hd. cbn.
    by destruct (py_int _ _).
Qed.

Lemma candidates_in ms b l m : candidates ms b = Ok l -> m ∈ l -> m ∈ ms.
Proof.
  unfold candidates, lighter_candidates, bind_reject. intros H Hm.
  assert (forall p, m ∈ List.filter p ms -> m ∈ ms) as Hf.
  { intros p Hp. by apply list_elem_of_In, filter_In, proj1, list_elem_of_In in Hp. }
  destruct (str_eqb _ _); inv_ok; [|by eapply Hf]. destruct (channel b); inv_ok.
  destruct (List.filter _ ms) eqn:E in Hm; [by eapply Hf|]. rewrite <- E in Hm. by eapply Hf.
Qed.

Lemma candidate_id ms b l m :
  Forall (fun m => mapping_id m <> []) ms -> candidates ms b = Ok l -> m ∈ l -> mapping_id m <> [].
Proof.
  intros Hms Hl Hm. apply (Forall_at (fun m => mapping_id m <> []) ms); [done|].
  by eapply candidates_in.
Qed.

(** ** Properties *)

(** On checked, unbound books and mappings with nonempty ids, binding
    succeeds exactly when each book has a unique candidate, and then returns the
    books in order, each with that mapping attached and otherwise unchanged. *)
Theorem bind_reconstructed_books_spec bs ms bound :
  Forall (fun b => checked b /\ unbound b) bs -> Forall (fun m => mapping_id m <> []) ms ->
  bind_reconstructed_books bs ms = Ok bound <->
  Forall2 (fun b b' => exists m, candidates ms b = Ok [m] /\ b' = bound_to b m) bs bound.
Proof.
  intros Hbs Hms. unfold bind_reconstructed_books. rewrite mapR_Ok.
  assert (forall b b', checked b /\ unbound b ->
    bind_book ms b = Ok b' <-> exists m, candidates ms b = Ok [m] /\ b' = bound_to b m) as Hone.
  { intros b b' [Hc [Hi Hm]]. unfold bind_book. rewrite Hi, Hm. cbn [isSome orb raise_if mbind result_bind].
    assert (forall m, candidates ms b = Ok [m] -> replace_mapping b m = Ok (bound_to b m)) as Hrep.
    { intros m H. apply replace_mapping_Ok; [done..|]. eapply candidate_id; [done..|by left]. }
    split.
    - intros (l & Hl & H)%bind_Ok. destruct l as [|m [|]]; try done. rewrite (Hrep m) in H by done.
      exists m. split; [done|]. by injection H.
    - intros (m & Hl & ->). rewrite Hl. by apply Hrep. }
  clear Hms. revert bound. induction Hbs as [|b bs Hb _ IH]; intros bound.
  - by split; inversion 1.
  - split; inversion 1; subst; constructor; try (by apply IH); by apply Hone.
Qed.

Lemma bind_reconstructed_books_fails es rms ms bs :
  reconstruct_books es rms = Ok bs -> Forall (fun m => mapping_id m <> []) ms ->
  fails_with IdentityBindError (bind_reconstructed_books bs ms).
Proof.
  intros Hbs Hms. pose proof (reconstruct_books_checked _ _ _ Hbs) as Hc.
  apply reconstruct_books_inv in Hbs as (s & [Hinv _] & <-). pose proof (li_wf _ _ Hinv) as Hw.
  apply fails_mapR. intros b Hb. apply (Forall_at _ _ b Hc) in Hb as Hcb.
  apply (Forall_at _ _ b Hw) in Hb as (_ & _ & _ & Hi & Hm). unfold bind_book. rewrite Hi, Hm.
  cbn [isSome orb raise_if mbind result_bind]. apply fails_bind; [by apply candidates_fails|].
  intros l Hl. destruct l as [|m [|]]; try done. rewrite replace_mapping_Ok; [done|done..|].
  eapply candidate_id; [done..|by left].
Qed.

(** On reconstructed books, binding returns or raises an
    [IdentityBindError]. *)
Theorem bind_reconstructed_books_fails_closed es rms ms bs :
  reconstruct_books es rms = Ok bs -> Forall (fun m => mapping_id m <> []) ms ->
  fails_with IdentityBindError (bind_reconstructed_books bs ms).
Proof. apply bind_reconstructed_books_fails. Qed.

(** ** Binding the demonstration books *)

Definition demo_mapping : MarketMappingEvidence :=
  mkMapping (u "m1") (u "v1") APPROVED (u "lighter") (u "BTC")
    (mkIdentity (u "BTC") (u "USD") (u "PERP") (u "USD") (u "LINEAR"))
    (repeat 97 64) (u "ref") 0 None (DFin false 1 0) (u "coin") (DFin false 1 (-3))
    None (Some 2) None None (DFin false 10 0) (Some 1).

Definition demo_bound : list ReconstructedBook := map (fun b => bound_to b demo_mapping) demo_books.

Lemma demo_mapping_id : Forall (fun m => mapping_id m <> []) [demo_mapping].
Proof. by repeat constructor. Qed.

Lemma demo_books_unbound : Forall (fun b => checked b /\ unbound b) demo_books.
Proof.
  apply Forall_and. split.
  - apply (reconstruct_books_checked demo_envelopes []), demo_books_Ok.
  - apply (reconstruct_books_unbound demo_envelopes []), demo_books_Ok.
Qed.

Lemma bind_reconstructed_books_spec_witness :
  bind_reconstructed_books demo_books [demo_mapping] = Ok demo_bound /\
  Forall2 (fun b b' => exists m, candidates [demo_mapping] b = Ok [m] /\ b' = bound_to b m)
    demo_books demo_bound.
Proof.
  assert (bind_reconstructed_books demo_books [demo_mapping] = Ok demo_bound) as H
    by (vm_compute; reflexivity).
  split; [exact H|].
  apply (bind_reconstructed_books_spec demo_books [demo_mapping] demo_bound);
    [apply demo_books_unbound|apply demo_mapping_id|exact H].
Defined.

Lemma bind_reconstructed_books_fails_closed_witness :
  fails_with IdentityBindError (bind_reconstructed_books demo_books [demo_mapping]).
Proof.
  apply (bind_reconstructed_books_fails_closed demo_envelopes [] [demo_mapping] demo_books);
    [apply demo_books_Ok|apply demo_mapping_id].
Defined.
