(* ===== verification/Vwap.v ===== *)
(** * [liqvera_readonly_analyzer.vwap]: sweeping the displayed depth

    [sweep_depth] walks one side of a bound book until the requested quantity is
    filled.  Proved here, on reconstructed books: it fills exactly when the
    displayed depth suffices and otherwise rejects; the fill is attained by an
    allocation to the levels; no allocation of the same quantity is cheaper on the
    ask side or yields more on the bid side; and the average price lies between
    the best and the worst price of the fill. *)

From S2P Require Import Prelude PyStr Num Exact ExactText PyObj Bytes Market Provenance Decision.
From S2P Require Import Evidence Decoders Reconstruction Identity.
From Stdlib Require Import QArith Qcanon Lqa.
Open Scope Z_scope.

Inductive Side := BUY | SELL.

Record ExecutableFill := mkFill {
  side : Side; ef_envelope_index : Z; ef_payload_sha256 : pystr; ef_epoch_id : Z;
  requested_quantity : Qc; filled_quantity : Qc; notional_quote : Qc; vwap : Qc;
  worst_price : Qc; consumed_levels : Z }.

(** [DepthRejected] carries the code [DEPTH_INSUFFICIENT]. *)
Definition depth_rejected {A} : result A := raise DepthRejected "DEPTH_INSUFFICIENT".
Definition vwap_error {A} (msg : string) : result A := raise VwapError msg.

(** [_require_coin_unit_identity] *)
Definition require_coin_unit_identity (book : ReconstructedBook) : result unit :=
  match mapping book with
  | None => vwap_error "book must be bound to sealed identity"
  | Some m =>
    raise_if (negb (str_eqb (mm_displayed_size_unit m) (u "coin"))) VwapError
      "displayed size unit is not coin" ;;
    unit_multiplier ← dec_eq (reviewed_contract_multiplier m) (DFin false 1 0);
    raise_if (negb unit_multiplier) VwapError "contract multiplier is not 1"
  end.

Definition exact_fraction (x : ExactDecimal) : Qc := frac (scaled x) 100000000.

Record sweep_state := mkSweep { remaining : Qc; notional : Qc; consumed : Z; worst : option Qc }.

(** The price and size of a level, as in the loop's [try] block. *)
Definition level_exact (level : BookLevel) : result (Qc * Qc) :=
  try_except
    (px ← exact_from_decimal (price level);
     sz ← exact_from_decimal (quantity level);
     Ok (exact_fraction px, exact_fraction sz))
    [ExactError; TypeError]
    (fun _ => vwap_error "level price or quantity is not ExactDecimal-admissible").

Fixpoint sweep_levels (levels : list BookLevel) (s : sweep_state) : result sweep_state :=
  match levels with
  | [] => Ok s
  | level :: levels =>
    '(px, available) ← level_exact level;
    let taken := if frac_leb (remaining s) available then remaining s else available in
    if frac_eqb taken 0 then sweep_levels levels s
    else
      let s := mkSweep (remaining s - taken)%Qc (notional s + px * taken)%Qc
                 (consumed s + 1) (Some px) in
      if frac_eqb (remaining s) 0 then Ok s else sweep_levels levels s
  end.

Definition side_levels (book : ReconstructedBook) (sd : Side) : list BookLevel :=
  match sd with BUY => asks (snapshot book) | SELL => bids (snapshot book) end.

Definition sweep_depth (book : ReconstructedBook) (sd : Side) (quantity : ExactDecimal)
  : result ExecutableFill :=
  raise_if (scaled quantity <=? 0) VwapError "quantity must be a strictly positive ExactDecimal" ;;
  require_coin_unit_identity book ;;
  s ← sweep_levels (side_levels book sd) (mkSweep (exact_fraction quantity) 0%Qc 0 None);
  if negb (frac_eqb (remaining s) 0) then depth_rejected
  else
    match worst s with
    | None => vwap_error "sweep produced no consumed levels"
    | Some w =>
      let filled := exact_fraction quantity in
      average ← frac_div (notional s) filled;
      Ok (mkFill sd (rb_envelope_index book) (rb_payload_sha256 book) (epoch_id book)
            filled filled (notional s) average w (consumed s))
    end.

(** ** Allocations

    An allocation takes from each level, given as its price and size, between
    nothing and all of it. *)

Definition feasible (ls : list (Qc * Qc)) (xs : list Qc) : Prop :=
  Forall2 (fun l x => 0 <= x /\ x <= snd l)%Qc ls xs.

Fixpoint cost (ls : list (Qc * Qc)) (xs : list Qc) : Qc :=
  match ls, xs with
  | l :: ls, x :: xs => (fst l * x + cost ls xs)%Qc
  | _, _ => 0%Qc
  end.

Definition depth (ls : list (Qc * Qc)) : Qc := sum_fractions (map snd ls).

(** The greedy allocation of [q]. *)
Fixpoint takes (q : Qc) (ls : list (Qc * Qc)) : list Qc :=
  match ls with
  | [] => []
  | l :: ls => let t := if frac_leb q (snd l) then q else snd l in t :: takes (q - t)%Qc ls
  end.

Section greedy.
Open Scope Qc_scope.
Implicit Types (q x p : Qc) (ls : list (Qc * Qc)) (xs : list Qc).

Lemma frac_leb_spec a b : frac_leb a b = true <-> a <= b.
Proof. apply bool_decide_eq_true. Qed.
Lemma frac_leb_false a b : frac_leb a b = false <-> b < a.
Proof. unfold frac_leb. rewrite bool_decide_eq_false. split; [apply Qcnot_le_lt|apply Qclt_not_le]. Qed.

Lemma feasible_nonneg ls xs : feasible ls xs -> 0 <= sum_fractions xs /\ sum_fractions xs <= depth ls.
Proof.
  unfold depth, sum_fractions. induction 1 as [|l x ls xs [H1 H2] _ [IH1 IH2]]; cbn; [by split|].
  split; qc_lra.
Qed.

Lemma takes_feasible q ls :
  0 <= q -> Forall (fun l => 0 <= snd l) ls -> feasible ls (takes q ls).
Proof.
  intros Hq Hs. revert q Hq. induction Hs as [|l ls Hl _ IH]; intros q Hq; cbn; [constructor|].
  destruct (frac_leb q (snd l)) eqn:E.
  - apply frac_leb_spec in E. constructor; [done|]. apply IH. qc_lra.
  - apply frac_leb_false in E. constructor; [split; [done|qc_lra]|]. apply IH. qc_lra.
Qed.

Lemma takes_zero ls : Forall (fun l => 0 <= snd l) ls ->
  sum_fractions (takes 0 ls) = 0 /\ cost ls (takes 0 ls) = 0.
Proof.
  unfold sum_fractions. induction 1 as [|l ls Hl _ [IH1 IH2]]; cbn; [done|].
  rewrite (proj2 (frac_leb_spec 0 (snd l)) Hl). replace (0 - 0) with 0 by ring.
  rewrite IH1, IH2. split; ring.
Qed.

(** The greedy allocation fills what the depth allows. *)
Lemma takes_sum q ls :
  0 <= q -> Forall (fun l => 0 <= snd l) ls ->
  sum_fractions (takes q ls) = if frac_leb q (depth ls) then q else depth ls.
Proof.
  intros Hq Hs. revert q Hq. induction Hs as [|l ls Hl Hs IH]; intros q Hq.
  - unfold depth, sum_fractions. cbn. destruct (frac_leb q 0) eqn:E; [|done].
    apply frac_leb_spec in E. qc_lra.
  - assert (0 <= depth ls) as Hd.
    { unfold depth, sum_fractions. clear -Hs. induction Hs as [|? ? ? _ IH]; cbn; [done|]. qc_lra. }
    change (depth (l :: ls)) with (snd l + depth ls).
    unfold sum_fractions. cbn. fold (sum_fractions (takes (q - if frac_leb q (snd l) then q else snd l) ls)).
    destruct (frac_leb q (snd l)) eqn:E; [apply frac_leb_spec in E|apply frac_leb_false in E];
      (rewrite IH by qc_lra);
      repeat match goal with |- context [frac_leb ?a ?b] =>
        destruct (frac_leb a b) eqn:?; [|] end;
      repeat match goal with
      | H : frac_leb _ _ = true |- _ => apply frac_leb_spec in H
      | H : frac_leb _ _ = false |- _ => apply frac_leb_false in H
      end; qc_lra.
Qed.

(** At prices of at least [p], an allocation costs at least [p] per unit. *)
Lemma cost_lower p ls xs :
  Forall (fun l => p <= fst l) ls -> feasible ls xs -> p * sum_fractions xs <= cost ls xs.
Proof.
  intros Hp H. unfold sum_fractions. induction H as [|l x ls xs [H1 H2] _ IH]; cbn; [qc_lra|].
  apply Forall_cons in Hp as [Hl Hp]. specialize (IH Hp). qc_nra.
Qed.

(** Taking [d] off an allocation saves at least [p d]. *)
Lemma cost_reduce p ls xs d :
  Forall (fun l => p <= fst l) ls -> feasible ls xs -> 0 <= d -> d <= sum_fractions xs ->
  exists ys, feasible ls ys /\ sum_fractions ys = sum_fractions xs - d /\
             cost ls ys + p * d <= cost ls xs.
Proof.
  unfold sum_fractions. intros Hp H. revert d.
  induction H as [|l x ls xs [H1 H2] Hf IH]; intros d Hd Hle; cbn in *.
  - assert (d = 0) as -> by qc_lra. exists []. split; [constructor|]. cbn. split; qc_lra.
  - apply Forall_cons in Hp as [Hl Hp]. destruct (frac_leb d x) eqn:E.
    + apply frac_leb_spec in E. exists (x - d :: xs). cbn. split_and!.
      * constructor; [split; qc_lra|done].
      * ring.
      * qc_nra.
    + apply frac_leb_false in E. destruct (IH Hp (d - x)) as (ys & Hys & Hs & Hc); [qc_lra..|].
      exists (0 :: ys). cbn. split_and!.
      * constructor; [split; qc_lra|done].
      * rewrite Hs. ring.
      * qc_nra.
Qed.

(** Among the allocations of one quantity, the greedy one costs least. *)
Lemma takes_optimal ls xs :
  StronglySorted (fun a b => fst a <= fst b) ls -> Forall (fun l => 0 <= snd l) ls ->
  feasible ls xs -> cost ls (takes (sum_fractions xs) ls) <= cost ls xs.
Proof.
  intros Hs Hn H. revert xs H. induction Hs as [|l ls Hs IH Hl]; intros xs H; [by inversion H; cbn|].
  apply Forall_cons in Hn as [Hln Hn]. inversion H as [|? x ? xs' [H1 H2] Hf]; subst.
  change (sum_fractions (x :: xs')) with (x + sum_fractions xs'). cbn.
  destruct (feasible_nonneg _ _ Hf) as [Hx0 _].
  destruct (frac_leb _ (snd l)) eqn:E; [apply frac_leb_spec in E|apply frac_leb_false in E].
  - replace (x + sum_fractions xs' - (x + sum_fractions xs')) with 0 by ring.
    rewrite (proj2 (takes_zero ls Hn)). pose proof (cost_lower _ _ _ Hl Hf). qc_nra.
  - destruct (cost_reduce (fst l) ls xs' (snd l - x) Hl Hf) as (ys & Hys & Hsum & Hc); [qc_lra..|].
    specialize (IH Hn ys Hys). rewrite Hsum in IH.
    replace (sum_fractions xs' - (snd l - x)) with (x + sum_fractions xs' - snd l) in IH by ring.
    qc_nra.
Qed.

(** The same with the order of the prices reversed. *)
Definition negated ls : list (Qc * Qc) := map (fun l => (- fst l, snd l)) ls.

Lemma negated_takes q ls : takes q (negated ls) = takes q ls.
Proof. revert q; induction ls as [|l ls IH]; intros q; cbn; [done|]. by rewrite IH. Qed.
Lemma negated_cost ls xs : cost (negated ls) xs = - cost ls xs.
Proof. revert xs; induction ls as [|l ls IH]; intros [|x xs]; cbn; try ring. rewrite IH. ring. Qed.
Lemma negated_feasible ls xs : feasible ls xs -> feasible (negated ls) xs.
Proof. induction 1; constructor; done. Qed.

Lemma takes_optimal_desc ls xs :
  StronglySorted (fun a b => fst b <= fst a) ls -> Forall (fun l => 0 <= snd l) ls ->
  feasible ls xs -> cost ls xs <= cost ls (takes (sum_fractions xs) ls).
Proof.
  intros Hs Hn Hf. pose proof (takes_optimal (negated ls) xs) as H.
  rewrite negated_takes, !negated_cost in H. enough (- cost ls (takes (sum_fractions xs) ls) <= - cost ls xs) by qc_lra.
  apply H; [| |by apply negated_feasible].
  - clear -Hs. unfold negated. induction Hs as [|l ls Hs IH Hl]; cbn [map]; constructor; [done|].
    apply Forall_map. eapply Forall_impl; [exact Hl|]. cbn. intros k Hk. qc_lra.
  - unfold negated. by apply Forall_map.
Qed.
End greedy.

(** ** The loop computes the greedy allocation *)

(** Price and size of a level as fractions. *)
Definition level_pair (l : BookLevel) : Qc * Qc :=
  (frac (dec_scaled (price l)) 100000000, frac (dec_scaled (quantity l)) 100000000).

Definition side_pairs (book : ReconstructedBook) (sd : Side) : list (Qc * Qc) :=
  map level_pair (side_levels book sd).

Fixpoint last_price (ls : list (Qc * Qc)) (xs : list Qc) (w : option Qc) : option Qc :=
  match ls, xs with
  | l :: ls, x :: xs => last_price ls xs (if frac_eqb x 0 then w else Some (fst l))
  | _, _ => w
  end.

Fixpoint count_taken (xs : list Qc) : Z :=
  match xs with [] => 0 | x :: xs => (if frac_eqb x 0 then 0 else 1) + count_taken xs end.

Section sweep.
Open Scope Qc_scope.

Lemma frac_pos n d : (0 < n)%Z -> 0 < frac n d.
Proof. intros H. change 0 with (frac 0 1). apply frac_lt. lia. Qed.

Lemma level_exact_Ok l :
  exact_level l -> level_exact l = Ok (level_pair l) /\ 0 < fst (level_pair l) /\ 0 < snd (level_pair l).
Proof.
  intros (p & q & Hp & Hq & Hp0 & Hq0). unfold level_exact, level_pair, exact_fraction.
  rewrite (exact_dec_scaled _ _ Hp), (exact_dec_scaled _ _ Hq). destruct Hp as [Hp Rp], Hq as [Hq Rq].
  rewrite (exact_from_decimal_of_exact (price l) p), (exact_from_decimal_of_exact (quantity l) q) by done.
  split_and!; [done|by apply frac_pos..].
Qed.

Lemma pairs_positive ls :
  Forall exact_level ls -> Forall (fun l => 0 < snd l) (map level_pair ls).
Proof. intros H. apply Forall_map. eapply Forall_impl; [exact H|]. intros l Hl. by apply level_exact_Ok. Qed.

Lemma pairs_nonneg ls :
  Forall exact_level ls -> Forall (fun l => 0 <= snd l) (map level_pair ls).
Proof.
  intros H. eapply Forall_impl; [by apply pairs_positive|]. intros l. apply Qclt_le_weak.
Qed.

Lemma takes_all_zero ls : Forall (fun l => 0 < snd l) ls -> Forall (eq 0) (takes 0 ls).
Proof.
  induction 1 as [|l ls Hl _ IH]; cbn; constructor;
    rewrite (proj2 (frac_leb_spec 0 (snd l))) by qc_lra; [done|].
  by replace (0 - 0) with 0 by ring.
Qed.

Lemma zeros_neutral ls xs w : Forall (eq 0) xs -> last_price ls xs w = w /\ count_taken xs = 0%Z.
Proof.
  assert (frac_eqb 0 0 = true) as Hz by by apply frac_eqb_spec.
  intros H. revert ls w. induction H as [|x xs <- _ IH]; intros [|l ls] w;
    cbn [last_price count_taken]; rewrite ?Hz; try done.
  destruct (IH [] w) as [_ ->]. done.
Qed.

Lemma sweep_levels_spec ls q n c w :
  Forall exact_level ls -> 0 < q ->
  let ps := map level_pair ls in
  sweep_levels ls (mkSweep q n c w) =
    Ok (mkSweep (q - sum_fractions (takes q ps)) (n + cost ps (takes q ps))
          (c + count_taken (takes q ps)) (last_price ps (takes q ps) w)).
Proof.
  intros He. revert q n c w. induction He as [|l ls Hl He IH]; intros q n c w Hq; cbn [map].
  - cbn. unfold sum_fractions. cbn. rewrite Z.add_0_r. f_equal. f_equal; ring.
  - destruct (level_exact_Ok l Hl) as (Hx & _ & Hs). cbn [sweep_levels]. rewrite Hx.
    cbn [mbind result_bind remaining notional consumed worst].
    set (p := level_pair l) in *. destruct p as [px sz]. cbn [fst snd] in *.
    set (ps := map level_pair ls). cbn [takes cost count_taken last_price fst snd].
    set (t := if frac_leb q sz then q else sz).
    assert (0 < t) as Ht by (unfold t; destruct (frac_leb q sz); done).
    assert (frac_eqb t 0 = false) as Ht0.
    { apply bool_decide_eq_false. intros H0. rewrite H0 in Ht. by apply Qclt_not_eq in Ht. }
    rewrite Ht0. change (sum_fractions (t :: takes (q - t) ps)) with (t + sum_fractions (takes (q - t) ps)).
    destruct (frac_eqb (q - t) 0) eqn:E.
    + apply frac_eqb_spec in E. rewrite E.
      pose proof (takes_all_zero ps (pairs_positive ls He)) as Hz.
      destruct (zeros_neutral ps _ (Some px) Hz) as [-> ->].
      destruct (takes_zero ps (pairs_nonneg ls He)) as [-> ->].
      do 2 f_equal; [rewrite <- E at 1; ring|ring].
    + assert (0 < q - t) as Hqt.
      { apply bool_decide_eq_false in E. unfold t in *. destruct (frac_leb q sz) eqn:Eq.
        - destruct E. ring.
        - apply frac_leb_false in Eq. qc_lra. }
      rewrite IH by done. fold ps. do 2 f_equal; [ring|ring|lia].
Qed.

Lemma last_price_taken ls xs w :
  sum_fractions xs <> 0 -> length xs = length ls -> exists p, last_price ls xs w = Some p.
Proof.
  assert (forall ls xs p, exists p', last_price ls xs (Some p) = Some p') as Hsome.
  { clear. induction ls as [|l ls IH]; intros [|x xs] p; cbn; eauto. destruct (frac_eqb x 0); apply IH. }
  revert ls. induction xs as [|x xs IH]; intros [|l ls] Hs Hl; try done.
  cbn. destruct (frac_eqb x 0) eqn:E; [|apply Hsome]. apply frac_eqb_spec in E as ->.
  apply IH; [|by injection Hl]. intros H0. apply Hs. unfold sum_fractions in *. cbn. rewrite H0. ring.
Qed.

Lemma takes_length q ls : length (takes q ls) = length ls.
Proof. revert q; induction ls as [|l ls IH]; intros q; cbn; [done|]. by rewrite IH. Qed.

(** The last taken price bounds every taken price. *)
Lemma last_price_bound (R : Qc -> Qc -> Prop) ls xs w v :
  (forall p, R p p) -> (forall a b c, R a b -> R b c -> R a c) ->
  StronglySorted (fun a b => R (fst a) (fst b)) ls ->
  (forall p, w = Some p -> Forall (fun l => R p (fst l)) ls) ->
  last_price ls xs w = Some v ->
  (forall p, w = Some p -> R p v) /\
  Forall2 (fun l x => x <> 0 -> R (fst l) v) (take (length xs) ls) (take (length ls) xs).
Proof.
  intros Hrefl Htrans Hs. revert xs w. induction Hs as [|l ls Hs IH Hl]; intros xs w Hw H.
  - destruct xs; cbn in *; (split; [intros p ->; by injection H as ->|constructor]).
  - destruct xs as [|x xs].
    { cbn in *. split; [|constructor]. intros p ->. injection H as ->. apply Hrefl. }
    cbn in *. destruct (frac_eqb x 0) eqn:E.
    + apply frac_eqb_spec in E as ->. apply IH in H as [H1 H2].
      * split; [done|]. by constructor.
      * intros p Hp. by apply Hw, Forall_cons in Hp as [_ ?].
    + apply IH in H as [H1 H2].
      * pose proof (H1 (fst l) eq_refl) as Hlv. split; [|by constructor]. intros p Hp.
        apply Hw, Forall_cons in Hp as [? _]. by eapply Htrans.
      * intros p [= <-]. exact Hl.
Qed.
End sweep.

(** ** Books the sweep accepts *)

(** A reconstructed book bound to a mapping in whole coins. *)
Definition sweepable (b : ReconstructedBook) : Prop :=
  exact_book (snapshot b) /\ book_wf (snapshot b) /\ require_coin_unit_identity b = Ok tt.

Lemma side_levels_exact b sd : sweepable b -> Forall exact_level (side_levels b sd).
Proof. intros ([Hb Ha] & _ & _). by destruct sd. Qed.

(** The prices of a side, best first: rising asks, falling bids. *)
Definition price_order (sd : Side) (a b : Qc) : Prop :=
  match sd with BUY => (a <= b)%Qc | SELL => (b <= a)%Qc end.

Lemma pair_price_le x y :
  exact_level x -> exact_level y -> price_below x y -> (fst (level_pair x) <= fst (level_pair y))%Qc.
Proof.
  intros (px & qx & Hx & _) (py & qy & Hy & _) H. cbn. apply frac_le.
  rewrite (exact_dec_scaled _ _ Hx), (exact_dec_scaled _ _ Hy).
  apply (exact_dec_less _ px _ py) in H; [lia|apply Hx|apply Hy].
Qed.

Lemma side_pairs_sorted b sd :
  sweepable b -> StronglySorted (fun x y => price_order sd (fst x) (fst y)) (side_pairs b sd).
Proof.
  intros Hsw. pose proof (side_levels_exact b sd Hsw) as He. destruct Hsw as (_ & [Sb Sa _ _] & _).
  unfold side_pairs. destruct sd; cbn [side_levels price_order] in *.
  - induction Sa as [|l ls _ IH Hl]; cbn [map]; constructor.
    + apply IH. by apply Forall_cons in He as [_ ?].
    + apply Forall_cons in He as [Hx He]. apply Forall_map, Forall_forall. intros y Hy.
      apply pair_price_le; [done|by apply (Forall_at _ ls)|by apply (Forall_at _ ls)].
  - induction Sb as [|l ls _ IH Hl]; cbn [map]; constructor.
    + apply IH. by apply Forall_cons in He as [_ ?].
    + apply Forall_cons in He as [Hx He]. apply Forall_map, Forall_forall. intros y Hy.
      apply pair_price_le; [by apply (Forall_at _ ls)|done|by apply (Forall_at (fun z => price_below z l) ls)].
Qed.

Lemma exact_fraction_pos q : 0 < scaled q -> (0 < exact_fraction q)%Qc.
Proof. intros H. by apply frac_pos. Qed.

Lemma frac_div_Ok a b : b <> 0%Qc -> frac_div a b = Ok (a / b)%Qc.
Proof. intros H. unfold frac_div. by rewrite bool_decide_false. Qed.

(** The whole of [sweep_depth] on an accepted book and a positive quantity. *)
Lemma sweep_depth_eq b sd q :
  sweepable b -> 0 < scaled q ->
  let ps := side_pairs b sd in
  let f := exact_fraction q in
  sweep_depth b sd q =
    if frac_leb f (depth ps) then
      match last_price ps (takes f ps) None with
      | Some w => Ok (mkFill sd (rb_envelope_index b) (rb_payload_sha256 b) (epoch_id b) f f
                        (cost ps (takes f ps)) (cost ps (takes f ps) / f)%Qc w
                        (count_taken (takes f ps)))
      | None => vwap_error "sweep produced no consumed levels"
      end
    else depth_rejected.
Proof.
  intros Hsw Hq ps f. pose proof (exact_fraction_pos q Hq) as Hf. fold f in Hf.
  pose proof (side_levels_exact b sd Hsw) as He. unfold sweep_depth.
  rewrite (proj2 (Z.leb_gt _ _)) by done. destruct Hsw as (_ & _ & Hid). rewrite Hid.
  cbn [raise_if mbind result_bind]. fold f.
  rewrite (sweep_levels_spec (side_levels b sd) f 0 0 None He Hf).
  cbn [mbind result_bind remaining notional consumed worst].
  change (map level_pair (side_levels b sd)) with ps. rewrite Z.add_0_l, Qcplus_0_l.
  pose proof (takes_sum f ps) as Hsum.
  rewrite Hsum; [|by apply Qclt_le_weak|by apply pairs_nonneg]. clear Hsum.
  destruct (frac_leb f (depth ps)) eqn:E.
  - replace (f - f)%Qc with 0%Qc by ring. rewrite (proj2 (frac_eqb_spec _ _) eq_refl). cbn [negb].
    destruct (last_price _ _ _) as [w|]; [|done].
    rewrite frac_div_Ok by (intros H; rewrite H in Hf; by apply Qclt_not_eq in Hf).
    done.
  - apply frac_leb_false in E. replace (frac_eqb (f - depth ps) 0) with false; [done|].
    symmetry. apply bool_decide_eq_false. intros H. qc_lra.
Qed.

(** The greedy allocation of a fill. *)
Definition fill_allocation (b : ReconstructedBook) (fill : ExecutableFill) : list Qc :=
  takes (requested_quantity fill) (side_pairs b (side fill)).

Lemma sweep_depth_inv b sd q fill :
  sweepable b -> sweep_depth b sd q = Ok fill ->
  let ps := side_pairs b sd in
  let f := exact_fraction q in
  (0 < f)%Qc /\ (f <= depth ps)%Qc /\ side fill = sd /\ requested_quantity fill = f /\
  filled_quantity fill = f /\ notional_quote fill = cost ps (takes f ps) /\
  vwap fill = (cost ps (takes f ps) / f)%Qc /\ last_price ps (takes f ps) None = Some (worst_price fill) /\
  consumed_levels fill = count_taken (takes f ps).
Proof.
  intros Hsw H ps f. assert (0 < scaled q) as Hq.
  { unfold sweep_depth in H. inv_ok. by reflect_bools. }
  rewrite sweep_depth_eq in H by done. fold ps f in H.
  destruct (frac_leb f (depth ps)) eqn:E; [|done]. apply frac_leb_spec in E.
  destruct (last_price _ _ _) as [w|] eqn:El; [|done]. injection H as <-. cbn.
  split_and!; try done. by apply exact_fraction_pos.
Qed.

(** ** Properties *)

(** For a positive quantity, a bound book is swept exactly when its displayed
    depth covers the quantity, and otherwise the sweep is rejected for depth. *)
Theorem sweep_depth_decides b sd q :
  sweepable b -> 0 < scaled q ->
  if frac_leb (exact_fraction q) (depth (side_pairs b sd))
  then exists fill, sweep_depth b sd q = Ok fill
  else sweep_depth b sd q = raise DepthRejected "DEPTH_INSUFFICIENT".
Proof.
  intros Hsw Hq. rewrite sweep_depth_eq by done. pose proof (exact_fraction_pos q Hq) as Hf.
  destruct (frac_leb _ _) eqn:E; [|done]. set (ps := side_pairs b sd) in *.
  destruct (last_price_taken ps (takes (exact_fraction q) ps) None) as [w Hw].
  - rewrite takes_sum by (by apply Qclt_le_weak || by apply pairs_nonneg, side_levels_exact).
    rewrite E. intros H. rewrite H in Hf. by apply Qclt_not_eq in Hf.
  - apply takes_length.
  - rewrite Hw. by eexists.
Qed.

(** C32: a fill is an allocation of the requested quantity to the levels of its
    side with the reported notional, and no other allocation of that quantity
    costs less on the ask side or yields more on the bid side. *)
Theorem sweep_depth_optimal b sd q fill :
  sweepable b -> sweep_depth b sd q = Ok fill ->
  let ps := side_pairs b sd in
  feasible ps (fill_allocation b fill) /\
  sum_fractions (fill_allocation b fill) = exact_fraction q /\
  filled_quantity fill = exact_fraction q /\
  notional_quote fill = cost ps (fill_allocation b fill) /\
  forall xs, feasible ps xs -> sum_fractions xs = exact_fraction q ->
    price_order sd (notional_quote fill) (cost ps xs).
Proof.
  intros Hsw H ps. destruct (sweep_depth_inv b sd q fill Hsw H)
    as (Hf & Hd & Hs & Hr & Hfl & Hn & _). fold ps in Hd, Hn.
  pose proof (pairs_nonneg _ (side_levels_exact b sd Hsw)) as Hnn. fold (side_pairs b sd) in Hnn. fold ps in Hnn.
  unfold fill_allocation. rewrite Hs, Hr. fold ps. split_and!; try done.
  - apply takes_feasible; [by apply Qclt_le_weak|done].
  - rewrite takes_sum by (by apply Qclt_le_weak || done). by rewrite (proj2 (frac_leb_spec _ _) Hd).
  - intros xs Hx Hsum. rewrite Hn, <- Hsum. pose proof (side_pairs_sorted b sd Hsw) as Hsort.
    fold ps in Hsort. destruct sd; cbn [price_order] in *.
    + by apply takes_optimal.
    + by apply takes_optimal_desc.
Qed.

Lemma cost_upper (w : Qc) ls xs :
  Forall2 (fun l x => x <> 0 -> fst l <= w)%Qc ls xs -> feasible ls xs ->
  (cost ls xs <= w * sum_fractions xs)%Qc.
Proof.
  unfold sum_fractions. intros Hw H. induction H as [|l x ls xs [H1 H2] _ IH]; cbn; [qc_lra|].
  inversion Hw as [|???? Hl Hw']; subst. specialize (IH Hw').
  destruct (decide (x = 0%Qc)) as [->|Hx]; [qc_lra|]. specialize (Hl Hx). qc_nra.
Qed.

Lemma cost_upper_desc (w : Qc) ls xs :
  Forall2 (fun l x => x <> 0 -> w <= fst l)%Qc ls xs -> feasible ls xs ->
  (w * sum_fractions xs <= cost ls xs)%Qc.
Proof.
  unfold sum_fractions. intros Hw H. induction H as [|l x ls xs [H1 H2] _ IH]; cbn; [qc_lra|].
  inversion Hw as [|???? Hl Hw']; subst. specialize (IH Hw').
  destruct (decide (x = 0%Qc)) as [->|Hx]; [qc_lra|]. specialize (Hl Hx). qc_nra.
Qed.

Lemma Forall2_of_Forall {A B} (P : A -> Prop) (Q : B -> Prop) (R : A -> B -> Prop) ls xs :
  Forall P ls -> Forall2 R ls xs -> Forall2 (fun l x => Q x -> P l) ls xs.
Proof. intros H H2. induction H2; inversion H; subst; constructor; auto. Qed.

Lemma mul_le_cancel (a b f : Qc) : (0 < f)%Qc -> (a * f <= b * f)%Qc -> (a <= b)%Qc.
Proof. intros Hf H. destruct (Qclt_le_dec b a) as [Hlt|]; [|done]. exfalso. qc_nra. Qed.

(** The average price of a fill times its quantity is its notional, and the
    average lies between the best price of the side and the worst price taken. *)
Theorem sweep_depth_price_bounds b sd q fill best :
  sweepable b -> sweep_depth b sd q = Ok fill -> head (side_pairs b sd) = Some best ->
  (vwap fill * filled_quantity fill)%Qc = notional_quote fill /\
  price_order sd (fst best) (vwap fill) /\ price_order sd (vwap fill) (worst_price fill).
Proof.
  intros Hsw H Hbest. destruct (sweep_depth_inv b sd q fill Hsw H)
    as (Hf & Hd & _ & Hr & Hfl & Hn & Hv & Hw & _). set (ps := side_pairs b sd) in *.
  set (f := exact_fraction q) in *.
  pose proof (pairs_nonneg _ (side_levels_exact b sd Hsw)) as Hnn. fold (side_pairs b sd) in Hnn. fold ps in Hnn.
  pose proof (takes_feasible f ps (Qclt_le_weak _ _ Hf) Hnn) as Hfeas.
  assert (sum_fractions (takes f ps) = f) as Hsum.
  { rewrite takes_sum by (by apply Qclt_le_weak || done). by rewrite (proj2 (frac_leb_spec _ _) Hd). }
  assert (f <> 0%Qc) as Hf0 by (intros H0; rewrite H0 in Hf; by apply Qclt_not_eq in Hf).
  assert (vwap fill * f = cost ps (takes f ps))%Qc as Hvf by (rewrite Hv; by field).
  assert (forall a, a * f = a * sum_fractions (takes f ps))%Qc as Hm by (intros a; by rewrite Hsum).
  pose proof (side_pairs_sorted b sd Hsw) as Hsort. fold ps in Hsort.
  assert (Forall (fun l => price_order sd (fst best) (fst l)) ps) as Hfirst.
  { destruct ps as [|l ps']; [done|]. injection Hbest as ->. inversion Hsort; subst.
    constructor; [destruct sd; apply Qcle_refl|done]. }
  apply (last_price_bound (price_order sd)) in Hw as [_ Hw].
  2: { intros p. destruct sd; apply Qcle_refl. }
  2: { intros x y z Hxy Hyz. destruct sd; cbn in *; by eapply Qcle_trans. }
  2: done.
  2: done.
  rewrite takes_length, firstn_all, <- (takes_length f ps), firstn_all in Hw.
  split_and!; [by rewrite Hfl, Hn|..].
  - destruct sd; cbn [price_order] in *; apply (mul_le_cancel _ _ f Hf); rewrite Hvf, Hm.
    + by apply cost_lower.
    + apply cost_upper; [|done]. by eapply Forall2_of_Forall.
  - destruct sd; cbn [price_order] in *; apply (mul_le_cancel _ _ f Hf); rewrite Hvf, Hm.
    + by apply cost_upper.
    + by apply cost_upper_desc.
Qed.

(** ** The pipeline feeds the sweep *)

(** A book the pipeline has reconstructed and bound to a whole-coin mapping is
    one the sweep accepts. *)
Lemma bound_books_sweepable es rms ms bs bound b :
  reconstruct_books es rms = Ok bs -> bind_reconstructed_books bs ms = Ok bound ->
  b ∈ bound -> require_coin_unit_identity b = Ok tt -> sweepable b.
Proof.
  intros Hbs Hbound Hb Hid. apply reconstruct_books_inv in Hbs as (s & [Hinv _] & <-).
  pose proof (li_wf _ _ Hinv) as Hw. unfold bind_reconstructed_books in Hbound.
  apply mapR_Ok in Hbound. assert (exists a, a ∈ books s /\ snapshot b = snapshot a) as (a & Ha & Hs).
  { clear -Hbound Hb. induction Hbound as [|x y xs ys Hx _ IH]; [by apply not_elem_of_nil in Hb|].
    apply elem_of_cons in Hb as [->|Hb].
    - exists x. split; [by left|]. apply bind_Ok in Hx as ([] & _ & (l & _ & Hx)%bind_Ok).
      destruct l as [|m [|]]; try done. unfold replace_mapping in Hx. unfold reconstructed_book_init in Hx.
      repeat (apply bind_Ok in Hx as (? & _ & Hx)). by injection Hx as <-.
    - destruct (IH Hb) as (a & Ha & Hs). exists a. split; [by right|done]. }
  apply (Forall_at _ _ a Hw) in Ha as (Hwf & Hx & _). unfold sweepable. rewrite Hs. by split_and!.
Qed.

Definition demo_book : ReconstructedBook :=
  match demo_bound with
  | b :: _ => b
  | [] => mkBook (mkSnapshot [] [] None 0 0 [] []) 0 [] [] 0 None None None
  end.

Lemma demo_book_sweepable : sweepable demo_book.
Proof.
  eapply (bound_books_sweepable demo_envelopes [] [demo_mapping] demo_books demo_bound).
  - apply demo_books_Ok.
  - vm_compute. reflexivity.
  - assert (exists l, demo_bound = demo_book :: l) as [l ->]; [|by left].
    exists (tl demo_bound). vm_compute. reflexivity.
  - vm_compute. reflexivity.
Qed.

Definition demo_quantity : ExactDecimal := mkExact 150000000.
Definition demo_fill : ExecutableFill :=
  match sweep_depth demo_book BUY demo_quantity with
  | Ok f => f
  | Raise _ => mkFill SELL 0 [] 0 0%Qc 0%Qc 0%Qc 0%Qc 0%Qc 0
  end.

Lemma demo_fill_Ok : sweep_depth demo_book BUY demo_quantity = Ok demo_fill.
Proof.
  unfold demo_fill. pose proof (sweep_depth_inv demo_book BUY demo_quantity) as _.
  destruct (sweep_depth demo_book BUY demo_quantity) as [f|e] eqn:E; [done|].
  exfalso. revert E. vm_compute. discriminate.
Qed.

Lemma sweep_depth_decides_witness :
  sweepable demo_book /\ exists fill, sweep_depth demo_book BUY demo_quantity = Ok fill.
Proof.
  split; [exact demo_book_sweepable|].
  pose proof (sweep_depth_decides demo_book BUY demo_quantity demo_book_sweepable ltac:(reflexivity)) as H.
  assert (frac_leb (exact_fraction demo_quantity) (depth (side_pairs demo_book BUY)) = true) as E
    by (vm_compute; reflexivity).
  rewrite E in H. exact H.
Defined.

Lemma sweep_depth_optimal_witness :
  feasible (side_pairs demo_book BUY) (fill_allocation demo_book demo_fill) /\
  sum_fractions (fill_allocation demo_book demo_fill) = exact_fraction demo_quantity.
Proof.
  pose proof (sweep_depth_optimal demo_book BUY demo_quantity demo_fill demo_book_sweepable demo_fill_Ok) as (H1 & H2 & _).
  split; [exact H1|exact H2].
Defined.

Lemma sweep_depth_price_bounds_witness :
  exists best, head (side_pairs demo_book BUY) = Some best /\
    price_order BUY (fst best) (vwap demo_fill).
Proof.
  destruct (head (side_pairs demo_book BUY)) as [best|] eqn:E; [|exfalso; revert E; vm_compute; discriminate].
  exists best. split; [reflexivity|].
  pose proof (sweep_depth_price_bounds demo_book BUY demo_quantity demo_fill best demo_book_sweepable
    demo_fill_Ok E) as (_ & H & _). exact H.
Defined.
