(* ===== verification/Calculation.v ===== *)
(** * [liqvera_evidence_report.calculation]: report arithmetic

    Price impact, the constant-product quotes of the Mezo pools in both
    directions, and the risk figures of a trove.  Proved here: the exact-input
    quote never drains the pool nor lowers its product, the exact-output quote is
    the least input that reaches its quantity, and a trove is flagged for
    liquidation exactly below its displayed liquidation price. *)

From S2P Require Import Prelude PyStr Num PyObj Exact Market Provenance Evidence Reconstruction Vwap.
From Stdlib Require Import QArith Qcanon.
Open Scope Z_scope.

(** ** Fractions in reports *)

Definition bps : Qc := frac_of_Z 10000.

Definition price_impact_bps (book : ReconstructedBook) (side : Side) (vwap : Qc) : result Qc :=
  match side with
  | BUY =>
    ask ← best_ask (snapshot book); best ← fraction_from_decimal (price ask);
    frac_div ((vwap - best) * bps)%Qc best
  | SELL =>
    bid ← best_bid (snapshot book); best ← fraction_from_decimal (price bid);
    frac_div ((best - vwap) * bps)%Qc best
  end.

(** [_rational]; [str] of an integer of more than 4300 digits raises. *)
Definition rational (value : Qc) : result json :=
  n ← py_str_int (numerator value); d ← py_str_int (denominator value);
  Ok (JDict [(u "numerator", JStr n); (u "denominator", JStr d)]).

(** [_display]: [format(d, "f")] of the rendered value. *)
Definition display (value : Qc) : result pystr :=
  d ← decimal_from_fraction value;
  match d with
  | DFin neg c e => Ok (dec_format_f neg c e)
  | _ => raise ValueError "not finite"
  end.

(** ** Constant-product quotes, in 256-bit integers *)

Definition WORD : Z := 2 ^ 256.

(** [_amm_inputs]; the arguments are integers. *)
Definition amm_inputs (amount reserve_in reserve_out fee_bps : Z) : result unit :=
  raise_if (negb ((0 <=? amount) && (amount <? WORD)) ||
            negb ((0 <? reserve_in) && (reserve_in <? WORD)) ||
            negb ((0 <? reserve_out) && (reserve_out <? WORD)) ||
            negb ((0 <=? fee_bps) && (fee_bps <? 10000))) ValueError "MEZO_DEX_INVALID_INPUT".

Definition amm_amount_out (amount reserve_in reserve_out fee_bps : Z) : result Z :=
  amm_inputs amount reserve_in reserve_out fee_bps ;;
  raise_if (WORD <=? amount * fee_bps) ValueError "MEZO_DEX_ARITHMETIC_OVERFLOW" ;;
  let net := amount - amount * fee_bps / 10000 in
  raise_if ((WORD <=? net * reserve_out) || (WORD <=? reserve_in + net)) ValueError
    "MEZO_DEX_ARITHMETIC_OVERFLOW" ;;
  Ok (net * reserve_out / (reserve_in + net)).

Definition amm_amount_in (quantity reserve_in reserve_out fee_bps : Z) : result Z :=
  amm_inputs quantity reserve_in reserve_out fee_bps ;;
  raise_if (reserve_out <=? quantity) ValueError "INSUFFICIENT_LIQUIDITY" ;;
  if quantity =? 0 then Ok 0
  else
    let denominator := reserve_out - quantity in
    let required_net := (quantity * reserve_in + denominator - 1) / denominator in
    let amount := (required_net - 1) * 10000 / (10000 - fee_bps) + 1 in
    _ ← amm_amount_out amount reserve_in reserve_out fee_bps;
    Ok amount.

Example amm_out_ex : amm_amount_out 1000000 5000000000 7000000000 30 = Ok 1395521. Proof. reflexivity. Qed.


(** ** Trove risk *)

Definition UNIT : Z := 10 ^ 18.
Definition MAXIMUM : Z := WORD - 1.

Definition icr_of (collateral price debt : Z) : Z :=
  if negb (debt =? 0) then collateral * price / debt else MAXIMUM.

Definition trove_flags (status icr mcr tcr ccr : Z) : list pystr :=
  (if status =? 1 then [] else [u "NOT_ACTIVE"]) ++
  (if (status =? 1) && (icr <? mcr) then [u "LIQUIDATABLE"] else []) ++
  (if tcr <? ccr then [u "RECOVERY_MODE"] else []).

(** The guards of [trove_risk]; the arguments are integers. *)
Definition trove_inputs (collateral principal interest price mcr ccr tcr status : Z) : result unit :=
  raise_if (existsb (fun v => negb ((0 <=? v) && (v <=? MAXIMUM)))
              [collateral; principal; interest; price; mcr; ccr; tcr; status] ||
            (price =? 0) || (mcr =? 0) || (ccr <? mcr) || negb ((0 <=? status) && (status <? 5)) ||
            (MAXIMUM <? principal + interest)) ValueError "MEZO_TROVE_INVALID_INPUT" ;;
  let debt := principal + interest in
  raise_if (((status =? 1) && (debt =? 0)) || ((0 <? debt) && (MAXIMUM <? collateral * price)))
    ValueError "MEZO_TROVE_INVALID_INPUT".

(** The liquidation price, when there is one, and the distance to it in percent. *)
Definition trove_threshold (collateral debt mcr status : Z) : result (option Qc) :=
  if (status =? 1) && negb (collateral =? 0) then Some <$> mk_fraction (mcr * debt) (collateral * UNIT)
  else Ok None.

Definition trove_buffer (price : Z) (threshold : option Qc) : result (option Qc) :=
  match threshold with
  | Some t =>
    if bool_decide (t = 0%Qc) then Ok None
    else p ← mk_fraction price UNIT; r ← frac_div p t; Ok (Some ((r - 1) * frac_of_Z 100)%Qc)
  | None => Ok None
  end.

(** [_display(Fraction(n, unit))] *)
Definition display_unit (n : Z) : result json :=
  q ← mk_fraction n UNIT; s ← display q; Ok (JStr s).

Definition display_when (b : bool) (n : Z) : result json :=
  match b with true => display_unit n | false => Ok JNull end.

Definition display_option (q : option Qc) : result json :=
  match q with Some q => s ← display q; Ok (JStr s) | None => Ok JNull end.

(** One turn of the loop over the reductions. *)
Definition trove_scenario (collateral price debt mcr status reduction : Z) : result json :=
  let scenario_price := price * (100 - reduction) / 100 in
  let scenario_icr := icr_of collateral scenario_price debt in
  change ← py_str_int (- reduction);
  shown ← display_unit scenario_price;
  icr ← display_when (status =? 1) scenario_icr;
  Ok (JDict [(u "price_change_pct", JStr change); (u "price_musd", shown); (u "icr", icr);
             (u "status", JStr (if negb (status =? 1) then u "NOT_ACTIVE"
                                else if scenario_icr <? mcr then u "LIQUIDATABLE" else u "ABOVE_MCR"))]).

Definition trove_risk (collateral principal interest price mcr ccr tcr status : Z) : result json :=
  trove_inputs collateral principal interest price mcr ccr tcr status ;;
  let debt := principal + interest in
  let icr := icr_of collateral price debt in
  let active := status =? 1 in
  threshold ← trove_threshold collateral debt mcr status;
  buffer ← trove_buffer price threshold;
  scenarios ← mapR (trove_scenario collateral price debt mcr status) [10; 20; 30];
  debt_musd ← display_unit debt;
  collateral_btc ← display_unit collateral;
  price_musd ← display_unit price;
  icr_atomic ← py_str_int icr;
  icr_shown ← display_when active icr;
  mcr_shown ← display_unit mcr;
  ccr_shown ← display_unit ccr;
  tcr_shown ← display_unit tcr;
  liquidation ← display_option threshold;
  buffer_pct ← display_option buffer;
  Ok (JDict [(u "status", JStr (if active then u "ACTIVE" else u "NOT_ACTIVE"));
             (u "contract_status", JInt status); (u "debt_musd", debt_musd);
             (u "collateral_btc", collateral_btc); (u "price_musd", price_musd);
             (u "icr_atomic", JStr icr_atomic); (u "icr", icr_shown); (u "mcr", mcr_shown);
             (u "ccr", ccr_shown); (u "tcr", tcr_shown); (u "liquidation_price_musd", liquidation);
             (u "buffer_pct", buffer_pct);
             (u "flags", JList (map JStr (trove_flags status icr mcr tcr ccr)));
             (u "scenarios", JList scenarios)]).

(** ** The quotes as arithmetic *)

(** The input after its fee, and the quote, without the width checks. *)
Definition net_input (amount fee_bps : Z) : Z := amount - amount * fee_bps / 10000.
Definition quote (amount reserve_in reserve_out fee_bps : Z) : Z :=
  net_input amount fee_bps * reserve_out / (reserve_in + net_input amount fee_bps).

Section quotes.
Context (x y f : Z) (Hx : 0 < x) (Hy : 0 < y) (Hf : 0 <= f < 10000).

(** The net input is the rounded-up share the fee leaves. *)
Lemma net_input_reaches a n : 0 <= a -> n <= net_input a f <-> 10000 * (n - 1) < a * (10000 - f).
Proof using Hf.
  intros Ha. unfold net_input. pose proof (Z.div_mod (a * f) 10000 ltac:(lia)).
  pose proof (Z.mod_pos_bound (a * f) 10000 ltac:(lia)). split; lia.
Qed.

Lemma net_input_bounds a : 0 <= a -> 0 <= net_input a f <= a.
Proof using Hf.
  intros Ha. split; [apply net_input_reaches; nia|].
  unfold net_input. pose proof (Z.div_pos (a * f) 10000). nia.
Qed.

Lemma net_input_mono a b : 0 <= a <= b -> net_input a f <= net_input b f.
Proof using Hf.
  intros Hab. pose proof (proj1 (net_input_reaches a (net_input a f) ltac:(lia)) ltac:(lia)).
  apply net_input_reaches; nia.
Qed.

Lemma quote_bounds a : 0 <= a -> 0 <= quote a x y f < y.
Proof using Hf Hx Hy.
  intros Ha. pose proof (net_input_bounds a Ha). unfold quote. split.
  - apply Z.div_pos; nia.
  - apply Z.div_lt_upper_bound; nia.
Qed.

(** The product of the reserves does not fall, fee included. *)
Lemma quote_product a : 0 <= a -> x * y <= (x + a) * (y - quote a x y f).
Proof using Hf Hx Hy.
  intros Ha. pose proof (net_input_bounds a Ha) as Hn. pose proof (quote_bounds a Ha) as Hq.
  assert (quote a x y f * (x + net_input a f) <= net_input a f * y) as Hdiv.
  { unfold quote. rewrite Z.mul_comm. apply Z.mul_div_le. lia. }
  transitivity ((x + net_input a f) * (y - quote a x y f)); [nia|].
  apply Z.mul_le_mono_nonneg_r; lia.
Qed.

(** The least input of the code's formula. *)
Definition least_input (q : Z) : Z :=
  ((q * x + (y - q) - 1) / (y - q) - 1) * 10000 / (10000 - f) + 1.

Lemma least_input_pos q : 0 < q < y -> 0 < least_input q.
Proof using Hf Hx.
  intros Hq. unfold least_input.
  assert (1 <= (q * x + (y - q) - 1) / (y - q)) by (apply Z.div_le_lower_bound; nia).
  assert (0 <= ((q * x + (y - q) - 1) / (y - q) - 1) * 10000 / (10000 - f)) by (apply Z.div_pos; lia). lia.
Qed.

Lemma quote_reaches q a : 0 < q < y -> 0 <= a -> q <= quote a x y f <-> least_input q <= a.
Proof using Hf Hx Hy.
  intros Hq Ha. pose proof (net_input_bounds a Ha) as Hn. set (n := net_input a f) in *.
  assert (q <= quote a x y f <-> q * x <= n * (y - q)) as ->.
  { unfold quote. fold n. split.
    - intros H. assert (q * (x + n) <= n * y); [|nia].
      transitivity ((n * y / (x + n)) * (x + n)); [nia|]. rewrite Z.mul_comm. apply Z.mul_div_le. lia.
    - intros H. apply Z.div_le_lower_bound; nia. }
  assert (q * x <= n * (y - q) <-> (q * x + (y - q) - 1) / (y - q) <= n) as ->.
  { split.
    - intros H. apply Z.lt_succ_r, Z.div_lt_upper_bound; nia.
    - intros H. pose proof (Z.div_mod (q * x + (y - q) - 1) (y - q) ltac:(lia)).
      pose proof (Z.mod_pos_bound (q * x + (y - q) - 1) (y - q) ltac:(lia)). nia. }
  unfold n. rewrite net_input_reaches by done. unfold least_input.
  set (m := (q * x + (y - q) - 1) / (y - q)). split.
  - intros H. enough ((m - 1) * 10000 / (10000 - f) < a) by lia. apply Z.div_lt_upper_bound; lia.
  - intros H. pose proof (Z.div_mod ((m - 1) * 10000) (10000 - f) ltac:(lia)).
    pose proof (Z.mod_pos_bound ((m - 1) * 10000) (10000 - f) ltac:(lia)). nia.
Qed.
End quotes.

(** The width checks of a quote. *)
Definition quote_fits (a x y f : Z) : Prop :=
  a * f < WORD /\ net_input a f * y < WORD /\ x + net_input a f < WORD.

Lemma amm_inputs_Ok a x y f :
  amm_inputs a x y f = Ok tt <->
  0 <= a < WORD /\ 0 < x < WORD /\ 0 < y < WORD /\ 0 <= f < 10000.
Proof.
  unfold amm_inputs. rewrite raise_if_Ok, !orb_false_iff, !negb_false_iff, !andb_true_iff, !Z.leb_le, !Z.ltb_lt.
  tauto.
Qed.

Lemma amm_amount_out_Ok a x y f r :
  amm_amount_out a x y f = Ok r <->
  amm_inputs a x y f = Ok tt /\ quote_fits a x y f /\ r = quote a x y f.
Proof.
  unfold amm_amount_out, quote_fits. fold (net_input a f). fold (quote a x y f). split.
  - intros H. apply bind_Ok in H as ([] & Hi & ([] & H1 & ([] & H2 & [= <-])%bind_Ok)%bind_Ok).
    apply raise_if_Ok in H1, H2. reflect_bools. done.
  - intros (Hi & (H1 & H2 & H3) & Hr). rewrite Hi, Hr. cbn [mbind result_bind].
    rewrite (proj2 (Z.leb_gt _ _) H1), (proj2 (Z.leb_gt _ _) H2), (proj2 (Z.leb_gt _ _) H3). done.
Qed.

Lemma quote_fits_mono a b x y f :
  0 <= a <= b -> 0 < y -> 0 <= f < 10000 -> quote_fits b x y f -> quote_fits a x y f.
Proof.
  intros Hab Hy Hf (H1 & H2 & H3). pose proof (net_input_mono f Hf a b Hab).
  pose proof (net_input_bounds f Hf a ltac:(lia)). unfold quote_fits. split_and!; nia.
Qed.

(** A smaller input of an accepted quote is accepted too. *)
Lemma amm_amount_out_smaller a b x y f r :
  0 <= a <= b -> amm_amount_out b x y f = Ok r -> amm_amount_out a x y f = Ok (quote a x y f).
Proof.
  intros Hab (Hi & Hfit & _)%amm_amount_out_Ok. apply amm_inputs_Ok in Hi.
  apply amm_amount_out_Ok. split; [apply amm_inputs_Ok; lia|]. split; [|done].
  by apply (quote_fits_mono a b); [lia..|].
Qed.

Lemma amm_amount_in_Ok q x y f a :
  amm_amount_in q x y f = Ok a <->
  amm_inputs q x y f = Ok tt /\ q < y /\
  ((q = 0 /\ a = 0) \/
   (0 < q /\ a = least_input x y f q /\ exists r, amm_amount_out a x y f = Ok r)).
Proof.
  unfold amm_amount_in. fold (least_input x y f q). split.
  - intros H. apply bind_Ok in H as ([] & Hi & ([] & Hq & H)%bind_Ok). apply raise_if_Ok in Hq. reflect_bools.
    split; [done|]. split; [done|]. apply amm_inputs_Ok in Hi.
    destruct (q =? 0) eqn:E; reflect_bools; [left; by inv_ok|right].
    apply bind_Ok in H as (r & Hr & [= <-]). split; [lia|]. split; [done|]. by exists r.
  - intros (Hi & Hq & Hcase). rewrite Hi. cbn [mbind result_bind]. rewrite (proj2 (Z.leb_gt _ _) Hq).
    cbn [raise_if mbind result_bind]. destruct Hcase as [[-> ->]|(Hpos & -> & r & Hr)]; [done|].
    rewrite (proj2 (Z.eqb_neq q 0)) by lia. by rewrite Hr.
Qed.

(** ** The liquidation price *)

Lemma mk_fraction_pos n d : 0 < d -> mk_fraction n d = Ok (frac n (Z.to_pos d)).
Proof. intros Hd. destruct d; done. Qed.

Lemma trove_inputs_Ok c p i price mcr ccr tcr status :
  trove_inputs c p i price mcr ccr tcr status = Ok tt ->
  0 <= c /\ 0 < price /\ 0 < mcr <= ccr /\ 0 <= p + i /\ (status = 1 -> 0 < p + i).
Proof.
  unfold trove_inputs. intros H. apply bind_Ok in H as ([] & H1 & H2).
  apply raise_if_Ok in H1, H2. cbn [existsb] in H1.
  repeat match goal with H : _ || _ = false |- _ => apply orb_false_iff in H as [? ?] end.
  repeat match goal with H : negb _ = false |- _ => apply negb_false_iff, andb_true_iff in H as [? ?] end.
  rewrite andb_false_iff in *. reflect_bools. split_and!; try lia.
Qed.

Lemma liquidatable_flag status icr mcr tcr ccr :
  u "LIQUIDATABLE" ∈ trove_flags status icr mcr tcr ccr <-> status = 1 /\ icr < mcr.
Proof.
  unfold trove_flags. rewrite !elem_of_app.
  destruct (status =? 1) eqn:E; reflect_bools; cbn [andb].
  - destruct (icr <? mcr) eqn:E2; reflect_bools.
    + split; [done|]. intros _. right; left. by left.
    + split; [|lia]. intros [Hn|[Hn|Hn]]; [by apply not_elem_of_nil in Hn..|].
      destruct (tcr <? ccr); [apply list_elem_of_singleton in Hn; done|by apply not_elem_of_nil in Hn].
  - split; [|lia]. intros [Hn|[Hn|Hn]]; [apply list_elem_of_singleton in Hn; done|by apply not_elem_of_nil in Hn|].
    destruct (tcr <? ccr); [apply list_elem_of_singleton in Hn; done|by apply not_elem_of_nil in Hn].
Qed.

(** The integer ratio is below the minimum exactly below the threshold price. *)
Lemma below_threshold c price debt mcr :
  0 < c -> 0 < debt ->
  icr_of c price debt < mcr <-> (frac price (Z.to_pos UNIT) < frac (mcr * debt) (Z.to_pos (c * UNIT)))%Qc.
Proof.
  intros Hc Hd. unfold icr_of. rewrite (proj2 (Z.eqb_neq debt 0)) by lia. cbn [negb].
  assert (0 < UNIT) as Hu by done.
  rewrite frac_lt, !Z2Pos.id by nia.
  assert (c * price / debt < mcr <-> c * price < mcr * debt) as ->.
  { split; intros H; [|apply Z.div_lt_upper_bound; lia].
    pose proof (Z.div_mod (c * price) debt ltac:(lia)). pose proof (Z.mod_pos_bound (c * price) debt ltac:(lia)). nia. }
  split; intros H; nia.
Qed.

(** ** Properties *)

(** C34: the exact-input quote is returned exactly for arguments in range whose
    products fit a 256-bit word; it is below the output reserve, and the product
    of the reserves after the trade is not below the product before. *)
Theorem amm_amount_out_sound a x y f r :
  amm_amount_out a x y f = Ok r <->
  (0 <= a < WORD /\ 0 < x < WORD /\ 0 < y < WORD /\ 0 <= f < 10000) /\ quote_fits a x y f /\
  r = quote a x y f /\ 0 <= r < y /\ x * y <= (x + a) * (y - r).
Proof.
  rewrite amm_amount_out_Ok, amm_inputs_Ok. split; [|tauto].
  intros ((Ha & Hx & Hy & Hf) & Hfit & ->).
  pose proof (quote_bounds x y f ltac:(lia) ltac:(lia) Hf a ltac:(lia)).
  pose proof (quote_product x y f ltac:(lia) ltac:(lia) Hf a ltac:(lia)). tauto.
Qed.

(** C33: the exact-output quote is the least input whose exact-input quote reaches
    the wanted quantity; it is returned exactly when some accepted input does. *)
Theorem amm_amount_in_least q x y f a :
  amm_amount_in q x y f = Ok a <->
  0 <= q /\ (exists r, amm_amount_out a x y f = Ok r /\ q <= r) /\
  forall a' r', amm_amount_out a' x y f = Ok r' -> q <= r' -> a <= a'.
Proof.
  rewrite amm_amount_in_Ok, amm_inputs_Ok. split.
  - intros ((Hq & Hx & Hy & Hf) & Hqy & Hcase). split; [lia|].
    destruct Hcase as [[-> ->]|(Hpos & -> & r & Hr)].
    + assert (net_input 0 f = 0) as Hn by (unfold net_input; done). split.
      * exists (quote 0 x y f). split; [|apply quote_bounds; lia].
        apply amm_amount_out_Ok. rewrite amm_inputs_Ok. split; [unfold WORD in *; lia|].
        split; [|done]. unfold quote_fits. rewrite Hn. unfold WORD in *; lia.
      * intros a' r' H%amm_amount_out_Ok _. destruct H as [Hi _]. apply amm_inputs_Ok in Hi. lia.
    + pose proof (least_input_pos x y f ltac:(lia) Hf q ltac:(lia)) as Hl. split.
      * exists r. split; [done|]. apply amm_amount_out_Ok in Hr as (_ & _ & ->).
        apply quote_reaches; lia.
      * intros a' r' (Hi & _ & ->)%amm_amount_out_Ok Hr'. apply amm_inputs_Ok in Hi.
        apply (quote_reaches x y f) in Hr'; lia.
  - intros (Hq & (r & Hr & Hqr) & Hleast). pose proof Hr as (Hi & Hfit & ->)%amm_amount_out_Ok.
    apply amm_inputs_Ok in Hi as (Ha & Hx & Hy & Hf).
    pose proof (quote_bounds x y f ltac:(lia) ltac:(lia) Hf a ltac:(lia)) as Hb.
    split; [lia|]. split; [lia|]. destruct (decide (q = 0)) as [->|Hne].
    + left. split; [done|].
      specialize (Hleast 0 _ (amm_amount_out_smaller 0 a x y f _ ltac:(lia) Hr)).
      pose proof (quote_bounds x y f ltac:(lia) ltac:(lia) Hf 0 ltac:(lia)). lia.
    + right. split; [lia|]. pose proof (least_input_pos x y f ltac:(lia) Hf q ltac:(lia)) as Hl.
      assert (least_input x y f q <= a) as Hle by (apply quote_reaches; lia).
      pose proof (amm_amount_out_smaller (least_input x y f q) a x y f _ ltac:(lia) Hr) as Hsmall.
      assert (q <= quote (least_input x y f q) x y f) as Hreach by (apply quote_reaches; lia).
      pose proof (Hleast _ _ Hsmall Hreach). assert (a = least_input x y f q) as -> by lia. split; [done|]. by eexists.
Qed.

(** An active trove with collateral has a liquidation price; it is flagged
    liquidatable exactly when the price is below it, which is when the displayed
    buffer is negative. *)
Theorem trove_liquidation_price c p i price mcr ccr tcr :
  trove_inputs c p i price mcr ccr tcr 1 = Ok tt -> 0 < c ->
  exists threshold buffer,
    trove_threshold c (p + i) mcr 1 = Ok (Some threshold) /\
    trove_buffer price (Some threshold) = Ok (Some buffer) /\
    (u "LIQUIDATABLE" ∈ trove_flags 1 (icr_of c price (p + i)) mcr tcr ccr <->
     (frac price (Z.to_pos UNIT) < threshold)%Qc) /\
    ((buffer < 0)%Qc <-> (frac price (Z.to_pos UNIT) < threshold)%Qc).
Proof.
  intros (_ & Hprice & Hmcr & _ & Hdebt)%trove_inputs_Ok Hc. specialize (Hdebt eq_refl).
  set (t := frac (mcr * (p + i)) (Z.to_pos (c * UNIT))).
  assert (0 < t)%Qc as Ht.
  { replace 0%Qc with (frac 0 1) by reflexivity. unfold t. apply frac_lt. nia. }
  assert (t <> 0%Qc) as Hnz by (intros E; rewrite E in Ht; by apply Qclt_not_eq in Ht).
  exists t, ((frac price (Z.to_pos UNIT) / t - 1) * frac_of_Z 100)%Qc.
  assert (0 < c * UNIT) as Hcu by (unfold UNIT; nia).
  split; [unfold trove_threshold; rewrite (proj2 (Z.eqb_neq c 0)) by lia; cbn [andb negb Z.eqb Pos.eqb];
          by rewrite mk_fraction_pos|].
  split.
  { unfold trove_buffer. rewrite bool_decide_false, mk_fraction_pos by done. cbn [mbind result_bind].
    unfold frac_div. by rewrite bool_decide_false. }
  split; [rewrite liquidatable_flag, below_threshold by lia; tauto|].
  set (v := frac price (Z.to_pos UNIT)).
  assert (v / t * t = v)%Qc as Hdiv by (by apply Qcmult_div_r || (rewrite Qcmult_comm; by apply Qcmult_div_r)).
  generalize dependent (v / t)%Qc. intros w Hw. rewrite <- Hw.
  assert (0 < frac_of_Z 100)%Qc as Hh by done. revert Hh. generalize (frac_of_Z 100). intros h Hh.
  clear - Ht Hh. generalize dependent t. intros t Ht.
  assert ((w - 1) * h < 0 <-> w < 1)%Qc as -> by (split; intros H; qc_nra).
  split; intros H; qc_nra.
Qed.

Lemma trove_liquidation_price_witness :
  exists threshold buffer,
    trove_threshold (2 * 10 ^ 17) (5000 * UNIT + 100 * UNIT) (11 * 10 ^ 17) 1 = Ok (Some threshold) /\
    trove_buffer (30000 * UNIT) (Some threshold) = Ok (Some buffer).
Proof.
  assert (trove_inputs (2 * 10 ^ 17) (5000 * UNIT) (100 * UNIT) (30000 * UNIT) (11 * 10 ^ 17)
    (15 * 10 ^ 17) (2 * UNIT) 1 = Ok tt) as Hin by (vm_compute; reflexivity).
  pose proof (trove_liquidation_price _ _ _ _ _ _ _ Hin ltac:(lia)) as (t & b & Ht & Hb & _).
  exists t, b. split; [exact Ht|exact Hb].
Defined.
