(* ===== verification/Calendar.v ===== *)
(** * Times of day: [_timestamp] and [timestamp_ms] of [liqvera_evidence_report]

    The proleptic Gregorian calendar of [datetime], as its C implementation counts
    it, the rendering of a time in milliseconds ([calculation._timestamp]) and the
    reading of such a text ([evidence_io.timestamp_ms]).  Proved here: dates and
    ordinals are inverse, and every rendered time is read back. *)

From S2P Require Import Prelude PyStr PyObj.
Open Scope Z_scope.

(** ** The calendar *)

Definition is_leap (y : Z) : bool := (y mod 4 =? 0) && (negb (y mod 100 =? 0) || (y mod 400 =? 0)).

Definition days_before_year (y : Z) : Z :=
  let y := y - 1 in y * 365 + y / 4 - y / 100 + y / 400.

Definition days_in_month (leap : bool) (m : Z) : Z :=
  if (m =? 2) && leap then 29
  else nth (Z.to_nat (m - 1)) [31; 28; 31; 30; 31; 30; 31; 31; 30; 31; 30; 31] 0.

Definition days_before_month (leap : bool) (m : Z) : Z :=
  nth (Z.to_nat (m - 1)) [0; 31; 59; 90; 120; 151; 181; 212; 243; 273; 304; 334] 0 +
  (if (2 <? m) && leap then 1 else 0).

(** [date.toordinal] and [date.fromordinal]; day 1 is the first of January of year 1. *)
Definition ymd_to_ordinal (y m d : Z) : Z := days_before_year y + days_before_month (is_leap y) m + d.

(** The month and the day of day [n] of a year, [n] counted from 0. *)
Definition month_and_day (leap : bool) (n : Z) : Z * Z :=
  let m := Z.shiftr (n + 50) 5 in
  if n <? days_before_month leap m then (m - 1, n - days_before_month leap (m - 1) + 1)
  else (m, n - days_before_month leap m + 1).

Definition ordinal_to_ymd (ordinal : Z) : Z * Z * Z :=
  let n := ordinal - 1 in
  let n400 := n / 146097 in
  let n := n mod 146097 in
  let n100 := n / 36524 in
  let n := n mod 36524 in
  let n4 := n / 1461 in
  let n := n mod 1461 in
  let n1 := n / 365 in
  let n := n mod 365 in
  let year := n400 * 400 + 1 + n100 * 100 + n4 * 4 + n1 in
  if (n1 =? 4) || (n100 =? 4) then (year - 1, 12, 31)
  else
    let leap := (n1 =? 3) && (negb (n4 =? 24) || (n100 =? 3)) in
    let '(m, d) := month_and_day leap n in (year, m, d).

(** The ordinals of 1970-01-01 and of 9999-12-31. *)
Definition EPOCH : Z := 719163.
Definition MAX_ORDINAL : Z := 3652059.

Example ymd_ex1 : ordinal_to_ymd (EPOCH + 19676) = (2023, 11, 15). Proof. reflexivity. Qed.
Example ymd_ex2 : ordinal_to_ymd MAX_ORDINAL = (9999, 12, 31). Proof. reflexivity. Qed.

(** ** [_timestamp] *)

Definition two (n : Z) : pystr := pad_zeros 2 (str_of_nonneg 10 n).

(** [strftime] of years below 1000, which no report has, is padded on some platforms only. *)
Definition timestamp_text (ms : Z) : result pystr :=
  let ordinal := EPOCH + ms / 86400000 in
  raise_if (negb ((1 <=? ordinal) && (ordinal <=? MAX_ORDINAL))) OverflowError "date value out of range" ;;
  let '(y, m, d) := ordinal_to_ymd ordinal in
  let s := ms mod 86400000 / 1000 in
  let t := pad_zeros 4 (str_of_nonneg 10 y) ++ u "-" ++ two m ++ u "-" ++ two d ++ u "T" ++
           two (s / 3600) ++ u ":" ++ two (s / 60 mod 60) ++ u ":" ++ two (s mod 60) in
  Ok (if ms mod 1000 =? 0 then t ++ u "Z" else t ++ u "." ++ pad_zeros 3 (str_of_nonneg 10 (ms mod 1000)) ++ u "Z").

Example timestamp_ex1 : timestamp_text 1700000000123 = Ok (u "2023-11-14T22:13:20.123Z").
Proof. vm_compute. reflexivity. Qed.

(** ** [timestamp_ms] *)

(** A field of exactly so many digits.  The pattern admits the decimal digits of
    every script, but [fromisoformat] refuses those beyond ASCII. *)
Fixpoint fixed_digits (width : nat) (s : pystr) : option (list Z * pystr) :=
  match width, s with
  | O, _ => Some ([], s)
  | S width, c :: s =>
    if (48 <=? c) && (c <=? 57) then '(ds, s) ← fixed_digits width s; Some ((c - 48) :: ds, s) else None
  | S _, [] => None
  end.

Definition field (width : nat) (s : pystr) : option (Z * pystr) :=
  '(ds, s) ← fixed_digits width s; Some (of_digits 10 ds, s).

Definition skip_char (c : Z) (s : pystr) : option pystr :=
  match s with d :: s => if d =? c then Some s else None | [] => None end.

Record instant := mkInstant {
  in_year : Z; in_month : Z; in_day : Z; in_hour : Z; in_minute : Z; in_second : Z; in_ms : Z }.

Definition read_instant (s : pystr) : option instant :=
  '(y, s) ← field 4 s; s ← skip_char 45 s;
  '(m, s) ← field 2 s; s ← skip_char 45 s;
  '(d, s) ← field 2 s; s ← skip_char 84 s;
  '(hh, s) ← field 2 s; s ← skip_char 58 s;
  '(mm, s) ← field 2 s; s ← skip_char 58 s;
  '(ss, s) ← field 2 s;
  match skip_char 46 s with
  | Some s => '(ms, s) ← field 3 s; if str_eqb s (u "Z") then Some (mkInstant y m d hh mm ss ms) else None
  | None => if str_eqb s (u "Z") then Some (mkInstant y m d hh mm ss 0) else None
  end.

(** The ranges [datetime] accepts. *)
Definition instant_valid (i : instant) : bool :=
  (1 <=? in_year i) && (1 <=? in_month i) && (in_month i <=? 12) &&
  (1 <=? in_day i) && (in_day i <=? days_in_month (is_leap (in_year i)) (in_month i)) &&
  (in_hour i <? 24) && (in_minute i <? 60) && (in_second i <? 60).

Definition instant_ms (i : instant) : Z :=
  ((ymd_to_ordinal (in_year i) (in_month i) (in_day i) - EPOCH) * 86400 +
   in_hour i * 3600 + in_minute i * 60 + in_second i) * 1000 + in_ms i.

Definition timestamp_ms (value : json) : result Z :=
  match value with
  | JStr s =>
    match read_instant s with
    | Some i => raise_if (negb (instant_valid i)) EvidenceRejected "INVALID_DATASET" ;; Ok (instant_ms i)
    | None => raise EvidenceRejected "INVALID_DATASET"
    end
  | _ => raise EvidenceRejected "INVALID_DATASET"
  end.

(** ** Dates and ordinals *)

(** A test of every number of a range. *)
Lemma forall_range (p : Z -> bool) n : forallb p (seqZ 0 n) = true -> forall k, 0 <= k < n -> p k = true.
Proof. intros H k Hk. rewrite forallb_forall in H. apply H, list_elem_of_In, elem_of_seqZ. lia. Qed.

Definition month_ok (leap : bool) (n : Z) : bool :=
  let '(m, d) := month_and_day leap n in
  (1 <=? m) && (m <=? 12) && (1 <=? d) && (d <=? days_in_month leap m) && (days_before_month leap m + d =? n + 1).

Lemma month_and_day_ok (leap : bool) n :
  0 <= n < (if leap then 366 else 365) -> month_ok leap n = true.
Proof.
  intros Hn. assert (forallb (month_ok leap) (seqZ 0 (if leap then 366 else 365)) = true) as Hall
    by (destruct leap; vm_compute; reflexivity).
  by apply (forall_range _ _ Hall).
Qed.

(** A year by its four-century, century, four-year and year counts. *)
Section year_parts.
Context (a b c d : Z) (Hb : 0 <= b <= 3) (Hc : 0 <= c <= 24) (Hd : 0 <= d <= 3).
Let y := a * 400 + 1 + b * 100 + c * 4 + d.

Lemma parts_before : days_before_year y = a * 146097 + b * 36524 + c * 1461 + d * 365.
Proof using Hb Hc Hd.
  unfold days_before_year, y.
  assert ((a * 400 + 1 + b * 100 + c * 4 + d - 1) / 4 = a * 100 + b * 25 + c) as ->
    by (symmetry; apply (Z.div_unique_pos _ _ _ d); lia).
  assert ((a * 400 + 1 + b * 100 + c * 4 + d - 1) / 100 = a * 4 + b) as ->
    by (symmetry; apply (Z.div_unique_pos _ _ _ (c * 4 + d)); lia).
  assert ((a * 400 + 1 + b * 100 + c * 4 + d - 1) / 400 = a) as ->
    by (symmetry; apply (Z.div_unique_pos _ _ _ (b * 100 + c * 4 + d)); lia).
  lia.
Qed.

Lemma parts_leap : is_leap y = (d =? 3) && (negb (c =? 24) || (b =? 3)).
Proof using Hb Hc Hd.
  assert (0 <= b < 4 /\ 0 <= c < 25 /\ 0 <= d < 4) as (Hb' & Hc' & Hd') by lia.
  unfold is_leap, y. set (r := b * 100 + c * 4 + d + 1).
  replace (a * 400 + 1 + b * 100 + c * 4 + d) with (r + a * 400) by (unfold r; lia).
  rewrite (Z.mod_add r a 400) by lia.
  replace (r + a * 400) with (r + (a * 4) * 100) at 2 by lia. rewrite Z.mod_add by lia.
  replace (r + a * 400) with (r + (a * 100) * 4) by lia. rewrite Z.mod_add by lia. unfold r.
  assert (forallb (fun b => forallb (fun c => forallb (fun d =>
    Bool.eqb (is_leap (b * 100 + c * 4 + d + 1)) ((d =? 3) && (negb (c =? 24) || (b =? 3))))
    (seqZ 0 4)) (seqZ 0 25)) (seqZ 0 4) = true) as Hall by (vm_compute; reflexivity).
  apply Bool.eqb_prop. apply (forall_range _ _ (forall_range _ _ (forall_range _ _ Hall b Hb') c Hc') d Hd').
Qed.
End year_parts.

(** What a date of the calendar satisfies. *)
Definition date_ok (y m d : Z) : Prop :=
  1 <= m <= 12 /\ 1 <= d <= days_in_month (is_leap y) m.

(** Division with remainder, as the facts [lia] needs. *)
Lemma div_parts n k : 0 < k -> n = n / k * k + n mod k /\ 0 <= n mod k < k.
Proof. intros Hk. pose proof (Z.div_mod n k ltac:(lia)). pose proof (Z.mod_pos_bound n k Hk). lia. Qed.

Lemma month_and_day_spec (leap : bool) n m d :
  0 <= n < (if leap then 366 else 365) -> month_and_day leap n = (m, d) ->
  1 <= m <= 12 /\ 1 <= d <= days_in_month leap m /\ days_before_month leap m + d = n + 1.
Proof.
  intros Hn Hmd. pose proof (month_and_day_ok leap n Hn) as H. unfold month_ok in H. rewrite Hmd in H.
  reflect_bools. lia.
Qed.

(** The last day of a leap year. *)
Lemma last_day a b c :
  0 <= b <= 3 -> 0 <= c <= 24 -> (c = 24 -> b = 3) ->
  ymd_to_ordinal (a * 400 + 1 + b * 100 + c * 4 + 3) 12 31 = a * 146097 + b * 36524 + c * 1461 + 3 * 365 + 366 /\
  date_ok (a * 400 + 1 + b * 100 + c * 4 + 3) 12 31.
Proof.
  intros Hb Hc Hbc. unfold ymd_to_ordinal, date_ok. rewrite parts_before, parts_leap by lia.
  assert (negb (c =? 24) || (b =? 3) = true) as ->.
  { destruct (Z.eqb_spec c 24), (Z.eqb_spec b 3); lia || done. }
  change (days_before_month ((3 =? 3) && true) 12) with 335.
  change (days_in_month ((3 =? 3) && true) 12) with 31. lia.
Qed.

Lemma ordinal_to_ymd_spec ordinal y m d :
  1 <= ordinal -> ordinal_to_ymd ordinal = (y, m, d) ->
  ymd_to_ordinal y m d = ordinal /\ date_ok y m d.
Proof.
  intros Ho. unfold ordinal_to_ymd.
  pose proof (div_parts (ordinal - 1) 146097 ltac:(lia)) as Ha.
  generalize dependent ((ordinal - 1) mod 146097). generalize dependent ((ordinal - 1) / 146097). intros a r Ha.
  pose proof (div_parts r 36524 ltac:(lia)) as Hb.
  generalize dependent (r mod 36524). generalize dependent (r / 36524). intros b r2 Hb.
  pose proof (div_parts r2 1461 ltac:(lia)) as Hc.
  generalize dependent (r2 mod 1461). generalize dependent (r2 / 1461). intros c r3 Hc.
  pose proof (div_parts r3 365 ltac:(lia)) as Hd.
  generalize dependent (r3 mod 365). generalize dependent (r3 / 365). intros n1 n Hd.
  destruct (Z.eqb_spec n1 4) as [->|Hn1]; [|destruct (Z.eqb_spec b 4) as [->|Hb4]]; cbn [orb].
  - intros [= <- <- <-]. pose proof (last_day a b c ltac:(lia) ltac:(lia) ltac:(lia)) as [Hl Hok].
    replace (a * 400 + 1 + b * 100 + c * 4 + 4 - 1) with (a * 400 + 1 + b * 100 + c * 4 + 3) by lia.
    split; [rewrite Hl; lia|done].
  - intros [= <- <- <-]. pose proof (last_day a 3 24 ltac:(lia) ltac:(lia) ltac:(lia)) as [Hl Hok].
    replace (a * 400 + 1 + 4 * 100 + c * 4 + n1 - 1) with (a * 400 + 1 + 3 * 100 + 24 * 4 + 3) by lia.
    split; [rewrite Hl; lia|done].
  - destruct (month_and_day _ n) as [m' d'] eqn:Hmd. intros [= <- <- <-].
    apply month_and_day_spec in Hmd; [|case_match; lia].
    unfold ymd_to_ordinal, date_ok. rewrite parts_before, parts_leap by lia. lia.
Qed.

Lemma month_days leap m : 1 <= m <= 12 -> 0 <= days_in_month leap m <= 31.
Proof.
  intros Hm. pose proof (forall_range (fun k => forallb (fun b => (0 <=? days_in_month b (k + 1)) &&
    (days_in_month b (k + 1) <=? 31)) [true; false]) 12 eq_refl (m - 1) ltac:(lia)) as Hall.
  cbn [forallb] in Hall. replace (m - 1 + 1) with m in Hall by lia. destruct leap; reflect_bools; lia.
Qed.

Lemma ordinal_year ordinal y m d :
  EPOCH <= ordinal <= MAX_ORDINAL -> ordinal_to_ymd ordinal = (y, m, d) -> 1000 <= y <= 9999.
Proof.
  intros Ho Hy. apply ordinal_to_ymd_spec in Hy as [Hord [Hm Hd]]; [|unfold EPOCH in Ho; lia].
  unfold ymd_to_ordinal, EPOCH, MAX_ORDINAL in *.
  assert (0 <= days_before_month (is_leap y) m <= 335) as Hbm.
  { pose proof (forall_range (fun k => forallb (fun b => (0 <=? days_before_month b (k + 1)) &&
      (days_before_month b (k + 1) <=? 335)) [true; false]) 12 eq_refl (m - 1) ltac:(lia)) as Hall.
    cbn [forallb] in Hall. replace (m - 1 + 1) with m in Hall by lia. destruct (is_leap y); reflect_bools; lia. }
  pose proof (month_days (is_leap y) m Hm) as Hdm.
  unfold days_before_year in Hord.
  pose proof (div_parts (y - 1) 4 ltac:(lia)). pose proof (div_parts (y - 1) 100 ltac:(lia)).
  pose proof (div_parts (y - 1) 400 ltac:(lia)). lia.
Qed.

(** ** Rendered times are read back *)

Lemma fixed_digits_text ds rest :
  Forall (fun d => 0 <= d < 10) ds -> fixed_digits (length ds) (map digit_char ds ++ rest) = Some (ds, rest).
Proof.
  induction 1 as [|d ds Hd _ IH]; [done|]. cbn [length map app fixed_digits].
  assert (digit_char d = 48 + d) as -> by (unfold digit_char; by rewrite (proj2 (Z.ltb_lt d 10)) by lia).
  rewrite !(proj2 (Z.leb_le _ _)) by lia. cbn [andb]. rewrite IH. cbn. do 3 f_equal. lia.
Qed.

Lemma field_padded k n rest :
  0 <= n < 10 ^ Z.of_nat (S k) ->
  field (S k) (pad_zeros (S k) (str_of_nonneg 10 n) ++ rest) = Some (n, rest).
Proof.
  intros Hn. rewrite pad_zeros_digits. unfold field.
  pose proof (padded_digits_length 10 ltac:(lia) k n Hn) as Hl. rewrite <- Hl at 1.
  rewrite fixed_digits_text by (apply padded_digits_range; lia). cbn [mbind option_bind].
  by rewrite padded_digits_value by lia.
Qed.

Lemma field_two n rest : 0 <= n < 100 -> field 2 (two n ++ rest) = Some (n, rest).
Proof. apply (field_padded 1). Qed.

Lemma read_instant_text y m d hh mm ss tail :
  0 <= y <= 9999 -> 0 <= m < 100 -> 0 <= d < 100 -> 0 <= hh < 100 -> 0 <= mm < 100 -> 0 <= ss < 100 ->
  read_instant (pad_zeros 4 (str_of_nonneg 10 y) ++ u "-" ++ two m ++ u "-" ++ two d ++ u "T" ++
                two hh ++ u ":" ++ two mm ++ u ":" ++ two ss ++ tail) =
  match skip_char 46 tail with
  | Some s => '(ms, s) ← field 3 s; if str_eqb s (u "Z") then Some (mkInstant y m d hh mm ss ms) else None
  | None => if str_eqb tail (u "Z") then Some (mkInstant y m d hh mm ss 0) else None
  end.
Proof.
  intros. unfold read_instant. rewrite (field_padded 3) by (cbn; lia). cbn [mbind option_bind].
  change (u "-") with [45]. change (u "T") with [84]. change (u ":") with [58].
  cbn [app skip_char Z.eqb Pos.eqb mbind option_bind].
  do 4 (rewrite field_two by done; cbn [app skip_char Z.eqb Pos.eqb mbind option_bind]).
  by rewrite field_two by done.
Qed.

Lemma timestamp_read ms :
  0 <= ms <= 253402300799999 -> exists text, timestamp_text ms = Ok text /\ timestamp_ms (JStr text) = Ok ms.
Proof.
  intros Hms. unfold timestamp_text.
  pose proof (div_parts ms 86400000 ltac:(lia)) as Hday. set (day := ms / 86400000) in *. set (r := ms mod 86400000) in *.
  rewrite (proj2 (raise_if_Ok _ _ _ tt)); cycle 1.
  { apply negb_false_iff, andb_true_iff. rewrite !Z.leb_le. unfold EPOCH, MAX_ORDINAL. lia. }
  cbn [mbind result_bind]. destruct (ordinal_to_ymd (EPOCH + day)) as [[y m] d] eqn:Hymd.
  assert (EPOCH <= EPOCH + day <= MAX_ORDINAL) as Ho by (unfold EPOCH, MAX_ORDINAL; lia).
  pose proof (ordinal_year _ _ _ _ Ho Hymd) as Hy.
  apply ordinal_to_ymd_spec in Hymd as [Hord [Hm Hd]]; [|unfold EPOCH in *; lia].
  pose proof (month_days (is_leap y) m Hm) as Hdm.
  pose proof (div_parts r 1000 ltac:(lia)) as Hs. set (s := r / 1000) in *.
  assert (r mod 1000 = ms mod 1000) as Hmod.
  { replace ms with (r + (day * 86400) * 1000) by lia. by rewrite Z.mod_add by lia. }
  rewrite Hmod in Hs. set (f := ms mod 1000) in *.
  pose proof (div_parts s 3600 ltac:(lia)) as Hh. pose proof (div_parts s 60 ltac:(lia)) as Hmi.
  pose proof (div_parts (s / 60) 60 ltac:(lia)) as Hmm.
  assert (s / 60 / 60 = s / 3600) as Hdiv by (by rewrite Z.div_div by lia).
  set (i := mkInstant y m d (s / 3600) (s / 60 mod 60) (s mod 60) f).
  assert (instant_valid i = true) as Hvalid.
  { unfold instant_valid, i. cbn [in_year in_month in_day in_hour in_minute in_second].
    rewrite !andb_true_iff, !Z.leb_le, !Z.ltb_lt. lia. }
  assert (instant_ms i = ms) as Hvalue.
  { unfold instant_ms, i. cbn [in_year in_month in_day in_hour in_minute in_second in_ms]. rewrite Hord. lia. }
  eexists. split; [reflexivity|]. cbn [timestamp_ms]. rewrite <- !app_assoc.
  assert (forall x, read_instant x = Some i -> match read_instant x with
    | Some i => raise_if (negb (instant_valid i)) EvidenceRejected "INVALID_DATASET" ;; Ok (instant_ms i)
    | None => raise EvidenceRejected "INVALID_DATASET" end = Ok ms) as Hread
    by (intros x ->; rewrite Hvalid; cbn; by rewrite Hvalue).
  destruct (f =? 0) eqn:Hf; apply Hread; rewrite <- ?app_assoc, read_instant_text by lia; cbn [app skip_char].
  - reflect_bools. unfold i. rewrite Hf. done.
  - change (skip_char 46 (u "." ++ ?x)) with (Some x). cbn iota beta.
    rewrite (field_padded 2) by (cbn; lia). done.
Qed.

(** A text that was rendered, of a time that is not before 1970, is read back. *)
Lemma timestamp_text_read ms text : 0 <= ms -> timestamp_text ms = Ok text -> timestamp_ms (JStr text) = Ok ms.
Proof.
  intros Hms Ht. destruct (timestamp_read ms) as (text' & Ht' & Hr); [|congruence]. split; [done|].
  unfold timestamp_text in Ht. apply bind_Ok in Ht as ([] & Ho%raise_if_Ok & _).
  apply negb_false_iff, andb_true_iff in Ho as [_ Ho%Z.leb_le]. unfold EPOCH, MAX_ORDINAL in Ho.
  pose proof (Z.div_mod ms 86400000). pose proof (Z.mod_pos_bound ms 86400000). lia.
Qed.

(** A time of the years 1970 to 9999 is rendered, and reading the text gives the
    same number of milliseconds. *)
Theorem timestamp_roundtrip ms :
  0 <= ms <= 253402300799999 -> exists text, timestamp_text ms = Ok text /\ timestamp_ms (JStr text) = Ok ms.
Proof. apply timestamp_read. Qed.

Lemma timestamp_roundtrip_witness :
  exists text, timestamp_text 951868799999 = Ok text /\ timestamp_ms (JStr text) = Ok 951868799999.
Proof. apply timestamp_roundtrip. lia. Defined.
