(* ===== verification/EvidenceIo.v ===== *)
(** * [liqvera_evidence_report.canonical] and [evidence_io]: the bytes of a report

    The canonical JSON of reports, the strict decoder that refuses floats, constants,
    repeated keys and texts that are not in normal form, and the checks of decoded
    values.  Proved here: what is encoded is decoded again, and the strict decoder
    only ever raises its one rejection. *)

From S2P Require Import Prelude PyStr Num PyObj Json JsonRoundtrip Bytes ByteLaws.
Open Scope Z_scope.

(** ** [canonical] *)

Module Canonical.

(** [_require_json_value]; the keys of a decoded object are texts. *)
Fixpoint require_json_value (value : json) : result unit :=
  match value with
  | JFloat _ => raise TypeError "float is forbidden in canonical JSON"
  | JList l => require_all require_json_value l
  | JDict d => require_all (fun kv => require_json_value (snd kv)) d
  | _ => Ok tt
  end.

Definition canonical_json_bytes (document : json) : result bytes :=
  require_json_value document ;;
  text ← json_dumps_with unicode_style document;
  encode_utf8 (text ++ [10]).
End Canonical.

(** ** [evidence_io] *)

Definition MAX_BUNDLE_BYTES : Z := 10 * 1024 * 1024.
Definition MAX_MEMBER_BYTES : Z := 4 * 1024 * 1024.
Definition MAX_MEMBERS : Z := 32.

(** [raise EvidenceRejected(code)] *)
Definition rejected {A} (code : string) : result A := raise EvidenceRejected code.

Definition reject_if (b : bool) (code : string) : result unit := raise_if b EvidenceRejected code.

Definition digest (raw : bytes) : pystr := sha256_hex raw.

(** [unicodedata.normalize("NFC", s)] *)
Class UnicodeNormal := nfc : pystr -> pystr.

(** The hooks [pairs] and [forbidden]. *)
Definition strict_hooks : json_hooks := {|
  on_pairs := fun ps =>
    foldM (fun d kv => reject_if (isSome (assoc (fst kv) d)) "INVALID_DATASET" ;; Ok (d ++ [kv])) [] ps;
  on_float := fun _ _ _ _ => rejected "INVALID_DATASET";
  on_constant := fun _ => rejected "INVALID_DATASET" |}.

Section evidence_io.
Context `{UnicodeNormal}.

Definition require_text (s : pystr) : result unit :=
  reject_if (negb (str_eqb (nfc s) s)) "INVALID_DATASET" ;; _ ← encode_utf8 s; Ok tt.

(** [_strings] *)
Fixpoint require_strings (value : json) : result unit :=
  match value with
  | JStr s => require_text s
  | JDict d => require_all (fun kv => require_text (fst kv) ;; require_strings (snd kv)) d
  | JList l => require_all require_strings l
  | _ => Ok tt
  end.

Definition strict_json (raw : bytes) : result json :=
  try_except
    (text ← decode_utf8 raw;
     document ← json_loads_with strict_hooks text;
     require_strings document ;;
     Ok document)
    [UnicodeError; ValueError; RecursionError]
    (fun _ => rejected "INVALID_DATASET").
End evidence_io.

(** ** Checks of decoded values *)

Definition object_keys (value : json) (keys : list pystr) : result (list (pystr * json)) :=
  match value with
  | JDict d => reject_if (negb (keys_equal d keys)) "INVALID_DATASET" ;; Ok d
  | _ => rejected "INVALID_DATASET"
  end.

Definition integer (value : json) (minimum : Z) : result Z :=
  match value with
  | JInt z => reject_if (z <? minimum) "INVALID_DATASET" ;; Ok z
  | _ => rejected "INVALID_DATASET"
  end.

Definition identifier (value : json) : result pystr :=
  match value with
  | JStr s =>
    try_except
      (n ← uuid_parse s; raise_if (negb (str_eqb (uuid_str n) s)) ValueError "" ;; Ok s)
      [ValueError; AttributeError] (fun _ => rejected "INVALID_INPUT")
  | _ => rejected "INVALID_INPUT"
  end.

(** The segments of [r"[A-Za-z0-9_-][A-Za-z0-9_.-]*(/...)*"]. *)
Definition member_char (c : Z) : bool :=
  ((65 <=? c) && (c <=? 90)) || ((97 <=? c) && (c <=? 122)) || ((48 <=? c) && (c <=? 57)) || (c =? 95) || (c =? 45).

Definition member_segment (s : pystr) : bool :=
  match s with c :: t => member_char c && forallb (fun c => member_char c || (c =? 46)) t | [] => false end.

Definition safe_member (name : json) : result pystr :=
  match name with
  | JStr s =>
    reject_if ((180 <? length s)%nat || negb (forallb member_segment (str_split 47 s))) "INVALID_DATASET" ;; Ok s
  | _ => rejected "INVALID_DATASET"
  end.

(** [members[name]] *)
Definition member (members : list (pystr * bytes)) (name : pystr) : result bytes :=
  match assoc name members with Some raw => Ok raw | None => raise KeyError "member" end.

Lemma object_keys_Ok x keys d : object_keys x keys = Ok d <-> x = JDict d /\ keys_equal d keys = true.
Proof.
  destruct x; cbn; try (split; [done|by intros [? _]]). unfold reject_if.
  split; [intros ([] & Hk%raise_if_Ok%negb_false_iff & [= ->])%bind_Ok; done|].
  intros [[= ->] Hk]. by rewrite Hk.
Qed.

Lemma integer_Ok x minimum z : integer x minimum = Ok z <-> x = JInt z /\ minimum <= z.
Proof.
  destruct x; cbn; try (split; [done|by intros [? _]]). unfold reject_if.
  split; [intros ([] & Hk%raise_if_Ok%Z.ltb_ge & [= ->])%bind_Ok; done|].
  intros [[= ->] Hk%Z.ltb_ge]. by rewrite Hk.
Qed.

Lemma safe_member_Ok x name : safe_member x = Ok name -> x = JStr name.
Proof. destruct x; try done. cbn. unfold reject_if. intros ([] & _ & [= ->])%bind_Ok. done. Qed.

Lemma member_Ok members name raw : member members name = Ok raw <-> assoc name members = Some raw.
Proof. unfold member. destruct (assoc name members); split; naive_solver. Qed.

(** ** What comes with the distribution

    [schema_validation.validate], which is [jsonschema] over the packaged schemas, and
    the packaged files: the locked dependencies and the contracts' interfaces. *)
Class ReportResources := {
  validate : string -> json -> result unit;
  runtime_dependencies : bytes;
  packaged_abi : pystr -> bytes }.

(** ** What is encoded is decoded *)

Lemma plain_json_value j : json_plain j = true -> Canonical.require_json_value j = Ok tt.
Proof.
  induction j as [| | | | |l IH|d IH] using json_ind_nested; intros Hp; try done;
    cbn [Canonical.require_json_value json_plain] in *; apply require_all_Ok.
  - rewrite forallb_forall in Hp. rewrite Forall_forall in *. intros x Hx. apply IH; [done|].
    by apply Hp, list_elem_of_In.
  - apply andb_true_iff in Hp as [_ Hp]. rewrite forallb_forall in Hp. rewrite Forall_forall in *.
    intros x Hx. apply IH; [done|]. apply list_elem_of_In, Hp, andb_true_iff in Hx. tauto.
Qed.

Lemma require_value_arranged y j :
  Canonical.require_json_value j = Ok tt -> Canonical.require_json_value (json_arranged y j) = Ok tt.
Proof.
  induction j as [| | | | |l IH|d IH] using json_ind_nested; intros Hp; try done;
    cbn [Canonical.require_json_value json_arranged] in *; rewrite require_all_Ok in *.
  - rewrite Forall_forall in *. intros x (z & -> & Hz)%list_elem_of_fmap. by apply IH, Hp.
  - assert (Forall (fun kv => Canonical.require_json_value (snd kv) = Ok tt)
      (map (fun kv => (fst kv, json_arranged y (snd kv))) d)) as Hall.
    { rewrite Forall_forall in *. intros x (z & -> & Hz)%list_elem_of_fmap. by apply IH, Hp. }
    destruct (sort_keys y); [|done]. unfold sort_items. by rewrite py_sorted_perm.
Qed.

(** A document and its arrangement have the same canonical bytes. *)
Lemma canonical_arranged j b :
  Canonical.canonical_json_bytes j = Ok b -> Canonical.canonical_json_bytes (json_arranged unicode_style j) = Ok b.
Proof.
  unfold Canonical.canonical_json_bytes. intros ([] & Hv & (text & Ht & Hb)%bind_Ok)%bind_Ok.
  rewrite require_value_arranged by done. cbn [mbind result_bind]. by rewrite (dumps_arranged _ _ _ Ht).
Qed.

Lemma strict_pairs ps : NoDup (map fst ps) -> on_pairs strict_hooks ps = Ok ps.
Proof.
  intros Hnd. cbn [on_pairs strict_hooks].
  assert (forall acc, NoDup (map fst (acc ++ ps)) ->
    foldM (fun d kv => reject_if (isSome (assoc (fst kv) d)) "INVALID_DATASET" ;; Ok (d ++ [kv])) acc ps = Ok (acc ++ ps))
    as H; [|by apply (H [])].
  clear Hnd. induction ps as [|[k v] ps IH]; intros acc Hnd; cbn [foldM fst]; [by rewrite app_nil_r|].
  assert (assoc k acc = None) as ->.
  { rewrite map_app in Hnd. apply NoDup_app in Hnd as (_ & Hk & _).
    assert (k ∉ map fst acc) as Hn by (intros Hin; apply (Hk k Hin); left).
    clear -Hn. induction acc as [|[k' v'] acc IH]; [done|]. cbn [assoc map fst] in *.
    apply not_elem_of_cons in Hn as [Hk Hn]. rewrite decide_False by done. by apply IH. }
  cbn [isSome reject_if raise_if mbind result_bind]. rewrite IH by by rewrite <- app_assoc. by rewrite <- app_assoc.
Qed.

Section strict_laws.
Context `{UnicodeNormal}.

Lemma require_strings_arranged y j : require_strings j = Ok tt -> require_strings (json_arranged y j) = Ok tt.
Proof.
  induction j as [| | | | |l IH|d IH] using json_ind_nested; intros Hp; try done;
    cbn [require_strings json_arranged] in *; rewrite require_all_Ok in *.
  - rewrite Forall_forall in *. intros x (z & -> & Hz)%list_elem_of_fmap. by apply IH, Hp.
  - assert (Forall (fun kv => (require_text (fst kv) ;; require_strings (snd kv)) = Ok tt)
      (map (fun kv => (fst kv, json_arranged y (snd kv))) d)) as Hall.
    { rewrite Forall_forall in *. intros x (z & -> & Hz)%list_elem_of_fmap. cbn [fst snd].
      specialize (Hp z Hz). apply bind_Ok in Hp as ([] & Ht & Hv). rewrite Ht. by apply IH. }
    destruct (sort_keys y); [|done]. unfold sort_items. by rewrite py_sorted_perm.
Qed.

(** The strict decoder reads back what the canonical encoder wrote. *)
Lemma strict_json_canonical j b :
  json_plain j = true -> require_strings j = Ok tt -> Canonical.canonical_json_bytes j = Ok b ->
  strict_json b = Ok (json_arranged unicode_style j).
Proof.
  intros Hp Hs Hb. unfold Canonical.canonical_json_bytes in Hb. rewrite plain_json_value in Hb by done.
  apply bind_Ok in Hb as ([] & _ & (text & Ht & Hb)%bind_Ok).
  assert (text_ok (text ++ [10]) = true) as Hok.
  { unfold text_ok. rewrite forallb_app. apply andb_true_iff. split; [by eapply dumps_scalar|done]. }
  rewrite encode_utf8_text in Hb by done. injection Hb as <-.
  unfold strict_json, decode_utf8. rewrite decode_utf8_encoded by done. cbn [mbind result_bind].
  rewrite (loads_dumps_with strict_hooks strict_pairs unicode_style [] []) with (j := j);
    [|done..|by repeat constructor].
  cbn [mbind result_bind]. by rewrite require_strings_arranged.
Qed.

Lemma strict_hooks_ok : hooks_ok (fun c => exc_subclass c ValueError) strict_hooks.
Proof.
  split; cbn [on_pairs on_float on_constant strict_hooks]; [|by intros ????? [= <-]|by intros ?? [= <-]].
  intros ps e. assert (forall acc, fails_with ValueError (foldM (fun d kv =>
    reject_if (isSome (assoc (fst kv) d)) "INVALID_DATASET" ;; Ok (d ++ [kv])) acc ps)) as Hf.
  { induction ps as [|kv ps IH]; intros acc; [done|]. cbn [foldM]. unfold reject_if.
    destruct (isSome _); [done|]. apply IH. }
  intros He. exact (fails_with_Raise _ _ _ (Hf []) He).
Qed.

Lemma require_text_fails s : fails_with ValueError (require_text s).
Proof. unfold require_text, reject_if, encode_utf8. fails. Qed.

Lemma require_all_fails {A} c (check : A -> result unit) l :
  Forall (fun x => fails_with c (check x)) l -> fails_with c (require_all check l).
Proof.
  unfold require_all. induction 1 as [|x l Hx _ IH]; [done|]. cbn [foldM]. apply fails_bind; [done|]. by intros [] _.
Qed.

Lemma require_strings_fails j : fails_with ValueError (require_strings j).
Proof.
  induction j as [| | | |s|l IH|d IH] using json_ind_nested; try done; cbn [require_strings].
  - apply require_text_fails.
  - by apply require_all_fails.
  - apply require_all_fails. eapply Forall_impl; [exact IH|]. intros kv Hkv. cbn beta.
    apply fails_bind; [apply require_text_fails|done].
Qed.

(** Whatever the bytes, the decoder gives a document or its one rejection. *)
Lemma strict_json_rejects raw :
  (exists j, strict_json raw = Ok j) \/ strict_json raw = rejected "INVALID_DATASET".
Proof.
  unfold strict_json. set (m := decode_utf8 raw ≫= _).
  assert (fails_with ValueError m) as Hm.
  { apply fails_bind; [apply decode_utf8_value_error|]. intros text _.
    apply fails_bind; [apply fails_with_intro; intros e; by apply (json_loads_with_terminates (fun c => exc_subclass c ValueError)); [..|apply strict_hooks_ok]|].
    intros j _. apply fails_bind; [apply require_strings_fails|done]. }
  destruct m as [j|e]; [left; by exists j|right]. cbn [try_except existsb]. unfold fails_with in Hm. rewrite Hm.
  by rewrite orb_true_r.
Qed.

Lemma strict_json_fails raw : fails_with EvidenceRejected (strict_json raw).
Proof. destruct (strict_json_rejects raw) as [[j ->] | ->]; done. Qed.

(** The canonical bytes of a document without floats, whose texts are in normal form
    and whose objects have distinct keys, pass the strict decoder, which gives the
    document with its members in order; and that encodes to the same bytes. *)
Theorem strict_json_roundtrip j b :
  json_plain j = true -> require_strings j = Ok tt -> Canonical.canonical_json_bytes j = Ok b ->
  strict_json b = Ok (json_arranged unicode_style j) /\
  Canonical.canonical_json_bytes (json_arranged unicode_style j) = Ok b.
Proof.
  intros Hp Hs Hb. split; [by apply strict_json_canonical|by apply canonical_arranged].
Qed.
End strict_laws.

Lemma strict_json_roundtrip_witness :
  let H : UnicodeNormal := fun s => s in
  exists b, Canonical.canonical_json_bytes demo_document = Ok b /\
    strict_json b = Ok (json_arranged unicode_style demo_document).
Proof.
  intros H. destruct (is_Ok_exists (Canonical.canonical_json_bytes demo_document)) as [b Hb]; [vm_compute; reflexivity|].
  exists b. split; [exact Hb|].
  exact (proj1 (strict_json_roundtrip demo_document b eq_refl eq_refl Hb)).
Defined.
