(* ===== verification/Documents.v ===== *)
(** * Documents: laws of decoded values shared by the reports

    The arrangement a canonical encoding gives a document ([json_arranged]) and the
    reads that do not see it, [dict.update], documents of printable ASCII texts, which
    every Unicode normal form leaves alone, and equality of decoded values. *)

From S2P Require Import Prelude PyStr Num PyObj Json JsonRoundtrip Bytes ByteLaws Exact ExactText Calculation Calendar EvidenceIo.
Open Scope Z_scope.

(** ** [dict.update] *)

(** [d.update(items)] *)
Definition dict_update {V} (d items : list (pystr * V)) : list (pystr * V) :=
  fold_left (fun d kv => assoc_set (fst kv) (snd kv) d) items d.


Lemma dict_update_new {V} (d items : list (pystr * V)) :
  NoDup (map fst (d ++ items)) -> dict_update d items = d ++ items.
Proof.
  revert d. induction items as [|[k v] items IH]; intros d Hnd; [by rewrite app_nil_r|].
  change (dict_update d ((k, v) :: items)) with (dict_update (assoc_set k v d) items). rewrite assoc_set_new.
  - rewrite IH; by rewrite <- app_assoc.
  - rewrite map_app in Hnd. apply NoDup_app in Hnd as (_ & Hk & _). intros Hin. apply (Hk k Hin). left.
Qed.

(** ** Arranged documents *)

Section arranged.
Context (y : json_style).

Definition arranged_items (d : list (pystr * json)) : list (pystr * json) :=
  let d := map (fun kv => (fst kv, json_arranged y (snd kv))) d in if sort_keys y then sort_items d else d.

Lemma arranged_keys d : map fst (arranged_items d) ≡ₚ map fst d.
Proof.
  unfold arranged_items. assert (map fst (map (fun kv => (fst kv, json_arranged y (snd kv))) d) = map fst d) as E
    by by rewrite map_map.
  destruct (sort_keys y); [unfold sort_items; rewrite py_sorted_perm|]; by rewrite E.
Qed.

Lemma arranged_assoc k d : NoDup (map fst d) -> assoc k (arranged_items d) = json_arranged y <$> assoc k d.
Proof.
  intros Hnd. unfold arranged_items. rewrite <- (assoc_map_values (json_arranged y)).
  assert (NoDup (map fst (map (fun kv => (fst kv, json_arranged y (snd kv))) d))) as Hnd' by by rewrite map_map.
  destruct (sort_keys y); [|done]. symmetry. apply assoc_perm; [done|]. unfold sort_items. by rewrite py_sorted_perm.
Qed.

Lemma plain_dict d : json_plain (JDict d) = true ->
  NoDup (map fst d) /\ forall k x, assoc k d = Some x -> json_plain x = true.
Proof.
  cbn [json_plain]. intros [Hnd%bool_decide_eq_true Hall]%andb_true_iff. split; [done|].
  intros k x Hx%assoc_elem. rewrite forallb_forall in Hall. apply list_elem_of_In, Hall, andb_true_iff in Hx.
  tauto.
Qed.

Lemma item_arranged k d x : json_plain (JDict d) = true -> json_item k d = Ok x ->
  json_item k (arranged_items d) = Ok (json_arranged y x) /\ json_plain x = true.
Proof.
  intros [Hnd Hp]%plain_dict Hx. unfold json_item in *. destruct (assoc k d) as [z|] eqn:E; [|done].
  injection Hx as ->. rewrite arranged_assoc, E by done. split; [done|]. by eapply Hp.
Qed.

Lemma subscript_arranged k j x : json_plain j = true -> subscript k j = Ok x ->
  subscript k (json_arranged y j) = Ok (json_arranged y x) /\ json_plain x = true.
Proof. destruct j; try done. apply item_arranged. Qed.

Lemma keys_equal_arranged d keys : keys_equal (arranged_items d) keys = keys_equal d keys.
Proof.
  apply eq_true_iff_eq. unfold keys_equal, keys_subset, keys_cover. rewrite !andb_true_iff, !forallb_forall.
  setoid_rewrite bool_decide_eq_true. setoid_rewrite <- list_elem_of_In.
  assert (forall k, k ∈ map fst (arranged_items d) <-> k ∈ map fst d) as Hk by (intros k; by rewrite arranged_keys).
  assert (forall e, (forall x, x ∈ e -> x.1 ∈ keys) <-> (forall k : pystr, k ∈ map (@fst pystr json) e -> k ∈ keys)) as Hs.
  { intros e. split.
    - intros H k (x & -> & Hx)%list_elem_of_fmap. by apply H.
    - intros H x Hx. apply H. by apply list_elem_of_fmap_2. }
  rewrite !Hs. setoid_rewrite Hk. done.
Qed.

Lemma text_arranged j s : json_arranged y j = JStr s <-> j = JStr s.
Proof. by destruct j. Qed.

End arranged.

(** ** Documents of printable ASCII texts *)

Definition ascii_text (s : pystr) : bool := forallb (fun c => (32 <=? c) && (c <=? 126)) s.

(** Documents of printable ASCII texts, without floats and repeated keys. *)
Fixpoint ascii_document (j : json) : bool :=
  match j with
  | JFloat _ => false
  | JStr s => ascii_text s
  | JList l => forallb ascii_document l
  | JDict d =>
    bool_decide (NoDup (map fst d)) && forallb (fun kv => ascii_text (fst kv) && ascii_document (snd kv)) d
  | _ => true
  end.

Lemma ascii_printable s : ascii_text s = true <-> Forall printable s.
Proof.
  unfold ascii_text, printable. rewrite forallb_forall, Forall_forall. setoid_rewrite list_elem_of_In.
  split; intros Hs c Hc; specialize (Hs c Hc); [reflect_bools; lia|].
  by rewrite !(proj2 (Z.leb_le _ _)) by lia.
Qed.

Lemma ascii_app s t : ascii_text s = true -> ascii_text t = true -> ascii_text (s ++ t) = true.
Proof. intros Hs Ht. unfold ascii_text in *. by rewrite forallb_app, Hs, Ht. Qed.

Lemma ascii_document_item d k x : ascii_document (JDict d) = true -> (k, x) ∈ d -> ascii_text k = true /\ ascii_document x = true.
Proof.
  cbn [ascii_document]. intros [_ Hd]%andb_true_iff Hin%list_elem_of_In. rewrite forallb_forall in Hd.
  apply Hd, andb_true_iff in Hin. done.
Qed.

Lemma ascii_plain j : ascii_document j = true -> json_plain j = true.
Proof.
  assert (forall s, ascii_text s = true -> text_ok s = true) as Ht.
  { intros s Hs%ascii_printable. unfold text_ok. rewrite forallb_forall. intros c Hc%list_elem_of_In.
    apply printable_scalar. by eapply Forall_at. }
  induction j as [| | | |s|l IH|d IH] using json_ind_nested; intros Ha; cbn [json_plain ascii_document] in *; auto.
  - rewrite forallb_forall in *. intros x Hx. rewrite Forall_forall in IH. apply IH; [by apply list_elem_of_In|auto].
  - apply andb_true_iff in Ha as [-> Ha]. cbn [andb]. rewrite forallb_forall in *. intros x Hx.
    specialize (Ha x Hx). apply andb_true_iff in Ha as [Hk Hv]. rewrite Ht by done. cbn [andb].
    rewrite Forall_forall in IH. apply IH; [by apply list_elem_of_In|done].
Qed.

Lemma dict_update_ascii d items :
  ascii_document (JDict d) = true -> forallb (fun kv => ascii_text (fst kv) && ascii_document (snd kv)) items = true ->
  ascii_document (JDict (dict_update d items)) = true.
Proof.
  revert d. induction items as [|[k v] items IH]; intros d Hd Hi; [done|].
  cbn [forallb fst snd] in Hi. apply andb_true_iff in Hi as [[Hk Hv]%andb_true_iff Hi].
  change (dict_update d ((k, v) :: items)) with (dict_update (assoc_set k v d) items). apply IH; [|done].
  pose proof Hd as Hd'. cbn [ascii_document] in Hd |- *. apply andb_true_iff in Hd as [Hnd%bool_decide_eq_true Hd].
  apply andb_true_iff. split; [apply bool_decide_eq_true; by apply assoc_set_NoDup|].
  rewrite forallb_forall. intros x Hx%list_elem_of_In. apply assoc_set_elem in Hx as [->|Hx]; [cbn [fst snd]; by rewrite Hk, Hv|].
  rewrite forallb_forall in Hd. by apply Hd, list_elem_of_In.
Qed.

Lemma digits_ascii n : ascii_text (str_of_nonneg 10 n) = true.
Proof.
  apply ascii_printable. eapply Forall_impl; [apply str_of_nonneg_ascii|]. unfold printable. cbn. lia.
Qed.

Lemma str_int_ascii z s : py_str_int z = Ok s -> ascii_text s = true.
Proof. unfold py_str_int. intros ([] & _ & [= <-])%bind_Ok. apply ascii_printable, str_of_Z_printable. Qed.

Lemma zeros_ascii n : ascii_text (repeat 48 n) = true.
Proof. induction n as [|n IH]; [done|]. exact IH. Qed.

Lemma pad_ascii k n : ascii_text (pad_zeros k (str_of_nonneg 10 n)) = true.
Proof. apply ascii_app; [apply zeros_ascii|apply digits_ascii]. Qed.

Lemma format_ascii neg c e : ascii_text (dec_format_f neg c e) = true.
Proof.
  unfold dec_format_f. set (e' := if (c =? 0) && (0 <? e) then 0 else e). cbv zeta.
  set (ds := str_of_nonneg 10 c). assert (ascii_text ds = true) as Hds by apply digits_ascii.
  set (p := if _ <? 0 then _ else _).
  assert (ascii_text (fst p) = true /\ ascii_text (snd p) = true) as [H1 H2].
  { unfold p. repeat case_match; cbn [fst snd]; (split; [try done|]); try done.
    - apply ascii_app; [apply zeros_ascii|done].
    - apply ascii_app; [done|apply zeros_ascii].
    - apply ascii_printable, Forall_drop, ascii_printable. done.
    - match goal with E : take ?n ds = _ |- _ => rewrite <- E end. apply ascii_printable, Forall_take, ascii_printable. done.
    - apply ascii_printable, Forall_drop, ascii_printable. done. }
  destruct p as [i f]. cbn [fst snd] in *. apply ascii_app; [by destruct neg|]. apply ascii_app; [done|].
  by destruct f.
Qed.

Lemma display_ascii q s : display q = Ok s -> ascii_text s = true.
Proof. unfold display. intros ([| |] & _ & H)%bind_Ok; try done. injection H as <-. apply format_ascii. Qed.

Lemma lower_hex_ascii s : Forall hexchar s -> ascii_text s = true.
Proof. intros Hs. apply ascii_printable. eapply Forall_impl; [exact Hs|apply hexchar_printable]. Qed.

Lemma digest_ascii b : ascii_text (digest b) = true.
Proof. apply lower_hex_ascii, sha256_hex_chars. Qed.

Lemma uuid_ascii n : uuid_range n -> ascii_text (uuid_str n) = true.
Proof.
  intros Hn. apply ascii_printable. eapply Forall_impl; [by apply uuid_str_chars|]. intros c [->|Hc]; [by unfold printable|].
  by apply hexchar_printable.
Qed.

Lemma timestamp_ascii ms s : timestamp_text ms = Ok s -> ascii_text s = true.
Proof.
  unfold timestamp_text. intros ([] & _ & H)%bind_Ok. destruct (ordinal_to_ymd _) as [[y m] d]. injection H as <-.
  unfold two. case_match; repeat first [apply pad_ascii|apply (ascii_app (u _)); [reflexivity|]|reflexivity|apply ascii_app].
Qed.

Section ascii_documents.
Context `{UnicodeNormal}.

(** Normal form C leaves ASCII as it is. *)
Context (Hnfc : forall s, Forall printable s -> nfc s = s).

Lemma ascii_strings j : ascii_document j = true -> require_strings j = Ok tt.
Proof.
  assert (forall s, ascii_text s = true -> require_text s = Ok tt) as Ht.
  { intros s Hs%ascii_printable. unfold require_text. rewrite Hnfc, str_eqb_refl by done. cbn [negb reject_if raise_if mbind result_bind].
    rewrite encode_utf8_text; [done|]. unfold text_ok. rewrite forallb_forall. intros c Hc%list_elem_of_In.
    apply printable_scalar. by eapply Forall_at. }
  induction j as [| | | |s|l IH|d IH] using json_ind_nested; intros Ha; cbn [require_strings ascii_document] in *; auto; try done.
  - apply require_all_Ok. rewrite forallb_forall in Ha. rewrite Forall_forall in *. intros x Hx.
    apply IH; [done|]. by apply Ha, list_elem_of_In.
  - apply andb_true_iff in Ha as [_ Ha]. apply require_all_Ok. rewrite forallb_forall in Ha.
    rewrite Forall_forall in *. intros x Hx. pose proof (Ha x (proj1 (list_elem_of_In _ _) Hx)) as [Hk Hv]%andb_true_iff.
    rewrite Ht by done. cbn [mbind result_bind]. by apply IH.
Qed.

(** An ASCII document is read back from its canonical bytes. *)
Lemma strict_ascii j b :
  ascii_document j = true -> Canonical.canonical_json_bytes j = Ok b -> strict_json b = Ok (json_arranged unicode_style j).
Proof. intros Ha. apply strict_json_canonical; [by apply ascii_plain|by apply ascii_strings]. Qed.

End ascii_documents.

(** ** Equality of decoded values *)

Lemma py_eq_int z : py_eq (JInt z) (JInt z) = true.
Proof. cbn. apply Z.eqb_refl. Qed.

Lemma py_eq_texts l : py_eq (JList (map JStr l)) (JList (map JStr l)) = true.
Proof.
  cbn [py_eq]. induction l as [|s l IH]; [done|]. cbn [map]. rewrite andb_true_iff. split; [apply str_eqb_refl|exact IH].
Qed.

(** A document equals its arrangement. *)
Lemma py_eq_arranged y j : json_plain j = true -> py_eq (json_arranged y j) j = true.
Proof.
  induction j as [|b|z|f|s|l IH|d IH] using json_ind_nested; intros Hp.
  - done.
  - cbn. apply Z.eqb_refl.
  - apply py_eq_int.
  - done.
  - apply str_eqb_refl.
  - cbn [json_arranged py_eq json_plain] in *. induction IH as [|x l Hx _ IHl]; [done|]. cbn [map forallb] in *.
    apply andb_true_iff in Hp as [Hpx Hpl]. rewrite Hx by done. by apply IHl.
  - change (json_arranged y (JDict d)) with (JDict (arranged_items y d)). cbn [py_eq].
    pose proof (plain_dict d Hp) as [Hnd Hall]. pose proof (arranged_keys y d) as Hk.
    apply andb_true_iff. split.
    { apply Nat.eqb_eq. apply Permutation_length in Hk. by rewrite !length_map in Hk. }
    apply forallb_forall. intros [k v] Hin%list_elem_of_In. cbn [fst snd].
    apply assoc_unique in Hin; [|by rewrite Hk]. rewrite arranged_assoc in Hin by done.
    destruct (assoc k d) as [x|] eqn:E; [|done]. injection Hin as <-. rewrite Forall_forall in IH.
    apply (IH (k, x)); [by apply assoc_elem|by eapply Hall].
Qed.
