(* ===== verification/Decoded.v ===== *)
(** * Decoded: what the strict decoder returns

    [strict_json] of any bytes: no value of what it returns is a float, no object has
    a key twice, every text is a normalised sequence of Unicode scalar values, and
    encoding it canonically and decoding again gives it back in the order of its keys. *)

From S2P Require Import Prelude PyStr Num PyObj Json JsonRoundtrip Bytes ByteLaws EvidenceIo Documents.
Open Scope Z_scope.

(** ** Code points *)

(** A code point, surrogates included. *)
Definition char_ok (c : Z) : Prop := 0 <= c <= 1114111.

(** The characters of the text are code points. *)
Definition chars (s : pystr) : Prop := Forall char_ok s.

(** A scanner's value has a property, and what is left are code points. *)
Definition scans {A} (P : A -> Prop) (m : result (A * pystr)) : Prop :=
  forall a r, m = Ok (a, r) -> P a /\ chars r.

Lemma scans_bind {A B} P Q (m : result (A * pystr)) (f : A * pystr -> result (B * pystr)) :
  scans P m -> (forall a r, P a -> chars r -> scans Q (f (a, r))) -> scans Q (m ≫= f).
Proof. intros Hm Hf b r ([a r'] & Ha & Hb)%bind_Ok. destruct (Hm _ _ Ha). by eapply Hf. Qed.

Lemma scans_Ok {A} (P : A -> Prop) a r : P a -> chars r -> scans P (Ok (a, r)).
Proof. by intros Ha Hr ? ? [= <- <-]. Qed.

Lemma scans_Raise {A} (P : A -> Prop) e : scans P (Raise e). Proof. done. Qed.

#[local] Hint Resolve scans_Raise scans_Ok : core.

Lemma chars_cons c s : chars (c :: s) <-> char_ok c /\ chars s.
Proof. apply Forall_cons. Qed.

Lemma skip_space_chars s : chars s -> chars (skip_space s).
Proof.
  unfold skip_space. induction 1 as [|c s Hc Hs IH]; [constructor|]. cbn [drop_while].
  destruct (json_space c); [done|by constructor].
Qed.

Lemma hex_value_range c n : hex_value c = Some n -> 0 <= n < 16.
Proof. unfold hex_value. intros H. repeat case_match; simplify_eq; reflect_bools; lia. Qed.

Lemma read_hex4_chars s c r : chars s -> read_hex4 s = Some (c, r) -> 0 <= c < 65536 /\ chars r.
Proof.
  intros Hs H. unfold read_hex4 in H. destruct s as [|a [|b [|d [|e t]]]]; try done.
  rewrite !chars_cons in Hs. destruct (hex_value a) eqn:Ha; [|done]. destruct (hex_value b) eqn:Hb; [|done].
  destruct (hex_value d) eqn:Hd; [|done]. destruct (hex_value e) eqn:He; [|done].
  apply hex_value_range in Ha, Hb, Hd, He. cbn in H. injection H as <- <-. split; [lia|tauto].
Qed.

Lemma read_escape_chars s : chars s -> scans char_ok (read_escape s).
Proof.
  intros Hs c r. unfold read_escape, char_ok. intros H.
  repeat (case_match; subst; try done).
  all: repeat match goal with
    | H : chars (_ :: _) |- _ => apply chars_cons in H as [? H]
    | H : read_hex4 ?s = Some _ |- _ => apply read_hex4_chars in H as [? ?]; [|done]
    | H : is_high_surrogate _ = true |- _ => unfold is_high_surrogate in H
    | H : is_low_surrogate _ = true |- _ => unfold is_low_surrogate in H
    end; simplify_eq; reflect_bools; (split; [lia|]); try done; rewrite ?chars_cons; tauto.
Qed.

Lemma scan_string_chars fuel s : chars s -> scans chars (scan_string fuel s).
Proof.
  revert s; induction fuel as [|fuel IH]; intros s Hs; [done|]. cbn [scan_string]. destruct s as [|c t]; [done|].
  apply chars_cons in Hs as [Hc Ht].
  assert (forall k t', char_ok k -> chars t' -> scans chars ('(cs, r) ← scan_string fuel t'; Ok (k :: cs, r))) as Hrec.
  { intros k t' Hk Ht'. eapply scans_bind; [by apply IH|]. intros cs r Hcs Hr. apply scans_Ok; [by apply chars_cons|done]. }
  destruct (Z.eq_dec c 34) as [->|]; [apply scans_Ok; [constructor|done]|].
  destruct (Z.eq_dec c 92) as [->|].
  { eapply scans_bind; [by apply read_escape_chars|]. intros k r Hk Hr. by apply Hrec. }
  repeat (case_match; try done); by apply Hrec.
Qed.

Lemma span_ascii_chars s : chars s -> chars (snd (span_ascii s)).
Proof.
  induction 1 as [|c s Hc Hs IH]; [constructor|]. cbn [span_ascii]. destruct (_ && _); [|by constructor].
  by destruct (span_ascii s).
Qed.

Lemma split_sign_chars s : chars s -> chars (snd (split_sign s)).
Proof. intros Hs. unfold split_sign. repeat (case_match; subst; try done); by apply chars_cons in Hs as [_ ?]. Qed.

(** ** Values *)

(** What the strict decoder may build: no float, no key twice, texts of code points. *)
Fixpoint strict_value (j : json) : bool :=
  match j with
  | JFloat _ => false
  | JStr s => forallb (fun c => (0 <=? c) && (c <=? 1114111)) s
  | JList l => forallb strict_value l
  | JDict d =>
    bool_decide (NoDup (map fst d)) &&
    forallb (fun kv => forallb (fun c => (0 <=? c) && (c <=? 1114111)) (fst kv) && strict_value (snd kv)) d
  | _ => true
  end.

Lemma chars_spec s : forallb (fun c => (0 <=? c) && (c <=? 1114111)) s = true <-> chars s.
Proof.
  unfold chars, char_ok. rewrite forallb_forall, Forall_forall. setoid_rewrite list_elem_of_In.
  split; intros Hs c Hc; specialize (Hs c Hc); [reflect_bools; lia|]. by rewrite andb_true_iff, !Z.leb_le.
Qed.

(** The hook for objects refuses a repeated key and keeps the order. *)
Lemma strict_pairs_Ok ps d : on_pairs strict_hooks ps = Ok d -> d = ps /\ NoDup (map fst ps).
Proof.
  cbn [on_pairs strict_hooks].
  assert (forall acc, NoDup (map fst acc) ->
    foldM (fun d kv => reject_if (isSome (assoc (fst kv) d)) "INVALID_DATASET" ;; Ok (d ++ [kv])) acc ps = Ok d ->
    d = acc ++ ps /\ NoDup (map fst (acc ++ ps))) as H; [|apply (H []); constructor].
  induction ps as [|[k v] ps IH]; intros acc Hnd; cbn [foldM fst].
  - intros [= <-]. by rewrite app_nil_r.
  - intros (acc' & ([] & Hk%raise_if_Ok & [= <-])%bind_Ok & Hd)%bind_Ok. apply IH in Hd; [by rewrite <- app_assoc in Hd|].
    rewrite map_app. apply NoDup_app. split_and!; [done| |apply NoDup_singleton].
    intros x Hx ->%list_elem_of_singleton. apply list_elem_of_fmap in Hx as ([k' v'] & E & Hx). cbn in E. subst k'.
    by rewrite (assoc_unique k v') in Hk.
Qed.

Lemma scan_number_strict neg s : chars s -> scans (fun j => strict_value j = true) (scan_number strict_hooks neg s).
Proof.
  intros Hs j r H. unfold scan_number in H. destruct s as [|c t]; [done|].
  pose proof (span_ascii_chars (c :: t) Hs) as Hspan. apply chars_cons in Hs as Hs'. destruct Hs' as [Hc Ht].
  assert (chars (snd (if (49 <=? c) && (c <=? 57) then span_ascii (c :: t) else if c =? 48 then ([48], t) else ([], c :: t)))) as H1
    by (destruct (_ && _); [done|]; by destruct (_ =? _)).
  destruct (if (49 <=? c) && (c <=? 57) then _ else _) as [whole r1]. cbn [snd] in H1. destruct whole as [|w whole]; [done|].
  assert (chars (snd (match r1 with 46 :: t => match span_ascii t with ([], _) => ([], r1) | p => p end | _ => ([], r1) end))) as H2.
  { destruct r1 as [|d r1]; [done|]. pose proof H1 as [_ Hr1]%chars_cons. apply span_ascii_chars in Hr1.
    destruct d as [|p|p]; try exact H1. do 6 (destruct p as [p|p|]; try exact H1).
    destruct (span_ascii r1) as [[|x ds] r2]; done. }
  destruct (match r1 with 46 :: t => _ | _ => _ end) as [frac r2]. cbn [snd] in H2.
  match type of H with (let '(exp, r) := ?m in _) = _ => assert (chars (snd m)) as H3; [|destruct m as [exp r3]] end.
  { destruct r2 as [|e r2]; [done|]. destruct (_ || _); [|done]. pose proof H2 as [_ Hr2]%chars_cons.
    pose proof (split_sign_chars _ Hr2) as Hsg. destruct (split_sign r2) as [sg r2']. cbn [snd] in Hsg.
    apply span_ascii_chars in Hsg. destruct (span_ascii r2') as [[|d ds] r4]; done. }
  cbn [snd] in H3. destruct frac, exp; try discriminate H.
  apply bind_Ok in H as ([] & _ & [= <- <-]). done.
Qed.

Lemma drop_chars n s : chars s -> chars (drop n s).
Proof. apply Forall_drop. Qed.

Lemma scan_constant_strict s m :
  chars s -> scan_constant strict_hooks s = Some m -> scans (fun j => strict_value j = true) m.
Proof.
  intros Hs. unfold scan_constant.
  repeat match goal with |- context [str_startswith ?p s] => destruct (str_startswith p s); [intros [= <-]|] end;
    try done; apply scans_Ok; (done || by apply drop_chars).
Qed.

Lemma strict_dict ps t :
  forallb (fun kv => forallb (fun c => (0 <=? c) && (c <=? 1114111)) (fst kv) && strict_value (snd kv)) ps = true ->
  chars t -> scans (fun j => strict_value j = true) (d ← on_pairs strict_hooks ps; Ok (JDict d, t)).
Proof.
  intros Hps Ht j r (d & [-> Hnd]%strict_pairs_Ok & [= <- <-])%bind_Ok. split; [|done].
  cbn [strict_value]. by rewrite bool_decide_eq_true_2.
Qed.

Definition strict_member (kv : pystr * json) : bool :=
  forallb (fun c => (0 <=? c) && (c <=? 1114111)) (fst kv) && strict_value (snd kv).

Lemma scan_strict fuel :
  (forall s, chars s -> scans (fun j => strict_value j = true) (scan_value strict_hooks fuel s)) /\
  (forall s, chars s -> scans (fun l => forallb strict_value l = true) (scan_items strict_hooks fuel s)) /\
  (forall s, chars s -> scans (fun l => forallb strict_member l = true) (scan_pairs strict_hooks fuel s)).
Proof.
  induction fuel as [|fuel (IHv & IHi & IHp)]; [done|]. split_and!; intros s Hs.
  - cbn [scan_value]. destruct s as [|c t]; [done|]. pose proof Hs as [Hc Ht]%chars_cons.
    pose proof (skip_space_chars t Ht) as Hsk. destruct (c =? 34).
    { eapply scans_bind; [by apply scan_string_chars|]. intros v r Hv Hr. apply scans_Ok; [by apply chars_spec|done]. }
    destruct (c =? 91).
    { destruct (skip_space t) as [|d r]; [done|]. pose proof Hsk as [_ Hsk']%chars_cons. destruct (d =? 93); [by apply scans_Ok|].
      eapply scans_bind; [by apply IHi|]. intros l r' Hl Hr. by apply scans_Ok. }
    destruct (c =? 123).
    { destruct (skip_space t) as [|d r]; [done|].
      pose proof Hsk as [_ Hsk']%chars_cons. destruct (d =? 125); [by apply (strict_dict [])|].
      eapply scans_bind; [by apply IHp|]. intros. by apply strict_dict. }
    destruct (scan_constant strict_hooks (c :: t)) eqn:Ec; [by apply (scan_constant_strict (c :: t))|].
    destruct (c =? 45); by apply scan_number_strict.
  - cbn [scan_items]. eapply scans_bind; [by apply IHv|]. intros v r Hv Hr%skip_space_chars.
    destruct (skip_space r) as [|c t]; [done|]. apply chars_cons in Hr as [_ Ht].
    destruct (c =? 93); [by apply scans_Ok; [cbn [forallb]; rewrite Hv|]|]. destruct (c =? 44); [|done].
    eapply scans_bind; [by apply IHi, skip_space_chars|]. intros l r' Hl Hr'. apply scans_Ok; [|done]. cbn [forallb]. by rewrite Hv.
  - cbn [scan_pairs]. destruct s as [|c t]; [done|]. apply chars_cons in Hs as [_ Ht]. destruct (c =? 34); [|done].
    eapply scans_bind; [by apply scan_string_chars|]. intros k r Hk%chars_spec Hr%skip_space_chars.
    destruct (skip_space r) as [|d t']; [done|]. apply chars_cons in Hr as [_ Ht'%skip_space_chars]. destruct (d =? 58); [|done].
    eapply scans_bind; [by apply IHv|]. intros v r' Hv Hr'%skip_space_chars.
    assert (strict_member (k, v) = true) as Hkv by (unfold strict_member; cbn [fst snd]; by rewrite Hk, Hv).
    destruct (skip_space r') as [|d' t'']; [done|]. apply chars_cons in Hr' as [_ Ht''].
    destruct (d' =? 125); [by apply scans_Ok; [cbn [forallb]; rewrite Hkv|]|]. destruct (d' =? 44); [|done].
    eapply scans_bind; [by apply IHp, skip_space_chars|]. intros l r0 Hl Hr0. apply scans_Ok; [|done]. cbn [forallb]. by rewrite Hkv.
Qed.

Lemma loads_strict s j : chars s -> json_loads_with strict_hooks s = Ok j -> strict_value j = true.
Proof.
  intros Hs Hl. unfold json_loads_with in Hl.
  assert (forall m : result json, match s with 65279 :: _ => json_error | _ => m end = Ok j -> m = Ok j) as Hm.
  { intros m. destruct s as [|c t]; [done|]. destruct c as [|p|p]; try done. do 16 (destruct p as [p|p|]; try done). }
  apply Hm in Hl as Hj. pose proof (proj1 (scan_strict (S (2 * length s))) (skip_space s) (skip_space_chars s Hs)) as Hv'.
  apply bind_Ok in Hj as ([v r] & Hv & Hj). apply Hv' in Hv as [Hv _]. destruct (skip_space r); [|done].
  by injection Hj as <-.
Qed.

(** ** What bytes decode to *)

Lemma utf8_head_bytes b c t : byte_list b -> utf8_head b = Some (c, t) -> char_ok c /\ byte_list t.
Proof.
  unfold byte_list, char_ok. intros Hb H. unfold utf8_head in H. repeat (case_match; try done); simplify_eq;
    rewrite ?Forall_cons in Hb; reflect_bools; split; (lia || tauto).
Qed.

Lemma decode_utf8_chars b s : byte_list b -> decode_utf8 b = Ok s -> chars s.
Proof.
  unfold decode_utf8. generalize (length b) as fuel. intros fuel. revert b s.
  induction fuel as [|fuel IH]; intros [|x b] s Hb Hs; try (injection Hs as <-; constructor); [done|].
  cbn [decode_utf8_fuel] in Hs. destruct (utf8_head (x :: b)) as [[c t]|] eqn:E; [|done].
  apply utf8_head_bytes in E as [Hc Ht]; [|done]. apply bind_Ok in Hs as (s' & Hs' & [= <-]).
  constructor; [done|]. by eapply IH.
Qed.

Section strict_json.
Context `{UnicodeNormal}.

Lemma require_text_ok s : chars s -> require_text s = Ok tt -> text_ok s = true.
Proof.
  unfold require_text, encode_utf8. intros Hs ([] & _ & (b & Hb & _)%bind_Ok)%bind_Ok.
  destruct (existsb _ s) eqn:E; [done|]. unfold text_ok. rewrite forallb_forall. intros c Hc.
  rewrite <- not_true_iff_false, existsb_exists in E. unfold scalar_value.
  pose proof (Forall_at _ _ _ Hs (proj2 (list_elem_of_In _ _) Hc)) as [? ?].
  rewrite !(proj2 (Z.leb_le _ _)) by lia. cbn [andb]. apply negb_true_iff, not_true_is_false.
  intros Hs'. apply E. by exists c.
Qed.

Lemma strict_value_plain j : strict_value j = true -> require_strings j = Ok tt -> json_plain j = true.
Proof.
  induction j as [| | | |s|l IH|d IH] using json_ind_nested; intros Hv Hs; try done;
    cbn [strict_value require_strings json_plain] in *.
  - by apply require_text_ok; [apply chars_spec|].
  - rewrite require_all_Ok in Hs. rewrite forallb_forall in *. rewrite Forall_forall in *.
    intros x Hx. apply IH; [by apply list_elem_of_In|by apply Hv|by apply Hs, list_elem_of_In].
  - apply andb_true_iff in Hv as [-> Hv]. cbn [andb]. rewrite require_all_Ok in Hs. rewrite forallb_forall in *.
    rewrite Forall_forall in *. intros x Hx. specialize (Hv x Hx). apply andb_true_iff in Hv as [Hk Hv].
    apply list_elem_of_In in Hx. pose proof (Hs x Hx) as ([] & Hkt & Hvs)%bind_Ok.
    rewrite (require_text_ok (fst x)); [|by apply chars_spec|done]. by apply IH.
Qed.

Lemma strict_json_plain b j :
  byte_list b -> strict_json b = Ok j -> json_plain j = true /\ require_strings j = Ok tt.
Proof.
  intros Hb Hj. unfold strict_json in Hj. apply try_except_Ok in Hj as [Hj|(e & _ & He)]; [|done].
  apply bind_Ok in Hj as (text & Ht & (j' & Hl & ([] & Hs & [= <-])%bind_Ok)%bind_Ok).
  split; [|done]. apply strict_value_plain; [|done]. eapply loads_strict; [|done]. by eapply decode_utf8_chars.
Qed.

(** C40: whatever bytes the strict decoder accepts, what it returns is a document without a
    float and without a repeated key, whose texts are normalised sequences of Unicode
    scalar values; and its canonical encoding, when the encoder can write its integers,
    decodes to the same document with its keys in order. *)
Theorem strict_json_sound b j :
  byte_list b -> strict_json b = Ok j ->
  json_plain j = true /\ require_strings j = Ok tt /\ py_eq (json_arranged unicode_style j) j = true /\
  forall again, Canonical.canonical_json_bytes j = Ok again ->
    strict_json again = Ok (json_arranged unicode_style j).
Proof.
  intros Hb Hj. destruct (strict_json_plain b j Hb Hj) as [Hp Hs]. split_and!; try done.
  - by apply py_eq_arranged.
  - intros again Ha. by apply strict_json_canonical.
Qed.
End strict_json.

(** An object with spaces, an escape and its keys out of order. *)
Definition demo_bytes : bytes :=
  u "{ " ++ [34] ++ u "b" ++ [34] ++ u ": [1, null], " ++ [34] ++ u "\u0061" ++ [34] ++ u ":" ++ [34; 195; 169; 34] ++ u "}".

Lemma strict_json_sound_witness :
  let H : UnicodeNormal := fun s => s in
  strict_json demo_bytes = Ok (JDict [(u "b", JList [JInt 1; JNull]); (u "a", JStr [233])]) /\
  json_plain (JDict [(u "b", JList [JInt 1; JNull]); (u "a", JStr [233])]) = true.
Proof.
  intros H.
  assert (strict_json demo_bytes = Ok (JDict [(u "b", JList [JInt 1; JNull]); (u "a", JStr [233])])) as Hj
    by (vm_compute; reflexivity).
  split; [exact Hj|]. apply (strict_json_sound demo_bytes _); [|exact Hj].
  unfold demo_bytes, byte_list. repeat (constructor; [split; [discriminate|reflexivity]|]). constructor.
Defined.
