(* ===== verification/MezoDex.v ===== *)
(** * [liqvera_public_capture.public_adapters.mezo_dex]: fixed-block DEX evidence

    Decoding and verification of the raw [eth_call] observations of the Mezo pool,
    and the capture of such observations through an injected transport.  Proved
    here: a capture that verifies carries, whatever else its bytes say, the quote
    the checked pool arithmetic gives for its reserves and fee, and for a purchase
    the least input that buys the quantity; and a capture that is taken verifies. *)

From S2P Require Import Prelude PyStr Num PyObj Bytes Calculation.
Open Scope Z_scope.

(** ** Constants *)

Definition RPC_URL : pystr := u "https://rpc.test.mezo.org".
Definition POOL : pystr := u "0xd16A5Df82120ED8D626a1a15232bFcE2366d6AA9".
Definition ROUTER : pystr := u "0x9a1ff7FE3a0F69959A3fBa1F1e5ee18e1A9CD7E9".
Definition FACTORY : pystr := u "0x4947243CC818b627A5D06d14C4eCe7398A23Ce1A".
Definition MUSD : pystr := u "0x118917a40FAF1CD7a13dB0Ef56C86De7973Ac503".
Definition BTC : pystr := u "0x7b7C000000000000000000000000000000000000".

(** Whether [needle] occurs in [s]. *)
Fixpoint str_occurs (needle s : pystr) : bool :=
  str_startswith needle s || match s with [] => false | _ :: s => str_occurs needle s end.

(** ["k" in x] *)
Definition text_in (k : pystr) (x : json) : result bool :=
  match x with
  | JDict d => Ok (isSome (assoc k d))
  | JList l => Ok (bool_decide (JStr k ∈ l))
  | JStr s => Ok (str_occurs k s)
  | _ => raise TypeError "argument is not iterable"
  end.

(** [x.get("k")] *)
Definition get_method (k : pystr) (x : json) : result json :=
  match x with JDict d => Ok (json_get k d) | _ => raise AttributeError "get" end.

(** [for y in x] *)
Definition iterate (x : json) : result (list json) :=
  match x with
  | JList l => Ok l
  | JDict d => Ok (map (fun kv => JStr (fst kv)) d)
  | JStr s => Ok (map (fun c => JStr [c]) s)
  | _ => raise TypeError "object is not iterable"
  end.

(** [str.lower]; beyond ASCII it depends on the interpreter's Unicode tables. *)
Class UnicodeLower := lower_beyond_ascii : pystr -> pystr.

Definition str_lower `{UnicodeLower} (s : pystr) : pystr :=
  if forallb (fun c => c <? 128) s then ascii_lower s else lower_beyond_ascii s.

Definition lower_method `{UnicodeLower} (x : json) : result pystr :=
  match x with JStr s => Ok (str_lower s) | _ => raise AttributeError "lower" end.

(** ** Words and calldata *)

(** [_require] *)
Definition require (ok : bool) : result unit :=
  raise_if (negb ok) ValueError "MEZO_DEX_INVALID_EVIDENCE".

(** [re.fullmatch(r"0x...", s)], where the rest of [s] is not empty and its
    characters are as the pattern wants; a value that is no text raises. *)
Definition hex_text (first rest : Z -> bool) (s : pystr) : bool :=
  match s with
  | 48 :: 120 :: c :: t => first c && forallb rest t
  | _ => false
  end.

Definition any_hex (c : Z) : bool := isSome (hex_digit c).
Definition lower_hex_nonzero (c : Z) : bool := lower_hex c && negb (c =? 48).

(** [r"0x[0-9a-fA-F]+"], [r"0x[1-9a-f][0-9a-f]*"] and [r"0x[0-9a-fA-F]{64}"] *)
Definition is_hex (s : pystr) : bool := hex_text any_hex any_hex s.
Definition is_block (s : pystr) : bool := hex_text lower_hex_nonzero lower_hex s.
Definition is_hash (s : pystr) : bool := is_hex s && (length s =? 66)%nat.

Definition matched (pattern : pystr -> bool) (x : json) : result bool :=
  match x with JStr s => Ok (pattern s) | _ => raise TypeError "expected string" end.

(** [int(s, 16)] of a text of hexadecimal digits. *)
Definition hex_value (s : pystr) : Z :=
  of_digits 16 (map (fun c => default 0 (hex_digit c)) s).

(** Consecutive words of sixty-four digits. *)
Fixpoint hex_words (n : nat) (s : pystr) : list Z :=
  match n with
  | O => []
  | S n => hex_value (take 64 s) :: hex_words n (drop 64 s)
  end.

(** [_words] *)
Definition words_of (raw : json) (size : nat) : result (list Z) :=
  match raw with
  | JStr s =>
    require (is_hex s) ;;
    require (length s =? 2 + 64 * size)%nat ;;
    Ok (hex_words size (drop 2 s))
  | _ => raise ValueError "MEZO_DEX_INVALID_EVIDENCE"
  end.

(** [f"{n:064x}"] for [n >= 0], and [_address_word] of an ASCII address. *)
Definition hex64 (n : Z) : pystr := pad_zeros 64 (str_of_nonneg 16 n).
Definition address_word (address : pystr) : pystr := pad_zeros 64 (ascii_lower (drop 2 address)).

Definition router_calldata (amount : Z) (token_in token_out : pystr) : result pystr :=
  require ((0 <=? amount) && (amount <? WORD)) ;;
  require (bool_decide ((token_in, token_out) = (BTC, MUSD)) ||
           bool_decide ((token_in, token_out) = (MUSD, BTC))) ;;
  Ok (u "0x5509a1ac" ++ hex64 amount ++ hex64 64 ++ hex64 1 ++
      address_word token_in ++ address_word token_out ++ hex64 0 ++ address_word FACTORY).

(** ** Decoding of a probe *)

Record decoded_probe := mkDecoded {
  block_number : pystr; block_hash : json; block_timestamp : Z;
  reserve_musd : Z; reserve_btc : Z; fee_bps : Z; btc_decimals : Z;
  pool_amount_out : Z; router_amount_out : Z; amount_in : Z }.

(** [except (KeyError, TypeError, ValueError, AttributeError, OverflowError)] *)
Definition or_invalid {A} (m : result A) : result A :=
  try_except m [KeyError; TypeError; ValueError; AttributeError; OverflowError]
    (fun _ => raise ValueError "MEZO_DEX_INVALID_EVIDENCE").

Abbreviation call_table := (list ((pystr * pystr) * json)).

Section mezo_dex.
Context `{UnicodeLower}.

(** One turn of the loop that indexes the calls. *)
Definition index_call (block : pystr) (calls : call_table) (call : json) : result call_table :=
  b ← subscript (u "block") call;
  require (bool_decide (b = JStr block)) ;;
  to ← subscript (u "to") call ≫= lower_method;
  data ← subscript (u "data") call ≫= lower_method;
  require (negb (isSome (assoc (to, data) calls))) ;;
  Ok (calls ++ [((to, data), call)]).

(** The inner function [words]. *)
Definition call_words (calls : call_table) (address data : pystr) (size : nat) : result (list Z) :=
  call ← match assoc (str_lower address, str_lower data) calls with
         | Some call => Ok call
         | None => raise KeyError "call"
         end;
  response ← subscript (u "response") call;
  failed ← text_in (u "error") response;
  fine ← match failed with
         | true => Ok false
         | false => v ← get_method (u "jsonrpc") response; Ok (bool_decide (v = JStr (u "2.0")))
         end;
  require fine ;;
  raw ← subscript (u "result") response;
  words_of raw size.

(** A call whose result is one word. *)
Definition call_word (calls : call_table) (address data : pystr) : result Z :=
  ws ← call_words calls address data 1;
  match ws with w :: _ => Ok w | [] => raise IndexError "list index out of range" end.

(** The header checks, the [block_after] check included: the block and its time. *)
Definition decode_header (probe : list (pystr * json)) : result (pystr * json * Z) :=
  url ← json_item (u "rpc_url") probe;
  require (bool_decide (url = JStr RPC_URL)) ;;
  chain ← json_item (u "chain") probe ≫= subscript (u "result");
  require (bool_decide (chain = JStr (u "0x7b7b"))) ;;
  header ← json_item (u "block") probe ≫= subscript (u "result");
  number ← subscript (u "number") header;
  match number with
  | JStr block =>
    require (is_block block) ;;
    hash ← subscript (u "hash") header;
    fine ← matched is_hash hash;
    require fine ;;
    stamp ← subscript (u "timestamp") header;
    timestamp ← match stamp with
                | JStr s => py_int 16 s
                | _ => raise TypeError "int() can't convert non-string with explicit base"
                end;
    _ ← match assoc (u "block_after") probe with
        | None => Ok tt
        | Some x =>
          after ← subscript (u "result") x;
          number' ← subscript (u "number") after;
          hash' ← subscript (u "hash") after;
          stamp' ← subscript (u "timestamp") after;
          require (bool_decide (number' = number) && bool_decide (hash' = hash) &&
                   bool_decide (stamp' = stamp))
        end;
    Ok (block, hash, timestamp)
  | _ => raise ValueError "MEZO_DEX_INVALID_EVIDENCE"
  end.

Definition decode_probe_body (probe : json) (amount : Z) (token_in : pystr) : result decoded_probe :=
  match probe with
  | JDict probe =>
    '(block, hash, timestamp) ← decode_header probe;
    items ← json_item (u "calls") probe;
    match items with
    | JList items =>
      require ((8 <=? length items)%nat && (length items <=? 64)%nat) ;;
      calls ← foldM (index_call block) [] items;
      musd_word ← py_int 16 MUSD;
      btc_word ← py_int 16 BTC;
      token0 ← call_words calls POOL (u "0x0dfe1681") 1;
      require (bool_decide (token0 = [musd_word])) ;;
      token1 ← call_words calls POOL (u "0xd21220a7") 1;
      require (bool_decide (token1 = [btc_word])) ;;
      stable ← call_words calls POOL (u "0x22be3de1") 1;
      require (bool_decide (stable = [0])) ;;
      reserves ← call_words calls POOL (u "0x0902f1ac") 3;
      match reserves with
      | [musd; btc; last] =>
        require ((0 <? musd) && (0 <? btc) && (0 <=? last) && (last <=? timestamp)) ;;
        decimals ← call_word calls BTC (u "0x313ce567");
        require (decimals =? 18) ;;
        fee ← call_word calls FACTORY (u "0xcc56b2c5" ++ address_word POOL ++ repeat 48 64);
        require ((0 <=? fee) && (fee <? 10000)) ;;
        require ((0 <? amount) && (amount <? WORD) &&
                 (bool_decide (token_in = BTC) || bool_decide (token_in = MUSD))) ;;
        let token_out := if bool_decide (token_in = BTC) then MUSD else BTC in
        pool_out ← call_word calls POOL (u "0xf140a35a" ++ hex64 amount ++ address_word token_in);
        data ← router_calldata amount token_in token_out;
        router ← call_words calls ROUTER data 4;
        match router with
        | [r0; r1; r2; router_out] =>
          require (bool_decide ([r0; r1; r2] = [32; 2; amount])) ;;
          require (amount * fee <? WORD) ;;
          let net := amount - amount * fee / 10000 in
          let '(reserve_in, reserve_out) := if bool_decide (token_in = BTC) then (btc, musd) else (musd, btc) in
          require ((net * reserve_out <? WORD) && (reserve_in + net <? WORD)) ;;
          let expected := net * reserve_out / (reserve_in + net) in
          require ((pool_out =? router_out) && (router_out =? expected)) ;;
          number ← py_int 16 block;
          number ← py_str_int number;
          Ok (mkDecoded number hash timestamp musd btc fee decimals pool_out router_out amount)
        | _ => raise IndexError "list index out of range"
        end
      | _ => raise ValueError "not enough values to unpack"
      end
    | _ => raise ValueError "MEZO_DEX_INVALID_EVIDENCE"
    end
  | _ => raise ValueError "MEZO_DEX_INVALID_EVIDENCE"
  end.

Definition decode_probe (probe : json) (amount : Z) (token_in : pystr) : result decoded_probe :=
  or_invalid (decode_probe_body probe amount token_in).

(** [_buy_input] *)
Definition buy_input (quantity reserve_musd reserve_btc fee : Z) : result Z :=
  require ((0 <? quantity) && (quantity <? reserve_btc) && (0 <? reserve_musd) &&
           (0 <=? fee) && (fee <? 10000)) ;;
  let denominator := reserve_btc - quantity in
  let net := (quantity * reserve_musd + denominator - 1) / denominator in
  Ok ((net - 1) * 10000 / (10000 - fee) + 1).

(** ** Verification of a capture *)

(** The result of [verify_capture]: the decoded probe, the side and the quantity. *)
Record verified_capture := mkVerified {
  vc_probe : decoded_probe; vc_side : pystr; vc_quantity_wei : Z }.

(** [r"[1-9][0-9]{0,77}"] *)
Definition is_quantity (s : pystr) : bool :=
  match s with
  | c :: t => (49 <=? c) && (c <=? 57) && forallb (fun c => (48 <=? c) && (c <=? 57)) t &&
              (length t <=? 77)%nat
  | [] => false
  end.

(** [\[c for c in calls if c["to"].lower() == ROUTER.lower()\]] *)
Definition keep_router_call (kept : list json) (call : json) : result (list json) :=
  to ← subscript (u "to") call ≫= lower_method;
  Ok (if str_eqb to (str_lower ROUTER) then kept ++ [call] else kept).

(** The amount the router call encodes: [int(data\[10:74\], 16)]. *)
Definition planned_amount (probe : json) : result Z :=
  items ← subscript (u "calls") probe ≫= iterate;
  router_calls ← foldM keep_router_call [] items;
  match router_calls with
  | [call] =>
    data ← subscript (u "data") call;
    match data with
    | JStr s => require (74 <=? length s)%nat ;; py_int 16 (take 64 (drop 10 s))
    | _ => raise ValueError "MEZO_DEX_INVALID_EVIDENCE"
    end
  | _ => raise ValueError "MEZO_DEX_INVALID_EVIDENCE"
  end.

Definition CAPTURE_KEYS : list pystr := [u "schema"; u "source"; u "side"; u "quantity_wei"; u "probe"].

Definition verify_body (capture : json) : result verified_capture :=
  match capture with
  | JDict d =>
    require (keys_equal d CAPTURE_KEYS) ;;
    schema ← json_item (u "schema") d;
    require (bool_decide (schema = JStr (u "liqvera-mezo-dex-capture/v1"))) ;;
    source ← json_item (u "source") d;
    require (bool_decide (source = JStr (u "mezo-dex:MUSD-BTC:testnet"))) ;;
    side ← json_item (u "side") d;
    text ← json_item (u "quantity_wei") d;
    match side, text with
    | JStr side, JStr text =>
      require ((str_eqb side (u "BUY") || str_eqb side (u "SELL")) && is_quantity text) ;;
      quantity ← py_int 10 text;
      require (quantity <? WORD) ;;
      probe ← json_item (u "probe") d;
      amount ← planned_amount probe;
      let selling := str_eqb side (u "SELL") in
      result ← decode_probe probe amount (if selling then BTC else MUSD);
      _ ← match selling with
          | true => require (amount =? quantity)
          | false =>
            least ← buy_input quantity (reserve_musd result) (reserve_btc result) (fee_bps result);
            require (amount =? least) ;;
            require (quantity <=? router_amount_out result)
          end;
      Ok (mkVerified result side quantity)
    | _, _ => raise ValueError "MEZO_DEX_INVALID_EVIDENCE"
    end
  | _ => raise ValueError "MEZO_DEX_INVALID_EVIDENCE"
  end.

Definition verify_capture (capture : json) : result verified_capture := or_invalid (verify_body capture).

(** ** Capture through a transport

    [rpc] answers a request given all the requests before it, so two answers to one
    request may differ. *)

Abbreviation request := (pystr * list json)%type.

Context (rpc : list request -> request -> result json).

(** What [capture_dex] has done so far: its requests, and the calls it kept. *)
Record progress := mkProgress { asked : list request; kept_calls : list json }.

Definition ask (p : progress) (method : pystr) (params : list json) : result (progress * json) :=
  response ← rpc (asked p) (method, params);
  Ok (mkProgress (asked p ++ [(method, params)]) (kept_calls p), response).

(** The inner function [call]. *)
Definition eth_call (block : json) (p : progress) (to data : pystr) : result (progress * json) :=
  '(p, response) ← ask p (u "eth_call")
    [JDict [(u "to", JStr to); (u "data", JStr data)]; block];
  match response with
  | JDict d =>
    require (negb (isSome (assoc (u "error") d)) && isSome (assoc (u "result") d)) ;;
    value ← json_item (u "result") d;
    Ok (mkProgress (asked p) (kept_calls p ++ [JDict
          [(u "to", JStr to); (u "data", JStr data); (u "block", block); (u "response", response)]]), value)
  | _ => raise ValueError "MEZO_DEX_INVALID_EVIDENCE"
  end.

(** The calls of [capture_dex], up to the last one. *)
Definition capture_calls (side : pystr) (quantity_wei : Z) (block : json) (p : progress) : result progress :=
  '(p, _) ← eth_call block p POOL (u "0x0dfe1681");
  '(p, _) ← eth_call block p POOL (u "0xd21220a7");
  '(p, _) ← eth_call block p POOL (u "0x22be3de1");
  '(p, raw) ← eth_call block p POOL (u "0x0902f1ac");
  reserves ← words_of raw 3;
  '(p, _) ← eth_call block p BTC (u "0x313ce567");
  '(p, raw) ← eth_call block p FACTORY (u "0xcc56b2c5" ++ address_word POOL ++ repeat 48 64);
  fees ← words_of raw 1;
  match reserves, fees with
  | r0 :: r1 :: _, fee :: _ =>
    let selling := str_eqb side (u "SELL") in
    amount ← (if selling then Ok quantity_wei else buy_input quantity_wei r0 r1 fee);
    let '(token_in, token_out) := if selling then (BTC, MUSD) else (MUSD, BTC) in
    '(p, _) ← eth_call block p POOL (u "0xf140a35a" ++ hex64 amount ++ address_word token_in);
    data ← router_calldata amount token_in token_out;
    '(p, _) ← eth_call block p ROUTER data;
    Ok p
  | _, _ => raise IndexError "list index out of range"
  end.

Definition capture_body (side : pystr) (quantity_wei : Z) : result json :=
  '(p, answer) ← ask (mkProgress [] []) (u "eth_blockNumber") [];
  block ← subscript (u "result") answer;
  match block with
  | JStr b =>
    require (is_block b) ;;
    '(p, chain) ← ask p (u "eth_chainId") [];
    id ← get_method (u "result") chain;
    require (bool_decide (id = JStr (u "0x7b7b"))) ;;
    '(p, header) ← ask p (u "eth_getBlockByNumber") [block; JBool false];
    fields ← subscript (u "result") header;
    number ← subscript (u "number") fields;
    require (bool_decide (number = block)) ;;
    p ← capture_calls side quantity_wei block p;
    '(p, after) ← ask p (u "eth_getBlockByNumber") [block; JBool false];
    hash' ← subscript (u "result") after ≫= subscript (u "hash");
    hash ← subscript (u "hash") fields;
    require (bool_decide (hash' = hash)) ;;
    quantity ← py_str_int quantity_wei;
    let capture := JDict
      [(u "schema", JStr (u "liqvera-mezo-dex-capture/v1"));
       (u "source", JStr (u "mezo-dex:MUSD-BTC:testnet"));
       (u "side", JStr side); (u "quantity_wei", JStr quantity);
       (u "probe", JDict [(u "rpc_url", JStr RPC_URL); (u "chain", chain); (u "block", header);
                          (u "block_after", after); (u "calls", JList (kept_calls p))])] in
    _ ← verify_capture capture;
    Ok capture
  | _ => raise ValueError "MEZO_DEX_INVALID_EVIDENCE"
  end.

Definition capture_dex (side : pystr) (quantity_wei : Z) : result json :=
  raise_if (negb (str_eqb side (u "BUY") || str_eqb side (u "SELL")) ||
            negb ((0 <? quantity_wei) && (quantity_wei <? WORD))) ValueError "MEZO_DEX_INVALID_INPUT" ;;
  try_except (capture_body side quantity_wei) [OSError; KeyError; TypeError; ValueError]
    (fun _ => raise ValueError "MEZO_SOURCE_UNAVAILABLE").
End mezo_dex.

(** ** Words *)

Lemma hex_digit_range c d : hex_digit c = Some d -> 0 <= d < 16.
Proof. unfold hex_digit. intros H. repeat case_match; simplify_eq; reflect_bools; lia. Qed.

Lemma hex_value_bound s : 0 <= hex_value s < 16 ^ Z.of_nat (length s).
Proof.
  unfold hex_value. rewrite <- (length_map (fun c => default 0 (hex_digit c)) s).
  apply of_digits_bound; [lia|]. apply Forall_map, Forall_forall. intros c _.
  destruct (hex_digit c) as [d|] eqn:E; cbn; [by apply hex_digit_range in E|lia].
Qed.

Lemma hex_words_range n s : Forall (fun w => 0 <= w < WORD) (hex_words n s).
Proof.
  revert s; induction n as [|n IH]; intros s; cbn [hex_words]; constructor; [|apply IH].
  pose proof (hex_value_bound (take 64 s)) as Hb. split; [lia|].
  enough (16 ^ Z.of_nat (length (take 64 s)) <= WORD) by lia.
  unfold WORD. change (2 ^ 256) with (16 ^ 64). apply Z.pow_le_mono_r; [lia|].
  rewrite length_take. lia.
Qed.

Lemma words_of_range raw n ws : words_of raw n = Ok ws -> Forall (fun w => 0 <= w < WORD) ws.
Proof.
  destruct raw; try done. cbn [words_of]. intros (_ & _ & (_ & _ & [= <-])%bind_Ok)%bind_Ok.
  apply hex_words_range.
Qed.

Lemma require_Ok b : require b = Ok tt <-> b = true.
Proof. unfold require. rewrite raise_if_Ok. apply negb_false_iff. Qed.

Lemma or_invalid_Ok {A} (m : result A) a : or_invalid m = Ok a <-> m = Ok a.
Proof.
  unfold or_invalid. destruct m as [x|e]; cbn; [done|]. by case_match.
Qed.

Section mezo_dex_laws.
Context `{UnicodeLower}.

Lemma call_words_range calls a d n ws : call_words calls a d n = Ok ws -> Forall (fun w => 0 <= w < WORD) ws.
Proof.
  unfold call_words. intros (? & _ & (? & _ & (? & _ & (? & _ & ([] & _ & (? & _ & Hw)%bind_Ok)%bind_Ok)%bind_Ok)%bind_Ok)%bind_Ok)%bind_Ok.
  by apply words_of_range in Hw.
Qed.

Lemma call_word_range calls a d w : call_word calls a d = Ok w -> 0 <= w < WORD.
Proof.
  unfold call_word. intros (ws & Hws & Hw)%bind_Ok. apply call_words_range in Hws.
  destruct ws; [done|]. injection Hw as <-. by apply Forall_inv in Hws.
Qed.

(** The reserves in the direction of the trade. *)
Definition directed (token_in : pystr) (r : decoded_probe) : Z * Z :=
  if bool_decide (token_in = BTC) then (reserve_btc r, reserve_musd r) else (reserve_musd r, reserve_btc r).

(** What a decoded probe says of the pool. *)
Record probe_sound (amount : Z) (token_in : pystr) (r : decoded_probe) : Prop := {
  ps_amount : amount_in r = amount;
  ps_decimals : btc_decimals r = 18;
  ps_pool : pool_amount_out r = router_amount_out r;
  ps_quote : amm_amount_out amount (fst (directed token_in r)) (snd (directed token_in r)) (fee_bps r) =
    Ok (router_amount_out r) }.

Lemma quote_computed amount x y fee out :
  0 <= amount < WORD -> 0 < x < WORD -> 0 < y < WORD -> 0 <= fee < 10000 -> amount * fee < WORD ->
  (amount - amount * fee / 10000) * y < WORD -> x + (amount - amount * fee / 10000) < WORD ->
  out = (amount - amount * fee / 10000) * y / (x + (amount - amount * fee / 10000)) ->
  amm_amount_out amount x y fee = Ok out.
Proof.
  intros. apply amm_amount_out_Ok. split; [by apply amm_inputs_Ok|]. by split.
Qed.

Lemma decode_probe_Ok probe amount token_in r :
  decode_probe probe amount token_in = Ok r -> probe_sound amount token_in r.
Proof.
  unfold decode_probe. rewrite or_invalid_Ok. destruct probe as [| | | | | |d]; try done. cbn [decode_probe_body].
  intros ([[block hash] stamp] & _ & H1)%bind_Ok. apply bind_Ok in H1 as (items & _ & H1).
  destruct items as [| | | | |items|]; try done.
  apply bind_Ok in H1 as (_ & _ & (calls & _ & (mw & _ & (bw & _ & H1)%bind_Ok)%bind_Ok)%bind_Ok).
  apply bind_Ok in H1 as (t0 & _ & (_ & _ & (t1 & _ & (_ & _ & (st & _ & (_ & _ & H1)%bind_Ok)%bind_Ok)%bind_Ok)%bind_Ok)%bind_Ok).
  apply bind_Ok in H1 as (reserves & Hr & H1). apply call_words_range in Hr.
  destruct reserves as [|musd [|btc [|last [|]]]]; try done.
  apply Forall_cons in Hr as [Hmusd Hr]. apply Forall_cons in Hr as [Hbtc _].
  apply bind_Ok in H1 as ([] & Hpos%require_Ok & (decimals & _ & ([] & Hdec%require_Ok & H1)%bind_Ok)%bind_Ok).
  apply bind_Ok in H1 as (fee & _ & ([] & Hfee%require_Ok & ([] & Ham%require_Ok & H1)%bind_Ok)%bind_Ok).
  apply bind_Ok in H1 as (pool_out & _ & (data & _ & (router & _ & H1)%bind_Ok)%bind_Ok).
  destruct router as [|r0 [|r1 [|r2 [|out [|]]]]]; try done.
  apply bind_Ok in H1 as ([] & _ & ([] & Hover%require_Ok & H1)%bind_Ok).
  destruct (if bool_decide (token_in = BTC) then (btc, musd) else (musd, btc)) as [x y] eqn:Hxy.
  apply bind_Ok in H1 as ([] & Hfit%require_Ok & ([] & Hout%require_Ok & H1)%bind_Ok).
  apply bind_Ok in H1 as (n & _ & (m & _ & [= <-])%bind_Ok). reflect_bools.
  split; cbn [amount_in btc_decimals pool_amount_out router_amount_out fee_bps]; [done|lia..|].
  unfold directed. cbn [reserve_btc reserve_musd]. rewrite Hxy. cbn [fst snd].
  apply quote_computed; [lia| | |lia..]; destruct (bool_decide _); simplify_eq; lia.
Qed.

(** The planned input of a purchase is the input of the exact-output quote. *)
Lemma buy_input_Ok quantity x y fee a r :
  buy_input quantity x y fee = Ok a -> amm_amount_out a x y fee = Ok r ->
  amm_amount_in quantity x y fee = Ok a.
Proof.
  unfold buy_input. intros ([] & Hreq%require_Ok & [= Ha])%bind_Ok Hr. reflect_bools.
  pose proof (proj1 (amm_amount_out_Ok _ _ _ _ _) Hr) as (Hi & _). apply amm_inputs_Ok in Hi.
  apply amm_amount_in_Ok. split; [apply amm_inputs_Ok; lia|]. split; [lia|]. right.
  split; [lia|]. split; [by rewrite <- Ha|]. by exists r.
Qed.

(** What a verified capture says. *)
Record capture_sound (v : verified_capture) : Prop := {
  cs_side : vc_side v = u "BUY" \/ vc_side v = u "SELL";
  cs_probe : probe_sound (amount_in (vc_probe v))
    (if str_eqb (vc_side v) (u "SELL") then BTC else MUSD) (vc_probe v);
  cs_sell : vc_side v = u "SELL" -> amount_in (vc_probe v) = vc_quantity_wei v;
  cs_buy : vc_side v = u "BUY" ->
    amm_amount_in (vc_quantity_wei v) (reserve_musd (vc_probe v)) (reserve_btc (vc_probe v))
      (fee_bps (vc_probe v)) = Ok (amount_in (vc_probe v)) }.

Lemma verify_capture_Ok capture v : verify_capture capture = Ok v -> capture_sound v.
Proof.
  unfold verify_capture. rewrite or_invalid_Ok. destruct capture as [| | | | | |d]; try done.
  unfold verify_body. intros (_ & _ & (? & _ & (_ & _ & (? & _ & (_ & _ & H1)%bind_Ok)%bind_Ok)%bind_Ok)%bind_Ok)%bind_Ok.
  apply bind_Ok in H1 as (side & _ & (text & _ & H1)%bind_Ok).
  destruct side as [| | | |side| |], text as [| | | |text| |]; try done.
  apply bind_Ok in H1 as ([] & Hside%require_Ok & (q & Hq & (_ & _ & H1)%bind_Ok)%bind_Ok).
  apply bind_Ok in H1 as (probe & _ & (amount & _ & (r & Hr & H1)%bind_Ok)%bind_Ok).
  apply bind_Ok in H1 as ([] & Hcase & [= <-]). apply decode_probe_Ok in Hr.
  apply andb_true_iff in Hside as [Hside _].
  pose proof (ps_amount _ _ _ Hr) as Ha. subst amount. split; cbn [vc_side vc_probe vc_quantity_wei].
  - apply orb_true_iff in Hside as [Hs|Hs]; apply str_eqb_spec in Hs; auto.
  - done.
  - intros ->. rewrite str_eqb_refl in Hcase. apply require_Ok in Hcase. by reflect_bools.
  - intros ->. cbn [str_eqb] in *.
    change (str_eqb (u "BUY") (u "SELL")) with false in *. cbn iota in *.
    apply bind_Ok in Hcase as (least & Hl & ([] & He%require_Ok & _)%bind_Ok). reflect_bools. subst least.
    pose proof (ps_quote _ _ _ Hr) as Hquote. unfold directed in Hquote.
    rewrite bool_decide_false in Hquote by done. cbn [fst snd] in Hquote. by eapply buy_input_Ok.
Qed.
(** The side and the quantity of a verified capture are those of its fields. *)
Lemma verify_capture_fields d v :
  verify_capture (JDict d) = Ok v ->
  exists text, json_item (u "side") d = Ok (JStr (vc_side v)) /\
    json_item (u "quantity_wei") d = Ok (JStr text) /\ py_int 10 text = Ok (vc_quantity_wei v).
Proof.
  unfold verify_capture. rewrite or_invalid_Ok. unfold verify_body.
  intros (_ & _ & (? & _ & (_ & _ & (? & _ & (_ & _ & H1)%bind_Ok)%bind_Ok)%bind_Ok)%bind_Ok)%bind_Ok.
  apply bind_Ok in H1 as (side & Hs & (text & Ht & H1)%bind_Ok).
  destruct side as [| | | |side| |], text as [| | | |text| |]; try done.
  apply bind_Ok in H1 as (_ & _ & (q & Hq & (_ & _ & H1)%bind_Ok)%bind_Ok).
  apply bind_Ok in H1 as (? & _ & (? & _ & (? & _ & H1)%bind_Ok)%bind_Ok).
  apply bind_Ok in H1 as ([] & _ & [= <-]). by exists text.
Qed.

(** What [capture_body] returns has verified. *)
Lemma capture_body_Ok rpc side q c :
  capture_body rpc side q = Ok c ->
  exists text probe v, py_str_int q = Ok text /\
    c = JDict [(u "schema", JStr (u "liqvera-mezo-dex-capture/v1"));
               (u "source", JStr (u "mezo-dex:MUSD-BTC:testnet"));
               (u "side", JStr side); (u "quantity_wei", JStr text); (u "probe", probe)] /\
    verify_capture c = Ok v.
Proof.
  unfold capture_body. intros ([p answer] & _ & (block & _ & H1)%bind_Ok)%bind_Ok.
  destruct block as [| | | |b| |]; try done.
  apply bind_Ok in H1 as (_ & _ & ([p1 chain] & _ & (? & _ & (_ & _ & H1)%bind_Ok)%bind_Ok)%bind_Ok).
  apply bind_Ok in H1 as ([p2 header] & _ & (fields & _ & (? & _ & (_ & _ & H1)%bind_Ok)%bind_Ok)%bind_Ok).
  apply bind_Ok in H1 as (p3 & _ & ([p4 after] & _ & (? & _ & (? & _ & (_ & _ & H1)%bind_Ok)%bind_Ok)%bind_Ok)%bind_Ok).
  apply bind_Ok in H1 as (text & Ht & (v & Hv & [= <-])%bind_Ok). by eexists text, _, v.
Qed.
End mezo_dex_laws.

(** A node that answers by the requested calldata: a pool of 700,000 MUSD and 10 BTC
    with a fee of thirty basis points. *)
Definition demo_word (n : Z) : pystr := u "0x" ++ hex64 n.
Definition demo_amount : Z := 3 * 10 ^ 17.
Definition demo_musd : Z := 7 * 10 ^ 23.
Definition demo_btc : Z := 10 ^ 19.

Definition demo_input (buying : bool) : Z :=
  if buying then match buy_input demo_amount demo_musd demo_btc 30 with Ok a => a | _ => 0 end else demo_amount.

Definition demo_quote (buying : bool) : Z :=
  match amm_amount_out (demo_input buying) (if buying then demo_musd else demo_btc)
          (if buying then demo_btc else demo_musd) 30 with Ok r => r | _ => 0 end.

Definition demo_result (buying : bool) (data : pystr) : pystr :=
  let starts t := str_startswith (u t) data in
  if starts "0x0dfe1681"%string then u "0x" ++ address_word MUSD
  else if starts "0xd21220a7"%string then u "0x" ++ address_word BTC
  else if starts "0x22be3de1"%string then demo_word 0
  else if starts "0x0902f1ac"%string then demo_word demo_musd ++ hex64 demo_btc ++ hex64 1700000000
  else if starts "0x313ce567"%string then demo_word 18
  else if starts "0xcc56b2c5"%string then demo_word 30
  else if starts "0xf140a35a"%string then demo_word (demo_quote buying)
  else demo_word 32 ++ hex64 2 ++ hex64 (demo_input buying) ++ hex64 (demo_quote buying).

Definition answered (x : json) : result json :=
  Ok (JDict [(u "jsonrpc", JStr (u "2.0")); (u "id", JInt 1); (u "result", x)]).

Definition demo_rpc (buying : bool) (_ : list (pystr * list json)) (r : pystr * list json) : result json :=
  if str_eqb (fst r) (u "eth_blockNumber") then answered (JStr (u "0x1f"))
  else if str_eqb (fst r) (u "eth_chainId") then answered (JStr (u "0x7b7b"))
  else if str_eqb (fst r) (u "eth_getBlockByNumber") then
    answered (JDict [(u "number", JStr (u "0x1f")); (u "hash", JStr (demo_word 12345));
                     (u "timestamp", JStr (u "0x6553f200"))])
  else match snd r with
       | [JDict [_; (_, JStr data)]; _] => answered (JStr (demo_result buying data))
       | _ => raise OSError "unexpected request"
       end.

#[global] Instance ascii_lower_tables : UnicodeLower | 100 := fun s => s.

Definition demo_capture (buying : bool) : json :=
  match capture_dex (demo_rpc buying) (if buying then u "BUY" else u "SELL") demo_amount with
  | Ok c => c
  | Raise _ => JNull
  end.

(** ** Properties *)

(** C35: whatever a capture holds, when it verifies, its quote is the one the checked
    pool arithmetic computes from its reserves, its fee and the planned input; a sale
    plans its quantity, a purchase the least input that buys it. *)
Theorem verify_capture_sound `{UnicodeLower} capture v :
  verify_capture capture = Ok v -> capture_sound v.
Proof. apply verify_capture_Ok. Qed.

Lemma verify_capture_sound_witness :
  exists v, verify_capture (demo_capture true) = Ok v /\ capture_sound v.
Proof.
  destruct (is_Ok_exists (verify_capture (demo_capture true))) as [v Hv]; [vm_compute; reflexivity|].
  exists v. split; [exact Hv|]. exact (verify_capture_sound _ v Hv).
Defined.

(** C36: a capture that is taken, from any transport, verifies for the side and the
    quantity it was asked for. *)
Theorem capture_dex_verifies `{UnicodeLower} rpc side quantity c :
  capture_dex rpc side quantity = Ok c ->
  exists v, verify_capture c = Ok v /\ vc_side v = side /\ vc_quantity_wei v = quantity.
Proof.
  unfold capture_dex. intros ([] & Hguard%raise_if_Ok & H1)%bind_Ok.
  apply try_except_Ok in H1 as [H1|(? & _ & H1)]; [|done].
  apply capture_body_Ok in H1 as (text & probe & v & Ht & -> & Hv). exists v. split; [done|].
  apply verify_capture_fields in Hv as (text' & Hs & Hq & Hv).
  change (Ok (JStr side) = Ok (JStr (vc_side v))) in Hs. change (Ok (JStr text) = Ok (JStr text')) in Hq.
  simplify_eq.
  split; [done|]. apply orb_false_iff in Hguard as [_ Hrange]. reflect_bools.
  unfold py_str_int in Ht. apply bind_Ok in Ht as (_ & _ & [= <-]).
  unfold str_of_Z in Hv. rewrite (proj2 (Z.ltb_ge quantity 0)) in Hv by lia.
  rewrite (py_int_str_of_nonneg quantity 77) in Hv; [by simplify_eq| |].
  - split; [lia|]. apply Z.lt_le_trans with WORD; [done|]. by apply Z.leb_le.
  - apply Nat.leb_le. vm_compute. reflexivity.
Qed.

Lemma capture_dex_verifies_witness :
  exists v, verify_capture (demo_capture false) = Ok v /\ vc_side v = u "SELL" /\
    vc_quantity_wei v = demo_amount.
Proof.
  destruct (is_Ok_exists (capture_dex (demo_rpc false) (u "SELL") demo_amount)) as [c Hc];
    [vm_compute; reflexivity|].
  assert (demo_capture false = c) as -> by (unfold demo_capture; rewrite Hc; reflexivity).
  exact (capture_dex_verifies (demo_rpc false) (u "SELL") demo_amount c Hc).
Defined.
