(* ===== verification/DexReport.v ===== *)
(** * [liqvera_evidence_report.mezo_dex]: the DEX section of a report

    The quote of the requested quantity, the depth ladder and the comparison of two
    venues, from the decoded calls of a verified capture.  Proved here: the check of
    the displayed formula against the router can never fail, so that a report is
    built exactly when the capture verifies for the request and its quotes exist;
    and no quote beats the mid price. *)

From S2P Require Import Prelude PyStr Num PyObj Bytes Exact Calculation EvidenceIo MezoDex.
From Stdlib Require Import QArith Qcanon.
Open Scope Z_scope.

(** ** Quotes *)

(** The figures of one quote, before they are rendered. *)
Record quote_figures := mkFigures { qf_in : Z; qf_out : Z; qf_average : Qc; qf_impact : Qc }.

(** The computation of the inner function [quote]. *)
Definition figures (selling : bool) (musd btc fee : Z) (mid : Qc) (q : Z) : result quote_figures :=
  if selling then
    out ← amm_amount_out q btc musd fee;
    raise_if (out =? 0) ValueError "INSUFFICIENT_LIQUIDITY" ;;
    average ← mk_fraction out q;
    impact ← frac_div ((mid - average) * bps)%Qc mid;
    Ok (mkFigures q out average impact)
  else
    amount ← amm_amount_in q musd btc fee;
    out ← amm_amount_out amount musd btc fee;
    average ← mk_fraction amount out;
    impact ← frac_div ((average - mid) * bps)%Qc mid;
    Ok (mkFigures amount out average impact).

(** [_display(Fraction(q, 10**18))] *)
Definition display_quantity (q : Z) : result pystr := r ← mk_fraction q UNIT; display r.

(** The dictionary [quote] returns. *)
Record shown_quote := mkShown {
  sq_quantity : pystr; sq_in : pystr; sq_out : pystr; sq_average : pystr; sq_impact : pystr }.

Definition quote_of (selling : bool) (musd btc fee : Z) (mid : Qc) (q : Z) : result shown_quote :=
  f ← figures selling musd btc fee mid q;
  quantity ← display_quantity q;
  amount ← py_str_int (qf_in f);
  out ← py_str_int (qf_out f);
  average ← display (qf_average f);
  impact ← display (qf_impact f);
  Ok (mkShown quantity amount out average impact).

Definition quote_items (s : shown_quote) : list (pystr * json) :=
  [(u "quantity_btc", JStr (sq_quantity s)); (u "amount_in", JStr (sq_in s));
   (u "amount_out", JStr (sq_out s)); (u "avg_price_musd", JStr (sq_average s));
   (u "price_impact_bps", JStr (sq_impact s))].

(** One rung of the ladder: a quantity the pool cannot fill has a status instead. *)
Definition ladder_rung (selling : bool) (musd btc fee : Z) (mid : Qc) (q : Z) : result json :=
  match quote_of selling musd btc fee mid q with
  | Ok s => Ok (JDict (quote_items s))
  | Raise e =>
    if exc_subclass (exn_class e) ValueError && String.eqb (exn_msg e) "INSUFFICIENT_LIQUIDITY" then
      quantity ← display_quantity q;
      Ok (JDict [(u "quantity_btc", JStr quantity); (u "status", JStr (u "INSUFFICIENT_LIQUIDITY"))])
    else Raise e
  end.

Definition LADDER : list Z := [10 ^ 16; 10 ^ 17; 10 ^ 18; 5 * 10 ^ 18; 10 * 10 ^ 18].

(** ** The report *)

Definition EXPLORER : pystr := u "https://explorer.test.mezo.org".

Definition dex_caveats : list json := map (fun s => JStr (u s))
  ["Mezo Testnet liquidity; excludes gas and execution guarantees.";
   "BUY is a minimum-input exact-input quote reaching at least the requested BTC.";
   "Depth ladder is calculated from reserves; only the requested size is RPC cross-checked.";
   "RPC observations are not independently authenticated chain inclusion proofs."]%string.

Definition dex_document (v : verified_capture) (side : pystr) (s : shown_quote)
    (mid router_out : pystr) (ladder : list json) : json :=
  let p := vc_probe v in
  JDict ([(u "side", JStr side)] ++ quote_items s ++
    [(u "mid_price_musd", JStr mid); (u "fee_bps", JInt (fee_bps p));
     (u "router_amount_out", JStr router_out); (u "formula_amount_out", JStr (sq_out s));
     (u "match", JBool true); (u "depth_ladder", JList ladder);
     (u "block_number", JStr (block_number p)); (u "block_hash", block_hash p);
     (u "explorer_links", JDict
        [(u "pool", JStr (EXPLORER ++ u "/address/" ++ POOL));
         (u "router", JStr (EXPLORER ++ u "/address/" ++ ROUTER));
         (u "block", JStr (EXPLORER ++ u "/block/" ++ block_number p))]);
     (u "caveats", JList dex_caveats)]).

Section dex_report.
Context `{UnicodeLower}.

(** [build_dex_report]; the quantity is the number [Fraction] reads from its text. *)
Definition build_dex_report (capture : json) (side : pystr) (quantity_btc : Qc) : result json :=
  v ← verify_capture capture;
  let p := vc_probe v in
  let quantity := (quantity_btc * frac_of_Z UNIT)%Qc in
  raise_if (negb (denominator quantity =? 1) || negb (numerator quantity =? vc_quantity_wei v) ||
            negb (str_eqb side (vc_side v))) ValueError "MEZO_DEX_REQUEST_MISMATCH" ;;
  let musd := reserve_musd p in
  let btc := reserve_btc p in
  let fee := fee_bps p in
  mid ← mk_fraction musd btc;
  let selling := str_eqb side (u "SELL") in
  s ← quote_of selling musd btc fee mid (numerator quantity);
  planned ← py_str_int (amount_in p);
  router_out ← py_str_int (router_amount_out p);
  raise_if (negb (str_eqb (sq_in s) planned) || negb (str_eqb (sq_out s) router_out)) ValueError
    "MEZO_DEX_FORMULA_MISMATCH" ;;
  ladder ← mapR (ladder_rung selling musd btc fee mid) LADDER;
  mid_shown ← display mid;
  Ok (dex_document v side s mid_shown router_out ladder).
End dex_report.

(** [venue_comparison] *)
Definition venue_comparison (dex : list (pystr * json)) (hl_vwap : Qc) (side : pystr) : result json :=
  let int_of j := match j with JStr s => py_int 10 s | _ => raise TypeError "int" end in
  amount ← json_item (u "amount_in") dex ≫= int_of;
  out ← json_item (u "amount_out") dex ≫= int_of;
  let selling := str_eqb side (u "SELL") in
  average ← (if selling then mk_fraction out amount else mk_fraction amount out);
  let better :=
    if frac_eqb average hl_vwap then u "equal"
    else if (if selling then frac_ltb hl_vwap average else frac_ltb average hl_vwap) then u "mezo"
    else u "hyperliquid" in
  hl_shown ← display hl_vwap;
  mezo_shown ← display average;
  spread ← frac_div ((average - hl_vwap) * bps)%Qc hl_vwap;
  spread_shown ← display spread;
  Ok (JDict
    [(u "hyperliquid_avg_price", JStr hl_shown); (u "mezo_avg_price", JStr mezo_shown);
     (u "spread_bps", JStr spread_shown); (u "better_venue", JStr better);
     (u "caveats", JList (map (fun s => JStr (u s))
        ["Hyperliquid BTC perpetual USD quote versus Mezo BTC spot MUSD quote; not equivalent assets.";
         "Testnet liquidity; excludes gas, Hyperliquid fees and funding.";
         "Separate source timestamps; comparison is hypothetical, not an execution recommendation."]%string))]).

(** [dex_members] *)
Definition dex_members `{ReportResources} (capture : json) : result (list (pystr * bytes)) :=
  capture_bytes ← Canonical.canonical_json_bytes capture;
  calls ← subscript (u "probe") capture ≫= subscript (u "calls");
  calls_bytes ← Canonical.canonical_json_bytes calls;
  Ok ([(u "mezo-dex/capture.json", capture_bytes); (u "mezo-dex/calls.json", calls_bytes)] ++
      map (fun name => (u "mezo-dex/" ++ u name, packaged_abi (u name)))
        ["Pool.testnet.json"; "Router.testnet.json"; "PoolFactory.testnet.json"]%string).

(** ** The request of a verified capture *)

(** The capture is for this side and this quantity. *)
Definition requested (v : verified_capture) (side : pystr) (quantity_btc : Qc) : Prop :=
  side = vc_side v /\ (quantity_btc * frac_of_Z UNIT)%Qc = frac_of_Z (vc_quantity_wei v).

Lemma frac_of_Z_parts q n : q = frac_of_Z n <-> denominator q = 1 /\ numerator q = n.
Proof.
  split.
  - intros ->. unfold denominator, numerator, frac_of_Z, Q2Qc. cbn [this].
    assert (Qred (n # 1) = n # 1) as ->; [|done].
    unfold Qred. pose proof (Z.ggcd_gcd n 1) as Hg. pose proof (Z.ggcd_correct_divisors n 1) as Hd.
    destruct (Z.ggcd n 1) as [g [a b]]. cbn [fst snd] in *. rewrite Z.gcd_1_r in Hg. subst g.
    destruct Hd as [Ha Hb]. rewrite Z.mul_1_l in Ha, Hb. by subst.
  - intros [Hd <-]. rewrite (frac_parts q) at 1. unfold denominator in Hd. injection Hd as ->. done.
Qed.

Lemma request_check v side quantity :
  raise_if (negb (denominator (quantity * frac_of_Z UNIT) =? 1) ||
            negb (numerator (quantity * frac_of_Z UNIT) =? vc_quantity_wei v) ||
            negb (str_eqb side (vc_side v))) ValueError "MEZO_DEX_REQUEST_MISMATCH" = Ok tt <->
  requested v side quantity.
Proof.
  rewrite raise_if_Ok, !orb_false_iff, !negb_false_iff, !Z.eqb_eq, str_eqb_spec. unfold requested.
  rewrite frac_of_Z_parts. tauto.
Qed.

(** ** The figures repeat the router's quote *)

Lemma py_str_int_word n : 0 <= n < WORD -> py_str_int n = Ok (str_of_Z n).
Proof.
  intros Hn. unfold py_str_int. rewrite (proj2 (Nat.ltb_ge _ _)); [done|].
  rewrite Z.abs_eq by lia. etransitivity; [apply (digits_length 10 ltac:(lia) n 77)|].
  - split; [lia|]. apply Z.lt_le_trans with WORD; [lia|]. by apply Z.leb_le.
  - apply Nat.leb_le. vm_compute. reflexivity.
Qed.

Lemma quote_word a x y f r : amm_amount_out a x y f = Ok r -> 0 <= a < WORD /\ 0 <= r < WORD.
Proof.
  intros (Hi & _ & ->)%amm_amount_out_Ok. apply amm_inputs_Ok in Hi as (Ha & Hx & Hy & Hf).
  pose proof (quote_bounds x y f ltac:(lia) ltac:(lia) Hf a ltac:(lia)). lia.
Qed.

(** The figures of the requested quantity are the planned input and the router's
    output, when the output of a sale is not zero. *)
Lemma figures_planned v mid f :
  capture_sound v ->
  figures (str_eqb (vc_side v) (u "SELL")) (reserve_musd (vc_probe v)) (reserve_btc (vc_probe v))
    (fee_bps (vc_probe v)) mid (vc_quantity_wei v) = Ok f ->
  qf_in f = amount_in (vc_probe v) /\ qf_out f = router_amount_out (vc_probe v).
Proof.
  intros [Hside Hprobe Hsell Hbuy] Hf. pose proof (ps_quote _ _ _ Hprobe) as Hq. unfold directed in Hq.
  unfold figures in Hf. destruct Hside as [E|E]; rewrite E in *.
  - change (str_eqb (u "BUY") (u "SELL")) with false in *. cbn iota in *.
    rewrite bool_decide_false in Hq by done. cbn [fst snd] in Hq.
    rewrite (Hbuy eq_refl) in Hf. cbn [mbind result_bind] in Hf. rewrite Hq in Hf.
    cbn [mbind result_bind] in Hf. by apply bind_Ok in Hf as (? & _ & (? & _ & [= <-])%bind_Ok).
  - rewrite str_eqb_refl in *. cbn iota in *. rewrite bool_decide_true in Hq by done. cbn [fst snd] in Hq.
    rewrite <- (Hsell eq_refl), Hq in Hf. cbn [mbind result_bind] in Hf.
    apply bind_Ok in Hf as (? & _ & (? & _ & (? & _ & [= <-])%bind_Ok)%bind_Ok). by rewrite (Hsell eq_refl).
Qed.

Lemma quote_of_planned v mid s :
  capture_sound v ->
  quote_of (str_eqb (vc_side v) (u "SELL")) (reserve_musd (vc_probe v)) (reserve_btc (vc_probe v))
    (fee_bps (vc_probe v)) mid (vc_quantity_wei v) = Ok s ->
  py_str_int (amount_in (vc_probe v)) = Ok (sq_in s) /\
  py_str_int (router_amount_out (vc_probe v)) = Ok (sq_out s).
Proof.
  intros Hs (f & Hf & (? & _ & (i & Hi & (o & Ho & (? & _ & (? & _ & [= <-])%bind_Ok)%bind_Ok)%bind_Ok)%bind_Ok)%bind_Ok)%bind_Ok.
  destruct (figures_planned _ _ _ Hs Hf) as [Ha Hr]. cbn [sq_in sq_out]. by rewrite <- Ha, <- Hr.
Qed.

(** ** No quote beats the mid price *)

Lemma impact_nonneg m a : (0 < m -> a <= m -> 0 <= (m - a) * bps / m)%Qc.
Proof.
  intros Hm Ha. assert (m <> 0%Qc) as Hne by (intros E; rewrite E in Hm; by apply Qclt_not_eq in Hm).
  assert ((m - a) * bps / m * m = (m - a) * bps)%Qc as Hd by (rewrite Qcmult_comm; by apply Qcmult_div_r).
  assert (0 < bps)%Qc as Hb by done. revert Hd. generalize ((m - a) * bps / m)%Qc. revert Hb.
  generalize bps. intros b Hb w Hd.
  destruct (Qclt_le_dec w 0) as [Hw|Hw]; [|done]. exfalso.
  assert (w * m < 0)%Qc by qc_nra. assert (0 <= (m - a) * b)%Qc by qc_nra. rewrite Hd in *. qc_lra.
Qed.

(** A sale averages at most the mid price, a purchase at least. *)
Lemma sale_average a x y f r : 0 < a -> amm_amount_out a x y f = Ok r -> r * x <= y * a.
Proof.
  intros Ha (Hi & _ & ->)%amm_amount_out_Ok. apply amm_inputs_Ok in Hi as (_ & Hx & Hy & Hf).
  pose proof (quote_product x y f ltac:(lia) ltac:(lia) Hf a ltac:(lia)).
  pose proof (quote_bounds x y f ltac:(lia) ltac:(lia) Hf a ltac:(lia)). nia.
Qed.

Lemma purchase_reaches q x y f a r :
  0 < q -> amm_amount_in q x y f = Ok a -> amm_amount_out a x y f = Ok r -> q <= r /\ 0 < a.
Proof.
  intros Hq (Hi & Hqy & Hcase)%amm_amount_in_Ok Hr. apply amm_inputs_Ok in Hi as (_ & Hx & Hy & Hf).
  destruct Hcase as [[-> _]|(_ & -> & _)]; [lia|].
  pose proof (least_input_pos x y f ltac:(lia) Hf q ltac:(lia)).
  apply amm_amount_out_Ok in Hr as (_ & _ & ->). split; [|done]. apply quote_reaches; lia.
Qed.

Lemma mk_fraction_le n d m e p q :
  0 < d -> 0 < e -> mk_fraction n d = Ok p -> mk_fraction m e = Ok q -> n * e <= m * d -> (p <= q)%Qc.
Proof.
  intros Hd He. rewrite !mk_fraction_pos by done. intros [= <-] [= <-] H.
  apply frac_le. rewrite !Z2Pos.id by done. done.
Qed.

Lemma mk_fraction_positive n d p : 0 < n -> 0 < d -> mk_fraction n d = Ok p -> (0 < p)%Qc.
Proof.
  intros Hn Hd. rewrite mk_fraction_pos by done. intros [= <-].
  replace 0%Qc with (frac 0 1) by reflexivity. apply frac_lt. rewrite Z2Pos.id by done. lia.
Qed.

Lemma frac_div_value a b c : frac_div a b = Ok c -> c = (a / b)%Qc.
Proof. unfold frac_div. by intros (_ & _ & [= <-])%bind_Ok. Qed.

Lemma purchase_average a x y f r : 0 < a -> amm_amount_out a x y f = Ok r -> x * r <= a * y.
Proof. intros Ha Hr. pose proof (sale_average a x y f r Ha Hr). lia. Qed.

(** What a quote's figures say. *)
Record figures_sound (selling : bool) (mid : Qc) (q : Z) (f : quote_figures) : Prop := {
  fs_average : if selling then (qf_average f <= mid)%Qc else (mid <= qf_average f)%Qc;
  fs_impact : (0 <= qf_impact f)%Qc;
  fs_amounts : if selling then qf_in f = q else q <= qf_out f }.

Lemma sale_figures musd btc fee mid q f :
  mk_fraction musd btc = Ok mid -> figures true musd btc fee mid q = Ok f -> figures_sound true mid q f.
Proof.
  unfold figures. intros Hmid (out & Hout & (_ & _ & (average & Hav & (impact & Him & [= <-])%bind_Ok)%bind_Ok)%bind_Ok)%bind_Ok.
  pose proof (proj1 (amm_amount_out_Ok _ _ _ _ _) Hout) as (Hi & _).
  apply amm_inputs_Ok in Hi as (Hq & Hx & Hy & Hf).
  assert (0 < q) as Hpos by (destruct q; [done|lia|lia]).
  pose proof (sale_average q btc musd fee out Hpos Hout) as Hsale.
  assert (average <= mid)%Qc as Hle by (eapply mk_fraction_le; [..|exact Hav|exact Hmid|]; lia).
  apply frac_div_value in Him. subst impact. split; cbn [qf_average qf_impact qf_in]; [done| |done].
  apply impact_nonneg; [|done]. by apply (mk_fraction_positive musd btc); [lia..|].
Qed.

Lemma purchase_impact m a : (0 < m -> m <= a -> 0 <= (a - m) * bps / m)%Qc.
Proof.
  intros Hm Ha. assert (m <> 0%Qc) as Hne by (intros E; rewrite E in Hm; by apply Qclt_not_eq in Hm).
  assert ((a - m) * bps / m * m = (a - m) * bps)%Qc as Hd by (rewrite Qcmult_comm; by apply Qcmult_div_r).
  assert (0 < bps)%Qc as Hb by done. revert Hd. generalize ((a - m) * bps / m)%Qc. revert Hb.
  generalize bps. intros b Hb w Hd.
  destruct (Qclt_le_dec w 0) as [Hw|Hw]; [|done]. exfalso.
  assert (w * m < 0)%Qc by qc_nra. assert (0 <= (a - m) * b)%Qc by qc_nra. rewrite Hd in *. qc_lra.
Qed.

Lemma purchase_figures musd btc fee mid q f :
  mk_fraction musd btc = Ok mid -> 0 < q -> figures false musd btc fee mid q = Ok f ->
  figures_sound false mid q f.
Proof.
  unfold figures. intros Hmid Hq (a & Ha & (out & Hout & (average & Hav & (impact & Him & [= <-])%bind_Ok)%bind_Ok)%bind_Ok)%bind_Ok.
  pose proof (proj1 (amm_amount_out_Ok _ _ _ _ _) Hout) as (Hi & _).
  apply amm_inputs_Ok in Hi as (_ & Hx & Hy & Hf).
  destruct (purchase_reaches _ _ _ _ _ _ Hq Ha Hout) as [Hr Hapos].
  pose proof (purchase_average a musd btc fee out Hapos Hout) as Hbuy.
  assert (mid <= average)%Qc as Hle by (eapply mk_fraction_le; [..|exact Hmid|exact Hav|]; lia).
  apply frac_div_value in Him. subst impact. split; cbn [qf_average qf_impact qf_out]; [done| |done].
  apply purchase_impact; [|done]. by apply (mk_fraction_positive musd btc); [lia..|].
Qed.

(** ** Properties *)

(** No quote beats the mid price of the pool, whatever the fee: a sale averages at
    most the mid price, a purchase at least, and the price impact is not negative; a
    purchase receives at least the quantity. *)
Theorem dex_quote_bounds selling musd btc fee mid q f :
  mk_fraction musd btc = Ok mid -> 0 < q -> figures selling musd btc fee mid q = Ok f ->
  figures_sound selling mid q f.
Proof. intros Hmid Hq. destruct selling; [by apply sale_figures|by apply purchase_figures]. Qed.

Lemma dex_quote_bounds_witness :
  exists mid f, figures false demo_musd demo_btc 30 mid demo_amount = Ok f /\
    figures_sound false mid demo_amount f.
Proof.
  destruct (is_Ok_exists (mk_fraction demo_musd demo_btc)) as [mid Hmid]; [reflexivity|].
  destruct (is_Ok_exists (figures false demo_musd demo_btc 30 mid demo_amount)) as [f Hf].
  { apply (f_equal (fun m => match m with Ok m => m | _ => 0%Qc end)) in Hmid. cbn beta iota in Hmid.
    subst mid. vm_compute. reflexivity. }
  exists mid, f. split; [exact Hf|].
  exact (dex_quote_bounds false demo_musd demo_btc 30 mid demo_amount f Hmid ltac:(reflexivity) Hf).
Defined.

(** A report is built exactly when the capture verifies for the requested side and
    quantity and its quote, its ladder and its mid price can be rendered: the check of
    the formula against the router never rejects, and the displayed output is the
    router's. *)
Theorem build_dex_report_spec `{UnicodeLower} capture side quantity doc :
  build_dex_report capture side quantity = Ok doc <->
  exists v s mid shown ladder,
    verify_capture capture = Ok v /\ requested v side quantity /\
    mk_fraction (reserve_musd (vc_probe v)) (reserve_btc (vc_probe v)) = Ok mid /\
    quote_of (str_eqb side (u "SELL")) (reserve_musd (vc_probe v)) (reserve_btc (vc_probe v))
      (fee_bps (vc_probe v)) mid (vc_quantity_wei v) = Ok s /\
    mapR (ladder_rung (str_eqb side (u "SELL")) (reserve_musd (vc_probe v)) (reserve_btc (vc_probe v))
      (fee_bps (vc_probe v)) mid) LADDER = Ok ladder /\
    display mid = Ok shown /\ doc = dex_document v side s shown (sq_out s) ladder.
Proof.
  unfold build_dex_report. split.
  - intros (v & Hv & ([] & Hreq%request_check & (mid & Hmid & (s & Hs & H1)%bind_Ok)%bind_Ok)%bind_Ok)%bind_Ok.
    apply bind_Ok in H1 as (planned & _ & (out & Hout & ([] & _ & H1)%bind_Ok)%bind_Ok).
    apply bind_Ok in H1 as (ladder & Hl & (shown & Hsh & [= <-])%bind_Ok).
    assert (numerator (quantity * frac_of_Z UNIT) = vc_quantity_wei v) as Hn.
    { destruct Hreq as [_ Hq]. apply frac_of_Z_parts in Hq as [_ Hq]. done. }
    rewrite Hn in Hs. pose proof Hreq as [-> _].
    destruct (quote_of_planned v mid s (verify_capture_Ok _ _ Hv) Hs) as [_ Hr].
    assert (out = sq_out s) as -> by congruence. by exists v, s, mid, shown, ladder.
  - intros (v & s & mid & shown & ladder & Hv & Hreq & Hmid & Hs & Hl & Hsh & ->).
    rewrite Hv. cbn [mbind result_bind]. rewrite (proj2 (request_check v side quantity) Hreq).
    cbn [mbind result_bind]. rewrite Hmid. cbn [mbind result_bind].
    assert (numerator (quantity * frac_of_Z UNIT) = vc_quantity_wei v) as ->.
    { destruct Hreq as [_ Hq]. apply frac_of_Z_parts in Hq as [_ Hq]. done. }
    rewrite Hs. cbn [mbind result_bind]. pose proof Hreq as [-> _].
    destruct (quote_of_planned v mid s (verify_capture_Ok _ _ Hv) Hs) as [-> ->].
    cbn [mbind result_bind]. rewrite !str_eqb_refl. cbn [negb orb raise_if mbind result_bind].
    rewrite Hl. cbn [mbind result_bind]. by rewrite Hsh.
Qed.

(** The report of the demonstration capture is built. *)
Example build_dex_report_ex :
  is_Ok (build_dex_report (demo_capture true) (u "BUY") (frac 3 10)) = true.
Proof. vm_compute. reflexivity. Qed.
