(* ===== verification/MezoTroves.v ===== *)
(** * [liqvera_public_capture.public_adapters.mezo_troves]: fixed-block trove evidence

    Verification of the raw calls of one block: the risk figures of every trove and
    the walk along the sorted list of troves, which counts the redeemable troves and
    debts ahead of a borrower.  Reads are recorded, because the verification ends by
    checking that every call was read.  Proved here: the walk terminates within the
    number of owners, it visits every owner exactly once, and the position and the
    debts ahead are those of the list it has walked. *)

From S2P Require Import Prelude PyStr Num PyObj Bytes Calculation MezoDex.
Open Scope Z_scope.

(** ** Constants *)

Definition TROVE_MANAGER : pystr := u "0xE47c80e8c23f6B4A1aE41c34837a0599D5D16bb0".
Definition SORTED_TROVES : pystr := u "0x722E4D24FD6Ff8b0AC679450F3D91294607268fA".
Definition PRICE_FEED : pystr := u "0x86bCF0841622a5dAC14A313a15f96A95421b9366".
Definition ZERO_ADDRESS : pystr := u "0x" ++ repeat 48 40.
Definition QUEUE_LIMIT : Z := 500.

(** The selectors of each contract, with the number of their arguments. *)
Definition MANAGER_SELECTORS : list (pystr * nat) :=
  [(u "0x794e5724", 0%nat); (u "0x5733d58f", 0%nat); (u "0xa20baee6", 0%nat); (u "0x7af110ba", 0%nat);
   (u "0x49eefeee", 0%nat); (u "0xd9a72444", 1%nat); (u "0xb91af97c", 1%nat); (u "0x21e37801", 1%nat);
   (u "0xd293c710", 2%nat); (u "0xb82f263d", 1%nat); (u "0x795d26c3", 0%nat); (u "0x887105d3", 0%nat)].

Definition SORTED_SELECTORS : list (pystr * nat) :=
  [(u "0xde8fa431", 0%nat); (u "0x4d622831", 0%nat); (u "0x1e223143", 0%nat);
   (u "0xb72703ac", 1%nat); (u "0x765e0159", 1%nat); (u "0x5dbe47e8", 1%nat)].

Definition allowed_calls : list (pystr * list (pystr * nat)) :=
  [(ascii_lower TROVE_MANAGER, MANAGER_SELECTORS); (ascii_lower SORTED_TROVES, SORTED_SELECTORS);
   (ascii_lower PRICE_FEED, [(u "0x0fdb11cf", 0%nat)])].

(** ** Checks *)

Definition trove_require (ok : bool) : result unit :=
  raise_if (negb ok) ValueError "MEZO_TROVE_INVALID_EVIDENCE".

(** [_address] without [zero=True]: forty hexadecimal digits, in lower case. *)
Definition address_of (value : json) : result pystr :=
  match value with
  | JStr s =>
    trove_require (is_hex s && (length s =? 42)%nat) ;;
    trove_require (negb (str_eqb (ascii_lower s) ZERO_ADDRESS)) ;;
    Ok (ascii_lower s)
  | _ => raise ValueError "MEZO_TROVE_INVALID_EVIDENCE"
  end.

(** [_icr] *)
Definition checked_icr (collateral debt price : Z) : result Z :=
  trove_require (debt <=? MAXIMUM) ;;
  if debt =? 0 then Ok MAXIMUM
  else
    trove_require (collateral * price <=? MAXIMUM) ;;
    Ok (collateral * price / debt).

(** ** Reads

    [words] adds the key it asks for to the set [used]; a read is a computation from
    the keys used before to a value and the keys used after. *)

Abbreviation call_key := (pystr * pystr)%type.
Abbreviation results := (list (call_key * json)).

Definition reading (A : Type) : Type := list call_key -> result (A * list call_key).

#[global] Instance reading_ret : MRet reading := fun A a used => Ok (a, used).
#[global] Instance reading_bind : MBind reading := fun A B f m used =>
  match m used with
  | Ok (a, used) => f a used
  | Raise e => Raise e
  end.

Definition checked {A} (m : result A) : reading A := fun used => a ← m; Ok (a, used).

Fixpoint mapQ {A B} (f : A -> reading B) (l : list A) : reading (list B) :=
  match l with
  | [] => mret []
  | x :: l => y ← f x; ys ← mapQ f l; mret (y :: ys)
  end.

(** What a read says, whatever was read before. *)
Definition says {A} (m : reading A) (a : A) : Prop := exists used used', m used = Ok (a, used').

Section reads.
Context (calls : results).

Definition read_words (to selector : pystr) (count : nat) (args : pystr) : reading (list Z) := fun used =>
  let key := (ascii_lower to, selector ++ args) in
  raw ← match assoc key calls with Some raw => Ok raw | None => raise KeyError "call" end;
  ws ← words_of raw count;
  Ok (ws, key :: used).

(** The inner functions [uint] and [address]. *)
Definition read_uint (to selector args : pystr) : reading Z :=
  ws ← read_words to selector 1 args;
  checked (match ws with w :: _ => Ok w | [] => raise IndexError "list index out of range" end).

Definition address_text (value : Z) : pystr := u "0x" ++ pad_zeros 40 (str_of_nonneg 16 value).

Definition read_address (to selector args : pystr) : reading pystr :=
  value ← read_uint to selector args;
  _ ← checked (trove_require (value <? 2 ^ 160));
  mret (address_text value).

(** ** One trove *)

Record trove_figures := mkTrove {
  tf_collateral : Z; tf_principal : Z; tf_interest : Z; tf_status : Z; tf_icr : Z; tf_debt : Z }.

(** The inner function [trove]. *)
Definition read_trove (price gas : Z) (owner : pystr) : reading trove_figures :=
  let arg := address_word owner in
  ws ← read_words TROVE_MANAGER (u "0xb91af97c") 6 arg;
  match ws with
  | [coll; principal; interest; pending_coll; pending_principal; pending_interest] =>
    status ← read_uint TROVE_MANAGER (u "0x21e37801") arg;
    ratio ← read_uint TROVE_MANAGER (u "0xd293c710") (arg ++ hex64 price);
    _ ← checked (trove_require ((0 <=? status) && (status <=? 4) && (pending_coll <=? coll) &&
                                (pending_principal <=? principal) && (pending_interest <=? interest)));
    let debt := principal + interest in
    icr ← checked (checked_icr coll debt price);
    _ ← checked (trove_require (ratio =? icr));
    _ ← checked (trove_require (negb (status =? 1) || (gas <=? debt)));
    mret (mkTrove coll principal interest status ratio debt)
  | _ => checked (raise ValueError "not enough values to unpack")
  end.

(** ** The walk along the sorted list *)

(** The borrower's place: the position, and the debts ahead of it. *)
Record place := mkPlace { pl_position : Z; pl_debt_ahead : Z; pl_redeemable_ahead : Z }.

Record walk_state := mkWalk {
  ws_seen : list pystr; ws_previous : pystr; ws_current : pystr;
  ws_rank : Z; ws_debt : Z; ws_net : Z; ws_place : option place }.

(** The body of the loop. *)
Definition walk_step (price gas mcr : Z) (owners : list pystr) (borrower : pystr) (s : walk_state)
  : reading walk_state :=
  let current := ws_current s in
  _ ← checked (trove_require (bool_decide (current ∈ owners) && bool_decide (current ∉ ws_seen s)));
  let arg := address_word current in
  previous ← read_address SORTED_TROVES (u "0x765e0159") arg;
  _ ← checked (trove_require (str_eqb previous (ws_previous s)));
  node ← read_trove price gas current;
  _ ← checked (trove_require (tf_status node =? 1));
  next ← read_address SORTED_TROVES (u "0xb72703ac") arg;
  mret (if mcr <=? tf_icr node then
          mkWalk (current :: ws_seen s) current next (ws_rank s + 1) (ws_debt s + tf_debt node)
            (ws_net s + (tf_debt node - gas))
            (if str_eqb current borrower then Some (mkPlace (ws_rank s + 1) (ws_debt s) (ws_net s))
             else ws_place s)
        else mkWalk (current :: ws_seen s) current next (ws_rank s) (ws_debt s) (ws_net s) (ws_place s)).

(** [while current != ZERO]; a fuel above the number of owners is never used up. *)
Fixpoint walk_loop (fuel : nat) (price gas mcr : Z) (owners : list pystr) (borrower : pystr)
    (s : walk_state) : reading walk_state :=
  if str_eqb (ws_current s) ZERO_ADDRESS then mret s
  else
    match fuel with
    | O => checked (raise RecursionError "walk_loop")
    | S fuel =>
      s ← walk_step price gas mcr owners borrower s;
      walk_loop fuel price gas mcr owners borrower s
    end.

(** ** The system and the queue *)

Record system_figures := mkSystem {
  sy_price : Z; sy_mcr : Z; sy_ccr : Z; sy_gas : Z; sy_tcr : Z; sy_size : Z;
  sy_first : pystr; sy_last : pystr }.

(** The reads of [_verify] before the target trove. *)
Definition read_system : reading system_figures :=
  price ← read_uint PRICE_FEED (u "0x0fdb11cf") [];
  precision ← read_uint TROVE_MANAGER (u "0xa20baee6") [];
  mcr ← read_uint TROVE_MANAGER (u "0x794e5724") [];
  ccr ← read_uint TROVE_MANAGER (u "0x5733d58f") [];
  gas ← read_uint TROVE_MANAGER (u "0x7af110ba") [];
  _ ← checked (trove_require ((0 <? price) && (precision =? UNIT) && (0 <? mcr) && (mcr <=? ccr) && (0 <? gas)));
  debt ← read_uint TROVE_MANAGER (u "0x795d26c3") [];
  coll ← read_uint TROVE_MANAGER (u "0x887105d3") [];
  tcr ← read_uint TROVE_MANAGER (u "0xb82f263d") (hex64 price);
  icr ← checked (checked_icr coll debt price);
  _ ← checked (trove_require (tcr =? icr));
  size ← read_uint SORTED_TROVES (u "0xde8fa431") [];
  count ← read_uint TROVE_MANAGER (u "0x49eefeee") [];
  _ ← checked (trove_require (size =? count));
  first ← read_address SORTED_TROVES (u "0x1e223143") [];
  last ← read_address SORTED_TROVES (u "0x4d622831") [];
  _ ← checked (trove_require (if size =? 0 then str_eqb first ZERO_ADDRESS && str_eqb last ZERO_ADDRESS
                              else negb (str_eqb first ZERO_ADDRESS) && negb (str_eqb last ZERO_ADDRESS)));
  mret (mkSystem price mcr ccr gas tcr size first last).

Inductive queue_status := NOT_ACTIVE | TRAVERSAL_LIMIT | PROVEN | BELOW_MCR | SYSTEM_PAUSED.

#[global] Instance queue_status_eq_dec : EqDecision queue_status.
Proof. solve_decision. Defined.

(** [owners\[i\]] for every [i] of [range(size)]. *)
Definition read_owners (size : Z) : reading (list pystr) :=
  mapQ (fun i => read_address TROVE_MANAGER (u "0xd9a72444") (hex64 i)) (seqZ 0 size).

(** [len(set(l))] *)
Definition set_size {A} `{EqDecision A} (l : list A) : Z := Z.of_nat (length (remove_dups l)).

(** The place of the borrower and the status, after the walk. *)
Definition queue_outcome (sys : system_figures) (target : trove_figures) (found : option place)
  : option place * queue_status :=
  if sy_tcr sys <? sy_mcr sys then (None, SYSTEM_PAUSED)
  else if (tf_status target =? 1) && (tf_icr target <? sy_mcr sys) then (found, BELOW_MCR)
  else match found with
       | Some p => (Some p, PROVEN)
       | None => (None, if tf_status target =? 1 then TRAVERSAL_LIMIT else NOT_ACTIVE)
       end.

(** The rest of [_verify], from the size of the list on. *)
Definition read_queue (sys : system_figures) (borrower : pystr) (target : trove_figures)
  : reading (option place * queue_status) :=
  if QUEUE_LIMIT <? sy_size sys then
    mret (None, if tf_status target =? 1 then TRAVERSAL_LIMIT else NOT_ACTIVE)
  else
    owners ← read_owners (sy_size sys);
    _ ← checked (trove_require ((set_size owners =? sy_size sys) && bool_decide (ZERO_ADDRESS ∉ owners)));
    _ ← checked (trove_require (Bool.eqb (bool_decide (borrower ∈ owners)) (tf_status target =? 1)));
    s ← walk_loop (S (length owners)) (sy_price sys) (sy_gas sys) (sy_mcr sys) owners borrower
          (mkWalk [] ZERO_ADDRESS (sy_last sys) 0 0 0 None);
    _ ← checked (trove_require (same_members (ws_seen s) owners && str_eqb (ws_previous s) (sy_first sys)));
    mret (queue_outcome sys target (ws_place s)).
End reads.

(** ** Verification *)

(** The result of [verify_trove_capture]. *)
Record trove_evidence := mkEvidence {
  te_target : trove_figures; te_borrower : json; te_system : system_figures;
  te_block_number : pystr; te_block_hash : json; te_block_timestamp : Z;
  te_place : option place; te_queue_status : queue_status }.

Definition TROVE_CAPTURE_KEYS : list pystr :=
  [u "schema"; u "source"; u "borrower"; u "rpc_url"; u "chain"; u "block"; u "block_after"; u "calls"].

Definition trove_or_invalid {A} (m : result A) : result A :=
  try_except m [KeyError; TypeError; ValueError; AttributeError; OverflowError]
    (fun _ => raise ValueError "MEZO_TROVE_INVALID_EVIDENCE").

(** [capture["block_after"]["result"]\[key\] == header\[key\]]; a field that is no text,
    and may equal a number of another type, is refused by the checks around. *)
Definition same_field (capture : list (pystr * json)) (header : json) (key : pystr) : result unit :=
  again ← json_item (u "block_after") capture;
  fields ← subscript (u "result") again;
  after ← subscript key fields;
  before ← subscript key header;
  trove_require (bool_decide (after = before)).

(** The checks of the header and of the header read again: the block, its hash and time. *)
Definition trove_header (capture : list (pystr * json)) : result (pystr * json * Z) :=
  header ← json_item (u "block") capture ≫= subscript (u "result");
  number ← subscript (u "number") header;
  match number with
  | JStr block =>
    trove_require (is_block block) ;;
    hash ← subscript (u "hash") header;
    trove_require (match hash with JStr s => is_hash s | _ => false end) ;;
    _ ← mapR (same_field capture header) [u "number"; u "hash"; u "timestamp"];
    stamp ← subscript (u "timestamp") header;
    timestamp ← match stamp with
                | JStr s => py_int 16 s
                | _ => raise TypeError "int() can't convert non-string with explicit base"
                end;
    trove_require (0 <=? timestamp) ;;
    Ok (block, hash, timestamp)
  | _ => raise ValueError "MEZO_TROVE_INVALID_EVIDENCE"
  end.

Section mezo_troves.
Context `{UnicodeLower}.

(** The response checks shared by [_verify] and [capture_trove]. *)
Definition accepted_result (response : json) : result json :=
  match response with
  | JDict d =>
    trove_require (bool_decide (json_get (u "jsonrpc") d = JStr (u "2.0")) &&
                   negb (isSome (assoc (u "error") d)) && isSome (assoc (u "result") d)) ;;
    json_item (u "result") d
  | _ => raise ValueError "MEZO_TROVE_INVALID_EVIDENCE"
  end.

(** One turn of the loop that indexes the calls. *)
Definition index_trove_call (block : pystr) (calls : results) (call : json) : result results :=
  match call with
  | JDict d =>
    trove_require (keys_equal d [u "to"; u "data"; u "block"; u "response"]) ;;
    target ← json_item (u "to") d ≫= address_of;
    data ← json_item (u "data") d ≫= lower_method;
    b ← json_item (u "block") d;
    trove_require (bool_decide (b = JStr block)) ;;
    match assoc target allowed_calls ≫= assoc (take 10 data) with
    | Some arity =>
      trove_require ((length data =? 10 + 64 * arity)%nat && hex_text lower_hex lower_hex data) ;;
      trove_require (negb (isSome (assoc (target, data) calls))) ;;
      response ← json_item (u "response") d;
      value ← accepted_result response;
      Ok (calls ++ [((target, data), value)])
    | None => raise ValueError "MEZO_TROVE_INVALID_EVIDENCE"
    end
  | _ => raise ValueError "MEZO_TROVE_INVALID_EVIDENCE"
  end.

(** [_verify] *)
Definition verify_troves_body (capture : json) : result trove_evidence :=
  match capture with
  | JDict d =>
    trove_require (keys_equal d TROVE_CAPTURE_KEYS) ;;
    schema ← json_item (u "schema") d;
    source ← json_item (u "source") d;
    url ← json_item (u "rpc_url") d;
    trove_require (bool_decide (schema = JStr (u "liqvera-mezo-trove-capture/v1")) &&
                   bool_decide (source = JStr (u "mezo-troves:MUSD:testnet")) &&
                   bool_decide (url = JStr RPC_URL)) ;;
    chain ← json_item (u "chain") d ≫= subscript (u "result");
    trove_require (bool_decide (chain = JStr (u "0x7b7b"))) ;;
    requested ← json_item (u "borrower") d;
    borrower ← address_of requested;
    '(block, hash, timestamp) ← trove_header d;
    items ← json_item (u "calls") d;
    match items with
    | JList items =>
      trove_require ((15 <=? length items)%nat && (Z.of_nat (length items) <=? 6 * QUEUE_LIMIT + 32)) ;;
      calls ← foldM (index_trove_call block) [] items;
      '(sys, used) ← read_system calls [];
      '(target, used) ← read_trove calls (sy_price sys) (sy_gas sys) borrower used;
      number ← py_int 16 block ≫= py_str_int;
      '((found, status), used) ← read_queue calls sys borrower target used;
      trove_require (same_members (map fst calls) used) ;;
      Ok (mkEvidence target requested sys number hash timestamp found status)
    | _ => raise ValueError "MEZO_TROVE_INVALID_EVIDENCE"
    end
  | _ => raise ValueError "MEZO_TROVE_INVALID_EVIDENCE"
  end.

Definition verify_trove_capture (capture : json) : result trove_evidence :=
  trove_or_invalid (verify_troves_body capture).
(** ** Capture through a transport

    [rpc] answers one request and [rpc_many] a batch of calls, each given everything
    asked before it, so two answers to one question may differ. *)

Inductive node_request :=
  | AskOne (method : pystr) (params : list json)
  | AskMany (queries : list call_key) (block : pystr).

Context (rpc : list node_request -> pystr -> list json -> result json).
Context (rpc_many : list node_request -> list call_key -> pystr -> result json).

(** The requests made so far, [results] and [calls]. *)
Record collection := mkCollection { cn_asked : list node_request; cn_results : results; cn_calls : list json }.

Definition ask_node (c : collection) (method : pystr) (params : list json) : result (collection * json) :=
  answer ← rpc (cn_asked c) method params;
  Ok (mkCollection (cn_asked c ++ [AskOne method params]) (cn_results c) (cn_calls c), answer).

(** The addresses and the calldata asked for are ASCII. *)
Definition lower_key (q : call_key) : call_key := (ascii_lower (fst q), ascii_lower (snd q)).

(** The first loop of [collect]. *)
Definition missing_queries (known : results) (queries : list call_key) : list call_key :=
  fold_left (fun missing q =>
    if negb (isSome (assoc (lower_key q) known)) && bool_decide (q ∉ missing) then missing ++ [q] else missing)
    queries [].

(** The second loop of [collect]. *)
Definition keep_response (block : pystr) (c : collection) (answered : call_key * json) : result collection :=
  let '(q, response) := answered in
  value ← accepted_result response;
  Ok (mkCollection (cn_asked c) (assoc_set (lower_key q) value (cn_results c))
        (cn_calls c ++ [JDict [(u "to", JStr (fst q)); (u "data", JStr (snd q)); (u "block", JStr block);
                               (u "response", response)]])).

Definition collect (block : pystr) (c : collection) (queries : list call_key) : result collection :=
  match missing_queries (cn_results c) queries with
  | [] => Ok c
  | missing =>
    responses ← rpc_many (cn_asked c) missing block;
    match responses with
    | JList responses =>
      trove_require (length responses =? length missing)%nat ;;
      foldM (keep_response block) (mkCollection (cn_asked c ++ [AskMany missing block]) (cn_results c) (cn_calls c))
        (zip missing responses)
    | _ => raise ValueError "MEZO_TROVE_INVALID_EVIDENCE"
    end
  end.

(** The inner function [uint]. *)
Definition collected_uint (c : collection) (to data : pystr) : result Z :=
  raw ← match assoc (lower_key (to, data)) (cn_results c) with
        | Some raw => Ok raw
        | None => raise KeyError "call"
        end;
  ws ← words_of raw 1;
  match ws with w :: _ => Ok w | [] => raise IndexError "list index out of range" end.

Definition system_queries : list call_key :=
  (PRICE_FEED, u "0x0fdb11cf") ::
  map (fun selector => (TROVE_MANAGER, u selector))
    ["0x794e5724"; "0x5733d58f"; "0xa20baee6"; "0x7af110ba"; "0x49eefeee"; "0x795d26c3"; "0x887105d3"]%string ++
  map (fun selector => (SORTED_TROVES, u selector)) ["0xde8fa431"; "0x4d622831"; "0x1e223143"]%string.

Definition owners_queries (size : Z) : list call_key :=
  if size <=? QUEUE_LIMIT then map (fun i => (TROVE_MANAGER, u "0xd9a72444" ++ hex64 i)) (seqZ 0 size) else [].

Definition borrower_queries (borrower price_arg : pystr) : list call_key :=
  let arg := address_word borrower in
  [(TROVE_MANAGER, u "0xb82f263d" ++ price_arg); (TROVE_MANAGER, u "0xb91af97c" ++ arg);
   (TROVE_MANAGER, u "0x21e37801" ++ arg); (TROVE_MANAGER, u "0xd293c710" ++ arg ++ price_arg)].

Definition owner_queries (price_arg owner : pystr) : list call_key :=
  let arg := address_word owner in
  [(SORTED_TROVES, u "0xb72703ac" ++ arg); (SORTED_TROVES, u "0x765e0159" ++ arg);
   (TROVE_MANAGER, u "0xb91af97c" ++ arg); (TROVE_MANAGER, u "0x21e37801" ++ arg);
   (TROVE_MANAGER, u "0xd293c710" ++ arg ++ price_arg)].

Definition owner_text (c : collection) (q : call_key) : result pystr :=
  value ← collected_uint c (fst q) (snd q);
  trove_require ((0 <? value) && (value <? 2 ^ 160)) ;;
  Ok (address_text value).

(** The calls of [capture_trove]. *)
Definition collect_troves (borrower block : pystr) (c : collection) : result collection :=
  c ← collect block c system_queries;
  price ← collected_uint c PRICE_FEED (u "0x0fdb11cf");
  size ← collected_uint c SORTED_TROVES (u "0xde8fa431");
  positive ← (match 0 <? price with
              | true => count ← collected_uint c TROVE_MANAGER (u "0x49eefeee"); Ok (size =? count)
              | false => Ok false
              end);
  trove_require positive ;;
  c ← collect block c (owners_queries size ++ borrower_queries borrower (hex64 price));
  owners ← mapR (owner_text c) (owners_queries size);
  collect block c (flat_map (owner_queries (hex64 price)) owners).

Definition capture_trove_body (requested borrower : pystr) : result json :=
  '(c, answer) ← ask_node (mkCollection [] [] []) (u "eth_blockNumber") [];
  number ← subscript (u "result") answer;
  match number with
  | JStr block =>
    trove_require (is_block block) ;;
    '(c, chain) ← ask_node c (u "eth_chainId") [];
    chain_id ← get_method (u "result") chain;
    trove_require (bool_decide (chain_id = JStr (u "0x7b7b"))) ;;
    '(c, header) ← ask_node c (u "eth_getBlockByNumber") [number; JBool false];
    fields ← subscript (u "result") header;
    number' ← subscript (u "number") fields;
    trove_require (bool_decide (number' = number)) ;;
    c ← collect_troves borrower block c;
    '(c, after) ← ask_node c (u "eth_getBlockByNumber") [number; JBool false];
    let capture := JDict
      [(u "schema", JStr (u "liqvera-mezo-trove-capture/v1")); (u "source", JStr (u "mezo-troves:MUSD:testnet"));
       (u "borrower", JStr requested); (u "rpc_url", JStr RPC_URL); (u "chain", chain); (u "block", header);
       (u "block_after", after); (u "calls", JList (cn_calls c))] in
    _ ← verify_trove_capture capture;
    Ok capture
  | _ => raise ValueError "MEZO_TROVE_INVALID_EVIDENCE"
  end.

Definition capture_trove (requested : pystr) : result json :=
  borrower ← address_of (JStr requested);
  try_except (capture_trove_body requested borrower) [OSError; ValueError; KeyError; TypeError]
    (fun _ => raise ValueError "MEZO_TROVE_SOURCE_UNAVAILABLE").
End mezo_troves.

(** ** Laws of readings *)

Lemma trove_require_Ok b : trove_require b = Ok tt <-> b = true.
Proof. unfold trove_require. rewrite raise_if_Ok. apply negb_false_iff. Qed.

Lemma trove_or_invalid_Ok {A} (m : result A) a : trove_or_invalid m = Ok a <-> m = Ok a.
Proof. unfold trove_or_invalid. destruct m as [x|e]; cbn; [done|]. by case_match. Qed.

Lemma read_bind_Ok {A B} (m : reading A) (f : A -> reading B) used b used' :
  (m ≫= f) used = Ok (b, used') <-> exists a used1, m used = Ok (a, used1) /\ f a used1 = Ok (b, used').
Proof.
  change ((m ≫= f) used) with (match m used with Ok (a, used) => f a used | Raise e => Raise e end).
  destruct (m used) as [[a u1]|e]; naive_solver.
Qed.

Lemma checked_Ok {A} (m : result A) used a used' :
  checked m used = Ok (a, used') <-> m = Ok a /\ used' = used.
Proof. unfold checked. destruct m; cbn; naive_solver. Qed.

(** A reading whose value does not depend on what was read before. *)
Definition stable {A} (m : reading A) : Prop :=
  forall used a used', m used = Ok (a, used') -> forall used, exists used', m used = Ok (a, used').

(** A reading that raises only what an [except] clause lists. *)
Definition read_caught {A} (cs : list exc_class) (m : reading A) : Prop := forall used, caught cs (m used).

Lemma stable_says {A} (m : reading A) a b : stable m -> says m a -> says m b -> a = b.
Proof. intros Hm (u & u' & Ha) (v & v' & Hb). destruct (Hm _ _ _ Ha v) as [w Hw]. congruence. Qed.

Lemma stable_ret {A} (a : A) : stable (mret a).
Proof. intros used b used' H. injection H as -> ->. intros v. by exists v. Qed.

Lemma stable_checked {A} (m : result A) : stable (checked m).
Proof. intros used b used' [-> ->]%checked_Ok v. by exists v. Qed.

Lemma stable_bind {A B} (m : reading A) (f : A -> reading B) :
  stable m -> (forall a, stable (f a)) -> stable (m ≫= f).
Proof.
  intros Hm Hf used b used' (a & u1 & Ha & Hb)%read_bind_Ok v.
  destruct (Hm _ _ _ Ha v) as [w Hw]. destruct (Hf a _ _ _ Hb w) as [w' Hw'].
  exists w'. apply read_bind_Ok. by exists a, w.
Qed.

Lemma caught_ret {A} cs (a : A) : read_caught cs (mret a).
Proof. done. Qed.

Lemma caught_checked {A} cs (m : result A) : caught cs m -> read_caught cs (checked m).
Proof. intros H used. by destruct m. Qed.

Lemma caught_read_bind {A B} cs (m : reading A) (f : A -> reading B) :
  read_caught cs m -> (forall a, read_caught cs (f a)) -> read_caught cs (m ≫= f).
Proof.
  intros Hm Hf used. change ((m ≫= f) used) with (match m used with Ok (a, used) => f a used | Raise e => Raise e end).
  specialize (Hm used). destruct (m used) as [[a u1]|e]; [apply Hf|done].
Qed.

Lemma caught_mapQ {A B} cs (f : A -> reading B) l :
  (forall x, read_caught cs (f x)) -> read_caught cs (mapQ f l).
Proof.
  intros Hf. induction l as [|x l IH]; [done|].
  apply caught_read_bind; [apply Hf|]. intros y. by apply caught_read_bind.
Qed.

Create HintDb reads.
#[export] Hint Resolve stable_ret stable_checked caught_ret : reads.

Ltac stable_step :=
  match goal with
  | |- stable (_ ≫= _) => apply stable_bind; [|intros]
  | |- stable (mbind _ _) => apply stable_bind; [|intros]
  | |- stable (match ?x with _ => _ end) => destruct x
  | |- stable _ => solve [eauto with reads]
  end.
Ltac stable := repeat stable_step.

Ltac inv_reads :=
  repeat match goal with
  | H : (_ ≫= _) _ = Ok (_, _) |- _ => apply read_bind_Ok in H as (? & ? & ? & ?)
  | H : checked _ _ = Ok (_, _) |- _ => apply checked_Ok in H as [? ->]
  | H : trove_require _ = Ok _ |- _ => apply trove_require_Ok in H
  | H : mret _ _ = Ok (_, _) |- _ => injection H as <- <-
  | x : unit |- _ => destruct x
  end.

Section read_laws.
Context (calls : results).

Lemma stable_words to selector n args : stable (read_words calls to selector n args).
Proof.
  intros used ws used'. unfold read_words. intros (raw & Hraw & (v & Hv & [= -> <-])%bind_Ok)%bind_Ok w.
  rewrite Hraw. cbn [mbind result_bind]. rewrite Hv. by eexists.
Qed.
#[local] Hint Resolve stable_words : reads.

Lemma stable_uint to selector args : stable (read_uint calls to selector args).
Proof. unfold read_uint. stable. Qed.
#[local] Hint Resolve stable_uint : reads.

Lemma stable_address to selector args : stable (read_address calls to selector args).
Proof. unfold read_address. stable. Qed.

Lemma stable_trove price gas owner : stable (read_trove calls price gas owner).
Proof. unfold read_trove. apply stable_bind; [stable|]. intros ws. stable. Qed.

(** ** The list of troves *)

(** The nodes from [current] on: each one's figures are those the calls give, its
    links lead to its neighbours, and the last one's successor is the zero address. *)
Inductive queue_chain (price gas : Z) : pystr -> pystr -> list (pystr * trove_figures) -> pystr -> Prop :=
  | chain_end previous : queue_chain price gas previous ZERO_ADDRESS [] previous
  | chain_node previous current next final node nodes :
      current <> ZERO_ADDRESS ->
      says (read_address calls SORTED_TROVES (u "0x765e0159") (address_word current)) previous ->
      says (read_trove calls price gas current) node -> tf_status node = 1 ->
      says (read_address calls SORTED_TROVES (u "0xb72703ac") (address_word current)) next ->
      queue_chain price gas current next nodes final ->
      queue_chain price gas previous current ((current, node) :: nodes) final.

(** ** The place of a borrower, from the list of troves *)

Definition redeemable (mcr : Z) (nodes : list (pystr * trove_figures)) : list (pystr * trove_figures) :=
  List.filter (fun n => mcr <=? tf_icr (snd n)) nodes.

Fixpoint ahead_of (borrower : pystr) (nodes : list (pystr * trove_figures))
  : option (list trove_figures) :=
  match nodes with
  | [] => None
  | (owner, node) :: nodes =>
    if decide (owner = borrower) then Some [] else cons node <$> ahead_of borrower nodes
  end.

Definition total (f : trove_figures -> Z) (l : list trove_figures) : Z := foldr (fun t a => f t + a) 0 l.

Definition queue_place (gas mcr : Z) (nodes : list (pystr * trove_figures)) (borrower : pystr) : option place :=
  (fun ahead => mkPlace (Z.of_nat (length ahead) + 1) (total tf_debt ahead)
                  (total (fun t => tf_debt t - gas) ahead)) <$> ahead_of borrower (redeemable mcr nodes).

(** The same, continued from counts that were already made. *)
Definition place_from (rank debt net : Z) (found : option place) (gas mcr : Z)
    (nodes : list (pystr * trove_figures)) (borrower : pystr) : option place :=
  match ahead_of borrower (redeemable mcr nodes) with
  | Some ahead => Some (mkPlace (rank + Z.of_nat (length ahead) + 1) (debt + total tf_debt ahead)
                          (net + total (fun t => tf_debt t - gas) ahead))
  | None => found
  end.

Lemma place_from_start gas mcr nodes borrower :
  place_from 0 0 0 None gas mcr nodes borrower = queue_place gas mcr nodes borrower.
Proof. unfold place_from, queue_place. by destruct (ahead_of _ _). Qed.

Lemma ahead_of_None borrower nodes : borrower ∉ map fst nodes -> ahead_of borrower nodes = None.
Proof.
  induction nodes as [|[owner node] nodes IH]; cbn [ahead_of map fst]; intros Hn; [done|].
  apply not_elem_of_cons in Hn as [Hne Hn]. rewrite decide_False by done. by rewrite IH.
Qed.

Lemma redeemable_owners mcr nodes owner : owner ∈ map fst (redeemable mcr nodes) -> owner ∈ map fst nodes.
Proof.
  rewrite !list_elem_of_fmap. intros (n & -> & Hn). exists n. split; [done|].
  apply list_elem_of_In, filter_In in Hn as [Hn _]. by apply list_elem_of_In.
Qed.

Lemma ahead_of_redeemable mcr nodes borrower node :
  (borrower, node) ∈ nodes -> NoDup (map fst nodes) ->
  isSome (ahead_of borrower (redeemable mcr nodes)) = (mcr <=? tf_icr node).
Proof.
  induction nodes as [|[owner figures] nodes IH]; intros Hin Hnd; [by apply not_elem_of_nil in Hin|].
  cbn [map fst] in Hnd. apply NoDup_cons in Hnd as [Hno Hnd]. cbn [redeemable List.filter snd].
  apply elem_of_cons in Hin as [[= <- <-]|Hin].
  - destruct (_ <=? _); cbn [ahead_of]; [by rewrite decide_True|].
    rewrite ahead_of_None; [done|]. by intros H%redeemable_owners.
  - assert (owner <> borrower) as Hne by (intros ->; apply Hno, (list_elem_of_fmap_2 fst _ _ Hin)).
    destruct (mcr <=? tf_icr figures); cbn [ahead_of]; [|by apply IH].
    rewrite decide_False by done. specialize (IH Hin Hnd). unfold redeemable in IH. by destruct (ahead_of _ _).
Qed.

(** One turn of the loop moves the node from the nodes to come to the counts. *)
Definition counted (gas mcr : Z) (borrower : pystr) (nodes : list (pystr * trove_figures)) (s : walk_state)
  : option place :=
  place_from (ws_rank s) (ws_debt s) (ws_net s) (ws_place s) gas mcr nodes borrower.

Lemma walk_step_Ok price gas mcr owners borrower s used s' used' :
  walk_step calls price gas mcr owners borrower s used = Ok (s', used') ->
  (ws_current s ∈ owners) /\ (ws_current s ∉ ws_seen s) /\ ws_seen s' = ws_current s :: ws_seen s /\
  ws_previous s' = ws_current s /\
  exists node, tf_status node = 1 /\ says (read_trove calls price gas (ws_current s)) node /\
    says (read_address calls SORTED_TROVES (u "0x765e0159") (address_word (ws_current s))) (ws_previous s) /\
    says (read_address calls SORTED_TROVES (u "0xb72703ac") (address_word (ws_current s))) (ws_current s') /\
    forall nodes, borrower ∉ map fst nodes \/ ws_current s <> borrower ->
      counted gas mcr borrower ((ws_current s, node) :: nodes) s = counted gas mcr borrower nodes s'.
Proof.
  unfold walk_step. intros H. inv_reads. reflect_bools.
  repeat match goal with H : str_eqb _ _ = true |- _ => apply str_eqb_spec in H end. subst.
  case_match eqn:Hicr; cbn [ws_current ws_seen ws_previous]; (do 4 (split; [done|])).
  all: eexists; split; [eassumption|]; repeat (split; [by eexists _, _|]).
  all: intros nodes Hb; unfold counted, place_from; cbn [redeemable List.filter snd ws_rank ws_debt ws_net ws_place];
    rewrite Hicr.
  2: done.
  cbn [ahead_of]. destruct (str_eqb _ borrower) eqn:Heq.
  - apply str_eqb_spec in Heq. rewrite decide_True by done. destruct Hb as [Hb|]; [|done].
    rewrite ahead_of_None by (by intros ?%redeemable_owners). cbn. do 2 f_equal; lia.
  - rewrite decide_False by (intros E; by rewrite E, str_eqb_refl in Heq).
    unfold redeemable. destruct (ahead_of _ _) as [l|]; [|done]. cbn [fmap option_fmap option_map length total foldr].
    f_equal. f_equal; unfold total; lia.
Qed.

Lemma walk_loop_Ok fuel price gas mcr owners borrower s used s' used' :
  walk_loop calls fuel price gas mcr owners borrower s used = Ok (s', used') ->
  exists nodes, queue_chain price gas (ws_previous s) (ws_current s) nodes (ws_previous s') /\
    ws_seen s' ≡ₚ map fst nodes ++ ws_seen s /\
    Forall (fun n => (fst n) ∈ owners) nodes /\
    (NoDup (ws_seen s) -> NoDup (map fst nodes ++ ws_seen s)) /\
    (NoDup (ws_seen s) -> counted gas mcr borrower nodes s = ws_place s').
Proof.
  revert s used. induction fuel as [|fuel IH]; intros s used; cbn [walk_loop];
    destruct (str_eqb _ ZERO_ADDRESS) eqn:Hz.
  1,3: apply str_eqb_spec in Hz; intros [= <- <-]; exists []; rewrite Hz;
    (split; [constructor|]); (split; [done|]); (split; [constructor|]); by split.
  - by intros [? _]%checked_Ok.
  - intros (t & used1 & Ht & Hl)%read_bind_Ok.
    apply walk_step_Ok in Ht as (Hin & Hnot & Hseen & Hprev & node & Hst & Hnode & Hp & Hn & Hc).
    apply IH in Hl as (nodes & Hchain & Hperm & Hown & Hnd & Hplace).
    exists ((ws_current s, node) :: nodes). rewrite Hseen in *. rewrite Hprev in Hchain.
    assert (NoDup (ws_seen s) -> NoDup (map fst nodes ++ ws_current s :: ws_seen s)) as Hall.
    { intros H. apply Hnd. by constructor. }
    split; [|split; [|split; [|split]]].
    + econstructor; try eassumption. intros H. by rewrite H, str_eqb_refl in Hz.
    + rewrite Hperm. cbn [map fst]. symmetry. apply Permutation_middle.
    + by constructor.
    + intros H. cbn [map fst app]. rewrite Permutation_middle. by apply Hall.
    + intros H. rewrite Hc; [apply Hplace; by constructor|].
      destruct (decide (ws_current s = borrower)) as [E|]; [left|by right].
      apply Hall, NoDup_app in H as (_ & H & _). intros Hb. apply (H _ Hb). rewrite E. left.
Qed.
End read_laws.

(** ** The verified queue *)

Lemma set_size_NoDup {A} `{EqDecision A} (l : list A) : set_size l = Z.of_nat (length l) -> NoDup l.
Proof.
  unfold set_size. intros H.
  assert (remove_dups l ≡ₚ l) as <-; [|apply NoDup_remove_dups].
  apply submseteq_length_Permutation; [|lia].
  apply NoDup_submseteq; [apply NoDup_remove_dups|]. intros x. apply elem_of_remove_dups.
Qed.

Lemma mapQ_length {A B} (f : A -> reading B) l used ys used' :
  mapQ f l used = Ok (ys, used') -> length ys = length l.
Proof.
  revert used ys; induction l as [|x l IH]; cbn [mapQ]; intros used ys H.
  - by injection H as <- <-.
  - inv_reads. cbn [length]. f_equal. eauto.
Qed.

(** What the verification of a list of at most [QUEUE_LIMIT] troves establishes. *)
Record queue_proven (calls : results) (sys : system_figures) (borrower : pystr) (target : trove_figures)
    (found : option place) (status : queue_status) (nodes : list (pystr * trove_figures)) : Prop := {
  qp_chain : queue_chain calls (sy_price sys) (sy_gas sys) ZERO_ADDRESS (sy_last sys) nodes (sy_first sys);
  qp_distinct : NoDup (map fst nodes);
  qp_size : Z.of_nat (length nodes) = sy_size sys;
  qp_owners : exists owners, says (read_owners calls (sy_size sys)) owners /\ map fst nodes ≡ₚ owners;
  qp_active : borrower ∈ map fst nodes <-> tf_status target = 1;
  qp_place : found = if sy_tcr sys <? sy_mcr sys then None
                     else queue_place (sy_gas sys) (sy_mcr sys) nodes borrower;
  qp_status : status = if sy_tcr sys <? sy_mcr sys then SYSTEM_PAUSED
                       else if negb (tf_status target =? 1) then NOT_ACTIVE
                       else if tf_icr target <? sy_mcr sys then BELOW_MCR else PROVEN;
  qp_found : isSome found = bool_decide (status = PROVEN) }.

Lemma chain_says calls price gas p c nodes q owner node :
  queue_chain calls price gas p c nodes q -> (owner, node) ∈ nodes ->
  says (read_trove calls price gas owner) node.
Proof.
  induction 1; intros Hin; [by apply not_elem_of_nil in Hin|].
  apply elem_of_cons in Hin as [[= -> ->]|]; auto.
Qed.

Lemma queue_place_found gas mcr borrower target nodes :
  NoDup (map fst nodes) -> (borrower ∈ map fst nodes <-> tf_status target = 1) ->
  (forall node, (borrower, node) ∈ nodes -> node = target) ->
  isSome (queue_place gas mcr nodes borrower) = (tf_status target =? 1) && (mcr <=? tf_icr target).
Proof.
  intros Hnd Hact Htgt. unfold queue_place.
  enough (isSome (ahead_of borrower (redeemable mcr nodes)) = (tf_status target =? 1) && (mcr <=? tf_icr target))
    as <- by (by destruct (ahead_of _ _)).
  destruct (Z.eqb_spec (tf_status target) 1) as [E|E].
  - apply Hact in E as (n & -> & Hn)%list_elem_of_fmap. destruct n as [owner node]. cbn [fst] in *.
    rewrite <- (Htgt _ Hn). by apply ahead_of_redeemable.
  - rewrite ahead_of_None; [done|]. by intros H%redeemable_owners%Hact.
Qed.

Lemma queue_outcome_spec sys borrower target nodes found :
  queue_place (sy_gas sys) (sy_mcr sys) nodes borrower = found ->
  isSome found = (tf_status target =? 1) && (sy_mcr sys <=? tf_icr target) ->
  queue_outcome sys target found =
  (if sy_tcr sys <? sy_mcr sys then None else found,
   if sy_tcr sys <? sy_mcr sys then SYSTEM_PAUSED
   else if negb (tf_status target =? 1) then NOT_ACTIVE
   else if tf_icr target <? sy_mcr sys then BELOW_MCR else PROVEN).
Proof.
  intros _. rewrite Z.leb_antisym. unfold queue_outcome.
  destruct (sy_tcr sys <? sy_mcr sys), (tf_status target =? 1), (tf_icr target <? sy_mcr sys), found; done.
Qed.

Lemma walk_from_start calls fuel price gas mcr owners borrower last used s used' :
  walk_loop calls fuel price gas mcr owners borrower (mkWalk [] ZERO_ADDRESS last 0 0 0 None) used = Ok (s, used') ->
  exists nodes, queue_chain calls price gas ZERO_ADDRESS last nodes (ws_previous s) /\
    ws_seen s ≡ₚ map fst nodes /\ NoDup (map fst nodes) /\ ws_place s = queue_place gas mcr nodes borrower.
Proof.
  intros (nodes & Hc & Hp & _ & Hn & Hpl)%walk_loop_Ok. exists nodes.
  cbn [ws_previous ws_current ws_seen] in *. rewrite app_nil_r in *. specialize (Hn (NoDup_nil_2)).
  repeat (split; [done|]). rewrite <- Hpl by constructor. unfold counted. cbn. apply place_from_start.
Qed.

Lemma read_owners_length calls size used owners used' :
  read_owners calls size used = Ok (owners, used') -> length owners = Z.to_nat size.
Proof. intros H%mapQ_length. by rewrite H, length_seqZ. Qed.

Lemma read_queue_Ok calls sys borrower target used found status used' :
  says (read_trove calls (sy_price sys) (sy_gas sys) borrower) target -> sy_size sys <= QUEUE_LIMIT ->
  read_queue calls sys borrower target used = Ok ((found, status), used') ->
  exists nodes, queue_proven calls sys borrower target found status nodes.
Proof.
  intros Htgt Hsize. unfold read_queue. rewrite (proj2 (Z.ltb_ge _ _)) by done.
  intros (owners & u1 & Hown & ([] & u2 & [Hdist%trove_require_Ok ->]%checked_Ok & H)%read_bind_Ok)%read_bind_Ok.
  apply read_bind_Ok in H as ([] & u3 & [Hact%trove_require_Ok ->]%checked_Ok & H).
  apply read_bind_Ok in H as (s & u4 & (nodes & Hc & Hp & Hn & Hpl)%walk_from_start & H).
  apply read_bind_Ok in H as ([] & u5 & [Hend%trove_require_Ok ->]%checked_Ok & [= Hfound Hused]).
  apply andb_true_iff in Hdist as [Hset%Z.eqb_eq _], Hend as [Hsame Hfirst%str_eqb_spec].
  apply Bool.eqb_prop in Hact. rewrite Hpl in Hfound. rewrite Hfirst in Hc.
  pose proof (read_owners_length _ _ _ _ _ Hown) as Hlen.
  assert (Z.of_nat (length owners) = sy_size sys) as Hlen' by (unfold set_size in Hset; lia).
  assert (map fst nodes ≡ₚ owners) as Hperm.
  { apply NoDup_Permutation; [done|apply set_size_NoDup; congruence|]. intros x. rewrite <- Hp.
    by apply same_members_spec. }
  assert (borrower ∈ map fst nodes <-> tf_status target = 1) as Hborrower.
  { rewrite Hperm, <- Z.eqb_eq, <- Hact. symmetry. apply bool_decide_eq_true. }
  pose proof (queue_place_found (sy_gas sys) (sy_mcr sys) borrower target nodes Hn Hborrower) as Hfind.
  specialize (Hfind ltac:(intros node Hnode; eapply stable_says; [apply stable_trove|by eapply chain_says|done])).
  rewrite (queue_outcome_spec _ _ _ _ _ eq_refl Hfind) in Hfound. injection Hfound as <- <-.
  exists nodes. split; try done.
  - rewrite <- Hlen', <- Hperm. by rewrite length_map.
  - exists owners. split; [by exists used, u1|done].
  - destruct (sy_tcr sys <? sy_mcr sys); [done|]. rewrite Hfind, Z.leb_antisym.
    by destruct (tf_status target =? 1), (tf_icr target <? sy_mcr sys).
Qed.

(** ** What a verification raises *)

Definition TROVE_ERRORS : list exc_class := [KeyError; TypeError; ValueError; AttributeError; OverflowError].

Abbreviation trove_caught m := (caught TROVE_ERRORS m).

Lemma caught_value_error {A} (m : result A) : fails_with ValueError m -> trove_caught m.
Proof. apply caught_fails. unfold TROVE_ERRORS. set_solver. Qed.

Lemma caught_require b : trove_caught (trove_require b).
Proof. by destruct b. Qed.

Lemma caught_item k d : trove_caught (json_item k d).
Proof. unfold json_item. by case_match. Qed.

Lemma caught_subscript k x : trove_caught (subscript k x).
Proof. destruct x; try done. apply caught_item. Qed.

Lemma caught_address x : trove_caught (address_of x).
Proof.
  destruct x; try done. apply caught_bind; [apply caught_require|]. intros _ _.
  apply caught_bind; [apply caught_require|]. done.
Qed.

Lemma caught_words_of raw n : trove_caught (words_of raw n).
Proof. apply caught_value_error. destruct raw; try done. unfold words_of, require. fails. Qed.

Lemma caught_icr coll debt price : trove_caught (checked_icr coll debt price).
Proof. apply caught_value_error. unfold checked_icr, trove_require. fails. Qed.

Lemma caught_int base s : trove_caught (py_int base s).
Proof. apply caught_value_error. unfold py_int. fails. Qed.

Lemma caught_str_int z : trove_caught (py_str_int z).
Proof. apply caught_value_error. unfold py_str_int. fails. Qed.

Lemma caught_result response : trove_caught (accepted_result response).
Proof.
  destruct response; try done. apply caught_bind; [apply caught_require|]. intros _ _. apply caught_item.
Qed.

Lemma caught_field capture header key : trove_caught (same_field capture header key).
Proof.
  apply caught_bind; [apply caught_item|]. intros again _. apply caught_bind; [apply caught_subscript|].
  intros fields _. apply caught_bind; [apply caught_subscript|]. intros after _.
  apply caught_bind; [apply caught_subscript|]. intros before _. apply caught_require.
Qed.

Create HintDb caught.
#[export] Hint Resolve caught_require caught_item caught_subscript caught_address caught_words_of caught_icr
  caught_int caught_str_int caught_result caught_field : caught.

Ltac caught_step :=
  match goal with
  | |- caught _ (_ ≫= _) => apply caught_bind; [|intros ? _]
  | |- caught _ (mbind _ _) => apply caught_bind; [|intros ? _]
  | |- caught _ (Ok _) => exact I
  | |- caught _ (raise _ _) => reflexivity
  | |- caught _ (match ?x with _ => _ end) => destruct x
  | |- caught _ _ => solve [eauto with caught]
  end.
Ltac caught := repeat caught_step.

Ltac caught_read_step :=
  match goal with
  | |- read_caught _ (_ ≫= _) => apply caught_read_bind; [|intros]
  | |- read_caught _ (mbind _ _) => apply caught_read_bind; [|intros]
  | |- read_caught _ (checked _) => apply caught_checked
  | |- read_caught _ (mret _) => apply caught_ret
  | |- read_caught _ (match ?x with _ => _ end) => destruct x
  | |- read_caught _ _ => solve [eauto with caught]
  | |- caught _ _ => caught_step
  end.
Ltac caught_reads := repeat caught_read_step.

Section read_errors.
Context (calls : results).

Lemma caught_words to selector n args : read_caught TROVE_ERRORS (read_words calls to selector n args).
Proof. intros used. unfold read_words. caught. Qed.
#[local] Hint Resolve caught_words : caught.

Lemma words_of_length raw n ws : words_of raw n = Ok ws -> length ws = n.
Proof.
  destruct raw as [| | | |s| |]; try done. intros (_ & _ & (_ & _ & [= <-])%bind_Ok)%bind_Ok.
  generalize (drop 2 s). induction n as [|n IH]; intros t; [done|]. cbn [hex_words length]. by rewrite IH.
Qed.

Lemma caught_uint to selector args : read_caught TROVE_ERRORS (read_uint calls to selector args).
Proof.
  intros used. unfold read_uint.
  change (caught TROVE_ERRORS (match read_words calls to selector 1 args used with
    | Ok (ws, used) => checked (match ws with w :: _ => Ok w | [] => raise IndexError "list index out of range" end) used
    | Raise e => Raise e end)).
  pose proof (caught_words to selector 1 args used) as Hc.
  destruct (read_words _ _ _ _ _ _) as [[ws u1]|e] eqn:E; [|done].
  unfold read_words in E. inv_ok.
  match goal with H : words_of _ _ = Ok _ |- _ => apply words_of_length in H end. by destruct ws.
Qed.
#[local] Hint Resolve caught_uint : caught.

Lemma caught_read_address to selector args : read_caught TROVE_ERRORS (read_address calls to selector args).
Proof. unfold read_address. caught_reads. Qed.
#[local] Hint Resolve caught_read_address : caught.

Lemma caught_trove price gas owner : read_caught TROVE_ERRORS (read_trove calls price gas owner).
Proof. unfold read_trove. caught_reads. Qed.
#[local] Hint Resolve caught_trove : caught.

Lemma caught_system : read_caught TROVE_ERRORS (read_system calls).
Proof. unfold read_system. caught_reads. Qed.

Lemma caught_walk_step price gas mcr owners borrower s :
  read_caught TROVE_ERRORS (walk_step calls price gas mcr owners borrower s).
Proof. unfold walk_step. caught_reads. Qed.

(** The walk ends before its fuel does: it never sees an owner twice. *)
Lemma caught_walk_loop fuel price gas mcr owners borrower s used :
  NoDup (ws_seen s) -> ws_seen s ⊆ owners -> (length owners < fuel + length (ws_seen s))%nat ->
  caught TROVE_ERRORS (walk_loop calls fuel price gas mcr owners borrower s used).
Proof.
  revert s used. induction fuel as [|fuel IH]; intros s used Hnd Hsub Hf.
  - exfalso. apply NoDup_submseteq in Hsub; [|done]. apply submseteq_length in Hsub. lia.
  - cbn [walk_loop]. destruct (str_eqb _ _); [done|].
    change (caught TROVE_ERRORS (match walk_step calls price gas mcr owners borrower s used with
      | Ok (s, used) => walk_loop calls fuel price gas mcr owners borrower s used
      | Raise e => Raise e end)).
    pose proof (caught_walk_step price gas mcr owners borrower s used) as Hc.
    destruct (walk_step _ _ _ _ _ _ _ _) as [[t u1]|e] eqn:E; [|done].
    apply walk_step_Ok in E as (Hin & Hnot & Hseen & _). apply IH; rewrite Hseen.
    + by constructor.
    + intros x [->|Hx]%elem_of_cons; auto.
    + cbn [length]. lia.
Qed.

Lemma caught_queue sys borrower target : read_caught TROVE_ERRORS (read_queue calls sys borrower target).
Proof.
  unfold read_queue. destruct (_ <? _); [apply caught_ret|].
  apply caught_read_bind; [apply caught_mapQ; intros; apply caught_read_address|]. intros owners.
  do 2 (apply caught_read_bind; [apply caught_checked, caught_require|]; intros _).
  apply caught_read_bind; [|intros s; caught_reads].
  intros used. apply caught_walk_loop; cbn [ws_seen length]; [constructor|apply list_subseteq_nil|lia].
Qed.
End read_errors.

Lemma caught_mapR {A B} cs (f : A -> result B) l : (forall x, caught cs (f x)) -> caught cs (mapR f l).
Proof.
  intros Hf. induction l as [|x l IH]; [done|]. cbn [mapR]. apply caught_bind; [apply Hf|]. intros y _.
  by apply caught_bind.
Qed.

Lemma caught_foldM {A S} cs (step : S -> A -> result S) s l :
  (forall s x, caught cs (step s x)) -> caught cs (foldM step s l).
Proof. intros Hf. revert s. induction l as [|x l IH]; intros s; [done|]. by apply caught_bind. Qed.

Section verification.
Context `{UnicodeLower}.

Lemma caught_lower x : trove_caught (lower_method x).
Proof. by destruct x. Qed.
#[local] Hint Resolve caught_lower : caught.

Lemma caught_index block calls call : trove_caught (index_trove_call block calls call).
Proof. unfold index_trove_call. caught. Qed.

Lemma caught_header capture : trove_caught (trove_header capture).
Proof.
  unfold trove_header. repeat (caught_step || (apply caught_mapR; intros)).
Qed.

Lemma caught_reading {A B} (m : reading A) used (f : A * list call_key -> result B) :
  read_caught TROVE_ERRORS m -> (forall a, trove_caught (f a)) -> trove_caught (m used ≫= f).
Proof. intros Hm Hf. apply caught_bind; [apply Hm|done]. Qed.

Lemma caught_verify capture : trove_caught (verify_troves_body capture).
Proof.
  destruct capture as [| | | | | |d]; try done. unfold verify_troves_body.
  do 9 (apply caught_bind; [caught|]; intros ? _).
  apply caught_bind; [apply caught_header|]. intros [[block hash] stamp] _.
  apply caught_bind; [caught|]. intros [| | | | |items|] _; try done.
  apply caught_bind; [caught|]. intros _ _.
  apply caught_bind; [apply caught_foldM, caught_index|]. intros calls _.
  apply caught_reading; [apply caught_system|]. intros [sys u1].
  apply caught_reading; [apply caught_trove|]. intros [target u2].
  apply caught_bind; [caught|]. intros number _.
  apply caught_reading; [apply caught_queue|]. intros [[found status] u3]. caught.
Qed.

(** The figures of a trove agree with each other. *)
Definition figures_sound (price gas : Z) (f : trove_figures) : Prop :=
  tf_debt f = tf_principal f + tf_interest f /\
  checked_icr (tf_collateral f) (tf_debt f) price = Ok (tf_icr f) /\
  0 <= tf_status f <= 4 /\ (tf_status f = 1 -> gas <= tf_debt f).

Lemma read_trove_sound calls price gas owner f : says (read_trove calls price gas owner) f -> figures_sound price gas f.
Proof.
  intros (used & used' & Hread). unfold read_trove in Hread. apply read_bind_Ok in Hread as (ws & u1 & _ & H1).
  destruct ws as [|coll [|principal [|interest [|pc [|pp [|pi [|]]]]]]]; try (by apply checked_Ok in H1 as [? _]).
  apply read_bind_Ok in H1 as (status & u2 & _ & (ratio & u3 & _ & H1)%read_bind_Ok).
  apply read_bind_Ok in H1 as ([] & u4 & [Hs%trove_require_Ok ->]%checked_Ok & H1).
  apply read_bind_Ok in H1 as (icr & u5 & [Hi ->]%checked_Ok & H1).
  apply read_bind_Ok in H1 as ([] & u6 & [Hr%trove_require_Ok%Z.eqb_eq ->]%checked_Ok & H1).
  apply read_bind_Ok in H1 as ([] & u7 & [Hg%trove_require_Ok ->]%checked_Ok & [= <- _]).
  reflect_bools. subst icr. split; cbn [tf_debt tf_principal tf_interest tf_collateral tf_icr tf_status]; [done|].
  split; [done|]. split; [done|]. intros ->. destruct Hg as [Hg|Hg]; [done|]. by apply Z.leb_le.
Qed.

Lemma chain_sound calls price gas p c nodes q :
  queue_chain calls price gas p c nodes q -> Forall (fun n => figures_sound price gas (snd n)) nodes.
Proof. induction 1; constructor; [by eapply read_trove_sound|done]. Qed.

(** The calls of a capture, by target and calldata. *)
Definition calls_of (capture : json) (calls : results) : Prop :=
  exists d block items, capture = JDict d /\ json_item (u "calls") d = Ok (JList items) /\
    foldM (index_trove_call block) [] items = Ok calls.

(** What a verified capture says, given the calls it holds. *)
Record troves_sound (calls : results) (v : trove_evidence) : Prop := {
  ts_system : says (read_system calls) (te_system v);
  ts_borrower : exists borrower, address_of (te_borrower v) = Ok borrower /\
    says (read_trove calls (sy_price (te_system v)) (sy_gas (te_system v)) borrower) (te_target v) /\
    (sy_size (te_system v) <= QUEUE_LIMIT -> exists nodes,
      queue_proven calls (te_system v) borrower (te_target v) (te_place v) (te_queue_status v) nodes /\
      Forall (fun n => figures_sound (sy_price (te_system v)) (sy_gas (te_system v)) (snd n)) nodes);
  ts_target : figures_sound (sy_price (te_system v)) (sy_gas (te_system v)) (te_target v);
  ts_beyond : QUEUE_LIMIT < sy_size (te_system v) ->
    te_place v = None /\ te_queue_status v = if tf_status (te_target v) =? 1 then TRAVERSAL_LIMIT else NOT_ACTIVE }.

Lemma verify_troves_Ok capture v :
  verify_trove_capture capture = Ok v -> exists calls, calls_of capture calls /\ troves_sound calls v.
Proof.
  unfold verify_trove_capture. rewrite trove_or_invalid_Ok. destruct capture as [| | | | | |d]; try done.
  unfold verify_troves_body. intros Hv.
  do 7 (apply bind_Ok in Hv as (? & _ & Hv)). apply bind_Ok in Hv as (requested & _ & Hv).
  apply bind_Ok in Hv as (borrower & Hb & Hv). apply bind_Ok in Hv as ([[block hash] stamp] & _ & Hv).
  apply bind_Ok in Hv as (items & Hitems & Hv). destruct items as [| | | | |items|]; try done.
  apply bind_Ok in Hv as (_ & _ & (calls & Hcalls & Hv)%bind_Ok).
  apply bind_Ok in Hv as ([sys u1] & Hsys & Hv). apply bind_Ok in Hv as ([target u2] & Htgt & Hv).
  apply bind_Ok in Hv as (number & _ & ([[found status] u3] & Hq & Hv)%bind_Ok).
  apply bind_Ok in Hv as (_ & _ & [= <-]).
  assert (says (read_trove calls (sy_price sys) (sy_gas sys) borrower) target) as Ht by by exists u1, u2.
  exists calls. split; [by exists d, block, items|]. split; cbn [te_system te_borrower te_target te_place te_queue_status].
  - by exists [], u1.
  - exists borrower. split; [done|]. split; [done|]. intros Hsize.
    destruct (read_queue_Ok _ _ _ _ _ _ _ _ Ht Hsize Hq) as [nodes Hn]. exists nodes. split; [done|].
    eapply chain_sound, qp_chain. exact Hn.
  - by eapply read_trove_sound.
  - intros Hbig. unfold read_queue in Hq. rewrite (proj2 (Z.ltb_lt _ _)) in Hq by done. by injection Hq as <- <- _.
Qed.
Lemma verify_troves_borrower d v :
  verify_trove_capture (JDict d) = Ok v -> json_item (u "borrower") d = Ok (te_borrower v).
Proof.
  unfold verify_trove_capture. rewrite trove_or_invalid_Ok. unfold verify_troves_body. intros Hv.
  do 7 (apply bind_Ok in Hv as (? & _ & Hv)). apply bind_Ok in Hv as (requested & Hr & Hv).
  apply bind_Ok in Hv as (borrower & _ & Hv). apply bind_Ok in Hv as ([[block hash] stamp] & _ & Hv).
  apply bind_Ok in Hv as (items & _ & Hv). destruct items as [| | | | |items|]; try done.
  apply bind_Ok in Hv as (_ & _ & (calls & _ & Hv)%bind_Ok).
  apply bind_Ok in Hv as ([sys u1] & _ & ([target u2] & _ & Hv)%bind_Ok).
  apply bind_Ok in Hv as (number & _ & ([[found status] u3] & _ & Hv)%bind_Ok).
  by apply bind_Ok in Hv as (_ & _ & [= <-]).
Qed.

Lemma capture_trove_body_Ok rpc rpc_many requested borrower c :
  capture_trove_body rpc rpc_many requested borrower = Ok c ->
  exists d v, c = JDict d /\ json_item (u "borrower") d = Ok (JStr requested) /\ verify_trove_capture c = Ok v.
Proof.
  unfold capture_trove_body. intros ([n1 answer] & _ & (number & _ & Hc)%bind_Ok)%bind_Ok.
  destruct number as [| | | |block| |]; try done.
  apply bind_Ok in Hc as (_ & _ & ([n2 chain] & _ & (? & _ & (_ & _ & Hc)%bind_Ok)%bind_Ok)%bind_Ok).
  apply bind_Ok in Hc as ([n3 header] & _ & (? & _ & (? & _ & (_ & _ & Hc)%bind_Ok)%bind_Ok)%bind_Ok).
  apply bind_Ok in Hc as (n4 & _ & ([n5 after] & _ & (v & Hv & [= <-])%bind_Ok)%bind_Ok).
  by eexists _, v.
Qed.
End verification.

(** ** A node that lists three troves, the redemption order being 1, 2, 3 *)

Definition demo_price : Z := 100000 * UNIT.
Definition demo_coll (n : Z) : Z := UNIT.
Definition demo_principal (n : Z) : Z := (66000 - n * 2000) * UNIT.

(** The words each selector answers; [n] is the number the first argument encodes. *)
Definition demo_words (selector : pystr) (n : Z) : list Z :=
  let sel t := str_eqb selector (u t) in
  if sel "0x0fdb11cf"%string then [demo_price]
  else if sel "0xa20baee6"%string then [UNIT]
  else if sel "0x794e5724"%string then [11 * 10 ^ 17]
  else if sel "0x5733d58f"%string then [15 * 10 ^ 17]
  else if sel "0x7af110ba"%string then [200 * UNIT]
  else if sel "0x795d26c3"%string then [60000 * UNIT]
  else if sel "0x887105d3"%string then [UNIT]
  else if sel "0xb82f263d"%string then [UNIT * demo_price / (60000 * UNIT)]
  else if sel "0xde8fa431"%string || sel "0x49eefeee"%string then [3]
  else if sel "0x1e223143"%string then [3]
  else if sel "0x4d622831"%string then [1]
  else if sel "0xd9a72444"%string then [3 - n]
  else if sel "0xb91af97c"%string then [demo_coll n; demo_principal n; 0; 0; 0; 0]
  else if sel "0x21e37801"%string then [1]
  else if sel "0xd293c710"%string then [demo_coll n * demo_price / demo_principal n]
  else if sel "0x765e0159"%string then [n - 1]
  else [(n + 1) mod 4].

Definition demo_many (_ : list node_request) (queries : list call_key) (_ : pystr) : result json :=
  Ok (JList (map (fun q => JDict [(u "jsonrpc", JStr (u "2.0")); (u "result", JStr (u "0x" ++
    concat (map hex64 (demo_words (take 10 (snd q)) (hex_value (take 64 (drop 10 (snd q)))))))) ]) queries)).

Definition demo_one (_ : list node_request) (method : pystr) (params : list json) : result json :=
  demo_rpc false [] (method, params).

Definition demo_trove_capture : json :=
  match capture_trove demo_one demo_many (address_text 2) with Ok c => c | Raise _ => JNull end.

(** ** Properties *)

(** C37: a verified capture of at most five hundred troves holds a list of troves that
    its links connect from the last to the first, each trove once and each with the
    figures the calls give it; the borrower's place is the number of redeemable troves
    up to it with the debts of those before it, and the status says why there is none.  A
    longer list is never traversed. *)
Theorem verify_trove_capture_sound `{UnicodeLower} capture v :
  verify_trove_capture capture = Ok v -> exists calls, calls_of capture calls /\ troves_sound calls v.
Proof. apply verify_troves_Ok. Qed.

Lemma verify_trove_capture_sound_witness :
  exists v calls, verify_trove_capture demo_trove_capture = Ok v /\ te_queue_status v = PROVEN /\
    calls_of demo_trove_capture calls /\ troves_sound calls v.
Proof.
  destruct (Ok_satisfies (fun v => bool_decide (te_queue_status v = PROVEN)) (verify_trove_capture demo_trove_capture))
    as (v & Hv & Hp); [vm_compute; reflexivity|].
  destruct (verify_trove_capture_sound _ v Hv) as (calls & Hc & Hs).
  exists v, calls. split; [exact Hv|]. split; [exact (bool_decide_eq_true_1 _ Hp)|]. split; [exact Hc|exact Hs].
Defined.

(** Verification always ends, with the evidence or with the one error it documents:
    the walk along the list cannot run in a circle, and no lookup, conversion or index
    escapes as another exception. *)
Theorem verify_trove_capture_ends `{UnicodeLower} capture :
  (exists v, verify_trove_capture capture = Ok v) \/
  verify_trove_capture capture = raise ValueError "MEZO_TROVE_INVALID_EVIDENCE".
Proof.
  unfold verify_trove_capture, trove_or_invalid. pose proof (caught_verify capture) as Hc.
  destruct (verify_troves_body capture) as [v|e]; [by left; exists v|right].
  cbn [try_except]. fold TROVE_ERRORS. by rewrite Hc.
Qed.

(** C38: a trove capture that is taken, from any transport, verifies, and for the
    borrower it was asked for. *)
Theorem capture_trove_verifies `{UnicodeLower} rpc rpc_many requested c :
  capture_trove rpc rpc_many requested = Ok c ->
  exists v, verify_trove_capture c = Ok v /\ te_borrower v = JStr requested.
Proof.
  unfold capture_trove. intros (borrower & _ & Hc)%bind_Ok.
  apply try_except_Ok in Hc as [Hc|(? & _ & Hc)]; [|done].
  apply capture_trove_body_Ok in Hc as (d & v & -> & Hb & Hv). exists v. split; [done|].
  apply verify_troves_borrower in Hv. congruence.
Qed.

Lemma capture_trove_verifies_witness :
  exists v, verify_trove_capture demo_trove_capture = Ok v /\ te_borrower v = JStr (address_text 2).
Proof.
  destruct (is_Ok_exists (capture_trove demo_one demo_many (address_text 2))) as [c Hc]; [vm_compute; reflexivity|].
  assert (demo_trove_capture = c) as -> by (unfold demo_trove_capture; rewrite Hc; reflexivity).
  exact (capture_trove_verifies demo_one demo_many (address_text 2) c Hc).
Defined.
