(* ===== verification/TroveReport.v ===== *)
(** * [liqvera_evidence_report.trove_report]: the report of a verified trove capture

    The risk figures of a borrower, with the place in the redemption queue, as a
    canonical document; and its reconstruction from the members of a bundle.  The
    schema validator and the resources of the distribution are parameters.  Proved
    here: which captures and requests give a report and with which status, and that
    the members of a built report rebuild it. *)

From S2P Require Import Prelude PyStr Num PyObj Json JsonRoundtrip Bytes ByteLaws Exact Calculation Calendar.
From S2P Require Import EvidenceIo Documents MezoDex MezoTroves.
Open Scope Z_scope.

(** ** The request *)

Record TroveReportRequest := mkTroveRequest {
  tq_report_id : uuid; tq_borrower : pystr; tq_engine_commit : pystr;
  tq_created_at_ms : Z; tq_source_mode : pystr }.

(** The last millisecond of the year 9999. *)
Definition MAX_MS : Z := 253402300799999.

(** [r"0x[0-9a-fA-F]{40}"] and [r"[0-9a-f]{40}"] *)
Definition is_address (s : pystr) : bool := is_hex s && (length s =? 42)%nat.
Definition is_commit (s : pystr) : bool := forallb lower_hex s && (length s =? 40)%nat.

(** [TroveReportRequest.__post_init__]; a member read from a bundle may have any type. *)
Definition trove_request_init (report_id : uuid) (borrower engine_commit created_at_ms source_mode : json)
  : result TroveReportRequest :=
  match borrower, engine_commit, created_at_ms, source_mode with
  | JStr b, JStr c, JInt t, JStr m =>
    reject_if (negb (is_address b) || (hex_value (drop 2 b) =? 0) || negb (is_commit c) ||
               negb ((0 <=? t) && (t <=? MAX_MS)) || negb (str_eqb m (u "fixture") || str_eqb m (u "live-public")))
      "INVALID_INPUT" ;;
    Ok (mkTroveRequest report_id b c t m)
  | _, _, _, _ => rejected "INVALID_INPUT"
  end.

(** ** The report *)

(** [report.BuiltReport] *)
Record BuiltReport := mkBuilt {
  br_document : json; br_report_bytes : bytes; br_report_sha256 : pystr;
  br_input_members : list (pystr * bytes); br_algorithm_bytes : bytes; br_dependency_bytes : bytes;
  br_extra_members : list (pystr * bytes) }.

Definition TROVE_ABIS : list pystr :=
  [u "TroveManager.implementation.testnet.json"; u "SortedTroves.implementation.testnet.json";
   u "PriceFeed.implementation.testnet.json"].

Definition snapshot_status (request : TroveReportRequest) (source_ms : Z) : pystr :=
  if str_eqb (tq_source_mode request) (u "fixture") then u "SIMULATED"
  else if 30000 <? tq_created_at_ms request - source_ms then u "HISTORICAL_SNAPSHOT"
  else u "VALID_FOR_SNAPSHOT_CALCULATION".

Definition queue_status_text (q : queue_status) : pystr :=
  u (match q with
     | NOT_ACTIVE => "NOT_ACTIVE"
     | TRAVERSAL_LIMIT => "TRAVERSAL_LIMIT"
     | PROVEN => "PROVEN"
     | BELOW_MCR => "BELOW_MCR"
     | SYSTEM_PAUSED => "SYSTEM_PAUSED"
     end).

(** The inner function [musd]. *)
Definition musd (value : option Z) : result json :=
  match value with Some n => display_unit n | None => Ok JNull end.

Definition EXPLORER_ROOT : pystr := u "https://explorer.test.mezo.org".

Definition trove_caveats : json := JList (map (fun s => JStr (u s))
  ["Mezo Testnet snapshot; read only, not financial advice.";
   "Debt and collateral already include pending rewards; principal and interest are not counted twice.";
   "Interest accrual and future oracle changes alter these snapshot quantities.";
   "The MCR crossing assumes constant debt and collateral; recovery-mode liquidation rules also apply.";
   "Redemption rank skips positions below MCR; redeemable debt ahead excludes each eligible position liquidation reserve.";
   "RPC observations and a block hash do not prove chain inclusion or oracle authenticity."]%string).

(** The items that do not come from [trove_risk]. *)
Definition queue_items (v : trove_evidence) (borrower : pystr) : list (pystr * json) :=
  [(u "borrower", JStr borrower); (u "block_number", JStr (te_block_number v));
   (u "block_hash", te_block_hash v);
   (u "redemption_position", match te_place v with Some p => JInt (pl_position p) | None => JNull end);
   (u "sorted_troves_size", JInt (sy_size (te_system v)));
   (u "queue_status", JStr (queue_status_text (te_queue_status v)))].

Definition explorer_links (v : trove_evidence) : json := JDict
  [(u "block", JStr (EXPLORER_ROOT ++ u "/block/" ++ te_block_number v));
   (u "trove_manager", JStr (EXPLORER_ROOT ++ u "/address/" ++ TROVE_MANAGER));
   (u "sorted_troves", JStr (EXPLORER_ROOT ++ u "/address/" ++ SORTED_TROVES));
   (u "price_feed", JStr (EXPLORER_ROOT ++ u "/address/" ++ PRICE_FEED))].

(** [risk.update(...)], both times. *)
Definition complete_risk (v : trove_evidence) (borrower : pystr) (risk : list (pystr * json)) : result json :=
  ahead ← musd (pl_debt_ahead <$> te_place v);
  net ← musd (pl_redeemable_ahead <$> te_place v);
  principal ← musd (Some (tf_principal (te_target v)));
  interest ← musd (Some (tf_interest (te_target v)));
  reserve ← musd (Some (sy_gas (te_system v)));
  Ok (JDict (dict_update risk (queue_items v borrower ++
    [(u "price_source", JStr (u "PriceFeed.fetchPrice()")); (u "debt_ahead_musd", ahead);
     (u "redeemable_debt_ahead_musd", net); (u "principal_musd", principal); (u "interest_musd", interest);
     (u "liquidation_reserve_musd", reserve); (u "explorer_links", explorer_links v);
     (u "caveats", trove_caveats)]))).

Definition trove_algorithm (request : TroveReportRequest) (lock : pystr) : json := JDict
  [(u "schema", JStr (u "liqvera-trove-risk-algorithm/v1"));
   (u "calculation_version", JStr (u "mezo-trove-risk/v1"));
   (u "engine_commit", JStr (tq_engine_commit request)); (u "source_mode", JStr (tq_source_mode request));
   (u "created_at_ms", JInt (tq_created_at_ms request)); (u "maximum_source_age_ms", JInt 30000);
   (u "queue_limit", JInt 500); (u "display_precision", JInt 28);
   (u "display_rounding", JStr (u "ROUND_HALF_EVEN")); (u "dependency_lock_sha256", JStr lock)].

Definition reason_codes (status : pystr) : json :=
  JList (if str_eqb status (u "SIMULATED") then [JStr (u "SIMULATED_SOURCE")]
         else if str_eqb status (u "HISTORICAL_SNAPSHOT") then [JStr (u "STALE_SOURCE")] else []).

Definition passed_checks : json := JList (map (fun name =>
  JDict [(u "name", JStr (u name)); (u "result", JStr (u "PASS"))])
  ["RAW_CALL_RECALCULATION"; "CONTRACT_ICR_AGREEMENT"; "QUEUE_EVIDENCE_POLICY"]%string).

Definition trove_document (request : TroveReportRequest) (risk : json) (status source_at created_at
    algorithm_sha256 lock : pystr) : json := JDict
  [(u "schema", JStr (u "liqvera-trove-risk-report/v1"));
   (u "report_id", JStr (uuid_str (tq_report_id request)));
   (u "request", JDict [(u "product_id", JStr (u "trove_risk")); (u "borrower", JStr (tq_borrower request))]);
   (u "source", JDict [(u "source_mode", JStr (tq_source_mode request)); (u "source_at", JStr source_at);
                       (u "created_at", JStr created_at)]);
   (u "trove_risk", risk);
   (u "quality", JDict [(u "snapshot_status", JStr status); (u "limitations", trove_caveats);
                        (u "reason_codes", reason_codes status); (u "checks", passed_checks)]);
   (u "reproducibility", JDict [(u "engine_commit", JStr (tq_engine_commit request));
                                (u "algorithm_sha256", JStr algorithm_sha256);
                                (u "dependency_lock_sha256", JStr lock)]);
   (u "boundaries", JDict [(u "execution_authority", JStr (u "NONE")); (u "execution_promise", JBool false)])].

Section trove_report.
Context `{UnicodeLower} `{UnicodeNormal} `{ReportResources}.

(** The part of [build_trove_report] inside the [try]. *)
Definition verified_risk (capture : json) (request : TroveReportRequest)
  : result (trove_evidence * list (pystr * json)) :=
  v ← verify_trove_capture capture;
  borrower ← lower_method (te_borrower v);
  raise_if (negb (str_eqb borrower (str_lower (tq_borrower request)))) ValueError "Borrower differs from request" ;;
  let t := te_target v in
  let s := te_system v in
  risk ← trove_risk (tf_collateral t) (tf_principal t) (tf_interest t) (sy_price s) (sy_mcr s) (sy_ccr s)
           (sy_tcr s) (tf_status t);
  match risk with
  | JDict risk =>
    atomic ← json_item (u "icr_atomic") risk ≫= json_int;
    raise_if (negb (atomic =? tf_icr t)) ValueError "Contract ICR differs" ;;
    Ok (v, risk)
  | _ => raise TypeError "not a dict"
  end.

Definition build_trove_report (capture : json) (request : TroveReportRequest) : result BuiltReport :=
  '(v, risk) ← try_except (verified_risk capture request) [ValueError; KeyError; TypeError]
                 (fun _ => rejected "INVALID_DATASET");
  let source_ms := te_block_timestamp v * 1000 in
  reject_if (MAX_MS <? source_ms) "INVALID_DATASET" ;;
  reject_if (tq_created_at_ms request + 1000 <? source_ms) "CLOCK_SKEW" ;;
  risk ← complete_risk v (tq_borrower request) risk;
  let lock := digest runtime_dependencies in
  algorithm_bytes ← Canonical.canonical_json_bytes (trove_algorithm request lock);
  source_at ← timestamp_text source_ms;
  created_at ← timestamp_text (tq_created_at_ms request);
  let document := trove_document request risk (snapshot_status request source_ms) source_at created_at
                    (digest algorithm_bytes) lock in
  validate "trove-risk-report.schema.json" document ;;
  report_bytes ← Canonical.canonical_json_bytes document;
  capture_bytes ← Canonical.canonical_json_bytes capture;
  calls ← subscript (u "calls") capture;
  calls_bytes ← Canonical.canonical_json_bytes calls;
  let extras := [(u "mezo-troves/capture.json", capture_bytes); (u "mezo-troves/calls.json", calls_bytes)] ++
                map (fun name => (u "mezo-troves/" ++ name, packaged_abi name)) TROVE_ABIS in
  Ok (mkBuilt document report_bytes (digest report_bytes) [] algorithm_bytes runtime_dependencies extras).

(** ** The reconstruction *)

(** [UUID(value)] of any decoded value. *)
Definition uuid_of (value : json) : result uuid :=
  match value with JStr s => uuid_parse s | _ => raise AttributeError "replace" end.

Definition rebuild_trove_members (members : list (pystr * bytes)) : result BuiltReport :=
  report ← member members (u "report.json") ≫= strict_json;
  validate "trove-risk-report.schema.json" report ;;
  algorithm ← member members (u "algorithm.json") ≫= strict_json;
  report_id ← subscript (u "report_id") report ≫= uuid_of;
  asked ← subscript (u "request") report;
  borrower ← subscript (u "borrower") asked;
  engine_commit ← subscript (u "engine_commit") algorithm;
  created_at ← subscript (u "created_at_ms") algorithm;
  source_mode ← subscript (u "source_mode") algorithm;
  request ← trove_request_init report_id borrower engine_commit created_at source_mode;
  capture ← member members (u "mezo-troves/capture.json") ≫= strict_json;
  build_trove_report capture request.
End trove_report.

(** The members [evidence_bundle.build_bundle] archives, its manifest apart. *)
Definition bundle_members (built : BuiltReport) : list (pystr * bytes) :=
  dict_update
    (dict_update (map (fun m => (u "sealed-input/" ++ fst m, snd m)) (br_input_members built))
       [(u "report.json", br_report_bytes built); (u "algorithm.json", br_algorithm_bytes built);
        (u "runtime-dependencies.txt", br_dependency_bytes built)])
    (br_extra_members built).

(** ** The order of members does not matter to a verification *)

Section arranged.
Context (y : json_style).

Lemma words_arranged raw n : words_of (json_arranged y raw) n = words_of raw n.
Proof. by destruct raw. Qed.

Lemma address_arranged j : address_of (json_arranged y j) = address_of j.
Proof. by destruct j. Qed.

Definition arranged_calls (calls : results) : results :=
  map (fun kv => (fst kv, json_arranged y (snd kv))) calls.

(** *** Reads of the arranged calls *)

Definition same_reads {A} (m m' : reading A) : Prop := forall used, m used = m' used.

Lemma same_refl {A} (m : reading A) : same_reads m m.
Proof. done. Qed.

Lemma same_bind {A B} (m m' : reading A) (f f' : A -> reading B) :
  same_reads m m' -> (forall a, same_reads (f a) (f' a)) -> same_reads (m ≫= f) (m' ≫= f').
Proof.
  intros Hm Hf used. change ((m ≫= f) used) with (match m used with Ok (a, used) => f a used | Raise e => Raise e end).
  rewrite Hm. change ((m' ≫= f') used) with (match m' used with Ok (a, used) => f' a used | Raise e => Raise e end).
  destruct (m' used) as [[a u1]|e]; [apply Hf|done].
Qed.

Lemma same_mapQ {A B} (f f' : A -> reading B) l :
  (forall x, same_reads (f x) (f' x)) -> same_reads (mapQ f l) (mapQ f' l).
Proof.
  intros Hf. induction l as [|x l IH]; [done|]. apply same_bind; [apply Hf|]. intros b.
  apply same_bind; [done|]. intros bs. apply same_refl.
Qed.

Create HintDb same.
#[local] Hint Resolve same_refl : same.

Ltac same_step :=
  match goal with
  | |- same_reads (_ ≫= _) (_ ≫= _) => apply same_bind; [|intros]
  | |- same_reads (mbind _ _) (mbind _ _) => apply same_bind; [|intros]
  | |- same_reads (match ?x with _ => _ end) (match ?x with _ => _ end) => destruct x
  | |- same_reads _ _ => solve [eauto with same]
  end.
Ltac same := repeat same_step.

Context (calls : results).
Let calls' := arranged_calls calls.

Lemma same_words to selector n args :
  same_reads (read_words calls' to selector n args) (read_words calls to selector n args).
Proof.
  intros used. unfold read_words, calls', arranged_calls. rewrite (assoc_map_values (json_arranged y)).
  destruct (assoc _ calls) as [raw|]; [|done]. cbn [fmap option_fmap option_map mbind result_bind].
  by rewrite words_arranged.
Qed.
#[local] Hint Resolve same_words : same.

Lemma same_uint to selector args : same_reads (read_uint calls' to selector args) (read_uint calls to selector args).
Proof. unfold read_uint. same. Qed.
#[local] Hint Resolve same_uint : same.

Lemma same_address to selector args :
  same_reads (read_address calls' to selector args) (read_address calls to selector args).
Proof. unfold read_address. same. Qed.
#[local] Hint Resolve same_address : same.

Lemma same_trove price gas owner : same_reads (read_trove calls' price gas owner) (read_trove calls price gas owner).
Proof. unfold read_trove. same. Qed.
#[local] Hint Resolve same_trove : same.

Lemma same_system : same_reads (read_system calls') (read_system calls).
Proof. unfold read_system. same. Qed.

Lemma same_walk fuel price gas mcr owners borrower s :
  same_reads (walk_loop calls' fuel price gas mcr owners borrower s)
    (walk_loop calls fuel price gas mcr owners borrower s).
Proof.
  revert s. induction fuel as [|fuel IH]; intros s; cbn [walk_loop]; (destruct (str_eqb _ _); [done|]); [done|].
  apply same_bind; [|intros t; apply IH]. unfold walk_step. same.
Qed.
#[local] Hint Resolve same_walk : same.

Lemma same_queue sys borrower target :
  same_reads (read_queue calls' sys borrower target) (read_queue calls sys borrower target).
Proof.
  unfold read_queue. destruct (_ <? _); [done|]. apply same_bind; [apply same_mapQ; intros; same|]. intros. same.
Qed.
End arranged.

Section verification_arranged.
Context `{UnicodeLower} (y : json_style).

Lemma subscripted k k2 d x :
  json_plain (JDict d) = true -> (json_item k d ≫= subscript k2) = Ok x ->
  (json_item k (arranged_items y d) ≫= subscript k2) = Ok (json_arranged y x) /\ json_plain x = true.
Proof.
  intros Hp (z & Hz & Hx)%bind_Ok. apply (item_arranged y) in Hz as [-> Hz]; [|done]. by apply subscript_arranged.
Qed.

Lemma same_field_arranged d header key s :
  json_plain (JDict d) = true -> subscript key header = Ok (JStr s) ->
  same_field d header key = Ok tt -> json_plain header = true ->
  same_field (arranged_items y d) (json_arranged y header) key = Ok tt.
Proof.
  intros Hp Hs Hf Hh. unfold same_field in *.
  apply bind_Ok in Hf as (again & Ha & (fields & Hfields & (after & Hafter & Hf)%bind_Ok)%bind_Ok).
  apply (item_arranged y) in Ha as [-> Ha]; [|done]. cbn [mbind result_bind].
  apply (subscript_arranged y) in Hfields as [-> Hfields]; [|done]. cbn [mbind result_bind].
  apply (subscript_arranged y) in Hafter as [-> Hafter]; [|done]. cbn [mbind result_bind].
  pose proof Hs as Hs'. apply (subscript_arranged y) in Hs' as [-> _]; [|done]. rewrite Hs in Hf.
  cbn [mbind result_bind json_arranged] in *. apply trove_require_Ok, bool_decide_eq_true in Hf as ->.
  by apply trove_require_Ok, bool_decide_eq_true.
Qed.

Lemma trove_header_arranged d block hash stamp :
  json_plain (JDict d) = true -> trove_header d = Ok (block, hash, stamp) ->
  trove_header (arranged_items y d) = Ok (block, hash, stamp).
Proof.
  intros Hp Hh. unfold trove_header in Hh |- *. apply bind_Ok in Hh as (header & Hheader & Hh).
  apply subscripted in Hheader as [Hheader Hhp]; [|done]. rewrite Hheader. cbn [mbind result_bind].
  apply bind_Ok in Hh as (number & Hn & Hh). destruct number as [| | | |b| |]; try done.
  apply bind_Ok in Hh as ([] & Hb & (hash' & Hhash & ([] & Hok & Hh)%bind_Ok)%bind_Ok).
  destruct hash' as [| | | |hs| |]; try done.
  apply bind_Ok in Hh as (us & Hsame & (stamp' & Hst & (t & Ht & ([] & Hpos & [= -> <- ->])%bind_Ok)%bind_Ok)%bind_Ok).
  destruct stamp' as [| | | |ts| |]; try done.
  apply mapR_Ok in Hsame. inversion Hsame as [|? [] ? ? H1 Hsame2]; subst.
  inversion Hsame2 as [|? [] ? ? H2 Hsame3]; subst. inversion Hsame3 as [|? [] ? ? H3 Hsame4]; subst.
  rewrite (proj1 (subscript_arranged y _ _ _ Hhp Hn)). cbn [mbind result_bind json_arranged]. rewrite Hb.
  cbn [mbind result_bind]. rewrite (proj1 (subscript_arranged y _ _ _ Hhp Hhash)). cbn [mbind result_bind json_arranged].
  rewrite Hok. cbn [mbind result_bind mapR].
  rewrite (same_field_arranged d header _ _ Hp Hn H1 Hhp), (same_field_arranged d header _ _ Hp Hhash H2 Hhp),
    (same_field_arranged d header _ _ Hp Hst H3 Hhp). cbn [mbind result_bind].
  rewrite (proj1 (subscript_arranged y _ _ _ Hhp Hst)). cbn [mbind result_bind json_arranged]. rewrite Ht.
  cbn [mbind result_bind]. by rewrite Hpos.
Qed.

Lemma trove_header_hash d block hash stamp :
  trove_header d = Ok (block, hash, stamp) -> exists s, hash = JStr s /\ is_hash s = true.
Proof.
  unfold trove_header. intros (header & _ & (number & _ & Hh)%bind_Ok)%bind_Ok.
  destruct number as [| | | |b| |]; try done.
  apply bind_Ok in Hh as ([] & _ & (hash' & _ & ([] & Hok%trove_require_Ok & Hh)%bind_Ok)%bind_Ok).
  apply bind_Ok in Hh as (us & _ & (stamp' & _ & (t & _ & ([] & _ & [= _ <- _])%bind_Ok)%bind_Ok)%bind_Ok).
  destruct hash' as [| | | |hs| |]; try done. by exists hs.
Qed.

Lemma json_get_text d k s :
  json_plain (JDict d) = true -> bool_decide (json_get k (arranged_items y d) = JStr s) = bool_decide (json_get k d = JStr s).
Proof.
  intros [Hnd _]%plain_dict. unfold json_get. rewrite arranged_assoc by done.
  destruct (assoc k d) as [x|]; [|done]. cbn [fmap option_fmap option_map]. apply bool_decide_ext, text_arranged.
Qed.

Lemma present_arranged d k :
  json_plain (JDict d) = true -> isSome (assoc k (arranged_items y d)) = isSome (assoc k d).
Proof. intros [Hnd _]%plain_dict. rewrite arranged_assoc by done. by destruct (assoc k d). Qed.

Lemma accepted_arranged response v :
  json_plain response = true -> accepted_result response = Ok v ->
  accepted_result (json_arranged y response) = Ok (json_arranged y v).
Proof.
  intros Hp. destruct response as [| | | | | |d]; try done. unfold accepted_result. intros ([] & Hr & Hv)%bind_Ok.
  change (json_arranged y (JDict d)) with (JDict (arranged_items y d)). cbv iota beta.
  rewrite json_get_text, !present_arranged by done. rewrite Hr. cbn [mbind result_bind].
  by apply item_arranged.
Qed.

Lemma index_arranged block calls call calls2 :
  json_plain call = true -> index_trove_call block calls call = Ok calls2 ->
  index_trove_call block (arranged_calls y calls) (json_arranged y call) = Ok (arranged_calls y calls2).
Proof.
  intros Hp. destruct call as [| | | | | |d]; try done. unfold index_trove_call.
  change (json_arranged y (JDict d)) with (JDict (arranged_items y d)). cbv iota beta.
  rewrite keys_equal_arranged. intros ([] & Hk & (target & Ht & (data & Hd & (b & Hb & ([] & Hbl & Hc)%bind_Ok)%bind_Ok)%bind_Ok)%bind_Ok)%bind_Ok.
  rewrite Hk. cbn [mbind result_bind].
  apply bind_Ok in Ht as (to & Hto & Hta). apply (item_arranged y) in Hto as [-> _]; [|done]. cbn [mbind result_bind].
  rewrite address_arranged, Hta. cbn [mbind result_bind].
  apply bind_Ok in Hd as (dj & Hdj & Hdl). destruct dj as [| | | |ds| |]; try done.
  apply (item_arranged y) in Hdj as [-> _]; [|done]. cbn [mbind result_bind json_arranged]. rewrite Hdl.
  cbn [mbind result_bind]. pose proof Hbl as Hbe. apply trove_require_Ok, bool_decide_eq_true in Hbe as ->.
  apply (item_arranged y) in Hb as [-> _]; [|done]. cbn [mbind result_bind json_arranged]. rewrite Hbl.
  cbn [mbind result_bind]. destruct (_ ≫= _) as [arity|]; [|done].
  apply bind_Ok in Hc as ([] & Hlen & ([] & Hnew & (response & Hr & (v & Hv & [= <-])%bind_Ok)%bind_Ok)%bind_Ok).
  rewrite Hlen. cbn [mbind result_bind]. unfold arranged_calls. rewrite (assoc_map_values (json_arranged y)).
  assert (forall o : option json, isSome (json_arranged y <$> o) = isSome o) as -> by (by intros []).
  rewrite Hnew. cbn [mbind result_bind]. apply (item_arranged y) in Hr as [-> Hrp]; [|done]. cbn [mbind result_bind].
  rewrite (accepted_arranged _ _ Hrp Hv). cbn [mbind result_bind]. by rewrite map_app.
Qed.

Lemma index_all_arranged block items calls calls2 :
  forallb json_plain items = true -> foldM (index_trove_call block) calls items = Ok calls2 ->
  foldM (index_trove_call block) (arranged_calls y calls) (map (json_arranged y) items) = Ok (arranged_calls y calls2).
Proof.
  revert calls. induction items as [|x items IH]; intros calls; cbn [foldM map forallb]; [by intros _ [= <-]|].
  intros [Hx Hp]%andb_true_iff (c & Hc & Hf)%bind_Ok. rewrite (index_arranged _ _ _ _ Hx Hc). by apply IH.
Qed.

Lemma text_item_arranged d k s x :
  json_plain (JDict d) = true -> json_item k d = Ok x -> bool_decide (x = JStr s) = true ->
  json_item k (arranged_items y d) = Ok x.
Proof.
  intros Hp Hx ->%bool_decide_eq_true. by apply (item_arranged y) in Hx as [-> _].
Qed.
(** A capture verifies with its members in any order of its objects. *)
Lemma verify_arranged capture v :
  json_plain capture = true -> verify_trove_capture capture = Ok v ->
  verify_trove_capture (json_arranged y capture) = Ok v.
Proof.
  unfold verify_trove_capture. rewrite !trove_or_invalid_Ok. intros Hp. destruct capture as [| | | | | |d]; try done.
  unfold verify_troves_body. change (json_arranged y (JDict d)) with (JDict (arranged_items y d)). cbv iota beta.
  rewrite keys_equal_arranged.
  intros ([] & Hk & (schema & Hs & (source & Hso & (url & Hu & ([] & Htop & Hv)%bind_Ok)%bind_Ok)%bind_Ok)%bind_Ok)%bind_Ok.
  pose proof Htop as Htexts. apply trove_require_Ok in Htexts.
  apply andb_true_iff in Htexts as [[Hs1 Hso1]%andb_true_iff Hu1].
  rewrite Hk. cbn [mbind result_bind]. rewrite (text_item_arranged _ _ _ _ Hp Hs Hs1). cbn [mbind result_bind].
  rewrite (text_item_arranged _ _ _ _ Hp Hso Hso1). cbn [mbind result_bind].
  rewrite (text_item_arranged _ _ _ _ Hp Hu Hu1). cbn [mbind result_bind]. rewrite Htop. cbn [mbind result_bind].
  apply bind_Ok in Hv as (chain & Hch & ([] & Hchain & Hv)%bind_Ok).
  apply subscripted in Hch as [-> _]; [|done]. cbn [mbind result_bind].
  pose proof Hchain as Hct. apply trove_require_Ok, bool_decide_eq_true in Hct as ->.
  cbn [json_arranged]. rewrite Hchain. cbn [mbind result_bind].
  apply bind_Ok in Hv as (requested & Hr & (borrower & Hb & Hv)%bind_Ok).
  apply (item_arranged y) in Hr as [-> _]; [|done]. cbn [mbind result_bind]. rewrite address_arranged, Hb.
  cbn [mbind result_bind]. assert (json_arranged y requested = requested) as -> by (by destruct requested).
  apply bind_Ok in Hv as ([[block hash] stamp] & Hh & Hv). rewrite (trove_header_arranged _ _ _ _ Hp Hh).
  cbn [mbind result_bind]. apply bind_Ok in Hv as (items & Hi & Hv).
  apply (item_arranged y) in Hi as [-> Hip]; [|done]. cbn [mbind result_bind].
  destruct items as [| | | | |items|]; try done. cbn [json_arranged]. rewrite length_map.
  apply bind_Ok in Hv as ([] & Hl & (calls & Hc & Hv)%bind_Ok). rewrite Hl. cbn [mbind result_bind].
  pose proof (index_all_arranged _ _ [] _ Hip Hc) as Hc'. change (arranged_calls y []) with (@nil (call_key * json)) in Hc'.
  rewrite Hc'. cbn [mbind result_bind]. rewrite same_system.
  apply bind_Ok in Hv as ([sys u1] & Hsys & Hv). rewrite Hsys. cbn [mbind result_bind]. rewrite same_trove.
  apply bind_Ok in Hv as ([target u2] & Htgt & Hv). rewrite Htgt. cbn [mbind result_bind].
  apply bind_Ok in Hv as (number & Hn & Hv). rewrite Hn. cbn [mbind result_bind]. rewrite same_queue.
  apply bind_Ok in Hv as ([[found status] u3] & Hq & Hv). rewrite Hq. cbn [mbind result_bind].
  assert (map fst (arranged_calls y calls) = map fst calls) as -> by (unfold arranged_calls; by rewrite map_map).
  exact Hv.
Qed.

(** *** The texts of a verified capture *)
Lemma verified_texts capture v :
  verify_trove_capture capture = Ok v ->
  (exists b, te_borrower v = JStr b) /\ (exists h, te_block_hash v = JStr h /\ is_hash h = true) /\
  (exists n, py_str_int n = Ok (te_block_number v)).
Proof.
  unfold verify_trove_capture. rewrite trove_or_invalid_Ok. destruct capture as [| | | | | |d]; try done.
  unfold verify_troves_body. intros Hv. do 7 (apply bind_Ok in Hv as (? & _ & Hv)).
  apply bind_Ok in Hv as (requested & _ & (borrower & Hb & ([[block hash] stamp] & Hh & Hv)%bind_Ok)%bind_Ok).
  apply bind_Ok in Hv as (items & _ & Hv). destruct items as [| | | | |items|]; try done.
  apply bind_Ok in Hv as (_ & _ & (calls & _ & ([sys u1] & _ & ([target u2] & _ & Hv)%bind_Ok)%bind_Ok)%bind_Ok).
  apply bind_Ok in Hv as (number & (n & _ & Hn)%bind_Ok & ([[found status] u3] & _ & Hv)%bind_Ok).
  apply bind_Ok in Hv as (_ & _ & [= <-]). cbn [te_borrower te_block_hash te_block_number].
  split_and!; [destruct requested; try done; by eexists| |by exists n].
  by eapply trove_header_hash.
Qed.
End verification_arranged.

(** ** The texts of a report are printable ASCII *)

Lemma display_unit_ascii n j : display_unit n = Ok j -> ascii_document j = true.
Proof. unfold display_unit. intros (q & _ & (s & Hs & [= <-])%bind_Ok)%bind_Ok. by eapply display_ascii. Qed.

Lemma display_when_ascii b n j : display_when b n = Ok j -> ascii_document j = true.
Proof. destruct b; cbn [display_when]; [apply display_unit_ascii|by intros [= <-]]. Qed.

Lemma display_option_ascii q j : display_option q = Ok j -> ascii_document j = true.
Proof. destruct q; cbn [display_option]; [intros (s & Hs & [= <-])%bind_Ok; by eapply display_ascii|by intros [= <-]]. Qed.

Lemma musd_ascii v j : musd v = Ok j -> ascii_document j = true.
Proof. destruct v; cbn [musd]; [apply display_unit_ascii|by intros [= <-]]. Qed.

Lemma scenario_ascii coll price debt mcr status reduction j :
  trove_scenario coll price debt mcr status reduction = Ok j -> ascii_document j = true.
Proof.
  unfold trove_scenario. intros (change_ & Hc%str_int_ascii & (shown & Hs%display_unit_ascii & (icr & Hi%display_when_ascii & [= <-])%bind_Ok)%bind_Ok)%bind_Ok.
  cbn [ascii_document]. apply andb_true_iff. split; [vm_compute; reflexivity|].
  cbn [forallb fst snd ascii_document]. rewrite Hc, Hs, Hi. by repeat case_match.
Qed.

Lemma flags_ascii status icr mcr tcr ccr :
  ascii_document (JList (map JStr (trove_flags status icr mcr tcr ccr))) = true.
Proof. unfold trove_flags. by destruct (status =? 1), (icr <? mcr), (tcr <? ccr). Qed.

Lemma risk_ascii c p i price mcr ccr tcr status risk :
  trove_risk c p i price mcr ccr tcr status = Ok risk -> ascii_document risk = true.
Proof.
  unfold trove_risk. intros ([] & _ & (threshold & _ & (buffer & _ & (scenarios & Hsc & Hr)%bind_Ok)%bind_Ok)%bind_Ok)%bind_Ok.
  assert (forallb ascii_document scenarios = true) as Hs.
  { apply mapR_Ok in Hsc. rewrite forallb_forall. intros x Hx%list_elem_of_In.
    apply list_elem_of_lookup_1 in Hx as [n Hn]. destruct (Forall2_lookup_r _ _ _ _ _ Hsc Hn) as (r & _ & Hx).
    by eapply scenario_ascii. }
  do 3 (apply bind_Ok in Hr as (? & ?%display_unit_ascii & Hr)).
  apply bind_Ok in Hr as (? & ?%str_int_ascii & (? & ?%display_when_ascii & Hr)%bind_Ok).
  do 3 (apply bind_Ok in Hr as (? & ?%display_unit_ascii & Hr)).
  do 2 (apply bind_Ok in Hr as (? & ?%display_option_ascii & Hr)). injection Hr as <-.
  cbn [ascii_document]. apply andb_true_iff. split; [vm_compute; reflexivity|].
  rewrite forallb_forall. intros kv Hkv%list_elem_of_In. rewrite !elem_of_cons in Hkv.
  pose proof (flags_ascii status (icr_of c price (p + i)) mcr tcr ccr) as Hf.
  repeat (destruct Hkv as [->|Hkv]; [cbn [fst snd ascii_document]; apply andb_true_iff; split; [reflexivity|];
    try assumption; try reflexivity; try (by destruct (status =? 1))|]).
  by apply not_elem_of_nil in Hkv.
Qed.

Lemma hex_ascii s : is_hex s = true -> ascii_text s = true.
Proof.
  assert (forall c, any_hex c = true -> (32 <=? c) && (c <=? 126) = true) as Hc.
  { intros c. unfold any_hex, hex_digit. repeat case_match; try done; reflect_bools; intros _;
      rewrite !(proj2 (Z.leb_le _ _)) by lia; done. }
  assert (forall c t, any_hex c && forallb any_hex t = true -> ascii_text (48 :: 120 :: c :: t) = true) as Hall.
  { intros c t [Hfirst Hrest]%andb_true_iff. unfold ascii_text. rewrite forallb_forall in *.
    intros x [<-|[<-|[<-|Hx]]]; [done|done|by apply Hc|by apply Hc, Hrest]. }
  unfold is_hex, hex_text. intros Hs. repeat (case_match; try done). subst. by apply Hall.
Qed.

Lemma hash_ascii s : is_hash s = true -> ascii_text s = true.
Proof. intros [Hs _]%andb_true_iff. by apply hex_ascii. Qed.

Lemma address_ascii s : is_address s = true -> ascii_text s = true.
Proof. intros [Hs _]%andb_true_iff. by apply hex_ascii. Qed.

Lemma commit_ascii s : is_commit s = true -> ascii_text s = true.
Proof.
  unfold is_commit. intros [Hs _]%andb_true_iff. apply lower_hex_ascii, Forall_forall. rewrite forallb_forall in Hs.
  intros c Hc%list_elem_of_In. by apply lower_hex_spec, Hs.
Qed.

(** A request its constructor accepts. *)
Definition request_ok (request : TroveReportRequest) : Prop :=
  uuid_range (tq_report_id request) /\
  trove_request_init (tq_report_id request) (JStr (tq_borrower request)) (JStr (tq_engine_commit request))
    (JInt (tq_created_at_ms request)) (JStr (tq_source_mode request)) = Ok request.

Lemma request_texts request : request_ok request ->
  ascii_text (uuid_str (tq_report_id request)) = true /\ ascii_text (tq_borrower request) = true /\
  ascii_text (tq_engine_commit request) = true /\ ascii_text (tq_source_mode request) = true /\
  0 <= tq_created_at_ms request <= MAX_MS.
Proof.
  intros [Hid Hr]. unfold trove_request_init in Hr. apply bind_Ok in Hr as ([] & Hr%raise_if_Ok & _).
  rewrite !orb_false_iff, !negb_false_iff in Hr. destruct Hr as ((((Hb & _) & Hc) & Ht) & Hm).
  apply andb_true_iff in Ht as [Ht1%Z.leb_le Ht2%Z.leb_le].
  split_and!; [by apply uuid_ascii|by apply address_ascii|by apply commit_ascii| |lia..].
  apply orb_true_iff in Hm as [Hm|Hm]; apply str_eqb_spec in Hm; by rewrite Hm.
Qed.

Lemma complete_risk_ascii `{UnicodeLower} capture v borrower risk j :
  verify_trove_capture capture = Ok v -> ascii_text borrower = true -> ascii_document (JDict risk) = true ->
  complete_risk v borrower risk = Ok j -> ascii_document j = true.
Proof.
  intros (_ & (h & Hh & Hhash%hash_ascii) & (n & Hn%str_int_ascii))%verified_texts Hb Hr Hj.
  unfold complete_risk in Hj. do 5 (apply bind_Ok in Hj as (? & ?%musd_ascii & Hj)).
  match type of Hj with Ok ?x = Ok _ => assert (j = x) as -> by congruence end.
  apply dict_update_ascii; [done|]. rewrite forallb_forall. intros kv Hkv%list_elem_of_In.
  unfold queue_items in Hkv. rewrite Hh in Hkv. cbn [app] in Hkv. rewrite !elem_of_cons in Hkv.
  assert (ascii_document (explorer_links v) = true) as Hlinks.
  { unfold explorer_links. cbn [ascii_document]. apply andb_true_iff. split; [vm_compute; reflexivity|].
    cbn [forallb fst snd ascii_document]. rewrite (ascii_app EXPLORER_ROOT); [reflexivity|reflexivity|].
    by apply (ascii_app (u "/block/")). }
  repeat (destruct Hkv as [->|Hkv]; [cbn [fst snd ascii_document]; apply andb_true_iff; split; [reflexivity|];
    try assumption; try reflexivity; try (by destruct (te_place v)); try (by destruct (te_queue_status v))|]).
  by apply not_elem_of_nil in Hkv.
Qed.

Lemma document_ascii request risk status source_at created_at sha lock :
  request_ok request -> ascii_document risk = true -> ascii_text status = true -> ascii_text source_at = true ->
  ascii_text created_at = true -> ascii_text sha = true -> ascii_text lock = true ->
  ascii_document (trove_document request risk status source_at created_at sha lock) = true.
Proof.
  intros (Hid & Hb & Hc & Hm & _)%request_texts Hr Hst Hs Hcr Hsha Hl.
  unfold trove_document. cbn [ascii_document]. apply andb_true_iff. split; [vm_compute; reflexivity|].
  assert (ascii_document (reason_codes status) = true) as Hreasons
    by (unfold reason_codes; by repeat case_match).
  cbn [forallb fst snd ascii_document]. rewrite Hid, Hb, Hc, Hm, Hr, Hst, Hs, Hcr, Hsha, Hl, Hreasons.
  vm_compute. reflexivity.
Qed.

Lemma algorithm_ascii request lock :
  request_ok request -> ascii_text lock = true -> ascii_document (trove_algorithm request lock) = true.
Proof.
  intros (_ & _ & Hc & Hm & _)%request_texts Hl.
  unfold trove_algorithm. cbn [ascii_document]. apply andb_true_iff. split; [vm_compute; reflexivity|].
  cbn [forallb fst snd ascii_document]. rewrite Hc, Hm, Hl. vm_compute. reflexivity.
Qed.

Lemma status_ascii request source_ms : ascii_text (snapshot_status request source_ms) = true.
Proof. unfold snapshot_status. by repeat case_match. Qed.

Section rebuild.
Context `{UnicodeLower} `{UnicodeNormal} `{ReportResources}.

(** Normal form C leaves ASCII as it is. *)
Context (Hnfc : forall s, Forall printable s -> nfc s = s).

(** Validation does not depend on the order of the members of an object. *)
Context (Hvalidate : forall name d, json_plain d = true -> validate name (json_arranged unicode_style d) = validate name d).

Lemma verified_risk_arranged capture request v risk :
  json_plain capture = true -> verified_risk capture request = Ok (v, risk) ->
  verified_risk (json_arranged unicode_style capture) request = Ok (v, risk) /\
  verify_trove_capture capture = Ok v /\ ascii_document (JDict risk) = true.
Proof.
  intros Hp. unfold verified_risk. intros (v' & Hv & Hr)%bind_Ok.
  rewrite (verify_arranged unicode_style _ _ Hp Hv). cbn [mbind result_bind].
  pose proof Hr as Hr'. apply bind_Ok in Hr' as (b & _ & ([] & _ & (risk' & Hrisk & Hr')%bind_Ok)%bind_Ok).
  destruct risk' as [| | | | | |d]; try done. apply bind_Ok in Hr' as (a & _ & ([] & _ & [= <- <-])%bind_Ok).
  split; [exact Hr|]. split; [done|]. by eapply risk_ascii.
Qed.

(** What the members of a built report hold. *)
Record built_members (capture : json) (request : TroveReportRequest) (built : BuiltReport) : Prop := {
  bm_ascii : ascii_document (br_document built) = true;
  bm_valid : validate "trove-risk-report.schema.json" (br_document built) = Ok tt;
  bm_id : subscript (u "report_id") (br_document built) = Ok (JStr (uuid_str (tq_report_id request)));
  bm_request : subscript (u "request") (br_document built) =
    Ok (JDict [(u "product_id", JStr (u "trove_risk")); (u "borrower", JStr (tq_borrower request))]);
  bm_report : exists raw, assoc (u "report.json") (bundle_members built) = Some raw /\
    Canonical.canonical_json_bytes (br_document built) = Ok raw;
  bm_algorithm : exists raw, assoc (u "algorithm.json") (bundle_members built) = Some raw /\
    Canonical.canonical_json_bytes (trove_algorithm request (digest runtime_dependencies)) = Ok raw;
  bm_capture : exists raw, assoc (u "mezo-troves/capture.json") (bundle_members built) = Some raw /\
    Canonical.canonical_json_bytes capture = Ok raw }.

Lemma build_trove_report_Ok capture request built :
  json_plain capture = true -> request_ok request -> build_trove_report capture request = Ok built ->
  build_trove_report (json_arranged unicode_style capture) request = Ok built /\ built_members capture request built.
Proof.
  intros Hp Hreq Hb. unfold build_trove_report in Hb |- *. apply bind_Ok in Hb as ([v risk] & Hrisk & Hb).
  apply try_except_Ok in Hrisk as [Hrisk|(e & _ & He)]; [|done].
  apply verified_risk_arranged in Hrisk as (Hrisk & Hv & Ha); [|done]. rewrite Hrisk. cbn [try_except mbind result_bind].
  pose proof (request_texts request Hreq) as (_ & Hborrower & _).
  apply bind_Ok in Hb as ([] & Hb1 & ([] & Hb2 & (full & Hfull & Hb)%bind_Ok)%bind_Ok).
  rewrite Hb1. cbn [mbind result_bind]. rewrite Hb2. cbn [mbind result_bind]. rewrite Hfull. cbn [mbind result_bind].
  pose proof (complete_risk_ascii _ _ _ _ _ Hv Hborrower Ha Hfull) as Hfa.
  apply bind_Ok in Hb as (algorithm & Halg & (source_at & Hsource & (created_at & Hcreated & Hb)%bind_Ok)%bind_Ok).
  rewrite Halg. cbn [mbind result_bind]. rewrite Hsource. cbn [mbind result_bind]. rewrite Hcreated. cbn [mbind result_bind].
  set (document := trove_document _ _ _ _ _ _ _) in *.
  apply bind_Ok in Hb as ([] & Hval & (report & Hreport & (raw & Hraw & Hb)%bind_Ok)%bind_Ok).
  rewrite Hval. cbn [mbind result_bind]. rewrite Hreport. cbn [mbind result_bind].
  rewrite (canonical_arranged _ _ Hraw). cbn [mbind result_bind].
  apply bind_Ok in Hb as (calls & Hcalls & (craw & Hcraw & Hb)%bind_Ok).
  rewrite (proj1 (subscript_arranged unicode_style _ _ _ Hp Hcalls)). cbn [mbind result_bind].
  rewrite (canonical_arranged _ _ Hcraw). cbn [mbind result_bind]. split; [exact Hb|].
  injection Hb as <-. split; cbn [br_document].
  - apply document_ascii; auto using status_ascii, digest_ascii; by eapply timestamp_ascii.
  - done.
  - done.
  - done.
  - by exists report.
  - by exists algorithm.
  - by exists raw.
Qed.

(** The members of its bundle, in the order they are put together. *)
Lemma trove_bundle_members capture request built :
  build_trove_report capture request = Ok built ->
  exists algorithm raw calls,
    bundle_members built =
      [(u "report.json", br_report_bytes built); (u "algorithm.json", br_algorithm_bytes built);
       (u "runtime-dependencies.txt", br_dependency_bytes built);
       (u "mezo-troves/capture.json", raw); (u "mezo-troves/calls.json", calls)] ++
      map (fun name => (u "mezo-troves/" ++ name, packaged_abi name)) TROVE_ABIS /\
    Canonical.canonical_json_bytes algorithm = Ok (br_algorithm_bytes built) /\
    br_dependency_bytes built = runtime_dependencies /\
    Canonical.canonical_json_bytes (br_document built) = Ok (br_report_bytes built) /\
    (exists j, Canonical.canonical_json_bytes j = Ok raw) /\ (exists j, Canonical.canonical_json_bytes j = Ok calls) /\
    (exists d, br_document built = JDict d /\ json_get (u "schema") d = JStr (u "liqvera-trove-risk-report/v1")).
Proof.
  unfold build_trove_report. intros ([v risk] & _ & ([] & _ & ([] & _ & (full & _ & Hb)%bind_Ok)%bind_Ok)%bind_Ok)%bind_Ok.
  apply bind_Ok in Hb as (algorithm & Halg & (source_at & _ & (created_at & _ & Hb)%bind_Ok)%bind_Ok).
  set (document := trove_document _ _ _ _ _ _ _) in *.
  apply bind_Ok in Hb as ([] & _ & (report & Hreport & (raw & Hraw & Hb)%bind_Ok)%bind_Ok).
  apply bind_Ok in Hb as (calls & _ & (craw & Hcraw & [= <-])%bind_Ok).
  exists (trove_algorithm request (digest runtime_dependencies)), raw, craw. cbn [br_report_bytes br_algorithm_bytes br_dependency_bytes br_document].
  split_and!; [reflexivity|done|done|done|by eexists|by eexists|].
  eexists. split; [reflexivity|]. reflexivity.
Qed.

(** Reading the request back. *)
Lemma rebuilt_request request doc alg :
  request_ok request -> ascii_document doc = true ->
  subscript (u "report_id") doc = Ok (JStr (uuid_str (tq_report_id request))) ->
  subscript (u "request") doc =
    Ok (JDict [(u "product_id", JStr (u "trove_risk")); (u "borrower", JStr (tq_borrower request))]) ->
  ascii_document (trove_algorithm request alg) = true ->
  let report := json_arranged unicode_style doc in
  let algorithm := json_arranged unicode_style (trove_algorithm request alg) in
  (id ← subscript (u "report_id") report ≫= uuid_of;
   asked ← subscript (u "request") report;
   borrower ← subscript (u "borrower") asked;
   engine_commit ← subscript (u "engine_commit") algorithm;
   created_at ← subscript (u "created_at_ms") algorithm;
   source_mode ← subscript (u "source_mode") algorithm;
   trove_request_init id borrower engine_commit created_at source_mode) = Ok request.
Proof.
  intros Hreq Hdoc%ascii_plain Hid Hrq Halg%ascii_plain report algorithm.
  pose proof Hreq as [Hrange Hinit].
  unfold report. rewrite (proj1 (subscript_arranged unicode_style _ _ _ Hdoc Hid)).
  cbn [mbind result_bind json_arranged uuid_of]. rewrite uuid_parse_text by done. cbn [mbind result_bind].
  destruct (subscript_arranged unicode_style _ _ _ Hdoc Hrq) as [-> Hrp]. cbn [mbind result_bind].
  rewrite (proj1 (subscript_arranged unicode_style (u "borrower") _ (JStr (tq_borrower request)) Hrp eq_refl)).
  cbn [mbind result_bind]. unfold algorithm.
  rewrite (proj1 (subscript_arranged unicode_style (u "engine_commit") _ (JStr (tq_engine_commit request)) Halg eq_refl)).
  cbn [mbind result_bind].
  rewrite (proj1 (subscript_arranged unicode_style (u "created_at_ms") _ (JInt (tq_created_at_ms request)) Halg eq_refl)).
  cbn [mbind result_bind].
  rewrite (proj1 (subscript_arranged unicode_style (u "source_mode") _ (JStr (tq_source_mode request)) Halg eq_refl)).
  exact Hinit.
Qed.

(** From the members a bundle holds of a built report, its own bytes, its algorithm
    and the raw capture, exactly that report is built again, down to every byte. *)
Lemma trove_report_rebuilds capture request built :
  json_plain capture = true -> require_strings capture = Ok tt -> request_ok request ->
  build_trove_report capture request = Ok built ->
  rebuild_trove_members (bundle_members built) = Ok built.
Proof.
  intros Hp Hs Hreq Hb. destruct (build_trove_report_Ok _ _ _ Hp Hreq Hb) as [Hagain Hm]. destruct Hm.
  destruct bm_report0 as (report & Hr & Hrb), bm_algorithm0 as (algorithm & Ha & Hab), bm_capture0 as (raw & Hc & Hcb).
  pose proof (algorithm_ascii request (digest runtime_dependencies) Hreq (digest_ascii _)) as Halg.
  unfold rebuild_trove_members, member. rewrite Hr, Ha, Hc. cbn [mbind result_bind].
  rewrite (strict_ascii Hnfc _ _ bm_ascii0 Hrb). cbn [mbind result_bind].
  rewrite Hvalidate, bm_valid0 by by apply ascii_plain. cbn [mbind result_bind].
  rewrite (strict_ascii Hnfc _ _ Halg Hab). cbn [mbind result_bind].
  rewrite (strict_json_canonical _ _ Hp Hs Hcb). cbn [mbind result_bind].
  pose proof (rebuilt_request request _ _ Hreq bm_ascii0 bm_id0 bm_request0 Halg) as Hq. cbv zeta in Hq.
  repeat (apply bind_Ok in Hq as (? & -> & Hq); cbn [mbind result_bind]). rewrite Hq. exact Hagain.
Qed.
End rebuild.

(** ** The figures of a verified capture *)

Section figures.
Context (calls : results).

Definition word (z : Z) : Prop := 0 <= z <= MAXIMUM.

Lemma read_words_range to selector n args used ws used' :
  read_words calls to selector n args used = Ok (ws, used') -> Forall word ws.
Proof.
  unfold read_words. intros (raw & _ & (v & Hv & [= -> _])%bind_Ok)%bind_Ok. apply words_of_range in Hv.
  eapply Forall_impl; [exact Hv|]. intros w Hw. unfold word, MAXIMUM. cbn in Hw. lia.
Qed.

Lemma read_uint_range to selector args used w used' :
  read_uint calls to selector args used = Ok (w, used') -> word w.
Proof.
  unfold read_uint. intros (ws & u1 & Hws%read_words_range & [Hw _]%checked_Ok)%read_bind_Ok.
  destruct ws; [done|]. injection Hw as <-. by apply Forall_inv in Hws.
Qed.

Lemma read_trove_range price gas owner f :
  says (read_trove calls price gas owner) f -> word (tf_collateral f) /\ word (tf_principal f) /\ word (tf_interest f).
Proof.
  intros (used & used' & Hread). unfold read_trove in Hread. apply read_bind_Ok in Hread as (ws & u1 & Hws%read_words_range & H1).
  destruct ws as [|coll [|principal [|interest [|pc [|pp [|pi [|]]]]]]]; try (by apply checked_Ok in H1 as [? _]).
  rewrite !Forall_cons in Hws. inv_reads. cbn [tf_collateral tf_principal tf_interest]. tauto.
Qed.

Lemma read_system_range s :
  says (read_system calls) s ->
  word (sy_price s) /\ word (sy_ccr s) /\ word (sy_tcr s) /\ 0 < sy_price s /\ 0 < sy_mcr s <= sy_ccr s /\ 0 < sy_gas s.
Proof.
  intros (used & used' & Hread). unfold read_system in Hread.
  apply read_bind_Ok in Hread as (price & u1 & Hprice%read_uint_range & (precision & u2 & _ & Hr)%read_bind_Ok).
  apply read_bind_Ok in Hr as (mcr & u3 & _ & (ccr & u4 & Hccr%read_uint_range & Hr)%read_bind_Ok).
  apply read_bind_Ok in Hr as (gas & u5 & _ & ([] & u6 & [Hpos%trove_require_Ok _]%checked_Ok & Hr)%read_bind_Ok).
  apply read_bind_Ok in Hr as (debt & u7 & _ & (coll & u8 & _ & (tcr & u9 & Htcr%read_uint_range & Hr)%read_bind_Ok)%read_bind_Ok).
  clear -Hr Hprice Hccr Htcr Hpos. inv_reads. reflect_bools.
  cbn [sy_price sy_ccr sy_tcr sy_mcr sy_gas]. split_and!; done || lia.
Qed.
End figures.

Lemma checked_icr_Ok collateral debt price icr :
  checked_icr collateral debt price = Ok icr ->
  debt <= MAXIMUM /\ icr = icr_of collateral price debt /\ (debt = 0 \/ collateral * price <= MAXIMUM).
Proof.
  unfold checked_icr, icr_of. intros ([] & Hd%trove_require_Ok%Z.leb_le & Hi)%bind_Ok.
  destruct (debt =? 0) eqn:E; cbn [negb]; [injection Hi as <-; reflect_bools; auto|].
  apply bind_Ok in Hi as ([] & Hp%trove_require_Ok%Z.leb_le & [= <-]). auto.
Qed.

Lemma trove_inputs_intro c p i price mcr ccr tcr status :
  0 <= c <= MAXIMUM -> 0 <= p <= MAXIMUM -> 0 <= i <= MAXIMUM -> 0 < price <= MAXIMUM -> 0 < mcr <= ccr ->
  ccr <= MAXIMUM -> 0 <= tcr <= MAXIMUM -> 0 <= status <= 4 -> p + i <= MAXIMUM -> (status = 1 -> 0 < p + i) ->
  (p + i = 0 \/ c * price <= MAXIMUM) ->
  trove_inputs c p i price mcr ccr tcr status = Ok tt.
Proof.
  intros. assert (4 <= MAXIMUM) by (by apply Z.leb_le). unfold trove_inputs.
  match goal with |- context [raise_if ?b ValueError _ ≫= _] => assert (b = false) as -> end.
  { cbn [existsb]. rewrite !orb_false_iff, !negb_false_iff, !andb_true_iff, !Z.leb_le, !Z.eqb_neq, !Z.ltb_ge, Z.ltb_lt.
    split_and!; done || lia. }
  cbn [raise_if mbind result_bind]. apply raise_if_Ok. apply orb_false_iff.
  rewrite !andb_false_iff, !Z.eqb_neq, !Z.ltb_ge. lia.
Qed.

(** The ratio in the figures is the text of the computed one. *)
Lemma risk_ratio c p i price mcr ccr tcr status risk :
  trove_risk c p i price mcr ccr tcr status = Ok (JDict risk) ->
  json_item (u "icr_atomic") risk = Ok (JStr (str_of_Z (icr_of c price (p + i)))).
Proof.
  unfold trove_risk. intros ([] & _ & (threshold & _ & (buffer & _ & (scenarios & _ & Hr)%bind_Ok)%bind_Ok)%bind_Ok)%bind_Ok.
  do 3 (apply bind_Ok in Hr as (? & _ & Hr)). apply bind_Ok in Hr as (atomic & Ha & (? & _ & Hr)%bind_Ok).
  do 3 (apply bind_Ok in Hr as (? & _ & Hr)). do 2 (apply bind_Ok in Hr as (? & _ & Hr)). injection Hr as <-.
  unfold py_str_int in Ha. apply bind_Ok in Ha as ([] & _ & [= <-]). reflexivity.
Qed.

(** The guards of [trove_risk] hold of every verified capture, and the ratio it
    computes is the one the contract reported. *)
Lemma verified_figures `{UnicodeLower} capture v :
  verify_trove_capture capture = Ok v ->
  let t := te_target v in let s := te_system v in
  trove_inputs (tf_collateral t) (tf_principal t) (tf_interest t) (sy_price s) (sy_mcr s) (sy_ccr s) (sy_tcr s)
    (tf_status t) = Ok tt /\
  icr_of (tf_collateral t) (sy_price s) (tf_principal t + tf_interest t) = tf_icr t /\ word (tf_icr t).
Proof.
  intros (calls & _ & Hs)%verify_troves_Ok t s. destruct Hs as [Hsys (borrower & _ & Htrove & _) Hsound _].
  apply read_system_range in Hsys as (Hprice & Hccr & Htcr & Hppos & Hmcr & Hgpos).
  pose proof (read_trove_range _ _ _ _ _ Htrove) as (Hc & Hp & Hi).
  destruct Hsound as (Hdebt & Hicr & Hstatus & Hgas). rewrite Hdebt in Hicr, Hgas.
  apply checked_icr_Ok in Hicr as (Hmax & Hval & Hprod). unfold word in *. subst t s. rewrite <- Hval.
  split; [|split; [done|]].
  - apply trove_inputs_intro; lia.
  - rewrite Hval. unfold icr_of. destruct (_ =? 0) eqn:E; cbn [negb]; [unfold MAXIMUM, WORD; lia|]. reflect_bools.
    assert (0 <= tf_collateral (te_target v) * sy_price (te_system v)) by nia.
    split; [apply Z.div_pos; lia|]. transitivity (tf_collateral (te_target v) * sy_price (te_system v)); [|lia].
    apply Z.div_le_upper_bound; nia.
Qed.

(** What the report takes from a capture is what verifies, for the requested
    borrower: the guards of the calculation accept every verified capture, and its own
    ratio always agrees with the one the contract reported. *)
Theorem verified_risk_spec `{UnicodeLower} capture request v risk :
  verified_risk capture request = Ok (v, risk) <->
  verify_trove_capture capture = Ok v /\
  lower_method (te_borrower v) = Ok (str_lower (tq_borrower request)) /\
  let t := te_target v in let s := te_system v in
  trove_inputs (tf_collateral t) (tf_principal t) (tf_interest t) (sy_price s) (sy_mcr s) (sy_ccr s) (sy_tcr s)
    (tf_status t) = Ok tt /\
  icr_of (tf_collateral t) (sy_price s) (tf_principal t + tf_interest t) = tf_icr t /\
  trove_risk (tf_collateral t) (tf_principal t) (tf_interest t) (sy_price s) (sy_mcr s) (sy_ccr s) (sy_tcr s)
    (tf_status t) = Ok (JDict risk).
Proof.
  unfold verified_risk. split.
  - intros (v' & Hv & (borrower & Hb & ([] & Hsame & (risk' & Hrisk & Hr)%bind_Ok)%bind_Ok)%bind_Ok)%bind_Ok.
    destruct risk' as [| | | | | |d]; try done. apply bind_Ok in Hr as (a & _ & ([] & _ & [= -> ->])%bind_Ok).
    destruct (verified_figures _ _ Hv) as (Hin & Hicr & _). apply raise_if_Ok, negb_false_iff, str_eqb_spec in Hsame as ->.
    by cbv zeta.
  - cbv zeta. intros (Hv & Hb & _ & Hicr & Hrisk). rewrite Hv. cbn [mbind result_bind]. rewrite Hb. cbn [mbind result_bind].
    rewrite str_eqb_refl. cbn [negb raise_if mbind result_bind]. rewrite Hrisk. cbn [mbind result_bind].
    destruct (verified_figures _ _ Hv) as (_ & _ & Hword). unfold word, MAXIMUM in Hword.
    rewrite (risk_ratio _ _ _ _ _ _ _ _ _ Hrisk), Hicr. cbn [mbind result_bind json_int].
    unfold str_of_Z. rewrite (proj2 (Z.ltb_ge _ 0)) by lia.
    rewrite (py_int_str_of_nonneg _ 77); [|split; [lia|]; apply Z.lt_le_trans with WORD; [lia|by apply Z.leb_le]|
      apply Nat.leb_le; vm_compute; reflexivity].
    cbn [mbind result_bind]. by rewrite Z.eqb_refl.
Qed.

(** ** A validator and a request for the demonstration capture *)

Definition demo_normal : UnicodeNormal := fun s => s.

(** A schema that asks for the member "schema". *)
Definition demo_resources : ReportResources := {|
  validate := fun _ d =>
    match d with
    | JDict d => reject_if (negb (isSome (assoc (u "schema") d))) "INVALID_DATASET"
    | _ => rejected "INVALID_DATASET"
    end;
  runtime_dependencies := u "jsonschema==4.23.0";
  packaged_abi := fun name => u "[]" |}.

Definition demo_request : TroveReportRequest :=
  mkTroveRequest 24197857161011715162171839636988778104 (address_text 2) (repeat 97 40) 1700000257000 (u "live-public").

Lemma demo_validate name d : json_plain d = true ->
  @validate demo_resources name (json_arranged unicode_style d) = @validate demo_resources name d.
Proof.
  destruct d as [| | | | | |d]; intros Hd; try reflexivity.
  cbn [validate demo_resources]. change (json_arranged unicode_style (JDict d)) with (JDict (arranged_items unicode_style d)).
  cbv iota beta. rewrite (present_arranged unicode_style) by exact Hd. reflexivity.
Qed.
