(* ===== verification/FrozenPackage.v ===== *)
(** * [liqvera_readonly_analyzer.frozen_package]: the fail-closed package reader

    [codec], [types] and [reader], over a model of the directory the package
    lives in: files, directories, symbolic links and other nodes, read but never
    changed.  Proved here: a reader is constructed only for a package without
    links whose regular files are exactly the declared members and the manifest,
    and whose bytes hash to the declared digests. *)

From S2P Require Import Prelude PyStr Num PyObj Json Bytes Market Provenance Decision Evidence.
Open Scope Z_scope.

(** ** Error codes *)

Definition PACKAGE_SCHEMA : pystr := u "liqvera-readonly-frozen-package/v1".

Inductive FrozenPackageErrorCode :=
  | INVALID_ARGUMENT | MANIFEST_MISSING | MANIFEST_NON_CANONICAL | MANIFEST_HASH_INVALID
  | MANIFEST_HASH_MISMATCH | UNSUPPORTED_VERSION | MEMBER_SET_MISMATCH | MEMBER_HASH_MISMATCH
  | MEMBER_HASH_INVALID | SYMLINK_FORBIDDEN | PATH_INVALID | RECORD_INVALID | RUN_MISMATCH.

#[global] Instance FrozenPackageErrorCode_eq_dec : EqDecision FrozenPackageErrorCode.
Proof. solve_decision. Defined.

Definition error_code_value (c : FrozenPackageErrorCode) : string :=
  match c with
  | INVALID_ARGUMENT => "INVALID_ARGUMENT"
  | MANIFEST_MISSING => "MANIFEST_MISSING"
  | MANIFEST_NON_CANONICAL => "MANIFEST_NON_CANONICAL"
  | MANIFEST_HASH_INVALID => "MANIFEST_HASH_INVALID"
  | MANIFEST_HASH_MISMATCH => "MANIFEST_HASH_MISMATCH"
  | UNSUPPORTED_VERSION => "UNSUPPORTED_VERSION"
  | MEMBER_SET_MISMATCH => "MEMBER_SET_MISMATCH"
  | MEMBER_HASH_MISMATCH => "MEMBER_HASH_MISMATCH"
  | MEMBER_HASH_INVALID => "MEMBER_HASH_INVALID"
  | SYMLINK_FORBIDDEN => "SYMLINK_FORBIDDEN"
  | PATH_INVALID => "PATH_INVALID"
  | RECORD_INVALID => "RECORD_INVALID"
  | RUN_MISMATCH => "RUN_MISMATCH"
  end.

(** [raise FrozenPackageError(code)] *)
Definition frozen_error {A} (c : FrozenPackageErrorCode) : result A :=
  raise FrozenPackageError (error_code_value c).

Definition frozen_if (b : bool) (c : FrozenPackageErrorCode) : result unit :=
  raise_if b FrozenPackageError (error_code_value c).

Definition all_error_codes : list FrozenPackageErrorCode :=
  [INVALID_ARGUMENT; MANIFEST_MISSING; MANIFEST_NON_CANONICAL; MANIFEST_HASH_INVALID;
   MANIFEST_HASH_MISMATCH; UNSUPPORTED_VERSION; MEMBER_SET_MISMATCH; MEMBER_HASH_MISMATCH;
   MEMBER_HASH_INVALID; SYMLINK_FORBIDDEN; PATH_INVALID; RECORD_INVALID; RUN_MISMATCH].

(** [error.code], which the exception carries as its message. *)
Definition error_code (e : exn) : result FrozenPackageErrorCode :=
  expect (List.find (fun c => String.eqb (error_code_value c) (exn_msg e)) all_error_codes)
    AttributeError "code".

(** ** The directory *)

(** A symbolic link carries the node it leads to, if there is one. *)
Inductive node :=
  | File (content : bytes)
  | Directory (entries : list (pystr * node))
  | Symlink (target : option node)
  | Special.

Abbreviation directory := (list (pystr * node)).

(** The node a path operation that follows links sees. *)
Fixpoint follow (n : node) : option node :=
  match n with
  | Symlink (Some t) => follow t
  | Symlink None => None
  | _ => Some n
  end.

Definition is_symlink (n : node) : bool := match n with Symlink _ => true | _ => false end.
Definition is_directory (n : node) : bool :=
  match follow n with Some (Directory _) => true | _ => false end.
Definition is_file (n : node) : bool :=
  match follow n with Some (File _) => true | _ => false end.

(** The node of a relative path, through directories only. *)
Fixpoint lookup_parts (parts : list pystr) (d : directory) : option node :=
  match parts with
  | [] => None
  | [p] => assoc p d
  | p :: parts =>
    match assoc p d with Some (Directory d) => lookup_parts parts d | _ => None end
  end.

Definition lookup_path (path : pystr) (d : directory) : option node :=
  lookup_parts (str_split 47 path) d.

(** [(root / path).read_bytes()] *)
Definition read_bytes (path : pystr) (d : directory) : result bytes :=
  match lookup_path path d ≫= follow with
  | Some (File b) => Ok b
  | _ => raise OSError "cannot read"
  end.

(** [sorted(root.rglob("*"))] as relative paths: every entry before its own
    entries, siblings in the order of their names. *)
Fixpoint walk (n : node) : list (pystr * node) :=
  match n with
  | Directory d =>
    concat (map snd (sort_items (map (fun e =>
      (fst e, (fst e, snd e) :: map (fun x => (fst e ++ [47] ++ fst x, snd x)) (walk (snd e)))) d)))
  | _ => []
  end.

(** ** [codec] *)

Definition decode_canonical_json (payload : bytes) : result json :=
  frozen_if (negb (ends_with_newline payload)) MANIFEST_NON_CANONICAL ;;
  try_except (text ← decode_ascii payload; json_loads text)
    [UnicodeDecodeError; JSONDecodeError]
    (fun _ => frozen_error MANIFEST_NON_CANONICAL).

(** [PurePosixPath(path).as_posix()]: empty and "." components go, two leading
    slashes stay two. *)
Definition posix_parts (path : pystr) : list pystr :=
  List.filter (fun p => negb (str_eqb p []) && negb (str_eqb p (u "."))) (str_split 47 path).

Definition posix_root (path : pystr) : pystr :=
  if str_startswith (u "///") path then u "/"
  else if str_startswith (u "//") path then u "//"
  else if str_startswith (u "/") path then u "/" else [].

Definition as_posix (path : pystr) : pystr :=
  match posix_root path ++ str_join (u "/") (posix_parts path) with
  | [] => u "."
  | s => s
  end.

Definition require_relative_member (path : pystr) : result unit :=
  frozen_if (str_eqb path [] || negb (str_eqb (posix_root path) []) ||
             bool_decide (u ".." ∈ posix_parts path) || negb (str_eqb (as_posix path) path) ||
             match rev path with 47 :: _ => true | _ => false end) PATH_INVALID.

(** [scan_regular_files]; the returned set is the list of the files' paths. *)
Definition scan_item (found : list pystr) (item : pystr * node) : result (list pystr) :=
  let '(relative, n) := item in
  if is_symlink n then frozen_error SYMLINK_FORBIDDEN
  else if is_directory n then Ok found
  else if negb (is_file n) then frozen_error PATH_INVALID
  else Ok (found ++ [relative]).

Definition scan_regular_files (d : directory) : result (list pystr) :=
  foldM scan_item [] (walk (Directory d)).

(** ** The reader *)

Definition REQUIRED_MEMBERS : list pystr :=
  [u "control_evidence/records.ndjson"; u "raw_batches/0.bin"; u "raw_envelopes/records.ndjson";
   u "quality_minutes/records.ndjson"; u "mapping_snapshot.json"; u "terminal.json"].

Record reader := mkReader {
  rd_root : directory; rd_run_id : uuid; rd_document : list (pystr * json);
  rd_declared : list (pystr * pystr) }.

(** One turn of the loop over [members]. *)
Definition declare_member (declared : list (pystr * pystr)) (item : json)
  : result (list (pystr * pystr)) :=
  match item with
  | JDict d =>
    match json_get (u "path") d, json_get (u "sha256") d with
    | JStr path, JStr digest =>
      require_relative_member path ;;
      frozen_if (str_eqb path (u "manifest.json") || isSome (assoc path declared)) MEMBER_SET_MISMATCH ;;
      frozen_if (negb (length digest =? 64)%nat || existsb (fun c => negb (lower_hex c)) digest)
        MEMBER_HASH_INVALID ;;
      Ok (assoc_set path digest declared)
    | _, _ => frozen_error MEMBER_HASH_INVALID
    end
  | _ => frozen_error MEMBER_SET_MISMATCH
  end.

(** One turn of the loop over the declared members. *)
Definition verify_member (root : directory) (_ : unit) (member : pystr * pystr) : result unit :=
  let '(path, digest) := member in
  frozen_if (match lookup_path path root with Some n => is_symlink n | None => false end)
    SYMLINK_FORBIDDEN ;;
  b ← read_bytes path root;
  frozen_if (negb (str_eqb (sha256_hex b) digest)) MEMBER_HASH_MISMATCH.

(** The first checks: the package root and its manifest file. *)
Definition open_manifest (root : option node) : result (directory * bytes) :=
  match root with
  | None => frozen_error MANIFEST_MISSING
  | Some n =>
    frozen_if (negb (is_directory n)) MANIFEST_MISSING ;;
    match n with
    | Directory d =>
      match assoc (u "manifest.json") d with
      | None => frozen_error MANIFEST_MISSING
      | Some m =>
        frozen_if (negb (is_file m)) MANIFEST_MISSING ;;
        match m with
        | File b => Ok (d, b)
        | _ => frozen_error SYMLINK_FORBIDDEN
        end
      end
    | _ => frozen_error SYMLINK_FORBIDDEN
    end
  end.

(** [FrozenPackageEvidenceReader.__init__] *)
Definition reader_init `{UnicodeTables} (root : option node) : result reader :=
  '(d, manifest) ← open_manifest root;
  decoded ← decode_canonical_json manifest;
  match decoded with
  | JDict document =>
    frozen_if (negb (bool_decide (json_get (u "schema") document = JStr PACKAGE_SCHEMA)))
      UNSUPPORTED_VERSION ;;
    match json_get (u "manifest_sha256") document with
    | JStr manifest_hash =>
      frozen_if (negb (length manifest_hash =? 64)%nat) MANIFEST_HASH_INVALID ;;
      unsigned ← canonical_json_bytes (JDict (assoc_del (u "manifest_sha256") document));
      frozen_if (negb (str_eqb (sha256_hex unsigned) manifest_hash)) MANIFEST_HASH_MISMATCH ;;
      match json_get (u "members") document with
      | JList (m :: ms) =>
        declared ← foldM declare_member [] (m :: ms);
        frozen_if (existsb (fun p => negb (isSome (assoc p declared))) REQUIRED_MEMBERS)
          MEMBER_SET_MISMATCH ;;
        found ← scan_regular_files d;
        frozen_if (negb (same_members found (map fst declared ++ [u "manifest.json"])))
          MEMBER_SET_MISMATCH ;;
        foldM (verify_member d) tt declared ;;
        run_id ← try_except
          (j ← json_item (u "capture_run_id") document; s ← json_str j; uuid_parse s)
          [KeyError; ValueError] (fun _ => frozen_error RECORD_INVALID);
        Ok (mkReader d run_id document declared)
      | _ => frozen_error MEMBER_SET_MISMATCH
      end
    | _ => frozen_error MANIFEST_HASH_INVALID
    end
  | _ => frozen_error MANIFEST_NON_CANONICAL
  end.

Definition optional_member_bytes (r : reader) (relative : pystr) : result (option bytes) :=
  if isSome (assoc relative (rd_declared r)) then Some <$> read_bytes relative (rd_root r)
  else Ok None.

Definition require_run (r : reader) (run : uuid) : result unit :=
  frozen_if (negb (run =? rd_run_id r)) RUN_MISMATCH.

Definition str_items (l : list json) : option (list pystr) :=
  mapM (fun j => match j with JStr s => Some s | _ => None end) l.

Definition read_capture_manifest (r : reader) (run : uuid) : result CaptureManifest :=
  require_run r run ;;
  venues ← match json_get (u "venue_set") (rd_document r) with
           | JList (x :: l) => expect (str_items (x :: l)) FrozenPackageError
                                 (error_code_value RECORD_INVALID)
           | _ => frozen_error RECORD_INVALID
           end;
  started ← match json_get (u "started_at_ms") (rd_document r) with
            | JInt z => Ok z
            | _ => frozen_error RECORD_INVALID
            end;
  capture_manifest_init (rd_run_id r) started venues PACKAGE_SCHEMA.

Section reader_operations.
Context `{UnicodeTables}.

Definition item_int (row : json) (k : pystr) : result Z := subscript k row ≫= json_int.
Definition item_str (row : json) (k : pystr) : result pystr := subscript k row ≫= json_str.

Definition capture_terminal (r : reader) (run : uuid) : result CaptureTerminal :=
  require_run r run ;;
  text ← read_bytes (u "terminal.json") (rd_root r) ≫= read_text;
  payload ← json_loads text;
  at_ms ← item_int payload (u "terminated_at_ms");
  status ← item_str payload (u "status");
  capture_terminal_init (rd_run_id r) at_ms status.

(** [_read_ndjson] *)
Definition read_ndjson (r : reader) (path : pystr) : result (list json) :=
  text ← read_bytes path (rd_root r) ≫= read_text;
  mapR (fun line =>
    row ← json_loads line;
    match row with JDict _ => Ok row | _ => frozen_error RECORD_INVALID end)
    (split_lines text).

Definition iter_control_evidence (r : reader) (run : uuid) : result (list ControlEvidenceRecord) :=
  require_run r run ;;
  rows ← read_ndjson r (u "control_evidence/records.ndjson");
  mapR (fun row =>
    at_ms ← item_int row (u "recorded_at_ms");
    kind ← item_str row (u "kind");
    sha ← item_str row (u "payload_sha256");
    control_evidence_init (rd_run_id r) at_ms kind sha) rows.

Definition iter_raw_batches (r : reader) (run : uuid) : result (list RawBatchRecord) :=
  require_run r run ;;
  payload ← read_bytes (u "raw_batches/0.bin") (rd_root r);
  let digest := sha256_hex payload in
  b ← raw_batch_init (rd_run_id r) 0 digest digest payload;
  Ok [b].

Definition iter_raw_envelopes (r : reader) (run : uuid) : result (list RawPublicEnvelope) :=
  require_run r run ;;
  rows ← read_ndjson r (u "raw_envelopes/records.ndjson");
  mapR (fun row =>
    body ← item_str row (u "payload_hex") ≫= bytes_fromhex;
    index ← item_int row (u "envelope_index");
    observed ← item_int row (u "observed_at_ms");
    venue ← item_str row (u "venue");
    raw_envelope_init (rd_run_id r) index observed venue (sha256_hex body) body) rows.

Definition iter_quality_minutes (r : reader) (run : uuid) : result (list QualityMinuteRecord) :=
  require_run r run ;;
  rows ← read_ndjson r (u "quality_minutes/records.ndjson");
  mapR (fun row =>
    start ← item_int row (u "minute_start_ms");
    venue ← item_str row (u "venue");
    accepted ← item_int row (u "accepted");
    rejected ← item_int row (u "rejected");
    quality_minute_init (rd_run_id r) start venue accepted rejected) rows.
End reader_operations.

(** ** The mapping snapshot *)

Definition IDENTITY_KEYS : list pystr :=
  [u "base_asset"; u "quote_asset"; u "product_kind"; u "settlement_asset"; u "payoff_kind"].

Definition MAPPING_KEYS : list pystr :=
  [u "mapping_id"; u "mapping_version"; u "decision"; u "venue"; u "symbol"; u "identity";
   u "evidence_sha256"; u "evidence_reference"; u "valid_from_ms"; u "valid_until_ms";
   u "reviewed_contract_multiplier"; u "displayed_size_unit"; u "quantity_step"; u "price_tick";
   u "price_decimals"; u "max_price_significant_digits"; u "min_quantity"; u "min_notional"].

Definition OPTIONAL_MAPPING_KEYS : list pystr := [u "lighter_market_index"].

Definition require_exact_keys (item : json) (keys : list pystr) : result (list (pystr * json)) :=
  match item with
  | JDict d => frozen_if (negb (keys_equal d keys)) RECORD_INVALID ;; Ok d
  | _ => frozen_error RECORD_INVALID
  end.

Definition decimal_string (j : json) : result obj :=
  match j with JStr s => ODecimal <$> dec_parse s | _ => frozen_error RECORD_INVALID end.

Definition optional_decimal_string (j : json) : result obj :=
  match j with JNull => Ok (OJson JNull) | _ => decimal_string j end.

(** [MappingDecision(text)] *)
Definition mapping_decision (s : pystr) : result MappingDecision :=
  if str_eqb s (u "APPROVED") then Ok APPROVED
  else if str_eqb s (u "REJECTED") then Ok REJECTED
  else raise ValueError "not a valid MappingDecision".

Section mapping_documents.
Context `{UnicodeTables}.

Definition text_of (d : list (pystr * json)) (k : pystr) : result obj :=
  s ← json_item k d ≫= json_str; Ok (OJson (JStr s)).

Definition identity_from_document (d : list (pystr * json)) : result InstrumentIdentity :=
  base ← json_item (u "base_asset") d ≫= json_str;
  quote ← json_item (u "quote_asset") d ≫= json_str;
  kind ← json_item (u "product_kind") d ≫= json_str;
  settlement ← json_item (u "settlement_asset") d ≫= json_str;
  payoff ← json_item (u "payoff_kind") d ≫= json_str;
  Ok (mkIdentity base quote kind settlement payoff).

(** The optional [lighter_market_index] of a row. *)
Definition lighter_index_of (row : list (pystr * json)) : result obj :=
  match assoc (u "lighter_market_index") row with
  | None => Ok (OJson JNull)
  | Some (JInt index) =>
    frozen_if (index <? 0) RECORD_INVALID ;;
    venue ← json_item (u "venue") row ≫= json_str;
    frozen_if (negb (str_eqb (str_casefold venue) (u "lighter"))) RECORD_INVALID ;;
    Ok (OJson (JInt index))
  | Some _ => frozen_error RECORD_INVALID
  end.

Definition mapping_from_document (item : json) : result MarketMappingEvidence :=
  match item with
  | JDict row =>
    frozen_if (negb (keys_cover MAPPING_KEYS row &&
                     keys_subset row (MAPPING_KEYS ++ OPTIONAL_MAPPING_KEYS))) RECORD_INVALID ;;
    identity_raw ← json_item (u "identity") row;
    identity_doc ← require_exact_keys identity_raw IDENTITY_KEYS;
    identity ← identity_from_document identity_doc;
    until ← json_item (u "valid_until_ms") row;
    until ← match until with
            | JNull => Ok (OJson JNull)
            | j => z ← json_int j; Ok (OJson (JInt z))
            end;
    index ← lighter_index_of row;
    id ← text_of row (u "mapping_id");
    version ← text_of row (u "mapping_version");
    dec ← json_item (u "decision") row ≫= json_str;
    dec ← mapping_decision dec;
    venue ← text_of row (u "venue");
    symbol ← text_of row (u "symbol");
    sha ← text_of row (u "evidence_sha256");
    reference ← text_of row (u "evidence_reference");
    from ← json_item (u "valid_from_ms") row ≫= json_int;
    multiplier ← json_item (u "reviewed_contract_multiplier") row ≫= decimal_string;
    size_unit ← text_of row (u "displayed_size_unit");
    step ← json_item (u "quantity_step") row ≫= decimal_string;
    tick ← json_item (u "price_tick") row ≫= optional_decimal_string;
    decimals ← json_item (u "price_decimals") row;
    digits ← json_item (u "max_price_significant_digits") row;
    min_qty ← json_item (u "min_quantity") row ≫= optional_decimal_string;
    notional ← json_item (u "min_notional") row ≫= decimal_string;
    mapping_init id version dec venue symbol identity sha reference (OJson (JInt from)) until
      multiplier size_unit step tick (OJson decimals) (OJson digits) min_qty notional index
  | _ => frozen_error RECORD_INVALID
  end.

Definition read_mapping_snapshot (r : reader) (run : uuid) : result MappingSnapshot :=
  require_run r run ;;
  raw ← read_bytes (u "mapping_snapshot.json") (rd_root r);
  payload ← try_except (text ← decode_utf8 raw; json_loads text)
              [UnicodeDecodeError; JSONDecodeError] (fun _ => frozen_error RECORD_INVALID);
  doc ← require_exact_keys payload [u "mappings"];
  rows ← json_item (u "mappings") doc;
  match rows with
  | JList rows =>
    mappings ← try_except (mapR mapping_from_document rows)
                 [TypeError; ValueError; KeyError; InvalidOperation]
                 (fun _ => frozen_error RECORD_INVALID);
    mapping_snapshot_init (rd_run_id r) mappings (sha256_hex raw)
  | _ => frozen_error RECORD_INVALID
  end.
End mapping_documents.

(** ** What a constructed reader has verified *)

Lemma frozen_if_Ok b c x : frozen_if b c = Ok x -> b = false.
Proof. apply raise_if_Ok. Qed.

Definition regular (n : node) : Prop := match n with File _ => True | _ => False end.
Definition plain (n : node) : Prop := match n with File _ | Directory _ => True | _ => False end.

Lemma scan_items_Ok l found found' :
  foldM scan_item found l = Ok found' ->
  Forall (fun x => plain (snd x)) l /\
  forall p, p ∈ found' <-> p ∈ found \/ exists n, (p, n) ∈ l /\ regular n.
Proof.
  revert found; induction l as [|[q n] l IH]; intros found H; cbn [foldM] in H.
  - injection H as <-. split; [constructor|]. intros p. split; [by left|].
    intros [?|(n & Hn & _)]; [done|]. by apply not_elem_of_nil in Hn.
  - apply bind_Ok in H as (f & Hf & H). destruct (IH _ H) as [Hp Hm].
    unfold scan_item in Hf. destruct n as [b|d|t|]; cbn in Hf; try done; injection Hf as <-.
    + split; [by constructor|]. intros p. rewrite Hm, elem_of_app, list_elem_of_singleton. split.
      * intros [[?| ->]|(n & Hn & Hr)]; [by left|right|right].
        -- exists (File b). split; [by left|done].
        -- exists n. split; [by right|done].
      * intros [?|(n & [Heq|Hn]%elem_of_cons & Hr)]; [by do 2 left| |].
        -- left; right. by injection Heq.
        -- right. by exists n.
    + split; [by constructor|]. intros p. rewrite Hm. split.
      * intros [?|(n & Hn & Hr)]; [by left|right]. exists n. split; [by right|done].
      * intros [?|(n & [Heq|Hn]%elem_of_cons & Hr)]; [by left| |].
        -- injection Heq as -> ->. done.
        -- right. by exists n.
Qed.

Lemma declare_members_Ok l declared declared' :
  NoDup (map fst declared) ->
  Forall (fun m => length (snd m) = 64%nat /\ Forall (fun c => lower_hex c = true) (snd m)) declared ->
  foldM declare_member declared l = Ok declared' ->
  NoDup (map fst declared') /\
  Forall (fun m => length (snd m) = 64%nat /\ Forall (fun c => lower_hex c = true) (snd m)) declared'.
Proof.
  revert declared; induction l as [|j l IH]; intros declared Hd Hf H; cbn [foldM] in H; [by inv_ok|].
  apply bind_Ok in H as (d1 & H1 & H). apply IH in H; [done|..].
  - unfold declare_member, frozen_error in H1. repeat case_match; inv_ok. by apply assoc_set_NoDup.
  - unfold declare_member, frozen_error in H1. repeat case_match; try done.
    apply bind_Ok in H1 as (_ & _ & (_ & _ & (_ & Hx%frozen_if_Ok & [= <-])%bind_Ok)%bind_Ok).
    apply orb_false_iff in Hx as [Hl Hx]. apply negb_false_iff, Nat.eqb_eq in Hl.
    apply Forall_forall. intros m [->|Hm]%assoc_set_elem; [|exact (Forall_at _ _ _ Hf Hm)].
    split; [done|]. apply Forall_forall. intros c Hc. cbn in Hc.
    destruct (lower_hex c) eqn:E; [done|]. exfalso. apply not_true_iff_false in Hx. apply Hx.
    apply existsb_exists. exists c. split; [by apply list_elem_of_In|by rewrite E].
Qed.

Lemma verify_members_Ok root l :
  foldM (verify_member root) tt l = Ok tt ->
  Forall (fun m => exists b, read_bytes (fst m) root = Ok b /\ sha256_hex b = snd m) l.
Proof.
  induction l as [|[p g] l IH]; intros H; cbn [foldM] in H; [constructor|].
  apply bind_Ok in H as ([] & H1 & H). constructor; [|by apply IH]. unfold verify_member in H1.
  apply bind_Ok in H1 as ([] & _ & (b & Hb & Hh%frozen_if_Ok)%bind_Ok).
  apply negb_false_iff, str_eqb_spec in Hh. by exists b.
Qed.

(** The package a reader stands for. *)
Record verified_package (root : option node) (r : reader) : Prop := {
  vp_root : root = Some (Directory (rd_root r));
  vp_plain : Forall (fun x => plain (snd x)) (walk (Directory (rd_root r)));
  vp_members : forall p, (exists n, (p, n) ∈ walk (Directory (rd_root r)) /\ regular n) <->
    p ∈ map fst (rd_declared r) \/ p = u "manifest.json";
  vp_distinct : NoDup (map fst (rd_declared r));
  vp_digests : Forall (fun m => exists b, read_bytes (fst m) (rd_root r) = Ok b /\
    sha256_hex b = snd m) (rd_declared r);
  vp_required : Forall (fun p => p ∈ map fst (rd_declared r)) REQUIRED_MEMBERS;
  vp_manifest : exists b text h signed_text,
    assoc (u "manifest.json") (rd_root r) = Some (File b) /\
    decode_ascii b = Ok text /\ json_loads text = Ok (JDict (rd_document r)) /\
    json_get (u "manifest_sha256") (rd_document r) = JStr h /\
    canonical_json_bytes (JDict (assoc_del (u "manifest_sha256") (rd_document r))) = Ok signed_text /\
    sha256_hex signed_text = h }.

Lemma open_manifest_Ok root d b :
  open_manifest root = Ok (d, b) ->
  root = Some (Directory d) /\ assoc (u "manifest.json") d = Some (File b).
Proof.
  unfold open_manifest, frozen_error. intros H. destruct root as [[|e| |]|]; cbn in H; try done.
  all: try (apply bind_Ok in H as (_ & _ & H); done).
  destruct (assoc _ e) as [[]|] eqn:E; cbn in H; try done.
  - by injection H as <- <-.
  - destruct (negb _); done.
Qed.

Lemma decode_canonical_json_Ok b j :
  decode_canonical_json b = Ok j -> exists text, decode_ascii b = Ok text /\ json_loads text = Ok j.
Proof.
  unfold decode_canonical_json, frozen_error. intros (_ & _ & H)%bind_Ok.
  apply try_except_Ok in H as [H|(e & _ & H)]; [|done]. by apply bind_Ok in H.
Qed.

Lemma reader_init_verified `{UnicodeTables} root r :
  reader_init root = Ok r -> verified_package root r.
Proof.
  unfold reader_init, frozen_error. intros H1. apply bind_Ok in H1 as ([d b] & Hopen & H1).
  apply open_manifest_Ok in Hopen as [-> Hm].
  apply bind_Ok in H1 as (j & (text & Ha & Hj)%decode_canonical_json_Ok & H1).
  destruct j as [| | | | | |document]; try done. apply bind_Ok in H1 as (_ & _ & H1).
  destruct (json_get (u "manifest_sha256") document) as [| | | |h| |] eqn:Eh; try done.
  apply bind_Ok in H1 as (_ & _ & (signed_text & Hsig & (_ & Hh%frozen_if_Ok & H1)%bind_Ok)%bind_Ok).
  apply negb_false_iff, str_eqb_spec in Hh.
  destruct (json_get (u "members") document) as [| | | | |[|m ms]|]; try done.
  apply bind_Ok in H1 as (declared & Hd & (_ & Hreq%frozen_if_Ok & (found & Hscan & H1)%bind_Ok)%bind_Ok).
  apply bind_Ok in H1 as (_ & Hset%frozen_if_Ok & ([] & Hver & (run & _ & [= <-])%bind_Ok)%bind_Ok).
  apply negb_false_iff in Hset. rewrite same_members_spec in Hset.
  apply scan_items_Ok in Hscan as [Hplain Hfound].
  apply declare_members_Ok in Hd as [Hnd _]; [|apply NoDup_nil_2|constructor].
  split; cbn [rd_root rd_declared rd_document]; try done.
  - intros p. specialize (Hfound p). specialize (Hset p).
    rewrite elem_of_app, list_elem_of_singleton in Hset. rewrite <- Hset, Hfound.
    split; [by right|]. intros [Hn|?]; [by apply not_elem_of_nil in Hn|done].
  - by apply verify_members_Ok.
  - apply Forall_forall. intros p Hp. destruct (assoc p declared) as [g|] eqn:E.
    + apply assoc_elem in E. by apply (list_elem_of_fmap_2 fst) in E.
    + exfalso. apply not_true_iff_false in Hreq. apply Hreq, existsb_exists. exists p.
      split; [by apply list_elem_of_In|by rewrite E].
  - by exists b, text, h, signed_text.
Qed.

(** ** Properties *)

(** A reader exists only for a directory without links and special files
    whose regular files are exactly the declared members and the manifest, whose
    members hash to their declared digests, which has every required member, and
    whose manifest hashes to the digest it carries. *)
Theorem reader_init_fails_closed `{UnicodeTables} root r :
  reader_init root = Ok r -> verified_package root r.
Proof. apply reader_init_verified. Qed.

(** Decoding a member terminates on every byte string, the recursion being bounded
    by twice its length; what it raises is a [ValueError]: the package error of a
    non-canonical document, or a bare one for an integer of more than 4300 digits. *)
Theorem decode_canonical_json_terminates b : fails_with ValueError (decode_canonical_json b).
Proof.
  unfold decode_canonical_json, frozen_if, frozen_error. apply fails_bind; [fails|]. intros _ _.
  assert (fails_with ValueError (text ← decode_ascii b; json_loads text)) as Hbody.
  { apply fails_bind; [|intros text _; apply json_loads_fails]. unfold decode_ascii. fails. }
  unfold try_except. destruct (text ← decode_ascii b; json_loads text) as [j|e]; [done|]. case_match; [|done]. fails.
Qed.
