(* ===== verification/PackageErrors.v ===== *)
(** * Every [FrozenPackageError] carries one of the thirteen codes

    The operations of the reader raise that class only through its constructor;
    what the decoders, the constructors of records and the standard library raise
    is of another class.  [coded] states it of a computation. *)

From S2P Require Import Prelude PyStr Num PyObj Exact Json Bytes Market Provenance Evidence.
From S2P Require Import Decision FrozenPackage.
Open Scope Z_scope.

Definition coded_exn (e : exn) : Prop :=
  exn_class e = FrozenPackageError -> is_Ok (error_code e) = true.

Definition coded {A} (m : result A) : Prop :=
  match m with Ok _ => True | Raise e => coded_exn e end.

Lemma coded_frozen {A} c : coded (frozen_error (A:=A) c).
Proof. by destruct c. Qed.

Lemma coded_frozen_if b c : coded (frozen_if b c).
Proof. destruct b; [by destruct c|done]. Qed.

Lemma coded_raise {A} c msg : c <> FrozenPackageError -> coded (raise (A:=A) c msg).
Proof. by intros Hc ?. Qed.

Lemma coded_raise_if b c msg : c <> FrozenPackageError -> coded (raise_if b c msg).
Proof. intros Hc. destruct b; [by intros ?|done]. Qed.

Lemma coded_expect {A} (o : option A) c msg : c <> FrozenPackageError -> coded (expect o c msg).
Proof. intros Hc. destruct o; [done|by intros ?]. Qed.

Lemma coded_expect_code {A} (o : option A) c :
  coded (expect o FrozenPackageError (error_code_value c)).
Proof. destruct o; [done|by destruct c]. Qed.

Lemma coded_bind {A B} (m : result A) (f : A -> result B) :
  coded m -> (forall a, coded (f a)) -> coded (m ≫= f).
Proof. destruct m; cbn; auto. Qed.

Lemma coded_fmap {A B} (m : result A) (f : A -> B) : coded m -> coded (f <$> m).
Proof. by destruct m. Qed.

Lemma coded_mapR {A B} (f : A -> result B) l : (forall x, x ∈ l -> coded (f x)) -> coded (mapR f l).
Proof.
  induction l as [|x l IH]; intros Hf; cbn [mapR]; [done|]. apply coded_bind; [apply Hf; left|].
  intros y. apply coded_bind; [apply IH; intros z Hz; apply Hf; by right|done].
Qed.

Lemma coded_foldM {A S} (step : S -> A -> result S) s l :
  (forall s x, coded (step s x)) -> coded (foldM step s l).
Proof.
  intros Hf. revert s; induction l as [|x l IH]; intros s; cbn [foldM]; [done|].
  by apply coded_bind.
Qed.

Lemma coded_try {A} (m : result A) cs h :
  coded m -> (forall e, coded (h e)) -> coded (try_except m cs h).
Proof. destruct m as [|e]; cbn; [done|]. destruct (existsb _ _); auto. Qed.

Create HintDb coded.
Ltac coded_step :=
  match goal with
  | |- coded (_ ≫= _) => apply coded_bind; [|intros ?]
  | |- coded (mbind _ _) => apply coded_bind; [|intros ?]
  | |- coded (_ <$> _) => apply coded_fmap
  | |- coded (frozen_error _) => apply coded_frozen
  | |- coded (frozen_if _ _) => apply coded_frozen_if
  | |- coded (raise _ _) => apply coded_raise; discriminate
  | |- coded (raise_if _ _ _) => apply coded_raise_if; discriminate
  | |- coded (expect _ FrozenPackageError _) => apply coded_expect_code
  | |- coded (expect _ _ _) => apply coded_expect; discriminate
  | |- coded (Ok _) => exact I
  | |- coded (mapR _ _) => apply coded_mapR; intros ? ?
  | |- coded (foldM _ _ _) => apply coded_foldM; intros ? ?
  | |- coded (try_except _ _ _) => apply coded_try; [|intros ?]
  | |- coded (match ?x with _ => _ end) => destruct x
  | |- coded (let '(_, _) := ?x in _) => destruct x
  | |- coded _ => solve [eauto with coded]
  end.
Ltac coded := repeat coded_step.

(** ** The standard library *)

Lemma coded_json_error {A} : coded (json_error (A:=A)).
Proof. apply coded_raise. discriminate. Qed.

Lemma coded_int base s : coded (py_int base s).
Proof. unfold py_int. coded. Qed.
Lemma coded_str_int z : coded (py_str_int z).
Proof. unfold py_str_int. coded. Qed.
#[export] Hint Resolve coded_json_error coded_int coded_str_int : coded.

Lemma coded_read_escape s : coded (read_escape s).
Proof. unfold read_escape. repeat (case_match; try done). Qed.
#[export] Hint Resolve coded_read_escape : coded.

Lemma coded_scan_string fuel s : coded (scan_string fuel s).
Proof.
  revert s; induction fuel as [|fuel IH]; intros s; cbn [scan_string]; coded.
Qed.
#[export] Hint Resolve coded_scan_string : coded.

Lemma coded_scan_number neg s : coded (scan_number default_hooks neg s).
Proof. unfold scan_number, on_float, default_hooks. coded. Qed.

Lemma coded_scan_constant s m : scan_constant default_hooks s = Some m -> coded m.
Proof. unfold scan_constant. repeat case_match; intros [= <-]; done. Qed.

Lemma coded_pairs ps : coded (on_pairs default_hooks ps).
Proof. done. Qed.
#[export] Hint Resolve coded_scan_number coded_pairs : coded.

Lemma coded_scan fuel :
  (forall s, coded (scan_value default_hooks fuel s)) /\
  (forall s, coded (scan_items default_hooks fuel s)) /\
  (forall s, coded (scan_pairs default_hooks fuel s)).
Proof.
  induction fuel as [|fuel (IHv & IHi & IHp)]; [done|]. split_and!; intros s.
  - cbn [scan_value]. destruct s as [|c t]; [apply coded_json_error|].
    destruct (scan_constant default_hooks (c :: t)) eqn:E; [|coded].
    apply coded_scan_constant in E. coded.
  - cbn [scan_items]. coded.
  - cbn [scan_pairs]. coded.
Qed.

Lemma coded_json_loads s : coded (json_loads s).
Proof.
  unfold json_loads, json_loads_with. destruct (coded_scan (S (2 * length s))) as (Hv & _).
  coded.
Qed.

Lemma coded_decode_utf8 b : coded (decode_utf8 b).
Proof.
  unfold decode_utf8. generalize (length b). intros n. revert b.
  induction n as [|n IH]; intros b; destruct b; cbn [decode_utf8_fuel]; coded.
Qed.

Lemma coded_decode_ascii b : coded (decode_ascii b).
Proof. unfold decode_ascii. coded. Qed.

Lemma coded_bytes_fromhex s : coded (bytes_fromhex s).
Proof.
  remember (length s) as n eqn:Hn. revert s Hn. induction n as [n IH] using lt_wf_ind; intros s ->.
  destruct s as [|c t]; [done|]. cbn [bytes_fromhex]. destruct (ascii_space c).
  { eapply IH; [|done]. cbn. lia. }
  destruct t as [|d t]; [coded|]. destruct (hex_digit c), (hex_digit d); coded.
  eapply IH; [|done]; cbn; lia.
Qed.
#[export] Hint Resolve coded_json_loads coded_decode_utf8 coded_decode_ascii coded_bytes_fromhex : coded.

Lemma coded_dumps y j : coded (json_dumps_with y j).
Proof.
  induction j as [| | | | |l IH|d IH] using json_ind_nested; cbn [json_dumps_with]; coded.
  - by apply (Forall_at _ _ _ IH).
  - by eapply (Forall_at _ _ _ IH).
Qed.

Lemma coded_json_repr `{UnicodeTables} j : coded (json_repr j).
Proof.
  induction j as [| | | | |l IH|d IH] using json_ind_nested; cbn [json_repr]; coded.
  - by apply (Forall_at _ _ _ IH).
  - by eapply (Forall_at _ _ _ IH).
Qed.
#[export] Hint Resolve coded_dumps coded_json_repr : coded.

Lemma coded_json_str `{UnicodeTables} j : coded (json_str j).
Proof. unfold json_str. coded. Qed.

Lemma coded_json_int j : coded (json_int j).
Proof. unfold json_int, int_of_float. coded. Qed.

Lemma coded_json_item k d : coded (json_item k d).
Proof. unfold json_item. coded. Qed.
#[export] Hint Resolve coded_json_str coded_json_int coded_json_item : coded.

Lemma coded_subscript j k : coded (subscript k j).
Proof. unfold subscript. coded. Qed.

Lemma coded_uuid s : coded (uuid_parse s).
Proof. unfold uuid_parse. coded. Qed.

Lemma coded_read_bytes p d : coded (read_bytes p d).
Proof. unfold read_bytes. coded. Qed.
#[export] Hint Resolve coded_subscript coded_uuid coded_read_bytes : coded.

Lemma coded_item_int row k : coded (item_int row k).
Proof. unfold item_int. coded. Qed.
Lemma coded_item_str `{UnicodeTables} row k : coded (item_str row k).
Proof. unfold item_str. coded. Qed.
#[export] Hint Resolve coded_item_int coded_item_str : coded.

(** ** Records and mappings *)

Lemma coded_dec_le a b : coded (dec_le a b).
Proof. unfold dec_le. coded. Qed.
Lemma coded_dec_parse s : coded (dec_parse s).
Proof. unfold dec_parse. coded. Qed.
#[export] Hint Resolve coded_dec_le coded_dec_parse : coded.

Lemma coded_positive o : coded (require_positive_decimal o).
Proof. unfold require_positive_decimal. coded. Qed.

Lemma coded_optional {A} (f : obj -> result A) o : (forall o, coded (f o)) -> coded (optional f o).
Proof. intros Hf. unfold optional. coded. Qed.

Lemma coded_mapping_init a b c d e f g h i j k l m n o p q r s :
  coded (mapping_init a b c d e f g h i j k l m n o p q r s).
Proof.
  unfold mapping_init. pose proof coded_positive.
  coded; unfold require_printable_ascii, require_sha256, require_timestamp; coded;
    apply coded_optional; intros ?; unfold require_int, require_lighter_index, require_timestamp; coded.
Qed.
#[export] Hint Resolve coded_mapping_init : coded.

Ltac coded_record := unfold ev_require_sha256, ev_require_timestamp, require_text, require_count; coded.

Lemma coded_manifest a b c d : coded (capture_manifest_init a b c d).
Proof. unfold capture_manifest_init. coded_record. Qed.
Lemma coded_terminal a b c : coded (capture_terminal_init a b c).
Proof. unfold capture_terminal_init. coded_record. Qed.
Lemma coded_control a b c d : coded (control_evidence_init a b c d).
Proof. unfold control_evidence_init. coded_record. Qed.
Lemma coded_batch a b c d e : coded (raw_batch_init a b c d e).
Proof. unfold raw_batch_init. coded_record. Qed.
Lemma coded_envelope a b c d e f : coded (raw_envelope_init a b c d e f).
Proof. unfold raw_envelope_init. coded_record. Qed.
Lemma coded_minute a b c d e : coded (quality_minute_init a b c d e).
Proof. unfold quality_minute_init. coded_record. Qed.
Lemma coded_snapshot a b c : coded (mapping_snapshot_init a b c).
Proof. unfold mapping_snapshot_init. coded_record. Qed.
#[export] Hint Resolve coded_manifest coded_terminal coded_control coded_batch coded_envelope
  coded_minute coded_snapshot : coded.

(** ** The reader *)

Lemma coded_canonical_json j : coded (canonical_json_bytes j).
Proof. unfold canonical_json_bytes, json_dumps. coded. Qed.

Lemma coded_decode_canonical b : coded (decode_canonical_json b).
Proof. unfold decode_canonical_json. coded. Qed.

Lemma coded_relative p : coded (require_relative_member p).
Proof. unfold require_relative_member. apply coded_frozen_if. Qed.
#[export] Hint Resolve coded_canonical_json coded_decode_canonical coded_relative : coded.

Lemma coded_declare d j : coded (declare_member d j).
Proof. unfold declare_member. coded. Qed.

Lemma coded_scan_files d : coded (scan_regular_files d).
Proof. unfold scan_regular_files, scan_item. coded. Qed.

Lemma coded_verify r x m : coded (verify_member r x m).
Proof. unfold verify_member. coded. Qed.

Lemma coded_open_manifest root : coded (open_manifest root).
Proof. unfold open_manifest. coded. Qed.
#[export] Hint Resolve coded_declare coded_scan_files coded_verify coded_open_manifest : coded.

Lemma coded_reader_init `{UnicodeTables} root : coded (reader_init root).
Proof. unfold reader_init. coded. Qed.

Lemma coded_run r run : coded (require_run r run).
Proof. apply coded_frozen_if. Qed.

Lemma coded_ndjson r p : coded (read_ndjson r p).
Proof. unfold read_ndjson, read_text. coded. Qed.
#[export] Hint Resolve coded_run coded_ndjson : coded.

Lemma coded_exact_keys j ks : coded (require_exact_keys j ks).
Proof. unfold require_exact_keys. coded. Qed.

Lemma coded_mapping_document `{UnicodeTables} j : coded (mapping_from_document j).
Proof.
  pose proof coded_exact_keys.
  unfold mapping_from_document, text_of, identity_from_document, lighter_index_of, mapping_decision,
    optional_decimal_string, decimal_string. coded.
Qed.
#[export] Hint Resolve coded_exact_keys coded_mapping_document : coded.

Section reader_operations.
Context `{UnicodeTables} (r : reader) (run : uuid).

Lemma coded_read_manifest : coded (read_capture_manifest r run).
Proof using. unfold read_capture_manifest. coded. Qed.
Lemma coded_read_terminal : coded (capture_terminal r run).
Proof using. unfold capture_terminal, read_text. coded. Qed.
Lemma coded_iter_control : coded (iter_control_evidence r run).
Proof using. unfold iter_control_evidence. coded. Qed.
Lemma coded_iter_batches : coded (iter_raw_batches r run).
Proof using. unfold iter_raw_batches. coded. Qed.
Lemma coded_iter_envelopes : coded (iter_raw_envelopes r run).
Proof using. unfold iter_raw_envelopes. coded. Qed.
Lemma coded_iter_minutes : coded (iter_quality_minutes r run).
Proof using. unfold iter_quality_minutes. coded. Qed.
Lemma coded_read_snapshot : coded (read_mapping_snapshot r run).
Proof using. unfold read_mapping_snapshot. coded. Qed.
End reader_operations.
#[export] Hint Resolve coded_read_manifest coded_read_terminal coded_iter_control coded_iter_batches
  coded_iter_envelopes coded_iter_minutes coded_read_snapshot : coded.
