(* ===== verification/Verdict.v ===== *)
(** * [liqvera_readonly_analyzer.verdict]: the Stage A decision

    [evaluate_frozen_package] over the reader, the reconstruction and the binding
    of the books, with the gates it applies in order.  Proved here: what the two
    counters of the gates count, when the decision is to extend, that every
    decision is closed under its class, and which exceptions can escape. *)

From S2P Require Import Prelude PyStr Exact ExactText PyObj Json JsonRoundtrip Bytes ByteLaws Market Provenance.
From S2P Require Import Decision Economics Evidence Decoders Reconstruction Identity FrozenPackage PackageErrors.
Open Scope Z_scope.

(** ** Constants *)

Definition MS_PER_MINUTE : Z := 60000.
Definition MS_PER_DAY : Z := 86400000.
Definition MINUTES_PER_DAY : Z := 1440.
Definition REQUIRED_ACQUISITION_DAYS : Z := 7.
Definition REQUIRED_COMPLETE_UTC_DAYS : nat := 5.
Definition REQUIRED_HEALTHY_RATIO : Z := 95.
Definition REQUIRED_INDEPENDENT_EPISODES : Z := 20.
Definition REQUIRED_WINDOW_MS : Z := REQUIRED_ACQUISITION_DAYS * MS_PER_DAY.
Definition REQUIRED_WINDOW_MINUTES : Z := REQUIRED_ACQUISITION_DAYS * MINUTES_PER_DAY.
Definition ZERO : ExactDecimal := mkExact 0.
(** [ExactDecimal.parse("0.25")] *)
Definition CONCENTRATION_LIMIT : ExactDecimal := mkExact 25000000.
Definition ECONOMICS_MEMBER : pystr := u "economics.json".

Example concentration_limit_parsed : exact_parse (u "0.25") = Ok CONCENTRATION_LIMIT.
Proof. reflexivity. Qed.

(** ** Errors *)

(** [_ERROR_TO_REASON]; it has a row for every code, so [_map_error] never raises. *)
Definition map_error (c : FrozenPackageErrorCode) : StageAReasonCode :=
  match c with
  | INVALID_ARGUMENT => INVALID_PATH
  | MANIFEST_MISSING | MANIFEST_NON_CANONICAL | MANIFEST_HASH_INVALID
  | MANIFEST_HASH_MISMATCH => INVALID_MANIFEST
  | UNSUPPORTED_VERSION => INVALID_UNSUPPORTED_VERSION
  | MEMBER_SET_MISMATCH => INVALID_MEMBER_SET_MISMATCH
  | MEMBER_HASH_MISMATCH | MEMBER_HASH_INVALID => INVALID_MEMBER_HASH_MISMATCH
  | SYMLINK_FORBIDDEN => INVALID_SYMLINK
  | PATH_INVALID => INVALID_PATH
  | RECORD_INVALID | RUN_MISMATCH => INVALID_RECORD
  end.

(** [_invalid] *)
Definition invalid (c : FrozenPackageErrorCode) (run : option uuid) : result StageADecision :=
  make_decision INVALID_DATASET [map_error c] run.

(** ** The gates *)

(** [covered]: the minutes of the day seen on each UTC day. *)
Definition cover_minute (covered : gmap Z (gset Z)) (r : QualityMinuteRecord) : gmap Z (gset Z) :=
  let day := minute_start_ms r / MS_PER_DAY in
  let minute_of_day := (minute_start_ms r / MS_PER_MINUTE) mod MINUTES_PER_DAY in
  <[day := default ∅ (covered !! day) ∪ {[minute_of_day]}]> covered.

Definition covered_minutes (minutes : list QualityMinuteRecord) : gmap Z (gset Z) :=
  fold_left cover_minute minutes ∅.

Definition complete_utc_days (minutes : list QualityMinuteRecord) : nat :=
  size (filter (fun x => MINUTES_PER_DAY <= Z.of_nat (size (snd x))) (covered_minutes minutes)).

(** [key]: the minute and the venue of a record. *)
Definition minute_key (r : QualityMinuteRecord) : Z * pystr := (minute_start_ms r, qm_venue r).

Definition healthy_record (r : QualityMinuteRecord) : bool := (0 <? accepted r) && (rejected r =? 0).

(** One turn of the loop over the records, on [seen] and [healthy]. *)
Definition count_minute (s : gset (Z * pystr) * Z) (r : QualityMinuteRecord) : gset (Z * pystr) * Z :=
  let '(seen, healthy) := s in
  if bool_decide (minute_key r ∈ seen) then s
  else ({[minute_key r]} ∪ seen, if healthy_record r then healthy + 1 else healthy).

Definition strict_healthy_minutes (minutes : list QualityMinuteRecord) : Z :=
  snd (fold_left count_minute minutes (∅, 0)).

Definition insufficiency_reasons (m : CaptureManifest) (t : CaptureTerminal)
    (minutes : list QualityMinuteRecord) (independent_episodes : Z) : list StageAReasonCode :=
  (if terminated_at_ms t - started_at_ms m <? REQUIRED_WINDOW_MS
   then [INSUFFICIENT_ACQUISITION_WINDOW] else []) ++
  (if (complete_utc_days minutes <? REQUIRED_COMPLETE_UTC_DAYS)%nat
   then [INSUFFICIENT_COMPLETE_UTC_DAYS] else []) ++
  (if strict_healthy_minutes minutes * 100 <? REQUIRED_HEALTHY_RATIO * REQUIRED_WINDOW_MINUTES
   then [INSUFFICIENT_STRICT_HEALTHY_MINUTES] else []) ++
  (if independent_episodes <? REQUIRED_INDEPENDENT_EPISODES
   then [INSUFFICIENT_INDEPENDENT_EPISODES] else []).

Definition stop_reasons (e : SealedStageAEconomics) : list StageAReasonCode :=
  (if exact_leb (total_net e) ZERO then [STOP_TOTAL_NET_NON_POSITIVE] else []) ++
  (if exact_leb (median_net e) ZERO then [STOP_MEDIAN_NET_NON_POSITIVE] else []) ++
  (if exact_leb (usd_1000_net e) ZERO then [STOP_USD_1000_NET_NON_POSITIVE] else []) ++
  (if exact_ltb (usd_5000_net e) ZERO then [STOP_USD_5000_NET_NEGATIVE] else []) ++
  (if survived_delay_300ms e then [] else [STOP_DELAY_300MS_NOT_SURVIVED]) ++
  (if survived_delay_500ms e then [] else [STOP_DELAY_500MS_NOT_SURVIVED]) ++
  (if survived_both_fee_cases e then [] else [STOP_FEE_CASE_NOT_SURVIVED]) ++
  (if exact_ltb (largest_episode_concentration e) CONCENTRATION_LIMIT then []
   else [STOP_CONCENTRATION_NOT_BELOW_25_PERCENT]).

Definition decode_economics (raw : bytes) : result SealedStageAEconomics :=
  text ← decode_utf8 raw; document ← json_loads text; economics_from_document document.

(** ** The evaluation *)

(** [try: x = m / except cs as e: return h e], then the rest of the function. *)
Definition or_return {A} (m : result A) (cs : list exc_class) (h : exn -> result StageADecision)
    (rest : A -> result StageADecision) : result StageADecision :=
  match m with
  | Ok a => rest a
  | Raise e => if existsb (exc_subclass (exn_class e)) cs then h e else Raise e
  end.

(** The members the evaluation uses. *)
Record inputs := mkInputs {
  in_manifest : CaptureManifest; in_terminal : CaptureTerminal;
  in_envelopes : list RawPublicEnvelope; in_minutes : list QualityMinuteRecord;
  in_snapshot : MappingSnapshot }.

(** From the gates on. *)
Definition decide_gates (i : inputs) (economics : option SealedStageAEconomics) (run : uuid)
  : result StageADecision :=
  let episodes := match economics with None => 0 | Some e => independent_episode_count e end in
  match insufficiency_reasons (in_manifest i) (in_terminal i) (in_minutes i) episodes with
  | [] =>
    match economics with
    | None => raise RuntimeError "STOP/EXTEND reached without sealed economics"
    | Some e =>
      match stop_reasons e with
      | [] => make_decision EXTEND_LONGER_SHADOW [EXTEND_ALL_V2_GATES_PASS] (Some run)
      | rs => make_decision STOP rs (Some run)
      end
    end
  | rs => make_decision INSUFFICIENT_EVIDENCE rs (Some run)
  end.

Section evaluation.
Context `{UnicodeTables}.

(** The first protected block after the reader is constructed. *)
Definition read_inputs (r : reader) (run : uuid) : result inputs :=
  manifest ← read_capture_manifest r run;
  terminal ← capture_terminal r run;
  _ ← iter_control_evidence r run;
  _ ← iter_raw_batches r run;
  envelopes ← iter_raw_envelopes r run;
  minutes ← iter_quality_minutes r run;
  snapshot ← read_mapping_snapshot r run;
  Ok (mkInputs manifest terminal envelopes minutes snapshot).

Definition bind_books (i : inputs) : result (list ReconstructedBook) :=
  books ← reconstruct_books (in_envelopes i) (mappings (in_snapshot i));
  bind_reconstructed_books books (mappings (in_snapshot i)).

(** The optional [economics.json]. *)
Definition with_economics (r : reader) (rest : option SealedStageAEconomics -> result StageADecision)
  : result StageADecision :=
  raw ← optional_member_bytes r ECONOMICS_MEMBER;
  match raw with
  | None => rest None
  | Some raw =>
    or_return (decode_economics raw)
      [UnicodeDecodeError; JSONDecodeError; TypeError; ValueError; ExactError]
      (fun _ => invalid RECORD_INVALID (Some (rd_run_id r)))
      (fun e => rest (Some e))
  end.

Definition evaluate_frozen_package (root : option node) : result StageADecision :=
  or_return (reader_init root) [FrozenPackageError]
    (fun e => c ← error_code e; invalid c None)
    (fun r =>
      let run := rd_run_id r in
      or_return (read_inputs r run) [FrozenPackageError]
        (fun e => c ← error_code e; invalid c (Some run))
        (fun i =>
          or_return (bind_books i)
            [ReconstructionError; IdentityBindError; UnicodeDecodeError; JSONDecodeError; ExactError]
            (fun _ => invalid RECORD_INVALID (Some run))
            (fun _ => with_economics r (fun economics => decide_gates i economics run)))).
End evaluation.

(** ** What the counters count *)

(** The UTC minute a record starts in. *)
Definition minute_of (r : QualityMinuteRecord) : Z := minute_start_ms r / MS_PER_MINUTE.

(** Every minute of the day has a record. *)
Definition complete_day (minutes : list QualityMinuteRecord) (day : Z) : Prop :=
  forall i, 0 <= i < MINUTES_PER_DAY ->
    exists r, r ∈ minutes /\ minute_of r = day * MINUTES_PER_DAY + i.

Lemma day_minute r day i : 0 <= i < MINUTES_PER_DAY ->
  minute_of r = day * MINUTES_PER_DAY + i <->
  minute_start_ms r / MS_PER_DAY = day /\ minute_of r mod MINUTES_PER_DAY = i.
Proof.
  intros Hi. unfold minute_of, MS_PER_DAY, MS_PER_MINUTE, MINUTES_PER_DAY in *.
  change 86400000 with (60000 * 1440). rewrite <- Z.div_div by lia.
  generalize (minute_start_ms r / 60000). intros m. pose proof (Z.div_mod m 1440 ltac:(lia)).
  pose proof (Z.mod_pos_bound m 1440 ltac:(lia)). split.
  - intros ->. rewrite (Z.add_comm (day * 1440)), Z.div_add, Z.mod_add, Z.div_small, Z.mod_small by lia. lia.
  - intros [<- <-]. lia.
Qed.

Definition minute_seen (minutes : list QualityMinuteRecord) (day i : Z) : Prop :=
  exists r, r ∈ minutes /\ minute_start_ms r / MS_PER_DAY = day /\ minute_of r mod MINUTES_PER_DAY = i.

Lemma minute_seen_snoc l r day i :
  minute_seen (l ++ [r]) day i <->
  minute_seen l day i \/ (minute_start_ms r / MS_PER_DAY = day /\ minute_of r mod MINUTES_PER_DAY = i).
Proof. unfold minute_seen. set_solver. Qed.

Lemma covered_minutes_spec minutes day i :
  i ∈ default ∅ (covered_minutes minutes !! day) <-> minute_seen minutes day i.
Proof.
  induction minutes as [|r l IH] using rev_ind.
  - unfold covered_minutes, minute_seen. cbn [fold_left]. rewrite lookup_empty. cbn. set_solver.
  - unfold covered_minutes in *. rewrite fold_left_app. cbn [fold_left].
    rewrite minute_seen_snoc, <- IH. clear IH. unfold cover_minute at 1.
    set (day' := minute_start_ms r / MS_PER_DAY). fold (minute_of r).
    destruct (decide (day' = day)) as [->|Hd].
    + rewrite lookup_insert_eq. cbn. set_solver.
    + rewrite lookup_insert_ne by done. set_solver.
Qed.

Definition day_minutes : gset Z := list_to_set (seqZ 0 MINUTES_PER_DAY).

Lemma day_minutes_size : size day_minutes = 1440%nat.
Proof. unfold day_minutes. rewrite size_list_to_set by apply NoDup_seqZ. by rewrite length_seqZ. Qed.

Lemma elem_of_day_minutes i : i ∈ day_minutes <-> 0 <= i < MINUTES_PER_DAY.
Proof. unfold day_minutes. rewrite elem_of_list_to_set, elem_of_seqZ. done. Qed.
#[local] Opaque day_minutes.

Lemma covered_complete minutes day :
  MINUTES_PER_DAY <= Z.of_nat (size (default ∅ (covered_minutes minutes !! day))) <->
  complete_day minutes day.
Proof.
  set (s := default ∅ (covered_minutes minutes !! day)).
  assert (forall i, i ∈ s <-> minute_seen minutes day i) as Hs by (intros i; apply covered_minutes_spec).
  assert (s ⊆ day_minutes) as Hsub.
  { intros i (r & _ & _ & <-)%Hs. rewrite elem_of_day_minutes. by apply Z.mod_pos_bound. }
  assert (complete_day minutes day <-> day_minutes ⊆ s) as ->.
  { unfold complete_day. split.
    - intros Hc i Hi%elem_of_day_minutes. apply Hs. destruct (Hc i Hi) as (r & Hr & Hm). apply day_minute in Hm; [|done]. by exists r.
    - intros Hc i Hi. assert (i ∈ s) as (r & Hr & Hm)%Hs by by apply Hc, elem_of_day_minutes.
      exists r. split; [done|]. by apply day_minute. }
  pose proof day_minutes_size. unfold MINUTES_PER_DAY. split.
  - intros Hl. assert (s = day_minutes) as Heq by (apply set_subseteq_size_eq; [exact Hsub|lia]).
    intros x Hx. rewrite <- Heq in Hx. exact Hx.
  - intros Hd%subseteq_size. lia.
Qed.

Lemma complete_utc_days_days minutes :
  exists days : gset Z, size days = complete_utc_days minutes /\
    forall d, d ∈ days <-> complete_day minutes d.
Proof.
  unfold complete_utc_days. set (m := filter _ _). exists (dom m). split; [by rewrite size_dom|].
  intros d. rewrite <- covered_complete, elem_of_dom. unfold m. split.
  - intros [s [Hs Hl]%map_lookup_filter_Some]. by rewrite Hs.
  - intros Hl. destruct (covered_minutes minutes !! d) as [s|] eqn:E.
    + exists s. by apply map_lookup_filter_Some.
    + cbn in Hl. rewrite size_empty in Hl. unfold MINUTES_PER_DAY in Hl. lia.
Qed.

(** The first record of a minute and a venue decides whether it is healthy. *)
Definition first_record (k : Z * pystr) (minutes : list QualityMinuteRecord)
  : option QualityMinuteRecord := List.find (fun r => bool_decide (minute_key r = k)) minutes.

Definition healthy_key (minutes : list QualityMinuteRecord) (k : Z * pystr) : Prop :=
  exists r, first_record k minutes = Some r /\ 0 < accepted r /\ rejected r = 0.

Lemma healthy_record_spec r : healthy_record r = true <-> 0 < accepted r /\ rejected r = 0.
Proof. unfold healthy_record. rewrite andb_true_iff, Z.ltb_lt, Z.eqb_eq. done. Qed.

Lemma find_app {A} (f : A -> bool) l1 l2 :
  List.find f (l1 ++ l2) = match List.find f l1 with Some x => Some x | None => List.find f l2 end.
Proof. induction l1 as [|x l1 IH]; cbn; [done|]. by destruct (f x). Qed.

Lemma first_record_None k l : first_record k l = None <-> k ∉ map minute_key l.
Proof.
  unfold first_record. induction l as [|r l IH]; cbn; [set_solver|].
  case_bool_decide as Hk; [subst; set_solver|]. rewrite IH, not_elem_of_cons. naive_solver.
Qed.

Lemma healthy_key_snoc l r k :
  healthy_key (l ++ [r]) k <->
  healthy_key l k \/ (k = minute_key r /\ (k ∉ map minute_key l) /\ healthy_record r = true).
Proof.
  unfold healthy_key. unfold first_record at 1. rewrite find_app. fold (first_record k l).
  rewrite <- first_record_None, healthy_record_spec. cbn [List.find].
  destruct (first_record k l) as [r'|]; [naive_solver|]. case_bool_decide; naive_solver.
Qed.

Lemma strict_healthy_keys minutes :
  exists keys : gset (Z * pystr), Z.of_nat (size keys) = strict_healthy_minutes minutes /\
    forall k, k ∈ keys <-> healthy_key minutes k.
Proof.
  unfold strict_healthy_minutes.
  enough (exists keys : gset (Z * pystr),
    fold_left count_minute minutes (∅, 0) = (list_to_set (map minute_key minutes), Z.of_nat (size keys)) /\
    forall k, k ∈ keys <-> healthy_key minutes k) as (keys & Hf & Hk) by (exists keys; by rewrite Hf).
  induction minutes as [|r l (keys & Hf & Hk)] using rev_ind.
  - exists ∅. split; [done|]. intros k. unfold healthy_key. set_solver.
  - rewrite fold_left_app, Hf. cbn [fold_left count_minute].
    assert (list_to_set (map minute_key (l ++ [r])) =
            {[minute_key r]} ∪ list_to_set (C:=gset _) (map minute_key l)) as ->.
    { rewrite map_app. set_solver. }
    case_bool_decide as Hin.
    + exists keys. split.
      * f_equal. symmetry. apply subseteq_union_1_L, singleton_subseteq_l, Hin.
      * intros k. rewrite Hk, healthy_key_snoc. rewrite elem_of_list_to_set in Hin. naive_solver.
    + rewrite elem_of_list_to_set in Hin. destruct (healthy_record r) eqn:Hr.
      * exists ({[minute_key r]} ∪ keys). split.
        -- f_equal. rewrite size_union, size_singleton; [lia|]. apply disjoint_singleton_l.
           intros (r' & Hr' & _)%Hk. assert (first_record (minute_key r) l = None) as E by by apply first_record_None.
           congruence.
        -- intros k. rewrite elem_of_union, elem_of_singleton, Hk, healthy_key_snoc. naive_solver.
      * exists keys. split; [done|]. intros k. rewrite Hk, healthy_key_snoc, Hr. split; [by left|by intros [?|(_ & _ & ?)]].
Qed.

(** ** The gates as propositions *)

(** Enough evidence: the acquisition window, days with every minute, healthy
    minutes and independent episodes. *)
Record sufficient (i : inputs) (episodes : Z) : Prop := {
  su_window : 7 * 86400000 <= terminated_at_ms (in_terminal i) - started_at_ms (in_manifest i);
  su_days : exists days : gset Z, 5 <= Z.of_nat (size days) /\
    forall d, d ∈ days -> complete_day (in_minutes i) d;
  su_healthy : exists keys : gset (Z * pystr), 9576 <= Z.of_nat (size keys) /\
    forall k, k ∈ keys -> healthy_key (in_minutes i) k;
  su_episodes : 20 <= episodes }.

(** Positive results that survive every stress; amounts are 10^-8 units. *)
Record profitable (e : SealedStageAEconomics) : Prop := {
  pr_total : 0 < scaled (total_net e);
  pr_median : 0 < scaled (median_net e);
  pr_usd_1000 : 0 < scaled (usd_1000_net e);
  pr_usd_5000 : 0 <= scaled (usd_5000_net e);
  pr_300ms : survived_delay_300ms e = true;
  pr_500ms : survived_delay_500ms e = true;
  pr_fees : survived_both_fee_cases e = true;
  pr_concentration : scaled (largest_episode_concentration e) < 25000000 }.

Lemma gate_nil {A} (b : bool) (x : A) l : (if b then [x] else []) ++ l = [] <-> b = false /\ l = [].
Proof. destruct b; cbn; naive_solver. Qed.

Lemma gate_nil' {A} (b : bool) (x : A) l : (if b then [] else [x]) ++ l = [] <-> b = true /\ l = [].
Proof. destruct b; cbn; naive_solver. Qed.

(** A counter reaches a bound when a set of that size has the property it counts. *)
Lemma counted_at_least `{Countable K} (P : K -> Prop) n k :
  (exists s : gset K, size s = n /\ forall x, x ∈ s <-> P x) ->
  k <= Z.of_nat n <-> exists s : gset K, k <= Z.of_nat (size s) /\ forall x, x ∈ s -> P x.
Proof.
  intros (s & <- & Hs). split.
  - intros Hk. exists s. split; [done|]. intros x. apply Hs.
  - intros (s' & Hk & Hs'). assert (s' ⊆ s) as Hsub by (intros x Hx; by apply Hs, Hs').
    apply subseteq_size in Hsub. lia.
Qed.

Lemma insufficiency_nil i episodes :
  insufficiency_reasons (in_manifest i) (in_terminal i) (in_minutes i) episodes = [] <->
  sufficient i episodes.
Proof.
  unfold insufficiency_reasons. rewrite !gate_nil, <- (app_nil_r (if episodes <? _ then _ else _)), gate_nil.
  pose proof (counted_at_least _ _ 5 (complete_utc_days_days (in_minutes i))) as Hd.
  destruct (strict_healthy_keys (in_minutes i)) as (keys & Hn & Hk).
  pose proof (counted_at_least _ _ 9576 (ex_intro _ keys (conj eq_refl Hk))) as Hh.
  rewrite !Z.ltb_ge, Nat.ltb_ge. unfold REQUIRED_WINDOW_MS, REQUIRED_WINDOW_MINUTES, REQUIRED_ACQUISITION_DAYS, MS_PER_DAY,
    REQUIRED_COMPLETE_UTC_DAYS, REQUIRED_HEALTHY_RATIO, MINUTES_PER_DAY,
    REQUIRED_INDEPENDENT_EPISODES in *. rewrite <- Hn.
  split.
  - intros (? & ? & ? & ? & _). split; [lia|apply Hd; lia|apply Hh; lia|done].
  - intros [? Hdays%Hd Hhealthy%Hh ?]. split_and!; [lia|lia|lia|done|done].
Qed.

Lemma stop_nil e : stop_reasons e = [] <-> profitable e.
Proof.
  unfold stop_reasons. rewrite <- (app_nil_r (if exact_ltb (largest_episode_concentration e) _ then _ else _)).
  rewrite !gate_nil, !gate_nil'. unfold exact_leb, exact_ltb, ZERO, CONCENTRATION_LIMIT. cbn [scaled].
  rewrite !Z.leb_gt, Z.ltb_ge, Z.ltb_lt. split; [intros; split|intros []]; naive_solver.
Qed.

Lemma make_decision_Ok d rs run :
  rs <> [] -> Forall (fun r => class_of r = d) rs ->
  make_decision d rs run = Ok (mkDecision d (sort_reasons rs) run STAGE_A_DECISION_SCHEMA STAGE_A_PACKAGE_SCHEMA).
Proof. intros Hne Hc. by apply stage_a_decision_init_Ok. Qed.

Lemma gate_class (b : bool) x l d : class_of x = d -> Forall (fun r => class_of r = d) l ->
  Forall (fun r => class_of r = d) ((if b then [x] else []) ++ l) /\
  Forall (fun r => class_of r = d) ((if b then [] else [x]) ++ l).
Proof. destruct b; cbn; auto. Qed.

Lemma insufficiency_class m t ms n :
  Forall (fun r => class_of r = INSUFFICIENT_EVIDENCE) (insufficiency_reasons m t ms n).
Proof.
  unfold insufficiency_reasons. rewrite <- (app_nil_r (if n <? _ then _ else _)).
  repeat first [apply gate_class; [reflexivity|] | apply Forall_nil_2].
Qed.

Lemma stop_class e : Forall (fun r => class_of r = STOP) (stop_reasons e).
Proof.
  unfold stop_reasons. rewrite <- (app_nil_r (if exact_ltb (largest_episode_concentration e) _ then _ else _)).
  repeat first [apply gate_class; [reflexivity|] | apply Forall_nil_2].
Qed.

Lemma invalid_Ok c run : exists rs, invalid c run =
  Ok (mkDecision INVALID_DATASET rs run STAGE_A_DECISION_SCHEMA STAGE_A_PACKAGE_SCHEMA).
Proof. eexists. apply make_decision_Ok; [done|]. by destruct c; repeat constructor. Qed.

(** The decision the gates come to. *)
Definition gate_decision (i : inputs) (economics : option SealedStageAEconomics) (d : StageADecisionCode)
  : Prop :=
  let episodes := match economics with None => 0 | Some e => independent_episode_count e end in
  match d with
  | INVALID_DATASET => False
  | INSUFFICIENT_EVIDENCE => ~ sufficient i episodes
  | STOP => exists e, economics = Some e /\ sufficient i episodes /\ ~ profitable e
  | EXTEND_LONGER_SHADOW => exists e, economics = Some e /\ sufficient i episodes /\ profitable e
  end.

Lemma decide_gates_spec i economics run :
  exists x, decide_gates i economics run = Ok x /\
    gate_decision i economics (sd_decision x) /\ capture_run_id x = Some run.
Proof.
  unfold decide_gates, gate_decision.
  set (episodes := match economics with None => 0 | Some e => independent_episode_count e end).
  pose proof (insufficiency_nil i episodes) as Hi.
  pose proof (insufficiency_class (in_manifest i) (in_terminal i) (in_minutes i) episodes) as Hc.
  destruct (insufficiency_reasons _ _ _ _) as [|r rs].
  - assert (sufficient i episodes) as Hs by by apply Hi. destruct economics as [e|].
    + pose proof (stop_nil e) as Hp. pose proof (stop_class e) as Hce.
      destruct (stop_reasons e) as [|r rs]; (rewrite make_decision_Ok by (done || by repeat constructor));
        eexists; (split; [reflexivity|]); cbn [sd_decision capture_run_id]; naive_solver.
    + destruct Hs as [_ _ _ Hs]. unfold episodes in Hs. lia.
  - rewrite make_decision_Ok by done. eexists; split; [reflexivity|]. cbn [sd_decision capture_run_id].
    split; [|done]. intros Hs%Hi. done.
Qed.

(** ** What can be raised on the way *)

Lemma or_return_caught {A} (m : result A) cs h rest :
  caught cs m -> or_return m cs h rest = match m with Ok a => rest a | Raise e => h e end.
Proof. destruct m as [|e]; [done|]. cbn. by intros ->. Qed.

Lemma mapping_snapshot_ids `{UnicodeTables} r run s :
  read_mapping_snapshot r run = Ok s -> Forall (fun m => mapping_id m <> []) (mappings s).
Proof.
  unfold read_mapping_snapshot, frozen_error. intros H1.
  apply bind_Ok in H1 as (_ & _ & (raw & _ & (j & _ & (doc & _ & (rows & _ & H1)%bind_Ok)%bind_Ok)%bind_Ok)%bind_Ok).
  destruct rows as [| | | | |rows|]; try done. apply bind_Ok in H1 as (ms & Hms & H1).
  unfold mapping_snapshot_init in H1. apply bind_Ok in H1 as (? & _ & [= <-]). cbn [mappings].
  apply try_except_Ok in Hms as [Hms|(? & _ & Hms)]; [|done]. apply mapR_Ok in Hms.
  induction Hms as [|row m rows ms Hm _ IH]; constructor; [|done].
  unfold mapping_from_document, frozen_error in Hm. destruct row; try done.
  repeat lazymatch type of Hm with mbind _ _ = _ => apply bind_Ok in Hm as (? & _ & Hm) end.
  apply mapping_init_Ok in Hm as [Ht _ _ _ _ _ _].
  apply Forall_inv in Ht. intros E. by rewrite E in Ht.
Qed.

Lemma read_inputs_ids `{UnicodeTables} r run i :
  read_inputs r run = Ok i -> Forall (fun m => mapping_id m <> []) (mappings (in_snapshot i)).
Proof.
  unfold read_inputs. intros H1. repeat (apply bind_Ok in H1 as (? & ? & H1)). injection H1 as <-.
  by eapply mapping_snapshot_ids.
Qed.

Lemma bind_books_caught i :
  Forall (fun m => mapping_id m <> []) (mappings (in_snapshot i)) ->
  caught [ReconstructionError; IdentityBindError; UnicodeDecodeError; JSONDecodeError; ExactError]
    (bind_books i).
Proof.
  intros Hids. unfold bind_books. apply caught_bind.
  - eapply caught_fails; [|apply reconstruct_books_fails]. left.
  - intros books Hb. eapply caught_fails; [|by eapply bind_reconstructed_books_fails]. right; left.
Qed.

Lemma closed_item d k :
  keys_equal d CLOSED_KEYS = true -> k ∈ CLOSED_KEYS -> exists j, json_item k d = Ok j.
Proof.
  unfold keys_equal, keys_cover. intros [_ Hc]%andb_true_iff Hk.
  rewrite forallb_forall in Hc. specialize (Hc k). rewrite <- list_elem_of_In in Hc.
  apply Hc, bool_decide_eq_true in Hk. unfold json_item. destruct (assoc k d) eqn:E; [by eexists|].
  by apply assoc_None in E.
Qed.

Lemma decode_economics_caught raw :
  caught [UnicodeDecodeError; JSONDecodeError; TypeError; ValueError; ExactError] (decode_economics raw).
Proof.
  set (cs := [UnicodeDecodeError; JSONDecodeError; TypeError; ValueError; ExactError]).
  assert (forall A (m : result A), fails_with ValueError m -> caught cs m) as Hv
    by (intros A m; apply caught_fails; unfold cs; set_solver).
  unfold decode_economics. apply caught_bind; [apply Hv, decode_utf8_value_error|]. intros text _.
  apply caught_bind; [apply Hv, json_loads_fails|]. intros j _. destruct j as [| | | | | |d]; try done.
  cbn [economics_from_document].
  apply caught_bind; [apply Hv; fails|]. intros _ Hk%raise_if_Ok. apply negb_false_iff in Hk.
  assert (forall B k (f : json -> result B), k ∈ CLOSED_KEYS -> (forall j, caught cs (f j)) ->
    caught cs (json_item k d ≫= f)) as Hitem.
  { intros B k f Hin Hf. destruct (closed_item d k Hk Hin) as [j ->]. apply Hf. }
  assert (forall j, caught cs (parse_money j)) as Hm.
  { intros j. destruct j; try done. apply Hv, exact_parse_fails. }
  assert (forall j, caught cs (require_bool j)) as Hb by (by intros []).
  assert (forall k, k ∈ CLOSED_KEYS -> caught cs (json_item k d ≫= parse_money)) as Hmk
    by (intros; by apply Hitem).
  assert (forall k, k ∈ CLOSED_KEYS -> caught cs (json_item k d ≫= require_bool)) as Hbk
    by (intros; by apply Hitem).
  assert (forall k, existsb (str_eqb k) CLOSED_KEYS = true -> k ∈ CLOSED_KEYS) as Hin.
  { intros k (x & Hx%list_elem_of_In & ->%str_eqb_spec)%existsb_exists. done. }
  apply Hitem; [by apply Hin|]. intros s. apply caught_bind; [apply Hv; fails|]. intros _ _.
  apply Hitem; [by apply Hin|]. intros c. apply caught_bind; [by destruct c|]. intros z _.
  apply caught_bind; [apply Hv; fails|]. intros _ _.
  do 5 (apply caught_bind; [apply Hmk, Hin; reflexivity|]; intros ? _).
  do 3 (apply caught_bind; [apply Hbk, Hin; reflexivity|]; intros ? _).
  apply Hv. unfold economics_init. fails.
Qed.

(** ** Admitted and rejected packages *)

(** What [economics.json] says, when it is declared. *)
Definition sealed_economics (r : reader) (economics : option SealedStageAEconomics) : Prop :=
  match economics with
  | None => optional_member_bytes r ECONOMICS_MEMBER = Ok None
  | Some e => exists raw, optional_member_bytes r ECONOMICS_MEMBER = Ok (Some raw) /\
      decode_economics raw = Ok e
  end.

(** Everything before the gates went through. *)
Record admitted `{UnicodeTables} (root : option node) (r : reader) (i : inputs)
    (economics : option SealedStageAEconomics) : Prop := {
  ad_verified : reader_init root = Ok r /\ verified_package root r;
  ad_inputs : read_inputs r (rd_run_id r) = Ok i;
  ad_books : exists books, bind_books i = Ok books;
  ad_economics : sealed_economics r economics }.

(** Some check before the gates refused the package. *)
Definition rejected `{UnicodeTables} (root : option node) : Prop :=
  (exists e, reader_init root = Raise e /\ exn_class e = FrozenPackageError) \/
  exists r, reader_init root = Ok r /\
    ((exists e, read_inputs r (rd_run_id r) = Raise e /\ exn_class e = FrozenPackageError) \/
     exists i, read_inputs r (rd_run_id r) = Ok i /\
       ((exists e, bind_books i = Raise e) \/
        exists books raw e, bind_books i = Ok books /\
          optional_member_bytes r ECONOMICS_MEMBER = Ok (Some raw) /\ decode_economics raw = Raise e)).

(** The bytes of every member were read when the reader was constructed. *)
Lemma optional_member_Ok root r p :
  verified_package root r -> exists o, optional_member_bytes r p = Ok o.
Proof.
  intros Hv. unfold optional_member_bytes. destruct (assoc p (rd_declared r)) as [g|] eqn:E; cbn [isSome].
  - apply assoc_elem in E. destruct (Forall_at _ _ _ (vp_digests _ _ Hv) E) as (b & Hb & _). cbn in Hb.
    rewrite Hb. by eexists.
  - by eexists.
Qed.

Lemma frozen_caught {A} (m : result A) e : coded m -> m = Raise e ->
  (exn_class e = FrozenPackageError /\ exists c, error_code e = Ok c) \/
  (exn_class e <> FrozenPackageError /\
   existsb (exc_subclass (exn_class e)) [FrozenPackageError] = false).
Proof.
  intros Hm ->. cbn in Hm. unfold coded_exn in Hm. destruct (decide (exn_class e = FrozenPackageError)) as [He|He].
  - left. split; [done|]. specialize (Hm He). destruct (error_code e) as [c|]; [by exists c|done].
  - right. split; [done|]. by destruct (exn_class e).
Qed.

Section evaluation.
Context `{UnicodeTables}.

Lemma coded_read_inputs r run : coded (read_inputs r run).
Proof using. unfold read_inputs. coded. Qed.

Lemma evaluate_cases root :
  match evaluate_frozen_package root with
  | Ok x =>
    (rejected root /\ sd_decision x = INVALID_DATASET) \/
    exists r i economics, admitted root r i economics /\
      gate_decision i economics (sd_decision x) /\ capture_run_id x = Some (rd_run_id r)
  | Raise e =>
    exn_class e <> FrozenPackageError /\
    (reader_init root = Raise e \/
     exists r, reader_init root = Ok r /\ read_inputs r (rd_run_id r) = Raise e)
  end.
Proof using.
  unfold evaluate_frozen_package.
  assert (forall c run, exists x, invalid c run = Ok x /\ sd_decision x = INVALID_DATASET) as Hinv.
  { intros c run. destruct (invalid_Ok c run) as [rs ->]. by eexists. }
  destruct (reader_init root) as [r|e] eqn:Hr; cbn [or_return].
  2: { destruct (frozen_caught _ e (coded_reader_init root) Hr) as [[He [c Hc]]|[He Hn]].
       - rewrite He, Hc.
         change (existsb (exc_subclass FrozenPackageError) [FrozenPackageError]) with true. destruct (Hinv c None) as (x & Hx & Hd).
         cbn [mbind result_bind]. rewrite Hx.
         left. split; [left; by exists e|done].
       - rewrite Hn. split; [done|by left]. }
  pose proof (reader_init_verified root r Hr) as Hver.
  destruct (read_inputs r (rd_run_id r)) as [i|e] eqn:Hi; cbn [or_return].
  2: { destruct (frozen_caught _ e (coded_read_inputs r _) Hi) as [[He [c Hc]]|[He Hn]].
       - rewrite He, Hc.
         change (existsb (exc_subclass FrozenPackageError) [FrozenPackageError]) with true. destruct (Hinv c (Some (rd_run_id r))) as (x & Hx & Hd).
         cbn [mbind result_bind]. rewrite Hx.
         left. split; [|done]. right. exists r. split; [done|]. left. by exists e.
       - rewrite Hn. split; [done|]. right. by exists r. }
  rewrite or_return_caught by by eapply bind_books_caught, read_inputs_ids.
  destruct (bind_books i) as [books|e] eqn:Hb.
  2: { destruct (Hinv RECORD_INVALID (Some (rd_run_id r))) as (x & -> & Hd). left. split; [|done].
       right. exists r. split; [done|]. right. exists i. split; [done|]. left. by exists e. }
  unfold with_economics. destruct (optional_member_Ok root r ECONOMICS_MEMBER Hver) as [o Ho].
  rewrite Ho. cbn [mbind result_bind].
  assert (forall economics, sealed_economics r economics ->
    match decide_gates i economics (rd_run_id r) with
    | Ok x => exists r i economics, admitted root r i economics /\
        gate_decision i economics (sd_decision x) /\ capture_run_id x = Some (rd_run_id r)
    | Raise _ => False
    end) as Hgates.
  { intros economics He. destruct (decide_gates_spec i economics (rd_run_id r)) as (x & -> & Hd & Hx).
    exists r, i, economics. split; [|done]. split; [done..|by exists books|done]. }
  destruct o as [raw|].
  - rewrite or_return_caught by apply decode_economics_caught.
    destruct (decode_economics raw) as [economics|e] eqn:Hde.
    + specialize (Hgates (Some economics) ltac:(by exists raw)). destruct (decide_gates _ _ _); [by right|done].
    + destruct (Hinv RECORD_INVALID (Some (rd_run_id r))) as (x & -> & Hd). left. split; [|done].
      right. exists r. split; [done|]. right. exists i. split; [done|]. right. by exists books, raw, e.
  - specialize (Hgates None Ho). destruct (decide_gates _ _ _); [by right|done].
Qed.

Lemma admitted_unique root r i e r' i' e' :
  admitted root r i e -> admitted root r' i' e' -> r' = r /\ i' = i /\ e' = e.
Proof using.
  intros [[Hr _] Hi _ He] [[Hr' _] Hi' _ He']. rewrite Hr in Hr'. injection Hr' as <-.
  rewrite Hi in Hi'. injection Hi' as <-. split; [done|]. split; [done|].
  unfold sealed_economics in *. destruct e, e'; naive_solver congruence.
Qed.

Lemma admitted_not_rejected root r i e : admitted root r i e -> ~ rejected root.
Proof using.
  intros [[Hr _] Hi [books Hb] He] [(x & Hx & _)|(r' & Hr' & [(x & Hx & _)|(i' & Hi' &
    [(x & Hx)|(bs & raw & x & _ & Ho & Hd)])])]; try congruence.
  all: rewrite Hr in Hr'; injection Hr' as <-; try congruence.
  all: rewrite Hi in Hi'; injection Hi' as <-; try congruence.
  unfold sealed_economics in He. destruct e as [e|]; [destruct He as (raw' & Hraw & Hde)|]; congruence.
Qed.

Lemma gate_decision_unique i e c d : gate_decision i e c -> gate_decision i e d -> c = d.
Proof using. destruct c, d, e; cbn; naive_solver. Qed.
End evaluation.

(** ** Sealed claims through their bytes *)

Lemma exact_str_chars x : Forall (fun c => 45 <= c <= 57) (exact_str x).
Proof.
  assert (forall s, ascii_digits s -> Forall (fun c => 45 <= c <= 57) s) as Hdig.
  { intros s Hs. eapply Forall_impl; [exact Hs|]. cbn. lia. }
  assert (Forall (fun c => 45 <= c <= 57) (if scaled x <? 0 then u "-" else [])) as Hsign
    by (destruct (scaled x <? 0); [by repeat constructor|apply Forall_nil_2]).
  unfold exact_str. destruct (_ =? 0).
  { apply Forall_app. split; [done|]. apply Hdig, str_of_nonneg_ascii. }
  rewrite !Forall_app. split_and!; [done|apply Hdig, str_of_nonneg_ascii|by repeat constructor|].
  destruct (str_rstrip_spec 48 (pad_zeros DECIMALS (str_of_nonneg 10 (Z.abs (scaled x) mod SCALE))))
    as (k & Hk & _).
  assert (Forall (fun c => 45 <= c <= 57)
    (pad_zeros DECIMALS (str_of_nonneg 10 (Z.abs (scaled x) mod SCALE)))) as Hp.
  { unfold pad_zeros. apply Forall_app. split; [|apply Hdig, str_of_nonneg_ascii].
    apply Forall_forall. intros c ->%list_elem_of_In%repeat_spec. lia. }
  rewrite Hk in Hp. by apply Forall_app in Hp as [? _].
Qed.

Lemma exact_str_text x : text_ok (exact_str x) = true.
Proof.
  apply forallb_forall. intros c Hc%list_elem_of_In.
  pose proof (proj1 (Forall_forall _ _) (exact_str_chars x) c Hc). unfold scalar_value. cbn in *.
  rewrite !(proj2 (Z.leb_le _ _)), (proj2 (Z.leb_gt _ _)) by lia. done.
Qed.

Lemma economics_plain e : economics_wf e -> json_plain (economics_document e) = true.
Proof.
  intros [Hs _ _]. unfold economics_document. cbn [json_plain forallb fst snd]. rewrite Hs, !exact_str_text.
  vm_compute. reflexivity.
Qed.

Lemma economics_bytes e b :
  economics_wf e -> economics_to_canonical_json e = Ok b -> decode_economics b = Ok e.
Proof.
  intros Hwf (text & Ht & [= <-])%bind_Ok. pose proof (economics_plain e Hwf) as Hp.
  pose proof (dumps_printable canonical_style _ text ltac:(by left) Hp Ht) as Hpr.
  unfold decode_economics. rewrite decode_utf8_ascii.
  2: { apply Forall_app. split; [|by repeat constructor]. eapply Forall_impl; [exact Hpr|]. unfold printable. cbn. lia. }
  cbn [mbind result_bind].
  rewrite (loads_dumps canonical_style (economics_document e) text [10]);
    [|by left|done|done|by repeat constructor].
  cbn [mbind result_bind]. rewrite <- (economics_document_decodes e Hwf). f_equal.
Qed.

(** ** Properties *)

(** C1: the decision of a package, for each of the four codes: it is invalid
    exactly when a check before the gates refuses it, and otherwise, the package
    being verified, read and bound, the evidence and the sealed economics decide:
    insufficient, stop, or extend when every gate passes. *)
Theorem evaluate_decides `{UnicodeTables} root c :
  (exists x, evaluate_frozen_package root = Ok x /\ sd_decision x = c) <->
  match c with
  | INVALID_DATASET => rejected root
  | _ => exists r i economics, admitted root r i economics /\ gate_decision i economics c
  end.
Proof.
  pose proof (evaluate_cases root) as Hcases. split.
  - intros (x & Hx & <-). rewrite Hx in Hcases. destruct Hcases as [[Hrej ->]|(r & i & e & Ha & Hg & _)].
    + done.
    + destruct (sd_decision x); [done|..]; by exists r, i, e.
  - destruct (evaluate_frozen_package root) as [x|e].
    + intros Hc. exists x. split; [done|]. destruct Hcases as [[Hrej ->]|(r & i & e & Ha & Hg & _)].
      * destruct c; [done|..]; destruct Hc as (r & i & e & Ha & _); by apply admitted_not_rejected in Ha.
      * destruct c; [by apply admitted_not_rejected in Ha|..];
          destruct Hc as (r' & i' & e' & Ha' & Hg'); destruct (admitted_unique _ _ _ _ _ _ _ Ha Ha') as (-> & -> & ->);
          by eapply gate_decision_unique.
    + destruct Hcases as [He [Hr|(r & Hr & Hi)]]; intros Hc; exfalso.
      * destruct c; [destruct Hc as [(e' & He' & Hx)|(r & Hr' & _)]; congruence|..];
          destruct Hc as (r & i & x & [[Hr' _] _ _ _] & _); congruence.
      * destruct c.
        -- destruct Hc as [(e' & He' & Hx)|(r' & Hr' & [(e' & Hi' & Hx)|(i & Hi' & _)])]; congruence.
        -- destruct Hc as (r' & i & x & [[Hr' _] Hi' _ _] & _); congruence.
        -- destruct Hc as (r' & i & x & [[Hr' _] Hi' _ _] & _); congruence.
        -- destruct Hc as (r' & i & x & [[Hr' _] Hi' _ _] & _); congruence.
Qed.

(** Whatever escapes the evaluation was raised, outside the package errors, by
    the construction of the reader or by the reading of a member: neither the
    reconstruction, the binding, the economics nor the gates raise. *)
Theorem evaluate_escapes `{UnicodeTables} root :
  match evaluate_frozen_package root with
  | Ok x => True
  | Raise e => exn_class e <> FrozenPackageError /\
      (reader_init root = Raise e \/
       exists r, reader_init root = Ok r /\ read_inputs r (rd_run_id r) = Raise e)
  end.
Proof. pose proof (evaluate_cases root). by destruct (evaluate_frozen_package root). Qed.

(** The counter of complete days is the number of UTC days every minute of
    which has a record. *)
Theorem complete_utc_days_spec minutes :
  exists days : gset Z, size days = complete_utc_days minutes /\
    forall d, d ∈ days <-> complete_day minutes d.
Proof. apply complete_utc_days_days. Qed.

(** The counter of healthy minutes is the number of pairs of a start time and
    a venue whose first record accepted something and rejected nothing. *)
Theorem strict_healthy_minutes_spec minutes :
  exists keys : gset (Z * pystr), Z.of_nat (size keys) = strict_healthy_minutes minutes /\
    forall k, k ∈ keys <-> healthy_key minutes k.
Proof. apply strict_healthy_keys. Qed.

(** The canonical bytes of a claims record decode to that record exactly when the
    record is valid: the fixed schema, a count that is not negative, and amounts of 64
    bits; and whatever bytes decode, decode to a valid record. *)
Theorem sealed_economics_roundtrip e :
  (forall b, economics_to_canonical_json e = Ok b -> (decode_economics b = Ok e <-> economics_wf e)) /\
  ((exists b, decode_economics b = Ok e) -> economics_wf e).
Proof.
  assert (forall b, decode_economics b = Ok e -> economics_wf e) as Hwf.
  { intros b (text & _ & (j & _ & H)%bind_Ok)%bind_Ok. by apply economics_from_document_wf in H. }
  split; [|by intros (b & ?%Hwf)]. intros b Hb. split; [apply Hwf|]. intros ?. by apply economics_bytes.
Qed.
