(* ===== verification/Package.v ===== *)
(** * [liqvera_public_capture.package]: the writer of frozen packages

    [write_frozen_package] over the directory model of [FrozenPackage].  Proved
    here: the reader of the analyzer accepts every package it writes and reads
    back the envelopes, the acquisition window and the mappings that were given. *)

From S2P Require Import Prelude PyStr Num Exact PyObj Json JsonRoundtrip Bytes ByteLaws Market Provenance.
From S2P Require Import Decision Evidence FrozenPackage.
Open Scope Z_scope.

(** ** The reviewed mappings *)

Definition btc_identity : json :=
  JDict [(u "base_asset", JStr (u "BTC")); (u "quote_asset", JStr (u "USD"));
         (u "product_kind", JStr (u "perp")); (u "settlement_asset", JStr (u "USD"));
         (u "payoff_kind", JStr (u "linear"))].

(** The rows [REVIEWED_BTC] and [REVIEWED_LIGHTER_BTC] share but for three entries. *)
Definition reviewed_row (id venue : pystr) : list (pystr * json) :=
  [(u "mapping_id", JStr id); (u "mapping_version", JStr (u "v1"));
   (u "decision", JStr (u "APPROVED")); (u "venue", JStr venue); (u "symbol", JStr (u "BTC"));
   (u "identity", btc_identity); (u "evidence_sha256", JStr (repeat 97 64));
   (u "evidence_reference", JStr (u "reviewed/v1")); (u "valid_from_ms", JInt 0);
   (u "valid_until_ms", JNull); (u "reviewed_contract_multiplier", JStr (u "1"));
   (u "displayed_size_unit", JStr (u "coin")); (u "quantity_step", JStr (u "0.001"));
   (u "price_tick", JStr (u "0.1")); (u "price_decimals", JNull);
   (u "max_price_significant_digits", JNull); (u "min_quantity", JNull);
   (u "min_notional", JStr (u "10"))].

Definition REVIEWED_BTC : json := JDict (reviewed_row (u "btc-usd-linear-perpetual") (u "hyperliquid")).
Definition REVIEWED_LIGHTER_BTC : json :=
  JDict (reviewed_row (u "lighter-btc-usd-linear-perpetual") (u "lighter") ++
         [(u "lighter_market_index", JInt 1)]).

(** ** Writing files *)

(** [target.parent.mkdir(parents=True, exist_ok=True); target.write_bytes(payload)]
    under a directory that holds only what the writer put there. *)
Fixpoint write_parts (parts : list pystr) (payload : bytes) (d : directory) : directory :=
  match parts with
  | [] => d
  | [p] => assoc_set p (File payload) d
  | p :: parts =>
    let sub := match assoc p d with Some (Directory s) => s | _ => [] end in
    assoc_set p (Directory (write_parts parts payload sub)) d
  end.

Definition write_path (path : pystr) (payload : bytes) (d : directory) : directory :=
  write_parts (str_split 47 path) payload d.

(** [_clear_package_root]: no entry survives, whatever it is. *)
Definition clear_package_root (d : directory) : directory :=
  fold_left (fun d child => assoc_del (fst child) d) d d.

(** ** The members *)

(** [json.dumps(document) + "\n"], encoded; the text is ASCII. *)
Definition dumps_line (j : json) : result bytes :=
  text ← json_dumps_with default_style j; Ok (text ++ [10]).

Definition envelope_row (started_at_ms : Z) (index : Z) (venue : pystr) (payload : bytes) : json :=
  JDict [(u "envelope_index", JInt index); (u "observed_at_ms", JInt started_at_ms);
         (u "venue", JStr venue); (u "payload_hex", JStr (bytes_hex payload))].

(** [enumerate(l, i)] *)
Fixpoint enumerate {A} (i : Z) (l : list A) : list (Z * A) :=
  match l with [] => [] | x :: l => (i, x) :: enumerate (i + 1) l end.

Definition envelope_ndjson (started_at_ms : Z) (envelopes : list (pystr * bytes)) : result bytes :=
  lines ← mapR (fun x => dumps_line (envelope_row started_at_ms (fst x) (fst (snd x)) (snd (snd x))))
            (enumerate 0 envelopes);
  Ok (concat lines).

Definition control_row (started_at_ms : Z) (batch_payload : bytes) : json :=
  JDict [(u "recorded_at_ms", JInt started_at_ms); (u "kind", JStr (u "epoch"));
         (u "payload_sha256", JStr (sha256_hex batch_payload))].

Definition minute_row (started_at_ms : Z) (venue : pystr) : json :=
  JDict [(u "minute_start_ms", JInt (started_at_ms - started_at_ms mod 60000));
         (u "venue", JStr venue); (u "accepted", JInt 1); (u "rejected", JInt 0)].

Definition terminal_document (terminated_at_ms : Z) : json :=
  JDict [(u "terminated_at_ms", JInt terminated_at_ms); (u "status", JStr (u "sealed"))].

(** The dictionary [members], in its order. *)
Definition package_members (started_at_ms terminated_at_ms : Z) (venues : list pystr)
    (batch_payload : bytes) (envelopes : list (pystr * bytes)) (mappings : list json)
  : result (list (pystr * bytes)) :=
  rows ← envelope_ndjson started_at_ms envelopes;
  control ← dumps_line (control_row started_at_ms batch_payload);
  venue ← expect (head venues) IndexError "tuple index out of range";
  minutes ← dumps_line (minute_row started_at_ms venue);
  mapping ← dumps_line (JDict [(u "mappings", JList mappings)]);
  terminal ← dumps_line (terminal_document terminated_at_ms);
  Ok [(u "control_evidence/records.ndjson", control); (u "raw_batches/0.bin", batch_payload);
      (u "raw_envelopes/records.ndjson", rows); (u "quality_minutes/records.ndjson", minutes);
      (u "mapping_snapshot.json", mapping); (u "terminal.json", terminal)].

Definition member_declaration (m : pystr * bytes) : json :=
  JDict [(u "path", JStr (fst m)); (u "sha256", JStr (sha256_hex (snd m)));
         (u "length", JInt (Z.of_nat (length (snd m))))].

(** [unsigned] before its digest is added. *)
Definition manifest_fields (run_id : uuid) (started_at_ms : Z) (venues : list pystr)
    (members : list (pystr * bytes)) : list (pystr * json) :=
  [(u "schema", JStr PACKAGE_SCHEMA); (u "capture_run_id", JStr (uuid_str run_id));
   (u "started_at_ms", JInt started_at_ms); (u "venue_set", JList (map JStr venues));
   (u "members", JList (map member_declaration members))].

Definition write_members (members : list (pystr * bytes)) (d : directory) : directory :=
  fold_left (fun d m => write_path (fst m) (snd m) d) members d.

(** [write_frozen_package]: the node at the root afterwards, and the outcome. *)
Definition write_frozen_package (root_is_absolute : bool) (root : option node) (run_id : uuid)
    (started_at_ms terminated_at_ms : Z) (venues : list pystr) (envelopes : list (pystr * bytes))
    (mappings : list json) : option node * result unit :=
  if negb root_is_absolute then (root, raise ValueError "package root must be absolute")
  else
    let exists_root := match root with Some n => isSome (follow n) | None => false end in
    let usable := match root with Some n => negb (is_symlink n) && is_directory n | None => true end in
    if exists_root && negb usable then (root, raise ValueError "package root must be a real directory")
    else match envelopes with
    | [] => (root, raise ValueError "envelopes must not be empty")
    | (_, batch_payload) :: _ =>
      if isSome root && negb exists_root then (root, raise FileExistsError "package root")
      else
        let d := clear_package_root match root with Some (Directory d) => d | _ => [] end in
        match package_members started_at_ms terminated_at_ms venues batch_payload envelopes mappings with
        | Raise e => (Some (Directory d), Raise e)
        | Ok members =>
          let d := write_members members d in
          let fields := manifest_fields run_id started_at_ms venues members in
          match canonical_json_bytes (JDict fields) with
          | Raise e => (Some (Directory d), Raise e)
          | Ok signed_text =>
            match canonical_json_bytes (JDict (fields ++
                    [(u "manifest_sha256", JStr (sha256_hex signed_text))])) with
            | Raise e => (Some (Directory d), Raise e)
            | Ok manifest => (Some (Directory (assoc_set (u "manifest.json") (File manifest) d)), Ok tt)
            end
          end
        end
    end.

(** ** What the codec of the analyzer reads back *)

Lemma arranged_default j : json_arranged default_style j = j.
Proof.
  induction j as [| | | | |l IH|d IH] using json_ind_nested; cbn [json_arranged default_style sort_keys]; try done.
  - f_equal. induction IH as [|x l Hx _ IHl]; cbn [map]; [done|]. by rewrite Hx, IHl.
  - f_equal. induction IH as [|[k x] d Hx _ IHd]; cbn [map fst snd]; [done|]. cbn in Hx. by rewrite Hx, IHd.
Qed.

Lemma printable_ascii_text s : Forall printable s -> Forall (fun c => c < 128) (s ++ [10]).
Proof.
  intros Hs. apply Forall_app. split; [|by repeat constructor].
  eapply Forall_impl; [exact Hs|]. unfold printable. cbn. lia.
Qed.

Lemma newline_space : Forall (fun c => json_space c = true) [10].
Proof. by repeat constructor. Qed.

Lemma canonical_decoded j b :
  json_plain j = true -> canonical_json_bytes j = Ok b ->
  decode_canonical_json b = Ok (json_arranged canonical_style j).
Proof.
  unfold canonical_json_bytes. intros Hp (text & Ht & [= <-])%bind_Ok.
  pose proof (dumps_printable canonical_style j text ltac:(by left) Hp Ht) as Hpr.
  unfold decode_canonical_json, ends_with_newline. rewrite rev_app_distr. cbn [rev app Z.eqb Pos.eqb negb].
  cbn [frozen_if raise_if mbind result_bind]. rewrite decode_ascii_printable by by apply printable_ascii_text.
  cbn [mbind result_bind]. rewrite (loads_dumps canonical_style j text [10]) by (done || (by left) || apply newline_space).
  done.
Qed.

Definition is_object (j : json) : Prop := match j with JDict _ => True | _ => False end.

(** A file of lines, one document each, is read as these documents. *)
Lemma ndjson_read r path js bs :
  read_bytes path (rd_root r) = Ok (concat bs) ->
  Forall2 (fun j b => dumps_line j = Ok b) js bs ->
  Forall (fun j => json_plain j = true /\ is_object j) js ->
  read_ndjson r path = Ok js.
Proof.
  intros Hread Hjs Hp.
  assert (exists ws, bs = map (fun w => w ++ [10]) ws /\
    Forall2 (fun j w => json_dumps_with default_style j = Ok w) js ws) as (ws & -> & Hws).
  { clear Hread Hp. induction Hjs as [|j b js bs Hj _ (ws & -> & Hws)]; [by exists []|].
    unfold dumps_line in Hj. apply bind_Ok in Hj as (w & Hw & [= <-]). exists (w :: ws). split; [done|].
    by constructor. }
  assert (Forall is_line ws) as Hlines.
  { clear Hread Hjs. induction Hws as [|j w js ws Hj _ IH]; [constructor|].
    apply Forall_cons in Hp as [[Hpj _] Hp]. constructor; [|by apply IH].
    exact (dumps_printable default_style j w ltac:(by right) Hpj Hj). }
  unfold read_ndjson. rewrite Hread. cbn [mbind result_bind]. fold (lines_text ws).
  rewrite read_text_lines by done. cbn [mbind result_bind]. rewrite split_lines_text by done.
  apply mapR_Ok. clear Hread Hjs Hlines. induction Hws as [|j w js ws Hj _ IH]; [constructor|].
  apply Forall_cons in Hp as [[Hpj Hobj] Hp]. constructor; [|by apply IH].
  pose proof (loads_dumps default_style j w [] ltac:(by right) Hpj Hj (Forall_nil_2 _)) as Hl.
  rewrite app_nil_r, arranged_default in Hl. rewrite Hl. cbn [mbind result_bind]. by destruct j.
Qed.

(** A text file of one document. *)
Lemma document_read b j :
  json_plain j = true -> dumps_line j = Ok b ->
  read_text b = Ok b /\ decode_utf8 b = Ok b /\ json_loads b = Ok j.
Proof.
  unfold dumps_line. intros Hp (w & Hw & [= <-])%bind_Ok.
  pose proof (dumps_printable default_style j w ltac:(by right) Hp Hw) as Hpr.
  pose proof (loads_dumps default_style j w [10] ltac:(by right) Hp Hw newline_space) as Hl.
  rewrite arranged_default in Hl. split_and!; [|by apply decode_utf8_ascii, printable_ascii_text|done].
  pose proof (read_text_lines [w] ltac:(by repeat constructor)) as Ht.
  unfold lines_text in Ht. cbn [map concat] in Ht. by rewrite app_nil_r in Ht.
Qed.

(** ** The written directory *)

Section written_directory.
Context (control batch rows minutes mapping terminal manifest : bytes).

Definition written_members : list (pystr * bytes) :=
  [(u "control_evidence/records.ndjson", control); (u "raw_batches/0.bin", batch);
   (u "raw_envelopes/records.ndjson", rows); (u "quality_minutes/records.ndjson", minutes);
   (u "mapping_snapshot.json", mapping); (u "terminal.json", terminal)].

Definition written_directory : directory :=
  assoc_set (u "manifest.json") (File manifest) (write_members written_members []).

Lemma written_manifest : open_manifest (Some (Directory written_directory)) = Ok (written_directory, manifest).
Proof using. reflexivity. Qed.

Lemma written_files :
  scan_regular_files written_directory =
  Ok [u "control_evidence/records.ndjson"; u "manifest.json"; u "mapping_snapshot.json";
      u "quality_minutes/records.ndjson"; u "raw_batches/0.bin"; u "raw_envelopes/records.ndjson";
      u "terminal.json"].
Proof using. reflexivity. Qed.

Lemma written_lookup :
  Forall (fun m => lookup_path (fst m) written_directory = Some (File (snd m))) written_members.
Proof using. unfold written_members. repeat apply Forall_cons_2; first [reflexivity|apply Forall_nil_2]. Qed.

Lemma written_paths :
  Forall (fun m => require_relative_member (fst m) = Ok tt /\ str_eqb (fst m) (u "manifest.json") = false)
    written_members /\ NoDup (map fst written_members).
Proof using.
  split; [unfold written_members; repeat apply Forall_cons_2; first [split; reflexivity|apply Forall_nil_2]|].
  apply (bool_decide_unpack _). reflexivity.
Qed.

Lemma written_required :
  existsb (fun p => negb (isSome (assoc p (map (fun m => (fst m, sha256_hex (snd m))) written_members))))
    REQUIRED_MEMBERS = false.
Proof using.
  unfold written_members. cbn [map fst snd].
  generalize (sha256_hex control) (sha256_hex batch) (sha256_hex rows) (sha256_hex minutes)
    (sha256_hex mapping) (sha256_hex terminal). intros. reflexivity.
Qed.
End written_directory.

Lemma read_written p b d : lookup_path p d = Some (File b) -> read_bytes p d = Ok b.
Proof. unfold read_bytes. by intros ->. Qed.

Lemma verify_written d ms :
  Forall (fun m => lookup_path (fst m) d = Some (File (snd m))) ms ->
  foldM (verify_member d) tt (map (fun m => (fst m, sha256_hex (snd m))) ms) = Ok tt.
Proof.
  induction 1 as [|[p b] ms Hm _ IH]; cbn [map foldM fst snd] in *; [done|].
  unfold verify_member. rewrite Hm, (read_written p b d Hm). cbn [is_symlink frozen_if raise_if mbind result_bind].
  rewrite str_eqb_refl. exact IH.
Qed.

Lemma arranged_declaration m :
  json_arranged canonical_style (member_declaration m) =
  JDict [(u "length", JInt (Z.of_nat (length (snd m)))); (u "path", JStr (fst m));
         (u "sha256", JStr (sha256_hex (snd m)))].
Proof.
  unfold member_declaration. generalize (Z.of_nat (length (snd m))) (sha256_hex (snd m)). reflexivity.
Qed.

Lemma declare_written ms :
  Forall (fun m => require_relative_member (fst m) = Ok tt /\ str_eqb (fst m) (u "manifest.json") = false) ms ->
  forall declared, NoDup (map fst (declared ++ map (fun m => (fst m, sha256_hex (snd m))) ms)) ->
  foldM declare_member declared (map (fun m => json_arranged canonical_style (member_declaration m)) ms) =
  Ok (declared ++ map (fun m => (fst m, sha256_hex (snd m))) ms).
Proof.
  induction 1 as [|[p b] ms [Hrel Hman] _ IH]; intros declared Hnd; cbn [map foldM fst snd] in *;
    [by rewrite app_nil_r|].
  rewrite arranged_declaration. cbn [fst snd].
  assert (assoc p declared = None) as Hnone.
  { apply assoc_None. rewrite map_app in Hnd. apply NoDup_app in Hnd as (_ & Hd & _).
    intros Hin. apply (Hd p Hin). left. }
  assert (declare_member declared (JDict [(u "length", JInt (Z.of_nat (length b))); (u "path", JStr p);
    (u "sha256", JStr (sha256_hex b))]) = Ok (declared ++ [(p, sha256_hex b)])) as ->.
  { pose proof (sha256_hex_length b) as Hl. pose proof (sha256_hex_chars b) as Hc.
    generalize dependent (sha256_hex b). intros h _ Hl Hc.
    change (json_get (u "path") _) with (JStr p).
    assert (existsb (fun c => negb (lower_hex c)) h = false) as Hlow.
    { apply not_true_is_false. intros (c & Hin%list_elem_of_In & Hx)%existsb_exists.
      apply (Forall_at _ _ _ Hc), lower_hex_spec in Hin. by rewrite Hin in Hx. }
    assert (assoc_set p h declared = declared ++ [(p, h)]) as Hset.
    { by apply assoc_set_new, assoc_None. }
    unfold declare_member. change (json_get (u "path") _) with (JStr p).
    change (json_get (u "sha256") _) with (JStr h). cbv iota.
    rewrite Hrel, Hman, Hnone, Hl, Hlow, Hset. done. }
  cbn [mbind result_bind]. rewrite IH; by rewrite <- app_assoc.
Qed.

(** ** The written manifest *)

Lemma uuid_text_ok n : text_ok (uuid_str n) = true.
Proof.
  apply forallb_forall. intros c Hc%list_elem_of_In. apply (Forall_at _ _ _ (uuid_str_chars n)) in Hc.
  destruct Hc as [-> | Hc]; [done|]. unfold scalar_value, hexchar in *.
  rewrite !andb_true_iff, !Z.leb_le, negb_true_iff, andb_false_iff, !Z.leb_gt. lia.
Qed.

(** The manifest's members in the order of their names, with and without digest. *)
Definition signed_document (run_text h : pystr) (s : Z) (vs ms : list json) : list (pystr * json) :=
  [(u "capture_run_id", JStr run_text); (u "manifest_sha256", JStr h); (u "members", JList ms);
   (u "schema", JStr PACKAGE_SCHEMA); (u "started_at_ms", JInt s); (u "venue_set", JList vs)].

Definition unsigned_document (run_text : pystr) (s : Z) (vs ms : list json) : list (pystr * json) :=
  [(u "schema", JStr PACKAGE_SCHEMA); (u "capture_run_id", JStr run_text);
   (u "started_at_ms", JInt s); (u "venue_set", JList vs); (u "members", JList ms)].

Lemma arranged_signed id h s vs ms :
  json_arranged canonical_style (JDict (unsigned_document id s vs ms ++ [(u "manifest_sha256", JStr h)])) =
  JDict (signed_document id h s (map (json_arranged canonical_style) vs) (map (json_arranged canonical_style) ms)).
Proof. reflexivity. Qed.

Lemma arranged_unsigned id h s vs ms :
  json_arranged canonical_style (JDict (unsigned_document id s vs ms)) =
  JDict (assoc_del (u "manifest_sha256")
    (signed_document id h s (map (json_arranged canonical_style) vs) (map (json_arranged canonical_style) ms))).
Proof. reflexivity. Qed.

Lemma plain_document id h s vs ms :
  text_ok id = true -> text_ok h = true -> forallb json_plain vs = true -> forallb json_plain ms = true ->
  json_plain (JDict (unsigned_document id s vs ms ++ [(u "manifest_sha256", JStr h)])) = true.
Proof.
  intros Hid Hh Hv Hm. cbn [json_plain]. apply andb_true_iff. split; [reflexivity|].
  unfold unsigned_document. cbn [app forallb fst snd json_plain].
  rewrite Hid, Hh, Hv, Hm. reflexivity.
Qed.

Lemma plain_declarations ms :
  Forall (fun m => text_ok (fst m) = true) ms -> forallb json_plain (map member_declaration ms) = true.
Proof.
  intros Hms. apply forallb_forall. intros j (m & <- & Hm%list_elem_of_In)%in_map_iff.
  apply (Forall_at _ _ _ Hms) in Hm. pose proof (hexchar_text _ (sha256_hex_chars (snd m))) as Hh.
  unfold member_declaration. revert Hh. generalize (sha256_hex (snd m)) (Z.of_nat (length (snd m))).
  intros h n Hh. cbn [json_plain]. apply andb_true_iff. split; [reflexivity|].
  cbn [forallb fst snd json_plain]. rewrite Hm, Hh. reflexivity.
Qed.

Lemma plain_texts vs : Forall (fun v => text_ok v = true) vs -> forallb json_plain (map JStr vs) = true.
Proof. intros Hv. apply forallb_forall. intros j (v & <- & Hin%list_elem_of_In)%in_map_iff. exact (Forall_at _ _ _ Hv Hin). Qed.

Section written_reader.
Context `{UnicodeTables} (run : uuid) (s : Z) (venues : list pystr).
Context (control batch rows minutes mapping terminal signed_text manifest : bytes).
Let members := written_members control batch rows minutes mapping terminal.
Let root := written_directory control batch rows minutes mapping terminal manifest.
Let digest := sha256_hex signed_text.
Context (Hrun : uuid_range run) (Hvenues : Forall (fun v => text_ok v = true) venues).
Context (Hsigned : canonical_json_bytes (JDict (manifest_fields run s venues members)) = Ok signed_text).
Context (Hmanifest : canonical_json_bytes (JDict (manifest_fields run s venues members ++
  [(u "manifest_sha256", JStr digest)])) = Ok manifest).

Definition written_reader_state : reader :=
  mkReader root run
    (signed_document (uuid_str run) digest s (map (json_arranged canonical_style) (map JStr venues))
       (map (json_arranged canonical_style) (map member_declaration members)))
    (map (fun m => (fst m, sha256_hex (snd m))) members).

Lemma written_reader_Ok : reader_init (Some (Directory root)) = Ok written_reader_state.
Proof using Hrun Hvenues Hsigned Hmanifest.
  unfold reader_init, root. rewrite written_manifest. cbn [mbind result_bind]. fold root.
  assert (Forall (fun m => text_ok (fst m) = true) members) as Hpaths
    by (unfold members, written_members; repeat apply Forall_cons_2; first [reflexivity|apply Forall_nil_2]).
  rewrite (canonical_decoded _ _ (plain_document _ digest s _ _ (uuid_text_ok run)
    (hexchar_text _ (sha256_hex_chars signed_text)) (plain_texts _ Hvenues) (plain_declarations _ Hpaths)) Hmanifest).
  rewrite arranged_signed. cbn [mbind result_bind].
  unfold written_reader_state. set (vs := map (json_arranged canonical_style) (map JStr venues)).
  set (ms := map (json_arranged canonical_style) (map member_declaration members)).
  set (doc := signed_document (uuid_str run) digest s vs ms).
  change (json_get (u "schema") doc) with (JStr PACKAGE_SCHEMA).
  rewrite bool_decide_true by done. cbn [negb frozen_if raise_if mbind result_bind].
  change (json_get (u "manifest_sha256") doc) with (JStr digest). cbv iota.
  assert (length digest = 64%nat) as -> by apply sha256_hex_length.
  cbn [Nat.eqb negb frozen_if raise_if mbind result_bind].
  assert (canonical_json_bytes (JDict (assoc_del (u "manifest_sha256") doc)) = Ok signed_text) as ->.
  { unfold doc, vs, ms. rewrite <- arranged_unsigned. unfold canonical_json_bytes, json_dumps in *.
    apply bind_Ok in Hsigned as (text & Ht & <-).
    exact (f_equal (fun m => t ← m; Ok (t ++ [10])) (dumps_arranged _ _ text Ht)). }
  cbn [mbind result_bind]. fold digest. rewrite str_eqb_refl.
  cbn [negb frozen_if raise_if mbind result_bind].
  change (json_get (u "members") doc) with (JList ms).
  assert (exists m ms', ms = m :: ms') as (m & ms' & Hms) by by eexists _, _.
  rewrite Hms. cbv iota. rewrite <- Hms.
  destruct (written_paths control batch rows minutes mapping terminal) as [Hw Hnd]. fold members in Hw, Hnd.
  assert (foldM declare_member [] ms = Ok (map (fun m => (fst m, sha256_hex (snd m))) members)) as ->.
  { unfold ms. rewrite map_map. apply (declare_written members Hw []). cbn [app]. by rewrite map_map. }
  cbn [mbind result_bind].
  pose proof (written_required control batch rows minutes mapping terminal) as Hreq. fold members in Hreq.
  rewrite Hreq. cbn [frozen_if raise_if mbind result_bind].
  pose proof (written_files control batch rows minutes mapping terminal manifest) as Hf. fold root in Hf.
  rewrite Hf. cbn [mbind result_bind].
  assert (map fst (map (fun m => (fst m, sha256_hex (snd m))) members) = map fst members) as Hkeys
    by by rewrite map_map.
  rewrite Hkeys. unfold members at 1. change (same_members _ _) with true.
  cbn [negb frozen_if raise_if mbind result_bind].
  pose proof (written_lookup control batch rows minutes mapping terminal manifest) as Hl.
  fold members in Hl. fold root in Hl. rewrite (verify_written root members Hl). cbn [mbind result_bind].
  change (json_item (u "capture_run_id") doc) with (Ok (JStr (uuid_str run))).
  cbn [mbind result_bind json_str]. rewrite uuid_parse_text by done. reflexivity.
Qed.
End written_reader.

(** ** The rows read back *)

Lemma sha256_hex_text b : sha256_text (sha256_hex b) = true.
Proof.
  unfold sha256_text. rewrite sha256_hex_length. apply andb_true_iff. split; [done|].
  apply forallb_forall. intros c Hc%list_elem_of_In. apply (Forall_at _ _ _ (sha256_hex_chars b)) in Hc.
  by apply lower_hex_spec.
Qed.

Lemma require_run_self r : require_run r (rd_run_id r) = Ok tt.
Proof. unfold require_run. by rewrite Z.eqb_refl. Qed.

(** The record of an envelope that was given to the writer. *)
Definition envelope_record (run : uuid) (s : Z) (x : Z * (pystr * bytes)) : RawPublicEnvelope :=
  let '(i, (venue, payload)) := x in mkEnvelope run i s venue (sha256_hex payload) payload.

Lemma enumerate_index {A} (i : Z) (l : list A) x : x ∈ enumerate i l -> i <= fst x /\ snd x ∈ l.
Proof.
  revert i; induction l as [|y l IH]; intros i Hx; cbn [enumerate] in Hx; [by apply not_elem_of_nil in Hx|].
  apply elem_of_cons in Hx as [-> | Hx]; [cbn; split; [lia|left]|].
  apply IH in Hx as [? ?]. split; [lia|by right].
Qed.

Section written_rows.
Context `{UnicodeTables} (r : reader).
Let run := rd_run_id r.

Lemma control_read s batch control :
  0 <= s -> dumps_line (control_row s batch) = Ok control ->
  read_bytes (u "control_evidence/records.ndjson") (rd_root r) = Ok control ->
  iter_control_evidence r run = Ok [mkControl run s (u "epoch") (sha256_hex batch)].
Proof using.
  intros Hs Hd Hread. unfold iter_control_evidence, run. rewrite require_run_self. cbn [mbind result_bind].
  rewrite (ndjson_read r _ [control_row s batch] [control]).
  - cbn [mbind result_bind mapR]. unfold control_row. pose proof (sha256_hex_text batch) as Hsha.
    revert Hsha. generalize (sha256_hex batch). intros h Hh.
    change (item_int _ (u "recorded_at_ms")) with (Ok s).
    change (item_str _ (u "kind")) with (Ok (u "epoch")). change (item_str _ (u "payload_sha256")) with (Ok h).
    cbn [mbind result_bind]. unfold control_evidence_init, ev_require_timestamp, ev_require_sha256, require_text.
    rewrite (proj2 (Z.ltb_ge s 0)), Hh by done. reflexivity.
  - cbn [concat]. by rewrite app_nil_r.
  - by repeat constructor.
  - repeat constructor. unfold control_row. pose proof (hexchar_text _ (sha256_hex_chars batch)) as Hh.
    revert Hh. generalize (sha256_hex batch). intros h Hh. cbn [json_plain]. apply andb_true_iff.
    split; [reflexivity|]. cbn [forallb fst snd json_plain]. by rewrite Hh.
Qed.

Lemma minutes_read s venue minutes :
  0 <= s -> venue <> [] -> text_ok venue = true -> dumps_line (minute_row s venue) = Ok minutes ->
  read_bytes (u "quality_minutes/records.ndjson") (rd_root r) = Ok minutes ->
  iter_quality_minutes r run = Ok [mkMinute run (s - s mod 60000) venue 1 0].
Proof using.
  intros Hs Hv Hok Hd Hread. unfold iter_quality_minutes, run. rewrite require_run_self. cbn [mbind result_bind].
  rewrite (ndjson_read r _ [minute_row s venue] [minutes]).
  - cbn [mbind result_bind mapR]. unfold minute_row.
    assert (0 <= s - s mod 60000) as Hm by (pose proof (Z.mod_le s 60000); lia).
    revert Hm. generalize (s - s mod 60000). intros m Hm.
    change (item_int _ (u "minute_start_ms")) with (Ok m). change (item_str _ (u "venue")) with (Ok venue).
    change (item_int _ (u "accepted")) with (Ok 1). change (item_int _ (u "rejected")) with (Ok 0).
    cbn [mbind result_bind]. unfold quality_minute_init, ev_require_timestamp, require_count, require_text.
    rewrite (proj2 (Z.ltb_ge m 0)), (proj2 (str_eqb_false venue [])) by done. reflexivity.
  - cbn [concat]. by rewrite app_nil_r.
  - by repeat constructor.
  - repeat constructor. unfold minute_row. cbn [json_plain]. apply andb_true_iff. split; [reflexivity|].
    cbn [forallb fst snd json_plain]. by rewrite Hok.
Qed.

Lemma terminal_read t terminal :
  0 <= t -> dumps_line (terminal_document t) = Ok terminal ->
  read_bytes (u "terminal.json") (rd_root r) = Ok terminal ->
  capture_terminal r run = Ok (mkTerminal run t (u "sealed")).
Proof using.
  intros Ht Hd Hread. unfold capture_terminal, run. rewrite require_run_self, Hread. cbn [mbind result_bind].
  destruct (document_read terminal (terminal_document t)) as (-> & _ & Hl); [done..|].
  cbn [mbind result_bind]. rewrite Hl. cbn [mbind result_bind].
  change (item_int _ (u "terminated_at_ms")) with (Ok t). change (item_str _ (u "status")) with (Ok (u "sealed")).
  cbn [mbind result_bind]. unfold capture_terminal_init, ev_require_timestamp.
  rewrite (proj2 (Z.ltb_ge t 0)) by done. reflexivity.
Qed.

Lemma envelopes_read s envelopes rows :
  0 <= s -> Forall (fun e => fst e <> [] /\ text_ok (fst e) = true /\ Forall byte (snd e)) envelopes ->
  envelope_ndjson s envelopes = Ok rows ->
  read_bytes (u "raw_envelopes/records.ndjson") (rd_root r) = Ok rows ->
  iter_raw_envelopes r run = Ok (map (envelope_record run s) (enumerate 0 envelopes)).
Proof using.
  intros Hs He Hrows Hread. unfold envelope_ndjson in Hrows. apply bind_Ok in Hrows as (bs & Hbs & [= <-]).
  set (row := fun x : Z * (pystr * bytes) => envelope_row s (fst x) (fst (snd x)) (snd (snd x))) in *.
  assert (Forall (fun x => 0 <= fst x /\ fst (snd x) <> [] /\ text_ok (fst (snd x)) = true /\
    Forall byte (snd (snd x))) (enumerate 0 envelopes)) as Hall.
  { apply Forall_forall. intros x [Hi Hx]%enumerate_index. split; [done|exact (Forall_at _ _ _ He Hx)]. }
  unfold iter_raw_envelopes, run. rewrite require_run_self. cbn [mbind result_bind].
  rewrite (ndjson_read r _ (map row (enumerate 0 envelopes)) bs Hread).
  - cbn [mbind result_bind]. apply mapR_map. eapply Forall_impl; [exact Hall|].
    intros [i [venue payload]] (Hi & Hv & _ & Hb). cbn [fst snd] in *. unfold row, envelope_row. cbn [fst snd].
    pose proof (bytes_fromhex_hex payload Hb) as Hhex. pose proof (sha256_hex_text payload) as Hsha.
    unfold envelope_record. revert Hhex. generalize (bytes_hex payload). intros x Hhex.
    change (item_str _ (u "payload_hex")) with (Ok x). cbn [mbind result_bind]. rewrite Hhex.
    cbn [mbind result_bind]. change (item_int _ (u "envelope_index")) with (Ok i).
    change (item_int _ (u "observed_at_ms")) with (Ok s). change (item_str _ (u "venue")) with (Ok venue).
    cbn [mbind result_bind]. unfold raw_envelope_init, require_count, ev_require_timestamp, require_text, ev_require_sha256.
    rewrite (proj2 (Z.ltb_ge i 0)), (proj2 (Z.ltb_ge s 0)), (proj2 (str_eqb_false venue [])) by done.
    cbn [raise_if mbind result_bind]. rewrite Hsha. reflexivity.
  - apply mapR_Ok in Hbs. clear Hread Hall. induction Hbs as [|x b l bs Hb _ IH]; cbn [map]; by constructor.
  - apply Forall_map. eapply Forall_impl; [exact Hall|]. intros [i [venue payload]] (_ & _ & Hok & Hb).
    cbn [fst snd] in *. split; [|done]. unfold row, envelope_row. cbn [fst snd].
    pose proof (hexchar_text _ (bytes_hex_chars payload Hb)) as Hx. revert Hx. generalize (bytes_hex payload).
    intros x Hx. cbn [json_plain]. apply andb_true_iff. split; [reflexivity|].
    cbn [forallb fst snd json_plain]. by rewrite Hok, Hx.
Qed.

Lemma batch_read batch :
  read_bytes (u "raw_batches/0.bin") (rd_root r) = Ok batch ->
  iter_raw_batches r run = Ok [mkBatch run 0 (sha256_hex batch) (sha256_hex batch) batch].
Proof using.
  intros Hread. unfold iter_raw_batches, run. rewrite require_run_self, Hread. cbn [mbind result_bind].
  pose proof (sha256_hex_text batch) as Hsha. revert Hsha. generalize (sha256_hex batch). intros h Hh.
  unfold raw_batch_init, require_count, ev_require_sha256. rewrite Hh. reflexivity.
Qed.

Lemma snapshot_read rows mapping ms :
  forallb json_plain rows = true -> dumps_line (JDict [(u "mappings", JList rows)]) = Ok mapping ->
  read_bytes (u "mapping_snapshot.json") (rd_root r) = Ok mapping ->
  mapR mapping_from_document rows = Ok ms ->
  read_mapping_snapshot r run = Ok (mkMappingSnapshot run ms (sha256_hex mapping)).
Proof using.
  intros Hp Hd Hread Hms. unfold read_mapping_snapshot, run. rewrite require_run_self, Hread.
  cbn [mbind result_bind].
  assert (json_plain (JDict [(u "mappings", JList rows)]) = true) as Hplain.
  { cbn [json_plain]. apply andb_true_iff. split; [reflexivity|]. cbn [forallb fst snd json_plain]. by rewrite Hp. }
  destruct (document_read mapping _ Hplain Hd) as (_ & Hdec & Hl). rewrite Hdec. cbn [mbind result_bind].
  rewrite Hl. cbn [try_except mbind result_bind].
  change (require_exact_keys _ _) with (Ok [(u "mappings", JList rows)]). cbn [mbind result_bind].
  change (json_item _ _) with (Ok (JList rows)). cbn [mbind result_bind]. rewrite Hms.
  cbn [try_except mbind result_bind]. unfold mapping_snapshot_init, ev_require_sha256.
  pose proof (sha256_hex_text mapping) as Hsha. revert Hsha. generalize (sha256_hex mapping). intros h Hh.
  rewrite Hh. reflexivity.
Qed.

Lemma manifest_read id h s vs ms :
  rd_document r = signed_document id h s (map (json_arranged canonical_style) (map JStr vs)) ms ->
  0 <= s -> vs <> [] -> read_capture_manifest r run = Ok (mkManifest run s vs PACKAGE_SCHEMA).
Proof using.
  intros Hdoc Hs Hv. unfold read_capture_manifest, run. rewrite require_run_self, Hdoc. cbn [mbind result_bind].
  assert (str_items (map (json_arranged canonical_style) (map JStr vs)) = Some vs) as Hitems.
  { clear. unfold str_items. induction vs as [|v vs IH]; [done|]. cbn [map mapM json_arranged]. by rewrite IH. }
  destruct vs as [|v vs]; [done|].
  change (json_get (u "venue_set") _) with (JList (map (json_arranged canonical_style) (map JStr (v :: vs)))).
  change (json_get (u "started_at_ms") _) with (JInt s). cbn [map] in *. cbv iota. rewrite Hitems.
  cbn [expect mbind result_bind]. unfold capture_manifest_init, ev_require_timestamp.
  rewrite (proj2 (Z.ltb_ge s 0)) by done. reflexivity.
Qed.
End written_rows.

(** ** Writing *)

Lemma clear_package_root_empty d : clear_package_root d = [].
Proof.
  unfold clear_package_root. induction d as [|[k v] d IH]; [done|]. cbn [fold_left fst assoc_del].
  by rewrite decide_True.
Qed.

(** Arguments that describe a capture. *)
Record capture_ok (run : uuid) (s t : Z) (venues : list pystr) (envelopes : list (pystr * bytes))
    (mappings : list json) : Prop := {
  co_run : uuid_range run;
  co_times : 0 <= s /\ 0 <= t;
  co_venues : Forall (fun v => text_ok v = true) venues;
  co_venue : exists v vs, venues = v :: vs /\ v <> [];
  co_envelopes : Forall (fun e => fst e <> [] /\ text_ok (fst e) = true /\ Forall byte (snd e)) envelopes;
  co_mappings : forallb json_plain mappings = true }.

(** What a successful call leaves at the root. *)
Lemma write_frozen_package_Ok abs root run s t venues envelopes mappings root' :
  write_frozen_package abs root run s t venues envelopes mappings = (root', Ok tt) ->
  exists venue envs batch control rows minutes mapping terminal signed_text manifest,
    envelopes = (venue, batch) :: envs /\
    envelope_ndjson s envelopes = Ok rows /\ dumps_line (control_row s batch) = Ok control /\
    (exists v vs, venues = v :: vs /\ dumps_line (minute_row s v) = Ok minutes) /\
    dumps_line (JDict [(u "mappings", JList mappings)]) = Ok mapping /\
    dumps_line (terminal_document t) = Ok terminal /\
    canonical_json_bytes (JDict (manifest_fields run s venues
      (written_members control batch rows minutes mapping terminal))) = Ok signed_text /\
    canonical_json_bytes (JDict (manifest_fields run s venues
      (written_members control batch rows minutes mapping terminal) ++
      [(u "manifest_sha256", JStr (sha256_hex signed_text))])) = Ok manifest /\
    root' = Some (Directory (written_directory control batch rows minutes mapping terminal manifest)).
Proof.
  unfold write_frozen_package. intros Hw. destruct (negb abs); [done|].
  destruct (_ && negb _); [done|]. destruct envelopes as [|[venue batch] envs]; [done|].
  destruct (isSome root && _); [done|]. rewrite clear_package_root_empty in Hw.
  destruct (package_members _ _ _ _ _ _) as [members|] eqn:Hm; [|done].
  destruct (canonical_json_bytes _) as [signed_text|] eqn:Hsig in Hw; [|done].
  destruct (canonical_json_bytes _) as [manifest|] eqn:Hman in Hw; [|done]. injection Hw as <-.
  unfold package_members in Hm.
  apply bind_Ok in Hm as (rows & Hrows & (control & Hc & (v & Hv & (minutes & Hmin & Hm)%bind_Ok)%bind_Ok)%bind_Ok).
  apply bind_Ok in Hm as (mapping & Hmap & (terminal & Ht & [= <-])%bind_Ok).
  apply expect_Ok in Hv. destruct venues as [|v' vs]; [done|]. injection Hv as ->.
  exists venue, envs, batch, control, rows, minutes, mapping, terminal, signed_text, manifest.
  split_and!; try done. by exists v, vs.
Qed.

(** ** Properties *)

(** The canonical bytes of a document without floats, whose texts are Unicode
    scalar values and whose objects have distinct keys, decode to that document with
    its members in order, and encoding what was decoded gives the same bytes. *)
Theorem canonical_json_roundtrip j b :
  json_plain j = true -> canonical_json_bytes j = Ok b ->
  decode_canonical_json b = Ok (json_arranged canonical_style j) /\
  canonical_json_bytes (json_arranged canonical_style j) = Ok b.
Proof.
  intros Hp Hb. split; [by apply canonical_decoded|].
  unfold canonical_json_bytes, json_dumps in *. apply bind_Ok in Hb as (text & Ht & Hb).
  by rewrite (dumps_arranged _ _ _ Ht).
Qed.

Lemma canonical_json_roundtrip_witness :
  exists b, canonical_json_bytes demo_document = Ok b /\
    decode_canonical_json b = Ok (json_arranged canonical_style demo_document).
Proof.
  destruct (is_Ok_exists (canonical_json_bytes demo_document)) as [b Hb]; [vm_compute; reflexivity|].
  exists b. split; [exact Hb|].
  exact (proj1 (canonical_json_roundtrip demo_document b eq_refl Hb)).
Defined.


Lemma written_package_reads `{UnicodeTables} abs root run s t venues envelopes mappings ms root' :
  capture_ok run s t venues envelopes mappings ->
  mapR mapping_from_document mappings = Ok ms ->
  write_frozen_package abs root run s t venues envelopes mappings = (root', Ok tt) ->
  exists r sha, reader_init root' = Ok r /\ rd_run_id r = run /\
    read_capture_manifest r run = Ok (mkManifest run s venues PACKAGE_SCHEMA) /\
    capture_terminal r run = Ok (mkTerminal run t (u "sealed")) /\
    is_Ok (iter_control_evidence r run) = true /\ is_Ok (iter_raw_batches r run) = true /\
    iter_raw_envelopes r run = Ok (map (envelope_record run s) (enumerate 0 envelopes)) /\
    iter_quality_minutes r run = Ok [mkMinute run (s - s mod 60000) (hd [] venues) 1 0] /\
    read_mapping_snapshot r run = Ok (mkMappingSnapshot run ms sha) /\
    optional_member_bytes r (u "economics.json") = Ok None.
Proof.
  intros [Hrun [Hs Ht] Hvenues (v & vs & -> & Hv) Henv Hmap] Hms Hw.
  apply write_frozen_package_Ok in Hw as (venue & envs & batch & control & rows & minutes & mapping &
    terminal & signed_text & manifest & -> & Hrows & Hc & (v' & vs' & [= <- <-] & Hmin) & Hm & Hter & Hsig & Hman & ->).
  pose proof (written_reader_Ok run s (v :: vs) control batch rows minutes mapping terminal signed_text
    manifest Hrun Hvenues Hsig Hman) as Hr.
  set (r := written_reader_state run s (v :: vs) control batch rows minutes mapping terminal signed_text manifest) in *.
  pose proof (written_lookup control batch rows minutes mapping terminal manifest) as Hl.
  unfold written_members in Hl. rewrite !Forall_cons in Hl. cbn [fst snd] in Hl.
  destruct Hl as (Hl1 & Hl2 & Hl3 & Hl4 & Hl5 & Hl6 & _).
  apply read_written in Hl1, Hl2, Hl3, Hl4, Hl5, Hl6. apply Forall_cons in Hvenues as Hok. destruct Hok as [Hok _].
  exists r, (sha256_hex mapping). split; [exact Hr|]. split; [reflexivity|]. change run with (rd_run_id r).
  split_and!.
  - eapply manifest_read; [reflexivity|done|done].
  - by eapply terminal_read.
  - by rewrite (control_read r s batch control).
  - by rewrite (batch_read r batch).
  - by apply (envelopes_read r s _ rows).
  - by apply (minutes_read r s v minutes).
  - by eapply snapshot_read.
  - reflexivity.
Qed.

(** C4: the analyzer's reader accepts every package the capture writes, whatever
    the root held before, and reads back the run, the acquisition window, the
    venues, the envelopes in order with their payloads, and the decoded mappings. *)
Theorem written_package_read_back `{UnicodeTables} abs root run s t venues envelopes mappings ms root' :
  capture_ok run s t venues envelopes mappings ->
  mapR mapping_from_document mappings = Ok ms ->
  write_frozen_package abs root run s t venues envelopes mappings = (root', Ok tt) ->
  exists r sha, reader_init root' = Ok r /\ rd_run_id r = run /\
    read_capture_manifest r run = Ok (mkManifest run s venues PACKAGE_SCHEMA) /\
    capture_terminal r run = Ok (mkTerminal run t (u "sealed")) /\
    is_Ok (iter_control_evidence r run) = true /\ is_Ok (iter_raw_batches r run) = true /\
    iter_raw_envelopes r run = Ok (map (envelope_record run s) (enumerate 0 envelopes)) /\
    iter_quality_minutes r run = Ok [mkMinute run (s - s mod 60000) (hd [] venues) 1 0] /\
    read_mapping_snapshot r run = Ok (mkMappingSnapshot run ms sha) /\
    optional_member_bytes r (u "economics.json") = Ok None.
Proof. apply written_package_reads. Qed.

(** ** A written package *)

Definition demo_book : bytes :=
  map (fun c => if c =? 39 then 34 else c)
    (u "{'coin':'BTC','time':1,'levels':[[{'px':'1.0','sz':'1.0'}],[{'px':'1.1','sz':'1.0'}]]}").

Definition demo_package : option node :=
  fst (write_frozen_package true None 77 1 2 [u "hyperliquid"; u "lighter"]
         [(u "hyperliquid", demo_book)] [REVIEWED_BTC; REVIEWED_LIGHTER_BTC]).

Definition demo_mappings : list MarketMappingEvidence :=
  match mapR (@mapping_from_document ascii_tables) [REVIEWED_BTC; REVIEWED_LIGHTER_BTC] with
  | Ok ms => ms | Raise _ => [] end.

Lemma demo_capture_ok :
  capture_ok 77 1 2 [u "hyperliquid"; u "lighter"] [(u "hyperliquid", demo_book)]
    [REVIEWED_BTC; REVIEWED_LIGHTER_BTC].
Proof.
  split.
  - by unfold uuid_range.
  - done.
  - repeat apply Forall_cons_2; first [reflexivity|apply Forall_nil_2].
  - by eexists _, _.
  - apply Forall_cons_2; [|apply Forall_nil_2]. split; [done|]. split; [reflexivity|].
    assert (forallb (fun x => (0 <=? x) && (x <? 256)) demo_book = true) as Hb by (vm_compute; reflexivity).
    cbn [snd]. apply Forall_forall. intros x Hx%list_elem_of_In. rewrite forallb_forall in Hb.
    specialize (Hb x Hx). reflect_bools. by split.
  - reflexivity.
Qed.

Lemma written_package_read_back_witness :
  exists r sha, reader_init (H:=ascii_tables) demo_package = Ok r /\ rd_run_id r = 77 /\
    read_mapping_snapshot (H:=ascii_tables) r 77 = Ok (mkMappingSnapshot 77 demo_mappings sha).
Proof.
  assert (mapR (@mapping_from_document ascii_tables) [REVIEWED_BTC; REVIEWED_LIGHTER_BTC] = Ok demo_mappings)
    as Hms by (vm_compute; reflexivity).
  assert (write_frozen_package true None 77 1 2 [u "hyperliquid"; u "lighter"]
         [(u "hyperliquid", demo_book)] [REVIEWED_BTC; REVIEWED_LIGHTER_BTC] = (demo_package, Ok tt))
    as Hw by (vm_compute; reflexivity).
  pose proof (@written_package_read_back ascii_tables true None 77 1 2 _ _ _ demo_mappings _
    demo_capture_ok Hms Hw) as (r & sha & Hr & Hrun & _ & _ & _ & _ & _ & _ & Hsnap & _).
  exists r, sha. split; [exact Hr|]. split; [exact Hrun|exact Hsnap].
Defined.

Lemma reader_init_fails_closed_witness :
  exists r, reader_init (H:=ascii_tables) demo_package = Ok r /\ verified_package demo_package r.
Proof.
  assert (exists r, reader_init (H:=ascii_tables) demo_package = Ok r) as [r Hr]
    by (apply is_Ok_exists; vm_compute; reflexivity).
  exists r. split; [exact Hr|]. exact (@reader_init_fails_closed ascii_tables demo_package r Hr).
Defined.
