(* ===== verification/Pipeline.v ===== *)
(** * From the capture's writer to the analyzer's decision

    [Package] writes, [Verdict] evaluates.  A capture alone is never enough to
    stop or extend; and the evaluation of a sealed package can raise instead of
    deciding, when a member is sealed but malformed. *)

From S2P Require Import Prelude PyStr Num Exact PyObj Json JsonRoundtrip Bytes ByteLaws Market.
From S2P Require Import Provenance Decision Economics Evidence Decoders Reconstruction Identity FrozenPackage.
From S2P Require Import PackageErrors Verdict Package.
Open Scope Z_scope.

(** What the evaluation reads of a written package. *)
Lemma written_inputs `{UnicodeTables} abs root run s t venues envelopes maps ms root' :
  capture_ok run s t venues envelopes maps ->
  mapR mapping_from_document maps = Ok ms ->
  write_frozen_package abs root run s t venues envelopes maps = (root', Ok tt) ->
  exists r i, reader_init root' = Ok r /\ rd_run_id r = run /\ read_inputs r run = Ok i /\
    in_envelopes i = map (envelope_record run s) (enumerate 0 envelopes) /\
    mappings (in_snapshot i) = ms /\ optional_member_bytes r ECONOMICS_MEMBER = Ok None.
Proof.
  intros Hc Hms Hw.
  destruct (written_package_reads _ _ _ _ _ _ _ _ _ _ Hc Hms Hw)
    as (r & sha & Hr & Hrun & Hman & Hter & Hctl & Hbat & Henv & Hmin & Hsnap & Heco).
  apply is_Ok_exists in Hctl as [ctl Hctl], Hbat as [bat Hbat]. exists r. eexists.
  split; [exact Hr|]. split; [exact Hrun|]. split.
  - unfold read_inputs. rewrite Hman, Hter, Hctl, Hbat, Henv, Hmin, Hsnap. reflexivity.
  - cbn [in_envelopes in_snapshot mappings]. done.
Qed.

(** ** Properties *)

(** The decision on a written package. *)
Lemma written_package_decided `{UnicodeTables} abs root run s t venues envelopes maps ms root' :
  capture_ok run s t venues envelopes maps ->
  mapR mapping_from_document maps = Ok ms ->
  write_frozen_package abs root run s t venues envelopes maps = (root', Ok tt) ->
  exists x, evaluate_frozen_package root' = Ok x /\ capture_run_id x = Some run /\
    sd_decision x =
      if is_Ok (books ← reconstruct_books (map (envelope_record run s) (enumerate 0 envelopes)) ms;
                bind_reconstructed_books books ms)
      then INSUFFICIENT_EVIDENCE else INVALID_DATASET.
Proof.
  intros Hc Hms Hw. destruct (written_inputs _ _ _ _ _ _ _ _ _ _ Hc Hms Hw)
    as (r & i & Hr & Hrun & Hi & Henv & Hmap & Heco).
  unfold evaluate_frozen_package. rewrite Hr. cbn [or_return]. rewrite Hrun, Hi. cbn [or_return].
  rewrite or_return_caught by by eapply bind_books_caught, read_inputs_ids.
  rewrite <- Henv, <- Hmap. fold (bind_books i). destruct (bind_books i) as [books|e]; cbn [is_Ok].
  - unfold with_economics. rewrite Heco. cbn [mbind result_bind].
    destruct (decide_gates_spec i None run) as (x & -> & Hd & Hx). exists x. split; [done|]. split; [done|].
    unfold gate_decision in Hd. destruct (sd_decision x); naive_solver.
  - destruct (invalid_Ok RECORD_INVALID (Some run)) as [rs ->]. by eexists.
Qed.

(** C2: whatever a capture writes, the evaluation of the package returns a decision
    for that run: insufficient evidence when the books reconstruct and bind, else an
    invalid dataset; a package without sealed economics never stops or extends. *)
Theorem written_package_evaluated `{UnicodeTables} abs root run s t venues envelopes maps ms root' :
  capture_ok run s t venues envelopes maps ->
  mapR mapping_from_document maps = Ok ms ->
  write_frozen_package abs root run s t venues envelopes maps = (root', Ok tt) ->
  exists x, evaluate_frozen_package root' = Ok x /\ capture_run_id x = Some run /\
    sd_decision x =
      if is_Ok (books ← reconstruct_books (map (envelope_record run s) (enumerate 0 envelopes)) ms;
                bind_reconstructed_books books ms)
      then INSUFFICIENT_EVIDENCE else INVALID_DATASET.
Proof. apply written_package_decided. Qed.

Lemma written_package_evaluated_witness :
  exists x, evaluate_frozen_package (H:=ascii_tables) demo_package = Ok x /\
    sd_decision x = INSUFFICIENT_EVIDENCE.
Proof.
  assert (mapR (@mapping_from_document ascii_tables) [REVIEWED_BTC; REVIEWED_LIGHTER_BTC] = Ok demo_mappings)
    as Hms by (vm_compute; reflexivity).
  assert (write_frozen_package true None 77 1 2 [u "hyperliquid"; u "lighter"]
         [(u "hyperliquid", demo_book)] [REVIEWED_BTC; REVIEWED_LIGHTER_BTC] = (demo_package, Ok tt))
    as Hw by (vm_compute; reflexivity).
  pose proof (@written_package_evaluated ascii_tables true None 77 1 2 _ _ _ demo_mappings _
    demo_capture_ok Hms Hw) as (x & Hx & _ & Hd).
  exists x. split; [exact Hx|]. rewrite Hd. vm_compute. reflexivity.
Defined.

(** ** A sealed package whose evaluation raises *)

(** A manifest for the given members, as the writer seals it. *)
Definition sealed_package (members : list (pystr * bytes)) : option node :=
  let fields := manifest_fields 77 1 [u "hyperliquid"] members in
  match (text ← canonical_json_bytes (JDict fields);
         canonical_json_bytes (JDict (fields ++ [(u "manifest_sha256", JStr (sha256_hex text))]))) with
  | Ok manifest => Some (Directory (assoc_set (u "manifest.json") (File manifest) (write_members members [])))
  | Raise _ => None
  end.

(** The members of a capture, the terminal record being the empty object. *)
Definition malformed_members : list (pystr * bytes) :=
  written_members [] demo_book [] [] [] (u "{}").

(** A package can be sealed, and its reader constructed, while its terminal
    record lacks a key: the evaluation then raises [KeyError] and decides nothing. *)
Theorem evaluate_raises_on_malformed_terminal :
  is_Ok (reader_init (H:=ascii_tables) (sealed_package malformed_members)) = true /\
  match evaluate_frozen_package (H:=ascii_tables) (sealed_package malformed_members) with
  | Ok _ => False
  | Raise e => exn_class e = KeyError
  end.
Proof. split; vm_compute; reflexivity. Qed.
