(* ===== verification/JsonBounds.v ===== *)
(** * Documents that the encoder accepts, and the length of what it writes

    [json.dumps] refuses integers of more than 4300 digits, so a writer can fail on the
    size of a number alone.  A document of small numbers is always encoded, and its
    text is bounded by its size. *)

From S2P Require Import Prelude PyStr Num PyObj Json JsonRoundtrip.
Open Scope Z_scope.

(** No numbers beyond 256 bits, no floats, texts of scalar values. *)
Definition SMALL : Z := 2 ^ 256.

Fixpoint json_small (j : json) : bool :=
  match j with
  | JNull | JBool _ => true
  | JInt z => (0 <=? z) && (z <? SMALL)
  | JFloat _ => false
  | JStr s => text_ok s
  | JList l => forallb json_small l
  | JDict d => forallb (fun kv => text_ok (fst kv) && json_small (snd kv)) d
  end.

Definition zsum (l : list Z) : Z := fold_right Z.add 0 l.

(** A bound on the text: separators are at most two characters. *)
Fixpoint json_size (j : json) : Z :=
  match j with
  | JNull | JBool _ => 5
  | JInt _ => 78
  | JFloat _ => 0
  | JStr s => 2 + 12 * zlength s
  | JList l => 2 + zsum (map (fun x => json_size x + 2) l)
  | JDict d => 2 + zsum (map (fun kv => 2 + 12 * zlength (fst kv) + 2 + json_size (snd kv) + 2) d)
  end.

Lemma zsum_cons x l : zsum (x :: l) = x + zsum l.
Proof. done. Qed.

Lemma zsum_app l k : zsum (l ++ k) = zsum l + zsum k.
Proof. unfold zsum. induction l as [|x l IH]; cbn; [lia|]. rewrite IH. lia. Qed.

Lemma zsum_perm l k : l ≡ₚ k -> zsum l = zsum k.
Proof. unfold zsum. induction 1; cbn in *; lia. Qed.

Lemma zsum_le {A} (f g : A -> Z) l : (forall x, x ∈ l -> f x <= g x) -> zsum (map f l) <= zsum (map g l).
Proof.
  unfold zsum. induction l as [|x l IH]; intros Hf; cbn; [lia|].
  specialize (Hf x ltac:(left)) as Hx. specialize (IH ltac:(intros y Hy; apply Hf; by right)). lia.
Qed.

Lemma join_length sep l : zlength sep <= 2 -> zlength (str_join sep l) <= zsum (map (fun x => zlength x + 2) l).
Proof.
  intros Hs. induction l as [|x l IH]; [done|]. destruct l as [|y l].
  - cbn [str_join map]. rewrite zsum_cons. cbn. lia.
  - cbn [str_join map] in *. rewrite !zlength_app, !zsum_cons in *. lia.
Qed.

Lemma escape_length ascii c : scalar_value c = true -> zlength (escape_char ascii c) <= 12.
Proof.
  unfold scalar_value. intros [[Hl Hu]%andb_true_iff _]%andb_true_iff. reflect_bools.
  assert (forall d, 0 <= d < 65536 -> zlength (hex4 d) = 6) as Hh.
  { intros d Hd. unfold hex4, zlength. rewrite length_app. pose proof (padded_digits_length 16 ltac:(lia) 3 d ltac:(cbn; lia)) as Hp.
    unfold pad_zeros, str_of_nonneg, padded_digits in *. rewrite length_app, repeat_length, length_map in *. cbn [length u map] in *.
    rewrite ?length_app, ?repeat_length in Hp. cbn. lia. }
  unfold escape_char. repeat match goal with |- context [if ?b then _ else _] => destruct b eqn:? end; try (unfold zlength; cbn; lia).
  - rewrite Hh; [lia|]. reflect_bools. lia.
  - reflect_bools. rewrite zlength_app, !Hh; [lia| |]; [|Z.div_mod_to_equations; lia]. Z.div_mod_to_equations; lia.
Qed.

Lemma encode_length ascii s : text_ok s = true -> zlength (encode_str ascii s) <= 2 + 12 * zlength s.
Proof.
  unfold encode_str, text_ok. intros Hs. rewrite !zlength_app. change (zlength [34]) with 1.
  enough (zlength (flat_map (escape_char ascii) s) <= 12 * zlength s) by lia.
  induction s as [|c s IH]; [done|]. cbn [forallb flat_map] in *. apply andb_true_iff in Hs as [Hc Hs].
  rewrite zlength_app. change (c :: s) with ([c] ++ s). rewrite (zlength_app [c] s). change (zlength [c]) with 1.
  pose proof (escape_length ascii c Hc). specialize (IH Hs). lia.
Qed.

Lemma small_int z : 0 <= z < SMALL -> exists s, py_str_int z = Ok s /\ zlength s <= 78.
Proof.
  intros Hz. assert (length (digits 10 z) <= 78)%nat as Hl by (apply (digits_length 10 ltac:(lia) z 77); unfold SMALL in Hz; cbn; lia).
  exists (str_of_Z z). unfold py_str_int. rewrite Z.abs_eq by lia. rewrite (proj2 (Nat.ltb_ge _ _)).
  - split; [done|]. unfold str_of_Z. destruct (Z.ltb_spec z 0); [lia|]. unfold zlength. rewrite length_str_of_nonneg. lia.
  - unfold max_str_digits. lia.
Qed.

Section style.
Context (y : json_style) (Hi : zlength (item_sep y) <= 2) (Hk : zlength (key_sep y) <= 2).

(** The texts of the items, with a bound for each. *)
Lemma mapR_bounded {A} (f : A -> result pystr) (size : A -> Z) l :
  Forall (fun x => exists s, f x = Ok s /\ zlength s <= size x) l ->
  exists ss, mapR f l = Ok ss /\ zsum (map (fun s => zlength s + 2) ss) <= zsum (map (fun x => size x + 2) l).
Proof using.
  induction 1 as [|x l (s & Hs & Hl) _ (ss & Hss & Hsum)]; [by exists []|].
  exists (s :: ss). cbn [mapR]. rewrite Hs, Hss. split; [done|]. cbn [map zsum fold_right] in *. unfold zsum in *. lia.
Qed.

Lemma dumps_small j : json_small j = true -> exists s, json_dumps_with y j = Ok s /\ zlength s <= json_size j.
Proof using Hi Hk.
  induction j as [|b|z|f|s|l IH|d IH] using json_ind_nested; cbn [json_small json_dumps_with json_size]; intros Hs.
  - by exists (u "null").
  - exists (if b then u "true" else u "false"). by destruct b.
  - apply andb_true_iff in Hs as [H1 H2]. reflect_bools. by apply small_int.
  - done.
  - exists (encode_str (ensure_ascii y) s). split; [done|]. by apply encode_length.
  - destruct (mapR_bounded (json_dumps_with y) json_size l) as (ss & Hss & Hsum).
    { rewrite Forall_forall in IH |- *. intros x Hx. apply IH; [done|]. rewrite forallb_forall in Hs. by apply Hs, list_elem_of_In. }
    rewrite Hss. cbn [mbind result_bind]. eexists. split; [done|]. rewrite !zlength_app.
    change (zlength (u "[")) with 1. change (zlength (u "]")) with 1. pose proof (join_length (item_sep y) ss Hi). lia.
  - set (f := fun kv : pystr * json => v ← json_dumps_with y (snd kv); Ok (fst kv, v)).
    assert (exists its, mapR f d = Ok its /\
      zsum (map (fun kv => 2 + 12 * zlength (fst kv) + 2 + zlength (snd kv) + 2) its) <=
      zsum (map (fun kv => 2 + 12 * zlength (fst kv) + 2 + json_size (snd kv) + 2) d) /\
      forallb (fun kv => text_ok (fst kv)) its = true) as (its & Hits & Hsum & Hok).
    { clear -IH Hs. subst f. induction IH as [|[k x] d Hx _ IHd]; [by exists []|]. cbn [forallb fst snd] in Hs.
      apply andb_true_iff in Hs as [[Hk Hj]%andb_true_iff Hs]. destruct (IHd Hs) as (its & Hits & Hsum & Hok).
      destruct (Hx Hj) as (s & E & Hl). exists ((k, s) :: its). cbn [mapR fst snd]. cbn [snd] in E. rewrite E. cbn [mbind result_bind].
      rewrite Hits. split; [done|]. cbn [map zsum fold_right forallb fst snd] in *. unfold zsum in *. rewrite Hk. split; [lia|done]. }
    rewrite Hits. cbn [mbind result_bind]. eexists. split; [done|].
    set (its' := if sort_keys y then sort_items its else its).
    assert (its' ≡ₚ its) as Hp. { subst its'. destruct (sort_keys y); [apply py_sorted_perm|done]. }
    rewrite !zlength_app. change (zlength (u "{")) with 1. change (zlength (u "}")) with 1.
    pose proof (join_length (item_sep y) (map (fun kv => encode_str (ensure_ascii y) (fst kv) ++ key_sep y ++ snd kv) its') Hi) as Hj.
    rewrite map_map in Hj.
    assert (zsum (map (fun kv => zlength (encode_str (ensure_ascii y) (fst kv) ++ key_sep y ++ snd kv) + 2) its') <=
            zsum (map (fun kv => 2 + 12 * zlength (fst kv) + 2 + zlength (snd kv) + 2) its')) as Hle.
    { apply zsum_le. intros [k v] Hkv. cbn [fst snd]. rewrite !zlength_app. rewrite forallb_forall in Hok.
      pose proof (encode_length (ensure_ascii y) k) as He. rewrite Hp in Hkv. specialize (Hok (k, v)). cbn in Hok.
      rewrite list_elem_of_In in Hkv. specialize (He (Hok Hkv)). lia. }
    assert (zsum (map (fun kv : pystr * pystr => 2 + 12 * zlength (fst kv) + 2 + zlength (snd kv) + 2) its') =
            zsum (map (fun kv => 2 + 12 * zlength (fst kv) + 2 + zlength (snd kv) + 2) its)) as Heq by (apply zsum_perm; by rewrite Hp).
    lia.
Qed.
End style.
