(* ===== verification/Environ.v ===== *)
(** * The environment of a process

    Every process of the repository first refuses an environment with the name of a
    credential in it.  [str.upper] beyond ASCII depends on the interpreter's Unicode
    tables and is a parameter. *)

From S2P Require Import Prelude PyStr PyObj FrozenPackage.
Open Scope Z_scope.

Class UnicodeUpper := upper_beyond_ascii : pystr -> pystr.

Definition ascii_upper (s : pystr) : pystr := map (fun c => if (97 <=? c) && (c <=? 122) then c - 32 else c) s.

Definition str_upper `{UnicodeUpper} (s : pystr) : pystr :=
  if forallb (fun c => c <? 128) s then ascii_upper s else upper_beyond_ascii s.

(** [word in s] *)
Definition str_infix (word s : pystr) : bool := existsb (fun n => str_startswith word (drop n s)) (seq 0 (S (length s))).

(** The names and values of [os.environ]. *)
Abbreviation environment := (list (pystr * pystr)).

(** [any(marker in key.upper() for marker in markers)] *)
Definition marked `{UnicodeUpper} (markers : list string) (key : pystr) : bool :=
  existsb (fun marker => str_infix (u marker) (str_upper key)) markers.

Definition env_get (environ : environment) (key : string) : option pystr := assoc (u key) environ.

Definition getenv (environ : environment) (key value : string) : pystr := default (u value) (env_get environ key).

(** [Path(s).is_absolute()] *)
Definition is_absolute (path : pystr) : bool := negb (str_eqb (posix_root path) []).

(** ** What a marker finds *)

Lemma str_startswith_app p s : str_startswith p s = true <-> exists t, s = p ++ t.
Proof.
  revert s. induction p as [|c p IH]; intros s; cbn [str_startswith app]; [split; [by exists s|done]|].
  destruct s as [|d s]; [split; [done|by intros [t [=]]]|]. rewrite andb_true_iff, IH, Z.eqb_eq. split.
  - intros [-> [t ->]]. by exists t.
  - intros [t [= -> ->]]. split; [done|by exists t].
Qed.

Lemma str_infix_spec word s : str_infix word s = true <-> exists a b, s = a ++ word ++ b.
Proof.
  unfold str_infix. rewrite existsb_exists. split.
  - intros (n & _ & [t Ht]%str_startswith_app). exists (take n s), t. by rewrite <- Ht, take_drop.
  - intros (a & b & ->). exists (length a). split; [apply in_seq; rewrite !length_app; lia|].
    apply str_startswith_app. exists b. by rewrite drop_app_length.
Qed.

(** A name with a marker in it is found, and no other. *)
Lemma marked_spec `{UnicodeUpper} markers key :
  marked markers key = true <-> exists marker a b, marker ∈ markers /\ str_upper key = a ++ u marker ++ b.
Proof.
  unfold marked. rewrite existsb_exists. setoid_rewrite str_infix_spec. setoid_rewrite list_elem_of_In. naive_solver.
Qed.
