(* ===== verification/Runtime.v ===== *)
(** * The two Stage A processes: [liqvera_public_capture] and [liqvera_readonly_analyzer]

    Their configuration, their entry points with the exit codes, and the runtime of the
    capture.  Proved here: what each accepts of its environment, the codes, and the
    whole way from a capture process to the decision of an analyzer process. *)

From S2P Require Import Prelude PyStr Num Exact PyObj Json JsonRoundtrip Bytes ByteLaws Market.
From S2P Require Import Provenance Decision Economics Evidence Decoders Reconstruction Identity FrozenPackage.
From S2P Require Import JsonBounds PackageErrors Verdict Package Pipeline Environ.
Open Scope Z_scope.

(** ** Configuration *)

(** [_FORBIDDEN_ENV_MARKERS], of both processes. *)
Definition FORBIDDEN_ENV_MARKERS : list string :=
  ["SECRET"; "TOKEN"; "PASSWORD"; "PRIVATE"; "WALLET"; "SIGNER"; "API_KEY"; "APIKEY"]%string.

Definition ALLOWED_VENUES : list pystr := [u "hyperliquid"; u "lighter"].
Definition ALLOWED_MODES : list pystr := [u "public"].
Definition ALLOWED_SOURCES : list pystr := [u "fixture"; u "public"].

Record PublicCaptureConfig := mkCaptureConfig {
  pc_venues : list pystr; pc_mode : pystr; pc_source : pystr; pc_output : option pystr }.

Section configuration.
Context `{UnicodeUpper}.

Definition credential (environ : environment) : bool := existsb (fun kv => marked FORBIDDEN_ENV_MARKERS (fst kv)) environ.

(** [tuple(item.strip() for item in raw.split(",") if item.strip())] *)
Definition venue_items (raw : pystr) : list pystr :=
  List.filter (fun v => negb (str_eqb v [])) (map str_strip (str_split 44 raw)).

Definition load_public_configuration (environ : environment) : result PublicCaptureConfig :=
  raise_if (credential environ) PublicConfigError "credential environment is forbidden" ;;
  let venues := venue_items (getenv environ "LIQVERA_PUBLIC_VENUES" "hyperliquid,lighter") in
  raise_if (match venues with [] => true | _ => false end || negb (forallb (fun v => bool_decide (v ∈ ALLOWED_VENUES)) venues))
    PublicConfigError "venues must be the public Hyperliquid/Lighter pair" ;;
  let mode := getenv environ "LIQVERA_PUBLIC_MODE" "public" in
  raise_if (negb (bool_decide (mode ∈ ALLOWED_MODES))) PublicConfigError "mode must be public" ;;
  let source := getenv environ "LIQVERA_CAPTURE_SOURCE" "fixture" in
  raise_if (negb (bool_decide (source ∈ ALLOWED_SOURCES))) PublicConfigError "source must be fixture or public" ;;
  output ← match env_get environ "LIQVERA_CAPTURE_OUT" with
           | Some ((_ :: _) as raw) =>
             raise_if (negb (is_absolute raw)) PublicConfigError "LIQVERA_CAPTURE_OUT must be an absolute path" ;; Ok (Some raw)
           | _ => Ok None
           end;
  Ok (mkCaptureConfig venues mode source output).

(** [fs] is what is found at a path.  The result is the root of the package. *)
Definition load_analyzer_configuration (environ : environment) (fs : pystr -> option node) : result pystr :=
  raise_if (credential environ) AnalyzerConfigError "credential environment is forbidden" ;;
  match env_get environ "LIQVERA_FROZEN_PACKAGE" with
  | Some ((_ :: _) as raw) =>
    raise_if (negb (is_absolute raw) ||
              negb match fs raw with Some n => isSome (follow n) && is_directory n | None => false end)
      AnalyzerConfigError "frozen package path is invalid" ;;
    Ok raw
  | _ => raise AnalyzerConfigError "LIQVERA_FROZEN_PACKAGE is required"
  end.
End configuration.

(** ** The capture process *)

(** The bytes of a literal, quotes written as apostrophes. *)
Definition quoted (s : string) : bytes := map (fun c => if c =? 39 then 34 else c) (u s).

Definition FIXTURE_BOOK : bytes :=
  quoted "{'coin':'BTC','time':1,'levels':[[{'px':'1.0','sz':'1.0'}],[{'px':'1.1','sz':'1.0'}]]}".

Definition FIXTURE_LIGHTER_SNAPSHOT : bytes :=
  quoted "{'channel':'order_book:1','type':'subscribed/order_book','timestamp':1," ++
  quoted "'order_book':{'nonce':10,'bids':[{'price':'1.0','size':'1.0'}]," ++
  quoted "'asks':[{'price':'1.1','size':'1.0'}]}}".

Definition fixture_envelopes (venues : list pystr) : list (pystr * bytes) * list json :=
  fold_left (fun s venue =>
      if str_eqb venue (u "hyperliquid") then (fst s ++ [(u "hyperliquid", FIXTURE_BOOK)], snd s ++ [REVIEWED_BTC])
      else if str_eqb venue (u "lighter") then (fst s ++ [(u "lighter", FIXTURE_LIGHTER_SNAPSHOT)], snd s ++ [REVIEWED_LIGHTER_BTC])
      else s)
    venues ([], []).

(** [live] is what the request to the venue gives. *)
Definition envelopes_and_mappings (config : PublicCaptureConfig) (live : result bytes)
  : result (list (pystr * bytes) * list json) :=
  if str_eqb (pc_source config) (u "fixture") then Ok (fixture_envelopes (pc_venues config))
  else if negb (str_eqb (pc_source config) (u "public")) then raise ValueError "unsupported capture source"
  else if negb (bool_decide (u "hyperliquid" ∈ pc_venues config)) then raise ValueError "public source does not collect Lighter"
  else payload ← live; Ok ([(u "hyperliquid", payload)], [REVIEWED_BTC]).

(** The exit code and what is found at the output afterwards; [started] is the time and
    [run_id] the new identifier.  The line that is printed is left out. *)
Definition run_public_capture (config : PublicCaptureConfig) (started : Z) (run_id : uuid) (live : result bytes)
    (root : option node) : Z * option node :=
  if negb (str_eqb (pc_mode config) (u "public")) then (2, root)
  else if negb (forallb (fun v => bool_decide (v ∈ [u "hyperliquid"; u "lighter"])) (pc_venues config)) then (2, root)
  else match pc_output config with
  | None => (0, root)
  | Some out =>
    match envelopes_and_mappings config live with
    | Raise _ => (1, root)
    | Ok (envelopes, mappings) =>
      match write_frozen_package (is_absolute out) root run_id started (started + 1) (pc_venues config) envelopes mappings with
      | (root, Ok _) => (0, root)
      | (root, Raise _) => (1, root)
      end
    end
  end.

(** [main] of the capture: only [PublicConfigError] is caught. *)
Definition capture_main `{UnicodeUpper} (environ : environment) (started : Z) (run_id : uuid) (live : result bytes)
    (fs : pystr -> option node) : result (Z * option (pystr * option node)) :=
  match load_public_configuration environ with
  | Ok config =>
    let at_output := match pc_output config with Some out => fs out | None => None end in
    let '(code, root) := run_public_capture config started run_id live at_output in
    Ok (code, (fun out => (out, root)) <$> pc_output config)
  | Raise e => if exc_subclass (exn_class e) PublicConfigError then Ok (2, None) else Raise e
  end.

(** ** The analyzer process *)

(** The exit code and what is written to the standard output. *)
Definition analyzer_main `{UnicodeTables} `{UnicodeUpper} (environ : environment) (fs : pystr -> option node) : result (Z * bytes) :=
  match load_analyzer_configuration environ fs with
  | Raise e => if exc_subclass (exn_class e) AnalyzerConfigError then Ok (2, []) else Raise e
  | Ok root =>
    match evaluate_frozen_package (fs root) with
    | Raise _ => Ok (1, [])
    | Ok d =>
      text ← decision_to_canonical_json d;
      Ok (if bool_decide (sd_decision d = INVALID_DATASET) then 1 else 0, text)
    end
  end.

(** ** The writer succeeds *)

Lemma small_line j : json_small j = true -> exists line, dumps_line j = Ok line /\ zlength line <= json_size j + 1.
Proof.
  intros Hj. destruct (dumps_small default_style ltac:(done) ltac:(done) j Hj) as (s & Hs & Hl).
  exists (s ++ [10]). unfold dumps_line. rewrite Hs. split; [done|]. rewrite zlength_app. change (zlength [10]) with 1. lia.
Qed.

(** What is written fits the numbers that the manifest states. *)
Record capture_fits (s t : Z) (venues : list pystr) (envelopes : list (pystr * bytes)) (maps : list json) : Prop := {
  cf_times : s < SMALL /\ t < SMALL;
  cf_venues : Forall (fun v => zlength v < 2 ^ 64) venues;
  cf_payloads : Forall (fun e => zlength (snd e) < SMALL) envelopes;
  cf_rows : zsum (map (fun e => json_size (envelope_row s 0 (fst e) (snd e)) + 1) envelopes) < SMALL;
  cf_count : zlength envelopes < SMALL;
  cf_maps : forallb json_small maps = true;
  cf_mapping : json_size (JDict [(u "mappings", JList maps)]) + 1 < SMALL }.

Definition usable_root (root : option node) : Prop :=
  match root with None => True | Some n => exists d, n = Directory d end.

Lemma row_small s i venue payload :
  0 <= s < SMALL -> 0 <= i < SMALL -> text_ok venue = true -> Forall byte payload -> json_small (envelope_row s i venue payload) = true.
Proof.
  intros Hs Hi Hv Hb. unfold envelope_row. cbn [json_small forallb fst snd].
  rewrite Hv, (hexchar_text _ (bytes_hex_chars _ Hb)), !andb_true_iff, !Z.leb_le, !Z.ltb_lt. repeat split; try lia; vm_compute; done.
Qed.

Lemma rows_written s envelopes i :
  0 <= s < SMALL -> 0 <= i -> i + zlength envelopes < SMALL ->
  Forall (fun e => fst e <> [] /\ text_ok (fst e) = true /\ Forall byte (snd e)) envelopes ->
  exists lines, mapR (fun x => dumps_line (envelope_row s (fst x) (fst (snd x)) (snd (snd x)))) (enumerate i envelopes) = Ok lines /\
    zlength (concat lines) <= zsum (map (fun e => json_size (envelope_row s 0 (fst e) (snd e)) + 1) envelopes).
Proof.
  intros Hs. revert i. induction envelopes as [|[v p] l IH]; intros i Hi Hn He; [by exists []|].
  apply Forall_cons in He as [(_ & Hv & Hb) He]. cbn [fst snd] in *. change ((v, p) :: l) with ([(v, p)] ++ l) in Hn.
  rewrite zlength_app in Hn. change (zlength [(v, p)]) with 1 in Hn. pose proof (zlength_nonneg l).
  destruct (IH (i + 1)) as (lines & Hl & Hz); [lia..|done|].
  destruct (small_line (envelope_row s i v p)) as (line & Hline & Hlen); [apply row_small; [done|lia|done..]|].
  exists (line :: lines). cbn [enumerate mapR fst snd]. rewrite Hline. cbn [mbind result_bind]. rewrite Hl. split; [done|].
  cbn [concat map]. rewrite zsum_cons, zlength_app. cbn [fst snd].
  assert (json_size (envelope_row s i v p) = json_size (envelope_row s 0 v p)) as <- by done. lia.
Qed.

Lemma declared_small m : text_ok (fst m) = true -> zlength (snd m) < SMALL -> json_small (member_declaration m) = true.
Proof.
  intros Hm Hz. unfold member_declaration. cbn [json_small forallb fst snd].
  pose proof (hexchar_text _ (sha256_hex_chars (snd m))) as Hh. revert Hh. generalize (sha256_hex (snd m)). intros h Hh.
  change (Z.of_nat (length (snd m))) with (zlength (snd m)). pose proof (zlength_nonneg (snd m)).
  rewrite Hm, Hh, !andb_true_iff, !Z.leb_le, !Z.ltb_lt. repeat split; try lia; vm_compute; done.
Qed.

Lemma fields_small run s venues members :
  0 <= s < SMALL -> Forall (fun v => text_ok v = true) venues ->
  Forall (fun m => text_ok (fst m) = true /\ zlength (snd m) < SMALL) members ->
  json_small (JDict (manifest_fields run s venues members)) = true.
Proof.
  intros Hs Hv Hm. unfold manifest_fields. cbn [json_small forallb fst snd].
  rewrite uuid_text_ok.
  assert (forallb json_small (map JStr venues) = true) as ->.
  { apply forallb_forall. intros x (v & <- & Hin%list_elem_of_In)%in_map_iff. exact (Forall_at _ _ _ Hv Hin). }
  assert (forallb json_small (map member_declaration members) = true) as ->.
  { apply forallb_forall. intros x (m & <- & Hin%list_elem_of_In)%in_map_iff. destruct (Forall_at _ _ _ Hm Hin). by apply declared_small. }
  rewrite !andb_true_iff, !Z.leb_le, !Z.ltb_lt. repeat split; try lia; vm_compute; done.
Qed.

Lemma small_canonical j : json_small j = true -> exists b, canonical_json_bytes j = Ok b.
Proof.
  intros Hj. destruct (dumps_small canonical_style ltac:(done) ltac:(done) j Hj) as (s & Hs & _).
  unfold canonical_json_bytes, json_dumps. rewrite Hs. by eexists.
Qed.

Lemma minute_size s v : zlength v < 2 ^ 64 -> json_size (minute_row s v) + 1 < SMALL.
Proof.
  intros Hv. unfold minute_row. cbn [json_size map fst snd]. rewrite !zsum_cons.
  change (zlength (u "minute_start_ms")) with 15. change (zlength (u "venue")) with 5. change (zlength (u "accepted")) with 8.
  change (zlength (u "rejected")) with 8. change (zsum []) with 0. unfold SMALL. lia.
Qed.

Lemma control_size s b : json_size (control_row s b) + 1 < SMALL.
Proof.
  unfold control_row. cbn [json_size map fst snd]. rewrite !zsum_cons.
  assert (zlength (sha256_hex b) = 64) as -> by (unfold zlength; by rewrite sha256_hex_length).
  change (zlength (u "recorded_at_ms")) with 14. change (zlength (u "kind")) with 4. change (zlength (u "epoch")) with 5.
  change (zlength (u "payload_sha256")) with 14. change (zsum []) with 0. unfold SMALL. lia.
Qed.

Lemma members_written s t venues batch envelopes maps run :
  capture_ok run s t venues envelopes maps -> capture_fits s t venues envelopes maps ->
  (exists v, (v, batch) ∈ envelopes) ->
  exists members, package_members s t venues batch envelopes maps = Ok members /\
    Forall (fun m => text_ok (fst m) = true /\ zlength (snd m) < SMALL) members.
Proof.
  intros [_ [Hs0 Ht0] Hv (v & vs & -> & Hv0) He _] [[Hs Ht] Hvl Hp Hr Hc Hm Hms] [bv Hb]. unfold package_members.
  destruct (rows_written s envelopes 0) as (rows & Hrows & Hlrows); [lia..|done|].
  unfold envelope_ndjson. rewrite Hrows. cbn [mbind result_bind].
  assert (json_small (control_row s batch) = true) as Hcs.
  { unfold control_row. cbn [json_small forallb fst snd]. pose proof (hexchar_text _ (sha256_hex_chars batch)) as Hh. revert Hh.
    generalize (sha256_hex batch). intros h ->. rewrite !andb_true_iff, !Z.leb_le, !Z.ltb_lt. repeat split; try lia; vm_compute; done. }
  destruct (small_line _ Hcs) as (control & -> & Hlc). cbn [mbind result_bind head expect].
  assert (json_small (minute_row s v) = true) as Hmin.
  { unfold minute_row. cbn [json_small forallb fst snd]. apply Forall_cons in Hv as [-> _].
    rewrite !andb_true_iff, !Z.leb_le, !Z.ltb_lt. repeat split; try (Z.div_mod_to_equations; lia); vm_compute; done. }
  destruct (small_line _ Hmin) as (minutes & -> & Hlm). cbn [mbind result_bind].
  assert (json_small (JDict [(u "mappings", JList maps)]) = true) as Hmap.
  { cbn [json_small forallb fst snd]. by rewrite Hm. }
  destruct (small_line _ Hmap) as (mapping & -> & Hlp). cbn [mbind result_bind].
  assert (json_small (terminal_document t) = true) as Hter.
  { unfold terminal_document. cbn [json_small forallb fst snd]. rewrite !andb_true_iff, !Z.leb_le, !Z.ltb_lt.
    repeat split; try lia; vm_compute; done. }
  destruct (small_line _ Hter) as (terminal & -> & Hlt). cbn [mbind result_bind]. eexists. split; [done|].
  pose proof (control_size s batch) as Hc1.
  assert (json_size (minute_row s v) + 1 < SMALL) as Hm1 by (apply Forall_cons in Hvl as [Hvl _]; by apply minute_size).
  assert (json_size (terminal_document t) + 1 < SMALL) as Ht1 by done.
  pose proof (Forall_at _ _ _ Hp Hb) as Hbatch.
  repeat apply Forall_cons_2; [..|apply Forall_nil_2]; (split; [vm_compute; reflexivity|cbn [snd]]); try lia. exact Hbatch.
Qed.

(** A package of a capture that fits is written, whatever was in its directory. *)
Theorem write_frozen_package_total root run s t venues envelopes maps :
  capture_ok run s t venues envelopes maps -> capture_fits s t venues envelopes maps -> envelopes <> [] -> usable_root root ->
  exists root', write_frozen_package true root run s t venues envelopes maps = (root', Ok tt).
Proof.
  intros Hc Hf Hne Hu. destruct envelopes as [|[bv batch] envs]; [done|].
  destruct (members_written _ _ _ batch _ _ _ Hc Hf ltac:(exists bv; left)) as (members & Hm & Hall).
  assert (json_small (JDict (manifest_fields run s venues members)) = true) as Hfields.
  { apply fields_small; [|apply Hc|done]. pose proof (co_times _ _ _ _ _ _ Hc). pose proof (cf_times _ _ _ _ _ Hf). lia. }
  destruct (small_canonical _ Hfields) as [text Ht].
  destruct (small_canonical (JDict (manifest_fields run s venues members ++ [(u "manifest_sha256", JStr (sha256_hex text))]))) as [manifest Hman].
  { cbn [json_small] in *. rewrite forallb_app. apply andb_true_iff. split; [exact Hfields|].
    cbn [forallb fst snd json_small]. by rewrite (hexchar_text _ (sha256_hex_chars text)). }
  unfold write_frozen_package. cbn [negb].
  assert (match root with Some n => negb (is_symlink n) && is_directory n | None => true end = true) as Hn.
  { destruct root as [n|]; [|done]. by destruct Hu as [d ->]. }
  assert (isSome root && negb match root with Some n => isSome (follow n) | None => false end = false) as He.
  { destruct root as [n|]; [|done]. by destruct Hu as [d ->]. }
  rewrite Hn, He, andb_false_r, Hm, Ht, Hman. by eexists.
Qed.

(** ** What a configuration promises *)

Lemma load_public_Ok `{UnicodeUpper} environ config :
  load_public_configuration environ = Ok config ->
  credential environ = false /\ pc_venues config <> [] /\ Forall (fun v => v ∈ ALLOWED_VENUES) (pc_venues config) /\
  pc_mode config = u "public" /\ pc_source config ∈ ALLOWED_SOURCES /\
  forall out, pc_output config = Some out -> is_absolute out = true.
Proof.
  unfold load_public_configuration. intros ([] & Hc%raise_if_Ok & ([] & Hv%raise_if_Ok & ([] & Hm%raise_if_Ok & ([] & Hs%raise_if_Ok &
    (output & Ho & [= <-])%bind_Ok)%bind_Ok)%bind_Ok)%bind_Ok)%bind_Ok.
  cbn [pc_venues pc_mode pc_source pc_output]. apply orb_false_iff in Hv as [Hne Hall].
  apply negb_false_iff, bool_decide_eq_true in Hm, Hs. apply negb_false_iff in Hall.
  split; [done|]. split; [by destruct (venue_items _)|]. split; [|split; [|split; [done|]]].
  - apply Forall_forall. intros v Hv%list_elem_of_In. rewrite forallb_forall in Hall. by apply Hall, bool_decide_eq_true in Hv.
  - unfold ALLOWED_MODES in Hm. by apply list_elem_of_singleton in Hm.
  - intros out ->. destruct (env_get environ "LIQVERA_CAPTURE_OUT") as [[|c raw]|]; try done.
    apply bind_Ok in Ho as ([] & Ha%raise_if_Ok & [= <-]). by apply negb_false_iff in Ha.
Qed.

(** A configuration raises nothing but its own exception. *)
Lemma load_public_fails `{UnicodeUpper} environ : fails_with PublicConfigError (load_public_configuration environ).
Proof. unfold load_public_configuration. fails. Qed.

Lemma load_analyzer_fails `{UnicodeUpper} environ fs : fails_with AnalyzerConfigError (load_analyzer_configuration environ fs).
Proof. unfold load_analyzer_configuration. fails. Qed.

(** The venues of a configuration, when none is repeated. *)
Lemma distinct_venues venues :
  venues <> [] -> Forall (fun v => v ∈ ALLOWED_VENUES) venues -> NoDup venues ->
  venues ∈ [[u "hyperliquid"]; [u "lighter"]; [u "hyperliquid"; u "lighter"]; [u "lighter"; u "hyperliquid"]].
Proof.
  assert (forall v, v ∈ ALLOWED_VENUES -> v = u "hyperliquid" \/ v = u "lighter") as Hv.
  { intros v. unfold ALLOWED_VENUES. rewrite !elem_of_cons, elem_of_nil. tauto. }
  intros Hne Ha Hd. destruct venues as [|v [|w [|x l]]]; [done|..].
  - apply Forall_singleton, Hv in Ha as [-> | ->]; [left|by right; left].
  - apply Forall_cons in Ha as [H1%Hv H2%Forall_singleton%Hv]. apply NoDup_cons in Hd as [Hn _]. rewrite list_elem_of_singleton in Hn.
    destruct H1 as [-> | ->], H2 as [-> | ->]; try done; [do 2 right; by left|do 3 right; by left].
  - exfalso. apply Forall_cons in Ha as [H1%Hv [H2%Hv [H3%Hv _]%Forall_cons]%Forall_cons].
    rewrite !NoDup_cons, !elem_of_cons in Hd. destruct H1 as [-> | ->], H2 as [-> | ->], H3 as [-> | ->]; tauto.
Qed.

Section fixture.
Context `{UnicodeTables}.

(** The fixture of each venue. *)
Definition venue_payload (venue : pystr) : bytes :=
  if str_eqb venue (u "hyperliquid") then FIXTURE_BOOK else FIXTURE_LIGHTER_SNAPSHOT.
Definition venue_mapping (venue : pystr) : json := if str_eqb venue (u "hyperliquid") then REVIEWED_BTC else REVIEWED_LIGHTER_BTC.

Lemma allowed_cases v : v ∈ ALLOWED_VENUES -> v = u "hyperliquid" \/ v = u "lighter".
Proof. unfold ALLOWED_VENUES. rewrite !elem_of_cons, elem_of_nil. tauto. Qed.

Lemma fixture_envelopes_spec venues : Forall (fun v => v ∈ ALLOWED_VENUES) venues ->
  fixture_envelopes venues = (map (fun v => (v, venue_payload v)) venues, map venue_mapping venues).
Proof.
  intros Hv. unfold fixture_envelopes.
  enough (forall a b, fold_left (fun s venue => if str_eqb venue (u "hyperliquid") then (fst s ++ [(u "hyperliquid", FIXTURE_BOOK)], snd s ++ [REVIEWED_BTC])
      else if str_eqb venue (u "lighter") then (fst s ++ [(u "lighter", FIXTURE_LIGHTER_SNAPSHOT)], snd s ++ [REVIEWED_LIGHTER_BTC]) else s)
    venues (a, b) = (a ++ map (fun v => (v, venue_payload v)) venues, b ++ map venue_mapping venues)) as E by apply (E [] []).
  induction Hv as [|v l Hv _ IH]; intros a b; cbn [fold_left map]; [by rewrite !app_nil_r|].
  apply allowed_cases in Hv as [-> | ->]; unfold venue_payload at 1, venue_mapping at 1.
  - rewrite str_eqb_refl. cbn [fst snd]. by rewrite IH, <- !app_assoc.
  - change (str_eqb (u "lighter") (u "hyperliquid")) with false. rewrite str_eqb_refl. cbn [fst snd]. by rewrite IH, <- !app_assoc.
Qed.

Lemma bytes_checked b : forallb (fun x => (0 <=? x) && (x <? 256)) b = true -> Forall byte b.
Proof.
  intros Hb. apply Forall_forall. intros x Hx%list_elem_of_In. rewrite forallb_forall in Hb. specialize (Hb x Hx). reflect_bools. by split.
Qed.

Lemma payload_facts v : v ∈ ALLOWED_VENUES ->
  v <> [] /\ text_ok v = true /\ zlength v < 16 /\ Forall byte (venue_payload v) /\ zlength (venue_payload v) < 200 /\
  json_small (venue_mapping v) = true /\ json_plain (venue_mapping v) = true /\ json_size (venue_mapping v) < 100000.
Proof.
  intros [-> | ->]%allowed_cases; (split; [done|]; split; [reflexivity|]; split; [reflexivity|]; split;
    [apply bytes_checked; vm_compute; reflexivity|split_and!; vm_compute; reflexivity]).
Qed.

Lemma zsum_bound {A} (f : A -> Z) l b : Forall (fun x => f x <= b) l -> zsum (map f l) <= b * zlength l.
Proof.
  unfold zlength. induction 1 as [|x l Hx _ IH]; cbn [map length]; [cbn; lia|]. rewrite zsum_cons. lia.
Qed.

Lemma row_size s v p : json_size (envelope_row s 0 v p) <= 1000 + 12 * zlength v + 24 * zlength p.
Proof.
  unfold envelope_row. cbn [json_size map fst snd]. rewrite !zsum_cons.
  assert (zlength (bytes_hex p) = 2 * zlength p) as -> by (unfold zlength; rewrite length_bytes_hex; lia).
  change (zlength (u "envelope_index")) with 14. change (zlength (u "observed_at_ms")) with 14. change (zlength (u "venue")) with 5.
  change (zlength (u "payload_hex")) with 11. change (zsum []) with 0. lia.
Qed.

Section fixture_capture.
Context (run : uuid) (s : Z) (venues : list pystr).
Context (Hrun : uuid_range run) (Hs : 0 <= s < SMALL - 1) (Hne : venues <> []) (Hv : Forall (fun v => v ∈ ALLOWED_VENUES) venues).

Let envelopes := map (fun v => (v, venue_payload v)) venues.
Let maps := map venue_mapping venues.

Lemma fixture_capture_ok : capture_ok run s (s + 1) venues envelopes maps.
Proof using Hrun Hs Hne Hv.
  split; [done|lia| | | |].
  - eapply Forall_impl; [exact Hv|]. intros v Ha. apply (payload_facts v Ha).
  - destruct venues as [|v vs]; [done|]. exists v, vs. split; [done|]. apply Forall_cons in Hv as [Ha _]. apply (payload_facts v Ha).
  - apply Forall_map. eapply Forall_impl; [exact Hv|]. intros v Ha. pose proof (payload_facts v Ha) as Hf. cbn. tauto.
  - apply forallb_forall. intros j (v & <- & Hin%list_elem_of_In)%in_map_iff. apply (payload_facts v (Forall_at _ _ _ Hv Hin)).
Qed.

Lemma fixture_capture_fits : zlength venues < 2 ^ 64 -> capture_fits s (s + 1) venues envelopes maps.
Proof using Hs Hv.
  intros Hl. split.
  - lia.
  - eapply Forall_impl; [exact Hv|]. intros v Ha. pose proof (payload_facts v Ha). lia.
  - apply Forall_map. eapply Forall_impl; [exact Hv|]. intros v Ha. pose proof (payload_facts v Ha). unfold SMALL. cbn [snd]. lia.
  - unfold envelopes. rewrite map_map. cbn [fst snd].
    pose proof (zsum_bound (fun v => json_size (envelope_row s 0 v (venue_payload v)) + 1) venues 10000) as Hz.
    rewrite Forall_forall in Hz, Hv. specialize (Hz ltac:(intros v Ha; pose proof (row_size s v (venue_payload v)); pose proof (payload_facts v (Hv v Ha)); lia)).
    unfold SMALL. lia.
  - unfold envelopes, zlength. rewrite length_map. unfold zlength in Hl. unfold SMALL. lia.
  - apply forallb_forall. intros j (v & <- & Hin%list_elem_of_In)%in_map_iff. apply (payload_facts v (Forall_at _ _ _ Hv Hin)).
  - cbn [json_size map fst snd]. rewrite zsum_cons. change (zlength (u "mappings")) with 8. change (zsum []) with 0.
    unfold maps. rewrite map_map. pose proof (zsum_bound (fun v => json_size (venue_mapping v) + 2) venues 100002) as Hz.
    rewrite Forall_forall in Hz, Hv. specialize (Hz ltac:(intros v Ha; pose proof (payload_facts v (Hv v Ha)); lia)).
    unfold SMALL. lia.
Qed.
End fixture_capture.

(** The books of a fixture bind, when no venue is repeated. *)
Lemma fixture_binds run s venues :
  0 <= s -> venues ∈ [[u "hyperliquid"]; [u "lighter"]; [u "hyperliquid"; u "lighter"]; [u "lighter"; u "hyperliquid"]] ->
  exists ms, mapR mapping_from_document (map venue_mapping venues) = Ok ms /\
    is_Ok (books ← reconstruct_books (map (envelope_record run s) (enumerate 0 (map (fun v => (v, venue_payload v)) venues))) ms;
           bind_reconstructed_books books ms) = true.
Proof.
  intros Hs Hin. assert (forall P : list pystr -> Prop, Forall P [[u "hyperliquid"]; [u "lighter"]; [u "hyperliquid"; u "lighter"]; [u "lighter"; u "hyperliquid"]] ->
    P venues) as Hall by (intros P HP; exact (Forall_at _ _ _ HP Hin)).
  apply (Hall (fun venues => exists ms, mapR mapping_from_document (map venue_mapping venues) = Ok ms /\
    is_Ok (books ← reconstruct_books (map (envelope_record run s) (enumerate 0 (map (fun v => (v, venue_payload v)) venues))) ms;
           bind_reconstructed_books books ms) = true)).
  repeat apply Forall_cons_2; [..|apply Forall_nil_2];
    (eexists; split; [vm_compute; reflexivity|destruct s as [|p|p]; [vm_compute; reflexivity|vm_compute; reflexivity|lia]]).
Qed.
End fixture.

(** ** Exit codes *)

(** A document of texts alone is always encoded. *)
Fixpoint json_textual (j : json) : bool :=
  match j with
  | JNull | JBool _ | JStr _ => true
  | JInt _ | JFloat _ => false
  | JList l => forallb json_textual l
  | JDict d => forallb (fun kv => json_textual (snd kv)) d
  end.

Lemma mapR_total {A B} (f : A -> result B) l : Forall (fun x => exists y, f x = Ok y) l -> exists ys, mapR f l = Ok ys.
Proof.
  induction 1 as [|x l [y Hy] _ [ys IH]]; [by exists []|]. exists (y :: ys). cbn [mapR]. by rewrite Hy, IH.
Qed.

Lemma textual_dumps y j : json_textual j = true -> exists s, json_dumps_with y j = Ok s.
Proof.
  induction j as [| | | |s|l IH|d IH] using json_ind_nested; cbn [json_textual json_dumps_with]; intros Hj; try done; try by eexists.
  - destruct (mapR_total (json_dumps_with y) l) as [ss ->]; [|by eexists].
    apply Forall_forall. intros x Hx. apply (Forall_at _ _ _ IH Hx). rewrite forallb_forall in Hj. by apply Hj, list_elem_of_In.
  - destruct (mapR_total (fun kv => v ← json_dumps_with y (snd kv); Ok (fst kv, v)) d) as [its ->]; [|by eexists].
    apply Forall_forall. intros kv Hkv. rewrite forallb_forall in Hj.
    destruct (Forall_at _ _ _ IH Hkv) as [v ->]; [by apply Hj, list_elem_of_In|by eexists].
Qed.

Lemma decision_encodes d : exists text, decision_to_canonical_json d = Ok text.
Proof.
  destruct (textual_dumps canonical_style (decision_document d)) as [s Hs].
  { unfold decision_document. cbn [json_textual forallb snd]. rewrite !andb_true_iff.
    split; [by destruct (capture_run_id d)|]. repeat split. apply forallb_forall. by intros x (r & <- & _)%in_map_iff. }
  unfold decision_to_canonical_json, canonical_json_bytes, json_dumps. rewrite Hs. by eexists.
Qed.

Section processes.
Context `{UnicodeTables} `{UnicodeUpper}.

(** The analyzer always ends with one of its three codes: 2 when it refuses its
    environment, 1 when the evaluation raises or the dataset is invalid, else 0; and
    writes its decision, in canonical JSON, whenever there is one. *)
Theorem analyzer_main_spec environ fs :
  exists code text, analyzer_main environ fs = Ok (code, text) /\
    match load_analyzer_configuration environ fs with
    | Raise _ => code = 2 /\ text = []
    | Ok root =>
      match evaluate_frozen_package (fs root) with
      | Raise _ => code = 1 /\ text = []
      | Ok d => decision_to_canonical_json d = Ok text /\ code = (if bool_decide (sd_decision d = INVALID_DATASET) then 1 else 0)
      end
    end.
Proof.
  unfold analyzer_main. pose proof (load_analyzer_fails environ fs) as Hf.
  destruct (load_analyzer_configuration environ fs) as [root|e].
  - destruct (evaluate_frozen_package (fs root)) as [d|e]; [|by eexists _, _].
    destruct (decision_encodes d) as [text ->]. by eexists _, _.
  - change (exc_subclass (exn_class e) AnalyzerConfigError = true) in Hf. rewrite Hf. by eexists _, _.
Qed.

(** What the capture does, by its exit code: 2 when it refuses its environment, and then
    it writes nothing; 0 when it has no output, or has written the package of the
    envelopes and mappings of its source; 1 when it has no envelopes or the writing
    raised. *)
Theorem capture_main_spec environ started run live fs :
  exists code left, capture_main environ started run live fs = Ok (code, left) /\
    match load_public_configuration environ with
    | Raise _ => code = 2 /\ left = None
    | Ok config =>
      match pc_output config with
      | None => code = 0 /\ left = None
      | Some out =>
        match envelopes_and_mappings config live with
        | Raise _ => code = 1 /\ left = Some (out, fs out)
        | Ok (envelopes, maps) =>
          let '(package, r) := write_frozen_package true (fs out) run started (started + 1) (pc_venues config) envelopes maps in
          code = (if is_Ok r then 0 else 1) /\ left = Some (out, package)
        end
      end
    end.
Proof.
  unfold capture_main. pose proof (load_public_fails environ) as Hf.
  destruct (load_public_configuration environ) as [config|e] eqn:Hc.
  - apply load_public_Ok in Hc as (_ & _ & Hv & Hm & _ & Ho). unfold run_public_capture. rewrite Hm.
    change (negb (str_eqb (u "public") (u "public"))) with false. cbv iota.
    assert (forallb (fun v => bool_decide (v ∈ [u "hyperliquid"; u "lighter"])) (pc_venues config) = true) as ->.
    { apply forallb_forall. intros v Hin%list_elem_of_In. apply bool_decide_eq_true. exact (Forall_at _ _ _ Hv Hin). }
    cbn [negb]. destruct (pc_output config) as [out|]; [|by eexists _, _].
    cbn [fmap option_fmap option_map].
    rewrite (Ho out eq_refl). destruct (envelopes_and_mappings config live) as [[envelopes maps]|e]; [|by eexists _, _].
    destruct (write_frozen_package _ _ _ _ _ _ _ _) as [package [[]|e]]; by eexists _, _.
  - change (exc_subclass (exn_class e) PublicConfigError = true) in Hf. rewrite Hf. by eexists _, _.
Qed.

(** C3: a capture of the fixture, with venues that are not repeated, always writes its
    package, whatever was in the directory, with exit code 0; and an analyzer that is
    given the package always ends with exit code 0 and writes the decision that the
    evidence of that run is insufficient. *)
Theorem fixture_capture_analysed environ config out started run live fs environ' fs' root :
  load_public_configuration environ = Ok config -> pc_source config = u "fixture" -> pc_output config = Some out ->
  NoDup (pc_venues config) -> uuid_range run -> 0 <= started < SMALL - 1 -> usable_root (fs out) ->
  load_analyzer_configuration environ' fs' = Ok root ->
  exists package, capture_main environ started run live fs = Ok (0, Some (out, package)) /\
    (fs' root = package -> exists x text, analyzer_main environ' fs' = Ok (0, text) /\
      decision_to_canonical_json x = Ok text /\ capture_run_id x = Some run /\ sd_decision x = INSUFFICIENT_EVIDENCE).
Proof.
  intros Hc Hsrc Hout Hnd Hrun Hs Hroot Hload. pose proof (load_public_Ok _ _ Hc) as (_ & Hne & Hv & _ & _ & _).
  pose proof (distinct_venues _ Hne Hv Hnd) as Hin.
  assert (zlength (pc_venues config) < 2 ^ 64) as Hlen.
  { rewrite !elem_of_cons, elem_of_nil in Hin. repeat destruct Hin as [->|Hin]; done. }
  pose proof (fixture_capture_ok run started _ Hrun Hs Hne Hv) as Hok.
  pose proof (fixture_capture_fits started _ Hs Hv Hlen) as Hfits.
  destruct (fixture_binds run started _ (proj1 Hs) Hin) as (ms & Hms & Hb).
  assert (envelopes_and_mappings config live =
    Ok (map (fun v => (v, venue_payload v)) (pc_venues config), map venue_mapping (pc_venues config))) as He.
  { unfold envelopes_and_mappings. rewrite Hsrc, str_eqb_refl. by rewrite fixture_envelopes_spec. }
  destruct (write_frozen_package_total (fs out) _ _ _ _ _ _ Hok Hfits) as [package Hw]; [by destruct (pc_venues config)|done|].
  destruct (capture_main_spec environ started run live fs) as (code & left & Hmain & Hcode).
  rewrite Hc, Hout, He, Hw in Hcode. destruct Hcode as [-> ->]. exists package. split; [exact Hmain|]. intros Hfs.
  destruct (written_package_decided _ _ _ _ _ _ _ _ _ _ Hok Hms Hw) as (x & Hx & Hxr & Hd). rewrite Hb in Hd.
  destruct (analyzer_main_spec environ' fs') as (code & text & Hman & Hcode). rewrite Hload, Hfs, Hx in Hcode.
  destruct Hcode as [Ht ->]. rewrite Hd in Hman. by exists x, text.
Qed.
End processes.

(** ** A capture and its analysis *)

Section demonstration.
#[local] Existing Instance ascii_tables.
#[local] Instance ascii_upper_only : UnicodeUpper := fun s => s.

Definition demo_output : pystr := u "/data/capture".
Definition demo_environment : environment := [(u "HOME", u "/root"); (u "LIQVERA_CAPTURE_OUT", demo_output)].
Definition demo_config : PublicCaptureConfig :=
  mkCaptureConfig [u "hyperliquid"; u "lighter"] (u "public") (u "fixture") (Some demo_output).

(** What a process finds after the capture. *)
Definition files_after (m : result (Z * option (pystr * option node))) (path : pystr) : option node :=
  match m with
  | Ok (_, Some (out, package)) => if str_eqb path out then package else None
  | _ => None
  end.

Lemma fixture_capture_analysed_witness : exists x text,
  analyzer_main [(u "LIQVERA_FROZEN_PACKAGE", demo_output)]
    (files_after (capture_main demo_environment 1790000000000 77 (Ok []) (fun _ => None))) = Ok (0, text) /\
  decision_to_canonical_json x = Ok text /\ capture_run_id x = Some 77 /\ sd_decision x = INSUFFICIENT_EVIDENCE.
Proof.
  set (fs := files_after _).
  assert (load_public_configuration demo_environment = Ok demo_config) as Hc by (vm_compute; reflexivity).
  assert (load_analyzer_configuration [(u "LIQVERA_FROZEN_PACKAGE", demo_output)] fs = Ok demo_output) as Hl by (vm_compute; reflexivity).
  assert (NoDup (pc_venues demo_config)) as Hnd by (apply (bool_decide_unpack _); vm_compute; exact I).
  assert (uuid_range 77) as Hrun by (unfold uuid_range; lia).
  assert (0 <= 1790000000000 < SMALL - 1) as Hs by (unfold SMALL; lia).
  destruct (fixture_capture_analysed demo_environment demo_config demo_output 1790000000000 77 (Ok []) (fun _ => None)
    [(u "LIQVERA_FROZEN_PACKAGE", demo_output)] fs demo_output Hc eq_refl eq_refl Hnd Hrun Hs I Hl) as (package & Hm & Ha).
  apply Ha. subst fs. unfold files_after. rewrite Hm. by rewrite str_eqb_refl.
Defined.

(** The configuration accepts a venue twice; the package is then written, with its
    mapping twice, and every analysis of it says that the dataset is invalid. *)
Theorem repeated_venue_invalid :
  match capture_main ((u "LIQVERA_PUBLIC_VENUES", u "lighter,lighter") :: demo_environment) 1790000000000 77 (Ok []) (fun _ => None) with
  | Ok (code, Some (out, package)) =>
    code = 0 /\ match evaluate_frozen_package package with Ok x => sd_decision x = INVALID_DATASET | Raise _ => False end
  | _ => False
  end.
Proof. vm_compute. done. Qed.
End demonstration.
