(* ===== verification/SealedInput.v ===== *)
(** * Sealed inputs: [liqvera_evidence_report.sealed_input]

    The strict inspection of a sealed package held in memory: its manifest and its
    declarations, the two recorded responses and their clocks, the displayed book, the
    metadata, the records and the mapping the policy prescribes, then the reader, the
    reconstruction, the binding and the Stage A evaluation over the written members. *)

From S2P Require Import Prelude PyStr Num PyObj Json Bytes Exact Market Provenance Decision Evidence Reconstruction.
From S2P Require Import Identity FrozenPackage Verdict Package EvidenceIo MezoDex.
Open Scope Z_scope.

Definition BASE_MEMBERS : list pystr := map u
  ["manifest.json"; "control_evidence/records.ndjson"; "raw_batches/0.bin";
   "raw_envelopes/records.ndjson"; "quality_minutes/records.ndjson";
   "mapping_snapshot.json"; "terminal.json"; "source/capture.json";
   "source/metadata.bin"; "source/book.bin"]%string.

Definition IDENTITY : list (pystr * json) :=
  [(u "base_asset", JStr (u "BTC")); (u "quote_asset", JStr (u "USD")); (u "settlement_asset", JStr (u "USDC"));
   (u "product_kind", JStr (u "perp")); (u "payoff_kind", JStr (u "linear"))].

Definition FIXTURE_REFERENCE : pystr := u "https://schemas.liqvera.invalid/fixture/btc-perpetual/v1".
Definition LIVE_REFERENCE : pystr := u "https://schemas.liqvera.invalid/hyperliquid/btc-linear-perpetual/v1".

Record InspectedInput := mkInspected {
  ii_members : list (pystr * bytes); ii_capture : json; ii_book : ReconstructedBook;
  ii_stage_a : json; ii_package_sha256 : pystr }.

(** [raise EvidenceRejected("INVALID_DATASET")] unless a test holds. *)
Definition ensure (b : bool) : result unit := reject_if (negb b) "INVALID_DATASET".

(** A field the schema types as an integer. *)
Definition int_field (k : pystr) (item : json) : result Z :=
  x ← subscript k item; match x with JInt z => Ok z | _ => raise TypeError "not an integer" end.

(** A field that must equal a value. *)
Definition ensure_field (k : pystr) (item expected : json) : result unit :=
  x ← subscript k item; ensure (py_eq x expected).

(** ** The manifest and its declarations *)

Definition MANIFEST_KEYS : list pystr :=
  map u ["schema"; "capture_run_id"; "started_at_ms"; "venue_set"; "members"; "manifest_sha256"]%string.

Definition check_manifest (raw : bytes) (manifest : list (pystr * json)) (capture : json) : result unit :=
  ensure (json_is (json_get (u "schema") manifest) PACKAGE_SCHEMA) ;;
  ensure (py_eq (json_get (u "venue_set") manifest) (JList [JStr (u "hyperliquid")])) ;;
  run_id ← identifier (json_get (u "capture_run_id") manifest);
  capture_id ← subscript (u "capture_id") capture;
  ensure (json_is capture_id run_id) ;;
  unsigned ← Canonical.canonical_json_bytes (JDict (assoc_del (u "manifest_sha256") manifest));
  ensure (json_is (json_get (u "manifest_sha256") manifest) (digest unsigned)) ;;
  signed ← Canonical.canonical_json_bytes (JDict manifest);
  ensure (str_eqb signed raw).

(** One turn of the loop over the declarations; [seen] in the order of insertion. *)
Definition check_declaration (members : list (pystr * bytes)) (seen : list pystr) (entry : json) : result (list pystr) :=
  entry ← object_keys entry [u "path"; u "sha256"; u "length"];
  path ← safe_member (json_get (u "path") entry);
  ensure (negb (bool_decide (path ∈ seen)) && negb (str_eqb path (u "manifest.json")) && isSome (assoc path members)) ;;
  raw ← member members path;
  size ← integer (json_get (u "length") entry) 0;
  ensure ((size =? zlength raw) && json_is (json_get (u "sha256") entry) (digest raw)) ;;
  Ok (seen ++ [path]).

Definition check_declarations (members : list (pystr * bytes)) (declarations : json) : result unit :=
  match declarations with
  | JList entries =>
    ensure (zlength entries =? zlength members - 1) ;;
    seen ← foldM (check_declaration members) [] entries;
    ensure (same_members (u "manifest.json" :: seen) (u "manifest.json" :: map fst members))
  | _ => rejected "INVALID_DATASET"
  end.

(** ** The two responses *)

Record timing := mkTiming { tm_started : Z; tm_received : Z; tm_elapsed : Z }.

(** The bodies of the two requests, whose quotes are double. *)
Definition double_quoted (s : string) : pystr := map (fun c => if c =? 39 then 34 else c) (u s).
Definition META_REQUEST : pystr := double_quoted "{'type':'meta'}".
Definition BOOK_REQUEST : pystr := double_quoted "{'type':'l2Book','coin':'BTC'}".

(** One turn of the loop over the responses. *)
Definition check_response (members : list (pystr * bytes)) (mode : json) (kind request_body : pystr) (item : json)
  : result timing :=
  let path := u "source/" ++ kind ++ u ".bin" in
  ensure_field (u "kind") item (JStr kind) ;;
  ensure_field (u "request_body") item (JStr request_body) ;;
  ensure_field (u "source_mode") item mode ;;
  ensure_field (u "payload_path") item (JStr path) ;;
  raw ← member members path;
  ensure_field (u "payload_sha256") item (JStr (digest raw)) ;;
  ensure_field (u "payload_length") item (JInt (zlength raw)) ;;
  received ← int_field (u "received_at_ms") item;
  started ← int_field (u "started_at_ms") item;
  reject_if (received <? started) "CLOCK_SKEW" ;;
  elapsed ← int_field (u "elapsed_ns") item;
  reject_if (12000000000 <? elapsed) "SOURCE_UNAVAILABLE" ;;
  Ok (mkTiming started received elapsed).

(** [abs(measured_ms - wall_ms) > 1000] *)
Definition clock_skew (t : timing) : bool :=
  1000 <? Z.abs (tm_elapsed t / 1000000 - (tm_received t - tm_started t)).

Definition check_clocks (mode capture started : json) (metadata response : timing) : result unit :=
  ensure (negb (tm_started response <? tm_received metadata) && py_eq started (JInt (tm_started metadata))) ;;
  ensure (negb (json_is mode (u "fixture") &&
                (negb (tm_elapsed metadata =? 0) || negb (tm_elapsed response =? 0)))) ;;
  reject_if (86400000 <? tm_received response - tm_received metadata) "IDENTITY_UNVERIFIED" ;;
  if json_is mode (u "live-public") then
    ensure (negb (12000 <? tm_received response - tm_started metadata)) ;;
    ensure_field (u "identity_status") capture (JStr (u "UNVERIFIED")) ;;
    reject_if (clock_skew metadata) "CLOCK_SKEW" ;;
    reject_if (clock_skew response) "CLOCK_SKEW"
  else Ok tt.

(** ** The displayed book *)

Definition level_text (x : json) : result pystr :=
  match x with
  | JStr s => ensure (negb (32 <? length s)%nat && forallb (fun c => c <? 128) s) ;; Ok s
  | _ => rejected "INVALID_DATASET"
  end.

(** A level of a side, bids descending and asks ascending, after the previous price. *)
Definition check_level (descending : bool) (previous : option Z) (level : json) : result (option Z) :=
  match level with
  | JDict d =>
    ensure (keys_cover [u "px"; u "sz"] d && keys_subset d [u "px"; u "sz"; u "n"]) ;;
    px ← level_text (json_get (u "px") d);
    sz ← level_text (json_get (u "sz") d);
    price ← exact_parse px;
    size ← exact_parse sz;
    ensure (negb ((scaled price <=? 0) || (scaled size <=? 0))) ;;
    _ ← match assoc (u "n") d with Some n => integer n 0 | None => Ok 0 end;
    ensure match previous with
           | Some p => if descending then scaled price <? p else p <? scaled price
           | None => true
           end ;;
    Ok (Some (scaled price))
  | _ => rejected "INVALID_DATASET"
  end.

Definition check_side (descending : bool) (side : json) : result unit :=
  match side with
  | JList levels =>
    ensure ((1 <=? zlength levels) && (zlength levels <=? 20)) ;;
    _ ← foldM (check_level descending) None levels; Ok tt
  | _ => rejected "INVALID_DATASET"
  end.

(** [ExactDecimal.parse] of any decoded value. *)
Definition exact_of (x : json) : result ExactDecimal :=
  match x with JStr s => exact_parse s | _ => raise ExactError "not a text" end.

(** [ExactDecimal.parse(side[0]["px"])] *)
Definition best_price (side : json) : result ExactDecimal :=
  match side with
  | JList (level :: _) => px ← subscript (u "px") level; exact_of px
  | JList [] => raise IndexError "list index out of range"
  | _ => raise TypeError "not subscriptable"
  end.

(** The document of [source/book.bin]; the result is the time of the exchange. *)
Definition check_book (mode : json) (received : Z) (book : json) : result Z :=
  match book with
  | JDict d =>
    reject_if (negb (json_is (json_get (u "coin") d) (u "BTC"))) "IDENTITY_MISMATCH" ;;
    source_at ← integer (json_get (u "time") d) 0;
    (if json_is mode (u "live-public") then
       reject_if (5000 <? received - source_at) "STALE_SOURCE" ;;
       reject_if (1000 <? source_at - received) "CLOCK_SKEW"
     else Ok tt) ;;
    match json_get (u "levels") d with
    | JList [bids; asks] =>
      check_side true bids ;;
      check_side false asks ;;
      bid ← best_price bids;
      ask ← best_price asks;
      reject_if (exact_leb ask bid) "CROSSED_BOOK" ;;
      Ok source_at
    | _ => rejected "INVALID_DATASET"
    end
  | _ => rejected "INVALID_DATASET"
  end.

(** ** The metadata *)

Definition is_btc (item : json) : bool :=
  match item with JDict d => json_is (json_get (u "name") d) (u "BTC") | _ => false end.

(** The result is [szDecimals] of the only BTC asset. *)
Definition check_metadata (meta : json) : result Z :=
  match meta with
  | JDict d =>
    match json_get (u "universe") d with
    | JList universe =>
      match List.filter is_btc universe with
      | [JDict asset] =>
        match json_get (u "szDecimals") asset with
        | JInt decimals =>
          reject_if (negb ((0 <=? decimals) && (decimals <=? 8)) ||
                     negb match assoc (u "isDelisted") asset with
                          | None | Some (JBool false) => true | Some _ => false end) "UNSUPPORTED_INSTRUMENT" ;;
          Ok decimals
        | _ => rejected "IDENTITY_UNVERIFIED"
        end
      | _ => rejected "IDENTITY_UNVERIFIED"
      end
    | _ => rejected "IDENTITY_UNVERIFIED"
    end
  | _ => rejected "IDENTITY_UNVERIFIED"
  end.

(** ** The records *)

Definition check_envelope (received : Z) (raw : bytes) (envelope : json) : result unit :=
  d ← object_keys envelope (map u ["envelope_index"; "observed_at_ms"; "venue"; "payload_hex"]%string);
  ensure (bool_decide (json_get (u "envelope_index") d = JInt 0) &&
          bool_decide (json_get (u "observed_at_ms") d = JInt received) &&
          json_is (json_get (u "venue") d) (u "hyperliquid") &&
          json_is (json_get (u "payload_hex") d) (bytes_hex raw)).

Definition expected_records (received : Z) (raw : bytes) : list (pystr * json) :=
  [(u "terminal.json", JDict [(u "terminated_at_ms", JInt received); (u "status", JStr (u "sealed"))]);
   (u "control_evidence/records.ndjson",
    JDict [(u "recorded_at_ms", JInt received); (u "kind", JStr (u "epoch")); (u "payload_sha256", JStr (digest raw))]);
   (u "quality_minutes/records.ndjson",
    JDict [(u "minute_start_ms", JInt (received - received mod 60000)); (u "venue", JStr (u "hyperliquid"));
           (u "accepted", JInt 1); (u "rejected", JInt 0)])].

(** ** The mapping the policy prescribes *)

Definition texts (l : list (string * string)) : list (pystr * json) :=
  map (fun kv => (u (fst kv), JStr (u (snd kv)))) l.

Definition quantity_step_text (decimals : Z) : pystr :=
  if decimals =? 0 then u "1" else u "0." ++ repeat 48 (Z.to_nat (decimals - 1)) ++ u "1".

Definition live_source (metadata raw : bytes) (decimals : Z) : json := JDict
  (texts [("schema", "liqvera-hyperliquid-btc-identity/v1"); ("source_mode", "live-public");
          ("policy_version", "hyperliquid-btc-linear-perpetual/v1")]%string ++
   [(u "reference", JStr LIVE_REFERENCE); (u "metadata_sha256", JStr (digest metadata));
    (u "book_sha256", JStr (digest raw))] ++ IDENTITY ++
   texts [("displayed_size_unit", "coin"); ("contract_multiplier", "1")]%string ++
   [(u "quantity_step", JStr (quantity_step_text decimals)); (u "maximum_price_significant_digits", JInt 5);
    (u "minimum_notional_usd", JStr (u "10"));
    (u "limitation", JStr (u "Snapshot identity only; no funding, fee, execution, or trading authority claim."))]).

Definition fixture_source : json := JDict
  (texts [("schema", "liqvera-fixture-identity/v1"); ("source_mode", "fixture")]%string ++
   [(u "reference", JStr FIXTURE_REFERENCE)] ++ IDENTITY ++
   texts [("displayed_size_unit", "coin"); ("contract_multiplier", "1");
          ("limitation", "Synthetic mapping for simulation only; no live identity approval.")]%string).

(** The mapping of either mode. *)
Definition policy_mapping (id version reference : pystr) (evidence : bytes) (step : pystr) (tick digits : json) : json :=
  JDict
  ([(u "mapping_id", JStr id); (u "mapping_version", JStr version)] ++
   texts [("decision", "APPROVED"); ("venue", "hyperliquid"); ("symbol", "BTC")]%string ++
   [(u "identity", JDict IDENTITY); (u "evidence_sha256", JStr (digest evidence));
    (u "evidence_reference", JStr reference); (u "valid_from_ms", JInt 0); (u "valid_until_ms", JNull);
    (u "reviewed_contract_multiplier", JStr (u "1")); (u "displayed_size_unit", JStr (u "coin"));
    (u "quantity_step", JStr step); (u "price_tick", tick); (u "price_decimals", JNull);
    (u "max_price_significant_digits", digits); (u "min_quantity", JNull); (u "min_notional", JStr (u "10"))]).

Definition live_policy (evidence : bytes) (decimals : Z) : json :=
  policy_mapping (u "hyperliquid-btc-perpetual") (u "hyperliquid-btc-linear-perpetual/v1") LIVE_REFERENCE evidence
    (quantity_step_text decimals) JNull (JInt 5).

Definition fixture_policy (evidence : bytes) : json :=
  policy_mapping (u "fixture-btc-perpetual") (u "fixture/v1") FIXTURE_REFERENCE evidence
    (u "0.00001") (JStr (u "0.1")) JNull.

Definition unverified (b : bool) : result unit := reject_if (negb b) "IDENTITY_UNVERIFIED".

(** The comparison of the source of a mapping and of the mapping with the policy. *)
Definition check_policy (evidence : bytes) (source mapping expected_source expected_mapping : json) : result unit :=
  unverified (py_eq source expected_source) ;;
  encoded ← Canonical.canonical_json_bytes source;
  unverified (str_eqb encoded evidence) ;;
  given ← Canonical.canonical_json_bytes mapping;
  expected ← Canonical.canonical_json_bytes expected_mapping;
  unverified (str_eqb given expected).

(** ** The evaluation over the written members *)

Definition stage_document (stage : StageADecision) : json := JDict
  [(u "schema", JStr (schema stage)); (u "package_schema", JStr (package_schema stage));
   (u "capture_run_id", match capture_run_id stage with Some run => JStr (uuid_str run) | None => JNull end);
   (u "decision", JStr (decision_value (sd_decision stage)));
   (u "reasons", JList (map (fun r => JStr (reason_value r)) (Decision.reasons stage)))].

Section inspection.
Context `{UnicodeTables} `{UnicodeLower} `{UnicodeNormal} `{ReportResources}.

Definition json_member (members : list (pystr * bytes)) (name : pystr) : result json :=
  member members name ≫= strict_json.

(** The set of members: the DEX capture is optional and must verify. *)
Definition check_member_set (members : list (pystr * bytes)) : result unit :=
  let base := BASE_MEMBERS ++ [u "source/mapping-evidence.json"] in
  expected ← match assoc (u "source/mezo-dex.json") members with
             | Some raw => capture ← strict_json raw; _ ← verify_capture capture; Ok (base ++ [u "source/mezo-dex.json"])
             | None => Ok base
             end;
  ensure (same_members (map fst members) expected).

Definition check_record (members : list (pystr * bytes)) (name : pystr) (expected : json) : result unit :=
  given ← json_member members name ≫= Canonical.canonical_json_bytes;
  expected ← Canonical.canonical_json_bytes expected;
  ensure (str_eqb given expected).

(** The mapping of [mapping_snapshot.json] against the policy of the mode. *)
Definition check_mapping (members : list (pystr * bytes)) (mode capture : json) (decimals : Z) : result unit :=
  document ← json_member members (u "mapping_snapshot.json");
  document ← object_keys document [u "mappings"];
  mapping ← match json_get (u "mappings") document with
            | JList [mapping] => Ok mapping
            | _ => rejected "IDENTITY_UNVERIFIED"
            end;
  _ ← object_keys mapping MAPPING_KEYS;
  evidence ← member members (u "source/mapping-evidence.json");
  source ← strict_json evidence;
  if json_is mode (u "live-public") then
    metadata ← member members (u "source/metadata.bin");
    raw ← member members (u "source/book.bin");
    check_policy evidence source mapping (live_source metadata raw decimals) (live_policy evidence decimals)
  else
    identity_status ← subscript (u "identity_status") capture;
    unverified (json_is identity_status (u "SIMULATED")) ;;
    check_policy evidence source mapping fixture_source (fixture_policy evidence).

(** The inherited reader over a private copy of the members. *)
Definition evaluate_members (members : list (pystr * bytes)) : result (list ReconstructedBook * StageADecision) :=
  let root := Some (Directory (write_members members [])) in
  r ← reader_init root;
  snapshot ← read_mapping_snapshot r (rd_run_id r);
  envelopes ← iter_raw_envelopes r (rd_run_id r);
  books ← reconstruct_books envelopes (mappings snapshot);
  books ← bind_reconstructed_books books (mappings snapshot);
  stage ← evaluate_frozen_package root;
  Ok (books, stage).

(** The sources: the capture, the responses, the book, the metadata and the envelope. *)
Definition check_sources (members : list (pystr * bytes)) (capture : json) (manifest : list (pystr * json)) (mode : json)
  : result Z :=
  responses ← subscript (u "responses") capture;
  '(metadata, response) ← match responses with
                          | JList [metadata; response] => Ok (metadata, response)
                          | _ => raise ValueError "not two values to unpack"
                          end;
  metadata ← check_response members mode (u "metadata") META_REQUEST metadata;
  response ← check_response members mode (u "book") BOOK_REQUEST response;
  check_clocks mode capture (json_get (u "started_at_ms") manifest) metadata response ;;
  let received := tm_received response in
  raw ← member members (u "source/book.bin");
  book ← strict_json raw;
  _ ← check_book mode received book;
  decimals ← json_member members (u "source/metadata.bin") ≫= check_metadata;
  batch ← member members (u "raw_batches/0.bin");
  ensure (str_eqb batch raw) ;;
  envelope ← json_member members (u "raw_envelopes/records.ndjson");
  check_envelope received raw envelope ;;
  require_all (fun e => check_record members (fst e) (snd e)) (expected_records received raw) ;;
  check_mapping members mode capture decimals ;;
  Ok received.

(** [_inspect] *)
Definition inspect (members : list (pystr * bytes)) : result InspectedInput :=
  capture ← json_member members (u "source/capture.json");
  validate "capture-evidence.schema.json" capture ;;
  mode ← subscript (u "source_mode") capture;
  check_member_set members ;;
  manifest_raw ← member members (u "manifest.json");
  manifest ← strict_json manifest_raw;
  manifest ← object_keys manifest MANIFEST_KEYS;
  check_manifest manifest_raw manifest capture ;;
  check_declarations members (json_get (u "members") manifest) ;;
  _ ← check_sources members capture manifest mode;
  '(books, stage) ← evaluate_members members;
  match books with
  | [book] => Ok (mkInspected members capture book (stage_document stage) (digest manifest_raw))
  | _ => rejected "INVALID_DATASET"
  end.

Definition inspect_members (members : list (pystr * bytes)) : result InspectedInput :=
  try_except (inspect members) [ValueError; KeyError; TypeError; OSError; OverflowError]
    (fun e => if bool_decide (exn_class e = EvidenceRejected) then Raise e else rejected "INVALID_DATASET").
End inspection.

(** ** What the checks establish *)

Lemma ensure_Ok b u : ensure b = Ok u <-> b = true.
Proof. unfold ensure, reject_if. rewrite raise_if_Ok. apply negb_false_iff. Qed.

(** A declaration of a member: its path, its digest and its length. *)
Definition declares (members : list (pystr * bytes)) (entry : json) (path : pystr) : Prop :=
  exists d raw, entry = JDict d /\ json_get (u "path") d = JStr path /\ assoc path members = Some raw /\
    json_get (u "sha256") d = JStr (digest raw) /\ json_get (u "length") d = JInt (zlength raw).

Lemma check_declaration_Ok members seen entry seen' :
  check_declaration members seen entry = Ok seen' ->
  exists path, seen' = seen ++ [path] /\ (path ∉ seen) /\ path <> u "manifest.json" /\ declares members entry path.
Proof.
  unfold check_declaration. intros (d & [-> _]%object_keys_Ok & (path & Hpath%safe_member_Ok & Hr)%bind_Ok)%bind_Ok.
  apply bind_Ok in Hr as ([] & Hc%ensure_Ok & (raw & Hraw%member_Ok & (size & Hsize%integer_Ok & Hr)%bind_Ok)%bind_Ok).
  apply bind_Ok in Hr as ([] & [Hs%Z.eqb_eq Hd%json_is_Ok]%ensure_Ok%andb_true_iff & [= <-]).
  apply andb_true_iff in Hc as [[Hseen%negb_true_iff%bool_decide_eq_false Hm%negb_true_iff%str_eqb_false]%andb_true_iff _].
  exists path. split_and!; [done..|]. exists d, raw. destruct Hsize as [Hsize _]. by subst.
Qed.

(** Every member but the manifest is declared exactly once. *)
Lemma check_declarations_Ok members declarations :
  u "manifest.json" ∈ map fst members -> check_declarations members declarations = Ok tt ->
  exists entries paths, declarations = JList entries /\ Forall2 (declares members) entries paths /\
    (u "manifest.json" :: paths) ≡ₚ map fst members.
Proof.
  intros Hin. destruct declarations as [| | | | |entries|]; try done. cbn [check_declarations].
  intros ([] & Hn%ensure_Ok%Z.eqb_eq & (seen & Hseen & Hs%ensure_Ok)%bind_Ok)%bind_Ok.
  assert (forall s, foldM (check_declaration members) s entries = Ok seen -> NoDup s -> u "manifest.json" ∉ s ->
    exists paths, seen = s ++ paths /\ Forall2 (declares members) entries paths /\ NoDup seen /\ u "manifest.json" ∉ seen) as H.
  { clear. induction entries as [|entry entries IH]; intros s.
    - intros [= <-] Hs Hm. exists []. rewrite app_nil_r. by split_and!; try constructor.
    - intros (s' & Hs' & Hf)%bind_Ok Hs Hm. apply check_declaration_Ok in Hs' as (path & -> & Hnew & Hne & Hd).
      apply IH in Hf as (paths & -> & Hp & Hnd & Hman).
      + exists (path :: paths). rewrite <- app_assoc in *. split_and!; [done|by constructor|done..].
      + apply NoDup_app. split_and!; [done| |apply NoDup_singleton]. by intros x Hx ->%list_elem_of_singleton.
      + rewrite elem_of_app, list_elem_of_singleton. naive_solver. }
  destruct (H [] Hseen) as (paths & -> & Hp & Hsd & Hm); [constructor|by apply not_elem_of_nil|]. cbn [app] in *.
  exists entries, paths. split_and!; [done..|]. apply submseteq_length_Permutation.
  - apply NoDup_submseteq; [by constructor|]. intros x Hx%elem_of_cons. destruct Hx as [->|Hx]; [done|].
    apply list_elem_of_lookup in Hx as [k Hk]. destruct (Forall2_lookup_r _ _ _ _ _ Hp Hk) as (e & _ & d & raw & _ & _ & Hr & _).
    by eapply assoc_key.
  - apply Forall2_length in Hp. unfold zlength in Hn. rewrite length_map. cbn [length]. lia.
Qed.

(** ** The displayed book *)

(** A level of a side as the two decimals it shows. *)
Definition shows (level : json) (l : ExactDecimal * ExactDecimal) : Prop :=
  exists d px sz, level = JDict d /\ json_get (u "px") d = JStr px /\ json_get (u "sz") d = JStr sz /\
    exact_parse px = Ok (fst l) /\ exact_parse sz = Ok (snd l) /\ 0 < scaled (fst l) /\ 0 < scaled (snd l).

(** The order of the prices of a side. *)
Definition side_order (descending : bool) (p q : Z) : Prop := if descending then q < p else p < q.

(** A side shows so many levels, in the order of its side. *)
Definition side_shows (descending : bool) (side : json) (ls : list (ExactDecimal * ExactDecimal)) : Prop :=
  exists levels, side = JList levels /\ Forall2 shows levels ls /\ 1 <= zlength ls <= 20 /\
    StronglySorted (side_order descending) (map (fun l => scaled (fst l)) ls).

Lemma level_text_Ok x s : level_text x = Ok s -> x = JStr s.
Proof. destruct x; try done. cbn. intros ([] & _ & [= ->])%bind_Ok. done. Qed.

Lemma check_level_Ok descending previous level next :
  check_level descending previous level = Ok next ->
  exists l, next = Some (scaled (fst l)) /\ shows level l /\
    match previous with Some p => side_order descending p (scaled (fst l)) | None => True end.
Proof.
  unfold check_level. destruct level as [| | | | | |d]; try done.
  intros ([] & _ & (px & Hpx%level_text_Ok & (sz & Hsz%level_text_Ok & (price & Hprice & (size & Hsize & Hr)%bind_Ok)%bind_Ok)%bind_Ok)%bind_Ok)%bind_Ok.
  apply bind_Ok in Hr as ([] & [Hp%Z.leb_gt Hs%Z.leb_gt]%ensure_Ok%negb_true_iff%orb_false_iff & (n & _ & Hr)%bind_Ok).
  apply bind_Ok in Hr as ([] & Hprev%ensure_Ok & [= <-]). exists (price, size). split_and!; [done| |].
  - by exists d, px, sz.
  - destruct previous as [p|]; [|done]. unfold side_order. destruct descending; by apply Z.ltb_lt.
Qed.

Lemma side_order_trans descending p q r : side_order descending p q -> side_order descending q r -> side_order descending p r.
Proof. unfold side_order. destruct descending; lia. Qed.

Lemma check_levels_Ok descending levels previous next :
  foldM (check_level descending) previous levels = Ok next ->
  exists ls, Forall2 shows levels ls /\ StronglySorted (side_order descending) (map (fun l => scaled (fst l)) ls) /\
    match previous with Some p => Forall (side_order descending p) (map (fun l => scaled (fst l)) ls) | None => True end.
Proof.
  revert previous. induction levels as [|level levels IH]; intros previous.
  - intros _. exists []. split_and!; [constructor..|]. destruct previous; [constructor|done].
  - intros (next' & Hn & Hf)%bind_Ok. apply check_level_Ok in Hn as (l & -> & Hl & Hp).
    apply IH in Hf as (ls & Hls & Hs & Hall). exists (l :: ls). split_and!; [by constructor|by constructor|].
    destruct previous as [p|]; [|done]. constructor; [done|]. eapply Forall_impl; [exact Hall|].
    intros q. by apply side_order_trans.
Qed.

Lemma check_side_Ok descending side : check_side descending side = Ok tt -> exists ls, side_shows descending side ls.
Proof.
  unfold check_side. destruct side as [| | | | |levels|]; try done.
  intros ([] & [H1%Z.leb_le H2%Z.leb_le]%ensure_Ok%andb_true_iff & (next & Hf & _)%bind_Ok)%bind_Ok.
  apply check_levels_Ok in Hf as (ls & Hls & Hs & _). exists ls, levels. split_and!; try done.
  all: apply Forall2_length in Hls; unfold zlength in *; lia.
Qed.

Lemma best_price_Ok descending side ls price :
  side_shows descending side ls -> best_price side = Ok price -> exists size ls', ls = (price, size) :: ls'.
Proof.
  intros (levels & -> & Hls & Hn & _). destruct Hls as [|level [p q] levels ls Hl Hls]; [done|].
  destruct Hl as (d & px & sz & -> & Hpx & _ & Hp & _). cbn [best_price subscript].
  intros (x & Hx & Hpr)%bind_Ok. unfold json_item in Hx. unfold json_get in Hpx. destruct (assoc (u "px") d); [|done].
  injection Hx as ->. subst. cbn [exact_of fst] in *. assert (p = price) as -> by congruence. by exists q, ls.
Qed.

Lemma sorted_head {A B} (R : B -> B -> Prop) (f : A -> B) x l :
  StronglySorted R (map f (x :: l)) -> forall y, y ∈ l -> R (f x) (f y).
Proof.
  intros [_ H]%StronglySorted_inv y Hy. rewrite Forall_forall in H. apply H. by apply list_elem_of_fmap_2.
Qed.

(** Every bid is below every ask. *)
Lemma uncrossed bids asks bs as_ bid ask :
  side_shows true bids bs -> side_shows false asks as_ -> best_price bids = Ok bid -> best_price asks = Ok ask ->
  exact_leb ask bid = false ->
  forall b a, b ∈ bs -> a ∈ as_ -> scaled (fst b) < scaled (fst a).
Proof.
  intros Hb Ha Hbid Hask Hx%Z.leb_gt. pose proof (best_price_Ok _ _ _ _ Hb Hbid) as (bz & bs' & ->).
  pose proof (best_price_Ok _ _ _ _ Ha Hask) as (az & as' & ->).
  destruct Hb as (_ & _ & _ & _ & Hb), Ha as (_ & _ & _ & _ & Ha).
  pose proof (sorted_head _ _ _ _ Hb) as Hb'. pose proof (sorted_head _ _ _ _ Ha) as Ha'.
  intros b a [->|Hbin]%elem_of_cons [->|Hain]%elem_of_cons; try specialize (Hb' _ Hbin); try specialize (Ha' _ Hain);
    unfold side_order in *; cbn [fst] in *; lia.
Qed.

(** ** What an inspected input is *)

(** The manifest seals the members: it is canonical, carries its own digest, and
    declares every other member exactly once, with its digest and its length. *)
Definition sealed_by `{UnicodeNormal} (members : list (pystr * bytes)) (raw : bytes) : Prop :=
  exists manifest unsigned entries paths,
    assoc (u "manifest.json") members = Some raw /\
    strict_json raw = Ok (JDict manifest) /\ Canonical.canonical_json_bytes (JDict manifest) = Ok raw /\
    Canonical.canonical_json_bytes (JDict (assoc_del (u "manifest_sha256") manifest)) = Ok unsigned /\
    json_get (u "manifest_sha256") manifest = JStr (digest unsigned) /\
    json_get (u "members") manifest = JList entries /\ Forall2 (declares members) entries paths /\
    (u "manifest.json" :: paths) ≡ₚ (map fst members).

(** A response as the capture records it: of its kind and its request, of the mode of
    the capture, with the member that holds its body, the digest and the length of that
    body, and its three times. *)
Definition recorded (members : list (pystr * bytes)) (mode : json) (kind request_body : pystr) (item : json) (t : timing) : Prop :=
  exists d raw,
    item = JDict d /\ json_get (u "kind") d = JStr kind /\ json_get (u "request_body") d = JStr request_body /\
    py_eq (json_get (u "source_mode") d) mode = true /\ json_get (u "payload_path") d = JStr (u "source/" ++ kind ++ u ".bin") /\
    assoc (u "source/" ++ kind ++ u ".bin") members = Some raw /\ json_get (u "payload_sha256") d = JStr (digest raw) /\
    py_eq (json_get (u "payload_length") d) (JInt (zlength raw)) = true /\
    json_get (u "started_at_ms") d = JInt (tm_started t) /\ json_get (u "received_at_ms") d = JInt (tm_received t) /\
    json_get (u "elapsed_ns") d = JInt (tm_elapsed t).

(** The two responses were taken in turn, each in at most twelve seconds and within a
    day; a live capture took twelve seconds altogether, by the same clocks, and a fixture
    took no time. *)
Definition clocked (mode : json) (metadata response : timing) : Prop :=
  tm_started metadata <= tm_received metadata <= tm_started response /\ tm_started response <= tm_received response /\
  tm_elapsed metadata <= 12000000000 /\ tm_elapsed response <= 12000000000 /\
  tm_received response - tm_received metadata <= 86400000 /\
  (mode = JStr (u "live-public") ->
   tm_received response - tm_started metadata <= 12000 /\ clock_skew metadata = false /\ clock_skew response = false) /\
  (mode = JStr (u "fixture") -> tm_elapsed metadata = 0 /\ tm_elapsed response = 0).

(** The capture of a mode records two responses, whose times keep to the clocks; the
    first began when the package says it was started. *)
Definition taken (members : list (pystr * bytes)) (capture mode started : json) (metadata response : timing) : Prop :=
  exists first second,
    subscript (u "responses") capture = Ok (JList [first; second]) /\
    recorded members mode (u "metadata") META_REQUEST first metadata /\ recorded members mode (u "book") BOOK_REQUEST second response /\
    clocked mode metadata response /\ py_eq started (JInt (tm_started metadata)) = true.

(** The displayed book: at most twenty levels on either side in the order of their
    prices, positive, and every bid below every ask; a live one is at most five
    seconds older and one second newer than its reception. *)
Definition displayed (mode : json) (received : Z) (book : json) : Prop :=
  exists d bids asks bs as_ source_at,
    book = JDict d /\ json_get (u "coin") d = JStr (u "BTC") /\ json_get (u "time") d = JInt source_at /\
    json_get (u "levels") d = JList [bids; asks] /\ side_shows true bids bs /\ side_shows false asks as_ /\
    (forall b a, b ∈ bs -> a ∈ as_ -> scaled (fst b) < scaled (fst a)) /\
    (mode = JStr (u "live-public") -> received - 5000 <= source_at <= received + 1000).

Lemma check_book_Ok mode received book source_at :
  check_book mode received book = Ok source_at -> displayed mode received book.
Proof.
  unfold check_book. destruct book as [| | | | | |d]; try done. unfold reject_if.
  intros ([] & Hcoin%raise_if_Ok%negb_false_iff%json_is_Ok & (at_ & [Ht _]%integer_Ok & ([] & Hlive & Hr)%bind_Ok)%bind_Ok)%bind_Ok.
  destruct (json_get (u "levels") d) as [| | | | |[|bids [|asks [|]]]|] eqn:Hl; try done.
  apply bind_Ok in Hr as ([] & (bs & Hb)%check_side_Ok & ([] & (as_ & Ha)%check_side_Ok & Hr)%bind_Ok).
  apply bind_Ok in Hr as (bid & Hbid & (ask & Hask & ([] & Hx%raise_if_Ok & _)%bind_Ok)%bind_Ok).
  exists d, bids, asks, bs, as_, at_. split_and!; try done.
  - intros b a. by eapply uncrossed.
  - intros ->. cbn [json_is] in Hlive. rewrite str_eqb_refl in Hlive.
    apply bind_Ok in Hlive as ([] & H1%raise_if_Ok%Z.ltb_ge & H2%raise_if_Ok%Z.ltb_ge). lia.
Qed.

Lemma subscript_dict k x y : subscript k x = Ok y -> exists d, x = JDict d /\ json_get k d = y.
Proof.
  destruct x as [| | | | | |d]; try done. cbn [subscript]. unfold json_item, json_get. intros Hk. exists d. split; [done|].
  destruct (assoc k d); [by injection Hk|done].
Qed.

Lemma ensure_field_Ok k item expected x : ensure_field k item expected = Ok x -> exists d, item = JDict d /\ py_eq (json_get k d) expected = true.
Proof. intros (y & (d & -> & <-)%subscript_dict & Hy%ensure_Ok)%bind_Ok. by exists d. Qed.

Lemma int_field_Ok k item z : int_field k item = Ok z -> exists d, item = JDict d /\ json_get k d = JInt z.
Proof. intros (y & (d & -> & <-)%subscript_dict & Hy)%bind_Ok. exists d. split; [done|]. destruct (json_get k d); try done. by injection Hy as ->. Qed.

Lemma check_response_Ok members mode kind body item t :
  check_response members mode kind body item = Ok t ->
  recorded members mode kind body item t /\ tm_started t <= tm_received t /\ tm_elapsed t <= 12000000000.
Proof.
  unfold check_response, reject_if. intros ([] & (d & -> & Hkind%py_eq_text)%ensure_field_Ok & Hi)%bind_Ok.
  apply bind_Ok in Hi as ([] & (d' & [= <-] & Hbody%py_eq_text)%ensure_field_Ok & Hi). apply bind_Ok in Hi as ([] & (d' & [= <-] & Hmode)%ensure_field_Ok & Hi).
  apply bind_Ok in Hi as ([] & (d' & [= <-] & Hpath%py_eq_text)%ensure_field_Ok & Hi). apply bind_Ok in Hi as (raw & Hraw%member_Ok & Hi).
  apply bind_Ok in Hi as ([] & (d' & [= <-] & Hsha%py_eq_text)%ensure_field_Ok & Hi). apply bind_Ok in Hi as ([] & (d' & [= <-] & Hlen)%ensure_field_Ok & Hi).
  apply bind_Ok in Hi as (received & (d' & [= <-] & Hrec)%int_field_Ok & Hi). apply bind_Ok in Hi as (started & (d' & [= <-] & Hst)%int_field_Ok & Hi).
  apply bind_Ok in Hi as ([] & Hskew%raise_if_Ok%Z.ltb_ge & Hi). apply bind_Ok in Hi as (elapsed & (d' & [= <-] & Hel)%int_field_Ok & Hi).
  apply bind_Ok in Hi as ([] & Hlong%raise_if_Ok%Z.ltb_ge & [= <-]). split; [|done]. by exists d, raw.
Qed.

Lemma check_clocks_Ok mode capture started metadata response :
  check_clocks mode capture started metadata response = Ok tt ->
  tm_started metadata <= tm_received metadata -> tm_started response <= tm_received response ->
  tm_elapsed metadata <= 12000000000 -> tm_elapsed response <= 12000000000 ->
  clocked mode metadata response /\ py_eq started (JInt (tm_started metadata)) = true.
Proof.
  unfold check_clocks, reject_if. intros ([] & H1%ensure_Ok & ([] & Hfix%ensure_Ok & ([] & H2%raise_if_Ok & Hlive)%bind_Ok)%bind_Ok)%bind_Ok.
  apply andb_true_iff in H1 as [H1%negb_true_iff Hstart]. revert Hfix Hstart. reflect_bools. intros Hfix Hstart Ha Hb Hc Hd. split; [|done]. unfold clocked. split_and!; try lia.
  - intros ->. cbn [json_is] in Hlive. rewrite str_eqb_refl in Hlive.
    apply bind_Ok in Hlive as ([] & H3%ensure_Ok%negb_true_iff%Z.ltb_ge & ([] & _ & Hlive)%bind_Ok).
    apply bind_Ok in Hlive as ([] & H4%raise_if_Ok & H5%raise_if_Ok). done.
  - intros ->. cbn [json_is] in Hfix. rewrite str_eqb_refl in Hfix. cbn [andb] in Hfix.
    apply negb_true_iff, orb_false_iff in Hfix as [?%negb_false_iff%Z.eqb_eq ?%negb_false_iff%Z.eqb_eq]. done.
Qed.

Section inspected.
Context `{UnicodeTables} `{UnicodeLower} `{UnicodeNormal} `{ReportResources}.

Lemma check_member_set_Ok members :
  check_member_set members = Ok tt ->
  forall n, n ∈ map fst members <->
    n ∈ BASE_MEMBERS ++ [u "source/mapping-evidence.json"] \/
    (n = u "source/mezo-dex.json" /\ isSome (assoc n members) = true).
Proof.
  unfold check_member_set. intros (expected & He & Hs%ensure_Ok)%bind_Ok n. rewrite same_members_spec in Hs. rewrite Hs.
  destruct (assoc (u "source/mezo-dex.json") members) as [raw|] eqn:E.
  - apply bind_Ok in He as (capture & _ & (v & _ & He)%bind_Ok).
    assert (expected = (BASE_MEMBERS ++ [u "source/mapping-evidence.json"]) ++ [u "source/mezo-dex.json"]) as ->
      by congruence. etransitivity; [apply elem_of_app|].
    split; [intros [?| ->%list_elem_of_singleton]; [by left|right; by rewrite E]|intros [?|[-> _]]; [by left|right; left]].
  - injection He as <-. split; [by left|]. intros [?|[-> Hn]]; [done|]. by rewrite E in Hn.
Qed.

Lemma check_manifest_Ok raw manifest capture :
  check_manifest raw manifest capture = Ok tt ->
  Canonical.canonical_json_bytes (JDict manifest) = Ok raw /\
  exists unsigned, Canonical.canonical_json_bytes (JDict (assoc_del (u "manifest_sha256") manifest)) = Ok unsigned /\
    json_get (u "manifest_sha256") manifest = JStr (digest unsigned).
Proof.
  unfold check_manifest. intros ([] & _ & ([] & _ & (run & _ & (id & _ & ([] & _ & Hr)%bind_Ok)%bind_Ok)%bind_Ok)%bind_Ok)%bind_Ok.
  apply bind_Ok in Hr as (unsigned & Hu & ([] & Hd%ensure_Ok%json_is_Ok & (signed & Hs & He%ensure_Ok)%bind_Ok)%bind_Ok).
  apply str_eqb_spec in He as ->. split; [done|]. by exists unsigned.
Qed.

Lemma check_sources_Ok members capture manifest mode received :
  check_sources members capture manifest mode = Ok received ->
  exists metadata response raw book,
    taken members capture mode (json_get (u "started_at_ms") manifest) metadata response /\ tm_received response = received /\
    assoc (u "source/book.bin") members = Some raw /\ assoc (u "raw_batches/0.bin") members = Some raw /\
    strict_json raw = Ok book /\ displayed mode received book.
Proof.
  unfold check_sources. intros (responses & Hresp & ([m r] & Hpair & Hc)%bind_Ok)%bind_Ok.
  assert (responses = JList [m; r]) as ->.
  { destruct responses as [| | | | |[|x [|y [|]]]|]; try done. by injection Hpair as -> ->. }
  apply bind_Ok in Hc as (metadata & (Hm & Hm1 & Hm2)%check_response_Ok & (response & (Hr & Hr1 & Hr2)%check_response_Ok & Hc)%bind_Ok).
  apply bind_Ok in Hc as ([] & [Hclocks Hstart]%check_clocks_Ok & (raw & Hraw%member_Ok & (book & Hbook & Hc)%bind_Ok)%bind_Ok); try done.
  apply bind_Ok in Hc as (at_ & Hat%check_book_Ok & (decimals & _ & (batch & Hbatch%member_Ok & Hc)%bind_Ok)%bind_Ok).
  apply bind_Ok in Hc as ([] & Hsame%ensure_Ok%str_eqb_spec & (envelope & _ & ([] & _ & Hc)%bind_Ok)%bind_Ok). subst batch.
  apply bind_Ok in Hc as ([] & _ & ([] & _ & [= <-])%bind_Ok).
  exists metadata, response, raw, book. split_and!; try done. by exists m, r.
Qed.

(** A member is a document. *)
Definition parsed (members : list (pystr * bytes)) (n : pystr) : Prop := exists j, json_member members n = Ok j.

Lemma parsed_nonempty members n raw : parsed members n -> assoc n members = Some raw -> raw <> [].
Proof.
  intros [j (raw' & Hr%member_Ok & Hj)%bind_Ok] Ha. assert (raw' = raw) as -> by congruence. intros ->. by vm_compute in Hj.
Qed.

(** The members of an inspected input that the inspection decodes. *)
Definition PARSED_NAMES : list pystr := map u
  ["source/capture.json"; "manifest.json"; "source/book.bin"; "source/metadata.bin"; "raw_envelopes/records.ndjson";
   "terminal.json"; "control_evidence/records.ndjson"; "quality_minutes/records.ndjson"; "mapping_snapshot.json";
   "source/mapping-evidence.json"]%string.

Lemma check_record_parsed members n e : check_record members n e = Ok tt -> parsed members n.
Proof. unfold check_record. intros (b & (j & Hj & _)%bind_Ok & _)%bind_Ok. by exists j. Qed.

Lemma check_mapping_parsed members mode capture decimals :
  check_mapping members mode capture decimals = Ok tt ->
  parsed members (u "mapping_snapshot.json") /\ parsed members (u "source/mapping-evidence.json").
Proof.
  unfold check_mapping. intros (j & Hj & (d & _ & (m & _ & (k & _ & (raw & Hraw & (s & Hs & _)%bind_Ok)%bind_Ok)%bind_Ok)%bind_Ok)%bind_Ok)%bind_Ok.
  split; [by exists j|]. exists s. unfold json_member. by rewrite Hraw.
Qed.

Lemma check_sources_parsed members capture manifest mode received :
  check_sources members capture manifest mode = Ok received -> Forall (parsed members) (drop 2 PARSED_NAMES).
Proof.
  unfold check_sources. intros (responses & _ & ([m r] & _ & Hc)%bind_Ok)%bind_Ok.
  do 3 (apply bind_Ok in Hc as (? & _ & Hc)).
  apply bind_Ok in Hc as (raw & Hraw & (book & Hbook & (at_ & _ & (decimals & Hmeta & Hc)%bind_Ok)%bind_Ok)%bind_Ok).
  apply bind_Ok in Hmeta as (meta & Hmeta & _).
  apply bind_Ok in Hc as (batch & _ & ([] & _ & (envelope & He & ([] & _ & Hc)%bind_Ok)%bind_Ok)%bind_Ok).
  apply bind_Ok in Hc as ([] & Hrec & ([] & [Hs Hev]%check_mapping_parsed & _)%bind_Ok).
  rewrite require_all_Ok in Hrec. unfold expected_records in Hrec.
  repeat match goal with H : Forall _ (_ :: _) |- _ => apply Forall_cons in H as [?%check_record_parsed ?] end.
  assert (parsed members (u "source/book.bin")) by (exists book; unfold json_member; by rewrite Hraw).
  assert (parsed members (u "source/metadata.bin")) by by exists meta.
  assert (parsed members (u "raw_envelopes/records.ndjson")) by by exists envelope.
  repeat constructor; assumption.
Qed.

(** What the inspection leaves of its input. *)
Record inspected (members : list (pystr * bytes)) (ev : InspectedInput) : Prop := {
  in_members : ii_members ev = members;
  in_names : forall n, n ∈ map fst members <->
    n ∈ BASE_MEMBERS ++ [u "source/mapping-evidence.json"] \/
    (n = u "source/mezo-dex.json" /\ isSome (assoc n members) = true);
  in_manifest : exists raw, sealed_by members raw /\ ii_package_sha256 ev = digest raw;
  in_capture : json_member members (u "source/capture.json") = Ok (ii_capture ev);
  in_book : exists mode manifest metadata response raw book,
    subscript (u "source_mode") (ii_capture ev) = Ok mode /\ json_member members (u "manifest.json") = Ok (JDict manifest) /\
    taken members (ii_capture ev) mode (json_get (u "started_at_ms") manifest) metadata response /\
    assoc (u "source/book.bin") members = Some raw /\ assoc (u "raw_batches/0.bin") members = Some raw /\
    strict_json raw = Ok book /\ displayed mode (tm_received response) book;
  in_stage : exists stage, evaluate_members members = Ok ([ii_book ev], stage) /\ ii_stage_a ev = stage_document stage;
  in_parsed : Forall (parsed members) PARSED_NAMES;
  in_dex : forall raw, assoc (u "source/mezo-dex.json") members = Some raw -> exists capture, strict_json raw = Ok capture }.

Lemma inspect_members_Ok members ev : inspect_members members = Ok ev -> inspected members ev.
Proof.
  intros [Hi|(e & _ & He)]%try_except_Ok; [|by destruct (bool_decide _)]. unfold inspect in Hi.
  apply bind_Ok in Hi as (capture & Hcap & ([] & _ & (mode & Hmode & ([] & Hset & Hi)%bind_Ok)%bind_Ok)%bind_Ok).
  pose proof (check_member_set_Ok _ Hset) as Hnames.
  apply bind_Ok in Hi as (raw & Hraw & (j & Hj & (manifest & [-> _]%object_keys_Ok & Hi)%bind_Ok)%bind_Ok).
  assert (parsed members (u "manifest.json")) as Hman by (exists (JDict manifest); unfold json_member; by rewrite Hraw).
  apply member_Ok in Hraw. apply bind_Ok in Hi as ([] & (Hcan & unsigned & Hun & Hd)%check_manifest_Ok & ([] & Hdecl & Hi)%bind_Ok).
  apply check_declarations_Ok in Hdecl as (entries & paths & He & Hp & Hperm); [|by eapply assoc_key].
  apply bind_Ok in Hi as (received & Hsources & Hi). pose proof (check_sources_parsed _ _ _ _ _ Hsources) as Hparsed.
  apply check_sources_Ok in Hsources as (metadata & response & rawb & book & Hck & <- & Hb & Hbatch & Hbook & Hdisp).
  apply bind_Ok in Hi as ([books stage] & Hev & Hi). destruct books as [|b [|]]; try done. injection Hi as <-.
  split; cbn [ii_members ii_package_sha256 ii_capture ii_book ii_stage_a]; try done.
  - exists raw. split; [|done]. by exists manifest, unsigned, entries, paths.
  - exists mode, manifest, metadata, response, rawb, book. split_and!; try done. unfold json_member, member. by rewrite Hraw.
  - by exists stage.
  - constructor; [by exists capture|]. constructor; done.
  - intros rawd Hrawd. unfold check_member_set in Hset. rewrite Hrawd in Hset.
    apply bind_Ok in Hset as (expected & (c & Hc & _)%bind_Ok & _). by exists c.
Qed.

(** C28: an input that passes its inspection has exactly the members the format prescribes
    and is sealed by its manifest; the capture that it holds records both responses, whose
    bodies are its members, and the times it records of them keep to the bounds of the
    clocks and to the start in the manifest; its book is ordered, not crossed and, when
    it is live, not stale at its recorded reception; and it is one book of the reader, the
    reconstruction and the binding, with the Stage A document of the same members. *)
Theorem inspect_members_sound members ev :
  inspect_members members = Ok ev ->
  ii_members ev = members /\
  (forall n, n ∈ map fst members <->
     n ∈ BASE_MEMBERS ++ [u "source/mapping-evidence.json"] \/
     (n = u "source/mezo-dex.json" /\ isSome (assoc n members) = true)) /\
  (exists raw, sealed_by members raw /\ ii_package_sha256 ev = digest raw) /\
  json_member members (u "source/capture.json") = Ok (ii_capture ev) /\
  (exists mode manifest metadata response raw book,
     subscript (u "source_mode") (ii_capture ev) = Ok mode /\ json_member members (u "manifest.json") = Ok (JDict manifest) /\
     taken members (ii_capture ev) mode (json_get (u "started_at_ms") manifest) metadata response /\
     assoc (u "source/book.bin") members = Some raw /\ assoc (u "raw_batches/0.bin") members = Some raw /\
     strict_json raw = Ok book /\ displayed mode (tm_received response) book) /\
  (exists stage, evaluate_members members = Ok ([ii_book ev], stage) /\ ii_stage_a ev = stage_document stage).
Proof. intros Hi. by destruct (inspect_members_Ok members ev Hi). Qed.

(** No member of an inspected input is empty. *)
Lemma inspected_contents members ev :
  NoDup (map fst members) -> inspected members ev -> Forall (fun m => snd m <> []) members.
Proof.
  intros Hd Hi. apply Forall_forall. intros [n raw] Hin. pose proof (assoc_unique n raw members Hd Hin) as Ha. cbn [snd].
  assert (forall k, k ∈ PARSED_NAMES -> n = k -> raw <> []) as Hk.
  { intros k Hk ->. pose proof (in_parsed _ _ Hi) as Hp. rewrite Forall_forall in Hp. by eapply parsed_nonempty; [apply Hp|]. }
  pose proof (proj1 (in_names _ _ Hi n) (assoc_key _ _ _ Ha)) as [Hn|[-> _]].
  - destruct (decide (n ∈ PARSED_NAMES)) as [Hp|Hp]; [by eapply Hk|].
    destruct (in_book _ _ Hi) as (mode & man & mt & rs & b & book & _ & _ & _ & Hb & Hbatch & Hbook & _).
    assert (n = u "raw_batches/0.bin") as ->.
    { assert (forallb (fun n => bool_decide (n ∈ PARSED_NAMES) || bool_decide (n = u "raw_batches/0.bin"))
                (BASE_MEMBERS ++ [u "source/mapping-evidence.json"]) = true) as Hall by (vm_compute; reflexivity).
      rewrite forallb_forall in Hall. apply list_elem_of_In, Hall, orb_true_iff in Hn as [Hn|Hn]; by apply bool_decide_eq_true in Hn. }
    assert (raw = b) as -> by congruence. intros E. rewrite E in Hbook. by vm_compute in Hbook.
  - destruct (in_dex _ _ Hi raw Ha) as [c Hc]. intros E. rewrite E in Hc. by vm_compute in Hc.
Qed.
End inspected.
