(* ===== verification/JsonBytes.v ===== *)
(** * [json.loads] of bytes

    [json.detect_encoding] and the decoders it chooses from, with their
    [surrogatepass] error handler: UTF-8, UTF-16 and UTF-32 in both orders, with and
    without a byte order mark. *)

From S2P Require Import Prelude PyStr PyObj Json JsonRoundtrip Bytes ByteLaws.
Open Scope Z_scope.

(** ** Decoders that let surrogates pass *)

Definition decode_error {A} : result A := raise UnicodeDecodeError "".

(** A surrogate in three bytes. *)
Definition surrogate_head (b : bytes) : option (Z * bytes) :=
  match b with
  | 237 :: c1 :: c2 :: t =>
    if (160 <=? c1) && (c1 <=? 191) && (128 <=? c2) && (c2 <=? 191)
    then Some (53248 + 64 * (c1 - 128) + (c2 - 128), t) else None
  | _ => None
  end.

Fixpoint decode_utf8_pass (fuel : nat) (b : bytes) : result pystr :=
  match b, fuel with
  | [], _ => Ok []
  | _, O => raise RecursionError "fuel"
  | _, S fuel =>
    match utf8_head b with
    | Some (c, t) => s ← decode_utf8_pass fuel t; Ok (c :: s)
    | None =>
      match surrogate_head b with
      | Some (c, t) => s ← decode_utf8_pass fuel t; Ok (c :: s)
      | None => decode_error
      end
    end
  end.

(** The 16-bit units of bytes in either order. *)
Fixpoint units16 (big : bool) (b : bytes) : result (list Z) :=
  match b with
  | [] => Ok []
  | x :: y :: t => s ← units16 big t; Ok ((if big then 256 * x + y else x + 256 * y) :: s)
  | _ => decode_error
  end.

(** Surrogate pairs are one character, a single surrogate stays. *)
Fixpoint join_units (us : list Z) : pystr :=
  match us with
  | c :: t =>
    match t with
    | c2 :: t' =>
      if is_high_surrogate c && is_low_surrogate c2
      then 65536 + 1024 * (c - 55296) + (c2 - 56320) :: join_units t' else c :: join_units t
    | [] => [c]
    end
  | [] => []
  end.

Definition decode_utf16 (big : bool) (b : bytes) : result pystr := join_units <$> units16 big b.

Fixpoint decode_utf32 (big : bool) (b : bytes) : result pystr :=
  match b with
  | [] => Ok []
  | x :: y :: z :: w :: t =>
    let c := if big then 16777216 * x + 65536 * y + 256 * z + w else x + 256 * y + 65536 * z + 16777216 * w in
    if c <=? 1114111 then s ← decode_utf32 big t; Ok (c :: s) else decode_error
  | _ => decode_error
  end.

(** ** [json.loads] *)

Definition is_zero (b : bytes) (i : nat) : bool := match b !! i with Some c => c =? 0 | None => false end.

(** [b.decode(detect_encoding(b), "surrogatepass")] *)
Definition detect_and_decode (b : bytes) : result pystr :=
  let utf8 b := decode_utf8_pass (length b) b in
  if str_startswith [0; 0; 254; 255] b then decode_utf32 true (drop 4 b)
  else if str_startswith [255; 254; 0; 0] b then decode_utf32 false (drop 4 b)
  else if str_startswith [254; 255] b then decode_utf16 true (drop 2 b)
  else if str_startswith [255; 254] b then decode_utf16 false (drop 2 b)
  else if str_startswith [239; 187; 191] b then utf8 (drop 3 b)
  else if (4 <=? length b)%nat then
    if is_zero b 0 then if is_zero b 1 then decode_utf32 true b else decode_utf16 true b
    else if is_zero b 1 then if is_zero b 2 && is_zero b 3 then decode_utf32 false b else decode_utf16 false b
    else utf8 b
  else if (length b =? 2)%nat then
    if is_zero b 0 then decode_utf16 true b else if is_zero b 1 then decode_utf16 false b else utf8 b
  else utf8 b.

(** [json.loads(b, ...)]; a text that starts with a byte order mark is an error either
    way. *)
Definition json_loads_bytes (h : json_hooks) (b : bytes) : result json := detect_and_decode b ≫= json_loads_with h.

Example loads_bytes_ex1 : json_loads_bytes default_hooks (u "[1]") = Ok (JList [JInt 1]).
Proof. vm_compute. reflexivity. Qed.
Example loads_bytes_ex2 : json_loads_bytes default_hooks [91; 0; 49; 0; 93; 0] = Ok (JList [JInt 1]).
Proof. vm_compute. reflexivity. Qed.
Example loads_bytes_ex3 : json_loads_bytes default_hooks [254; 255; 0; 49] = Ok (JInt 1).
Proof. vm_compute. reflexivity. Qed.
Example loads_bytes_ex4 : is_Ok (json_loads_bytes default_hooks [237; 160; 128]) = false.
Proof. vm_compute. reflexivity. Qed.
