(* ===== verification/CapturePackage.v ===== *)
(** * Evidence captures: [evidence_capture] and [evidence_package] of [liqvera_public_capture]

    The responses of a capture, the identity evidence and the mapping written for
    them, and the members of the sealed package. *)

From S2P Require Import Prelude PyStr Num PyObj Json JsonRoundtrip Bytes ByteLaws Exact JsonBytes.
From S2P Require Import EvidenceIo Documents MezoDex TroveReport FrozenPackage Package SealedInput.
Open Scope Z_scope.

(** ** [evidence_capture] *)

Module EvidenceCapture.

Definition ORIGIN : pystr := u "https://api.hyperliquid.xyz/info".
Definition MAX_PAYLOAD_BYTES : Z := 2 * 1024 * 1024.

(** Quotes in the literals below are single. *)
Definition REQUESTS : list (pystr * bytes) :=
  [(u "metadata", double_quoted "{'type':'meta'}"); (u "book", double_quoted "{'type':'l2Book','coin':'BTC'}")].

Definition FIXTURE_TIME_MS : Z := 1790208000000.
Definition FIXTURE_METADATA : bytes := double_quoted "{'universe':[{'name':'BTC','szDecimals':5,'maxLeverage':40}]}".
Definition FIXTURE_BOOK : bytes :=
  double_quoted "{'coin':'BTC','time':1790208000000,'levels':" ++
  double_quoted "[[{'px':'99900','sz':'0.1'},{'px':'99800','sz':'0.1'}]," ++
  double_quoted "[{'px':'100000','sz':'0.1'},{'px':'100100','sz':'0.1'}]]}".

Record CapturedResponse := mkResponse {
  kind : pystr; payload : bytes; started_at_ms : Z; received_at_ms : Z; elapsed_ns : Z; http_status : Z }.

Definition evidence (r : CapturedResponse) (source_mode : pystr) : result json :=
  request ← member REQUESTS (kind r);
  body ← decode_ascii request;
  Ok (JDict
    [(u "kind", JStr (kind r)); (u "origin", JStr ORIGIN); (u "method", JStr (u "POST"));
     (u "request_body", JStr body); (u "source_mode", JStr source_mode);
     (u "started_at_ms", JInt (started_at_ms r)); (u "received_at_ms", JInt (received_at_ms r));
     (u "elapsed_ns", JInt (elapsed_ns r)); (u "http_status", JInt (http_status r));
     (u "payload_path", JStr (u "source/" ++ kind r ++ u ".bin")); (u "payload_sha256", JStr (sha256_hex (payload r)));
     (u "payload_length", JInt (zlength (payload r)))]).

(** [capture_responses("fixture")] *)
Definition fixture_responses : CapturedResponse * CapturedResponse :=
  (mkResponse (u "metadata") FIXTURE_METADATA FIXTURE_TIME_MS FIXTURE_TIME_MS 0 200,
   mkResponse (u "book") FIXTURE_BOOK FIXTURE_TIME_MS FIXTURE_TIME_MS 0 200).
End EvidenceCapture.
Import EvidenceCapture.

(** ** [evidence_package] *)

Module EvidencePackage.

Definition FIXTURE_REFERENCE : pystr := u "https://schemas.liqvera.invalid/fixture/btc-perpetual/v1".
Definition FIXTURE_IDENTITY : list (pystr * json) :=
  texts [("schema", "liqvera-fixture-identity/v1"); ("source_mode", "fixture")]%string ++
  [(u "reference", JStr FIXTURE_REFERENCE)] ++
  texts [("base_asset", "BTC"); ("quote_asset", "USD");
         ("settlement_asset", "USDC"); ("product_kind", "perp"); ("payoff_kind", "linear");
         ("displayed_size_unit", "coin"); ("contract_multiplier", "1");
         ("limitation", "Synthetic mapping for simulation only; no live identity approval.")]%string.
Definition LIVE_REFERENCE : pystr := u "https://schemas.liqvera.invalid/hyperliquid/btc-linear-perpetual/v1".

Definition live_identity (metadata book : bytes) (sz_decimals : Z) : list (pystr * json) :=
  texts [("schema", "liqvera-hyperliquid-btc-identity/v1"); ("source_mode", "live-public");
         ("policy_version", "hyperliquid-btc-linear-perpetual/v1")]%string ++
  [(u "reference", JStr LIVE_REFERENCE); (u "metadata_sha256", JStr (sha256_hex metadata));
   (u "book_sha256", JStr (sha256_hex book))] ++
  texts [("base_asset", "BTC"); ("quote_asset", "USD"); ("settlement_asset", "USDC");
         ("product_kind", "perp"); ("payoff_kind", "linear"); ("displayed_size_unit", "coin");
         ("contract_multiplier", "1")]%string ++
  [(u "quantity_step", JStr (if sz_decimals =? 0 then u "1"
                             else u "0." ++ repeat 48 (Z.to_nat (sz_decimals - 1)) ++ u "1"));
   (u "maximum_price_significant_digits", JInt 5); (u "minimum_notional_usd", JStr (u "10"));
   (u "limitation", JStr (u "Snapshot identity only; no funding, fee, execution, or trading authority claim."))].

(** [{key: evidence[key] for key in (...)}] *)
Definition identity_of (evidence : list (pystr * json)) : result json :=
  fields ← mapR (fun key => value ← json_item key evidence; Ok (key, value))
             (map u ["base_asset"; "quote_asset"; "product_kind"; "settlement_asset"; "payoff_kind"]%string);
  Ok (JDict fields).

Definition live_mapping (evidence : list (pystr * json)) : result json :=
  version ← json_item (u "policy_version") evidence;
  identity ← identity_of evidence;
  encoded ← canonical_json_bytes (JDict evidence);
  step ← json_item (u "quantity_step") evidence;
  digits ← json_item (u "maximum_price_significant_digits") evidence;
  notional ← json_item (u "minimum_notional_usd") evidence;
  Ok (JDict
    ([(u "mapping_id", JStr (u "hyperliquid-btc-perpetual")); (u "mapping_version", version)] ++
     texts [("decision", "APPROVED"); ("venue", "hyperliquid"); ("symbol", "BTC")]%string ++
     [(u "identity", identity); (u "evidence_sha256", JStr (sha256_hex encoded));
      (u "evidence_reference", JStr LIVE_REFERENCE); (u "valid_from_ms", JInt 0); (u "valid_until_ms", JNull);
      (u "reviewed_contract_multiplier", JStr (u "1")); (u "displayed_size_unit", JStr (u "coin"));
      (u "quantity_step", step); (u "price_tick", JNull); (u "price_decimals", JNull);
      (u "max_price_significant_digits", digits); (u "min_quantity", JNull); (u "min_notional", notional)])).

Definition fixture_mapping : result json :=
  identity ← identity_of FIXTURE_IDENTITY;
  encoded ← canonical_json_bytes (JDict FIXTURE_IDENTITY);
  Ok (JDict
    (texts [("mapping_id", "fixture-btc-perpetual"); ("mapping_version", "fixture/v1");
            ("decision", "APPROVED"); ("venue", "hyperliquid"); ("symbol", "BTC")]%string ++
     [(u "identity", identity); (u "evidence_sha256", JStr (sha256_hex encoded));
      (u "evidence_reference", JStr FIXTURE_REFERENCE); (u "valid_from_ms", JInt 0); (u "valid_until_ms", JNull);
      (u "reviewed_contract_multiplier", JStr (u "1")); (u "displayed_size_unit", JStr (u "coin"));
      (u "quantity_step", JStr (u "0.00001")); (u "price_tick", JStr (u "0.1")); (u "price_decimals", JNull);
      (u "max_price_significant_digits", JNull); (u "min_quantity", JNull); (u "min_notional", JStr (u "10"))])).

(** The hook [pairs]: a repeated key is refused. *)
Definition identity_hooks : json_hooks := {|
  on_pairs := fun ps =>
    foldM (fun d kv => raise_if (isSome (assoc (fst kv) d)) ValueError "IDENTITY_UNVERIFIED" ;; Ok (d ++ [kv])) [] ps;
  on_float := on_float default_hooks;
  on_constant := on_constant default_hooks |}.

(** The objects among the values an iteration yields that are named BTC. *)
Definition btc_candidates (universe : json) : result (list json) :=
  match universe with
  | JList items => Ok (List.filter is_btc items)
  | JDict _ | JStr _ => Ok []
  | _ => raise TypeError "not iterable"
  end.

(** [szDecimals] of the only BTC asset of the metadata. *)
Definition metadata_decimals (metadata : bytes) : result Z :=
  document ← json_loads_bytes identity_hooks metadata;
  match document with
  | JDict d =>
    candidates ← btc_candidates (default (JList []) (assoc (u "universe") d));
    match candidates with
    | [JDict asset] => match json_get (u "szDecimals") asset with
                       | JInt decimals => Ok decimals
                       | _ => raise ValueError "IDENTITY_UNVERIFIED"
                       end
    | _ => raise ValueError "IDENTITY_UNVERIFIED"
    end
  | _ => raise ValueError "IDENTITY_UNVERIFIED"
  end.

(** The identity evidence and the mapping of a mode. *)
Definition identity_and_mapping (source_mode : pystr) (metadata book : CapturedResponse)
  : result (list (pystr * json) * json) :=
  if str_eqb source_mode (u "fixture") then
    mapping ← fixture_mapping; Ok (FIXTURE_IDENTITY, mapping)
  else
    decimals ← metadata_decimals (payload metadata);
    let identity := live_identity (payload metadata) (payload book) decimals in
    mapping ← live_mapping identity; Ok (identity, mapping).

(** [{"path": path, "sha256": sha256_bytes(raw), "length": len(raw)}] *)
Definition declaration (m : pystr * bytes) : json :=
  JDict [(u "path", JStr (fst m)); (u "sha256", JStr (sha256_hex (snd m))); (u "length", JInt (zlength (snd m)))].

Definition capture_manifest (capture_id : uuid) (started : Z) (members : list (pystr * bytes)) : list (pystr * json) :=
  [(u "schema", JStr PACKAGE_SCHEMA); (u "capture_run_id", JStr (uuid_str capture_id)); (u "started_at_ms", JInt started);
   (u "venue_set", JList [JStr (u "hyperliquid")]); (u "members", JList (map declaration (sort_items members)))].

Definition capture_document (capture_id : uuid) (source_mode : pystr) (responses : list json) : json := JDict
  [(u "schema", JStr (u "liqvera-evidence-capture/v1")); (u "capture_id", JStr (uuid_str capture_id));
   (u "source_mode", JStr source_mode);
   (u "identity_status", JStr (if str_eqb source_mode (u "fixture") then u "SIMULATED" else u "UNVERIFIED"));
   (u "responses", JList responses)].

(** [capture_members] of a UUID, a mode and two responses. *)
Definition capture_members `{UnicodeLower} (capture_id : uuid) (source_mode : pystr)
    (responses : CapturedResponse * CapturedResponse) (mezo_capture : option json) : result (list (pystr * bytes)) :=
  raise_if (negb (bool_decide (source_mode ∈ [u "fixture"; u "live-public"]))) ValueError "INVALID_INPUT" ;;
  let '(metadata, book) := responses in
  raise_if (negb (str_eqb (kind metadata) (u "metadata") && str_eqb (kind book) (u "book"))) ValueError "INVALID_DATASET" ;;
  let observed := received_at_ms book in
  '(identity, mapping) ← identity_and_mapping source_mode metadata book;
  control ← canonical_json_bytes (JDict
    [(u "recorded_at_ms", JInt observed); (u "kind", JStr (u "epoch"));
     (u "payload_sha256", JStr (sha256_hex (payload book)))]);
  envelopes ← canonical_json_bytes (JDict
    [(u "envelope_index", JInt 0); (u "observed_at_ms", JInt observed); (u "venue", JStr (u "hyperliquid"));
     (u "payload_hex", JStr (bytes_hex (payload book)))]);
  minutes ← canonical_json_bytes (JDict
    [(u "minute_start_ms", JInt (observed - observed mod 60000)); (u "venue", JStr (u "hyperliquid"));
     (u "accepted", JInt 1); (u "rejected", JInt 0)]);
  mappings ← canonical_json_bytes (JDict [(u "mappings", JList [mapping])]);
  terminal ← canonical_json_bytes (JDict [(u "terminated_at_ms", JInt observed); (u "status", JStr (u "sealed"))]);
  first ← evidence metadata source_mode;
  second ← evidence book source_mode;
  capture ← canonical_json_bytes (capture_document capture_id source_mode [first; second]);
  mapping_evidence ← canonical_json_bytes (JDict identity);
  mezo ← match mezo_capture with
         | Some capture => _ ← verify_capture capture; raw ← canonical_json_bytes capture; Ok [(u "source/mezo-dex.json", raw)]
         | None => Ok []
         end;
  let members :=
    [(u "control_evidence/records.ndjson", control); (u "raw_batches/0.bin", payload book);
     (u "raw_envelopes/records.ndjson", envelopes); (u "quality_minutes/records.ndjson", minutes);
     (u "mapping_snapshot.json", mappings); (u "terminal.json", terminal); (u "source/metadata.bin", payload metadata);
     (u "source/book.bin", payload book); (u "source/capture.json", capture);
     (u "source/mapping-evidence.json", mapping_evidence)] ++ mezo in
  let manifest := capture_manifest capture_id (started_at_ms metadata) members in
  unsigned ← canonical_json_bytes (JDict manifest);
  signed ← canonical_json_bytes (JDict (manifest ++ [(u "manifest_sha256", JStr (sha256_hex unsigned))]));
  Ok (members ++ [(u "manifest.json", signed)]).
End EvidencePackage.
Import EvidencePackage.

(** ** The fixture passes its inspection *)

Definition demo_id : uuid := 24197857161011715162171839636988778104.

(** The members of the fixture, in the order of their names, and what its inspection
    leaves of them. *)
Lemma demo_inspected : exists members ev,
  capture_members demo_id (u "fixture") fixture_responses None = Ok members /\
  inspect_members (H1 := demo_normal) (H2 := demo_resources) (sort_items members) = Ok ev.
Proof.
  destruct (both_satisfy (capture_members demo_id (u "fixture") fixture_responses None)
    (fun members => inspect_members (H1 := demo_normal) (H2 := demo_resources) (sort_items members)) (fun _ => true))
    as (members & ev & Hm & Hi & _); [vm_compute; reflexivity|].
  exists members, ev. split; [exact Hm|exact Hi].
Qed.

Lemma inspect_members_sound_witness : exists members ev,
  inspect_members (H1 := demo_normal) (H2 := demo_resources) members = Ok ev /\
  exists raw, sealed_by (H := demo_normal) members raw /\ ii_package_sha256 ev = digest raw.
Proof.
  destruct demo_inspected as (members & ev & _ & Hi). exists (sort_items members), ev. split; [exact Hi|].
  exact (proj1 (proj2 (proj2 (inspect_members_sound (H1 := demo_normal) (H2 := demo_resources) (sort_items members) ev Hi)))).
Defined.
