(* ===== verification/Archive.v ===== *)
(** * Archives: [_zip] and [_read_archive] of [liqvera_evidence_report.evidence_bundle]

    The stored ZIP format as the standard library's [zipfile] writes and reads it
    ([ZipFile.writestr], [close], [infolist], [open]), the writer of a bundle, and
    the reader that checks every field of the directory and of the local headers
    before it reads a member.  Proved here: the reader accepts exactly the
    archives the writer makes of members that are not empty, and returns them. *)

From stdpp Require Import sorting.
From S2P Require Import Prelude PyStr PyObj Json JsonRoundtrip Bytes EvidenceIo MezoDex TroveReport SealedInput.
Open Scope Z_scope.

(** ** [struct]: little-endian fields of so many bytes *)

Fixpoint le_bytes (w : nat) (n : Z) : bytes :=
  match w with O => [] | S w => n mod 256 :: le_bytes w (n / 256) end.

Fixpoint of_le (b : bytes) : Z := match b with [] => 0 | c :: b => c + 256 * of_le b end.

Definition pack (fields : list (nat * Z)) : bytes := flat_map (fun f => le_bytes (fst f) (snd f)) fields.

Fixpoint unpack (widths : list nat) (b : bytes) : list Z :=
  match widths with [] => [] | w :: ws => of_le (take w b) :: unpack ws (drop w b) end.

(** [b[i:i + n]] for an offset that is not negative. *)
Definition slice (b : bytes) (i : Z) (n : nat) : bytes := take n (drop (Z.to_nat i) b).

(** ** [zlib.crc32] *)

Definition crc_shift (c : Z) : Z :=
  let s := Z.shiftr c 1 in if Z.odd c then Z.lxor s 3988292384 else s.

Definition crc_byte (c b : Z) : Z := Nat.iter 8 crc_shift (Z.lxor c b).

Definition crc32 (b : bytes) : Z := Z.lxor (foldl crc_byte 4294967295 b) 4294967295.

Example crc32_ex1 : crc32 (u "123456789") = 3421780262. Proof. vm_compute. reflexivity. Qed.

(** ** What [ZipFile] writes of a stored member *)

(** The signatures of a local header, of a directory entry, of the end record, of
    the ZIP64 end record and of its locator. *)
Definition LOCAL : Z := 67324752.
Definition CENTRAL : Z := 33639248.
Definition ENDING : Z := 101010256.
Definition ENDING64 : Z := 101075792.
Definition LOCATOR64 : Z := 117853008.

Example signatures : map (le_bytes 4) [LOCAL; CENTRAL; ENDING] = map (fun s => [80; 75] ++ s) [[3; 4]; [1; 2]; [5; 6]].
Proof. reflexivity. Qed.

(** ["<4s2B4HL2L2H"], ["<4s4B4HL2L5H2L"] and ["<4s4H2LH"]. *)
Definition local_widths : list nat := [4; 1; 1; 2; 2; 2; 2; 4; 4; 4; 2; 2]%nat.
Definition central_widths : list nat := [4; 1; 1; 1; 1; 2; 2; 2; 2; 4; 4; 4; 2; 2; 2; 2; 2; 4; 4]%nat.
Definition ending_widths : list nat := [4; 2; 2; 2; 2; 4; 4; 2]%nat.

(** [(stat.S_IFREG | 0o644) << 16] *)
Definition MODE : Z := Z.shiftl (Z.lor 32768 420) 16.
Definition STAMP : list Z := [1980; 1; 1; 0; 0; 0].

(** The date and the time of [STAMP] as MS-DOS fields. *)
Definition DOS_DATE : Z := Z.lor (Z.lor 0 (Z.shiftl 1 5)) 1.
Definition DOS_TIME : Z := 0.

(** Version 2.0, no flags, stored, no extra field. *)
Definition local_header (name : pystr) (raw : bytes) : bytes :=
  pack (combine local_widths
    [LOCAL; 20; 0; 0; 0; DOS_TIME; DOS_DATE; crc32 raw; zlength raw; zlength raw; zlength name; 0]) ++ name.

Definition local_entry (name : pystr) (raw : bytes) : bytes := local_header name raw ++ raw.

Definition central_entry (name : pystr) (raw : bytes) (offset : Z) : bytes :=
  pack (combine central_widths
    [CENTRAL; 20; 3; 20; 0; 0; 0; DOS_TIME; DOS_DATE; crc32 raw; zlength raw; zlength raw; zlength name; 0; 0; 0; 0; MODE;
     offset]) ++ name.

Definition end_record (count size offset : Z) : bytes :=
  pack (combine ending_widths [ENDING; 0; 0; count; count; size; offset; 0]).

(** ** [_zip] *)

Definition OUTER_NAMES : list pystr :=
  map u ["manifest.json"; "report.json"; "algorithm.json"; "runtime-dependencies.txt"]%string.
Definition DEX_NAMES : list pystr :=
  map u ["mezo-dex/capture.json"; "mezo-dex/calls.json"; "mezo-dex/Pool.testnet.json";
         "mezo-dex/Router.testnet.json"; "mezo-dex/PoolFactory.testnet.json"]%string.
Definition TROVE_NAMES : list pystr :=
  map u ["mezo-troves/capture.json"; "mezo-troves/calls.json"]%string ++ map (fun name => u "mezo-troves/" ++ name) TROVE_ABIS.
Definition ALLOWED_NAMES : list pystr :=
  TROVE_NAMES ++ DEX_NAMES ++ OUTER_NAMES ++ map (fun name => u "sealed-input/" ++ name) BASE_MEMBERS ++
  map u ["sealed-input/source/mapping-evidence.json"; "sealed-input/source/mezo-dex.json"]%string.

(** The archive under construction: what is written and the entries of the directory. *)
Record zip_file := mkZip { zf_output : bytes; zf_directory : bytes }.

(** One turn of the loop, [archive.writestr] included. *)
Definition zip_step (archive : zip_file) (member : pystr * bytes) : result zip_file :=
  let '(name, raw) := member in
  name ← safe_member (JStr name);
  reject_if (negb (bool_decide (name ∈ ALLOWED_NAMES)) || (MAX_MEMBER_BYTES <? zlength raw)) "INVALID_DATASET" ;;
  let offset := zlength (zf_output archive) in
  Ok (mkZip (zf_output archive ++ local_entry name raw) (zf_directory archive ++ central_entry name raw offset)).

Definition total_size (members : list (pystr * bytes)) : Z := foldr (fun m n => zlength (snd m) + n) 0 members.

(** Members have distinct names, so sorting the items sorts the names.  The sizes
    the code has checked keep every field within its width. *)
Definition zip_members (members : list (pystr * bytes)) : result bytes :=
  reject_if ((MAX_MEMBERS <? zlength members) || (MAX_BUNDLE_BYTES <? total_size members)) "INVALID_DATASET" ;;
  archive ← foldM zip_step (mkZip [] []) (sort_items members);
  let raw := zf_output archive ++ zf_directory archive ++
             end_record (zlength members) (zlength (zf_directory archive)) (zlength (zf_output archive)) in
  reject_if (MAX_BUNDLE_BYTES <? zlength raw) "INVALID_DATASET" ;;
  Ok raw.

(** ** What [ZipFile] reads *)

(** [_EndRecData]: where the directory is.  The caller has established that the
    archive ends with an end record without a comment. *)
Record end_data := mkEnd { ed_size : Z; ed_offset : Z; ed_location : Z }.

Definition bad_zip {A} : result A := raise BadZipFile "".

(** [_EndRecData64]: a ZIP64 locator before the end record replaces what it says. *)
Definition end_record64 (raw : bytes) (e : end_data) : result end_data :=
  let offset := ed_location e - 20 in
  match 0 <=? offset, unpack [4; 4; 8; 4]%nat (slice raw offset 20) with
  | true, [sig; diskno; reloff; disks] =>
    if sig =? LOCATOR64 then
      let offset := offset - 56 in
      raise_if (negb (diskno =? 0) || (1 <? disks) || (offset <? reloff)) BadZipFile "" ;;
      let again := negb (of_le (slice raw reloff 4) =? ENDING64) && negb (reloff =? offset) in
      let extra := if again then 0 else offset - reloff in
      match unpack [4; 8; 2; 2; 4; 4; 8; 8; 8; 8]%nat (slice raw (if again then offset else reloff) 56) with
      | [sig; size; _; _; _; _; _; _; dirsize; diroffset] =>
        raise_if (negb (sig =? ENDING64) || negb (diroffset + dirsize =? reloff) || negb (size + 12 =? 56 + extra))
          BadZipFile "" ;;
        Ok (mkEnd dirsize diroffset (offset - extra))
      | _ => bad_zip
      end
    else Ok e
  | _, _ => Ok e
  end.

(** The characters of bytes from 128 on in code page 437. *)
Definition CP437 : list Z :=
  [199; 252; 233; 226; 228; 224; 229; 231; 234; 235; 232; 239; 238; 236; 196; 197;
   201; 230; 198; 244; 246; 242; 251; 249; 255; 214; 220; 162; 163; 165; 8359; 402;
   225; 237; 243; 250; 241; 209; 170; 186; 191; 8976; 172; 189; 188; 161; 171; 187;
   9617; 9618; 9619; 9474; 9508; 9569; 9570; 9558; 9557; 9571; 9553; 9559; 9565; 9564; 9563; 9488;
   9492; 9524; 9516; 9500; 9472; 9532; 9566; 9567; 9562; 9556; 9577; 9574; 9568; 9552; 9580; 9575;
   9576; 9572; 9573; 9561; 9560; 9554; 9555; 9579; 9578; 9496; 9484; 9608; 9604; 9612; 9616; 9600;
   945; 223; 915; 960; 931; 963; 181; 964; 934; 920; 937; 948; 8734; 966; 949; 8745;
   8801; 177; 8805; 8804; 8992; 8993; 247; 8776; 176; 8729; 183; 8730; 8319; 178; 9632; 160].

Definition decode_cp437 (b : bytes) : pystr :=
  map (fun c => if c <? 128 then c else nth (Z.to_nat (c - 128)) CP437 0) b.

Record zip_info := mkInfo {
  zi_filename : pystr;
  zi_orig_filename : pystr;
  zi_create_system : Z;
  zi_flag_bits : Z;
  zi_compress_type : Z;
  zi_date_time : list Z;
  zi_CRC : Z;
  zi_compress_size : Z;
  zi_file_size : Z;
  zi_extra : bytes;
  zi_comment : bytes;
  zi_external_attr : Z;
  zi_header_offset : Z }.

(** [ZipInfo.__init__] ends the name at the first NUL. *)
Fixpoint until_nul (s : pystr) : pystr :=
  match s with [] => [] | c :: s => if c =? 0 then [] else c :: until_nul s end.

(** A field of a ZIP64 extra field replaces the number that says so; it takes
    eight bytes of what is left of it. *)
Definition extended (is_marker : bool) (n : Z) (data : bytes) : result (Z * bytes) :=
  if is_marker then
    raise_if (length data <? 8)%nat BadZipFile "" ;; Ok (of_le (take 8 data), drop 8 data)
  else Ok (n, data).

Definition zip64_extra (info : zip_info) (data : bytes) : result zip_info :=
  let marked n := n =? 4294967295 in
  '(size, data) ← extended (marked (zi_file_size info) || (zi_file_size info =? 18446744073709551615))
                    (zi_file_size info) data;
  '(compressed, data) ← extended (marked (zi_compress_size info)) (zi_compress_size info) data;
  '(offset, _) ← extended (marked (zi_header_offset info)) (zi_header_offset info) data;
  Ok (mkInfo (zi_filename info) (zi_orig_filename info) (zi_create_system info) (zi_flag_bits info)
        (zi_compress_type info) (zi_date_time info) (zi_CRC info) compressed size (zi_extra info) (zi_comment info)
        (zi_external_attr info) offset).

(** The Unicode path of a name whose checksum it gives. *)
Definition unicode_path (info : zip_info) (name_crc : Z) (data : bytes) : result zip_info :=
  raise_if (length data <? 5)%nat BadZipFile "" ;;
  if (of_le (take 1 data) =? 1) && (of_le (take 4 (drop 1 data)) =? name_crc) then
    match decode_utf8 (drop 5 data) with
    | Ok [] => Ok info
    | Ok name =>
      Ok (mkInfo (until_nul name) (zi_orig_filename info) (zi_create_system info) (zi_flag_bits info)
            (zi_compress_type info) (zi_date_time info) (zi_CRC info) (zi_compress_size info) (zi_file_size info)
            (zi_extra info) (zi_comment info) (zi_external_attr info) (zi_header_offset info))
    | Raise _ => bad_zip
    end
  else Ok info.

(** [_decodeExtra]; every turn takes at least four bytes. *)
Fixpoint decode_extra (fuel : nat) (name_crc : Z) (info : zip_info) (extra : bytes) : result zip_info :=
  match fuel with
  | O => Ok info
  | S fuel =>
    if (length extra <? 4)%nat then Ok info
    else
      let kind := of_le (take 2 extra) in
      let size := Z.to_nat (of_le (take 2 (drop 2 extra))) in
      let data := take size (drop 4 extra) in
      raise_if (length extra <? size + 4)%nat BadZipFile "" ;;
      info ← (if kind =? 1 then zip64_extra info data
              else if kind =? 28789 then unicode_path info name_crc data
              else Ok info);
      decode_extra fuel name_crc info (drop (size + 4) extra)
  end.

(** One entry of the directory, what is left of it, and the bytes it claims. *)
Definition read_entry (data : bytes) (concat : Z) : result (zip_info * bytes * Z) :=
  raise_if (length data <? 46)%nat BadZipFile "" ;;
  match unpack central_widths data with
  | [sig; create_version; create_system; extract_version; reserved; flags; compression; t; d; crc; compressed; size;
     name_size; extra_size; comment_size; volume; internal_attr; external_attr; offset] =>
    raise_if (negb (sig =? CENTRAL)) BadZipFile "" ;;
    let data := drop 46 data in
    let encoded := take (Z.to_nat name_size) data in
    let data := drop (Z.to_nat name_size) data in
    name ← (if Z.testbit flags 11 then decode_utf8 encoded else Ok (decode_cp437 encoded));
    let extra := take (Z.to_nat extra_size) data in
    let data := drop (Z.to_nat extra_size) data in
    let comment := take (Z.to_nat comment_size) data in
    raise_if (63 <? extract_version) RuntimeError "zip file version" ;;
    let date_time := [Z.shiftr d 9 + 1980; Z.land (Z.shiftr d 5) 15; Z.land d 31;
                      Z.shiftr t 11; Z.land (Z.shiftr t 5) 63; Z.land t 31 * 2] in
    info ← decode_extra (length extra) (crc32 encoded)
             (mkInfo (until_nul name) name create_system flags compression date_time crc compressed size extra comment
                external_attr offset) extra;
    let info := mkInfo (zi_filename info) (zi_orig_filename info) (zi_create_system info) (zi_flag_bits info)
                  (zi_compress_type info) (zi_date_time info) (zi_CRC info) (zi_compress_size info)
                  (zi_file_size info) (zi_extra info) (zi_comment info) (zi_external_attr info)
                  (zi_header_offset info + concat) in
    Ok (info, drop (Z.to_nat comment_size) data, 46 + name_size + extra_size + comment_size)
  | _ => bad_zip
  end.

(** The loop of [_RealGetContents]; every turn but the last takes 46 bytes. *)
Fixpoint read_directory (fuel : nat) (data : bytes) (total size concat : Z) : result (list zip_info) :=
  match fuel with
  | O => Ok []
  | S fuel =>
    if total <? size then
      '(info, data, claimed) ← read_entry data concat;
      infos ← read_directory fuel data (total + claimed) size concat;
      Ok (info :: infos)
    else Ok []
  end.

(** [ZipFile(...).infolist()] *)
Definition infolist (raw : bytes) (e : end_data) : result (list zip_info) :=
  e ← end_record64 raw e;
  let concat := ed_location e - ed_size e - ed_offset e in
  let start := ed_offset e + concat in
  raise_if (start <? 0) BadZipFile "" ;;
  let data := slice raw start (Z.to_nat (ed_size e)) in
  read_directory (S (length data)) data 0 (ed_size e) concat.

(** ** [_read_archive] *)

Record cursor := mkCursor { cu_offset : Z; cu_total : Z; cu_names : list pystr }.

(** The directory entry of a member. *)
Definition entry_hazard (info : zip_info) (name : pystr) (s : cursor) (cd_offset : Z) : bool :=
  negb (bool_decide (name ∈ ALLOWED_NAMES)) || bool_decide (name ∈ cu_names s) || negb (str_eqb (zi_orig_filename info) name) ||
  negb (zi_compress_type info =? 0) || negb (zi_file_size info =? zi_compress_size info) ||
  negb ((1 <=? zi_file_size info) && (zi_file_size info <=? MAX_MEMBER_BYTES)) || negb (zi_flag_bits info =? 0) ||
  negb (length (zi_extra info) =? 0)%nat || negb (length (zi_comment info) =? 0)%nat ||
  negb (zi_create_system info =? 3) || negb (zi_external_attr info =? MODE) ||
  negb (bool_decide (zi_date_time info = STAMP)) || negb (zi_header_offset info =? cu_offset s) ||
  (cd_offset <? zi_header_offset info + 30).

(** ["<4s5H3L2H"], and the local header against the entry. *)
Definition header_widths : list nat := [4; 2; 2; 2; 2; 2; 4; 4; 4; 2; 2]%nat.

Definition header_hazard (raw : bytes) (info : zip_info) (name : pystr) (s : cursor) : bool :=
  match unpack header_widths (slice raw (cu_offset s) 30) with
  | [signature; version; flags; compression; _; _; crc; size; unpacked; name_size; extra_size] =>
    negb (signature =? LOCAL) || negb (version =? 20) || negb (flags =? 0) || negb (compression =? 0) ||
    negb (crc =? zi_CRC info) || negb (size =? zi_file_size info) || negb (unpacked =? zi_file_size info) ||
    negb (name_size =? zlength name) || negb (extra_size =? 0) ||
    negb (str_eqb (slice raw (cu_offset s + 30) (Z.to_nat name_size)) name)
  | _ => true
  end.

Definition check_entry (raw : bytes) (cd_offset : Z) (s : cursor) (info : zip_info) : result cursor :=
  name ← safe_member (JStr (zi_filename info));
  reject_if (entry_hazard info name s cd_offset) "INVALID_DATASET" ;;
  reject_if (header_hazard raw info name s) "INVALID_DATASET" ;;
  let offset := cu_offset s + 30 + zlength name + zi_file_size info in
  let total := cu_total s + zi_file_size info in
  reject_if ((cd_offset <? offset) || (MAX_BUNDLE_BYTES <? total)) "INVALID_DATASET" ;;
  Ok (mkCursor offset total (cu_names s ++ [name])).

(** [archive.open(info)] and [read], after the checks above: the header is the one
    they have read, the members follow each other, and the checksum is compared at
    the end of the data. *)
Definition read_member (raw : bytes) (info : zip_info) : result (pystr * bytes) :=
  let start := zi_header_offset info + 30 + zlength (zi_filename info) in
  let content := slice raw start (Z.to_nat (zi_file_size info)) in
  raise_if (negb (crc32 content =? zi_CRC info)) BadZipFile "Bad CRC-32" ;;
  reject_if (negb (zlength content =? zi_file_size info)) "INVALID_DATASET" ;;
  Ok (zi_filename info, content).

Definition subset (l k : list pystr) : bool := forallb (fun x => bool_decide (x ∈ k)) l.

(** The end record, which must be the last 22 bytes, and the members. *)
Definition read_archive (raw : bytes) : result (list (pystr * bytes)) :=
  reject_if (negb ((22 <=? zlength raw) && (zlength raw <=? MAX_BUNDLE_BYTES))) "INVALID_DATASET" ;;
  let location := zlength raw - 22 in
  match unpack ending_widths (slice raw location 22) with
  | [sig; disk; cd_disk; disk_count; total_count; cd_size; cd_offset; comment_len] =>
    reject_if (negb (sig =? ENDING)) "INVALID_DATASET" ;;
    reject_if (negb (disk =? 0) || negb (cd_disk =? 0) || negb (disk_count =? total_count) ||
               negb ((4 <=? total_count) && (total_count <=? MAX_MEMBERS)) || negb (comment_len =? 0) ||
               negb (cd_offset + cd_size =? location)) "INVALID_DATASET" ;;
    infos ← infolist raw (mkEnd cd_size cd_offset location);
    reject_if (negb (zlength infos =? total_count)) "INVALID_DATASET" ;;
    s ← foldM (check_entry raw cd_offset) (mkCursor 0 0 []) infos;
    reject_if (negb (bool_decide (cu_names s = py_sorted str_leb (cu_names s))) || negb (cu_offset s =? cd_offset) ||
               negb (subset OUTER_NAMES (cu_names s))) "INVALID_DATASET" ;;
    result ← mapR (read_member raw) infos;
    again ← zip_members result;
    reject_if (negb (str_eqb again raw)) "INVALID_DATASET" ;;
    Ok result
  | _ => rejected "INVALID_DATASET"
  end.

(** ** Fields *)

Definition in_width (w : nat) (n : Z) : Prop := 0 <= n < 256 ^ Z.of_nat w.

Lemma le_bytes_length w n : length (le_bytes w n) = w.
Proof. revert n. induction w as [|w IH]; intros n; cbn; [done|]. by rewrite IH. Qed.

Lemma of_le_bytes w n : in_width w n -> of_le (le_bytes w n) = n.
Proof.
  unfold in_width. revert n. induction w as [|w IH]; intros n Hn; cbn [le_bytes of_le]; [lia|].
  rewrite IH; [pose proof (Z.div_mod n 256); lia|].
  rewrite Nat2Z.inj_succ, Z.pow_succ_r in Hn by lia. split; [apply Z.div_pos; lia|]. apply Z.div_lt_upper_bound; lia.
Qed.

Lemma pack_cons w n ws ns : pack (combine (w :: ws) (n :: ns)) = le_bytes w n ++ pack (combine ws ns).
Proof. done. Qed.

Lemma pack_length ws ns : length ws = length ns -> length (pack (combine ws ns)) = sum_list ws.
Proof.
  revert ns. induction ws as [|w ws IH]; intros [|n ns] Hl; try done. injection Hl as Hl.
  rewrite pack_cons, length_app, le_bytes_length, IH by done. done.
Qed.

Lemma unpack_pack ws ns rest : Forall2 in_width ws ns -> unpack ws (pack (combine ws ns) ++ rest) = ns.
Proof.
  induction 1 as [|w n ws ns Hn _ IH]; [done|]. rewrite pack_cons, <- app_assoc. cbn [unpack].
  rewrite take_app_length', drop_app_length' by (symmetry; apply le_bytes_length).
  by rewrite of_le_bytes, IH.
Qed.


(** A number of 32 bits. *)
Definition word32 (n : Z) : Prop := 0 <= n < 2 ^ 32.

Lemma lxor_word32 a b : word32 a -> word32 b -> word32 (Z.lxor a b).
Proof.
  unfold word32. intros Ha Hb. assert (0 <= Z.lxor a b) as H by (apply Z.lxor_nonneg; lia). split; [done|].
  destruct (decide (Z.lxor a b = 0)) as [->|Hne]; [lia|]. apply Z.log2_lt_pow2; [lia|].
  eapply Z.le_lt_trans; [apply Z.log2_lxor; lia|].
  apply Z.max_lub_lt; (destruct (decide (0 < a)), (decide (0 < b)); [|..];
    try (apply Z.log2_lt_pow2; lia); rewrite Z.log2_nonpos; lia).
Qed.

Lemma crc_shift_word32 c : word32 c -> word32 (crc_shift c).
Proof.
  intros Hc. unfold crc_shift. assert (word32 (Z.shiftr c 1)) as Hs.
  { unfold word32 in *. rewrite Z.shiftr_div_pow2 by lia. change (2 ^ 1) with 2.
    split; [apply Z.div_pos; lia|]. apply Z.div_lt_upper_bound; lia. }
  destruct (Z.odd c); [|done]. apply lxor_word32; [done|]. by split.
Qed.


Lemma crc32_word32 b : byte_list b -> word32 (crc32 b).
Proof.
  intros Hb. unfold crc32. apply lxor_word32; [|by split]. assert (word32 4294967295) as H by by split.
  revert H. generalize 4294967295. induction Hb as [|c b Hc _ IH]; intros z Hz; [done|]. cbn [foldl]. apply IH.
  unfold crc_byte. apply Nat.iter_invariant; [|apply lxor_word32; unfold word32 in *; lia]. apply crc_shift_word32.
Qed.

(** ** The archive the writer makes *)

Definition entries_of (members : list (pystr * bytes)) : bytes :=
  flat_map (fun m => local_entry (fst m) (snd m)) members.

Fixpoint directory_of (offset : Z) (members : list (pystr * bytes)) : bytes :=
  match members with
  | [] => []
  | (name, raw) :: members =>
    central_entry name raw offset ++ directory_of (offset + zlength (local_entry name raw)) members
  end.

(** The members the writer takes. *)
Definition storable (m : pystr * bytes) : Prop := fst m ∈ ALLOWED_NAMES /\ zlength (snd m) <= MAX_MEMBER_BYTES.

Definition archive_of (members : list (pystr * bytes)) : bytes :=
  entries_of members ++ directory_of 0 members ++
  end_record (zlength members) (zlength (directory_of 0 members)) (zlength (entries_of members)).

(** What is true of every allowed name, by evaluation. *)
Lemma allowed_spec (p : pystr -> bool) name : forallb p ALLOWED_NAMES = true -> name ∈ ALLOWED_NAMES -> p name = true.
Proof. rewrite forallb_forall. intros H Hn. apply H. by apply list_elem_of_In. Qed.

Lemma allowed_safe name : name ∈ ALLOWED_NAMES -> safe_member (JStr name) = Ok name.
Proof.
  intros Hn. apply (allowed_spec (fun name => bool_decide (safe_member (JStr name) = Ok name))) in Hn.
  - by apply bool_decide_eq_true in Hn.
  - vm_compute. reflexivity.
Qed.

Lemma allowed_chars name : name ∈ ALLOWED_NAMES -> Forall (fun c => 45 <= c < 128) name /\ (length name <= 180)%nat.
Proof.
  intros Hn. apply (allowed_spec (fun name => forallb (fun c => (45 <=? c) && (c <? 128)) name && (length name <=? 180)%nat)) in Hn.
  - apply andb_true_iff in Hn as [Hc Hl%Nat.leb_le]. split; [|done]. rewrite forallb_forall in Hc. apply Forall_forall.
    intros c Hin%list_elem_of_In%Hc. lia.
  - vm_compute. reflexivity.
Qed.

Lemma zip_fold members z z' :
  foldM zip_step z members = Ok z' <->
  Forall storable members /\
  z' = mkZip (zf_output z ++ entries_of members) (zf_directory z ++ directory_of (zlength (zf_output z)) members).
Proof.
  revert z. induction members as [|[name raw] members IH]; intros [out dir]; cbn [foldM zf_output zf_directory].
  - cbn. rewrite !app_nil_r. split; [by intros [= <-]|by intros [_ ->]].
  - assert (storable (name, raw) -> zip_step (mkZip out dir) (name, raw) =
              Ok (mkZip (out ++ local_entry name raw) (dir ++ central_entry name raw (zlength out)))) as Hstep.
    { intros [Hn Hs]. cbn [fst snd] in *. unfold zip_step. rewrite allowed_safe by done. cbn [mbind result_bind].
      rewrite bool_decide_eq_true_2 by done. by rewrite (proj2 (Z.ltb_ge _ _)) by done. }
    rewrite Forall_cons. split.
    + intros (z1 & H1 & Hz)%bind_Ok. assert (storable (name, raw)) as Hok.
      { unfold zip_step in H1. apply bind_Ok in H1 as (n & [= <-]%safe_member_Ok & ([] & Hb%raise_if_Ok & _)%bind_Ok).
        apply orb_false_iff in Hb as [Hb%negb_false_iff%bool_decide_eq_true Hs%Z.ltb_ge]. done. }
      rewrite Hstep in H1 by done. injection H1 as <-. apply IH in Hz as [Hall ->]. split; [done|].
      cbn [zf_output zf_directory]. rewrite <- !app_assoc, zlength_app. done.
    + intros [[Hok Hall] ->]. rewrite Hstep by done. cbn [mbind result_bind]. apply IH. split; [done|].
      cbn [zf_output zf_directory]. rewrite <- !app_assoc, zlength_app. done.
Qed.

Lemma zip_members_Ok members raw :
  zip_members members = Ok raw <->
  zlength members <= MAX_MEMBERS /\ total_size members <= MAX_BUNDLE_BYTES /\ Forall storable (sort_items members) /\
  raw = archive_of (sort_items members) /\ zlength raw <= MAX_BUNDLE_BYTES.
Proof.
  unfold zip_members, archive_of. rewrite bind_Ok. setoid_rewrite raise_if_Ok.
  setoid_rewrite bind_Ok. setoid_rewrite zip_fold. cbn [zf_output zf_directory app].
  assert (zlength (sort_items members) = zlength members) as ->.
  { unfold zlength, sort_items. by rewrite py_sorted_perm. }
  split.
  - intros (_ & [Hn%Z.ltb_ge Ht%Z.ltb_ge]%orb_false_iff & z & [Hs ->] & Hr). cbn [zf_output zf_directory app] in Hr.
    apply bind_Ok in Hr as ([] & Hl%raise_if_Ok%Z.ltb_ge & [= <-]). done.
  - intros (Hn & Ht & Hs & -> & Hl). exists tt. split; [rewrite orb_false_iff, !Z.ltb_ge; done|].
    eexists. split; [split; [done|reflexivity]|]. cbn [zf_output zf_directory app]. change (zlength []) with 0.
    by rewrite (proj2 (Z.ltb_ge _ _)) by done.
Qed.

Lemma total_size_perm l k : l ≡ₚ k -> total_size l = total_size k.
Proof. unfold total_size. induction 1; cbn [foldr] in *; lia. Qed.

(** The order of the dictionary does not matter. *)
Lemma zip_members_sorted members raw : zip_members members = Ok raw -> zip_members (sort_items members) = Ok raw.
Proof.
  rewrite !zip_members_Ok, sort_items_sorted. assert (sort_items members ≡ₚ members) as Hp by (unfold sort_items; apply py_sorted_perm).
  rewrite (total_size_perm _ _ Hp). assert (zlength (sort_items members) = zlength members) as -> by (unfold zlength; by rewrite Hp).
  done.
Qed.

(** ** The directory is read back *)

Definition info_of (name : pystr) (raw : bytes) (offset : Z) : zip_info :=
  mkInfo name name 3 0 0 STAMP (crc32 raw) (zlength raw) (zlength raw) [] [] MODE offset.

Fixpoint infos_of (offset : Z) (members : list (pystr * bytes)) : list zip_info :=
  match members with
  | [] => []
  | (name, raw) :: members => info_of name raw offset :: infos_of (offset + zlength (local_entry name raw)) members
  end.

Lemma decode_cp437_ascii s : Forall (fun c => 45 <= c < 128) s -> decode_cp437 s = s.
Proof.
  intros Hs. unfold decode_cp437. rewrite <- (map_id s) at 2. apply map_ext_in. intros c Hc%list_elem_of_In.
  rewrite Forall_forall in Hs. apply Hs in Hc. by rewrite (proj2 (Z.ltb_lt c 128)) by lia.
Qed.

Lemma until_nul_id s : Forall (fun c => 45 <= c < 128) s -> until_nul s = s.
Proof. induction 1 as [|c s Hc _ IH]; [done|]. cbn [until_nul]. rewrite (proj2 (Z.eqb_neq c 0)) by lia. by rewrite IH. Qed.

(** What the fields of a member's headers hold. *)
Record fields_ok (name : pystr) (raw : bytes) : Prop := {
  fo_name : name ∈ ALLOWED_NAMES;
  fo_size : zlength raw <= MAX_MEMBER_BYTES;
  fo_bytes : byte_list raw }.

Lemma fields_ok_range name raw :
  fields_ok name raw -> word32 (zlength raw) /\ word32 (crc32 raw) /\ in_width 2 (zlength name).
Proof.
  intros [Hn Hs Hb]. apply allowed_chars in Hn as [_ Hl]. apply crc32_word32 in Hb.
  unfold word32, in_width, MAX_MEMBER_BYTES, zlength in *. split_and!; try done; lia.
Qed.

Lemma in_width_4 n : word32 n -> in_width 4 n.
Proof. done. Qed.

Ltac widths := repeat (constructor; [first [done | by apply in_width_4]|]); try constructor.

Lemma central_entry_length name raw offset : length (central_entry name raw offset) = (46 + length name)%nat.
Proof. unfold central_entry. rewrite length_app, pack_length by done. done. Qed.

Lemma local_header_length name raw : length (local_header name raw) = (30 + length name)%nat.
Proof. unfold local_header. rewrite length_app, pack_length by done. done. Qed.

Lemma read_entry_written name raw offset rest :
  fields_ok name raw -> word32 offset ->
  read_entry (central_entry name raw offset ++ rest) 0 = Ok (info_of name raw offset, rest, 46 + zlength name).
Proof.
  intros Hok Hoff. pose proof (fields_ok_range _ _ Hok) as (Hsize & Hcrc & Hname).
  apply fo_name, allowed_chars in Hok as [Hchars _]. unfold read_entry.
  rewrite (proj2 (Nat.ltb_ge _ 46)) by (rewrite length_app, central_entry_length; lia). cbn [raise_if mbind result_bind].
  unfold central_entry. rewrite <- app_assoc, unpack_pack by (unfold central_widths; widths).
  cbv beta iota. cbn [Z.eqb Pos.eqb CENTRAL negb raise_if mbind result_bind Z.testbit].
  rewrite drop_app_length' by (rewrite pack_length; done). cbv zeta.
  unfold zlength. rewrite Nat2Z.id, take_app_length, drop_app_length. cbn [mbind result_bind].
  rewrite decode_cp437_ascii, until_nul_id by done. change (Z.to_nat 0) with 0%nat. rewrite !take_0, !drop_0.
  cbn [length decode_extra]. change (63 <? 20) with false. cbn [raise_if mbind result_bind].
  cbn [zi_filename zi_orig_filename zi_create_system zi_flag_bits zi_compress_type zi_date_time zi_CRC zi_compress_size
    zi_file_size zi_extra zi_comment zi_external_attr zi_header_offset]. by rewrite !Z.add_0_r.
Qed.

Lemma read_directory_written members offset total size fuel :
  Forall (fun m => fields_ok (fst m) (snd m)) members -> 0 <= offset ->
  offset + zlength (entries_of members) < 2 ^ 32 -> size = total + zlength (directory_of offset members) ->
  (length members < fuel)%nat ->
  read_directory fuel (directory_of offset members) total size 0 = Ok (infos_of offset members).
Proof.
  intros Hall. revert offset total fuel. induction Hall as [|[name raw] members Hok _ IH]; intros offset total fuel Hoff Hend Hsize Hfuel;
    destruct fuel as [|fuel]; cbn [length] in Hfuel; try lia; cbn [read_directory].
  - change (zlength (directory_of offset [])) with 0 in Hsize. by rewrite (proj2 (Z.ltb_ge _ _)) by lia.
  - cbn [directory_of infos_of] in *. rewrite zlength_app in Hsize. cbn [entries_of flat_map fst snd] in *. rewrite zlength_app in Hend.
    pose proof (zlength_nonneg (local_entry name raw)). pose proof (zlength_nonneg (entries_of members)).
    fold (entries_of members) in Hend. pose proof (zlength_nonneg (directory_of (offset + zlength (local_entry name raw)) members)).
    assert (zlength (central_entry name raw offset) = 46 + zlength name) as Hlen by (unfold zlength; rewrite central_entry_length; lia).
    pose proof (zlength_nonneg name). rewrite (proj2 (Z.ltb_lt _ _)) by lia.
    rewrite read_entry_written by (done || (unfold word32; lia)). cbn [mbind result_bind]. cbv beta iota.
    rewrite IH by lia. done.
Qed.

Lemma entries_app l k : entries_of (l ++ k) = entries_of l ++ entries_of k.
Proof. unfold entries_of. by rewrite flat_map_app. Qed.

Lemma directory_app offset l k :
  directory_of offset (l ++ k) = directory_of offset l ++ directory_of (offset + zlength (entries_of l)) k.
Proof.
  revert offset. induction l as [|[name raw] l IH]; intros offset; cbn [app directory_of entries_of flat_map fst snd].
  - f_equal. change (zlength []) with 0. lia.
  - rewrite IH, <- app_assoc, zlength_app. do 3 f_equal. fold (entries_of l). lia.
Qed.

(** A directory that is a bundle's: sorted, with the outer names. *)
Record bundle_names (names : list pystr) : Prop := {
  bn_sorted : StronglySorted (fun a b => str_ltb a b = true) names;
  bn_outer : forall n, n ∈ OUTER_NAMES -> n ∈ names }.

(** The last name of a directory that has the outer names is longer than a ZIP64
    locator, so there is none before the end record. *)
Lemma last_name_long l name :
  bundle_names (l ++ [name]) -> name ∈ ALLOWED_NAMES -> (20 <= length name)%nat.
Proof.
  intros [Hs Ho] Hn. assert (str_leb (u "runtime-dependencies.txt") name = true) as Hle.
  { assert (u "runtime-dependencies.txt" ∈ l ++ [name]) as Hin by (apply Ho; do 3 right; left).
    apply elem_of_app in Hin as [Hin| ->%list_elem_of_singleton]; [|apply str_leb_refl].
    apply str_ltb_leb. eapply (StronglySorted_app_1_elem_of _ _ _ _ _ Hs); [done|by left]. }
  apply (allowed_spec (fun n => implb (str_leb (u "runtime-dependencies.txt") n) (20 <=? length n)%nat)) in Hn.
  - rewrite Hle in Hn. by apply Nat.leb_le in Hn.
  - vm_compute. reflexivity.
Qed.

Lemma no_locator y : Forall (fun c => 45 <= c < 128) y -> length y = 20%nat -> (of_le (take 4 y) =? LOCATOR64) = false.
Proof.
  intros Hy Hl. destruct y as [|a [|b [|c [|d y]]]]; try done. rewrite !Forall_cons in Hy. cbn [take of_le].
  unfold LOCATOR64. apply Z.eqb_neq. lia.
Qed.

Lemma slice_middle (a b c : bytes) i n : i = zlength a -> n = length b -> slice (a ++ b ++ c) i n = b.
Proof.
  intros -> ->. unfold slice, zlength. by rewrite Nat2Z.id, drop_app_length, take_app_length.
Qed.

Lemma end_record64_none (a name ending : bytes) e :
  Forall (fun c => 45 <= c < 128) name -> (20 <= length name)%nat -> ed_location e = zlength (a ++ name) ->
  end_record64 (a ++ name ++ ending) e = Ok e.
Proof.
  intros Hc Hl He. unfold end_record64. rewrite He.
  pose proof (take_drop (length name - 20) name) as Hname. set (x := take (length name - 20) name) in Hname.
  set (y := drop (length name - 20) name) in Hname. assert (length y = 20%nat) as Hy by (subst y; rewrite length_drop; lia).
  assert (slice (a ++ name ++ ending) (zlength (a ++ name) - 20) 20 = y) as ->.
  { rewrite <- Hname, <- app_assoc, app_assoc. apply slice_middle; [|done].
    unfold zlength. rewrite !length_app, Hy. lia. }
  assert (Forall (fun c => 45 <= c < 128) y) as Hcy by by apply Forall_drop.
  cbn [unpack]. rewrite no_locator by done. by destruct (0 <=? _).
Qed.

Lemma directory_count offset members : (length members <= length (directory_of offset members))%nat.
Proof.
  revert offset. induction members as [|[name raw] members IH]; intros offset; [done|]. cbn [directory_of length].
  rewrite length_app, central_entry_length. specialize (IH (offset + zlength (local_entry name raw))). lia.
Qed.

Lemma infolist_written members :
  Forall (fun m => fields_ok (fst m) (snd m)) members -> bundle_names (map fst members) ->
  zlength (archive_of members) <= MAX_BUNDLE_BYTES ->
  infolist (archive_of members)
    (mkEnd (zlength (directory_of 0 members)) (zlength (entries_of members)) (zlength (archive_of members) - 22)) =
  Ok (infos_of 0 members).
Proof.
  intros Hall Hn Hmax. set (E := end_record (zlength members) (zlength (directory_of 0 members)) (zlength (entries_of members))).
  assert (length E = 22%nat) as HE by (unfold E, end_record; by rewrite pack_length).
  assert (zlength (archive_of members) - 22 = zlength (entries_of members ++ directory_of 0 members)) as Hloc.
  { unfold archive_of. fold E. rewrite !zlength_app. unfold zlength at 3. rewrite HE. lia. }
  unfold infolist. rewrite Hloc.
  assert (end_record64 (archive_of members) (mkEnd (zlength (directory_of 0 members)) (zlength (entries_of members))
            (zlength (entries_of members ++ directory_of 0 members))) =
          Ok (mkEnd (zlength (directory_of 0 members)) (zlength (entries_of members))
            (zlength (entries_of members ++ directory_of 0 members)))) as ->.
  { destruct members as [|[name raw] l _] using rev_ind.
    { destruct Hn as [_ Ho]. exfalso. eapply not_elem_of_nil, (Ho (u "manifest.json")). left. }
    apply Forall_app in Hall as [_ [Hok _]%Forall_cons]. cbn [fst snd] in Hok. apply fo_name in Hok.
    rewrite map_app in Hn. pose proof (last_name_long _ _ Hn Hok) as Hlong. apply allowed_chars in Hok as [Hc _].
    unfold archive_of. fold E. rewrite directory_app. cbn [directory_of]. rewrite app_nil_r. unfold central_entry.
    rewrite !app_assoc. rewrite <- (app_assoc _ name E). apply end_record64_none; [done..|]. done. }
  cbn [mbind result_bind ed_size ed_offset ed_location]. rewrite zlength_app.
  replace (zlength (entries_of members) + zlength (directory_of 0 members) - zlength (directory_of 0 members) -
           zlength (entries_of members)) with 0 by lia.
  pose proof (zlength_nonneg (entries_of members)). pose proof (zlength_nonneg (directory_of 0 members)).
  rewrite Z.add_0_r, (proj2 (Z.ltb_ge _ _)) by lia. cbn [raise_if mbind result_bind].
  assert (slice (archive_of members) (zlength (entries_of members)) (Z.to_nat (zlength (directory_of 0 members))) =
          directory_of 0 members) as ->.
  { unfold archive_of. apply slice_middle; [done|]. unfold zlength. by rewrite Nat2Z.id. }
  apply read_directory_written; [done|lia| |lia|].
  - rewrite zlength_app in Hloc. unfold MAX_BUNDLE_BYTES in Hmax. lia.
  - pose proof (directory_count 0 members). lia.
Qed.

(** ** The checks of the reader hold of it *)

Definition local_fields (name : pystr) (raw : bytes) : list Z :=
  [LOCAL; 20; 0; 0; DOS_TIME; DOS_DATE; crc32 raw; zlength raw; zlength raw; zlength name; 0].

Lemma local_header_fields name raw : local_header name raw = pack (combine header_widths (local_fields name raw)) ++ name.
Proof. reflexivity. Qed.

Lemma header_hazard_written pre name raw post s :
  fields_ok name raw -> cu_offset s = zlength pre ->
  header_hazard (pre ++ local_entry name raw ++ post) (info_of name raw (cu_offset s)) name s = false.
Proof.
  intros Hok Hs. pose proof (fields_ok_range _ _ Hok) as (Hsize & Hcrc & Hname). unfold header_hazard, local_entry.
  rewrite local_header_fields, Hs, <- !app_assoc.
  rewrite (slice_middle pre (pack (combine header_widths (local_fields name raw)))) by (rewrite ?pack_length; done).
  rewrite <- (app_nil_r (pack _)), unpack_pack by (unfold header_widths, local_fields; widths).
  unfold local_fields at 1. cbv iota beta. cbn [zi_CRC zi_file_size info_of].
  rewrite app_nil_r, app_assoc, (slice_middle (pre ++ _) name).
  - rewrite !Z.eqb_refl, str_eqb_refl. reflexivity.
  - by rewrite zlength_app.
  - unfold zlength. apply Nat2Z.id.
Qed.

Lemma entry_hazard_written name raw s cd_offset :
  fields_ok name raw -> raw <> [] -> name ∉ cu_names s -> cu_offset s + 30 <= cd_offset ->
  entry_hazard (info_of name raw (cu_offset s)) name s cd_offset = false.
Proof.
  intros Hok Hne Hnew Hoff. destruct Hok as [Hn Hsize _]. unfold entry_hazard, info_of.
  cbn [zi_orig_filename zi_compress_type zi_file_size zi_compress_size zi_flag_bits zi_extra zi_comment zi_create_system
    zi_external_attr zi_date_time zi_header_offset].
  rewrite (bool_decide_eq_true_2 _ Hn), (bool_decide_eq_false_2 _ Hnew), str_eqb_refl, !Z.eqb_refl.
  assert (1 <= zlength raw) by (destruct raw; [done|unfold zlength; cbn [length]; lia]).
  rewrite (proj2 (Z.leb_le _ _)), (proj2 (Z.leb_le _ _)), (proj2 (Z.ltb_ge _ _)) by done.
  rewrite bool_decide_eq_true_2 by done. reflexivity.
Qed.

Lemma check_entries_written members pre post s cd_offset :
  Forall (fun m => fields_ok (fst m) (snd m) /\ snd m <> []) members -> NoDup (cu_names s ++ map fst members) ->
  cu_offset s = zlength pre -> cd_offset = zlength pre + zlength (entries_of members) ->
  cu_total s + total_size members <= MAX_BUNDLE_BYTES ->
  foldM (check_entry (pre ++ entries_of members ++ post) cd_offset) s (infos_of (cu_offset s) members) =
  Ok (mkCursor (cu_offset s + zlength (entries_of members)) (cu_total s + total_size members)
        (cu_names s ++ map fst members)).
Proof.
  intros Hall. revert pre s. induction Hall as [|[name raw] members [Hok Hne] _ IH]; intros pre s Hnew Hs Hcd Htot.
  - destruct s as [o t n]. cbn [infos_of foldM map total_size foldr cu_offset cu_total cu_names]. rewrite app_nil_r.
    change (zlength (entries_of [])) with 0. by rewrite !Z.add_0_r.
  - cbn [fst snd] in *. cbn [infos_of foldM total_size foldr snd] in *. fold (total_size members) in *.
    change (entries_of ((name, raw) :: members)) with (local_entry name raw ++ entries_of members) in *.
    rewrite zlength_app in Hcd. assert (zlength (local_entry name raw) = 30 + zlength name + zlength raw) as Hlen.
    { unfold local_entry. rewrite zlength_app. unfold zlength at 1. rewrite local_header_length. unfold zlength. lia. }
    pose proof (zlength_nonneg name). pose proof (zlength_nonneg raw). pose proof (zlength_nonneg (entries_of members)).
    assert (0 <= total_size members) by (clear; unfold total_size; induction members as [|m l IH]; cbn; [lia|pose proof (zlength_nonneg (snd m)); lia]).
    assert (check_entry (pre ++ (local_entry name raw ++ entries_of members) ++ post) cd_offset s
              (info_of name raw (cu_offset s)) =
            Ok (mkCursor (cu_offset s + zlength (local_entry name raw)) (cu_total s + zlength raw) (cu_names s ++ [name]))) as ->.
    { unfold check_entry. cbn [zi_filename zi_file_size info_of]. rewrite allowed_safe by apply Hok. cbn [mbind result_bind].
      cbn [map] in Hnew. apply NoDup_app in Hnew as (_ & Hnew & _).
      rewrite entry_hazard_written by (done || lia || (intros Hin; apply (Hnew name Hin); left)).
      rewrite <- app_assoc, header_hazard_written by done. cbn [reject_if raise_if mbind result_bind].
      rewrite (proj2 (Z.ltb_ge _ _)), (proj2 (Z.ltb_ge _ _)) by lia. cbn [orb reject_if raise_if mbind result_bind].
      do 2 f_equal. lia. }
    cbn [mbind result_bind]. specialize (IH (pre ++ local_entry name raw)
      (mkCursor (cu_offset s + zlength (local_entry name raw)) (cu_total s + zlength raw) (cu_names s ++ [name]))).
    cbn [cu_offset cu_total cu_names] in IH. rewrite <- app_assoc, (app_assoc pre), IH.
    + rewrite zlength_app, <- (app_assoc (cu_names s)). cbn [map app fst]. do 2 f_equal; lia.
    + by rewrite <- app_assoc.
    + rewrite zlength_app. lia.
    + rewrite zlength_app. lia.
    + lia.
Qed.

Lemma read_members_written members pre post :
  mapR (read_member (pre ++ entries_of members ++ post)) (infos_of (zlength pre) members) = Ok members.
Proof.
  revert pre. induction members as [|[name raw] members IH]; intros pre; [done|]. cbn [infos_of mapR].
  change (entries_of ((name, raw) :: members)) with (local_entry name raw ++ entries_of members).
  assert (read_member (pre ++ (local_entry name raw ++ entries_of members) ++ post) (info_of name raw (zlength pre)) =
          Ok (name, raw)) as ->.
  { unfold read_member. cbn [zi_header_offset zi_filename zi_file_size zi_CRC info_of]. unfold local_entry.
    rewrite <- !app_assoc, app_assoc, slice_middle.
    - by rewrite !Z.eqb_refl.
    - rewrite zlength_app. unfold zlength at 4. rewrite local_header_length. unfold zlength. lia.
    - unfold zlength. by rewrite Nat2Z.id. }
  cbn [mbind result_bind]. specialize (IH (pre ++ local_entry name raw)). rewrite zlength_app in IH.
  by rewrite <- app_assoc, (app_assoc pre), IH.
Qed.

(** ** The reader takes exactly what the writer makes *)

(** What a bundle's members are: the order and the names of the directory, and contents
    that are not empty. *)
Record bundle_members_ok (members : list (pystr * bytes)) : Prop := {
  bm_names : bundle_names (map fst members);
  bm_contents : Forall (fun m => snd m <> []) members }.

Lemma archive_contents members m : byte_list (archive_of members) -> m ∈ members -> byte_list (snd m).
Proof.
  unfold archive_of, byte_list. intros [He _]%Forall_app Hm. apply list_elem_of_split in Hm as (l & k & ->).
  rewrite entries_app in He. apply Forall_app in He as [_ He]. cbn [entries_of flat_map] in He.
  apply Forall_app in He as [He _]. unfold local_entry in He. by apply Forall_app in He as [_ He].
Qed.

Lemma outer_count names : NoDup names -> (forall n, n ∈ OUTER_NAMES -> n ∈ names) -> (4 <= length names)%nat.
Proof.
  intros Hd Ho. change 4%nat with (length OUTER_NAMES). apply submseteq_length, NoDup_submseteq; [|done].
  apply (bool_decide_unpack _). vm_compute. exact I.
Qed.

Lemma read_archive_written members raw :
  byte_list raw -> zip_members members = Ok raw -> bundle_members_ok members -> read_archive raw = Ok members.
Proof.
  intros Hbytes Hzip [Hnames Hne]. pose proof (bn_sorted _ Hnames) as Hs. pose proof (sorted_names_NoDup _ Hs) as Hd.
  pose proof (outer_count _ Hd (bn_outer _ Hnames)) as Hcount. rewrite length_map in Hcount.
  pose proof Hzip as (Hn & Ht & Hstore & -> & Hl)%zip_members_Ok. rewrite sorted_items_id in * by done.
  assert (Forall (fun m => fields_ok (fst m) (snd m)) members) as Hall.
  { rewrite Forall_forall in *. intros m Hm. destruct (Hstore m Hm). split; [done..|]. by eapply archive_contents. }
  set (D := directory_of 0 members) in *. set (L := entries_of members) in *.
  pose proof (zlength_nonneg D). pose proof (zlength_nonneg L). unfold MAX_BUNDLE_BYTES, MAX_MEMBERS in *.
  assert (zlength (archive_of members) = zlength L + zlength D + 22) as Hlen.
  { unfold archive_of. fold D L. rewrite !zlength_app. unfold zlength at 3, end_record. rewrite pack_length by done. cbn. lia. }
  unfold read_archive. rewrite (proj2 (Z.leb_le 22 _)), (proj2 (Z.leb_le _ MAX_BUNDLE_BYTES)) by (unfold MAX_BUNDLE_BYTES; lia).
  cbn [andb negb reject_if raise_if mbind result_bind].
  assert (slice (archive_of members) (zlength (archive_of members) - 22) 22 =
          end_record (zlength members) (zlength D) (zlength L)) as ->.
  { rewrite Hlen. unfold archive_of. fold D L. rewrite app_assoc.
    rewrite <- (app_nil_r (end_record (zlength members) (zlength D) (zlength L))) at 1. apply slice_middle; [rewrite zlength_app; lia|].
    unfold end_record. by rewrite pack_length. }
  unfold end_record. rewrite <- (app_nil_r (pack _)), unpack_pack.
  2: { unfold ending_widths, in_width, zlength in *. repeat constructor; try done; cbn; lia. }
  cbv beta iota zeta. rewrite !Z.eqb_refl, (proj2 (Z.leb_le 4 _)), (proj2 (Z.leb_le _ MAX_MEMBERS)) by (unfold MAX_MEMBERS, zlength in *; lia).
  replace (zlength L + zlength D =? zlength (archive_of members) - 22) with true by (symmetry; apply Z.eqb_eq; lia).
  cbn [Z.eqb andb orb negb reject_if raise_if mbind result_bind].
  unfold D, L. rewrite infolist_written by (done || (unfold MAX_BUNDLE_BYTES; lia)). fold D L. cbn [mbind result_bind].
  assert (zlength (infos_of 0 members) = zlength members) as ->.
  { unfold zlength. f_equal. clear. generalize 0. induction members as [|[name raw] l IH]; intros o; cbn; [done|]. by rewrite IH. }
  rewrite Z.eqb_refl. cbn [negb reject_if raise_if mbind result_bind].
  assert (foldM (check_entry (archive_of members) (zlength L)) (mkCursor 0 0 []) (infos_of 0 members) =
          Ok (mkCursor (zlength L) (total_size members) (map fst members))) as ->.
  { unfold archive_of. fold D L.
    rewrite (check_entries_written members [] (D ++ end_record (zlength members) (zlength D) (zlength L)) (mkCursor 0 0 [])); try done.
    apply Forall_and. done. }
  cbn [mbind result_bind cu_names cu_offset]. rewrite sorted_names_id, bool_decide_eq_true_2, Z.eqb_refl by done.
  assert (subset OUTER_NAMES (map fst members) = true) as ->.
  { apply forallb_forall. intros n Hn'%list_elem_of_In. apply bool_decide_eq_true. by apply (bn_outer _ Hnames). }
  cbn [negb orb reject_if raise_if mbind result_bind].
  assert (mapR (read_member (archive_of members)) (infos_of 0 members) = Ok members) as ->.
  { apply (read_members_written members [] _). }
  cbn [mbind result_bind]. rewrite Hzip. cbn [mbind result_bind]. by rewrite str_eqb_refl.
Qed.

Lemma check_entries_Ok raw cd_offset infos s s' :
  NoDup (cu_names s) -> foldM (check_entry raw cd_offset) s infos = Ok s' ->
  cu_names s' = cu_names s ++ map zi_filename infos /\ NoDup (cu_names s') /\
  Forall (fun info => 1 <= zi_file_size info) infos.
Proof.
  revert s. induction infos as [|info infos IH]; intros s Hd.
  - intros [= <-]. by rewrite app_nil_r.
  - intros (s1 & H1 & Hs)%bind_Ok. unfold check_entry in H1.
    apply bind_Ok in H1 as (name & [= <-]%safe_member_Ok & ([] & Hh%raise_if_Ok & H1)%bind_Ok).
    apply bind_Ok in H1 as ([] & _ & ([] & _ & [= <-])%bind_Ok). unfold entry_hazard in Hh.
    repeat match type of Hh with (_ || _) = false => apply orb_false_iff in Hh as [Hh ?] end.
    repeat match goal with H : negb _ = false |- _ => apply negb_false_iff in H end.
    apply IH in Hs as (-> & Hd' & Hall).
    + cbn [cu_names map] in *. rewrite <- app_assoc in *. split_and!; [done..|]. constructor; [|done].
      match goal with H : (1 <=? _) && _ = true |- _ => apply andb_true_iff in H as [?%Z.leb_le _] end. done.
    + cbn [cu_names]. apply NoDup_app. split_and!; [done| |by apply NoDup_singleton].
      match goal with H : bool_decide (_ ∈ cu_names s) = false |- _ => apply bool_decide_eq_false in H as Hn end.
      by intros n Hin ->%list_elem_of_singleton.
Qed.

Lemma read_members_Ok raw infos members :
  mapR (read_member raw) infos = Ok members -> Forall (fun info => 1 <= zi_file_size info) infos ->
  map fst members = map zi_filename infos /\ Forall (fun m => snd m <> []) members.
Proof.
  rewrite mapR_Ok. induction 1 as [|info [name content] infos members Hm _ IH]; [done|].
  intros [Hi Hall]%Forall_cons. destruct (IH Hall) as [Hnames Hne]. unfold read_member in Hm.
  apply bind_Ok in Hm as ([] & _ & ([] & Hl%raise_if_Ok & [= <- <-])%bind_Ok).
  split; [cbn [map fst]; by rewrite Hnames|]. constructor; [|done]. cbn [snd]. intros E. rewrite E in Hl. apply negb_false_iff, Z.eqb_eq in Hl.
  change (zlength []) with 0 in Hl. lia.
Qed.

Lemma subset_spec l k : subset l k = true <-> forall x, x ∈ l -> x ∈ k.
Proof.
  unfold subset. rewrite forallb_forall. setoid_rewrite bool_decide_eq_true. by setoid_rewrite <- list_elem_of_In.
Qed.

Lemma read_archive_members raw members :
  read_archive raw = Ok members -> zip_members members = Ok raw /\ bundle_members_ok members.
Proof.
  unfold read_archive. intros ([] & _ & Hr)%bind_Ok.
  destruct (unpack _ _) as [|sig [|disk [|cd_disk [|dc [|tc [|size [|offset [|comment [|]]]]]]]]]; try done.
  apply bind_Ok in Hr as ([] & _ & ([] & _ & (infos & _ & Hr)%bind_Ok)%bind_Ok).
  apply bind_Ok in Hr as ([] & _ & (s & Hcheck & ([] & Hnames%raise_if_Ok & Hr)%bind_Ok)%bind_Ok).
  apply bind_Ok in Hr as (result & Hread & (again & Hzip & ([] & Hsame%raise_if_Ok & [= ->])%bind_Ok)%bind_Ok).
  apply negb_false_iff, str_eqb_spec in Hsame as ->.
  apply check_entries_Ok in Hcheck as (Hn & Hd & Hall); [|constructor]. apply read_members_Ok in Hread as [Hm Hne]; [|done].
  cbn [cu_names app] in Hn. rewrite <- Hm in Hn. rewrite Hn in *.
  apply orb_false_iff in Hnames as [[Hsort%negb_false_iff%bool_decide_eq_true _]%orb_false_iff Ho%negb_false_iff].
  split; [done|]. split; [|done]. split; [|by apply subset_spec].
  apply sorted_strict; [|done]. rewrite Hsort. apply py_sorted_sorted; [apply str_leb_total|apply str_leb_trans].
Qed.

(** C29: [_read_archive] accepts exactly the archives [_zip] makes: it returns members from
    bytes if and only if they are members [_zip] turns into these very bytes, in the
    order of their names, with the four outer names and without an empty one.  So every
    member of a bundle is read back, and no other bytes give it (no prefix, comment,
    ZIP64 record, extra field, overlap or second serialization). *)
Theorem read_archive_spec raw members :
  byte_list raw ->
  read_archive raw = Ok members <-> zip_members members = Ok raw /\ bundle_members_ok members.
Proof.
  intros Hb. split; [apply read_archive_members|]. intros [Hzip Hok]. by apply read_archive_written.
Qed.

Definition demo_members : list (pystr * bytes) :=
  map (fun name => (u name, u "x")) ["algorithm.json"; "manifest.json"; "report.json"; "runtime-dependencies.txt"]%string.

Lemma read_archive_spec_witness : read_archive (archive_of demo_members) = Ok demo_members.
Proof.
  apply read_archive_spec.
  - apply Forall_forall. intros c Hc.
    assert (forallb (fun c => (0 <=? c) && (c <? 256)) (archive_of demo_members) = true) as H by (vm_compute; reflexivity).
    rewrite forallb_forall in H. apply list_elem_of_In, H, andb_true_iff in Hc as [?%Z.leb_le ?%Z.ltb_lt]. done.
  - split; [vm_compute; reflexivity|]. split; [split|].
    + repeat constructor.
    + apply subset_spec. vm_compute. reflexivity.
    + repeat constructor; discriminate.
Defined.
