(* ===== verification/Report.v ===== *)
(** * Snapshot reports: [liqvera_evidence_report.report]

    The request of a report, the document built from an inspected input (the sweep of
    the book, its figures as exact ratios and as text, the sources, the checks, the
    files that went in), and its optional DEX section. *)

From S2P Require Import Prelude PyStr Num PyObj Json Bytes Exact Market Provenance Reconstruction Vwap.
From S2P Require Import Calculation Calendar EvidenceIo MezoDex DexReport TroveReport SealedInput.
From Stdlib Require Import QArith Qcanon.
Open Scope Z_scope.

Definition VERSIONS : json := JList (map (fun nv =>
  JDict [(u "name", JStr (u (fst nv))); (u "version", JStr (u (snd nv)))])
  [("liqvera-contracts", "0.2.0"); ("liqvera-readonly-analyzer", "0.2.0"); ("liqvera-public-capture", "0.2.0");
   ("liqvera-evidence-report", "0.2.0"); ("jsonschema", "4.23.0"); ("referencing", "0.35.1")]%string).

(** ** Requests *)

Record ReportRequest := mkReportRequest {
  rq_report_id : uuid; rq_side : Side; rq_quantity_base : ExactDecimal; rq_engine_commit : pystr;
  rq_created_at_ms : option Z }.

Definition side_value (s : Side) : pystr := match s with BUY => u "BUY" | SELL => u "SELL" end.

(** [Side(value)] *)
Definition side_of (value : json) : result Side :=
  if json_is value (u "BUY") then Ok BUY
  else if json_is value (u "SELL") then Ok SELL else raise ValueError "not a valid Side".

(** [ReportRequest.__post_init__] on a UUID, a side and a decimal. *)
Definition report_request_init (report_id : uuid) (side : Side) (quantity_base : ExactDecimal) (engine_commit : json)
    (created_at_ms : option Z) : result ReportRequest :=
  reject_if (scaled quantity_base <=? 0) "INVALID_INPUT" ;;
  match engine_commit with
  | JStr commit =>
    reject_if (negb (is_commit commit)) "INVALID_INPUT" ;;
    reject_if match created_at_ms with Some at_ms => at_ms <? 0 | None => false end "INVALID_INPUT" ;;
    Ok (mkReportRequest report_id side quantity_base commit created_at_ms)
  | _ => rejected "INVALID_INPUT"
  end.

(** [r"[+]?[0-9]+(?:\.[0-9]{1,8})?"] *)
Definition ascii_digits (s : pystr) : bool := forallb (fun c => (48 <=? c) && (c <=? 57)) s.

Definition is_quantity_text (s : pystr) : bool :=
  let s := match s with 43 :: s => s | _ => s end in
  match str_split 46 s with
  | [whole] => negb (str_eqb whole []) && ascii_digits whole
  | [whole; fraction] =>
    negb (str_eqb whole []) && ascii_digits whole && ascii_digits fraction &&
    (1 <=? length fraction)%nat && (length fraction <=? 8)%nat
  | _ => false
  end.

Definition parse_request (body : json) (engine_commit : json) : result ReportRequest :=
  match body with
  | JDict d =>
    reject_if (negb (keys_equal d (map u ["report_id"; "instrument_id"; "side"; "quantity_base"]%string))) "INVALID_INPUT" ;;
    reject_if (negb (json_is (json_get (u "instrument_id") d) (u "hyperliquid:BTC:perpetual"))) "UNSUPPORTED_INSTRUMENT" ;;
    match json_get (u "quantity_base") d with
    | JStr quantity =>
      reject_if ((32 <? length quantity)%nat || negb (is_quantity_text quantity)) "INVALID_INPUT" ;;
      try_except
        (report_id ← identifier (json_get (u "report_id") d) ≫= uuid_parse;
         side ← side_of (json_get (u "side") d);
         quantity ← exact_parse quantity;
         report_request_init report_id side quantity engine_commit None)
        [ValueError; TypeError] (fun _ => rejected "INVALID_INPUT")
    | _ => rejected "INVALID_INPUT"
    end
  | _ => rejected "INVALID_INPUT"
  end.

(** ** The document *)

Definition algorithm_document (engine_commit : pystr) (dependencies : bytes) (live_identity_approved : bool) : json := JDict
  [(u "schema", JStr (u "liqvera-evidence-algorithm/v1")); (u "calculation_version", JStr (u "snapshot-sweep/v1"));
   (u "policy_version", JStr (u "snapshot-policy/v1")); (u "serialization_version", JStr (u "canonical-json/v1"));
   (u "engine_commit", JStr engine_commit); (u "package_versions", VERSIONS);
   (u "dependency_lock_sha256", JStr (digest dependencies)); (u "maximum_source_age_ms", JInt 5000);
   (u "maximum_future_skew_ms", JInt 1000); (u "maximum_metadata_age_ms", JInt 86400000);
   (u "live_identity_approved", JBool live_identity_approved); (u "display_precision", JInt 28);
   (u "display_rounding", JStr (u "ROUND_HALF_EVEN"));
   (u "boundary", JStr (u "Integrity and recalculation do not authenticate the exchange or promise execution."))].

(** [{"path": name, "sha256": digest(raw)} for name, raw in sorted(inputs.items())] *)
Definition input_files (inputs : list (pystr * bytes)) : json := JList (map (fun m =>
  JDict [(u "path", JStr (fst m)); (u "sha256", JStr (digest (snd m)))]) (sort_items inputs)).

Definition identity_section (m : MarketMappingEvidence) : json := JDict
  (texts [("venue", "hyperliquid"); ("instrument_id", "hyperliquid:BTC:perpetual"); ("product_kind", "perpetual");
          ("payoff_kind", "linear"); ("base_asset", "BTC"); ("quote_asset", "USD")]%string ++
   [(u "settlement_asset", JStr (settlement_asset (mm_identity m)))] ++
   texts [("quantity_unit", "BTC"); ("displayed_size_unit", "coin"); ("contract_multiplier", "1")]%string ++
   [(u "mapping_version", JStr (mapping_version m));
    (u "evidence", JList [JDict [(u "reference", JStr (evidence_reference m));
                                 (u "sha256", JStr (evidence_sha256 m))]])]).

(** The four quantities of the calculation, by name. *)
Definition quantities (fill : ExecutableFill) (impact : Qc) : list (pystr * Qc) :=
  [(u "notional_quote", notional_quote fill); (u "vwap", vwap fill); (u "worst_price", worst_price fill);
   (u "price_impact_bps", impact)].

Definition calculation_section (quantity : ExactDecimal) (fill : ExecutableFill) (impact : Qc) : result json :=
  ratios ← mapR (fun kv => r ← rational (snd kv); Ok (fst kv, r)) (quantities fill impact);
  shown ← mapR (fun kv => s ← display (snd kv); Ok (fst kv, JStr s)) (quantities fill impact);
  Ok (JDict
    ([(u "requested_quantity", JStr (exact_str quantity)); (u "filled_quantity", JStr (exact_str quantity))] ++ ratios ++
     [(u "consumed_levels", JInt (consumed_levels fill)); (u "display", JDict shown); (u "display_precision", JInt 28);
      (u "display_rounding", JStr (u "ROUND_HALF_EVEN"))])).

Definition check_item (name outcome : string) : json :=
  JDict [(u "name", JStr (u name)); (u "result", JStr (u outcome))].

Definition quality_section (fixture live : bool) (stage_a : json) : json := JDict
  [(u "snapshot_status", JStr (if fixture then u "SIMULATED" else u "VALID_FOR_SNAPSHOT_CALCULATION"));
   (u "reason_codes", JList (if fixture then [JStr (u "SIMULATED_SOURCE")] else []));
   (u "checks", JList [check_item "sealed bytes and source bindings" "PASS"; check_item "exact snapshot sweep" "PASS";
                       check_item "live identity approval" (if live then "PASS" else "UNCERTAIN")]);
   (u "limitations", JList (map (fun s => JStr (u s))
      [if fixture then "SIMULATED fixture input and timestamps; never eligible for a chargeable quote."%string
       else "Public snapshot identity is policy-validated; exchange authenticity is not independently attested."%string;
       "Calculation over the available snapshot depth, at most 20 levels per side."%string;
       "Hypothetical snapshot sweep; no fees, funding, net PnL, or execution guarantee."%string;
       "Hashes establish integrity relative to the bundle, not exchange authenticity."%string]));
   (u "stage_a", stage_a)].

Definition reproducibility_section (engine_commit : pystr) (dependencies : bytes) (inputs : list (pystr * bytes)) : json := JDict
  [(u "engine_commit", JStr engine_commit); (u "package_versions", VERSIONS);
   (u "lockfile_digests", JList [JDict [(u "path", JStr (u "runtime-dependencies.txt"));
                                        (u "sha256", JStr (digest dependencies))]]);
   (u "calculation_version", JStr (u "snapshot-sweep/v1")); (u "policy_version", JStr (u "snapshot-policy/v1"));
   (u "serialization_version", JStr (u "canonical-json/v1")); (u "input_files", input_files inputs)].

Definition boundaries_section : json := JDict
  [(u "execution_authority", JStr (u "NONE")); (u "fees_calculated", JBool false); (u "funding_calculated", JBool false);
   (u "net_pnl_calculated", JBool false); (u "execution_promise", JBool false);
   (u "calculation_label", JStr (u "hypothetical snapshot sweep"))].

(** The two sections of a DEX capture, and its members. *)
Record dex_section := mkDexSection { dx_report : json; dx_comparison : json; dx_extras : list (pystr * bytes) }.

Definition dex_items (dex : option dex_section) : list (pystr * json) :=
  match dex with
  | Some x => [(u "mezo_dex", dx_report x); (u "venue_comparison", dx_comparison x)]
  | None => []
  end.

(** The time the report is created at, and the two checks of the clocks. *)
Definition created_of (request : ReportRequest) (received : Z) : Z := default received (rq_created_at_ms request).

Definition check_age (created received source_at : Z) : result unit :=
  reject_if ((created <? received) || (1000 <? source_at - created)) "CLOCK_SKEW" ;;
  reject_if (5000 <? created - source_at) "STALE_SOURCE".

Section snapshot_report.
Context `{UnicodeTables} `{UnicodeLower} `{UnicodeNormal} `{ReportResources}.

Definition source_section (evidence : InspectedInput) (fill : ExecutableFill) (mode : json) (created : Z) : result json :=
  let book := snapshot (ii_book evidence) in
  responses ← subscript (u "responses") (ii_capture evidence);
  first ← match responses with
          | JList (first :: _) => Ok first
          | JList [] => raise IndexError "list index out of range"
          | _ => raise KeyError "0"
          end;
  started ← int_field (u "started_at_ms") first ≫= timestamp_text;
  observed ← timestamp_text (received_timestamp_ms book);
  source_at ← timestamp_text (exchange_timestamp_ms book);
  created_at ← timestamp_text created;
  Ok (JDict
    [(u "source_mode", mode); (u "started_at", JStr started); (u "observed_at", JStr observed);
     (u "source_at", JStr source_at); (u "created_at", JStr created_at);
     (u "build_age_ms", JInt (created - exchange_timestamp_ms book));
     (u "payload_sha256", JStr (ef_payload_sha256 fill)); (u "package_sha256", JStr (ii_package_sha256 evidence));
     (u "available_bid_levels", JInt (zlength (bids book))); (u "available_ask_levels", JInt (zlength (asks book)))]).

(** The capture the DEX section is built from: the sealed one when there is one, which
    a capture that is passed must equal. *)
Definition dex_capture (evidence : InspectedInput) (mezo_capture : option json) : result (option json) :=
  match assoc (u "source/mezo-dex.json") (ii_members evidence) with
  | Some raw =>
    sealed ← strict_json raw;
    reject_if match mezo_capture with Some capture => negb (py_eq capture sealed) | None => false end
      "MEZO_DEX_INVALID_EVIDENCE" ;;
    Ok (Some sealed)
  | None => Ok mezo_capture
  end.

Definition build_dex_section (request : ReportRequest) (fill : ExecutableFill) (capture : option json)
  : result (option dex_section) :=
  match capture with
  | Some capture =>
    '(dex, extras) ← try_except
       (dex ← build_dex_report capture (side_value (rq_side request)) (exact_fraction (rq_quantity_base request));
        extras ← dex_members capture; Ok (dex, extras))
       [ValueError] (fun _ => rejected "MEZO_DEX_INVALID_EVIDENCE");
    match dex with
    | JDict items =>
      comparison ← venue_comparison items (vwap fill) (side_value (rq_side request));
      Ok (Some (mkDexSection dex comparison extras))
    | _ => raise TypeError "not a dict"
    end
  | None => Ok None
  end.

Definition sealed_inputs (evidence : InspectedInput) (algorithm dependencies : bytes) : list (pystr * bytes) :=
  map (fun m => (u "sealed-input/" ++ fst m, snd m)) (ii_members evidence) ++
  [(u "algorithm.json", algorithm); (u "runtime-dependencies.txt", dependencies)].

Definition report_document (evidence : InspectedInput) (request : ReportRequest) (m : MarketMappingEvidence)
    (mode source calculation : json) (inputs : list (pystr * bytes)) (dex : option dex_section) : json := JDict
  ([(u "schema", JStr (u "liqvera-evidence-report/v1")); (u "report_id", JStr (uuid_str (rq_report_id request)));
    (u "identity", identity_section m);
    (u "request", JDict [(u "side", JStr (side_value (rq_side request)));
                         (u "quantity_base", JStr (exact_str (rq_quantity_base request)))]);
    (u "source", source); (u "calculation", calculation);
    (u "quality", quality_section (json_is mode (u "fixture")) (json_is mode (u "live-public")) (ii_stage_a evidence));
    (u "reproducibility", reproducibility_section (rq_engine_commit request) runtime_dependencies inputs);
    (u "boundaries", boundaries_section)] ++ dex_items dex).

(** [build_inspected_report]; the members of a DEX capture have names of their own, so
    [inputs.update(extras)] appends them. *)
Definition build_inspected_report (evidence : InspectedInput) (request : ReportRequest) (mezo_capture : option json)
  : result BuiltReport :=
  let book := ii_book evidence in
  mode ← subscript (u "source_mode") (ii_capture evidence);
  let received := received_timestamp_ms (snapshot book) in
  let created := created_of request received in
  check_age created received (exchange_timestamp_ms (snapshot book)) ;;
  fill ← try_except (sweep_depth book (rq_side request) (rq_quantity_base request)) [DepthRejected]
           (fun _ => rejected "DEPTH_INSUFFICIENT");
  m ← match mapping book with Some m => Ok m | None => rejected "IDENTITY_UNVERIFIED" end;
  let algorithm := algorithm_document (rq_engine_commit request) runtime_dependencies (json_is mode (u "live-public")) in
  validate "algorithm.schema.json" algorithm ;;
  algorithm_bytes ← Canonical.canonical_json_bytes algorithm;
  impact ← price_impact_bps book (rq_side request) (vwap fill);
  source ← source_section evidence fill mode created;
  calculation ← calculation_section (rq_quantity_base request) fill impact;
  capture ← dex_capture evidence mezo_capture;
  dex ← build_dex_section request fill capture;
  let extras := match dex with Some x => dx_extras x | None => [] end in
  let document := report_document evidence request m mode source calculation
                    (sealed_inputs evidence algorithm_bytes runtime_dependencies ++ extras) dex in
  validate "report.schema.json" document ;;
  raw ← Canonical.canonical_json_bytes document;
  Ok (mkBuilt document raw (digest raw) (ii_members evidence) algorithm_bytes runtime_dependencies extras).
End snapshot_report.
