(* ===== verification/Tree.v ===== *)
(** * Directories: [read_tree], and what reads through it

    [evidence_io.read_tree] walks a directory through descriptors that follow no link;
    [sealed_input.inspect_package], [report.build_report] and
    [trove_capture.read_trove_package] start from its members.  The tree does not
    change during the walk.  Proved here: the recursive walk reads what the linear one
    of the package reader lists, and accepts exactly the trees within its bounds. *)

From S2P Require Import Prelude PyStr Num PyObj Json JsonRoundtrip Bytes EvidenceIo Documents MezoDex MezoTroves.
From S2P Require Import TroveReport FrozenPackage Package SealedInput Archive Report.
Open Scope Z_scope.

(** ** [read_tree] *)

(** The members read so far and their total length. *)
Record tree_state := mkTree { ts_result : list (pystr * bytes); ts_total : Z }.

Definition slashes (path : pystr) : Z := zlength (List.filter (Z.eqb 47) path).

(** The checks of a directory before it is visited, and of its listing. *)
Definition check_directory (relative : pystr) (entries : directory) : result unit :=
  reject_if (2 <=? slashes relative) "INVALID_DATASET" ;;
  reject_if (zlength entries =? 0) "INVALID_DATASET".

Definition check_listing (entries : directory) : result unit :=
  reject_if (MAX_MEMBERS <? zlength entries) "INVALID_DATASET".

(** A regular file of the tree. *)
Definition read_file (relative : pystr) (raw : bytes) (s : tree_state) : result tree_state :=
  reject_if ((MAX_MEMBERS <=? zlength (ts_result s)) || (MAX_MEMBER_BYTES <? zlength raw)) "INVALID_DATASET" ;;
  let total := ts_total s + zlength raw in
  reject_if (MAX_BUNDLE_BYTES <? total) "INVALID_DATASET" ;;
  Ok (mkTree (assoc_set relative raw (ts_result s)) total).

(** [visit] of an open directory: its entries in the order of their names. *)
Fixpoint visit (n : node) (prefix : pystr) (s : tree_state) : result tree_state :=
  match n with
  | Directory d =>
    check_listing d ;;
    foldM (fun s (e : pystr * (pystr -> tree_state -> result tree_state)) =>
             relative ← safe_member (JStr (prefix ++ fst e)); snd e relative s) s
      (sort_items (map (fun e => (fst e, fun relative s =>
         match snd e with
         | Directory d' => check_directory relative d' ;; visit (snd e) (relative ++ [47]) s
         | File raw => read_file relative raw s
         | _ => rejected "INVALID_DATASET"
         end)) d))
  | _ => raise OSError "not a directory"
  end.

Definition read_tree (root : option node) : result (list (pystr * bytes)) :=
  match root with
  | Some (Directory d) => s ← visit (Directory d) [] (mkTree [] 0); Ok (ts_result s)
  | _ => rejected "INVALID_DATASET"
  end.

(** ** What starts from a directory *)

Section packages.
Context `{UnicodeTables} `{UnicodeLower} `{UnicodeNormal} `{ReportResources}.

Definition inspect_package (root : option node) : result InspectedInput := read_tree root ≫= inspect_members.

Definition build_report (package_root : option node) (request : ReportRequest) (mezo_capture : option json)
  : result BuiltReport :=
  evidence ← inspect_package package_root; build_inspected_report evidence request mezo_capture.

Definition trove_package_manifest (capture_id : pystr) (raw : bytes) : json := JDict
  [(u "schema", JStr (u "liqvera-trove-capture-package/v1")); (u "capture_id", JStr capture_id);
   (u "source_mode", JStr (u "live-public")); (u "capture_sha256", JStr (digest raw));
   (u "capture_length", JInt (zlength raw))].

Definition read_trove_package (path : option node) (capture_id : pystr) : result json :=
  members ← read_tree path;
  ensure (same_members (map fst members) [u "manifest.json"; u "trove-capture.json"]) ;;
  raw ← member members (u "trove-capture.json");
  expected ← Canonical.canonical_json_bytes (trove_package_manifest capture_id raw);
  manifest ← member members (u "manifest.json");
  ensure (str_eqb manifest expected) ;;
  capture ← strict_json raw;
  _ ← try_except (verify_trove_capture capture) [ValueError; TypeError; KeyError] (fun _ => rejected "INVALID_DATASET");
  Ok capture.
End packages.

(** ** The tree as its walk *)

(** One entry of [walk]. *)
Definition tree_step (s : tree_state) (x : pystr * node) : result tree_state :=
  relative ← safe_member (JStr (fst x));
  match snd x with
  | Directory d => check_directory relative d ;; check_listing d ;; Ok s
  | File raw => read_file relative raw s
  | _ => rejected "INVALID_DATASET"
  end.

Lemma tree_step_at s path n :
  tree_step s (path, n) =
  (relative ← safe_member (JStr path);
   match n with
   | Directory d => check_directory relative d ;; check_listing d ;; Ok s
   | File raw => read_file relative raw s
   | _ => rejected "INVALID_DATASET"
   end).
Proof. done. Qed.

Definition under (prefix : pystr) (l : list (pystr * node)) : list (pystr * node) :=
  map (fun x => (prefix ++ fst x, snd x)) l.

Section node_induction.
Context (P : node -> Prop) (Hfile : forall b, P (File b)) (Hdir : forall d, Forall (fun e => P (snd e)) d -> P (Directory d))
  (Hlink : forall t, P (Symlink t)) (Hspecial : P Special).

Fixpoint node_ind_nested (n : node) : P n :=
  match n with
  | File b => Hfile b
  | Directory d =>
    Hdir d ((fix go (l : directory) : Forall (fun e => P (snd e)) l :=
      match l with [] => Forall_nil_2 _ | e :: l => Forall_cons_2 _ e l (node_ind_nested (snd e)) (go l) end) d)
  | Symlink t => Hlink t
  | Special => Hspecial
  end.
End node_induction.

Lemma foldM_ext {A B} (f g : B -> A -> result B) s l :
  (forall s x, x ∈ l -> f s x = g s x) -> foldM f s l = foldM g s l.
Proof.
  revert s; induction l as [|x l IH]; intros s H; [done|]. cbn [foldM]. rewrite H by left.
  destruct (g s x); [|done]. cbn. apply IH. intros s' y Hy. apply H. by right.
Qed.

Lemma foldM_map {A B C} (f : B -> C -> result B) (g : A -> C) s l : foldM f s (map g l) = foldM (fun s x => f s (g x)) s l.
Proof. revert s; induction l as [|x l IH]; intros s; [done|]. cbn [foldM map]. destruct (f s (g x)); [apply IH|done]. Qed.

Lemma foldM_concat {A B} (f : B -> A -> result B) s ls :
  foldM f s (concat ls) = foldM (fun s l => foldM f s l) s ls.
Proof.
  revert s; induction ls as [|l ls IH]; intros s; [done|]. cbn [concat foldM]. rewrite foldM_app.
  destruct (foldM f s l); [apply IH|done].
Qed.

(** The items of a dictionary with other values, in the order of their keys. *)
Lemma sort_items_values {V W} (f : pystr -> V -> W) (d : list (pystr * V)) :
  sort_items (map (fun e => (fst e, f (fst e) (snd e))) d) = map (fun e => (fst e, f (fst e) (snd e))) (sort_items d).
Proof.
  unfold sort_items. set (g := fun e : pystr * V => (fst e, f (fst e) (snd e))).
  assert (forall x l, insert_sorted (fun a b : pystr * W => str_leb (fst a) (fst b)) (g x) (map g l) =
    map g (insert_sorted (fun a b : pystr * V => str_leb (fst a) (fst b)) x l)) as Hins.
  { intros x l. induction l as [|y l IH]; [done|]. cbn [map insert_sorted].
    change (fst (g x)) with (fst x). change (fst (g y)) with (fst y). destruct (str_leb (fst x) (fst y)); [done|].
    cbn [map]. by rewrite IH. }
  unfold py_sorted in *. induction d as [|x d IH]; [done|]. cbn [map fold_right foldr]. by rewrite IH, Hins.
Qed.

Lemma walk_directory d :
  walk (Directory d) = concat (map (fun e => (fst e, snd e) :: under (fst e ++ [47]) (walk (snd e))) (sort_items d)).
Proof.
  pose proof (sort_items_values (fun k v => (k, v) :: under (k ++ [47]) (walk v)) d) as Hs.
  cbn [walk]. f_equal. transitivity (map snd (map (fun e => (fst e, (fst e, snd e) :: under (fst e ++ [47]) (walk (snd e)))) (sort_items d))).
  - f_equal. etransitivity; [|exact Hs]. f_equal. apply map_ext. intros [k v]. cbn [fst snd]. unfold under. do 2 f_equal.
    apply map_ext. intros x. by rewrite <- app_assoc.
  - by rewrite map_map.
Qed.

Lemma safe_member_text s name : safe_member (JStr s) = Ok name -> name = s.
Proof. by intros [= <-]%safe_member_Ok. Qed.

(** The recursive walk is the linear one over [walk]. *)
Lemma visit_walk d prefix s :
  visit (Directory d) prefix s = (check_listing d ;; foldM tree_step s (under prefix (walk (Directory d)))).
Proof.
  enough (forall n prefix s, match n with
    | Directory d => visit n prefix s = (check_listing d ;; foldM tree_step s (under prefix (walk n)))
    | _ => True end) as H by apply (H (Directory d)).
  clear. intros n. induction n as [b|d IH|t|] using node_ind_nested; intros prefix s; [done| |done|done].
  cbn [visit]. destruct (check_listing d) as [[]|]; [|done]. cbn [mbind result_bind].
  rewrite walk_directory. unfold under at 1. rewrite concat_map, foldM_concat, map_map, foldM_map.
  pose proof (sort_items_values (fun (_ : pystr) v relative s => match v with
    | Directory d' => check_directory relative d' ;; visit v (relative ++ [47]) s
    | File raw => read_file relative raw s
    | _ => rejected "INVALID_DATASET" end) d) as Hs. cbv beta in Hs. rewrite Hs, foldM_map. clear Hs.
  apply foldM_ext. intros s' [k v] Hin. cbn [fst snd map foldM].
  assert (match v with
    | Directory d => forall prefix s, visit v prefix s = (check_listing d ;; foldM tree_step s (under prefix (walk v)))
    | _ => True end) as Hv.
  { rewrite Forall_forall in IH. unfold sort_items in Hin. rewrite py_sorted_perm in Hin. specialize (IH _ Hin). cbn [snd] in IH.
    by destruct v. }
  rewrite tree_step_at. destruct (safe_member (JStr (prefix ++ k))) as [rel|] eqn:E; [|done].
  apply safe_member_text in E as ->. cbn [mbind result_bind].
  assert (map (fun x : pystr * node => (prefix ++ fst x, snd x)) (under (k ++ [47]) (walk v)) =
          under ((prefix ++ k) ++ [47]) (walk v)) as ->.
  { unfold under. rewrite map_map. apply map_ext. intros x. cbn [fst snd]. by rewrite <- !app_assoc. }
  destruct v as [raw|d'|t|]; try done.
  - cbn [walk under map foldM]. by destruct (read_file _ _ _).
  - rewrite Hv. destruct (check_directory _ _) as [[]|]; [|done]. cbn [mbind result_bind].
    by destruct (check_listing d') as [[]|].
Qed.

(** ** What the tree is read as *)

(** The regular files among the entries. *)
Definition files_of (l : list (pystr * node)) : list (pystr * bytes) :=
  omap (fun x => match snd x with File raw => Some (fst x, raw) | _ => None end) l.

(** An entry within the bounds of the reader. *)
Definition entry_ok (x : pystr * node) : Prop :=
  safe_member (JStr (fst x)) = Ok (fst x) /\
  match snd x with
  | Directory d => slashes (fst x) < 2 /\ 0 < zlength d <= MAX_MEMBERS
  | File raw => zlength raw <= MAX_MEMBER_BYTES
  | _ => False
  end.

Lemma check_directory_Ok relative d u : check_directory relative d = Ok u <-> slashes relative < 2 /\ 0 < zlength d.
Proof.
  assert (0 <= zlength d) by (unfold zlength; lia). unfold check_directory, reject_if. rewrite bind_Ok. split.
  - intros ([] & H1%raise_if_Ok%Z.leb_gt & H2%raise_if_Ok%Z.eqb_neq). lia.
  - intros [H1 H2]. exists tt. rewrite !raise_if_Ok, Z.leb_gt, Z.eqb_neq. lia.
Qed.

Lemma check_listing_Ok d u : check_listing d = Ok u <-> zlength d <= MAX_MEMBERS.
Proof. unfold check_listing, reject_if. rewrite raise_if_Ok. apply Z.ltb_ge. Qed.

Lemma read_file_Ok relative raw s s' :
  relative ∉ map fst (ts_result s) ->
  read_file relative raw s = Ok s' <->
  zlength (ts_result s) < MAX_MEMBERS /\ zlength raw <= MAX_MEMBER_BYTES /\ ts_total s + zlength raw <= MAX_BUNDLE_BYTES /\
  s' = mkTree (ts_result s ++ [(relative, raw)]) (ts_total s + zlength raw).
Proof.
  intros Hn. unfold read_file, reject_if. rewrite assoc_set_new by done. rewrite bind_Ok. split.
  - intros ([] & [H1%Z.leb_gt H2%Z.ltb_ge]%raise_if_Ok%orb_false_iff & ([] & H3%raise_if_Ok%Z.ltb_ge & [= <-])%bind_Ok). done.
  - intros (H1 & H2 & H3 & ->). exists tt. rewrite raise_if_Ok, orb_false_iff, Z.leb_gt, Z.ltb_ge. split; [done|].
    rewrite (proj2 (Z.ltb_ge _ _)) by done. done.
Qed.

Lemma tree_step_Ok s x s' :
  fst x ∉ map fst (ts_result s) ->
  tree_step s x = Ok s' <->
  entry_ok x /\
  match snd x with
  | File raw => zlength (ts_result s) < MAX_MEMBERS /\ ts_total s + zlength raw <= MAX_BUNDLE_BYTES /\
                s' = mkTree (ts_result s ++ [(fst x, raw)]) (ts_total s + zlength raw)
  | _ => s' = s
  end.
Proof.
  destruct x as [path n]. cbn [fst snd]. intros Hn. rewrite tree_step_at, bind_Ok. unfold entry_ok. cbn [fst snd]. split.
  - intros (rel & Hrel & Hs). pose proof (safe_member_text _ _ Hrel) as ->. destruct n as [raw|d|t|]; try done.
    + apply read_file_Ok in Hs; [|done]. tauto.
    + apply bind_Ok in Hs as (u1 & ?%check_directory_Ok & (u2 & ?%check_listing_Ok & [= <-])%bind_Ok). split; [split; [done|lia]|done].
  - intros [[Hsafe Hok] Hs]. exists path. split; [done|]. destruct n as [raw|d|t|]; try done.
    + apply read_file_Ok; [done|]. tauto.
    + subst. apply bind_Ok. exists tt. split; [apply check_directory_Ok; lia|]. apply bind_Ok. exists tt. split; [|done].
      apply check_listing_Ok. lia.
Qed.

Lemma total_size_nonneg l : 0 <= total_size l.
Proof. unfold total_size. induction l as [|m l IH]; cbn [foldr]; [lia|]. pose proof (zlength_nonneg (snd m)). lia. Qed.

Lemma tree_fold_Ok l s s' :
  NoDup (map fst (ts_result s) ++ map fst l) -> zlength (ts_result s) <= MAX_MEMBERS -> ts_total s <= MAX_BUNDLE_BYTES ->
  foldM tree_step s l = Ok s' <->
  Forall entry_ok l /\ zlength (ts_result s ++ files_of l) <= MAX_MEMBERS /\
  ts_total s + total_size (files_of l) <= MAX_BUNDLE_BYTES /\
  s' = mkTree (ts_result s ++ files_of l) (ts_total s + total_size (files_of l)).
Proof.
  revert s. induction l as [|[path n] l IH]; intros s Hnd Hc Ht.
  - cbn [foldM files_of omap total_size foldr]. rewrite app_nil_r. destruct s as [r t]. cbn [ts_result ts_total] in *.
    rewrite Z.add_0_r. split; [intros [= <-]; done|]. by intros (_ & _ & _ & ->).
  - cbn [foldM]. rewrite bind_Ok. cbn [map fst] in Hnd. rewrite Forall_cons. pose proof Hnd as (_ & Hnot & Hl)%NoDup_app.
    assert (path ∉ map fst (ts_result s)) as Hp by (intros Hin; apply (Hnot path Hin); left).
    setoid_rewrite (fun s1 => tree_step_Ok s (path, n) s1 Hp). cbn [fst snd].
    destruct n as [raw|d|t|].
    + change (files_of ((path, File raw) :: l)) with ((path, raw) :: files_of l).
      change (total_size ((path, raw) :: files_of l)) with (zlength raw + total_size (files_of l)).
      change ((path, raw) :: files_of l) with ([(path, raw)] ++ files_of l). rewrite Z.add_assoc. change (zlength raw) with (zlength raw).
      set (s1 := mkTree (ts_result s ++ [(path, raw)]) (ts_total s + zlength raw)).
      assert (zlength (ts_result s) < MAX_MEMBERS -> ts_total s + zlength raw <= MAX_BUNDLE_BYTES ->
        foldM tree_step s1 l = Ok s' <->
        Forall entry_ok l /\ zlength (ts_result s1 ++ files_of l) <= MAX_MEMBERS /\
        ts_total s1 + total_size (files_of l) <= MAX_BUNDLE_BYTES /\
        s' = mkTree (ts_result s1 ++ files_of l) (ts_total s1 + total_size (files_of l))) as Hs1.
      { intros H1 H2. apply (IH s1); [|cbn [ts_result s1]; unfold zlength in *; rewrite length_app; cbn [length]; lia|done].
        cbn [ts_result s1]. rewrite map_app, <- app_assoc. exact Hnd. }
      cbn [ts_result ts_total s1] in Hs1.
      assert (zlength (ts_result s ++ [(path, raw)] ++ files_of l) = zlength (ts_result s) + 1 + zlength (files_of l)) as Hlen
        by (unfold zlength; rewrite !length_app; cbn [length]; lia).
      assert (0 <= zlength (files_of l)) by (unfold zlength; lia). pose proof (total_size_nonneg (files_of l)).
      rewrite <- app_assoc in Hs1. rewrite Hlen in *. split.
      * intros (s2 & (He & H1 & H2 & ->) & Hf). apply Hs1 in Hf as (? & ? & ? & ->); [|done..]. split_and!; done || lia.
      * intros ((He & Hl') & H1 & H2 & H3). exists s1. split; [split; [done|]; split_and!; lia || done|]. apply Hs1; [lia..|]. tauto.
    + change (files_of ((path, Directory d) :: l)) with (files_of l).
      assert (NoDup (map fst (ts_result s) ++ map fst l)) as Hnd' by
        (apply NoDup_app in Hnd as (H1 & H2 & [_ H3]%NoDup_cons); apply NoDup_app; split_and!; [done| |done];
         intros x Hx Hin; apply (H2 x Hx); by right).
      specialize (IH s Hnd' Hc Ht). split.
      * intros (s2 & [He ->] & Hf). apply IH in Hf. tauto.
      * intros ((He & Hl') & Hr). exists s. split; [done|]. apply IH. tauto.
    + split; [intros (? & [[_ []] _] & _)|intros ([[_ []] _] & _)].
    + split; [intros (? & [[_ []] _] & _)|intros ([[_ []] _] & _)].
Qed.

(** [read_tree] accepts a directory exactly when its walk stays within the bounds (safe
    names, no link or special file, no empty directory, a depth of three, so many
    entries and bytes), and returns the regular files of the walk in its order. *)
Theorem read_tree_spec d members :
  NoDup (map fst (walk (Directory d))) ->
  read_tree (Some (Directory d)) = Ok members <->
  zlength d <= MAX_MEMBERS /\ Forall entry_ok (walk (Directory d)) /\
  members = files_of (walk (Directory d)) /\
  zlength members <= MAX_MEMBERS /\ total_size members <= MAX_BUNDLE_BYTES.
Proof.
  intros Hnd. unfold read_tree. rewrite bind_Ok. setoid_rewrite visit_walk. setoid_rewrite bind_Ok.
  setoid_rewrite check_listing_Ok.
  assert (under [] (walk (Directory d)) = walk (Directory d)) as ->.
  { unfold under. rewrite <- map_id. apply map_ext. by intros []. }
  setoid_rewrite (fun s' => tree_fold_Ok (walk (Directory d)) (mkTree [] 0) s' Hnd ltac:(done) ltac:(done)). cbn [ts_result ts_total app].
  split.
  - intros (s & (_ & H1 & H2 & H3 & H4 & ->) & [= <-]). done.
  - intros (H1 & H2 & -> & H3 & H4). eexists. split; [exists tt; split_and!; done|]. done.
Qed.

(** A directory with a file and a sub-directory, in the order it is read. *)
Definition demo_directory : directory :=
  [(u "source", Directory [(u "book.bin", File (u "{}")); (u "a.json", File (u "[]"))]); (u "manifest.json", File (u "1"))].

Lemma read_tree_spec_witness :
  NoDup (map fst (walk (Directory demo_directory))) /\
  read_tree (Some (Directory demo_directory)) =
    Ok [(u "manifest.json", u "1"); (u "source/a.json", u "[]"); (u "source/book.bin", u "{}")].
Proof.
  assert (NoDup (map fst (walk (Directory demo_directory)))) as Hnd
    by (apply (bool_decide_unpack _); vm_compute; exact I).
  split; [exact Hnd|]. apply (proj2 (read_tree_spec demo_directory _ Hnd)).
  split; [vm_compute; discriminate|]. split; [|split; [vm_compute; reflexivity|split; vm_compute; discriminate]].
  repeat constructor; vm_compute; try discriminate; reflexivity.
Defined.
