(* ===== verification/Bundle.v ===== *)
(** * Bundles: [build_bundle] and [verify_bundle_bytes] of [liqvera_evidence_report.evidence_bundle]

    A bundle archives a report, its inputs and a manifest of their digests; its
    verification reads the archive, checks every digest and builds the report again
    from the archived inputs.  Proved here: what verifies is exactly reproduced, every
    bundle built from a report verifies, and verification fails closed. *)

From S2P Require Import Prelude PyStr Num PyObj Json JsonRoundtrip Bytes ByteLaws Exact Market Reconstruction Vwap.
From S2P Require Import Calendar EvidenceIo Documents MezoDex DexReport MezoTroves TroveReport FrozenPackage SealedInput Archive Report.
Open Scope Z_scope.

(** ** [build_bundle] *)

Definition declared_member (m : pystr * bytes) : json :=
  JDict [(u "path", JStr (fst m)); (u "sha256", JStr (digest (snd m))); (u "length", JInt (zlength (snd m)))].

Definition bundle_manifest (report_sha256 : pystr) (members : list (pystr * bytes)) : json := JDict
  [(u "schema", JStr (u "liqvera-evidence-bundle-manifest/v1")); (u "serialization_version", JStr (u "canonical-json/v1"));
   (u "report_sha256", JStr report_sha256); (u "members", JList (map declared_member (sort_items members)))].

Section bundle.
Context `{UnicodeTables} `{UnicodeLower} `{UnicodeNormal} `{ReportResources}.

Definition build_bundle (built : BuiltReport) : result bytes :=
  ensure (str_eqb (digest (br_report_bytes built)) (br_report_sha256 built)) ;;
  let members := bundle_members built in
  let manifest := bundle_manifest (br_report_sha256 built) members in
  validate "bundle-manifest.schema.json" manifest ;;
  manifest ← Canonical.canonical_json_bytes manifest;
  zip_members (assoc_set (u "manifest.json") manifest members).

(** ** [verify_bundle_bytes] *)

(** One declaration of the manifest against the member it names. *)
Definition check_declared (members : list (pystr * bytes)) (item : json) : result unit :=
  path ← subscript (u "path") item;
  path ← match path with JStr path => Ok path | _ => raise KeyError "member" end;
  content ← member members path;
  ensure_field (u "length") item (JInt (zlength content)) ;;
  ensure_field (u "sha256") item (JStr (digest content)).

(** The manifest, its members and the report it names; the result is the report. *)
Definition check_bundle (members : list (pystr * bytes)) (expected : option pystr) : result (list (pystr * json)) :=
  manifest_raw ← member members (u "manifest.json");
  manifest ← strict_json manifest_raw;
  validate "bundle-manifest.schema.json" manifest ;;
  encoded ← Canonical.canonical_json_bytes manifest;
  ensure (str_eqb encoded manifest_raw) ;;
  declared ← subscript (u "members") manifest;
  declared ← match declared with JList declared => Ok declared | _ => raise TypeError "not a list" end;
  paths ← mapR (subscript (u "path")) declared;
  ensure (py_eq (JList paths)
            (JList (map JStr (py_sorted str_leb (List.filter (fun n => negb (str_eqb n (u "manifest.json")))
                                                   (map fst members)))))) ;;
  require_all (check_declared members) declared ;;
  report_raw ← member members (u "report.json");
  report ← strict_json report_raw;
  match report with
  | JDict items =>
    let report_hash := digest report_raw in
    ensure_field (u "report_sha256") manifest (JStr report_hash) ;;
    ensure match expected with Some sha => str_eqb sha report_hash | None => true end ;;
    encoded ← Canonical.canonical_json_bytes report;
    ensure (str_eqb encoded report_raw) ;;
    Ok items
  | _ => rejected "INVALID_DATASET"
  end.

(** The comparison of what was built again with what was read. *)
Definition check_rebuilt (members : list (pystr * bytes)) (raw : bytes) (rebuilt : BuiltReport) : result BuiltReport :=
  report ← member members (u "report.json");
  ensure (str_eqb (br_report_bytes rebuilt) report) ;;
  algorithm ← member members (u "algorithm.json");
  ensure (str_eqb (br_algorithm_bytes rebuilt) algorithm) ;;
  dependencies ← member members (u "runtime-dependencies.txt");
  ensure (str_eqb (br_dependency_bytes rebuilt) dependencies) ;;
  again ← build_bundle rebuilt;
  ensure (str_eqb again raw) ;;
  Ok rebuilt.

(** [name.removeprefix("sealed-input/")] of the members that start so. *)
Definition sealed_members (members : list (pystr * bytes)) : list (pystr * bytes) :=
  map (fun m => (drop 13 (fst m), snd m)) (List.filter (fun m => str_startswith (u "sealed-input/") (fst m)) members).

(** The members of a DEX capture: none of them, or all. *)
Definition dex_extras (members : list (pystr * bytes)) : result (option json) :=
  match List.filter (fun m => bool_decide (fst m ∈ DEX_NAMES)) members with
  | [] => Ok None
  | extras =>
    reject_if (negb (same_members (map fst extras) DEX_NAMES)) "MEZO_DEX_INVALID_EVIDENCE" ;;
    Some <$> json_member extras (u "mezo-dex/capture.json")
  end.

(** The request of a report, from its document. *)
Definition request_of (report : json) : result ReportRequest :=
  report_id ← subscript (u "report_id") report;
  report_id ← identifier report_id;
  report_id ← uuid_parse report_id;
  asked ← subscript (u "request") report;
  side ← subscript (u "side") asked;
  side ← side_of side;
  quantity ← subscript (u "quantity_base") asked;
  quantity ← exact_of quantity;
  reproducibility ← subscript (u "reproducibility") report;
  engine_commit ← subscript (u "engine_commit") reproducibility;
  source ← subscript (u "source") report;
  created ← subscript (u "created_at") source;
  created ← timestamp_ms created;
  report_request_init report_id side quantity engine_commit (Some created).

(** The snapshot report built again from the archived members. *)
Definition rebuild_snapshot (members : list (pystr * bytes)) (report : list (pystr * json)) : result BuiltReport :=
  validate "report.schema.json" (JDict report) ;;
  algorithm ← json_member members (u "algorithm.json");
  validate "algorithm.schema.json" algorithm ;;
  inspected ← inspect_members (sealed_members members);
  request ← request_of (JDict report);
  mezo_capture ← dex_extras members;
  build_inspected_report inspected request mezo_capture.

Definition verify_members (raw : bytes) (expected : option pystr) : result BuiltReport :=
  members ← read_archive raw;
  report ← check_bundle members expected;
  rebuilt ← (if json_is (json_get (u "schema") report) (u "liqvera-trove-risk-report/v1")
             then rebuild_trove_members members else rebuild_snapshot members report);
  check_rebuilt members raw rebuilt.

Definition verify_bundle_bytes (raw : bytes) (expected : option pystr) : result BuiltReport :=
  try_except (verify_members raw expected) [BadZipFile; OSError; ValueError; TypeError; KeyError; RuntimeError]
    (fun e => if bool_decide (exn_class e = EvidenceRejected) then Raise e else rejected "INVALID_DATASET").

(** [verify_bundle] of the node at a path: links are not followed, a file is read to
    one byte beyond the limit. *)
Definition verify_bundle (path : option node) (expected : option pystr) : result BuiltReport :=
  match path with
  | Some (File raw) => verify_bundle_bytes (take (Z.to_nat (MAX_BUNDLE_BYTES + 1)) raw) expected
  | _ => rejected "INVALID_DATASET"
  end.
End bundle.

(** ** A bundle passes the checks of its own manifest *)

Lemma canonical_nonempty j b : Canonical.canonical_json_bytes j = Ok b -> b <> [].
Proof.
  unfold Canonical.canonical_json_bytes, encode_utf8. intros ([] & _ & (text & _ & Hb)%bind_Ok)%bind_Ok ->.
  destruct (existsb _ _); [done|]. injection Hb as Hb. rewrite flat_map_app in Hb. by apply app_eq_nil in Hb as [_ ?].
Qed.

(** What a built report must be for its bundle to verify. *)
Record well_built `{UnicodeNormal} (built : BuiltReport) : Prop := {
  wb_document : exists d, br_document built = JDict d;
  wb_plain : json_plain (br_document built) = true;
  wb_texts : require_strings (br_document built) = Ok tt;
  wb_bytes : Canonical.canonical_json_bytes (br_document built) = Ok (br_report_bytes built);
  wb_names : NoDup (map fst (bundle_members built));
  wb_manifest : u "manifest.json" ∉ map fst (bundle_members built);
  wb_report : assoc (u "report.json") (bundle_members built) = Some (br_report_bytes built);
  wb_algorithm : assoc (u "algorithm.json") (bundle_members built) = Some (br_algorithm_bytes built);
  wb_dependencies : assoc (u "runtime-dependencies.txt") (bundle_members built) = Some (br_dependency_bytes built);
  wb_contents : Forall (fun m => snd m <> []) (bundle_members built) }.

Section verification.
Context `{UnicodeTables} `{UnicodeLower} `{UnicodeNormal} `{ReportResources}.
Context (Hnfc : forall s, Forall printable s -> nfc s = s).
Context (Hvalidate : forall name d, json_plain d = true -> validate name (json_arranged unicode_style d) = validate name d).
Context (built : BuiltReport) (raw : bytes) (Hwell : well_built built) (Hraw : byte_list raw).

(** The archived members, in their order, given the manifest. *)
Definition archived (manifest : bytes) : list (pystr * bytes) :=
  sort_items (bundle_members built ++ [(u "manifest.json", manifest)]).

Lemma build_bundle_Ok :
  build_bundle built = Ok raw ->
  br_report_sha256 built = digest (br_report_bytes built) /\
  exists manifest,
    let document := bundle_manifest (br_report_sha256 built) (bundle_members built) in
    validate "bundle-manifest.schema.json" document = Ok tt /\ Canonical.canonical_json_bytes document = Ok manifest /\
    zip_members (archived manifest) = Ok raw.
Proof using Hwell.
  unfold build_bundle, ensure. intros ([] & Hsha%raise_if_Ok & ([] & Hv & (manifest & Hm & Hz)%bind_Ok)%bind_Ok)%bind_Ok.
  apply negb_false_iff, str_eqb_spec in Hsha. split; [done|]. exists manifest. split_and!; [done..|].
  assert (assoc_set (u "manifest.json") manifest (bundle_members built) =
          bundle_members built ++ [(u "manifest.json", manifest)]) as E.
  { apply assoc_set_new. apply (wb_manifest _ Hwell). }
  rewrite E in Hz. apply zip_members_sorted in Hz. exact Hz.
Qed.
Context (manifest : bytes) (document := bundle_manifest (br_report_sha256 built) (bundle_members built)).
Context (Hsha : br_report_sha256 built = digest (br_report_bytes built)).
Context (Hmanifest : Canonical.canonical_json_bytes document = Ok manifest).
Context (Hvalid : validate "bundle-manifest.schema.json" document = Ok tt).
Context (Hzip : zip_members (archived manifest) = Ok raw).

Lemma archived_perm : archived manifest ≡ₚ bundle_members built ++ [(u "manifest.json", manifest)].
Proof. unfold archived, sort_items. apply py_sorted_perm. Qed.

Lemma archived_NoDup : NoDup (map fst (bundle_members built ++ [(u "manifest.json", manifest)])).
Proof using Hwell.
  rewrite map_app. apply NoDup_app. split_and!; [apply (wb_names _ Hwell)| |apply NoDup_singleton].
  intros n Hn ->%list_elem_of_singleton. by apply (wb_manifest _ Hwell).
Qed.

Lemma archived_assoc name :
  assoc name (archived manifest) = assoc name (bundle_members built ++ [(u "manifest.json", manifest)]).
Proof using Hwell. symmetry. apply assoc_perm; [apply archived_NoDup|by rewrite archived_perm]. Qed.

Lemma archived_member name content :
  assoc name (bundle_members built) = Some content -> member (archived manifest) name = Ok content.
Proof using Hwell.
  intros Ha. unfold member. rewrite archived_assoc. apply assoc_elem in Ha.
  rewrite (assoc_unique name content); [done|apply archived_NoDup|]. apply elem_of_app. by left.
Qed.

Lemma archived_manifest : member (archived manifest) (u "manifest.json") = Ok manifest.
Proof using Hwell.
  unfold member. rewrite archived_assoc, (assoc_unique _ manifest); [done|apply archived_NoDup|].
  apply elem_of_app. right. left.
Qed.

(** The archive is read back as the archived members. *)
Lemma archive_read : read_archive raw = Ok (archived manifest).
Proof using Hmanifest Hraw Hwell Hzip.
  apply read_archive_written; [done..|]. split.
  - split; [apply sorted_by_name, archived_NoDup|]. intros n Hn.
    assert (map fst (archived manifest) ≡ₚ map fst (bundle_members built ++ [(u "manifest.json", manifest)])) as ->
      by by rewrite archived_perm.
    rewrite map_app, elem_of_app.
    unfold OUTER_NAMES in Hn. cbn [map] in Hn. rewrite !elem_of_cons in Hn.
    destruct Hn as [->|[->|[->|[->|Hn]]]]; [right; left|left..|by apply elem_of_nil in Hn].
    + apply (assoc_key _ _ _ (wb_report _ Hwell)).
    + apply (assoc_key _ _ _ (wb_algorithm _ Hwell)).
    + apply (assoc_key _ _ _ (wb_dependencies _ Hwell)).
  - rewrite archived_perm. apply Forall_app. split; [apply (wb_contents _ Hwell)|]. constructor; [|constructor].
    by apply canonical_nonempty in Hmanifest.
Qed.

Lemma member_names n : n ∈ map fst (bundle_members built) -> n ∈ ALLOWED_NAMES.
Proof using Hzip Hwell.
  intros Hn. apply zip_members_Ok in Hzip as (_ & _ & Hs & _). rewrite Forall_forall in Hs.
  apply list_elem_of_fmap in Hn as (m & -> & Hm). apply Hs. unfold sort_items. rewrite py_sorted_perm, archived_perm.
  apply elem_of_app. by left.
Qed.

Lemma manifest_ascii : ascii_document document = true.
Proof using Hsha Hzip Hwell.
  unfold document, bundle_manifest. cbn [ascii_document]. rewrite andb_true_iff. split; [vm_compute; reflexivity|].
  cbn [forallb fst snd]. rewrite Hsha, !andb_true_iff. split_and!; try reflexivity; [apply digest_ascii|].
  cbn [ascii_document]. apply forallb_forall. intros x (m & <- & Hm)%in_map_iff.
  unfold declared_member. cbn [ascii_document]. rewrite andb_true_iff. split; [vm_compute; reflexivity|].
  cbn [forallb fst snd ascii_document]. rewrite digest_ascii, !andb_true_iff. split_and!; try reflexivity.
  apply (allowed_spec ascii_text); [vm_compute; reflexivity|]. apply member_names.
  apply list_elem_of_In in Hm. unfold sort_items in Hm. rewrite py_sorted_perm in Hm. by apply list_elem_of_fmap_2.
Qed.

Lemma bundle_manifest_read : strict_json manifest = Ok (json_arranged unicode_style document).
Proof using Hmanifest Hnfc Hsha Hzip Hwell. apply strict_ascii; [done|apply manifest_ascii|done]. Qed.

(** The declared names are those of the archive, the manifest's apart. *)
Lemma declared_names :
  map fst (sort_items (bundle_members built)) =
  py_sorted str_leb (List.filter (fun n => negb (str_eqb n (u "manifest.json"))) (map fst (archived manifest))).
Proof using Hwell.
  set (other := fun n => negb (str_eqb n (u "manifest.json"))).
  assert (List.filter other (map fst (archived manifest)) ≡ₚ map fst (bundle_members built)) as Hp.
  { assert (map fst (archived manifest) ≡ₚ map fst (bundle_members built) ++ [u "manifest.json"]) as Hp
      by (by rewrite archived_perm, map_app).
    rewrite (list_filter_perm _ _ _ Hp), List.filter_app. cbn [List.filter].
    assert (other (u "manifest.json") = false) as -> by (unfold other; by rewrite str_eqb_refl).
    rewrite app_nil_r, list_filter_all; [done|]. intros n Hn. unfold other. apply negb_true_iff, str_eqb_false.
    intros ->. by apply (wb_manifest _ Hwell). }
  apply StronglySorted_strict_ext.
  - rewrite py_sorted_perm, Hp. unfold sort_items. by rewrite py_sorted_perm.
  - apply sorted_by_name, (wb_names _ Hwell).
  - apply sorted_strict; [apply py_sorted_sorted; [apply str_leb_total|apply str_leb_trans]|].
    rewrite py_sorted_perm, Hp. apply (wb_names _ Hwell).
Qed.

Lemma check_archived expected :
  match expected with Some sha => sha = br_report_sha256 built | None => True end ->
  exists items, json_arranged unicode_style (br_document built) = JDict items /\
    check_bundle (archived manifest) expected = Ok items.
Proof using Hmanifest Hnfc Hsha Hvalid Hvalidate Hzip Hwell.
  intros Hexp. pose proof (ascii_plain _ manifest_ascii) as Hp. destruct (wb_document _ Hwell) as [d Hd].
  exists (arranged_items unicode_style d). split; [by rewrite Hd|].
  assert (forall k x, subscript k document = Ok x -> subscript k (json_arranged unicode_style document) = Ok (json_arranged unicode_style x)) as Hsub.
  { intros k x Hx. by apply subscript_arranged. }
  unfold check_bundle. rewrite archived_manifest. cbn [mbind result_bind]. rewrite bundle_manifest_read. cbn [mbind result_bind].
  rewrite Hvalidate, Hvalid by done. cbn [mbind result_bind]. rewrite (canonical_arranged _ _ Hmanifest).
  unfold ensure. cbn [mbind result_bind]. rewrite str_eqb_refl. cbn [negb reject_if raise_if mbind result_bind].
  rewrite (Hsub (u "members") (JList (map declared_member (sort_items (bundle_members built)))) eq_refl).
  cbn [mbind result_bind json_arranged].
  set (declared := map (json_arranged unicode_style) _).
  assert (forall m k x, m ∈ sort_items (bundle_members built) -> subscript k (declared_member m) = Ok x ->
            subscript k (json_arranged unicode_style (declared_member m)) = Ok (json_arranged unicode_style x)) as Hitem.
  { intros m k x Hm Hx. apply subscript_arranged; [|done].
    destruct (subscript_arranged unicode_style (u "members") document _ Hp eq_refl) as [_ Hl].
    cbn [json_plain] in Hl. rewrite forallb_forall in Hl. apply Hl, in_map, list_elem_of_In, Hm. }
  assert (mapR (subscript (u "path")) declared = Ok (map JStr (map fst (sort_items (bundle_members built))))) as ->.
  { unfold declared. rewrite !map_map. apply mapR_map, Forall_forall. intros m Hm. by rewrite (Hitem m _ (JStr (fst m)) Hm). }
  cbn [mbind result_bind]. rewrite declared_names, py_eq_texts. cbn [negb reject_if raise_if mbind result_bind].
  assert (require_all (check_declared (archived manifest)) declared = Ok tt) as ->.
  { apply require_all_Ok. unfold declared. rewrite map_map. apply Forall_fmap, Forall_forall. intros [n content] Hm.
    unfold check_declared, compose. rewrite (Hitem (n, content) (u "path") (JStr n) Hm eq_refl). cbn [mbind result_bind json_arranged].
    rewrite (archived_member n content).
    2: { apply assoc_unique; [apply (wb_names _ Hwell)|]. unfold sort_items in Hm. by rewrite py_sorted_perm in Hm. }
    cbn [mbind result_bind]. unfold ensure_field. rewrite (Hitem (n, content) (u "length") (JInt (zlength content)) Hm eq_refl). cbn [mbind result_bind json_arranged].
    rewrite py_eq_int. cbn [ensure negb reject_if raise_if mbind result_bind].
    rewrite (Hitem (n, content) (u "sha256") (JStr (digest content)) Hm eq_refl). cbn [mbind result_bind json_arranged py_eq].
    by rewrite str_eqb_refl. }
  cbn [mbind result_bind]. rewrite (archived_member _ _ (wb_report _ Hwell)). cbn [mbind result_bind].
  pose proof (strict_json_canonical _ _ (wb_plain _ Hwell) (wb_texts _ Hwell) (wb_bytes _ Hwell)) as Hread.
  rewrite Hread, Hd. cbn [mbind result_bind]. change (json_arranged unicode_style (JDict d)) with (JDict (arranged_items unicode_style d)).
  cbv iota. unfold ensure_field at 1.
  rewrite (Hsub (u "report_sha256") (JStr (br_report_sha256 built)) eq_refl). cbn [mbind result_bind json_arranged py_eq].
  rewrite Hsha, str_eqb_refl. cbn [ensure negb reject_if raise_if mbind result_bind].
  assert (match expected with Some sha => str_eqb sha (digest (br_report_bytes built)) | None => true end = true) as ->.
  { destruct expected as [sha|]; [|done]. rewrite Hexp, Hsha. apply str_eqb_refl. }
  cbn [negb reject_if raise_if mbind result_bind].
  pose proof (canonical_arranged _ _ (wb_bytes _ Hwell)) as Hcan. rewrite Hd in Hcan.
  change (json_arranged unicode_style (JDict d)) with (JDict (arranged_items unicode_style d)) in Hcan.
  rewrite Hcan. cbn [mbind result_bind]. rewrite str_eqb_refl. done.
Qed.
(** A report that its archived members rebuild verifies. *)
Lemma bundle_verifies expected :
  build_bundle built = Ok raw ->
  match expected with Some sha => sha = br_report_sha256 built | None => True end ->
  (forall items, json_arranged unicode_style (br_document built) = JDict items ->
     (if json_is (json_get (u "schema") items) (u "liqvera-trove-risk-report/v1")
      then rebuild_trove_members (archived manifest) else rebuild_snapshot (archived manifest) items) = Ok built) ->
  verify_bundle_bytes raw expected = Ok built.
Proof using Hmanifest Hnfc Hraw Hsha Hvalid Hvalidate Hzip Hwell.
  intros Hbuild Hexp Hrebuild. destruct (check_archived expected Hexp) as (items & Hitems & Hcheck).
  unfold verify_bundle_bytes, verify_members. rewrite archive_read. cbn [mbind result_bind]. rewrite Hcheck.
  cbn [mbind result_bind]. rewrite (Hrebuild items Hitems). cbn [mbind result_bind]. unfold check_rebuilt, ensure.
  rewrite (archived_member _ _ (wb_report _ Hwell)), (archived_member _ _ (wb_algorithm _ Hwell)),
    (archived_member _ _ (wb_dependencies _ Hwell)), Hbuild.
  cbn [mbind result_bind]. by rewrite !str_eqb_refl.
Qed.
End verification.

(** ** What verifies is reproduced *)

(** The members of an archive rebuild a report. *)
Definition rebuilds `{UnicodeTables} `{UnicodeLower} `{UnicodeNormal} `{ReportResources}
    (members : list (pystr * bytes)) (built : BuiltReport) : Prop :=
  rebuild_trove_members members = Ok built \/
  exists report, rebuild_snapshot members report = Ok built.

Lemma try_rejects {A} (m : result A) cs a :
  try_except m cs (fun e => if bool_decide (exn_class e = EvidenceRejected) then Raise e else rejected "INVALID_DATASET") = Ok a ->
  m = Ok a.
Proof. intros [H|(e & _ & He)]%try_except_Ok; [done|]. by destruct (bool_decide _). Qed.

(** C6: whatever verifies is exactly reproduced: the bytes are the archive of the report
    that was built again from the members they hold and of nothing else, every member
    is read back from them, and the hash a caller expects is that of the report. *)
Theorem verify_bundle_sound `{UnicodeTables} `{UnicodeLower} `{UnicodeNormal} `{ReportResources} raw expected built :
  verify_bundle_bytes raw expected = Ok built ->
  build_bundle built = Ok raw /\ br_report_sha256 built = digest (br_report_bytes built) /\
  (forall sha, expected = Some sha -> sha = br_report_sha256 built) /\
  exists members, read_archive raw = Ok members /\ zip_members members = Ok raw /\ rebuilds members built /\
    assoc (u "report.json") members = Some (br_report_bytes built) /\
    assoc (u "algorithm.json") members = Some (br_algorithm_bytes built) /\
    assoc (u "runtime-dependencies.txt") members = Some (br_dependency_bytes built).
Proof.
  intros Hv%try_rejects. unfold verify_members in Hv.
  apply bind_Ok in Hv as (members & Hread & (report & Hcheck & (rebuilt & Hrebuild & Hv)%bind_Ok)%bind_Ok).
  unfold check_rebuilt, member, ensure in Hv.
  apply bind_Ok in Hv as (r & Hr & ([] & Hsr%raise_if_Ok%negb_false_iff%str_eqb_spec & Hv)%bind_Ok).
  apply bind_Ok in Hv as (a & Ha & ([] & Hsa%raise_if_Ok%negb_false_iff%str_eqb_spec & Hv)%bind_Ok).
  apply bind_Ok in Hv as (d & Hd & ([] & Hsd%raise_if_Ok%negb_false_iff%str_eqb_spec & Hv)%bind_Ok).
  apply bind_Ok in Hv as (again & Hagain & ([] & Hs%raise_if_Ok%negb_false_iff%str_eqb_spec & [= ->])%bind_Ok). subst.
  destruct (assoc (u "report.json") members) as [r|] eqn:Er; [|done]. injection Hr as Hr.
  destruct (assoc (u "algorithm.json") members) as [a|] eqn:Ea; [|done]. injection Ha as Ha.
  destruct (assoc (u "runtime-dependencies.txt") members) as [d|] eqn:Ed; [|done]. injection Hd as Hd. subst.
  assert (br_report_sha256 built = digest (br_report_bytes built)) as Hsha.
  { unfold build_bundle in Hagain. apply bind_Ok in Hagain as ([] & Hsha%raise_if_Ok%negb_false_iff%str_eqb_spec & _). done. }
  split_and!; [done|done| |].
  - intros sha ->. unfold check_bundle, member in Hcheck. rewrite Er in Hcheck.
    do 10 (apply bind_Ok in Hcheck as (? & _ & Hcheck)). cbn [mbind result_bind] in Hcheck.
    apply bind_Ok in Hcheck as (j & _ & Hcheck). destruct j as [| | | | | |items]; try done.
    apply bind_Ok in Hcheck as ([] & _ & ([] & He%raise_if_Ok%negb_false_iff%str_eqb_spec & _)%bind_Ok). by rewrite Hsha.
  - exists members. split_and!; try done; [by apply read_archive_members|].
    destruct (json_is _ _); [by left|right; by exists report].
Qed.

(** ** Bundles of trove reports *)

Section trove_bundles.
Context `{UnicodeTables} `{UnicodeLower} `{UnicodeNormal} `{ReportResources}.
Context (Hnfc : forall s, Forall printable s -> nfc s = s).
Context (Hvalidate : forall name d, json_plain d = true -> validate name (json_arranged unicode_style d) = validate name d).
Context (Hdependencies : runtime_dependencies <> []) (Habi : forall name, packaged_abi name <> []).

Lemma rebuild_trove_members_ext members members' :
  (forall name, name <> u "manifest.json" -> member members name = member members' name) ->
  rebuild_trove_members members = rebuild_trove_members members'.
Proof. intros Hm. unfold rebuild_trove_members. by rewrite !Hm. Qed.

Lemma trove_well_built capture request built :
  json_plain capture = true -> request_ok request -> build_trove_report capture request = Ok built -> well_built built.
Proof using Habi Hdependencies Hnfc Hvalidate.
  intros Hp Hreq Hb. destruct (build_trove_report_Ok _ _ _ Hp Hreq Hb) as [_ Hm]. apply bm_ascii in Hm as Ha.
  destruct (trove_bundle_members _ _ _ Hb) as (algorithm & raw & calls & Hmembers & Halg & Hdep & Hbytes & [j Hj] & [k Hk] & d & Hd & _).
  assert (map fst (bundle_members built) = map u ["report.json"; "algorithm.json"; "runtime-dependencies.txt";
            "mezo-troves/capture.json"; "mezo-troves/calls.json"]%string ++ map (fun name => u "mezo-troves/" ++ name) TROVE_ABIS)
    as Hnames by by rewrite Hmembers.
  split; try (rewrite Hmembers; reflexivity).
  - by exists d.
  - by apply ascii_plain.
  - by apply ascii_strings.
  - done.
  - rewrite Hnames. apply (bool_decide_unpack _). vm_compute. exact I.
  - rewrite Hnames. apply (bool_decide_unpack _). vm_compute. exact I.
  - rewrite Hmembers, Hdep. apply canonical_nonempty in Halg, Hbytes, Hj, Hk. cbn [app map TROVE_ABIS].
    by repeat (constructor; [cbn [snd]; auto|]).
Qed.

Lemma trove_bundle_verified capture request built raw expected :
  json_plain capture = true -> require_strings capture = Ok tt -> request_ok request ->
  build_trove_report capture request = Ok built -> build_bundle built = Ok raw -> byte_list raw ->
  match expected with Some sha => sha = br_report_sha256 built | None => True end ->
  verify_bundle_bytes raw expected = Ok built.
Proof using Habi Hdependencies Hnfc Hvalidate.
  intros Hp Hs Hreq Hb Hbundle Hraw Hexp. pose proof (trove_well_built _ _ _ Hp Hreq Hb) as Hwell.
  destruct (build_bundle_Ok _ _ Hwell Hbundle) as (Hsha & manifest & Hvalid & Hmanifest & Hzip).
  apply (bundle_verifies Hnfc Hvalidate built raw Hwell Hraw manifest Hsha Hmanifest Hvalid Hzip expected Hbundle Hexp).
  intros items Hitems. destruct (build_trove_report_Ok _ _ _ Hp Hreq Hb) as [_ Hm]. apply bm_ascii, ascii_plain in Hm.
  destruct (trove_bundle_members _ _ _ Hb) as (_ & _ & _ & _ & _ & _ & _ & _ & _ & d & Hd & Hschema).
  assert (json_get (u "schema") items = JStr (u "liqvera-trove-risk-report/v1")) as ->.
  { rewrite Hd in Hitems, Hm. change (json_arranged unicode_style (JDict d)) with (JDict (arranged_items unicode_style d)) in Hitems.
    assert (items = arranged_items unicode_style d) as -> by congruence. unfold json_get in *. rewrite arranged_assoc.
    - destruct (assoc _ d); [|done]. cbn. by rewrite Hschema.
    - cbn [json_plain] in Hm. apply andb_true_iff in Hm as [Hm _]. by apply bool_decide_eq_true in Hm. }
  cbn [json_is]. rewrite str_eqb_refl, (rebuild_trove_members_ext _ (bundle_members built)).
  - by apply (trove_report_rebuilds Hnfc Hvalidate capture request).
  - intros name Hname. unfold member. rewrite (archived_assoc built Hwell). rewrite assoc_app. cbn [assoc]. rewrite decide_False by done. by destruct (assoc name _).
Qed.
End trove_bundles.

(** C39: what [build_bundle] makes of a trove report verifies, and its verification returns
    that report down to every byte, whatever the hash a caller expects is left out or
    its own: of every capture that is decoded text, of every request, as long as normal
    form C leaves ASCII alone and a schema does not see the order of the keys. *)
Theorem trove_bundle_verifies `{UnicodeTables} `{UnicodeLower} `{UnicodeNormal} `{ReportResources}
    capture request built raw expected :
  (forall s, Forall printable s -> nfc s = s) ->
  (forall name d, json_plain d = true -> validate name (json_arranged unicode_style d) = validate name d) ->
  runtime_dependencies <> [] -> (forall name, packaged_abi name <> []) ->
  json_plain capture = true -> require_strings capture = Ok tt -> request_ok request ->
  build_trove_report capture request = Ok built -> build_bundle built = Ok raw -> byte_list raw ->
  match expected with Some sha => sha = br_report_sha256 built | None => True end ->
  verify_bundle_bytes raw expected = Ok built.
Proof. intros Hnfc Hvalidate Hdep Habi. by apply trove_bundle_verified. Qed.

(** ** A bundle of the demonstration capture *)

Definition bytes_ok (raw : bytes) : bool := forallb (fun c => (0 <=? c) && (c <? 256)) raw.

Lemma bytes_ok_list raw : bytes_ok raw = true -> byte_list raw.
Proof.
  intros Hb. apply Forall_forall. intros c Hc%list_elem_of_In. unfold bytes_ok in Hb. rewrite forallb_forall in Hb.
  apply Hb, andb_true_iff in Hc as [?%Z.leb_le ?%Z.ltb_lt]. done.
Qed.

Lemma demo_trove_bundle_ok : exists built raw,
  build_trove_report (H1 := demo_resources) demo_trove_capture demo_request = Ok built /\
  build_bundle (H2 := demo_resources) built = Ok raw /\ byte_list raw.
Proof.
  destruct (both_satisfy (build_trove_report (H1 := demo_resources) demo_trove_capture demo_request)
              (build_bundle (H2 := demo_resources)) bytes_ok) as (built & raw & Hb & Hz & Hraw); [vm_compute; reflexivity|].
  exists built, raw. split; [exact Hb|]. split; [exact Hz|]. by apply bytes_ok_list.
Qed.

Lemma trove_bundle_verifies_witness : exists built raw,
  build_trove_report (H1 := demo_resources) demo_trove_capture demo_request = Ok built /\
  verify_bundle_bytes (H1 := demo_normal) (H2 := demo_resources) raw (Some (br_report_sha256 built)) = Ok built.
Proof.
  destruct demo_trove_bundle_ok as (built & raw & Hb & Hz & Hraw). exists built, raw. split; [exact Hb|].
  refine (trove_bundle_verifies (H1 := demo_normal) (H2 := demo_resources) demo_trove_capture demo_request built raw
            (Some (br_report_sha256 built)) _ demo_validate _ _ _ _ _ Hb Hz Hraw eq_refl).
  - reflexivity.
  - discriminate.
  - discriminate.
  - vm_compute. reflexivity.
  - vm_compute. reflexivity.
  - split; [vm_compute; split; [discriminate|reflexivity]|vm_compute; reflexivity].
Defined.

Lemma verify_bundle_sound_witness : exists built raw,
  verify_bundle_bytes (H1 := demo_normal) (H2 := demo_resources) raw None = Ok built /\
  build_bundle (H2 := demo_resources) built = Ok raw.
Proof.
  destruct demo_trove_bundle_ok as (built & raw & Hb & Hz & Hraw). exists built, raw.
  assert (verify_bundle_bytes (H1 := demo_normal) (H2 := demo_resources) raw None = Ok built) as Hv.
  { refine (trove_bundle_verified (H1 := demo_normal) (H2 := demo_resources) _ demo_validate _ _
              demo_trove_capture demo_request built raw None _ _ _ Hb Hz Hraw I).
    - reflexivity.
    - discriminate.
    - discriminate.
    - vm_compute. reflexivity.
    - vm_compute. reflexivity.
    - split; [vm_compute; split; [discriminate|reflexivity]|vm_compute; reflexivity]. }
  split; [exact Hv|]. exact (proj1 (verify_bundle_sound (H1 := demo_normal) (H2 := demo_resources) raw None built Hv)).
Defined.
