(* ===== verification/ReportText.v ===== *)
(** * The texts of a snapshot report

    Every text of a report on an inspected input is in normal form C, nothing in it is a
    float and no object of it repeats a key: the mapping of its book is the one the
    policy prescribes, whatever reader decodes it; its times, its figures and its digests
    are printable ASCII; and what it takes over from the input as it is, the strict
    decoder has read. *)

From S2P Require Import Prelude PyStr Num PyObj Json JsonRoundtrip Bytes ByteLaws Exact Market Provenance Decision Evidence Reconstruction Identity Vwap.
From S2P Require Import Calculation Calendar EvidenceIo Documents Decoded MezoDex DexReport TroveReport FrozenPackage Verdict Package SealedInput Report Bundle.
From Stdlib Require Import QArith Qcanon.
Open Scope Z_scope.

(** ** One document for both decoders *)

Lemma scan_number_default neg s x : scan_number strict_hooks neg s = Ok x -> scan_number default_hooks neg s = Ok x.
Proof.
  unfold scan_number. destruct s as [|c t]; [done|].
  destruct (if (49 <=? c) && (c <=? 57) then _ else _) as [whole r1]. destruct whole as [|w whole]; [done|].
  destruct (match r1 with 46 :: t => _ | _ => _ end) as [frac r2].
  match goal with |- (let '(exp, r) := ?m in _) = _ -> _ => destruct m as [exp r3] end.
  destruct frac, exp; done.
Qed.

Lemma scan_constant_default s m x :
  scan_constant strict_hooks s = Some m -> m = Ok x -> scan_constant default_hooks s = Some (Ok x).
Proof.
  unfold scan_constant. intros Hm ->. repeat (case_match; [first [done|by injection Hm as Hm]|]). done.
Qed.

Lemma scan_constant_none s : scan_constant strict_hooks s = None -> scan_constant default_hooks s = None.
Proof. unfold scan_constant. by repeat case_match. Qed.

(** What the strict hooks accept, the default ones read as the same value. *)
Lemma scan_default fuel :
  (forall s x, scan_value strict_hooks fuel s = Ok x -> scan_value default_hooks fuel s = Ok x) /\
  (forall s x, scan_items strict_hooks fuel s = Ok x -> scan_items default_hooks fuel s = Ok x) /\
  (forall s x, scan_pairs strict_hooks fuel s = Ok x -> scan_pairs default_hooks fuel s = Ok x).
Proof.
  induction fuel as [|fuel (IHv & IHi & IHp)]; [done|]. split_and!; intros s x.
  - cbn [scan_value]. destruct s as [|c t]; [done|]. destruct (c =? 34); [done|]. destruct (c =? 91).
    { destruct (skip_space t) as [|d r]; [done|]. destruct (d =? 93); [done|]. intros (v & Hv & Hx)%bind_Ok. by rewrite (IHi _ _ Hv). }
    destruct (c =? 123).
    { destruct (skip_space t) as [|d r]; [done|]. destruct (d =? 125); [done|]. intros ([ps r'] & Hv & Hx)%bind_Ok.
      rewrite (IHp _ _ Hv). cbn [mbind result_bind]. apply bind_Ok in Hx as (d' & [-> Hnd]%strict_pairs_Ok & Hx).
      by rewrite default_hooks_pairs. }
    destruct (scan_constant strict_hooks (c :: t)) as [m|] eqn:Ec.
    { intros Hm. by rewrite (scan_constant_default _ _ _ Ec Hm). }
    rewrite (scan_constant_none _ Ec). destruct (c =? 45); apply scan_number_default.
  - cbn [scan_items]. intros ([v r] & Hv & Hx)%bind_Ok. rewrite (IHv _ _ Hv). cbn [mbind result_bind].
    destruct (skip_space r) as [|c t]; [done|]. destruct (c =? 93); [done|]. destruct (c =? 44); [|done].
    apply bind_Ok in Hx as (l & Hl & Hx). by rewrite (IHi _ _ Hl).
  - cbn [scan_pairs]. destruct s as [|c t]; [done|]. destruct (c =? 34); [|done].
    intros ([k r] & Hk & Hx)%bind_Ok. rewrite Hk. cbn [mbind result_bind]. destruct (skip_space r) as [|d t']; [done|].
    destruct (d =? 58); [|done]. apply bind_Ok in Hx as ([v r'] & Hv & Hx). rewrite (IHv _ _ Hv). cbn [mbind result_bind].
    destruct (skip_space r') as [|d' t'']; [done|]. destruct (d' =? 125); [done|]. destruct (d' =? 44); [|done].
    apply bind_Ok in Hx as (l & Hl & Hx). by rewrite (IHp _ _ Hl).
Qed.

Lemma loads_default s j : json_loads_with strict_hooks s = Ok j -> json_loads s = Ok j.
Proof.
  unfold json_loads, json_loads_with.
  assert (forall m n : result json, (m = Ok j -> n = Ok j) ->
    match s with 65279 :: _ => json_error | _ => m end = Ok j -> match s with 65279 :: _ => json_error | _ => n end = Ok j) as Hm.
  { intros m n. destruct s as [|c t]; [done|]. destruct c as [|p|p]; try done. do 16 (destruct p as [p|p|]; try done). }
  apply Hm. intros (v & Hv & Hj)%bind_Ok. by rewrite (proj1 (scan_default _) _ _ Hv).
Qed.

Lemma strict_json_loads `{UnicodeNormal} raw j : strict_json raw = Ok j -> exists text, decode_utf8 raw = Ok text /\ json_loads text = Ok j.
Proof.
  unfold strict_json. intros [(text & Ht & (j' & Hj & ([] & _ & [= <-])%bind_Ok)%bind_Ok)%bind_Ok|(e & _ & He)]%try_except_Ok; [|done].
  exists text. split; [done|]. by apply loads_default.
Qed.

(** ** The identifier of a package *)

Lemma int_digit_16 c d : int_digit 16 c = Some d -> 0 <= d < 16.
Proof.
  unfold int_digit. destruct (Unicode.decimal c) as [d'|] eqn:Edec.
  - intros [= ->]. unfold Unicode.decimal in Edec. destruct (Unicode.in_run c 48) eqn:Er.
    + injection Edec as <-. unfold Unicode.in_run in Er. reflect_bools. lia.
    + destruct (List.find _ _) as [start|] eqn:Ef; [|done]. injection Edec as <-.
      apply find_some in Ef as [_ Er2]. unfold Unicode.in_run in Er2. reflect_bools. lia.
  - cbn. intros Ed. repeat (case_match; try done); simplify_eq; reflect_bools; lia.
Qed.

(** Hexadecimal digits: no more than there are characters. *)
Lemma int_digits_16 s ds : int_digits 16 s = Some ds -> Forall (fun d => 0 <= d < 16) ds /\ (length ds <= length s)%nat.
Proof.
  remember (length s) as n eqn:En. revert s En ds. induction (lt_wf n) as [n _ IH]. intros [|c t] -> ds; [done|]. cbn [int_digits].
  destruct (int_digit 16 c) as [d|] eqn:Ed; [|done]. apply int_digit_16 in Ed. cbn [mbind option_bind].
  assert (forall s', (length s' < length (c :: t))%nat -> (ds' ← int_digits 16 s'; Some (d :: ds')) = Some ds ->
    Forall (fun d => 0 <= d < 16) ds /\ (length ds <= length (c :: t))%nat) as Hrec.
  { intros s' Hl. destruct (int_digits 16 s') as [ds'|] eqn:E; [|done]. intros [= <-].
    destruct (IH _ Hl s' eq_refl ds' E) as [Hf Hn]. split; [by constructor|]. cbn [length] in *. lia. }
  destruct t as [|c' t']; [intros [= <-]; split; [by constructor|cbn; lia]|].
  repeat case_match; apply Hrec; cbn [length]; lia.
Qed.

Lemma split_sign_spec s : (length (snd (split_sign s)) <= length s)%nat /\ (fst (split_sign s) = 1 \/ fst (split_sign s) = -1).
Proof. destruct s as [|c t]; [split; [done|by left]|]. unfold split_sign. repeat (case_match; cbn [fst snd length]); split; (lia || by (left + right)). Qed.

Lemma uuid_parse_range s n : uuid_parse s = Ok n -> uuid_range n.
Proof.
  unfold uuid_parse. set (hex := List.filter _ _).
  intros ([] & Hlen%raise_if_Ok%negb_false_iff%Nat.eqb_eq & (z & Hz & ([] & Hneg%raise_if_Ok%Z.ltb_ge & [= <-])%bind_Ok)%bind_Ok)%bind_Ok.
  split; [done|]. unfold py_int in Hz.
  assert (length (strip_by int_space hex) <= 32)%nat as Hs.
  { rewrite <- Hlen. unfold strip_by. rewrite length_rev. etransitivity; [apply drop_while_length|]. rewrite length_rev. apply drop_while_length. }
  destruct (split_sign_spec (strip_by int_space hex)) as [Ht Hsign].
  destruct (split_sign (strip_by int_space hex)) as [sign t]. cbn [fst snd] in *. change (16 =? 16) with true in Hz. cbv iota in Hz.
  assert (length (skip_hex_prefix t) <= length t)%nat as Hp by (unfold skip_hex_prefix; repeat (case_match; cbn [length]; try lia)).
  destruct (int_digits 16 (skip_hex_prefix t)) as [ds|] eqn:Ed; [|done]. injection Hz as <-. apply int_digits_16 in Ed as [Hf Hn].
  pose proof (of_digits_bound 16 ltac:(lia) ds Hf) as Hb.
  assert (16 ^ Z.of_nat (length ds) <= 16 ^ 32) as Hpow by (apply Z.pow_le_mono_r; lia).
  change (16 ^ 32) with (2 ^ 128) in Hpow. destruct Hsign as [-> | ->]; lia.
Qed.

(** ** The mapping of the policy *)

Section report_texts.
Context `{UnicodeTables} `{UnicodeLower} `{UnicodeNormal} `{ReportResources}.
Context (Hnfc : forall s, Forall printable s -> nfc s = s).

(** A document that canonical bytes give back. *)
Definition clean (j : json) : Prop := json_plain j = true /\ require_strings j = Ok tt.

Lemma ascii_clean j : ascii_document j = true -> clean j.
Proof using Hnfc. intros Ha. split; [by apply ascii_plain|by apply ascii_strings]. Qed.

Lemma clean_item d k x : clean (JDict d) -> assoc k d = Some x -> clean x.
Proof.
  intros [Hp Hs] Hx. split; [by eapply plain_dict|]. cbn [require_strings] in Hs. rewrite require_all_Ok, Forall_forall in Hs.
  apply assoc_elem, Hs in Hx. by apply bind_Ok in Hx as ([] & _ & Hx).
Qed.

Lemma clean_list l x : clean (JList l) -> x ∈ l -> clean x.
Proof.
  intros [Hp Hs] Hx. cbn [json_plain require_strings] in *. rewrite require_all_Ok, Forall_forall in Hs. rewrite forallb_forall in Hp.
  split; [by apply Hp, list_elem_of_In|by apply Hs].
Qed.

Lemma clean_subscript k j x : clean j -> subscript k j = Ok x -> clean x.
Proof.
  destruct j as [| | | | | |d]; try done. intros Hj Hx. apply (clean_item d k x Hj). cbn [subscript] in Hx. unfold json_item in Hx.
  destruct (assoc k d); [by injection Hx as ->|done].
Qed.

(** An object of clean members under distinct ASCII names. *)
Lemma clean_dict d :
  NoDup (map fst d) -> (forall k x, (k, x) ∈ d -> ascii_text k = true /\ clean x) -> clean (JDict d).
Proof using Hnfc.
  intros Hnd Hd. split.
  - cbn [json_plain]. apply andb_true_iff. split; [by apply bool_decide_eq_true|]. apply forallb_forall. intros [k x] Hin%list_elem_of_In.
    destruct (Hd k x Hin) as [Hk [Hx _]]. cbn [fst snd]. rewrite Hx, andb_true_r. apply (ascii_plain (JStr k) Hk).
  - cbn [require_strings]. apply require_all_Ok, Forall_forall. intros [k x] Hin. destruct (Hd k x Hin) as [Hk [_ Hx]]. cbn [fst snd].
    pose proof (ascii_strings Hnfc (JStr k) Hk) as Ht. cbn [require_strings] in Ht. by rewrite Ht.
Qed.

Lemma canonical_same j k b :
  clean j -> clean k -> Canonical.canonical_json_bytes j = Ok b -> Canonical.canonical_json_bytes k = Ok b ->
  json_arranged unicode_style j = json_arranged unicode_style k.
Proof. intros [Hj Hj'] [Hk Hk'] Hb Hb2. pose proof (strict_json_canonical j b Hj Hj' Hb) as E. rewrite (strict_json_canonical k b) in E by done. congruence. Qed.

(** The items of two documents that are arranged alike. *)
Lemma arranged_alike d e k x :
  json_plain (JDict d) = true -> json_plain (JDict e) = true -> json_arranged unicode_style (JDict d) = json_arranged unicode_style (JDict e) ->
  json_item k d = Ok x -> exists y, json_item k e = Ok y /\ json_arranged unicode_style x = json_arranged unicode_style y /\
    json_plain x = true /\ json_plain y = true.
Proof.
  intros Hd He E Hx. apply (f_equal (subscript k)) in E.
  destruct (subscript_arranged unicode_style k (JDict d) x Hd Hx) as [Hx' Hpx]. rewrite Hx' in E.
  destruct (json_item k e) as [y|err] eqn:Ey.
  - destruct (subscript_arranged unicode_style k (JDict e) y He Ey) as [Hy' Hpy]. exists y. rewrite Hy' in E. by injection E.
  - exfalso. change (Ok (json_arranged unicode_style x) = json_item k (arranged_items unicode_style e)) in E.
    unfold json_item in E, Ey. rewrite arranged_assoc in E by by apply plain_dict in He as [Hnd _].
    destruct (assoc k e); [done|]. discriminate E.
Qed.

Lemma quantity_step_ascii n : ascii_text (quantity_step_text n) = true.
Proof. unfold quantity_step_text. destruct (n =? 0); [done|]. apply (ascii_app (u "0.")); [done|]. apply ascii_app; [apply zeros_ascii|done]. Qed.

Lemma policy_ascii id version reference evidence step tick digits :
  ascii_text id = true -> ascii_text version = true -> ascii_text reference = true -> ascii_text step = true ->
  ascii_document tick = true -> ascii_document digits = true ->
  ascii_document (policy_mapping id version reference evidence step tick digits) = true.
Proof.
  intros Hid Hv Hr Hs Ht Hd. unfold policy_mapping. cbn [ascii_document app]. apply andb_true_iff. split; [vm_compute; reflexivity|].
  unfold texts. cbn [map app forallb fst snd ascii_document]. rewrite Hid, Hv, Hr, Hs, Ht, Hd, digest_ascii. vm_compute. reflexivity.
Qed.

Lemma mapping_init_identity id version dec venue symbol identity sha reference from until multiplier
    size_unit step tick decimals digits min_qty notional lighter_index m :
  mapping_init id version dec venue symbol identity sha reference from until multiplier
    size_unit step tick decimals digits min_qty notional lighter_index = Ok m ->
  mm_identity m = identity.
Proof. unfold mapping_init. intros Hm. repeat (apply bind_Ok in Hm as (? & _ & Hm)). by injection Hm as <-. Qed.

(** A mapping that passes the policy settles in USDC. *)
Lemma policy_settlement evidence source mapping expected_source id version reference step tick digits m :
  check_policy evidence source mapping expected_source (policy_mapping id version reference evidence step tick digits) = Ok tt ->
  clean mapping -> ascii_document (policy_mapping id version reference evidence step tick digits) = true ->
  mapping_from_document mapping = Ok m -> settlement_asset (mm_identity m) = u "USDC" /\ mapping_wf m.
Proof using Hnfc.
  intros Hc Hclean Hascii Hm. unfold check_policy in Hc.
  apply bind_Ok in Hc as ([] & _ & (encoded & _ & ([] & _ & (given & Hg & (expected & He & Hsame)%bind_Ok)%bind_Ok)%bind_Ok)%bind_Ok).
  unfold unverified, reject_if in Hsame. apply raise_if_Ok, negb_false_iff, str_eqb_spec in Hsame. subst expected.
  pose proof (canonical_same _ _ _ Hclean (ascii_clean _ Hascii) Hg He) as Halike.
  destruct mapping as [| | | | | |row]; try discriminate Hm. unfold mapping_from_document in Hm.
  apply bind_Ok in Hm as ([] & _ & (identity & Hident & (doc & Hdoc & (i & Hi & Hm)%bind_Ok)%bind_Ok)%bind_Ok).
  do 20 (apply bind_Ok in Hm as (? & _ & Hm)). pose proof (mapping_init_identity _ _ _ _ _ _ _ _ _ _ _ _ _ _ _ _ _ _ _ _ Hm) as ->.
  apply mapping_init_Ok in Hm as Hwf. split; [|exact Hwf].
  unfold policy_mapping in Halike, Hascii. destruct (arranged_alike _ _ _ _ (proj1 Hclean) (ascii_plain _ Hascii) Halike Hident)
    as (y & Hy & Hal & Hpx & Hpy). injection Hy as <-.
  unfold require_exact_keys in Hdoc. destruct identity as [| | | | | |idoc]; try discriminate Hdoc. apply bind_Ok in Hdoc as ([] & _ & [= <-]).
  unfold identity_from_document in Hi.
  do 3 (apply bind_Ok in Hi as (? & _ & Hi)). apply bind_Ok in Hi as (s & (sj & Hsj & Hs)%bind_Ok & (? & _ & [= <-])%bind_Ok).
  destruct (arranged_alike _ _ _ _ Hpx Hpy Hal Hsj) as (z & Hz & Hal2 & _ & _). injection Hz as <-.
  assert (sj = JStr (u "USDC")) as -> by by apply (text_arranged unicode_style). by injection Hs as <-.
Qed.

(** ** The mapping of an inspected input *)

Abbreviation MAPPING := (u "mapping_snapshot.json").

(** The mapping document of the input, with the one mapping that the policy admits. *)
Definition mapped (members : list (pystr * bytes)) (mapping : json) : Prop :=
  exists raw d, assoc MAPPING members = Some raw /\ strict_json raw = Ok (JDict d) /\ keys_equal d [u "mappings"] = true /\
    json_get (u "mappings") d = JList [mapping].

(** It is of the policy of either mode. *)
Definition of_policy (mapping : json) : Prop :=
  exists evidence source expected_source id version reference step tick digits,
    check_policy evidence source mapping expected_source (policy_mapping id version reference evidence step tick digits) = Ok tt /\
    ascii_document (policy_mapping id version reference evidence step tick digits) = true.

Lemma check_mapping_Ok members mode capture decimals :
  check_mapping members mode capture decimals = Ok tt -> exists mapping, mapped members mapping /\ of_policy mapping.
Proof.
  unfold check_mapping. intros (document & (raw & Hraw%member_Ok & Hdoc)%bind_Ok & (d & [-> Hkeys]%object_keys_Ok & (mapping & Hm & Hc)%bind_Ok)%bind_Ok)%bind_Ok.
  destruct (json_get (u "mappings") d) as [| | | | |[|x [|]]|] eqn:Hl; try done. injection Hm as ->.
  exists mapping. split; [by exists raw, d|].
  apply bind_Ok in Hc as (_ & _ & (evidence & _ & (source & _ & Hc)%bind_Ok)%bind_Ok). destruct (json_is mode (u "live-public")).
  - apply bind_Ok in Hc as (metadata & _ & (book & _ & Hc)%bind_Ok). do 9 eexists. split; [exact Hc|].
    apply policy_ascii; try (vm_compute; reflexivity). apply quantity_step_ascii.
  - apply bind_Ok in Hc as (status & _ & ([] & _ & Hc)%bind_Ok). do 9 eexists. split; [exact Hc|].
    by apply policy_ascii; vm_compute.
Qed.

Lemma inspected_mapping members ev :
  inspect_members members = Ok ev -> exists mapping, mapped members mapping /\ of_policy mapping.
Proof.
  intros [Hi|(e & _ & He)]%try_except_Ok; [|by destruct (bool_decide _)]. unfold inspect in Hi.
  do 9 (apply bind_Ok in Hi as (? & _ & Hi)). apply bind_Ok in Hi as (received & Hs & _).
  unfold check_sources in Hs. apply bind_Ok in Hs as (responses & _ & ([mt rs] & _ & Hs)%bind_Ok).
  do 12 (apply bind_Ok in Hs as (? & _ & Hs)). apply bind_Ok in Hs as ([] & Hm & _). by eapply check_mapping_Ok.
Qed.

(** *** The frozen reader reads it back *)

Lemma write_path_other n raw d : head (str_split 47 n) <> Some MAPPING -> assoc MAPPING (write_path n raw d) = assoc MAPPING d.
Proof.
  unfold write_path. destruct (str_split 47 n) as [|p ps]; [done|]. intros Hne. assert (p <> MAPPING) as Hp by (intros ->; by apply Hne).
  destruct ps; cbn [write_parts]; by rewrite assoc_set_other by (by intros E; apply Hp).
Qed.

Lemma write_members_mapping members d :
  Forall (fun n => n <> MAPPING -> head (str_split 47 n) <> Some MAPPING) (map fst members) -> NoDup (map fst members) ->
  assoc MAPPING (write_members members d) = match assoc MAPPING members with Some raw => Some (File raw) | None => assoc MAPPING d end.
Proof.
  intros Hn Hnd. revert d. induction members as [|[n raw] members IH]; intros d; [done|].
  apply Forall_cons in Hn as [Hn Hns]. apply NoDup_cons in Hnd as [Hnew Hnd]. cbn [write_members fold_left fst snd] in *.
  change (fold_left (fun d m => write_path (fst m) (snd m) d) members (write_path n raw d)) with (write_members members (write_path n raw d)).
  rewrite IH by done. cbn [assoc]. case_decide as Heq.
  - subst n. destruct (assoc MAPPING members) as [raw'|] eqn:E; [by apply assoc_key in E|]. apply assoc_set_same.
  - rewrite write_path_other by (apply Hn; congruence). done.
Qed.

(** The names that an input may have. *)
Definition INPUT_NAMES : list pystr := BASE_MEMBERS ++ map u ["source/mapping-evidence.json"; "source/mezo-dex.json"]%string.

Lemma input_name members ev n : inspect_members members = Ok ev -> n ∈ map fst members -> n ∈ INPUT_NAMES.
Proof.
  intros Hi%inspect_members_Ok. rewrite (in_names _ _ Hi). unfold INPUT_NAMES. rewrite !elem_of_app. intros [Hn|[-> _]]; [set_solver|].
  right. right. left.
Qed.

Lemma input_paths members ev :
  inspect_members members = Ok ev -> Forall (fun n => n <> MAPPING -> head (str_split 47 n) <> Some MAPPING) (map fst members).
Proof.
  intros Hi. apply Forall_forall. intros n Hn%(input_name _ _ _ Hi) Hne.
  assert (forallb (fun n => str_eqb n MAPPING || negb (bool_decide (head (str_split 47 n) = Some MAPPING))) INPUT_NAMES = true) as Hall
    by (vm_compute; reflexivity).
  rewrite forallb_forall in Hall. apply list_elem_of_In, Hall, orb_true_iff in Hn as [Heq%str_eqb_spec|Hh%negb_true_iff%bool_decide_eq_false]; done.
Qed.

(** A reader has the directory it was given, and the identifier it parsed. *)
Lemma reader_run root r : reader_init root = Ok r -> root = Some (Directory (rd_root r)) /\ uuid_range (rd_run_id r).
Proof.
  unfold reader_init, frozen_error. intros ([d b] & [-> _]%open_manifest_Ok & (j & _ & Hr)%bind_Ok)%bind_Ok.
  destruct j as [| | | | | |document]; try done. apply bind_Ok in Hr as ([] & _ & Hr).
  destruct (json_get (u "manifest_sha256") document); try done. apply bind_Ok in Hr as ([] & _ & (signed & _ & ([] & _ & Hr)%bind_Ok)%bind_Ok).
  destruct (json_get (u "members") document) as [| | | | |[|x xs]|]; try done.
  apply bind_Ok in Hr as (declared & _ & ([] & _ & (found & _ & ([] & _ & Hr)%bind_Ok)%bind_Ok)%bind_Ok).
  apply bind_Ok in Hr as ([] & _ & (run & Hrun & [= <-])%bind_Ok). split; [done|].
  apply try_except_Ok in Hrun as [Hrun|(e & _ & He)]; [|done]. apply bind_Ok in Hrun as (y & _ & (text & _ & Hrun)%bind_Ok).
  by apply uuid_parse_range in Hrun.
Qed.

(** The mappings that the reader of the members decodes are those of the document. *)
Lemma read_mapping members ev mapping r snapshot :
  inspect_members members = Ok ev -> NoDup (map fst members) -> mapped members mapping ->
  reader_init (Some (Directory (write_members members []))) = Ok r -> read_mapping_snapshot r (rd_run_id r) = Ok snapshot ->
  exists m, mapping_from_document mapping = Ok m /\ mappings snapshot = [m].
Proof.
  intros Hi Hnd (raw & d & Hraw & Hdoc & Hkeys & Hl) Hr Hs.
  destruct (reader_run _ _ Hr) as [[= Hroot] _].
  unfold read_mapping_snapshot in Hs. apply bind_Ok in Hs as ([] & _ & (raw' & Hread & Hs)%bind_Ok).
  assert (raw' = raw) as ->.
  { unfold read_bytes, lookup_path in Hread. rewrite <- Hroot in Hread. change (str_split 47 MAPPING) with [MAPPING] in Hread. cbn [lookup_parts] in Hread.
    rewrite write_members_mapping, Hraw in Hread by (done || by eapply input_paths). by injection Hread. }
  destruct (strict_json_loads raw (JDict d) Hdoc) as (text & Htext & Hloads). rewrite Htext in Hs. cbn [mbind result_bind try_except] in Hs.
  rewrite Hloads in Hs. cbn [mbind result_bind try_except require_exact_keys] in Hs. rewrite Hkeys in Hs. cbn [negb frozen_if raise_if mbind result_bind] in Hs.
  unfold json_item, json_get in *. destruct (assoc (u "mappings") d) as [rows|]; [|done]. subst rows. cbn [mbind result_bind] in Hs.
  apply bind_Ok in Hs as (ms & Hms & Hs). apply try_except_Ok in Hms as [Hms|(? & _ & Hms)]; [|done].
  apply mapR_Ok in Hms. apply Forall2_cons_inv_l in Hms as (m & ms' & Hm & Hms & ->). apply Forall2_nil_inv_l in Hms as ->.
  exists m. split; [exact Hm|]. unfold mapping_snapshot_init in Hs. apply bind_Ok in Hs as (? & _ & [= <-]). done.
Qed.

(** ** The book and the decision of an inspected input *)

Lemma candidate_of ms b l m : candidates ms b = Ok l -> m ∈ l -> m ∈ ms /\ is_candidate m b = true.
Proof.
  unfold candidates, lighter_candidates, bind_reject. intros Hl Hm.
  assert (forall p, m ∈ List.filter (fun m => is_candidate m b && p m) ms -> m ∈ ms /\ is_candidate m b = true) as Hf.
  { intros p Hp. by apply list_elem_of_In, filter_In in Hp as [Hp%list_elem_of_In [Hc _]%andb_true_iff]. }
  destruct (str_eqb _ _); inv_ok.
  - destruct (channel b); inv_ok. destruct (List.filter _ ms) eqn:E in Hm; [by apply (Hf (fun m => bool_decide (lighter_market_index m = None)))|].
    rewrite <- E in Hm. by apply (Hf (fun m => bool_decide (lighter_market_index m = Some _))) in Hm.
  - by apply list_elem_of_In, filter_In in Hm as [Hm%list_elem_of_In Hc].
Qed.

Lemma bind_book_Ok ms b b' :
  bind_book ms b = Ok b' -> exists m, m ∈ ms /\ is_candidate m b = true /\ mapping b' = Some m /\ snapshot b' = snapshot b /\
    sha256_text (rb_payload_sha256 b') = true.
Proof.
  unfold bind_book, bind_reject. intros ([] & _ & (found & Hf & Hr)%bind_Ok)%bind_Ok. destruct found as [|m [|]]; try done.
  destruct (candidate_of _ _ _ m Hf) as [Hin Hc]; [by left|]. exists m. split; [done|]. split; [done|].
  unfold replace_mapping, reconstructed_book_init in Hr. do 3 (apply bind_Ok in Hr as ([] & _ & Hr)).
  apply bind_Ok in Hr as ([] & Hsha%raise_if_Ok%negb_false_iff & Hr). do 4 (apply bind_Ok in Hr as ([] & _ & Hr)). by injection Hr as <-.
Qed.

(** What is known of the mapping of the one book of an input. *)
Record policy_bound (book : ReconstructedBook) (m : MarketMappingEvidence) : Prop := {
  pb_mapping : mapping book = Some m;
  pb_wf : mapping_wf m;
  pb_settlement : settlement_asset (mm_identity m) = u "USDC";
  pb_payload : sha256_text (rb_payload_sha256 book) = true;
  pb_received : 0 <= received_timestamp_ms (snapshot book) }.

Lemma inspected_book members ev :
  inspect_members members = Ok ev -> NoDup (map fst members) -> (forall m, m ∈ members -> byte_list (snd m)) ->
  exists m, policy_bound (ii_book ev) m.
Proof using Hnfc.
  intros Hi Hnd Hbytes. destruct (inspected_mapping _ _ Hi) as (mapping & Hm & Hp).
  destruct (in_stage _ _ (inspect_members_Ok _ _ Hi)) as (stage & He & _). unfold evaluate_members in He. cbv zeta in He.
  apply bind_Ok in He as (r & Hr & (snapshot & Hs & (envelopes & _ & (books & _ & (bound & Hb & (stage' & _ & [= -> _])%bind_Ok)%bind_Ok)%bind_Ok)%bind_Ok)%bind_Ok).
  destruct (read_mapping members ev mapping r snapshot Hi Hnd Hm Hr Hs) as (m & Hdoc & Hms). rewrite Hms in Hb.
  unfold bind_reconstructed_books in Hb. apply mapR_Ok in Hb. apply Forall2_cons_inv_r in Hb as (b & bs & Hb & _ & _).
  apply bind_book_Ok in Hb as (m' & ->%list_elem_of_singleton & Hc & Hmap & Hsnap & Hsha).
  destruct Hm as (raw & d & Hraw & Hj & _ & Hl). destruct Hp as (evidence & source & es & id & version & reference & step & tick & digits & Hpol & Hascii).
  assert (clean mapping) as Hclean.
  { pose proof (strict_json_plain raw (JDict d) (Hbytes _ (assoc_elem _ _ _ Hraw)) Hj) as Hd.
    assert (assoc (u "mappings") d = Some (JList [mapping])) as Ha by (unfold json_get in Hl; by destruct (assoc _ d); [subst|]).
    apply (clean_list [mapping]); [by apply (clean_item d (u "mappings"))|left]. }
  destruct (policy_settlement _ _ _ _ _ _ _ _ _ _ m Hpol Hclean Hascii Hdoc) as [Hset Hwf].
  exists m. split; [exact Hmap|exact Hwf|exact Hset|exact Hsha|]. rewrite Hsnap. unfold is_candidate in Hc. apply andb_true_iff in Hc as [_ Hc].
  unfold is_current in Hc. apply andb_true_iff in Hc as [Hc%negb_true_iff%Z.ltb_ge _]. pose proof (proj1 (mw_interval _ Hwf)). lia.
Qed.

Lemma make_decision_shape d rs run stage :
  make_decision d rs run = Ok stage ->
  capture_run_id stage = run /\ schema stage = STAGE_A_DECISION_SCHEMA /\ package_schema stage = STAGE_A_PACKAGE_SCHEMA.
Proof.
  unfold make_decision, stage_a_decision_init. intros ([] & _ & (classes & _ & Hd)%bind_Ok)%bind_Ok.
  destruct (remove_dups classes) as [|c [|]]; try done. do 3 (apply bind_Ok in Hd as ([] & _ & Hd)). by injection Hd as <-.
Qed.

(** The decision names the package that was read, if any was. *)
Lemma evaluated_shape root stage :
  evaluate_frozen_package root = Ok stage ->
  (forall run, capture_run_id stage = Some run -> uuid_range run) /\
  schema stage = STAGE_A_DECISION_SCHEMA /\ package_schema stage = STAGE_A_PACKAGE_SCHEMA.
Proof.
  unfold evaluate_frozen_package, or_return, invalid. intros He.
  assert (forall run, (forall n, run = Some n -> uuid_range n) -> forall d rs, make_decision d rs run = Ok stage ->
    (forall run, capture_run_id stage = Some run -> uuid_range run) /\
    schema stage = STAGE_A_DECISION_SCHEMA /\ package_schema stage = STAGE_A_PACKAGE_SCHEMA) as Hd.
  { intros run Hrun d rs (Hr & Hshape)%make_decision_shape. split; [|done]. intros n. rewrite Hr. apply Hrun. }
  destruct (reader_init root) as [r|e] eqn:Er.
  2: { destruct (existsb _ _); [|done]. apply bind_Ok in He as (c & _ & He). by apply (Hd None) in He. }
  apply reader_run in Er as [_ Hrun]. assert (forall n, Some (rd_run_id r) = Some n -> uuid_range n) as Hsome by by intros n [= <-].
  destruct (read_inputs r (rd_run_id r)) as [i|e].
  2: { destruct (existsb _ _); [|done]. apply bind_Ok in He as (c & _ & He). by apply (Hd _ Hsome) in He. }
  destruct (bind_books i) as [x|e]; [|destruct (existsb _ _); [by apply (Hd _ Hsome) in He|done]].
  unfold with_economics, or_return, invalid in He. apply bind_Ok in He as (raw & _ & He).
  assert (forall economics, decide_gates i economics (rd_run_id r) = Ok stage ->
    (forall run, capture_run_id stage = Some run -> uuid_range run) /\
    schema stage = STAGE_A_DECISION_SCHEMA /\ package_schema stage = STAGE_A_PACKAGE_SCHEMA) as Hg.
  { intros economics. unfold decide_gates. destruct (insufficiency_reasons _ _ _ _); [|apply (Hd _ Hsome)].
    destruct economics as [e|]; [|done]. destruct (stop_reasons e); apply (Hd _ Hsome). }
  destruct raw as [raw|]; [|by eapply Hg]. destruct (decode_economics raw); [by eapply Hg|].
  destruct (existsb _ _); [by apply (Hd _ Hsome) in He|done].
Qed.

Lemma inspected_stage members ev : inspect_members members = Ok ev -> ascii_document (ii_stage_a ev) = true.
Proof.
  intros Hi%inspect_members_Ok. destruct (in_stage _ _ Hi) as (stage & He & ->). unfold evaluate_members in He. cbv zeta in He.
  apply bind_Ok in He as (r & _ & (snapshot & _ & (envelopes & _ & (books & _ & (bound & _ & (stage' & Hs & [= _ ->])%bind_Ok)%bind_Ok)%bind_Ok)%bind_Ok)%bind_Ok).
  apply evaluated_shape in Hs as (Hrun & Hsch & Hpkg). unfold stage_document. rewrite Hsch, Hpkg. cbn [ascii_document].
  apply andb_true_iff. split; [vm_compute; reflexivity|]. cbn [forallb fst snd ascii_document].
  assert (ascii_document match capture_run_id stage with Some run => JStr (uuid_str run) | None => JNull end = true) as ->.
  { destruct (capture_run_id stage) as [run|]; [|done]. by apply uuid_ascii, Hrun. }
  assert (ascii_text (decision_value (sd_decision stage)) = true) as -> by by destruct (sd_decision stage).
  assert (forallb ascii_document (map (fun r => JStr (reason_value r)) (Decision.reasons stage)) = true) as ->; [|vm_compute; reflexivity].
  apply forallb_forall. intros x (c & <- & _)%in_map_iff. by destruct c.
Qed.

(** ** The sections of the report *)

Lemma nonempty_ascii s : nonempty_ascii_text s = true -> ascii_text s = true.
Proof.
  intros [_ Hs]%andb_true_iff. unfold ascii_text. rewrite forallb_forall in *. intros c Hc%Hs. unfold printable_ascii in Hc.
  reflect_bools. rewrite !(proj2 (Z.leb_le _ _)) by lia. done.
Qed.

Lemma sha256_ascii s : sha256_text s = true -> ascii_text s = true.
Proof.
  intros [_ Hs]%andb_true_iff. apply lower_hex_ascii, Forall_forall. rewrite forallb_forall in Hs.
  intros c Hc%list_elem_of_In%Hs. unfold hexchar. apply orb_true_iff in Hc as [[?%Z.leb_le ?%Z.leb_le]%andb_true_iff|[?%Z.leb_le ?%Z.leb_le]%andb_true_iff]; lia.
Qed.

Lemma exact_str_ascii x : ascii_text (exact_str x) = true.
Proof. apply ascii_printable. eapply Forall_impl; [apply exact_str_chars|]. unfold printable. cbn. lia. Qed.

Lemma rational_ascii q j : rational q = Ok j -> ascii_document j = true.
Proof.
  unfold rational. intros (n & Hn%str_int_ascii & (d & Hd%str_int_ascii & [= <-])%bind_Ok)%bind_Ok.
  cbn [ascii_document]. apply andb_true_iff. split; [vm_compute; reflexivity|]. cbn [forallb fst snd ascii_document]. by rewrite Hn, Hd.
Qed.

(** A document whose members are ASCII, under the names of a list. *)
Lemma ascii_named d :
  bool_decide (NoDup (map fst d)) = true -> forallb ascii_text (map fst d) = true -> forallb ascii_document (map snd d) = true ->
  ascii_document (JDict d) = true.
Proof.
  intros Hnd Hk Hv. cbn [ascii_document]. rewrite Hnd. cbn [andb]. clear Hnd. induction d as [|[k x] d IH]; [done|].
  cbn [map forallb fst snd] in *. apply andb_true_iff in Hk as [-> Hk]. apply andb_true_iff in Hv as [-> Hv]. by apply IH.
Qed.

Lemma identity_ascii book m : policy_bound book m -> ascii_document (identity_section m) = true.
Proof.
  intros [_ Hwf Hset _ _]. pose proof (mw_texts _ Hwf) as Ht. rewrite !Forall_cons in Ht. destruct Ht as (_ & Hv%nonempty_ascii & _ & _ & Hr%nonempty_ascii & _).
  pose proof (sha256_ascii _ (mw_sha256 _ Hwf)) as Hs. unfold identity_section. rewrite Hset. apply ascii_named; [vm_compute; reflexivity..|].
  unfold texts. cbn [map app forallb fst snd ascii_document]. rewrite Hv, Hr, Hs. vm_compute. reflexivity.
Qed.

Lemma calculation_ascii quantity fill impact j : calculation_section quantity fill impact = Ok j -> ascii_document j = true.
Proof.
  unfold calculation_section, quantities. cbn [mapR fst snd]. intros Hj. inv_ok.
  repeat match goal with H : rational _ = Ok _ |- _ => apply rational_ascii in H | H : display _ = Ok _ |- _ => apply display_ascii in H end.
  apply ascii_named; [vm_compute; reflexivity..|]. cbn [map app forallb fst snd ascii_document].
  rewrite exact_str_ascii. repeat match goal with H : ascii_document _ = true |- _ => rewrite H; clear H | H : ascii_text _ = true |- _ => rewrite H; clear H end.
  vm_compute. reflexivity.
Qed.

Lemma quality_ascii fixture live stage : ascii_document stage = true -> ascii_document (quality_section fixture live stage) = true.
Proof.
  intros Hs. unfold quality_section. apply ascii_named; [vm_compute; reflexivity..|]. cbn [map app forallb snd]. rewrite Hs.
  destruct fixture, live; vm_compute; reflexivity.
Qed.

Lemma input_files_ascii inputs : forallb ascii_text (map fst inputs) = true -> ascii_document (input_files inputs) = true.
Proof.
  intros Hn. unfold input_files. cbn [ascii_document]. apply forallb_forall. intros x (m & <- & Hm)%in_map_iff.
  apply ascii_named; [vm_compute; reflexivity..|]. cbn [map forallb snd ascii_document]. rewrite digest_ascii. cbn [andb].
  rewrite andb_true_r. rewrite forallb_forall in Hn. apply Hn, in_map. unfold sort_items in Hm.
  apply list_elem_of_In in Hm. rewrite py_sorted_perm in Hm. by apply list_elem_of_In.
Qed.

Lemma reproducibility_ascii commit dependencies inputs :
  ascii_text commit = true -> forallb ascii_text (map fst inputs) = true ->
  ascii_document (reproducibility_section commit dependencies inputs) = true.
Proof.
  intros Hc Hi. unfold reproducibility_section. apply ascii_named; [vm_compute; reflexivity..|].
  cbn [map forallb fst snd ascii_document]. rewrite Hc, input_files_ascii, digest_ascii by done. vm_compute. reflexivity.
Qed.

(** *** The DEX sections *)

Lemma header_hash probe block hash stamp : decode_header probe = Ok (block, hash, stamp) -> ascii_document hash = true.
Proof.
  unfold decode_header. intros (url & _ & ([] & _ & (chain & _ & ([] & _ & Hh)%bind_Ok)%bind_Ok)%bind_Ok)%bind_Ok.
  apply bind_Ok in Hh as (header & _ & (number & _ & Hh)%bind_Ok). destruct number as [| | | |text| |]; try done.
  apply bind_Ok in Hh as ([] & _ & (hash' & _ & (fine & Hm & ([] & Hf%require_Ok & Hh)%bind_Ok)%bind_Ok)%bind_Ok).
  apply bind_Ok in Hh as (st & _ & (ts & _ & (after & _ & [= <- <- <-])%bind_Ok)%bind_Ok).
  destruct hash'; try done. injection Hm as <-. by apply hash_ascii.
Qed.

Lemma probe_texts probe amount token r :
  decode_probe probe amount token = Ok r -> ascii_text (block_number r) = true /\ ascii_document (block_hash r) = true.
Proof.
  unfold decode_probe. rewrite or_invalid_Ok. destruct probe as [| | | | | |d]; try done. cbn [decode_probe_body].
  intros ([[block hash] stamp] & Hh%header_hash & Hr)%bind_Ok. apply bind_Ok in Hr as (items & _ & Hr). destruct items as [| | | | |items|]; try done.
  do 10 (apply bind_Ok in Hr as (? & _ & Hr)). apply bind_Ok in Hr as (reserves & _ & Hr).
  destruct reserves as [|musd [|btc [|last [|]]]]; try done. do 8 (apply bind_Ok in Hr as (? & _ & Hr)).
  apply bind_Ok in Hr as (router & _ & Hr). destruct router as [|r0 [|r1 [|r2 [|out [|]]]]]; try done.
  do 2 (apply bind_Ok in Hr as (? & _ & Hr)). destruct (if bool_decide (token = BTC) then _ else _) as [p q].
  do 2 (apply bind_Ok in Hr as (? & _ & Hr)). apply bind_Ok in Hr as (n & _ & (text & Ht%str_int_ascii & [= <-])%bind_Ok).
  by split.
Qed.

Lemma verified_probe capture v :
  verify_capture capture = Ok v -> ascii_text (block_number (vc_probe v)) = true /\ ascii_document (block_hash (vc_probe v)) = true.
Proof.
  unfold verify_capture. rewrite or_invalid_Ok. destruct capture as [| | | | | |d]; try done. unfold verify_body.
  intros ([] & _ & (schema & _ & ([] & _ & (source & _ & ([] & _ & Hv)%bind_Ok)%bind_Ok)%bind_Ok)%bind_Ok)%bind_Ok.
  apply bind_Ok in Hv as (side & _ & (text & _ & Hv)%bind_Ok). destruct side; try done. destruct text; try done.
  do 4 (apply bind_Ok in Hv as (? & _ & Hv)). apply bind_Ok in Hv as (amount & _ & Hv). cbv zeta in Hv.
  apply bind_Ok in Hv as (r & Hr & (_ & _ & [= <-])%bind_Ok). by apply probe_texts in Hr.
Qed.

Lemma quote_ascii selling musd btc fee mid q s :
  quote_of selling musd btc fee mid q = Ok s -> forallb ascii_document (map snd (quote_items s)) = true.
Proof.
  unfold quote_of, display_quantity. intros Hq. inv_ok.
  repeat match goal with H : py_str_int _ = Ok _ |- _ => apply str_int_ascii in H | H : display _ = Ok _ |- _ => apply display_ascii in H end.
  unfold quote_items. cbn [map forallb snd ascii_document sq_quantity sq_in sq_out sq_average sq_impact].
  by repeat match goal with H : ascii_text _ = true |- _ => rewrite H; clear H end.
Qed.

Lemma rung_ascii selling musd btc fee mid q j : ladder_rung selling musd btc fee mid q = Ok j -> ascii_document j = true.
Proof.
  unfold ladder_rung, display_quantity. destruct (quote_of _ _ _ _ _ _) as [s|e] eqn:E.
  - intros [= <-]. apply ascii_named; [vm_compute; reflexivity..|]. by eapply quote_ascii.
  - destruct (_ && _); [|done]. intros (quantity & (r & _ & Hs%display_ascii)%bind_Ok & [= <-])%bind_Ok.
    apply ascii_named; [vm_compute; reflexivity..|]. cbn [map forallb snd ascii_document]. by rewrite Hs.
Qed.

Lemma dex_report_ascii capture side quantity j :
  ascii_text side = true -> build_dex_report capture side quantity = Ok j -> ascii_document j = true.
Proof.
  intros Hside. unfold build_dex_report. intros (v & Hv%verified_probe & Hr)%bind_Ok. destruct Hv as [Hn Hh]. cbv zeta in Hr.
  apply bind_Ok in Hr as ([] & _ & (mid & _ & (s & Hs%quote_ascii & Hr)%bind_Ok)%bind_Ok).
  apply bind_Ok in Hr as (planned & _ & (router & Ho%str_int_ascii & ([] & _ & Hr)%bind_Ok)%bind_Ok).
  apply bind_Ok in Hr as (ladder & Hl & (shown & Hm%display_ascii & [= <-])%bind_Ok).
  assert (forallb ascii_document ladder = true) as Hladder.
  { apply forallb_forall. intros x Hx%list_elem_of_In. apply mapR_Ok in Hl. apply list_elem_of_lookup in Hx as [i Hi].
    destruct (Forall2_lookup_r _ _ _ _ _ Hl Hi) as (q & _ & Hq). by eapply rung_ascii. }
  unfold dex_document. apply ascii_named; [vm_compute; reflexivity..|]. rewrite !map_app, !forallb_app, Hs.
  cbn [map forallb snd ascii_document andb]. rewrite Hside, Hm, Ho, Hladder, Hn, Hh. cbn [andb fst].
  assert (ascii_text (EXPLORER ++ u "/block/" ++ block_number (vc_probe v)) = true) as ->
    by (apply (ascii_app EXPLORER); [vm_compute; reflexivity|by apply (ascii_app (u "/block/"))]).
  assert (ascii_text (sq_out s) = true) as ->; [|vm_compute; reflexivity].
  cbn [quote_items map snd forallb ascii_document] in Hs. by apply andb_true_iff in Hs as [_ [_ [Ho' _]%andb_true_iff]%andb_true_iff].
Qed.

Lemma comparison_ascii dex price side j : venue_comparison dex price side = Ok j -> ascii_document j = true.
Proof.
  unfold venue_comparison. cbv zeta. intros (amount & _ & (out & _ & (average & _ & (hl & Hh%display_ascii & Hj)%bind_Ok)%bind_Ok)%bind_Ok)%bind_Ok.
  apply bind_Ok in Hj as (mezo & Hm%display_ascii & (spread & _ & (shown & Hs%display_ascii & [= <-])%bind_Ok)%bind_Ok).
  apply ascii_named; [vm_compute; reflexivity..|]. cbn [map forallb snd ascii_document]. rewrite Hh, Hm, Hs.
  destruct (frac_eqb average price); [vm_compute; reflexivity|]. destruct (if str_eqb side (u "SELL") then _ else _); vm_compute; reflexivity.
Qed.

Lemma dex_section_ascii request fill capture dex :
  build_dex_section request fill capture = Ok dex ->
  forallb ascii_document (map snd (dex_items dex)) = true /\
  (map fst (dex_items dex) = [] \/ map fst (dex_items dex) = map u ["mezo_dex"; "venue_comparison"]%string) /\
  forallb ascii_text (map fst match dex with Some x => dx_extras x | None => [] end) = true.
Proof.
  unfold build_dex_section. destruct capture as [capture|]; [|intros [= <-]; by split_and!; try left].
  intros ([d extras] & Hd & Hr)%bind_Ok. apply try_except_Ok in Hd as [Hd|(e & _ & He)]; [|done].
  apply bind_Ok in Hd as (report & Hrep & (x & Hx & [= <- <-])%bind_Ok).
  apply dex_report_ascii in Hrep; [|by destruct (rq_side request)]. destruct report; try done.
  apply bind_Ok in Hr as (comparison & Hc%comparison_ascii & [= <-]). cbn [dex_items map fst snd forallb dx_report dx_comparison dx_extras].
  rewrite Hrep, Hc. split_and!; [done|by right|].
  unfold dex_members in Hx. apply bind_Ok in Hx as (b & _ & (calls & _ & (c & _ & [= <-])%bind_Ok)%bind_Ok). vm_compute. reflexivity.
Qed.

(** *** The document *)

(** Members of an object, all clean under ASCII names. *)
Lemma clean_items d :
  bool_decide (NoDup (map fst d)) = true -> forallb ascii_text (map fst d) = true -> Forall (fun kv => clean (snd kv)) d -> clean (JDict d).
Proof using Hnfc.
  intros Hnd%bool_decide_eq_true Hk Hd. apply clean_dict; [done|]. intros k x Hin. rewrite Forall_forall in Hd.
  split; [|by apply (Hd (k, x))]. rewrite forallb_forall in Hk. apply Hk, (in_map fst _ (k, x)). by apply list_elem_of_In.
Qed.

Lemma clean_texts l : forallb ascii_document (map snd l) = true -> Forall (fun kv : pystr * json => clean (snd kv)) l.
Proof using Hnfc.
  induction l as [|kv l IH]; intros Hl; [constructor|]. cbn [map forallb] in Hl. apply andb_true_iff in Hl as [Hx Hl].
  constructor; [by apply ascii_clean|by apply IH].
Qed.

Lemma source_clean ev fill mode created source :
  source_section ev fill mode created = Ok source -> clean mode -> ascii_text (ef_payload_sha256 fill) = true ->
  ascii_text (ii_package_sha256 ev) = true -> clean source.
Proof using Hnfc.
  unfold source_section. cbv zeta. intros Hs Hm Hp Hk. apply bind_Ok in Hs as (responses & _ & (first & _ & Hs)%bind_Ok).
  apply bind_Ok in Hs as (started & (z & _ & Ht1%timestamp_ascii)%bind_Ok & (observed & Ht2%timestamp_ascii & Hs)%bind_Ok).
  apply bind_Ok in Hs as (source_at & Ht3%timestamp_ascii & (created_at & Ht4%timestamp_ascii & [= <-])%bind_Ok).
  apply clean_items; [vm_compute; reflexivity..|]. constructor; [exact Hm|]. apply clean_texts.
  cbn [map forallb snd ascii_document]. by rewrite Ht1, Ht2, Ht3, Ht4, Hp, Hk.
Qed.

Lemma sweep_payload book sd q fill : sweep_depth book sd q = Ok fill -> ef_payload_sha256 fill = rb_payload_sha256 book.
Proof.
  unfold sweep_depth, depth_rejected, vwap_error. intros ([] & _ & (x & _ & (s & _ & Hs)%bind_Ok)%bind_Ok)%bind_Ok.
  destruct (negb _); [done|]. destruct (worst s); [|done]. by apply bind_Ok in Hs as (average & _ & [= <-]).
Qed.

Lemma sealed_names_ascii members ev algorithm dependencies :
  inspect_members members = Ok ev -> forallb ascii_text (map fst (sealed_inputs ev algorithm dependencies)) = true.
Proof.
  intros Hi. unfold sealed_inputs. rewrite map_app, forallb_app, andb_true_iff. split; [|vm_compute; reflexivity].
  rewrite (in_members _ _ (inspect_members_Ok _ _ Hi)), map_map. cbn [fst]. apply forallb_forall. intros x (m & <- & Hm)%in_map_iff.
  apply ascii_app; [reflexivity|]. assert (forallb ascii_text INPUT_NAMES = true) as Hall by (vm_compute; reflexivity).
  rewrite forallb_forall in Hall. apply Hall, list_elem_of_In. eapply input_name; [exact Hi|]. by apply list_elem_of_fmap_2, list_elem_of_In.
Qed.

(** The report on an inspected input is clean, and of no time before the epoch. *)
Lemma report_clean members ev request mezo built :
  inspect_members members = Ok ev -> NoDup (map fst members) -> (forall m, m ∈ members -> byte_list (snd m)) ->
  uuid_range (rq_report_id request) -> is_commit (rq_engine_commit request) = true ->
  build_inspected_report ev request mezo = Ok built ->
  clean (br_document built) /\ 0 <= created_of request (received_timestamp_ms (snapshot (ii_book ev))).
Proof using Hnfc.
  intros Hi Hnd Hbytes Hid Hcommit%commit_ascii. pose proof (inspect_members_Ok _ _ Hi) as Hev.
  destruct (inspected_book members ev Hi Hnd Hbytes) as (m & Hbound).
  unfold build_inspected_report. cbv zeta. intros (mode & Hmode & ([] & Hage & (fill & Hfill & (m' & Hm' & ([] & _ & Hb)%bind_Ok)%bind_Ok)%bind_Ok)%bind_Ok)%bind_Ok.
  assert (m' = m) as -> by (rewrite (pb_mapping _ _ Hbound) in Hm'; by injection Hm').
  apply bind_Ok in Hb as (algorithm & _ & (impact & _ & (source & Hs & (calculation & Hc%calculation_ascii & Hb)%bind_Ok)%bind_Ok)%bind_Ok).
  apply bind_Ok in Hb as (capture & _ & (dex & Hd%dex_section_ascii & ([] & _ & (raw & _ & [= <-])%bind_Ok)%bind_Ok)%bind_Ok).
  destruct Hd as (Hdex & Hnames & Hextras).
  assert (clean mode) as Hclean.
  { pose proof (in_capture _ _ Hev) as Hcap. unfold json_member in Hcap. apply bind_Ok in Hcap as (craw & Hcraw%member_Ok & Hcap).
    eapply clean_subscript; [|exact Hmode]. by apply (strict_json_plain craw); [apply (Hbytes _ (assoc_elem _ _ _ Hcraw))|]. }
  destruct (in_manifest _ _ Hev) as (manifest & _ & Hsha).
  apply source_clean in Hs; [|exact Hclean| |by rewrite Hsha; apply digest_ascii].
  2: { apply try_except_Ok in Hfill as [Hfill|(e & _ & He)]; [|done]. rewrite (sweep_payload _ _ _ _ Hfill). by apply sha256_ascii, (pb_payload _ _ Hbound). }
  split.
  - cbn [br_document]. unfold report_document. apply clean_items.
    + rewrite map_app. destruct Hnames as [-> | ->]; vm_compute; reflexivity.
    + rewrite map_app, forallb_app, andb_true_iff. split; [vm_compute; reflexivity|]. destruct Hnames as [-> | ->]; vm_compute; reflexivity.
    + apply Forall_app. split; [|by apply clean_texts]. repeat apply Forall_cons_2; try apply Forall_nil_2; cbn [snd]; try exact Hs; apply ascii_clean.
      * reflexivity.
      * by apply uuid_ascii.
      * by eapply identity_ascii.
      * apply ascii_named; [vm_compute; reflexivity..|]. cbn [map forallb snd ascii_document]. rewrite exact_str_ascii. by destruct (rq_side request).
      * exact Hc.
      * by apply quality_ascii, (inspected_stage members).
      * apply reproducibility_ascii; [exact Hcommit|]. rewrite map_app, forallb_app, Hextras, andb_true_r. by eapply sealed_names_ascii.
      * vm_compute. reflexivity.
  - unfold check_age, reject_if in Hage. apply bind_Ok in Hage as ([] & Hage%raise_if_Ok%orb_false_iff & _). destruct Hage as [Hage%Z.ltb_ge _].
    pose proof (pb_received _ _ Hbound). lia.
Qed.
End report_texts.
