(* ===== verification/SnapshotBundle.v ===== *)
(** * Snapshot bundles: the bundle of a report on an inspected input

    What [build_inspected_report] puts into a bundle, that the inspection, the request
    and the optional DEX capture are all read back from the archived members, and so
    that every bundle of a snapshot report verifies. *)

From S2P Require Import Prelude PyStr Num PyObj Json JsonRoundtrip Bytes ByteLaws Exact Market Reconstruction Vwap.
From S2P Require Import Calendar EvidenceIo Documents Decoded MezoDex DexReport TroveReport SealedInput CapturePackage Archive Report Bundle ReportText.
Open Scope Z_scope.

(** ** Members under a prefix *)

Lemma str_leb_prefix p s t : str_leb (p ++ s) (p ++ t) = str_leb s t.
Proof.
  induction p as [|c p IH]; [done|]. cbn [app str_leb]. by rewrite Z.ltb_irrefl, Z.eqb_refl.
Qed.

Lemma startswith_app p s : str_startswith p (p ++ s) = true.
Proof. induction p as [|c p IH]; [done|]. cbn [app str_startswith]. by rewrite Z.eqb_refl. Qed.

Lemma StronglySorted_filter {A} (R : A -> A -> Prop) (p : A -> bool) l :
  StronglySorted R l -> StronglySorted R (List.filter p l).
Proof.
  induction 1 as [|x l Hs IH Hx]; [constructor|]. cbn [List.filter]. destruct (p x); [|done].
  constructor; [done|]. rewrite Forall_forall in *. intros y Hy%list_elem_of_In%filter_In. apply Hx, list_elem_of_In. tauto.
Qed.

(** The sorted items that pass a test, given the items in the order of their names. *)
Lemma sort_items_filter {V} (p : pystr * V -> bool) (d e : list (pystr * V)) :
  NoDup (map fst d) -> List.filter p d ≡ₚ e -> StronglySorted (fun a b => str_ltb a b = true) (map fst e) ->
  List.filter p (sort_items d) = e.
Proof.
  intros Hd Hp He. assert (sort_items d ≡ₚ d) as Hs by (unfold sort_items; apply py_sorted_perm).
  assert (List.filter p (sort_items d) ≡ₚ e) as Hpe by (by rewrite (list_filter_perm _ _ _ Hs)).
  apply (perm_by_key fst); [done|rewrite Hpe; by apply sorted_names_NoDup|].
  apply StronglySorted_strict_ext; [by rewrite Hpe| |done].
  apply StronglySorted_map, StronglySorted_filter.
  apply (StronglySorted_map (fun a b => str_ltb a b = true) fst). by apply sorted_by_name.
Qed.

(** The input of a report in its bundle. *)
Definition prefixed (members : list (pystr * bytes)) : list (pystr * bytes) :=
  map (fun m => (u "sealed-input/" ++ fst m, snd m)) members.

Lemma prefixed_sorted members :
  StronglySorted (fun a b => str_ltb a b = true) (map fst members) ->
  StronglySorted (fun a b => str_ltb a b = true) (map fst (prefixed members)).
Proof.
  intros Hs. unfold prefixed. rewrite map_map. apply StronglySorted_map. apply StronglySorted_map in Hs.
  eapply StronglySorted_weaken; [|exact Hs]. intros a b. cbn [fst]. unfold str_ltb. by rewrite str_leb_prefix.
Qed.

Lemma unprefixed members : map (fun m => (drop 13 (fst m), snd m)) (prefixed members) = members.
Proof. induction members as [|[n c] members IH]; [done|]. cbn [prefixed map fst snd]. f_equal. exact IH. Qed.

(** ** What a built report holds *)

Section snapshot.
Context `{UnicodeTables} `{UnicodeLower} `{UnicodeNormal} `{ReportResources}.

(** The time a report on an input is created at. *)
Definition report_time (ev : InspectedInput) (request : ReportRequest) : Z :=
  created_of request (received_timestamp_ms (snapshot (ii_book ev))).

Record snapshot_built (ev : InspectedInput) (request : ReportRequest) (mezo : option json) (built : BuiltReport) : Prop := {
  sb_document : exists m mode calculation dex inputs source,
    br_document built = report_document ev request m mode source calculation inputs dex /\
    exists created, timestamp_text (report_time ev request) = Ok created /\
      subscript (u "created_at") source = Ok (JStr created);
  sb_members : br_input_members built = ii_members ev;
  sb_valid : validate "report.schema.json" (br_document built) = Ok tt;
  sb_bytes : Canonical.canonical_json_bytes (br_document built) = Ok (br_report_bytes built);
  sb_algorithm : exists live, let algorithm := algorithm_document (rq_engine_commit request) runtime_dependencies live in
    validate "algorithm.schema.json" algorithm = Ok tt /\
    Canonical.canonical_json_bytes algorithm = Ok (br_algorithm_bytes built);
  sb_dependencies : br_dependency_bytes built = runtime_dependencies;
  sb_extras : exists capture, dex_capture ev mezo = Ok capture /\
    match capture with
    | Some capture => dex_members capture = Ok (br_extra_members built)
    | None => br_extra_members built = []
    end }.

Lemma source_created ev fill mode created source :
  source_section ev fill mode created = Ok source ->
  exists text, timestamp_text created = Ok text /\ subscript (u "created_at") source = Ok (JStr text).
Proof.
  unfold source_section. intros Hs. repeat (apply bind_Ok in Hs as (? & ? & Hs)). injection Hs as <-.
  eexists. split; [eassumption|reflexivity].
Qed.

Lemma build_dex_section_Ok request fill capture dex :
  build_dex_section request fill capture = Ok dex ->
  match capture with
  | Some capture => exists x, dex = Some x /\ dex_members capture = Ok (dx_extras x)
  | None => dex = None
  end.
Proof.
  unfold build_dex_section. destruct capture as [capture|]; [|by intros [= <-]].
  intros ([d extras] & Hd & Hr)%bind_Ok. apply try_except_Ok in Hd as [Hd|(e & _ & He)]; [|done].
  apply bind_Ok in Hd as (d' & _ & (extras' & Hx & [= -> ->])%bind_Ok). destruct d; try done.
  apply bind_Ok in Hr as (comparison & _ & [= <-]). by eexists.
Qed.

Lemma build_report_Ok ev request mezo built :
  build_inspected_report ev request mezo = Ok built -> snapshot_built ev request mezo built.
Proof.
  unfold build_inspected_report. intros (mode & _ & ([] & _ & (fill & _ & (m & _ & ([] & Hav & Hb)%bind_Ok)%bind_Ok)%bind_Ok)%bind_Ok)%bind_Ok.
  apply bind_Ok in Hb as (algorithm & Ha & (impact & _ & (source & Hs%source_created & (calculation & _ & Hb)%bind_Ok)%bind_Ok)%bind_Ok).
  apply bind_Ok in Hb as (capture & Hc & (dex & Hd%build_dex_section_Ok & ([] & Hv & (raw & Hraw & Hb)%bind_Ok)%bind_Ok)%bind_Ok).
  set (document := report_document _ _ _ _ _ _ _ _) in *. injection Hb as <-.
  split; cbn [br_document br_report_bytes br_input_members br_algorithm_bytes br_dependency_bytes br_extra_members]; try done.
  - do 6 eexists. split; [reflexivity|]. destruct Hs as (text & Ht & Hsub). by exists text.
  - eexists. by split.
  - exists capture. split; [done|]. destruct capture as [capture|]; [by destruct Hd as (x & -> & Hx)|by subst].
Qed.

(** Building again with the time spelled out and an equivalent capture. *)
Lemma build_report_again ev request mezo mezo' :
  dex_capture ev mezo' = dex_capture ev mezo ->
  build_inspected_report ev (mkReportRequest (rq_report_id request) (rq_side request) (rq_quantity_base request)
    (rq_engine_commit request) (Some (report_time ev request))) mezo' = build_inspected_report ev request mezo.
Proof. intros Hc. unfold build_inspected_report. rewrite Hc. reflexivity. Qed.

(** ** The members of its bundle *)

Lemma dex_members_names capture extras :
  dex_members capture = Ok extras ->
  map fst extras = DEX_NAMES /\
  (exists b, assoc (u "mezo-dex/capture.json") extras = Some b /\ Canonical.canonical_json_bytes capture = Ok b) /\
  ((forall name, packaged_abi name <> []) -> Forall (fun m => snd m <> []) extras).
Proof.
  unfold dex_members. intros (b & Hb & (calls & _ & (c & Hc & [= <-])%bind_Ok)%bind_Ok)%bind_Ok.
  split_and!; [reflexivity|by exists b|]. intros Habi. apply canonical_nonempty in Hb, Hc.
  by repeat (constructor; [cbn [snd]; auto|]).
Qed.

(** The outer members of a bundle, but for its manifest. *)
Definition outer (built : BuiltReport) : list (pystr * bytes) :=
  [(u "report.json", br_report_bytes built); (u "algorithm.json", br_algorithm_bytes built);
   (u "runtime-dependencies.txt", br_dependency_bytes built)].

Lemma prefixed_name n members :
  n ∈ map fst (prefixed members) <-> exists k, n = u "sealed-input/" ++ k /\ k ∈ map fst members.
Proof.
  unfold prefixed. rewrite map_map. cbn [fst]. rewrite !list_elem_of_fmap. split.
  - intros (m & -> & Hm). exists (fst m). split; [done|]. by apply list_elem_of_fmap_2.
  - intros (k & -> & (m & -> & Hm)%list_elem_of_fmap). by exists m.
Qed.

(** Sealed names are told from the others by their prefix. *)
Lemma prefixed_apart n members others :
  forallb (fun o => negb (str_startswith (u "sealed-input/") o)) others = true ->
  n ∈ map fst (prefixed members) -> n ∉ others.
Proof.
  intros Ho (k & -> & _)%prefixed_name Hn. rewrite forallb_forall in Ho. apply list_elem_of_In, Ho in Hn.
  by rewrite startswith_app in Hn.
Qed.

Section bundle.
Context (Hnfc : forall s, Forall printable s -> nfc s = s).
Context (Hvalidate : forall name d, json_plain d = true -> validate name (json_arranged unicode_style d) = validate name d).
Context (Hdependencies : runtime_dependencies <> []) (Habi : forall name, packaged_abi name <> []).
Context (members : list (pystr * bytes)) (ev : InspectedInput) (request : ReportRequest) (mezo : option json)
  (built : BuiltReport).
Context (Hsorted : StronglySorted (fun a b => str_ltb a b = true) (map fst members)).
Context (Hinspect : inspect_members members = Ok ev).
Context (Hbuilt : snapshot_built ev request mezo built).
Context (Hplain : json_plain (br_document built) = true) (Htexts : require_strings (br_document built) = Ok tt).

Lemma extras_names : br_extra_members built = [] \/ map fst (br_extra_members built) = DEX_NAMES.
Proof using Hbuilt.
  destruct (sb_extras _ _ _ _ Hbuilt) as ([capture|] & _ & Hx); [|by left]. right. by apply dex_members_names in Hx as [? _].
Qed.

Lemma snapshot_names : NoDup (map fst (prefixed members ++ outer built ++ br_extra_members built)).
Proof using Hbuilt Hsorted.
  rewrite map_app. apply NoDup_app. split_and!.
  - by apply sorted_names_NoDup, prefixed_sorted.
  - intros n Hn. eapply prefixed_apart; [|exact Hn]. rewrite map_app.
    destruct extras_names as [-> | ->]; vm_compute; reflexivity.
  - rewrite map_app. apply (bool_decide_unpack _). destruct extras_names as [-> | ->]; vm_compute; exact I.
Qed.

Lemma snapshot_members : bundle_members built = prefixed members ++ outer built ++ br_extra_members built.
Proof using Hbuilt Hinspect Hsorted.
  pose proof snapshot_names as Hnd. rewrite app_assoc in Hnd. unfold bundle_members.
  rewrite (sb_members _ _ _ _ Hbuilt), (in_members _ _ (inspect_members_Ok _ _ Hinspect)).
  change (map _ members) with (prefixed members). fold (outer built).
  rewrite (dict_update_new (prefixed members)), dict_update_new, <- app_assoc; [done|done|].
  rewrite map_app in Hnd. by apply NoDup_app in Hnd as (? & _ & _).
Qed.

Lemma snapshot_assoc_outer n raw : (n, raw) ∈ outer built -> assoc n (bundle_members built) = Some raw.
Proof using Hbuilt Hinspect Hsorted.
  intros Hn. rewrite snapshot_members. apply assoc_unique; [apply snapshot_names|]. rewrite !elem_of_app. auto.
Qed.

Lemma snapshot_well_built : well_built built.
Proof using Habi Hbuilt Hdependencies Hinspect Hplain Hsorted Htexts.
  destruct (sb_document _ _ _ _ Hbuilt) as (m & mode & calculation & dex & inputs & source & Hdoc & _).
  split; try done.
  - rewrite Hdoc. by eexists.
  - apply (sb_bytes _ _ _ _ Hbuilt).
  - rewrite snapshot_members. apply snapshot_names.
  - rewrite snapshot_members, map_app, elem_of_app. intros [Hn|Hn].
    + eapply (prefixed_apart _ _ [u "manifest.json"]); [|exact Hn|left]. vm_compute. reflexivity.
    + rewrite map_app in Hn. apply (bool_decide_eq_true_2 _) in Hn. destruct extras_names as [E|E]; rewrite E in Hn; by vm_compute in Hn.
  - apply snapshot_assoc_outer. unfold outer. left.
  - apply snapshot_assoc_outer. unfold outer. right. left.
  - apply snapshot_assoc_outer. unfold outer. right. right. left.
  - rewrite snapshot_members, !Forall_app. split_and!.
    + pose proof (inspected_contents members ev (sorted_names_NoDup _ Hsorted) (inspect_members_Ok _ _ Hinspect)) as Hc.
      unfold prefixed. apply Forall_map. exact Hc.
    + pose proof (canonical_nonempty _ _ (sb_bytes _ _ _ _ Hbuilt)).
      destruct (sb_algorithm _ _ _ _ Hbuilt) as (live & _ & Ha%canonical_nonempty).
      pose proof (sb_dependencies _ _ _ _ Hbuilt) as Hd. unfold outer.
      repeat (constructor; [cbn [snd]|]); try done. by rewrite Hd.
    + destruct (sb_extras _ _ _ _ Hbuilt) as ([capture|] & _ & Hx); [|rewrite Hx; constructor].
      apply dex_members_names in Hx as (_ & _ & Hx). by apply Hx.
Qed.

(** ** What is read back from the archive *)

Context (manifest : bytes) (document := bundle_manifest (br_report_sha256 built) (bundle_members built)).

Lemma archived_sealed : sealed_members (archived built manifest) = members.
Proof using Hbuilt Hinspect Hplain Hsorted Htexts Habi Hdependencies.
  unfold sealed_members. rewrite <- unprefixed. f_equal. unfold archived.
  apply sort_items_filter; [apply (archived_NoDup built snapshot_well_built manifest)| |by apply prefixed_sorted].
  rewrite snapshot_members, <- app_assoc, !List.filter_app, list_filter_all.
  - rewrite (list_filter_none _ (outer built)), (list_filter_none _ (br_extra_members built)), app_nil_r; [done| |].
    + intros m Hm%(list_elem_of_fmap_2 fst). assert (fst m ∈ DEX_NAMES) as Hd.
      { destruct extras_names as [E|<-]; [rewrite E in Hm; by apply elem_of_nil in Hm|done]. }
      clear Hm. revert Hd. generalize (fst m). apply Forall_forall. unfold DEX_NAMES. repeat constructor.
    + intros m Hm. unfold outer in Hm. rewrite !elem_of_cons in Hm.
      destruct Hm as [->|[->|[->|Hm]]]; try reflexivity. by apply elem_of_nil in Hm.
  - intros m Hm. unfold prefixed in Hm. apply list_elem_of_fmap in Hm as (k & -> & _). apply startswith_app.
Qed.

(** The members of the DEX capture are those of the report. *)
Lemma archived_extras :
  List.filter (fun m => bool_decide (fst m ∈ DEX_NAMES)) (archived built manifest) ≡ₚ br_extra_members built.
Proof using Hbuilt Hinspect Hsorted.
  unfold archived, sort_items. rewrite (list_filter_perm _ _ _ (py_sorted_perm _ _)).
  rewrite snapshot_members, <- app_assoc, List.filter_app, <- app_assoc, !List.filter_app.
  rewrite (list_filter_none _ (prefixed members)), (list_filter_none _ (outer built)), (list_filter_none _ [_]).
  - rewrite app_nil_r, list_filter_all; [done|]. intros m Hm%(list_elem_of_fmap_2 fst). apply bool_decide_eq_true.
    destruct extras_names as [E|<-]; [rewrite E in Hm; by apply elem_of_nil in Hm|done].
  - intros m ->%list_elem_of_singleton. vm_compute. reflexivity.
  - intros m Hm. unfold outer in Hm. rewrite !elem_of_cons in Hm.
    destruct Hm as [->|[->|[->|Hm]]]; try (vm_compute; reflexivity). by apply elem_of_nil in Hm.
  - intros m Hm%(list_elem_of_fmap_2 fst). apply bool_decide_eq_false.
    eapply prefixed_apart; [vm_compute; reflexivity|exact Hm].
Qed.

Context (Hcontents : forall m, m ∈ members -> byte_list (snd m)).
Context (Hsealed : assoc (u "source/mezo-dex.json") members = None -> mezo = None).

(** The capture is read back as the one the report was built from. *)
Lemma archived_dex :
  exists again, dex_extras (archived built manifest) = Ok again /\ dex_capture ev again = dex_capture ev mezo.
Proof using Hbuilt Hcontents Hinspect Hsealed Hsorted.
  destruct (sb_extras _ _ _ _ Hbuilt) as (capture & Hcap & Hx). pose proof archived_extras as Hp. rewrite Hcap.
  unfold dex_extras. unfold dex_capture in *. rewrite (in_members _ _ (inspect_members_Ok _ _ Hinspect)) in *.
  destruct (assoc (u "source/mezo-dex.json") members) as [raw|] eqn:Eraw.
  - apply bind_Ok in Hcap as (sealed & Hs & ([] & _ & Hcap)%bind_Ok).
    assert (capture = Some sealed) as -> by congruence. rewrite Hs.
    destruct (strict_json_plain raw sealed (Hcontents _ (assoc_elem _ _ _ Eraw)) Hs) as [Hpl Hst].
    destruct (dex_members_names _ _ Hx) as (Hn & (b & Hb & Hcan) & _).
    assert (NoDup (map fst (br_extra_members built))) as Hnd by (rewrite Hn; apply (bool_decide_unpack _); vm_compute; exact I).
    rewrite (assoc_perm (u "mezo-dex/capture.json") _ _ Hnd (symmetry Hp)) in Hb.
    exists (Some (json_arranged unicode_style sealed)). cbn [mbind result_bind]. rewrite py_eq_arranged by done. split; [|done].
    set (extras := List.filter _ _) in *.
    assert (same_members (map fst extras) DEX_NAMES = true) as Hsame
      by (apply same_members_spec; intros n; by rewrite Hp, Hn).
    assert (json_member extras (u "mezo-dex/capture.json") = Ok (json_arranged unicode_style sealed)) as Hj.
    { unfold json_member, member. rewrite Hb. by apply strict_json_canonical. }
    destruct extras; [done|]. rewrite Hsame. cbn [negb reject_if raise_if mbind result_bind]. by rewrite Hj.
  - rewrite (Hsealed eq_refl) in *. injection Hcap as <-. rewrite Hx in Hp. symmetry in Hp. apply Permutation_nil in Hp.
    rewrite Hp. by exists None.
Qed.

Lemma archived_request :
  uuid_range (rq_report_id request) -> in_range (scaled (rq_quantity_base request)) -> 0 <= report_time ev request ->
  report_request_init (rq_report_id request) (rq_side request) (rq_quantity_base request)
    (JStr (rq_engine_commit request)) (rq_created_at_ms request) = Ok request ->
  request_of (json_arranged unicode_style (br_document built)) =
    Ok (mkReportRequest (rq_report_id request) (rq_side request) (rq_quantity_base request)
          (rq_engine_commit request) (Some (report_time ev request))).
Proof using Hbuilt Hplain.
  intros Hid Hq Ht Hinit. destruct (sb_document _ _ _ _ Hbuilt) as (m & mode & calculation & dex & inputs & source & Hdoc & created & Hc & Hsub).
  pose proof Hplain as Hp. rewrite Hdoc in Hp |- *. unfold request_of.
  set (doc := report_document _ _ _ _ _ _ _ _) in *.
  assert (forall k x d, json_plain d = true -> subscript k d = Ok x ->
    subscript k (json_arranged unicode_style d) = Ok (json_arranged unicode_style x) /\ json_plain x = true) as Hs
    by (intros k x d; apply subscript_arranged).
  assert (forall k s d, json_plain d = true -> subscript k d = Ok (JStr s) ->
    subscript k (json_arranged unicode_style d) = Ok (JStr s)) as Hst by (intros k s d Hd Hk; by apply (Hs k (JStr s) d)).
  rewrite (Hst (u "report_id") (uuid_str (rq_report_id request)) doc Hp eq_refl).
  cbn [mbind result_bind identifier]. rewrite uuid_parse_text by done. cbn [mbind result_bind].
  rewrite str_eqb_refl. cbn [negb raise_if mbind result_bind try_except]. rewrite uuid_parse_text by done. cbn [mbind result_bind].
  destruct (Hs (u "request") _ doc Hp eq_refl) as [-> Hr]. cbn [mbind result_bind].
  rewrite (Hst (u "side") (side_value (rq_side request)) _ Hr eq_refl). cbn [mbind result_bind].
  assert (side_of (JStr (side_value (rq_side request))) = Ok (rq_side request)) as -> by (destruct (rq_side request); reflexivity).
  cbn [mbind result_bind].
  rewrite (Hst (u "quantity_base") (exact_str (rq_quantity_base request)) _ Hr eq_refl).
  cbn [mbind result_bind exact_of]. rewrite exact_parse_str by done. cbn [mbind result_bind].
  destruct (Hs (u "reproducibility") (reproducibility_section (rq_engine_commit request) runtime_dependencies inputs) doc Hp eq_refl) as [-> Hrep].
  cbn [mbind result_bind]. rewrite (Hst (u "engine_commit") (rq_engine_commit request) _ Hrep eq_refl). cbn [mbind result_bind].
  destruct (Hs (u "source") source doc Hp eq_refl) as [-> Hsrc]. cbn [mbind result_bind].
  rewrite (Hst _ _ _ Hsrc Hsub). cbn [mbind result_bind].
  rewrite (timestamp_text_read _ _ Ht Hc). cbn [mbind result_bind]. unfold report_request_init in *.
  apply bind_Ok in Hinit as ([] & Hq' & ([] & Hcommit & _)%bind_Ok).
  rewrite Hq'. cbn [mbind result_bind]. rewrite Hcommit. cbn [mbind result_bind].
  by rewrite (proj2 (Z.ltb_ge _ 0)) by done.
Qed.

Lemma algorithm_document_ascii live :
  ascii_text (rq_engine_commit request) = true ->
  ascii_document (algorithm_document (rq_engine_commit request) runtime_dependencies live) = true.
Proof.
  intros Hc. unfold algorithm_document. cbn [ascii_document]. apply andb_true_iff. split; [vm_compute; reflexivity|].
  cbn [forallb fst snd ascii_document]. rewrite Hc, digest_ascii. vm_compute. reflexivity.
Qed.

(** The archived members rebuild the report. *)
Lemma snapshot_rebuilds items :
  uuid_range (rq_report_id request) -> in_range (scaled (rq_quantity_base request)) -> 0 <= report_time ev request ->
  report_request_init (rq_report_id request) (rq_side request) (rq_quantity_base request)
    (JStr (rq_engine_commit request)) (rq_created_at_ms request) = Ok request ->
  build_inspected_report ev request mezo = Ok built ->
  json_arranged unicode_style (br_document built) = JDict items ->
  rebuild_snapshot (archived built manifest) items = Ok built.
Proof using Habi Hbuilt Hcontents Hdependencies Hinspect Hnfc Hplain Hsealed Hsorted Htexts Hvalidate.
  intros Hid Hq Ht Hinit Hbuild Hitems. unfold rebuild_snapshot. rewrite <- Hitems.
  rewrite Hvalidate, (sb_valid _ _ _ _ Hbuilt) by done. cbn [mbind result_bind].
  destruct (sb_algorithm _ _ _ _ Hbuilt) as (live & Hva & Hca).
  assert (ascii_text (rq_engine_commit request) = true) as Hcommit.
  { unfold report_request_init in Hinit. apply bind_Ok in Hinit as ([] & _ & ([] & Hc%raise_if_Ok%negb_false_iff & _)%bind_Ok).
    by apply commit_ascii. }
  pose proof (algorithm_document_ascii live Hcommit) as Hascii.
  assert (json_member (archived built manifest) (u "algorithm.json") =
    Ok (json_arranged unicode_style (algorithm_document (rq_engine_commit request) runtime_dependencies live))) as ->.
  { unfold json_member. rewrite (archived_member built snapshot_well_built manifest _ (br_algorithm_bytes built)).
    - cbn [mbind result_bind]. by apply strict_ascii.
    - apply snapshot_assoc_outer. unfold outer. right. left. }
  cbn [mbind result_bind]. rewrite Hvalidate, Hva by by apply ascii_plain. cbn [mbind result_bind].
  rewrite archived_sealed, Hinspect. cbn [mbind result_bind]. rewrite archived_request by done. cbn [mbind result_bind].
  destruct archived_dex as (again & -> & Hagain). cbn [mbind result_bind]. by rewrite (build_report_again _ _ _ _ Hagain).
Qed.
End bundle.
End snapshot.

(** The members of an input whose report is bundled are bytes, as the bundle is. *)
Lemma bundled_bytes `{UnicodeTables} `{UnicodeLower} `{UnicodeNormal} `{ReportResources} members ev request mezo built raw :
  StronglySorted (fun a b => str_ltb a b = true) (map fst members) -> inspect_members members = Ok ev ->
  snapshot_built ev request mezo built -> build_bundle built = Ok raw -> byte_list raw ->
  forall m, m ∈ members -> byte_list (snd m).
Proof.
  intros Hsorted Hi Hb Hbundle Hraw m Hm. unfold build_bundle in Hbundle.
  apply bind_Ok in Hbundle as ([] & _ & ([] & _ & (manifest & _ & Hz)%bind_Ok)%bind_Ok). apply zip_members_Ok in Hz as (_ & _ & _ & -> & _).
  eapply (archive_contents _ (u "sealed-input/" ++ fst m, snd m)); [exact Hraw|]. unfold sort_items. rewrite py_sorted_perm.
  apply assoc_elem. rewrite assoc_set_other by by (intros E; inversion E). apply assoc_unique.
  - rewrite (snapshot_members members ev request mezo built Hsorted Hi Hb). by apply (snapshot_names members ev request mezo built Hsorted Hb).
  - rewrite (snapshot_members members ev request mezo built Hsorted Hi Hb), elem_of_app. left. unfold prefixed.
    by apply (list_elem_of_fmap_2 (fun m => (u "sealed-input/" ++ fst m, snd m))).
Qed.

(** C5: what [build_bundle] makes of a report on an inspected input verifies, and its
    verification returns that report down to every byte: for every input that passes its
    inspection, its members listed in the order of their names (a mapping has none), and
    every request that its constructor accepts, with an identifier of 128 bits and a
    quantity in the range of exact decimals; when a DEX capture is passed, the input seals
    one. Supposed are: that normal form C leaves ASCII as it is, that validation against
    a schema does not depend on the order of the members of an object, and that none of
    the packaged files is empty. The archive is a list of bytes, and the digest that the
    verification expects, when it is given one, is that of the report. *)
Theorem snapshot_bundle_verifies `{UnicodeTables} `{UnicodeLower} `{UnicodeNormal} `{ReportResources}
    members ev request mezo built raw expected :
  (forall s, Forall printable s -> nfc s = s) ->
  (forall name d, json_plain d = true -> validate name (json_arranged unicode_style d) = validate name d) ->
  runtime_dependencies <> [] -> (forall name, packaged_abi name <> []) ->
  StronglySorted (fun a b => str_ltb a b = true) (map fst members) -> inspect_members members = Ok ev ->
  uuid_range (rq_report_id request) -> in_range (scaled (rq_quantity_base request)) ->
  report_request_init (rq_report_id request) (rq_side request) (rq_quantity_base request)
    (JStr (rq_engine_commit request)) (rq_created_at_ms request) = Ok request ->
  (assoc (u "source/mezo-dex.json") members = None -> mezo = None) ->
  build_inspected_report ev request mezo = Ok built ->
  build_bundle built = Ok raw -> byte_list raw ->
  match expected with Some sha => sha = br_report_sha256 built | None => True end ->
  verify_bundle_bytes raw expected = Ok built.
Proof.
  intros Hnfc Hvalidate Hdep Habi Hsorted Hi Hid Hq Hinit Hsealed Hbuild Hbundle Hraw Hexp.
  pose proof (build_report_Ok _ _ _ _ Hbuild) as Hb.
  pose proof (bundled_bytes _ _ _ _ _ _ Hsorted Hi Hb Hbundle Hraw) as Hbytes.
  assert (is_commit (rq_engine_commit request) = true) as Hcommit.
  { unfold report_request_init, reject_if in Hinit. by apply bind_Ok in Hinit as ([] & _ & ([] & Hc%raise_if_Ok%negb_false_iff & _)%bind_Ok). }
  destruct (report_clean Hnfc members ev request mezo built Hi (sorted_names_NoDup _ Hsorted) Hbytes Hid Hcommit Hbuild) as [[Hplain Htexts] Ht].
  pose proof (snapshot_well_built Hdep Habi members ev request mezo built Hsorted Hi Hb Hplain Htexts) as Hwell.
  destruct (build_bundle_Ok _ _ Hwell Hbundle) as (Hsha & manifest & Hvalid & Hmanifest & Hzip).
  apply (bundle_verifies Hnfc Hvalidate built raw Hwell Hraw manifest Hsha Hmanifest Hvalid Hzip expected Hbundle Hexp).
  intros items Hitems. destruct (sb_document _ _ _ _ Hb) as (m & mode & calculation & dex & inputs & source & Hdoc & _).
  assert (json_get (u "schema") items = JStr (u "liqvera-evidence-report/v1")) as ->.
  { destruct (subscript_arranged unicode_style (u "schema") (br_document built) (JStr (u "liqvera-evidence-report/v1")) Hplain)
      as [Hs _]; [by rewrite Hdoc|]. rewrite Hitems in Hs. cbn [subscript] in Hs. unfold json_item in Hs. unfold json_get.
    destruct (assoc (u "schema") items); [by injection Hs as ->|done]. }
  cbn [json_is]. change (str_eqb _ _) with false. cbv iota.
  by apply (snapshot_rebuilds Hnfc Hvalidate Hdep Habi members ev request mezo).
Qed.

(** ** A bundle of the fixture *)

Definition demo_report_request : ReportRequest :=
  mkReportRequest demo_id BUY (mkExact 5000000) (repeat 97 40) None.

(** The fixture inspected, reported on and bundled, with what the theorem asks. *)
Definition demo_checks (ev : InspectedInput) (built : BuiltReport) (raw : bytes) : bool :=
  bool_decide (NoDup (map fst (ii_members ev))) && bytes_ok raw.

Lemma demo_bundle : exists members ev built raw,
  EvidencePackage.capture_members demo_id (u "fixture") EvidenceCapture.fixture_responses None = Ok members /\
  inspect_members (H1 := demo_normal) (H2 := demo_resources) (sort_items members) = Ok ev /\
  build_inspected_report (H1 := demo_normal) (H2 := demo_resources) ev demo_report_request None = Ok built /\
  build_bundle (H2 := demo_resources) built = Ok raw /\ demo_checks ev built raw = true.
Proof.
  apply (chain_satisfies (EvidencePackage.capture_members demo_id (u "fixture") EvidenceCapture.fixture_responses None)
    (fun members => inspect_members (H1 := demo_normal) (H2 := demo_resources) (sort_items members))
    (fun ev => build_inspected_report (H1 := demo_normal) (H2 := demo_resources) ev demo_report_request None)
    (build_bundle (H2 := demo_resources)) demo_checks).
  vm_compute. reflexivity.
Qed.

Lemma snapshot_bundle_verifies_witness : exists built raw,
  build_bundle (H2 := demo_resources) built = Ok raw /\
  verify_bundle_bytes (H1 := demo_normal) (H2 := demo_resources) raw None = Ok built.
Proof.
  destruct demo_bundle as (members & ev & built & raw & _ & Hi & Hb & Hz & Hc). exists built, raw. split; [exact Hz|].
  unfold demo_checks in Hc. rewrite !andb_true_iff in Hc. destruct Hc as [Hd Hr].
  pose proof (in_members _ _ (inspect_members_Ok (H1 := demo_normal) (H2 := demo_resources) _ _ Hi)) as E. rewrite E in Hd.
  refine (snapshot_bundle_verifies (H1 := demo_normal) (H2 := demo_resources) (sort_items members) ev demo_report_request
            None built raw None _ demo_validate _ _ _ Hi _ _ _ _ Hb Hz _ I).
  - reflexivity.
  - discriminate.
  - discriminate.
  - apply bool_decide_eq_true in Hd. rewrite <- (sort_items_sorted members). by apply sorted_by_name.
  - vm_compute. split; [discriminate|reflexivity].
  - vm_compute. split; discriminate.
  - vm_compute. reflexivity.
  - done.
  - by apply bytes_ok_list.
Defined.
