(* ===== verification/Programs.v ===== *)
(** * Programs of atomic calls, run by several operations at once

    Code that talks to a file system or to shared memory is a [prog]: a finite tree of
    calls, one per access, that ends in a value or an exception.  [perform] says what a
    call does to the shared state; a [choice] resolves what the caller does not decide
    (fresh names, failures).  Operations interleave between calls and may stop for ever
    at any of them.  [sound] is a rely-guarantee rule: what each operation keeps for the
    others, call by call, holds in every reachable configuration; over the states with
    their past, it relates the end of an operation to what the state was at moments since
    its start. *)

From S2P Require Import Prelude.

(** ** Programs *)

Inductive prog (E : Type -> Type) (A : Type) : Type :=
  | Done (r : result A)
  | Call {B : Type} (c : E B) (k : result B -> prog E A).
Arguments Done {E A} r.
Arguments Call {E A B} c k.

(** A single call. *)
Definition do {E : Type -> Type} {A} (c : E A) : prog E A := Call c Done.

(** What follows however the first part ends: [except] and [finally] are instances. *)
Fixpoint prog_then {E A B} (p : prog E A) (f : result A -> prog E B) : prog E B :=
  match p with
  | Done r => f r
  | Call c k => Call c (fun a => prog_then (k a) f)
  end.

#[global] Instance prog_ret E : MRet (prog E) := fun A a => Done (Ok a).
#[global] Instance prog_bind E : MBind (prog E) := fun A B f p =>
  prog_then p (fun r => match r with Ok a => f a | Raise e => Done (Raise e) end).

(** A computation without calls. *)
Definition lift {E A} (m : result A) : prog E A := Done m.

(** [try: p  except cs as e: h e] *)
Definition prog_except {E A} (p : prog E A) (cs : list exc_class) (h : exn -> prog E A) : prog E A :=
  prog_then p (fun r => match r with
    | Ok a => Done (Ok a)
    | Raise e => if existsb (exc_subclass (exn_class e)) cs then h e else Done (Raise e)
    end).

(** [try: p  finally: q] *)
Definition prog_finally {E A} (p : prog E A) (q : prog E unit) : prog E A :=
  prog_then p (fun r => q ;; Done r).

(** [for x in l: f(x)] *)
Fixpoint prog_each {E A} (f : A -> prog E unit) (l : list A) : prog E unit :=
  match l with
  | [] => Done (Ok tt)
  | x :: l => f x ;; prog_each f l
  end.

(** The results of a loop, in order. *)
Fixpoint prog_map {E A B} (f : A -> prog E B) (l : list A) : prog E (list B) :=
  match l with
  | [] => Done (Ok [])
  | x :: l => y ← f x; ys ← prog_map f l; Done (Ok (y :: ys))
  end.

(** Every path of a program makes at most [n] calls. *)
Fixpoint calls_within {E A} (n : nat) (p : prog E A) {struct p} : Prop :=
  match p with
  | Done _ => True
  | Call _ k => match n with O => False | S n => forall a, calls_within n (k a) end
  end.

Lemma calls_within_le {E A} (p : prog E A) n m : calls_within n p -> (n <= m)%nat -> calls_within m p.
Proof.
  revert n m. induction p as [r|B c k IH]; intros n m Hn Hm; [exact I|].
  destruct n as [|n]; [destruct Hn|]. destruct m as [|m]; [lia|]. cbn in *. intros a. apply (IH a n); [apply Hn|lia].
Qed.

Lemma calls_within_then {E A B} (p : prog E A) (f : result A -> prog E B) n m :
  calls_within n p -> (forall r, calls_within m (f r)) -> calls_within (n + m) (prog_then p f).
Proof.
  revert n. induction p as [r|C c k IH]; intros n Hp Hf.
  - cbn [prog_then]. eapply calls_within_le; [apply Hf|lia].
  - cbn [prog_then]. destruct n as [|n]; [destruct Hp|]. cbn in *. intros a. by apply IH.
Qed.

Lemma calls_within_bind {E A B} (p : prog E A) (f : A -> prog E B) n m :
  calls_within n p -> (forall a, calls_within m (f a)) -> calls_within (n + m) (p ≫= f).
Proof. intros Hp Hf. apply calls_within_then; [done|]. intros [a|e]; [apply Hf|exact I]. Qed.

(** Every result a program can end in. *)
Fixpoint returns {E A} (p : prog E A) (Q : result A -> Prop) : Prop :=
  match p with
  | Done r => Q r
  | Call _ k => forall a, returns (k a) Q
  end.

Lemma returns_then {E A B} (p : prog E A) (f : result A -> prog E B) Q R :
  returns p Q -> (forall r, Q r -> returns (f r) R) -> returns (prog_then p f) R.
Proof. induction p as [r|C c k IH]; intros Hp Hf; cbn in *; [by apply Hf|]. intros a. by apply IH. Qed.

Lemma returns_any {E A} (p : prog E A) : returns p (fun _ => True).
Proof. induction p as [r|B c k IH]; [exact I|]. intros a. apply IH. Qed.

Lemma returns_bind {E A B} (p : prog E A) (f : A -> prog E B) Q R :
  returns p Q -> (forall a, Q (Ok a) -> returns (f a) R) -> (forall e, Q (Raise e) -> R (Raise e)) ->
  returns (p ≫= f) R.
Proof. intros Hp Hf He. eapply returns_then; [done|]. intros [a|e] Hq; [by apply Hf|by apply He]. Qed.

(** Every value a program can end in. *)
Definition yields {E A} (p : prog E A) (Q : A -> Prop) : Prop := returns p (fun r => forall a, r = Ok a -> Q a).

Lemma yields_bind {E A B} (p : prog E A) (f : A -> prog E B) P Q :
  yields p P -> (forall a, P a -> yields (f a) Q) -> yields (p ≫= f) Q.
Proof. intros Hp Hf. eapply returns_bind; [exact Hp|intros a Ha; by apply Hf, Ha|done]. Qed.

Lemma yields_any {E A} (p : prog E A) : yields p (fun _ => True).
Proof. induction p as [r|B c k IH]; [done|]. intros a. apply IH. Qed.

(** Whatever the first part yields. *)
Lemma yields_after {E A B} (p : prog E A) (f : A -> prog E B) Q : (forall a, yields (f a) Q) -> yields (p ≫= f) Q.
Proof. intros Hf. eapply yields_bind; [apply yields_any|by intros a _]. Qed.

Lemma yields_lift {E A} (m : result A) (Q : A -> Prop) : (forall a, m = Ok a -> Q a) -> yields (E := E) (lift m) Q.
Proof. done. Qed.

Lemma yields_lift_bind {E A B} (m : result A) (f : A -> prog E B) Q :
  (forall a, m = Ok a -> yields (f a) Q) -> yields (lift m ≫= f) Q.
Proof. intros Hf. apply (yields_bind _ _ (fun a => m = Ok a)); [by intros a|exact Hf]. Qed.

Lemma yields_then {E A B} (p : prog E A) (f : result A -> prog E B) Q : (forall r, yields (f r) Q) -> yields (prog_then p f) Q.
Proof. intros Hf. eapply returns_then; [apply returns_any|intros r _; apply Hf]. Qed.

Lemma yields_finally {E A} (p : prog E A) (q : prog E unit) Q : yields p Q -> yields (prog_finally p q) Q.
Proof.
  intros Hp. eapply returns_then; [exact Hp|]. intros r Hr. by apply yields_after.
Qed.

Lemma yields_except {E A} (p : prog E A) cs h Q : yields p Q -> (forall e, yields (h e) Q) -> yields (prog_except p cs h) Q.
Proof.
  intros Hp Hh. eapply returns_then; [exact Hp|]. intros [a|e] Hr; [done|]. destruct (existsb _ cs); [apply Hh|done].
Qed.

Lemma yields_map {E A B} (f : A -> prog E B) l (Q : A -> B -> Prop) :
  (forall x, x ∈ l -> yields (f x) (Q x)) -> yields (prog_map f l) (Forall2 Q l).
Proof.
  induction l as [|x l IH]; intros Hf; cbn [prog_map]; [by intros a [= <-]|].
  eapply yields_bind; [apply Hf; left|]. intros y Hy. eapply yields_bind; [apply IH; intros z Hz; apply Hf; by right|].
  intros ys Hys a [= <-]. by constructor.
Qed.

(** ** Running *)

Section semantics.
Context {E : Type -> Type} {St Ch Op : Type} `{Countable Op}.
Context (perform : Op -> forall B, E B -> Ch -> St -> result B * St).

(** An operation alone; the state decides the choices. *)
Fixpoint run {A} (me : Op) (oracle : St -> Ch) (p : prog E A) (s : St) : result A * St :=
  match p with
  | Done r => (r, s)
  | Call c k => run me oracle (k (fst (perform me _ c (oracle s) s))) (snd (perform me _ c (oracle s) s))
  end.

Lemma run_then {A B} me oracle (p : prog E A) (f : result A -> prog E B) s :
  run me oracle (prog_then p f) s = run me oracle (f (fst (run me oracle p s))) (snd (run me oracle p s)).
Proof. revert s. induction p as [r|C c k IH]; intros s; [done|]. cbn [prog_then run]. apply IH. Qed.

Lemma run_bind {A B} me oracle (p : prog E A) (f : A -> prog E B) s :
  run me oracle (p ≫= f) s =
  match fst (run me oracle p s) with
  | Ok a => run me oracle (f a) (snd (run me oracle p s))
  | Raise e => (Raise e, snd (run me oracle p s))
  end.
Proof. unfold mbind, prog_bind. rewrite run_then. by destruct (fst _). Qed.

Context (admissible : Ch -> St -> Prop).

(** One call of an operation. *)
Definition prog_step {A} (me : Op) (p : prog E A) (s : St) (p' : prog E A) (s' : St) : Prop :=
  match p with
  | Done _ => False
  | Call c k => exists ch a, admissible ch s /\ perform me _ c ch s = (a, s') /\ p' = k a
  end.

(** ** The rely-guarantee rule *)

Context (Inv : St -> Prop) (rely act : Op -> St -> St -> Prop).

(** What a step of an operation owes to the others, and what it may do itself. *)
Definition guarantee (me : Op) (s s' : St) : Prop :=
  Inv s' /\ act me s s' /\ forall o, o <> me -> rely o s s'.

(** Whatever the others do, the calls of [p] keep the guarantee and its results
    satisfy [Q]. *)
Fixpoint safe {A} (me : Op) (p : prog E A) (s : St) (Q : result A -> St -> Prop) : Prop :=
  forall s1, rely me s s1 -> Inv s1 ->
  match p with
  | Done r => Q r s1
  | Call c k => forall ch, admissible ch s1 ->
    guarantee me s1 (snd (perform me _ c ch s1)) /\
    safe me (k (fst (perform me _ c ch s1))) (snd (perform me _ c ch s1)) Q
  end.

Context (rely_refl : forall o s, rely o s s).
Context (rely_trans : forall o s1 s2 s3, rely o s1 s2 -> rely o s2 s3 -> rely o s1 s3).

Lemma safe_rely {A} me (p : prog E A) s s' Q : safe me p s Q -> rely me s s' -> safe me p s' Q.
Proof using rely_trans. destruct p; intros Hp Hr s1 H1 Hi; apply Hp; eauto. Qed.

Lemma safe_Done {A} me (r : result A) s Q :
  (forall s1, rely me s s1 -> Inv s1 -> Q r s1) -> safe me (Done r) s Q.
Proof. done. Qed.

Lemma safe_mono {A} me (p : prog E A) s Q R :
  safe me p s Q -> (forall r s, Q r s -> R r s) -> safe me p s R.
Proof.
  revert s. induction p as [r|B c k IH]; intros s Hp HQ s1 Hr Hi; [apply HQ, Hp; done|].
  intros ch Hch. destruct (Hp s1 Hr Hi ch Hch) as [Hg Hk]. split; [done|]. by apply IH.
Qed.

Lemma safe_then {A B} me (p : prog E A) (f : result A -> prog E B) s Q R :
  safe me p s Q -> (forall r s', Inv s' -> Q r s' -> safe me (f r) s' R) -> safe me (prog_then p f) s R.
Proof using rely_refl.
  revert s. induction p as [r|C c k IH]; intros s Hp Hf.
  - cbn [prog_then]. assert (forall s1, rely me s s1 -> Inv s1 -> safe me (f r) s1 R) as H1.
    { intros s1 Hr Hi. apply Hf; [done|]. by apply Hp. }
    destruct (f r) as [r'|D c k]; intros s1 Hr Hi; apply (H1 s1); auto.
  - intros s1 Hr Hi ch Hch. destruct (Hp s1 Hr Hi ch Hch) as [Hg Hk]. split; [done|]. by apply IH.
Qed.

Lemma safe_bind {A B} me (p : prog E A) (f : A -> prog E B) s Q R :
  safe me p s Q -> (forall a s', Inv s' -> Q (Ok a) s' -> safe me (f a) s' R) ->
  (forall e s' s1, Inv s' -> Q (Raise e) s' -> rely me s' s1 -> Inv s1 -> R (Raise e) s1) ->
  safe me (p ≫= f) s R.
Proof using rely_refl.
  intros Hp Hf He. eapply safe_then; [exact Hp|]. intros [a|e] s' Hi Hq; [by apply Hf|].
  apply safe_Done. intros s1 Hr Hi1. by apply (He e s').
Qed.

(** A call. *)
Lemma safe_Call {A B} me (c : E B) (k : result B -> prog E A) s Q :
  (forall s1 ch, rely me s s1 -> Inv s1 -> admissible ch s1 ->
    guarantee me s1 (snd (perform me _ c ch s1)) /\
    safe me (k (fst (perform me _ c ch s1))) (snd (perform me _ c ch s1)) Q) ->
  safe me (Call c k) s Q.
Proof. intros Hc s1 Hr Hi ch Hch. by apply Hc. Qed.

(** ** Results only: nothing is said of what raises *)

Definition on_Ok {A} (Q : A -> St -> Prop) (r : result A) (s : St) : Prop := match r with Ok a => Q a s | Raise _ => True end.

Lemma safe_Ok_bind {A B} me (p : prog E A) (f : A -> prog E B) s Q R :
  safe me p s (on_Ok Q) -> (forall a s', Inv s' -> Q a s' -> safe me (f a) s' (on_Ok R)) -> safe me (p ≫= f) s (on_Ok R).
Proof using rely_refl. intros Hp Hf. by eapply safe_bind. Qed.

Lemma safe_Ok_lift {A B} me (m : result A) (f : A -> prog E B) s Q :
  (forall a, m = Ok a -> safe me (f a) s (on_Ok Q)) -> safe me (lift m ≫= f) s (on_Ok Q).
Proof. intros Hf. destruct m as [a|e]; [by apply Hf|by apply safe_Done]. Qed.

Lemma safe_Ok_return {A} me (m : result A) s Q :
  (forall a s', m = Ok a -> rely me s s' -> Inv s' -> Q a s') -> safe me (lift m) s (on_Ok Q).
Proof. intros Hm. apply safe_Done. intros s1 Hr Hi. destruct m; [by apply Hm|done]. Qed.

(** ** Calls that no operation notices, the caller's own claims included *)

Section silent.
Context (silent : forall B, E B -> Prop).
Context (Hsilent : forall me B (e : E B) ch s, silent B e -> admissible ch s -> Inv s ->
  guarantee me s (snd (perform me B e ch s)) /\ rely me s (snd (perform me B e ch s))).

Lemma safe_silent_call {A B} me (e : E B) (k : result B -> prog E A) s Q :
  silent B e ->
  (forall ch s1, rely me s s1 -> Inv s1 -> admissible ch s1 ->
    safe me (k (fst (perform me B e ch s1))) (snd (perform me B e ch s1)) Q) ->
  safe me (Call e k) s Q.
Proof using Hsilent.
  intros He Hk. apply safe_Call. intros s1 ch Hr Hi Hch. split; [by apply Hsilent|by apply Hk].
Qed.

Lemma safe_silent_do {A B} me (e : E B) (f : B -> prog E A) s Q :
  silent B e -> (forall b s', rely me s s' -> safe me (f b) s' (on_Ok Q)) -> safe me (do e ≫= f) s (on_Ok Q).
Proof using Hsilent rely_trans.
  intros He Hf. apply safe_silent_call; [done|]. intros ch s1 Hr Hi Hch.
  assert (rely me s (snd (perform me B e ch s1))) as Hr2 by (eapply rely_trans; [exact Hr|by apply Hsilent]).
  destruct (fst (perform me B e ch s1)) as [b|x]; [by apply Hf|by apply safe_Done].
Qed.

Fixpoint silent_program {A} (p : prog E A) : Prop :=
  match p with Done _ => True | Call e k => silent _ e /\ forall a, silent_program (k a) end.

Lemma silent_program_then {A B} (p : prog E A) (f : result A -> prog E B) :
  silent_program p -> (forall r, silent_program (f r)) -> silent_program (prog_then p f).
Proof. induction p as [r|C c k IH]; intros Hp Hf; [apply Hf|]. split; [apply Hp|]. intros a. apply IH; [apply Hp|done]. Qed.

Lemma silent_program_bind {A B} (p : prog E A) (f : A -> prog E B) :
  silent_program p -> (forall a, silent_program (f a)) -> silent_program (p ≫= f).
Proof. intros Hp Hf. apply silent_program_then; [done|]. intros [a|e]; [apply Hf|done]. Qed.

Lemma safe_silent {A} me (p : prog E A) s : silent_program p -> safe me p s (fun _ s' => rely me s s').
Proof using Hsilent rely_refl rely_trans.
  enough (forall s', rely me s s' -> silent_program p -> safe me p s' (fun _ s' => rely me s s')) as Hs by apply Hs, rely_refl.
  induction p as [r|C c k IH]; intros s' Hs Hp.
  - apply safe_Done. intros s1 Hr _. by apply (rely_trans _ _ s').
  - apply safe_silent_call; [apply Hp|]. intros ch s1 Hr Hi Hch. apply IH; [|apply Hp].
    apply (rely_trans _ _ s'); [done|]. apply (rely_trans _ _ s1); [done|]. by apply Hsilent; [apply Hp|..].
Qed.

(** What it can return, besides. *)
Lemma safe_silent_returns {A} me (p : prog E A) s P :
  silent_program p -> returns p P -> safe me p s (fun r s' => rely me s s' /\ P r).
Proof using Hsilent rely_refl rely_trans.
  intros Hs. revert s. enough (forall s0 s, rely me s0 s -> silent_program p -> returns p P -> safe me p s (fun r s' => rely me s0 s' /\ P r)) as He
    by (intros s; apply He; [apply rely_refl|exact Hs]).
  clear Hs. intros s0 s Hr. revert s Hr. induction p as [r|C c k IH]; intros s Hr Hs Hp.
  - apply safe_Done. intros s1 Hr1 _. split; [by apply (rely_trans _ _ s)|exact Hp].
  - apply safe_silent_call; [apply Hs|]. intros ch s1 Hr1 Hi Hch. apply IH; [|apply Hs|apply Hp].
    apply (rely_trans _ _ s); [done|]. apply (rely_trans _ _ s1); [done|]. by apply Hsilent; [apply Hs|..].
Qed.

Lemma safe_silent_bind {A B} me (p : prog E A) (f : A -> prog E B) s Q :
  silent_program p -> (forall a s', rely me s s' -> safe me (f a) s' (on_Ok Q)) -> safe me (p ≫= f) s (on_Ok Q).
Proof using Hsilent rely_refl rely_trans.
  intros Hp Hf. eapply safe_bind; [by apply safe_silent|intros a s' _; apply Hf|done].
Qed.
End silent.

(** ** Configurations: the shared state and the operations under way *)

Context {Out : Type} (stop : Op -> St -> St) (idle : Op -> St -> Prop).

Definition config : Type := St * gmap Op (prog E Out).

(** An operation starts, makes a call, ends, or is stopped with its process, at any
    point. *)
Inductive step (started : Op -> prog E Out -> Prop) : config -> config -> Prop :=
  | step_start o p s pool : pool !! o = None -> idle o s -> started o p ->
      step started (s, pool) (s, <[o := p]> pool)
  | step_call o p p' s s' pool : pool !! o = Some p -> prog_step o p s p' s' ->
      step started (s, pool) (s', <[o := p']> pool)
  | step_end o r s pool : pool !! o = Some (Done r) -> step started (s, pool) (s, delete o pool)
  | step_stop o s pool : step started (s, pool) (stop o s, delete o pool).

Context (started : Op -> prog E Out -> Prop) (Post : Op -> result Out -> St -> Prop).
Context (act_refl : forall o s, act o s s).
Context (Hstop : forall o s, Inv s -> guarantee o s (stop o s)).
Context (Hstarted : forall o p s, started o p -> Inv s -> idle o s -> safe o p s (Post o)).

(** Every operation under way is safe from the present state. *)
Definition config_ok (c : config) : Prop :=
  Inv (fst c) /\ forall o p, snd c !! o = Some p -> safe o p (fst c) (Post o).

Lemma step_ok c c' : config_ok c -> step started c c' -> config_ok c'.
Proof using Hstarted Hstop act_refl rely_refl rely_trans.
  intros [Hi Hp] Hs. destruct Hs as [o p s pool Hn Hidle Ho|o p p' s s' pool Ho Hs|o r s pool Ho|o s pool]; cbn in *.
  - split; [done|]. intros o' p'. cbn. rewrite lookup_insert_Some. intros [[<- <-]|[_ Hl]]; [by apply Hstarted|by apply Hp].
  - destruct p as [|B c k]; [done|]. destruct Hs as (ch & a & Hch & E0 & ->).
    destruct (Hp o _ Ho s (rely_refl o s) Hi ch Hch) as [Hg Hk]. rewrite E0 in Hg, Hk. cbn in Hg, Hk.
    destruct Hg as (Hi' & _ & Hr). split; [done|]. intros o' p'. cbn. rewrite lookup_insert_Some.
    intros [[<- <-]|[Hne Hl]]; [done|]. eapply safe_rely; [by apply Hp|by apply Hr].
  - split; [done|]. intros o' p'. cbn. rewrite lookup_delete_Some. intros [_ Hl]. by apply Hp.
  - destruct (Hstop o s Hi) as (Hi' & _ & Hr). split; [done|]. intros o' p'. cbn. rewrite lookup_delete_Some.
    intros [Hne Hl]. eapply safe_rely; [by apply Hp|by apply Hr].
Qed.

(** The states and operations reachable from a state in which nothing is under way. *)
Definition reachable (s0 : St) (c : config) : Prop := rtc (step started) (s0, ∅) c.

Lemma reachable_ok s0 c : Inv s0 -> reachable s0 c -> config_ok c.
Proof using Hstarted Hstop act_refl rely_refl rely_trans.
  intros Hi Hr. unfold reachable in Hr. remember (s0, ∅ : gmap Op (prog E Out)) as c0.
  assert (config_ok c0) as H0. { subst. split; [done|]. intros o p. cbn. by rewrite lookup_empty. }
  clear Heqc0. induction Hr as [|c1 c2 c3 Hs _ IH]; [done|]. apply IH. by apply (step_ok c1).
Qed.

(** A run is a sequence of steps. *)
Lemma run_steps oracle o p s pool :
  (forall s, admissible (oracle s) s) -> pool !! o = Some p ->
  rtc (step started) (s, pool) (snd (run o oracle p s), <[o := Done (fst (run o oracle p s))]> pool).
Proof using.
  intros Ho. revert s pool. induction p as [r|B c k IH]; intros s pool Hp.
  - cbn [run fst snd]. by rewrite insert_id.
  - eapply rtc_l.
    + eapply step_call; [exact Hp|]. exists (oracle s), (fst (perform o _ c (oracle s) s)). split; [apply Ho|].
      split; [apply surjective_pairing|reflexivity].
    + cbn [run]. set (a := fst (perform o _ c (oracle s) s)).
      rewrite <- (insert_insert_eq pool o (Done (fst (run o oracle (k a) (snd (perform o _ c (oracle s) s))))) (k a)). apply IH. by rewrite lookup_insert_eq.
Qed.

(** Every step is an action of one operation. *)
Lemma step_act c c' : config_ok c -> step started c c' -> exists o, act o (fst c) (fst c').
Proof using Hstop act_refl rely_refl.
  intros [Hi Hp] Hs. destruct Hs as [o p s pool Hn Hidle Ho|o p p' s s' pool Ho Hs|o r s pool Ho|o s pool]; cbn in *.
  - exists o. apply act_refl.
  - destruct p as [|B c k]; [done|]. destruct Hs as (ch & a & Hch & E0 & ->).
    destruct (Hp o _ Ho s (rely_refl o s) Hi ch Hch) as [(_ & Ha & _) _]. rewrite E0 in Ha. by exists o.
  - exists o. apply act_refl.
  - exists o. apply (Hstop o s Hi).
Qed.

(** An operation that is not under way, and may not start, is served by every step as
    the others may rely on it. *)
Lemma step_absent c c' o :
  (forall s, Inv s -> rely o s (stop o s)) -> config_ok c -> step started c c' -> snd c !! o = None -> ~ idle o (fst c) ->
  rely o (fst c) (fst c') /\ snd c' !! o = None.
Proof using Hstop rely_refl.
  intros Hself [Hi Hp] Hs Ho Hn. destruct Hs as [o' p s pool Hn' Hidle _|o' p p' s s' pool Ho' Hs|o' r s pool Ho'|o' s pool]; cbn in *.
  - assert (o' <> o) by (intros ->; done). by rewrite lookup_insert_ne.
  - assert (o' <> o) by (intros ->; congruence). rewrite lookup_insert_ne by done. split; [|done].
    destruct p as [|B c k]; [done|]. destruct Hs as (ch & a & Hch & E0 & ->).
    destruct (Hp o' _ Ho' s (rely_refl o' s) Hi ch Hch) as [(_ & _ & Hr) _]. rewrite E0 in Hr. by apply Hr.
  - split; [done|]. apply lookup_delete_None. by right.
  - split; [|apply lookup_delete_None; by right]. destruct (decide (o = o')) as [->|Hne]; [by apply Hself|by apply (Hstop o' s Hi)].
Qed.

(** The result of an operation, when it ends. *)
Lemma end_ok c o r : config_ok c -> snd c !! o = Some (Done r) -> Post o r (fst c).
Proof using rely_refl. intros [Hi Hp] Ho. by apply (Hp o _ Ho). Qed.
End semantics.

(** ** The past of a run

    The shared state with the states that a run has passed through: what is said of the
    past holds of the run that was made. *)

Section past.
Context {E : Type -> Type} {St Ch Op : Type} `{Countable Op}.
Context (perform : Op -> forall B, E B -> Ch -> St -> result B * St).
Context (admissible : Ch -> St -> Prop) (Inv : St -> Prop) (rely act : Op -> St -> St -> Prop).
Context {Out : Type} (stop : Op -> St -> St) (idle : Op -> St -> Prop) (started : Op -> prog E Out -> Prop).

Definition perform_past (me : Op) (B : Type) (c : E B) (ch : Ch) (sp : St * list St) : result B * (St * list St) :=
  let x := perform me B c ch (fst sp) in (fst x, (snd x, snd x :: snd sp)).
Definition admissible_past (ch : Ch) (sp : St * list St) : Prop := admissible ch (fst sp).
Definition Inv_past (sp : St * list St) : Prop := Inv (fst sp) /\ fst sp ∈ snd sp.
Definition rely_past (me : Op) (sp sp' : St * list St) : Prop := rely me (fst sp) (fst sp') /\ snd sp ⊆ snd sp'.
Definition act_past (me : Op) (sp sp' : St * list St) : Prop := act me (fst sp) (fst sp').
Definition stop_past (o : Op) (sp : St * list St) : St * list St := (stop o (fst sp), stop o (fst sp) :: snd sp).
Definition idle_past (o : Op) (sp : St * list St) : Prop := idle o (fst sp).

Lemma rely_past_refl : (forall o s, rely o s s) -> forall o sp, rely_past o sp sp.
Proof. intros Hr o sp. by split. Qed.

Lemma rely_past_trans :
  (forall o s1 s2 s3, rely o s1 s2 -> rely o s2 s3 -> rely o s1 s3) ->
  forall o s1 s2 s3, rely_past o s1 s2 -> rely_past o s2 s3 -> rely_past o s1 s3.
Proof. intros Hr o s1 s2 s3 [H1 H2] [H3 H4]. split; [by eapply Hr|by etransitivity]. Qed.

Lemma guarantee_past me sp s' :
  guarantee Inv rely act me (fst sp) s' -> guarantee Inv_past rely_past act_past me sp (s', s' :: snd sp).
Proof.
  intros (Hi & Ha & Hr). split_and!; [split; [done|left]|done|]. intros o Ho. split; [by apply Hr|]. intros t Ht. by right.
Qed.

(** A program that is safe is safe with the past, which then has the state it ends in. *)
Lemma safe_past {A} me (p : prog E A) s h Q :
  safe perform admissible Inv rely act me p s Q ->
  safe perform_past admissible_past Inv_past rely_past act_past me p (s, h)
    (fun r sp => Q r (fst sp) /\ h ⊆ snd sp /\ fst sp ∈ snd sp).
Proof.
  revert s h. induction p as [r|B c k IH]; intros s h Hp [s1 h1] [Hr Hh] [Hi Hin]; cbn [fst snd] in *.
  - split_and!; [by apply Hp|done|done].
  - intros ch Hch. destruct (Hp s1 Hr Hi ch Hch) as [Hg Hk]. cbn [perform_past fst snd]. split; [by apply guarantee_past|].
    eapply safe_mono; [by apply IH|]. intros r sp (Hq & Hsub & Hc). split_and!; [done| |done].
    intros t Ht. apply Hsub. right. by apply Hh.
Qed.

(** What is safe with the past is safe without it. *)
Lemma safe_present {A} me (p : prog E A) s h Q :
  safe perform_past admissible_past Inv_past rely_past act_past me p (s, h) Q ->
  safe perform admissible Inv rely act me p s (fun r s' => exists h', Q r (s', h')).
Proof.
  revert s h. induction p as [r|B c k IH]; intros s h Hp s1 Hr Hi.
  - exists (s1 :: h). apply (Hp (s1, s1 :: h)); split; cbn; [done| |done|by left]. intros t Ht. by right.
  - intros ch Hch. destruct (Hp (s1, s1 :: h)) with (ch := ch) as [Hg Hk]; [split; cbn; [done|intros t Ht; by right]|split; [done|by left]|done|].
    destruct Hg as ([Hi' _] & Ha & Hrel). cbn [perform_past fst snd] in *. split; [|by eapply IH].
    split_and!; [done|done|]. intros o Ho. by apply Hrel.
Qed.

(** A call that is silent is silent with the past. *)
Lemma silent_past (silent : forall B, E B -> Prop) :
  (forall me B (c : E B) ch s, silent B c -> admissible ch s -> Inv s ->
    guarantee Inv rely act me s (snd (perform me B c ch s)) /\ rely me s (snd (perform me B c ch s))) ->
  forall me B (c : E B) ch sp, silent B c -> admissible_past ch sp -> Inv_past sp ->
    guarantee Inv_past rely_past act_past me sp (snd (perform_past me B c ch sp)) /\ rely_past me sp (snd (perform_past me B c ch sp)).
Proof.
  intros Hs me B c ch sp Hc Hch [Hi _]. destruct (Hs me B c ch (fst sp) Hc Hch Hi) as [Hg Hr].
  split; [by apply guarantee_past|]. split; [exact Hr|]. intros t Ht. by right.
Qed.

(** A run in which an operation is not started: one that is under way at its start and
    at its end is under way throughout. *)
Definition meanwhile (o : Op) : St * gmap Op (prog E Out) -> St * gmap Op (prog E Out) -> Prop :=
  rtc (step perform admissible stop idle (fun o' p => o' <> o /\ started o' p)).

(** A moment of the run from [c1] to [c] at which [P] held of the state. *)
Definition at_a_moment (o : Op) (c1 c : St * gmap Op (prog E Out)) (P : St -> Prop) : Prop :=
  exists t pool, meanwhile o c1 (t, pool) /\ meanwhile o (t, pool) c /\ P t.

(** Every run has a past, whose states are those it passed through. *)
Lemma run_past (start : Op -> prog E Out -> Prop) c1 c :
  rtc (step perform admissible stop idle start) c1 c ->
  exists h, rtc (step perform_past admissible_past stop_past idle_past start) ((fst c1, [fst c1]), snd c1) ((fst c, h), snd c) /\
    forall t, t ∈ h -> exists pool, rtc (step perform admissible stop idle start) c1 (t, pool) /\
      rtc (step perform admissible stop idle start) (t, pool) c.
Proof.
  intros Hr. pattern c. revert c Hr. apply rtc_ind_r.
  - exists [fst c1]. split; [constructor|]. intros t ->%list_elem_of_singleton. exists (snd c1). by rewrite <- surjective_pairing.
  - intros c c' Hr Hs (h & Hh & Hin).
    assert (forall h', (forall t, t ∈ h' -> t ∈ h \/ t = fst c') ->
      step perform_past admissible_past stop_past idle_past start ((fst c, h), snd c) ((fst c', h'), snd c') ->
      exists h, rtc (step perform_past admissible_past stop_past idle_past start) ((fst c1, [fst c1]), snd c1) ((fst c', h), snd c') /\
        forall t, t ∈ h -> exists pool, rtc (step perform admissible stop idle start) c1 (t, pool) /\
          rtc (step perform admissible stop idle start) (t, pool) c') as Hnext.
    { intros h' Hsub Hst. exists h'. split; [by eapply rtc_r|]. intros t Ht. destruct (Hsub t Ht) as [Hth| ->].
      - destruct (Hin t Hth) as (pool & Hp1 & Hp2). exists pool. split; [done|]. by eapply rtc_r.
      - exists (snd c'). rewrite <- surjective_pairing. split; [by eapply rtc_r|constructor]. }
    destruct Hs as [o p s pool Hn Hidle Ho|o p p' s s' pool Ho Hst|o r s pool Ho|o s pool]; cbn [fst snd] in *.
    + apply (Hnext h); [by left|]. by apply step_start.
    + apply (Hnext (s' :: h)); [by intros t [->|Ht]%elem_of_cons; [right|left]|]. eapply step_call; [exact Ho|].
      destruct p as [|B e k]; [done|]. destruct Hst as (ch & a & Hch & Ea & ->). exists ch, a. split; [done|]. split; [|done].
      unfold perform_past. cbn [fst snd]. by rewrite Ea.
    + apply (Hnext h); [by left|]. by eapply step_end.
    + apply (Hnext (stop o s :: h)); [by intros t [->|Ht]%elem_of_cons; [right|left]|]. apply (step_stop _ _ stop_past).
Qed.

(** What is under way was started, and has been under way since. *)
Lemma since_start s0 c o p' :
  reachable perform admissible stop idle started s0 c -> snd c !! o = Some p' ->
  exists s1 pool1 p, reachable perform admissible stop idle started s0 (s1, pool1) /\ idle o s1 /\ started o p /\
    pool1 !! o = Some p /\ meanwhile o (s1, pool1) c.
Proof.
  unfold reachable. intros Hr. revert p'. pattern c. revert c Hr. apply rtc_ind_r.
  - intros p'. cbn. by rewrite lookup_empty.
  - intros c c' Hr Hs IH p' Hp'.
    assert (forall q, snd c !! o = Some q -> step perform admissible stop idle (fun o' p => o' <> o /\ started o' p) c c' ->
      exists s1 pool1 p, rtc (step perform admissible stop idle started) (s0, ∅) (s1, pool1) /\ idle o s1 /\ started o p /\
        pool1 !! o = Some p /\ meanwhile o (s1, pool1) c') as Hnext.
    { intros q Hq Hst. destruct (IH q Hq) as (s1 & pool1 & p & H1 & H2 & H3 & H4 & H5). exists s1, pool1, p. split_and!; try done. by eapply rtc_r. }
    destruct Hs as [o1 p s pool Hn Hidle Ho|o1 p p1 s s' pool Ho Hst|o1 r s pool Ho|o1 s pool]; cbn [fst snd] in *.
    + destruct (decide (o1 = o)) as [->|Hne].
      * exists s, (<[o := p]> pool), p. split_and!; [|done|done|by rewrite lookup_insert_eq|constructor]. eapply rtc_r; [exact Hr|]. by apply step_start.
      * rewrite lookup_insert_ne in Hp' by done. apply (Hnext p' Hp'). by apply step_start.
    + destruct (decide (o1 = o)) as [->|Hne]; [apply (Hnext p Ho)|rewrite lookup_insert_ne in Hp' by done; apply (Hnext p' Hp')]; by eapply step_call.
    + apply lookup_delete_Some in Hp' as [Hne Hp']. apply (Hnext p' Hp'). by eapply step_end.
    + apply lookup_delete_Some in Hp' as [Hne Hp']. apply (Hnext p' Hp'). apply step_stop.
Qed.

(** What an operation that ends establishes of the past since its start holds of states
    of the run, while it was under way. *)
Lemma end_past Post s0 c o r :
  (forall o s, rely o s s) -> (forall o s1 s2 s3, rely o s1 s2 -> rely o s2 s3 -> rely o s1 s3) -> (forall o s, act o s s) ->
  (forall o s, Inv s -> guarantee Inv rely act o s (stop o s)) ->
  (forall o p s, started o p -> Inv s -> idle o s -> safe perform admissible Inv rely act o p s (Post o)) ->
  Inv s0 -> reachable perform admissible stop idle started s0 c -> snd c !! o = Some (Done r) ->
  exists s1 pool1 p, reachable perform admissible stop idle started s0 (s1, pool1) /\ idle o s1 /\ started o p /\
    pool1 !! o = Some p /\ meanwhile o (s1, pool1) c /\
    forall Q, safe perform_past admissible_past Inv_past rely_past act_past o p (s1, [s1]) Q ->
      exists h, Q r (fst c, h) /\ forall P, (exists t, t ∈ h /\ P t) -> at_a_moment o (s1, pool1) c P.
Proof.
  intros Hrefl Htrans Hact Hstop Hstarted Hi Hr Hend.
  destruct (since_start s0 c o _ Hr Hend) as (s1 & pool1 & p & H1 & H2 & H3 & H4 & H5). exists s1, pool1, p. split_and!; try done.
  intros Q Hp. destruct (run_past _ _ _ H5) as (h & Hrun & Hin). exists h. split.
  2: { intros P (t & Ht & HP). destruct (Hin t Ht) as (pool' & Ha & Hb). by exists t, pool'. }
  destruct (reachable_ok _ _ _ _ _ Hrefl Htrans stop idle started Post Hact Hstop Hstarted s0 _ Hi H1) as [Hi1 Hpool].
  set (PostX := fun o' r sp => if decide (o' = o) then Q r sp else Post o' r (fst sp)).
  assert (config_ok perform_past admissible_past Inv_past rely_past act_past PostX ((s1, [s1]), pool1)) as Hok.
  { split; [split; [done|by left]|]. intros o' p' Hl. cbn [fst snd] in *. unfold PostX. case_decide as Ho.
    - subst o'. assert (p' = p) as -> by congruence. done.
    - eapply safe_mono; [by apply safe_past, Hpool|]. by intros r' sp (Hq & _). }
  assert (config_ok perform_past admissible_past Inv_past rely_past act_past PostX ((fst c, h), snd c)) as Hok'.
  { cbn [fst snd] in Hrun. revert Hok. generalize ((s1, [s1]), pool1), ((fst c, h), snd c), Hrun. clear -Hrefl Htrans Hact Hstop Hstarted.
    intros c1 c2 Hrun. induction Hrun as [|c1 c2 c3 Hs _ IH]; [done|]. intros Hok. apply IH.
    refine (step_ok _ _ _ _ _ (rely_past_refl Hrefl) (rely_past_trans Htrans) _ _ _ PostX _ _ _ c1 c2 Hok Hs).
    - intros o1 sp. apply Hact.
    - intros o1 sp [Hi1 _]. apply guarantee_past, (Hstop o1 (fst sp) Hi1).
    - intros o' p' [s' h'] [Hne Ho'] [Hi' _] Hidle.
      eapply safe_mono; [by apply safe_past, (Hstarted o')|]. intros r' sp (Hq & _). unfold PostX. by rewrite decide_False. }
  pose proof (end_ok _ _ _ _ _ (rely_past_refl Hrefl) PostX _ o r Hok' Hend) as HQ. unfold PostX in HQ. by rewrite decide_True in HQ.
Qed.
End past.

(** ** Traces

    What a program does on its own, whatever its calls answer. *)

Inductive interaction (E : Type -> Type) : Type := | Answered {B : Type} (c : E B) (a : result B).
Arguments Answered {E B} c a.

(** [p] may make the calls [t], get their answers, and end in [r]. *)
Fixpoint trace {E A} (p : prog E A) (t : list (interaction E)) (r : result A) : Prop :=
  match p with
  | Done r' => t = [] /\ r = r'
  | Call c k => exists a t', t = Answered c a :: t' /\ trace (k a) t' r
  end.

Lemma trace_then {E A B} (p : prog E A) (f : result A -> prog E B) t r :
  trace (prog_then p f) t r <-> exists t1 r1 t2, t = t1 ++ t2 /\ trace p t1 r1 /\ trace (f r1) t2 r.
Proof.
  revert t. induction p as [r0|C c k IH]; intros t; cbn [prog_then trace].
  - split; [intros Ht; by exists [], r0, t|]. by intros (t1 & r1 & t2 & -> & [-> ->] & Ht).
  - split.
    + intros (a & t' & -> & (t1 & r1 & t2 & -> & H1 & H2)%IH). exists (Answered c a :: t1), r1, t2.
      split; [done|]. split; [by exists a, t1|done].
    + intros (t1 & r1 & t2 & -> & (a & t' & -> & H1) & H2). exists a, (t' ++ t2). split; [done|]. apply IH. by exists t', r1, t2.
Qed.

(** What is said of every trace of a program. *)
Definition tells {E A} (p : prog E A) (Q : list (interaction E) -> result A -> Prop) : Prop := forall t r, trace p t r -> Q t r.

Lemma tells_then {E A B} (p : prog E A) (f : result A -> prog E B) P Q :
  tells p P -> (forall t1 r1, P t1 r1 -> tells (f r1) (fun t2 r => Q (t1 ++ t2) r)) -> tells (prog_then p f) Q.
Proof. intros Hp Hf t r (t1 & r1 & t2 & -> & H1 & H2)%trace_then. by eapply Hf; [apply Hp|]. Qed.

Lemma tells_bind {E A B} (p : prog E A) (f : A -> prog E B) P Q :
  tells p P -> (forall t1 a, P t1 (Ok a) -> tells (f a) (fun t2 r => Q (t1 ++ t2) r)) -> (forall t1 e, P t1 (Raise e) -> Q t1 (Raise e)) ->
  tells (p ≫= f) Q.
Proof.
  intros Hp Hf He. eapply tells_then; [exact Hp|]. intros t1 [a|e] H1; [by apply Hf|].
  intros t2 r [-> ->]. rewrite app_nil_r. by apply He.
Qed.

Lemma tells_lift {E A} (m : result A) (Q : list (interaction E) -> result A -> Prop) : Q [] m -> tells (lift m) Q.
Proof. by intros HQ t r [-> ->]. Qed.

Lemma tells_do {E : Type -> Type} {A} (c : E A) (Q : list (interaction E) -> result A -> Prop) : (forall a, Q [Answered c a] a) -> tells (do c) Q.
Proof. intros HQ t r (a & t' & -> & [-> ->]). apply HQ. Qed.

Lemma tells_weaken {E A} (p : prog E A) (P Q : list (interaction E) -> result A -> Prop) : tells p P -> (forall t r, P t r -> Q t r) -> tells p Q.
Proof. intros Hp HQ t r Ht. by apply HQ, Hp. Qed.

Lemma tells_finally {E A} (p : prog E A) (q : prog E unit) P Q R :
  tells p P -> tells q Q -> (forall t1 r1 t2 r2, P t1 r1 -> Q t2 r2 -> R (t1 ++ t2) (r2 ;; r1)) -> tells (prog_finally p q) R.
Proof.
  intros Hp Hq HR. eapply tells_then; [exact Hp|]. intros t1 r1 H1 t2 r H2.
  apply trace_then in H2 as (t3 & r2 & t4 & -> & H3%Hq & H4). specialize (HR _ _ _ _ H1 H3).
  destruct r2 as [[]|e]; destruct H4 as [-> ->]; by rewrite app_nil_r.
Qed.

Lemma tells_except {E A} (p : prog E A) cs h P Q :
  tells p P -> (forall t1 a, P t1 (Ok a) -> Q t1 (Ok a)) ->
  (forall t1 e, P t1 (Raise e) -> existsb (exc_subclass (exn_class e)) cs = false -> Q t1 (Raise e)) ->
  (forall t1 e, P t1 (Raise e) -> existsb (exc_subclass (exn_class e)) cs = true -> tells (h e) (fun t2 r => Q (t1 ++ t2) r)) ->
  tells (prog_except p cs h) Q.
Proof.
  intros Hp HO HR Hh. eapply tells_then; [exact Hp|]. intros t1 [a|e] H1.
  - intros t2 r [-> ->]. rewrite app_nil_r. by apply HO.
  - destruct (existsb _ _) eqn:Ee; [by apply Hh|]. intros t2 r [-> ->]. rewrite app_nil_r. by apply HR.
Qed.

(** A run leaves a trace. *)
Lemma run_trace {E : Type -> Type} {St Ch Op : Type} (perform : Op -> forall B, E B -> Ch -> St -> result B * St) {A} me oracle (p : prog E A) s :
  exists t, trace p t (fst (run perform me oracle p s)).
Proof.
  revert s. induction p as [r|B c k IH]; intros s; cbn [run trace]; [by exists []|].
  destruct (IH (fst (perform me B c (oracle s) s)) (snd (perform me B c (oracle s) s))) as [t Ht].
  by exists (Answered c (fst (perform me B c (oracle s) s)) :: t), (fst (perform me B c (oracle s) s)), t.
Qed.
