(* ===== verification/Store.v ===== *)
(** * The report store: [publish_artifact], [read_published] and [delete_published] of [liqvera_evidence_report.evidence_bundle]

    A store is a directory of reports, of their locks and of temporary directories,
    used by several operations at once.  This file holds the calls of the file system,
    the three operations as programs of these calls, and the contract they keep: the
    phases of a report and the lock that guards them. *)

From S2P Require Import Prelude PyStr Num PyObj Json Bytes FrozenPackage EvidenceIo Documents MezoDex TroveReport SealedInput Archive Report Bundle Programs.
Open Scope Z_scope.

(** ** The file system *)

(** Numbers of inodes, and the operations (each with its own descriptors). *)
Definition ino : Type := positive.
Definition op : Type := positive.

Inductive kind := KFile | KDirectory | KLink | KSpecial.

#[global] Instance kind_eq_dec : EqDecision kind.
Proof. solve_decision. Defined.

(** What a directory of the root holds: the code never looks below. *)
Inductive leaf := LFile (raw : bytes) | LDirectory | LLink | LSpecial.

(** What the root holds: a file with its number of links, a directory, a link with the
    kind of its target when there is one. *)
Inductive entry :=
  | EFile (raw : bytes) (links : Z)
  | EDirectory (d : gmap pystr (ino * leaf))
  | ELink (target : option kind)
  | ESpecial.

(** The root path, what is found under it, and the owner of each file lock ([flock]). *)
Record store := mkStore {
  st_root : kind; st_entries : gmap pystr (ino * entry); st_locks : gmap ino op }.

Definition with_entries (f : gmap pystr (ino * entry) -> gmap pystr (ino * entry)) (s : store) : store :=
  mkStore (st_root s) (f (st_entries s)) (st_locks s).

(** A descriptor of an entry of the root: its name and inode. *)
Definition fd : Type := pystr * ino.

Record status := mkStatus { sx_kind : kind; sx_ino : ino; sx_links : Z }.

Definition is_kind (k : kind) (st : status) : bool := bool_decide (sx_kind st = k).

(** The calls, each atomic.  Closing is the only one that cannot fail. *)
Inductive call : Type -> Type :=
  | RootIsSymlink : call bool
  | RootIsDirectory : call bool
  | OpenRoot : call unit
  | CloseRoot : call unit
  | OpenLock (name : pystr) : call fd
  | Fstat (f : fd) : call status
  | Flock (f : fd) : call unit
  | Close (f : fd) : call unit
  | Lexists (name : pystr) : call bool
  | Exists (name : pystr) : call bool
  | IsSymlink (name : pystr) : call bool
  | IsDirectory (name : pystr) : call bool
  | ListDirectory (name : pystr) : call (list pystr)
  | Mkdtemp (prefix : pystr) : call pystr
  | Chmod (path : list pystr) (mode : Z) : call unit
  | Fsync (path : list pystr) : call unit
  | OpenExclusive (directory name : pystr) : call unit
  | Write (directory name : pystr) (payload : bytes) : call unit
  | ReadBytes (directory name : pystr) : call bytes
  | OpenRead (directory name : pystr) : call (option bytes)
  | Rename (from to : pystr) : call unit
  | Rmtree (name : pystr) : call unit
  | Stat (name : pystr) : call status
  | OpenDirectory (name : pystr) : call fd
  | ListFd (f : fd) : call (list pystr)
  | StatIn (f : fd) (name : pystr) : call status
  | UnlinkIn (f : fd) (name : pystr) : call unit
  | Rmdir (name : pystr) : call unit.

(** What the caller does not decide: a random name, the number of a new inode, whether
    the call fails, what a write leaves on the disk when that is not its payload, and
    the files that an interrupted removal leaves. *)
Record choice := mkChoice {
  ch_suffix : pystr; ch_ino : ino; ch_fault : bool; ch_stored : option bytes; ch_left : list pystr }.

(** [tempfile] draws eight characters; a new inode has a number not in use. *)
Definition admissible (ch : choice) (s : store) : Prop :=
  length (ch_suffix ch) = 8%nat /\
  (forall name e, st_entries s !! name <> Some (ch_ino ch, e)) /\ st_locks s !! ch_ino ch = None.

Definition status_of (x : ino * entry) : status :=
  match snd x with
  | EFile _ links => mkStatus KFile (fst x) links
  | EDirectory _ => mkStatus KDirectory (fst x) 2
  | ELink _ => mkStatus KLink (fst x) 1
  | ESpecial => mkStatus KSpecial (fst x) 1
  end.

Definition leaf_status (x : ino * leaf) : status :=
  mkStatus match snd x with LFile _ => KFile | LDirectory => KDirectory | LLink => KLink | LSpecial => KSpecial end (fst x) 1.

Definition missing {A} : result A := raise FileNotFoundError "no such entry".
Definition os_error {A} : result A := raise OSError "system call".

(** The failures of the two calls that clean up tell whose they are. *)
Definition cleanup_error {A} (c : exc_class) : result A := raise c "cleanup".

Definition directory_at (s : store) (name : pystr) : result (gmap pystr (ino * leaf)) :=
  match st_entries s !! name with
  | Some (_, EDirectory d) => Ok d
  | Some _ => os_error
  | None => missing
  end.

(** What a descriptor refers to, while the entry it was opened at is in place. *)
Definition opened (s : store) (f : fd) : result entry :=
  match st_entries s !! fst f with
  | Some (i, e) => if bool_decide (i = snd f) then Ok e else os_error
  | None => os_error
  end.

Definition opened_directory (s : store) (f : fd) : result (gmap pystr (ino * leaf)) :=
  e ← opened s f; match e with EDirectory d => Ok d | _ => os_error end.

Definition names_of (d : gmap pystr (ino * leaf)) : list pystr := map fst (map_to_list d).

(** A call that reads, and one that changes the entries when it succeeds. *)
Definition query {B} (ch : choice) (s : store) (m : result B) : result B * store :=
  (if ch_fault ch then os_error else m, s).

Definition update {B} (ch : choice) (s : store) (m : result (B * (gmap pystr (ino * entry) -> gmap pystr (ino * entry))))
  : result B * store :=
  if ch_fault ch then (os_error, s)
  else match m with Ok (b, f) => (Ok b, with_entries f s) | Raise e => (Raise e, s) end.

Definition perform (me : op) (B : Type) (c : call B) (ch : choice) (s : store) : result B * store :=
  match c with
  | RootIsSymlink => query ch s (Ok (bool_decide (st_root s = KLink)))
  | RootIsDirectory => query ch s (Ok (bool_decide (st_root s = KDirectory \/ st_root s = KLink)))
  | OpenRoot => query ch s (if bool_decide (st_root s = KDirectory) then Ok tt else os_error)
  | CloseRoot => (Ok tt, s)
  | OpenLock name => update ch s
      match st_entries s !! name with
      | None => Ok ((name, ch_ino ch), <[name := (ch_ino ch, EFile [] 1)]>)
      | Some (i, EFile _ _) | Some (i, ESpecial) => Ok ((name, i), id)
      | Some _ => os_error
      end
  | Fstat f => query ch s (e ← opened s f; Ok (status_of (snd f, e)))
  | Flock f =>
      if ch_fault ch then (os_error, s)
      else match st_locks s !! snd f with
           | Some _ => (raise BlockingIOError "locked", s)
           | None => (Ok tt, mkStore (st_root s) (st_entries s) (<[snd f := me]> (st_locks s)))
           end
  | Close f =>
      (Ok tt, if bool_decide (st_locks s !! snd f = Some me)
              then mkStore (st_root s) (st_entries s) (delete (snd f) (st_locks s)) else s)
  | Lexists name => (Ok (negb (ch_fault ch) && isSome (st_entries s !! name)), s)
  | Exists name =>
      (if ch_fault ch then cleanup_error OSError
       else Ok match st_entries s !! name with Some (_, ELink target) => isSome target | Some _ => true | None => false end, s)
  | IsSymlink name => query ch s (Ok match st_entries s !! name with Some (_, ELink _) => true | _ => false end)
  | IsDirectory name => query ch s (Ok match st_entries s !! name with
                                       | Some (_, EDirectory _) | Some (_, ELink (Some KDirectory)) => true | _ => false end)
  | ListDirectory name => query ch s (names_of <$> directory_at s name)
  | Mkdtemp prefix => update ch s
      (let name := prefix ++ ch_suffix ch in
       match st_entries s !! name with
       | None => Ok (name, <[name := (ch_ino ch, EDirectory ∅)]>)
       | Some _ => raise FileExistsError "no usable temporary name"
       end)
  | Chmod _ _ | Fsync _ => query ch s (Ok tt)
  | OpenExclusive directory name => update ch s
      match st_entries s !! directory with
      | Some (i, EDirectory d) =>
        match d !! name with
        | None => Ok (tt, <[directory := (i, EDirectory (<[name := (ch_ino ch, LFile [])]> d))]>)
        | Some _ => raise FileExistsError "file exists"
        end
      | Some _ => os_error
      | None => missing
      end
  | Write directory name payload =>
      match st_entries s !! directory with
      | Some (i, EDirectory d) =>
        match d !! name with
        | Some (j, LFile _) =>
          (if ch_fault ch then os_error else Ok tt,
           with_entries <[directory := (i, EDirectory (<[name := (j, LFile (default payload (ch_stored ch)))]> d))]> s)
        | _ => (os_error, s)
        end
      | _ => (os_error, s)
      end
  | ReadBytes directory name => query ch s
      (d ← directory_at s directory;
       match d !! name with Some (_, LFile raw) => Ok raw | Some _ => os_error | None => missing end)
  | OpenRead directory name => query ch s
      (d ← directory_at s directory;
       match d !! name with
       | Some (_, LFile raw) => Ok (Some raw)
       | Some (_, LLink) => os_error
       | Some _ => Ok None
       | None => missing
       end)
  | Rename from to => update ch s
      match st_entries s !! from, st_entries s !! to with
      | Some (i, EDirectory d), None => Ok (tt, fun m => <[to := (i, EDirectory d)]> (delete from m))
      | Some (i, EDirectory d), Some (_, EDirectory e) =>
        if bool_decide (e = ∅) then Ok (tt, fun m => <[to := (i, EDirectory d)]> (delete from m)) else os_error
      | None, _ => missing
      | _, _ => os_error
      end
  | Rmtree name =>
      match st_entries s !! name with
      | Some (i, EDirectory d) =>
        if ch_fault ch
        then (cleanup_error OSError, with_entries <[name := (i, EDirectory (filter (fun x => fst x ∈ ch_left ch) d))]> s)
        else (Ok tt, with_entries (delete name) s)
      | Some _ => (cleanup_error OSError, s)
      | None => (cleanup_error FileNotFoundError, s)
      end
  | Stat name => query ch s match st_entries s !! name with Some x => Ok (status_of x) | None => missing end
  | OpenDirectory name => query ch s
      match st_entries s !! name with
      | Some (i, EDirectory _) => Ok (name, i)
      | Some _ => os_error
      | None => missing
      end
  | ListFd f => query ch s (names_of <$> opened_directory s f)
  | StatIn f name => query ch s
      (d ← opened_directory s f; match d !! name with Some x => Ok (leaf_status x) | None => missing end)
  | UnlinkIn f name => update ch s
      (d ← opened_directory s f;
       match d !! name with
       | Some (_, LDirectory) => os_error
       | Some _ => Ok (tt, <[fst f := (snd f, EDirectory (delete name d))]>)
       | None => missing
       end)
  | Rmdir name => update ch s
      match st_entries s !! name with
      | Some (_, EDirectory d) => if bool_decide (d = ∅) then Ok (tt, delete name) else os_error
      | Some _ => os_error
      | None => missing
      end
  end.

(** ** The operations *)

Abbreviation program := (prog call).

Definition prog_reject_if (b : bool) (code : string) : program unit := lift (reject_if b code).

Definition REPORT : pystr := u "report.json".
Definition EVIDENCE : pystr := u "evidence.zip".

Definition lock_name (report_id : pystr) : pystr := u "." ++ report_id ++ u ".lock".
Definition staging_prefix (report_id : pystr) : pystr := u "." ++ report_id ++ u ".".

#[global] Arguments REPORT : simpl never.
#[global] Arguments EVIDENCE : simpl never.
#[global] Arguments lock_name : simpl never.
#[global] Arguments staging_prefix : simpl never.

Definition open_report_lock (path : pystr) : program fd :=
  f ← do (OpenLock path);
  prog_then
    (metadata ← do (Fstat f);
     prog_reject_if (negb (is_kind KFile metadata) || negb (sx_links metadata =? 1)) "ARTIFACT_INTEGRITY_FAILED" ;;
     prog_except (do (Flock f)) [BlockingIOError]
       (fun _ => lift (raise FileExistsError "report operation already in progress")))
    (fun r => match r with Ok _ => Done (Ok f) | Raise e => do (Close f) ;; Done (Raise e) end).

Record PublishedArtifact := mkArtifact {
  pa_report_id : pystr; pa_report_sha256 : pystr; pa_bundle_sha256 : pystr;
  pa_report_size : Z; pa_bundle_size : Z }.

Section operations.
Context `{UnicodeTables} `{UnicodeLower} `{UnicodeNormal} `{ReportResources}.

Definition verify_bundle (directory name : pystr) (expected : option pystr) : program BuiltReport :=
  raw ← prog_except
          (stream ← do (OpenRead directory name);
           match stream with
           | Some raw => Done (Ok (take (Z.to_nat (MAX_BUNDLE_BYTES + 1)) raw))
           | None => lift (rejected "INVALID_DATASET")
           end)
          [OSError] (fun _ => lift (rejected "INVALID_DATASET"));
  lift (verify_bundle_bytes raw expected).

(** One file of the staging directory, written, flushed and read back. *)
Definition stage_file (staging : pystr) (file : pystr * bytes) : program unit :=
  let '(name, payload) := file in
  do (OpenExclusive staging name) ;;
  do (Chmod [staging; name] 416) ;;
  do (Write staging name payload) ;;
  do (Fsync [staging; name]) ;;
  raw ← do (ReadBytes staging name);
  prog_reject_if (negb (str_eqb (digest raw) (digest payload))) "ARTIFACT_INTEGRITY_FAILED".

(** The body of [publish_artifact] up to the staging directory, and after. *)
Definition prepare (report_id : pystr) (built : BuiltReport) : program (bytes * pystr) :=
  exists_ ← do (Lexists report_id);
  lift (raise_if exists_ FileExistsError "immutable report already exists") ;;
  bundle ← lift (build_bundle built);
  staging ← do (Mkdtemp (staging_prefix report_id));
  Done (Ok (bundle, staging)).

Definition fill (report_id : pystr) (built : BuiltReport) (bundle : bytes) (staging : pystr) : program PublishedArtifact :=
  do (Chmod [staging] 488) ;;
  prog_each (stage_file staging) [(REPORT, br_report_bytes built); (EVIDENCE, bundle)] ;;
  _ ← verify_bundle staging EVIDENCE (Some (br_report_sha256 built));
  do (Fsync [staging]) ;;
  exists_ ← do (Lexists report_id);
  lift (raise_if exists_ FileExistsError "immutable report already exists") ;;
  do (Rename staging report_id) ;;
  do (Fsync []) ;;
  Done (Ok (mkArtifact report_id (br_report_sha256 built) (digest bundle)
              (zlength (br_report_bytes built)) (zlength bundle))).

(** The [finally] clause: an exception of the cleanup leaves before the lock is closed. *)
Definition leave {A} (lock : fd) (staging : option pystr) (r : result A) : program A :=
  match staging with
  | Some staging => left ← do (Exists staging); if left : bool then do (Rmtree staging) else Done (Ok tt)
  | None => Done (Ok tt)
  end ;;
  do (Close lock) ;; Done r.

Definition publish_artifact (root_is_absolute : bool) (built : BuiltReport) : program PublishedArtifact :=
  report_id ← lift (subscript (u "report_id") (br_document built) ≫= identifier);
  prog_reject_if (negb root_is_absolute) "STORAGE_UNAVAILABLE" ;;
  symlink ← do RootIsSymlink;
  prog_reject_if symlink "STORAGE_UNAVAILABLE" ;;
  directory ← do RootIsDirectory;
  prog_reject_if (negb directory) "STORAGE_UNAVAILABLE" ;;
  lock ← open_report_lock (lock_name report_id);
  prog_then (prepare report_id built) (fun r =>
    match r with
    | Ok (bundle, staging) => prog_then (fill report_id built bundle staging) (leave lock (Some staging))
    | Raise e => leave lock None (Raise e)
    end).

(** [set(names) == {...}] *)
Definition same_names (names expected : list pystr) : bool :=
  bool_decide (list_to_set names =@{gset pystr} list_to_set expected).

Definition read_published (report_id : pystr) : program (BuiltReport * PublishedArtifact) :=
  _ ← lift (identifier (JStr report_id));
  symlink ← do (IsSymlink report_id);
  prog_reject_if symlink "ARTIFACT_INTEGRITY_FAILED" ;;
  directory ← do (IsDirectory report_id);
  prog_reject_if (negb directory) "ARTIFACT_INTEGRITY_FAILED" ;;
  names ← do (ListDirectory report_id);
  prog_reject_if (negb (same_names names [REPORT; EVIDENCE])) "ARTIFACT_INTEGRITY_FAILED" ;;
  built ← verify_bundle report_id EVIDENCE None;
  stream ← do (OpenRead report_id REPORT);
  report_bytes ← match stream with
                 | Some raw => Done (Ok (take (Z.to_nat (MAX_MEMBER_BYTES + 1)) raw))
                 | None => lift (rejected "ARTIFACT_INTEGRITY_FAILED")
                 end;
  named ← lift (subscript (u "report_id") (br_document built));
  prog_reject_if (negb (json_is named report_id) || negb (str_eqb report_bytes (br_report_bytes built)))
    "ARTIFACT_INTEGRITY_FAILED" ;;
  bundle ← lift (build_bundle built);
  Done (Ok (built, mkArtifact report_id (br_report_sha256 built) (digest bundle) (zlength report_bytes) (zlength bundle))).

(** The preflight of one member, and its removal. *)
Definition preflight (directory : fd) (name : pystr) : program (pystr * ino) :=
  entry ← do (StatIn directory name);
  prog_reject_if (negb (is_kind KFile entry)) "ARTIFACT_INTEGRITY_FAILED" ;;
  Done (Ok (name, sx_ino entry)).

Definition remove_member (directory : fd) (entries : list (pystr * ino)) (name : pystr) : program unit :=
  current ← do (StatIn directory name);
  prog_reject_if (negb (is_kind KFile current) || negb (bool_decide (assoc name entries = Some (sx_ino current))))
    "ARTIFACT_INTEGRITY_FAILED" ;;
  do (UnlinkIn directory name).

Definition clear_directory (report_id : pystr) (directory : fd) (before : status) : program bool :=
  opened ← do (Fstat directory);
  prog_reject_if (negb (bool_decide (sx_ino opened = sx_ino before))) "ARTIFACT_INTEGRITY_FAILED" ;;
  names ← do (ListFd directory);
  let names := remove_dups names in
  prog_reject_if (negb (forallb (fun n => bool_decide (n ∈ [REPORT; EVIDENCE])) names)) "ARTIFACT_INTEGRITY_FAILED" ;;
  entries ← prog_map (preflight directory) names;
  prog_each (remove_member directory entries) (py_sorted str_leb names) ;;
  do (Fsync [report_id]) ;;
  current ← do (Stat report_id);
  prog_reject_if (negb (is_kind KDirectory current) || negb (bool_decide (sx_ino current = sx_ino opened)))
    "ARTIFACT_INTEGRITY_FAILED" ;;
  do (Rmdir report_id) ;;
  do (Fsync []) ;;
  Done (Ok true).

Definition delete_published (root_is_absolute : bool) (report_id : pystr) : program bool :=
  _ ← lift (identifier (JStr report_id));
  prog_reject_if (negb root_is_absolute) "STORAGE_UNAVAILABLE" ;;
  do OpenRoot ;;
  prog_finally
    (lock ← open_report_lock (lock_name report_id);
     prog_finally
       (before ← prog_except (found ← do (Stat report_id); Done (Ok (Some found))) [FileNotFoundError] (fun _ => Done (Ok None));
        match before with
        | None => Done (Ok false)
        | Some before =>
          prog_reject_if (negb (is_kind KDirectory before)) "ARTIFACT_INTEGRITY_FAILED" ;;
          directory ← do (OpenDirectory report_id);
          prog_finally (clear_directory report_id directory before) (do (Close directory))
        end)
       (do (Close lock)))
    (do CloseRoot).
End operations.
