(* ===== verification/StoreSafety.v ===== *)
(** * The report store is safe: phases of reports, locks, interleavings and crashes

    Several operations use the store at once and may stop at any call.  Proved here:
    in every reachable state a report is absent, published as one verified pair of
    files, or partly deleted; it changes only as the phases allow, and only by the
    holder of its lock; a reader gets a pair that was published. *)

From S2P Require Import Prelude PyStr Num PyObj Json Bytes ByteLaws FrozenPackage EvidenceIo Documents MezoDex TroveReport SealedInput Archive Report Bundle Programs Store.
Open Scope Z_scope.

(** ** The names of a store *)

Definition valid_id (report_id : pystr) : Prop := exists s, identifier (JStr report_id) = Ok s.

Lemma identifier_text s t : identifier (JStr s) = Ok t -> t = s /\ 46 ∉ s.
Proof.
  unfold identifier. intros H. apply try_except_Ok in H as [H|(e & _ & H)]; [|done].
  apply bind_Ok in H as (n & _ & ([] & Hs & [= <-])%bind_Ok). split; [done|].
  apply raise_if_Ok, negb_false_iff, str_eqb_spec in Hs. rewrite <- Hs. intros Hin.
  pose proof (Forall_at _ _ _ (uuid_str_chars n) Hin) as [Hc|Hc]; [done|]. unfold hexchar in Hc. lia.
Qed.

Lemma valid_identifier s : valid_id s -> identifier (JStr s) = Ok s.
Proof. intros [t Ht]. by pose proof (identifier_text _ _ Ht) as [<- _]. Qed.

(** The names that only the holder of the lock of a report touches: the report and its
    temporary directories. *)
Definition area (report_id name : pystr) : Prop :=
  name = report_id \/ exists suffix, name = staging_prefix report_id ++ suffix /\ length suffix = 8%nat.

Lemma dotted_inj (a b x y : pystr) : 46 ∉ a -> 46 ∉ b -> a ++ 46 :: x = b ++ 46 :: y -> a = b /\ x = y.
Proof.
  revert b. induction a as [|c a IH]; intros [|d b] Ha Hb E; cbn in E.
  - by injection E as <-.
  - injection E as <- _. exfalso. apply Hb. left.
  - injection E as -> _. exfalso. apply Ha. left.
  - injection E as <- E. rewrite elem_of_cons in Ha, Hb. destruct (IH b) as [-> ->]; [tauto..|done|]. done.
Qed.

Lemma staging_name_eq a x : staging_prefix a ++ x = 46 :: a ++ 46 :: x.
Proof. unfold staging_prefix. change (u ".") with [46]. cbn. by rewrite <- app_assoc. Qed.

Lemma lock_name_eq a : lock_name a = 46 :: a ++ 46 :: u "lock".
Proof. reflexivity. Qed.

Lemma valid_dotless a : valid_id a -> 46 ∉ a.
Proof. intros [t Ht]. by apply identifier_text in Ht as [_ ?]. Qed.

Lemma area_unique a b name : valid_id a -> valid_id b -> area a name -> area b name -> a = b.
Proof.
  intros Ha%valid_dotless Hb%valid_dotless [->|(x & -> & _)] [E|(y & E & _)]; rewrite ?staging_name_eq in E.
  - done.
  - exfalso. apply Ha. rewrite E. left.
  - exfalso. apply Hb. rewrite <- E. left.
  - injection E as E. by apply dotted_inj in E as [-> _].
Qed.

Lemma lock_outside a b : valid_id a -> valid_id b -> ~ area a (lock_name b).
Proof.
  intros Ha%valid_dotless Hb%valid_dotless [E|(x & E & Hx)]; rewrite lock_name_eq in E.
  - subst. apply Ha. left.
  - rewrite staging_name_eq in E. injection E as E. apply dotted_inj in E as [_ <-]; [|done..]. done.
Qed.

Lemma lock_name_inj a b : valid_id a -> valid_id b -> lock_name a = lock_name b -> a = b.
Proof.
  intros Ha%valid_dotless Hb%valid_dotless E. rewrite !lock_name_eq in E. injection E as E.
  by apply dotted_inj in E as [-> _].
Qed.

Lemma area_self a : area a a.
Proof. by left. Qed.

Lemma staging_not_self a x : valid_id a -> staging_prefix a ++ x <> a.
Proof. intros Ha%valid_dotless E. rewrite staging_name_eq in E. apply Ha. rewrite <- E. left. Qed.

(** ** Phases *)

(** What a store has under the name of a report. *)
Inductive phase := Absent | Published (report evidence : bytes) | Halved (report : bytes) | Emptied.

(** The directory of each phase. *)
Inductive form : gmap pystr (ino * leaf) -> phase -> Prop :=
  | form_published i j report evidence :
      form (<[REPORT := (i, LFile report)]> {[EVIDENCE := (j, LFile evidence)]}) (Published report evidence)
  | form_halved i report : form {[REPORT := (i, LFile report)]} (Halved report)
  | form_emptied : form ∅ Emptied.

Inductive in_phase (s : store) (report_id : pystr) : phase -> Prop :=
  | phase_absent : st_entries s !! report_id = None -> in_phase s report_id Absent
  | phase_present i d p : st_entries s !! report_id = Some (i, EDirectory d) -> form d p -> in_phase s report_id p.

Lemma report_not_evidence : REPORT <> EVIDENCE.
Proof. done. Qed.

Definition content (d : gmap pystr (ino * leaf)) (name : pystr) : option bytes :=
  match d !! name with Some (_, LFile raw) => Some raw | _ => None end.

Lemma form_contents d p : form d p ->
  content d REPORT = match p with Published r _ | Halved r => Some r | _ => None end /\
  content d EVIDENCE = match p with Published _ z => Some z | _ => None end.
Proof. by intros []. Qed.

Lemma form_empty p : form ∅ p -> p = Emptied.
Proof.
  intros Hf. destruct (form_contents _ _ Hf) as [Hr Hz]. unfold content in Hr, Hz. rewrite lookup_empty in Hr, Hz.
  destruct p; [by inversion Hf|done..].
Qed.

Lemma in_phase_unique s a p q : in_phase s a p -> in_phase s a q -> p = q.
Proof.
  intros [Hp|i d p' Hp Hf] [Hq|j e q' Hq Hg]; try congruence.
  assert (d = e) as <- by congruence. destruct (form_contents _ _ Hf) as [Hf1 Hf2], (form_contents _ _ Hg) as [Hg1 Hg2].
  destruct Hf, Hg; congruence.
Qed.

(** What can happen to a report. *)
Inductive transition : phase -> phase -> Prop :=
  | publish_absent report evidence : transition Absent (Published report evidence)
  | publish_emptied report evidence : transition Emptied (Published report evidence)
  | delete_evidence report evidence : transition (Published report evidence) (Halved report)
  | delete_report report : transition (Halved report) Emptied
  | delete_directory : transition Emptied Absent.

Section safety.
Context `{UnicodeTables} `{UnicodeLower} `{UnicodeNormal} `{ReportResources}.

(** Two files that a publication wrote, read back and verified, up to their digests. *)
Definition genuine (report_id : pystr) (report evidence : bytes) : Prop :=
  exists built bundle verified,
    subscript (u "report_id") (br_document built) ≫= identifier = Ok report_id /\
    build_bundle built = Ok bundle /\
    digest report = digest (br_report_bytes built) /\ digest evidence = digest bundle /\
    verify_bundle_bytes (take (Z.to_nat (MAX_BUNDLE_BYTES + 1)) evidence) (Some (br_report_sha256 built)) = Ok verified.

Definition phase_ok (report_id : pystr) (p : phase) : Prop :=
  match p with Published report evidence => genuine report_id report evidence | _ => True end.

Definition Inv (s : store) : Prop :=
  forall report_id, valid_id report_id -> exists p, in_phase s report_id p /\ phase_ok report_id p.

(** ** Locks *)

Definition holds (o : op) (s : store) (report_id : pystr) : Prop :=
  exists i e, st_entries s !! lock_name report_id = Some (i, e) /\ st_locks s !! i = Some o.

Definition idle (o : op) (s : store) : Prop := forall i, st_locks s !! i <> Some o.

(** What an operation may rely on while the others run. *)
Record rely (me : op) (s s' : store) : Prop := {
  rl_root : st_root s' = st_root s;
  rl_locks : forall a x, valid_id a -> st_entries s !! lock_name a = Some x -> st_entries s' !! lock_name a = Some x;
  rl_own : forall i, st_locks s' !! i = Some me <-> st_locks s !! i = Some me;
  rl_area : forall a name, valid_id a -> holds me s a -> area a name -> st_entries s' !! name = st_entries s !! name }.

(** What an operation may do to the reports. *)
Definition act (me : op) (s s' : store) : Prop :=
  forall a p p', valid_id a -> in_phase s a p -> in_phase s' a p' -> p = p' \/ holds me s a /\ transition p p'.

(** A stopped process releases its locks. *)
Definition stop (o : op) (s : store) : store :=
  mkStore (st_root s) (st_entries s) (filter (fun x => snd x <> o) (st_locks s)).

Lemma rely_refl o s : rely o s s.
Proof. by split. Qed.

Lemma holds_rely o s s' a : rely o s s' -> valid_id a -> holds o s a -> holds o s' a.
Proof. intros Hr Ha (i & e & He & Hl). exists i, e. split; [by apply (rl_locks _ _ _ Hr)|by apply (rl_own _ _ _ Hr)]. Qed.

Lemma rely_trans o s1 s2 s3 : rely o s1 s2 -> rely o s2 s3 -> rely o s1 s3.
Proof.
  intros H12 H23. split.
  - by rewrite (rl_root _ _ _ H23), (rl_root _ _ _ H12).
  - intros a x Ha Hx. apply (rl_locks _ _ _ H23); [done|]. by apply (rl_locks _ _ _ H12).
  - intros i. by rewrite (rl_own _ _ _ H23), (rl_own _ _ _ H12).
  - intros a n Ha Hh Hn. transitivity (st_entries s2 !! n); [|by apply (rl_area _ _ _ H12 a)].
    apply (rl_area _ _ _ H23 a); [done| |done]. by apply (holds_rely o s1).
Qed.

Lemma idle_rely o s s' : rely o s s' -> idle o s -> idle o s'.
Proof. intros Hr Hi i Hl. by apply (Hi i), (rl_own _ _ _ Hr). Qed.

Lemma holds_exclusive o o' s a : holds o s a -> holds o' s a -> o = o'.
Proof. intros (i & e & He & Hl) (i' & e' & He' & Hl'). congruence. Qed.

Abbreviation guarantee := (guarantee Inv rely act).

Lemma act_refl o s : act o s s.
Proof. intros a p p' _ Hp Hp'. left. by apply (in_phase_unique s a). Qed.

(** A call that changes nothing. *)
Lemma guarantee_same me s : Inv s -> guarantee me s s.
Proof. intros Hi. split_and!; [done|apply act_refl|]. intros o _. apply rely_refl. Qed.

Lemma in_phase_entries s s' a p :
  st_entries s' !! a = st_entries s !! a -> in_phase s' a p -> in_phase s a p.
Proof. intros E [He|i d q He Hf]; rewrite E in He; [by constructor|by eapply phase_present]. Qed.

(** A change of the names of one report, by the holder of its lock. *)
Lemma guarantee_area me s f a p p' :
  valid_id a -> holds me s a -> Inv s -> in_phase s a p -> in_phase (with_entries f s) a p' -> phase_ok a p' ->
  p = p' \/ transition p p' ->
  (forall name, ~ area a name -> f (st_entries s) !! name = st_entries s !! name) ->
  guarantee me s (with_entries f s).
Proof.
  intros Ha Hh Hi Hp Hp' Hok Ht Hf.
  assert (forall b, valid_id b -> b <> a -> st_entries (with_entries f s) !! b = st_entries s !! b) as Hother.
  { intros b Hb Hne. apply Hf. intros Hab. apply Hne. by apply (area_unique b a b); [..|apply area_self|]. }
  split_and!.
  - intros b Hb. destruct (decide (b = a)) as [->|Hne]; [by exists p'|].
    destruct (Hi b Hb) as (q & Hq & Hqok). exists q. split; [|done]. eapply in_phase_entries; [|exact Hq].
    by rewrite Hother.
  - intros b q q' Hb Hq Hq'. destruct (decide (b = a)) as [->|Hne].
    + rewrite (in_phase_unique _ _ _ _ Hq Hp), (in_phase_unique _ _ _ _ Hq' Hp'). tauto.
    + left. apply (in_phase_unique s b); [done|]. eapply in_phase_entries; [|exact Hq']. by apply Hother.
  - intros o Ho. split; [done| |done|].
    + intros b x Hb Hx. cbn. rewrite Hf; [done|]. by apply lock_outside.
    + intros b n Hb Hhb Hn. cbn. apply Hf. intros Hna. assert (b = a) as -> by by apply (area_unique b a n).
      apply Ho. by apply (holds_exclusive _ _ s a).
Qed.

(** A change among the temporary directories of the report. *)
Lemma guarantee_staging me s f a :
  valid_id a -> holds me s a -> Inv s ->
  (forall name, ~ (exists x, name = staging_prefix a ++ x /\ length x = 8%nat) -> f (st_entries s) !! name = st_entries s !! name) ->
  guarantee me s (with_entries f s).
Proof.
  intros Ha Hh Hi Hf. destruct (Hi a Ha) as (p & Hp & Hok).
  apply (guarantee_area me s f a p p); try done; [|by left|].
  - eapply in_phase_entries; [|exact Hp]. cbn. symmetry. apply Hf. intros (x & E & _). by apply (staging_not_self a x).
  - intros n Hn. apply Hf. intros Hx. apply Hn. by right.
Qed.

(** A change of the locks that leaves those of the others. *)
Lemma guarantee_locks me s locks :
  Inv s -> (forall o i, o <> me -> locks !! i = Some o <-> st_locks s !! i = Some o) ->
  guarantee me s (mkStore (st_root s) (st_entries s) locks).
Proof.
  intros Hi Hl. assert (forall b q, in_phase (mkStore (st_root s) (st_entries s) locks) b q -> in_phase s b q) as Hq
    by (intros b q; by apply in_phase_entries).
  split_and!.
  - intros b Hb. destruct (Hi b Hb) as (q & Hp & Hok). exists q. split; [|done]. by eapply in_phase_entries; [|exact Hp].
  - intros b q q' Hb Hp Hp'. left. by apply (in_phase_unique s b), Hq.
  - intros o Ho. split; [done..| |done]. intros i. by apply Hl.
Qed.

(** A new lock file. *)
Lemma guarantee_lock_file me s a x :
  valid_id a -> Inv s -> st_entries s !! lock_name a = None -> guarantee me s (with_entries <[lock_name a := x]> s).
Proof.
  intros Ha Hi Hn. assert (forall b, valid_id b -> <[lock_name a := x]> (st_entries s) !! b = st_entries s !! b) as Hother.
  { intros b Hb. rewrite lookup_insert_ne; [done|]. intros E. apply (lock_outside b a); [done..|]. rewrite E. apply area_self. }
  split_and!.
  - intros b Hb. destruct (Hi b Hb) as (q & Hp & Hok). exists q. split; [|done]. eapply in_phase_entries; [|exact Hp].
    by rewrite <- (Hother b).
  - intros b q q' Hb Hp Hp'. left. apply (in_phase_unique s b); [done|]. eapply in_phase_entries; [|exact Hp']. by apply Hother.
  - intros o Ho. split; [done| |done|].
    + intros b y Hb Hy. cbn. rewrite lookup_insert_ne; [done|]. intros E. rewrite <- E in Hy. congruence.
    + intros b n Hb Hh Hnb. cbn. rewrite lookup_insert_ne; [done|]. intros <-. by apply (lock_outside b a).
Qed.

Lemma guarantee_stop o s : Inv s -> guarantee o s (stop o s).
Proof.
  intros Hi. apply guarantee_locks; [done|]. intros o' i Ho. rewrite map_lookup_filter_Some. cbn. naive_solver.
Qed.

(** ** Rules for the calls of the store *)

Abbreviation safe := (safe perform admissible Inv rely act).

(** What the rest of an operation may assume of the exceptions of its first part. *)
Definition may_raise {A} (me : op) (s : store) (Q : result A -> store -> Prop) : Prop :=
  forall e s1, rely me s s1 -> Inv s1 -> Q (Raise e) s1.

Lemma may_raise_rely {A} me s s1 (Q : result A -> store -> Prop) : rely me s s1 -> may_raise me s Q -> may_raise me s1 Q.
Proof. intros Hr HQ e s2 Hr2. apply HQ. by apply (rely_trans _ _ s1). Qed.

Lemma safe_do {A B} me (c : call B) (f : B -> program A) s Q :
  (forall s1 ch, rely me s s1 -> Inv s1 -> admissible ch s1 ->
    guarantee me s1 (snd (perform me _ c ch s1)) /\
    match fst (perform me _ c ch s1) with
    | Ok b => safe me (f b) (snd (perform me _ c ch s1)) Q
    | Raise e => forall s2, rely me (snd (perform me _ c ch s1)) s2 -> Inv s2 -> Q (Raise e) s2
    end) ->
  safe me (do c ≫= f) s Q.
Proof.
  intros Hc. apply safe_Call. intros s1 ch Hr Hi Hch. destruct (Hc s1 ch Hr Hi Hch) as [Hg Hk]. split; [done|].
  destruct (fst (perform me B c ch s1)); [done|]. by apply safe_Done.
Qed.

(** The calls that only read. *)
Definition reads {B} (c : call B) : Prop := forall me ch s, snd (perform me _ c ch s) = s.

Lemma safe_read {A B} me (c : call B) (f : B -> program A) s Q :
  reads c -> may_raise me s Q ->
  (forall s1 ch b, rely me s s1 -> Inv s1 -> fst (perform me _ c ch s1) = Ok b -> safe me (f b) s1 Q) ->
  safe me (do c ≫= f) s Q.
Proof.
  intros Hc HQ Hf. apply safe_do. intros s1 ch Hr Hi Hch. split; [rewrite Hc; by apply guarantee_same|].
  destruct (fst (perform me B c ch s1)) as [b|e] eqn:E; [rewrite Hc; exact (Hf s1 ch b Hr Hi E)|].
  rewrite Hc. intros s2 Hr2. apply HQ. by apply (rely_trans _ _ s1).
Qed.

Lemma safe_lift {A B} me (m : result A) (f : A -> program B) s Q :
  may_raise me s Q -> (forall a, m = Ok a -> safe me (f a) s Q) -> safe me (lift m ≫= f) s Q.
Proof. intros HQ Hf. destruct m as [a|e]; [by apply Hf|]. apply safe_Done. intros s1 Hr Hi. by apply HQ. Qed.

Lemma safe_reject {A} me b code (f : unit -> program A) s Q :
  may_raise me s Q -> (b = false -> safe me (f tt) s Q) -> safe me (prog_reject_if b code ≫= f) s Q.
Proof. intros HQ Hf. apply safe_lift; [done|]. by intros [] ?%raise_if_Ok%Hf. Qed.

(** Programs of reads. *)
Fixpoint reading {A} (p : program A) : Prop :=
  match p with
  | Done _ => True
  | Call c k => reads c /\ forall a, reading (k a)
  end.

Lemma reading_then {A B} (p : program A) (f : result A -> program B) :
  reading p -> (forall r, reading (f r)) -> reading (prog_then p f).
Proof. induction p as [r|C c k IH]; intros Hp Hf; [apply Hf|]. split; [apply Hp|]. intros a. apply IH; [apply Hp|done]. Qed.

Lemma reading_do {A B} (c : call B) (f : B -> program A) : reads c -> (forall b, reading (f b)) -> reading (do c ≫= f).
Proof. intros Hc Hf. split; [done|]. intros [b|e]; [apply Hf|done]. Qed.

Lemma safe_reading {A} me (p : program A) s :
  reading p -> safe me p s (fun _ s' => rely me s s').
Proof.
  intros Hp. enough (forall s', rely me s s' -> safe me p s' (fun _ s' => rely me s s')) as Hs by (apply Hs, rely_refl).
  induction p as [r|C c k IH]; intros s' Hs.
  - apply safe_Done. intros s1 Hr _. by apply (rely_trans _ _ s').
  - apply safe_Call. intros s1 ch Hr Hi _. destruct Hp as [Hc Hk]. rewrite Hc. split; [by apply guarantee_same|].
    apply IH; [apply Hk|]. by apply (rely_trans _ _ s').
Qed.

(** ** The lock of a report *)

(** The operation holds the lock of the report, and no other. *)
Definition locked (me : op) (a : pystr) (f : fd) (s : store) : Prop :=
  fst f = lock_name a /\ (exists e, st_entries s !! lock_name a = Some (snd f, e)) /\
  (forall i, st_locks s !! i = Some me <-> i = snd f).

Lemma locked_rely me a f s s' : valid_id a -> rely me s s' -> locked me a f s -> locked me a f s'.
Proof.
  intros Ha Hr (Hf & (e & He) & Hl). split; [done|]. split; [exists e; by apply (rl_locks _ _ _ Hr)|].
  intros i. by rewrite (rl_own _ _ _ Hr).
Qed.

Lemma locked_holds me a f s : locked me a f s -> holds me s a.
Proof. intros (Hf & (e & He) & Hl). exists (snd f), e. split; [done|]. by apply Hl. Qed.

Lemma locked_area me a f s s' name :
  valid_id a -> rely me s s' -> locked me a f s -> area a name -> st_entries s' !! name = st_entries s !! name.
Proof. intros Ha Hr Hl%locked_holds. by apply (rl_area _ _ _ Hr). Qed.

(** Closing a descriptor releases the only lock it may hold. *)
Lemma safe_close {A} me f (g : unit -> program A) s Q :
  (forall i, st_locks s !! i = Some me -> i = snd f) ->
  (forall s1 s', rely me s s1 -> Inv s' -> idle me s' -> st_entries s' = st_entries s1 -> safe me (g tt) s' Q) ->
  safe me (do (Close f) ≫= g) s Q.
Proof.
  intros Hl Hg. apply safe_do. intros s1 ch Hr Hi _. cbn [perform fst snd].
  set (s' := if bool_decide _ then _ else s1).
  assert (Inv s' /\ guarantee me s1 s') as [Hi' Hgu].
  { unfold s'. case_bool_decide as Hd; [|by pose proof (guarantee_same me s1 Hi)].
    assert (guarantee me s1 (mkStore (st_root s1) (st_entries s1) (delete (snd f) (st_locks s1)))) as Hgu.
    { apply guarantee_locks; [done|]. intros o i Ho. rewrite lookup_delete_Some. naive_solver congruence. }
    split; [apply Hgu|done]. }
  split; [done|]. apply (Hg s1); [done..| |].
  - intros i Hi1. assert (st_locks s1 !! i = Some me) as Hs1.
    { unfold s' in Hi1. case_bool_decide; [|done]. cbn in Hi1. by apply lookup_delete_Some in Hi1 as [_ ?]. }
    assert (i = snd f) as -> by (by apply Hl, (rl_own _ _ _ Hr)).
    unfold s' in Hi1. case_bool_decide as Hd; [|done]. cbn in Hi1. by rewrite lookup_delete_eq in Hi1.
  - unfold s'. by case_bool_decide.
Qed.

Lemma with_entries_id s : with_entries id s = s.
Proof. by destruct s. Qed.

(** The descriptor of a lock file, before it is locked. *)
Lemma safe_take_lock me a (f : fd) s :
  valid_id a -> idle me s -> fst f = lock_name a -> (exists e, st_entries s !! lock_name a = Some (snd f, e)) ->
  safe me (metadata ← do (Fstat f);
           prog_reject_if (negb (is_kind KFile metadata) || negb (sx_links metadata =? 1)) "ARTIFACT_INTEGRITY_FAILED" ;;
           prog_except (do (Flock f)) [BlockingIOError]
             (fun _ => lift (raise FileExistsError "report operation already in progress"))) s
    (fun r s' => match r with Ok _ => locked me a f s' | Raise _ => idle me s' end).
Proof.
  intros Ha Hidle Hf He.
  assert (may_raise me s (fun (r : result unit) s' => match r with Ok _ => locked me a f s' | Raise _ => idle me s' end)) as HQ
    by (intros e s1 Hr _; by apply (idle_rely me s)).
  apply safe_read; [done..|]. intros s1 ch metadata Hr1 Hi1 _. apply safe_reject; [by apply (may_raise_rely _ s)|]. intros _.
  unfold prog_except. apply safe_Call. intros s2 ch2 Hr2 Hi2 _.
  assert (rely me s s2) as Hr by by apply (rely_trans _ _ s1). assert (idle me s2) as Hidle2 by by apply (idle_rely me s).
  assert (forall e, safe me (lift (raise e "report operation already in progress") : program unit) s2
    (fun r s' => match r with Ok _ => locked me a f s' | Raise _ => idle me s' end)) as Hraise.
  { intros e. apply safe_Done. intros s3 Hr3 _. by apply (idle_rely me s2). }
  cbn [perform]. destruct (ch_fault ch2); [|destruct (st_locks s2 !! snd f) eqn:El]; cbn [fst snd].
  - split; [by apply guarantee_same|]. apply safe_Done. intros s3 Hr3 _. by apply (idle_rely me s2).
  - split; [by apply guarantee_same|]. apply Hraise.
  - split.
    { apply guarantee_locks; [done|]. intros o i Ho. rewrite lookup_insert_Some. naive_solver congruence. }
    apply safe_Done. intros s3 Hr3 _. apply (locked_rely me a f _ s3 Ha Hr3). split; [done|]. split.
    + destruct He as [e He]. exists e. cbn. by apply (rl_locks _ _ _ Hr).
    + intros i. cbn. rewrite lookup_insert_Some. split; [intros [[<- _]|[_ Hl]]; [done|by destruct (Hidle2 i)]|]. intros ->. by left.
Qed.

Lemma safe_open_lock me a s :
  valid_id a -> idle me s ->
  safe me (open_report_lock (lock_name a)) s (fun r s' => match r with Ok f => locked me a f s' | Raise _ => idle me s' end).
Proof.
  intros Ha Hidle. apply safe_do. intros s1 ch Hr Hi Hch. assert (idle me s1) as Hidle1 by by apply (idle_rely me s).
  assert (forall f s', Inv s' -> idle me s' -> fst f = lock_name a -> (exists e, st_entries s' !! lock_name a = Some (snd f, e)) ->
    safe me (prog_then
      (metadata ← do (Fstat f);
       prog_reject_if (negb (is_kind KFile metadata) || negb (sx_links metadata =? 1)) "ARTIFACT_INTEGRITY_FAILED" ;;
       prog_except (do (Flock f)) [BlockingIOError]
         (fun _ => lift (raise FileExistsError "report operation already in progress")))
      (fun r => match r with Ok _ => Done (Ok f) | Raise e => do (Close f) ;; Done (Raise e) end)) s'
      (fun r s' => match r with Ok f => locked me a f s' | Raise _ => idle me s' end)) as Hf.
  { intros f s' Hi' Hid Hfst He. eapply safe_then; [apply rely_refl|by apply (safe_take_lock me a f)|].
    intros [[]|e] s2 Hi2 Hl; cbn beta iota.
    - apply safe_Done. intros s3 Hr3 _. by apply (locked_rely me a f s2).
    - apply safe_close; [intros i Hl'; by destruct (Hl i)|]. intros s3 s4 _ _ Hid4 _. apply safe_Done. intros s5 Hr5 _.
      by apply (idle_rely me s4). }
  assert (guarantee me s1 s1 /\ forall s2, rely me s1 s2 -> Inv s2 -> idle me s2) as [Hsame Hraise].
  { split; [by apply guarantee_same|]. intros s2 Hr2 _. by apply (idle_rely me s1). }
  cbn [perform]. unfold update, os_error, raise. destruct (ch_fault ch); [cbn; split; [done|by intros; eapply Hraise]|].
  destruct (st_entries s1 !! lock_name a) as [[i e]|] eqn:E.
  - destruct e as [raw links| | |]; cbn [fst snd]; rewrite ?with_entries_id; (split; [done|]); try (by intros; eapply Hraise);
      (apply Hf; [done..|]; by eexists).
  - cbn [fst snd]. assert (guarantee me s1 (with_entries <[lock_name a := (ch_ino ch, EFile [] 1)]> s1)) as Hg
      by by apply guarantee_lock_file.
    split; [done|]. apply Hf; [apply Hg|done|done|]. eexists. cbn. by rewrite lookup_insert_eq.
Qed.
End safety.
