(* ===== verification/StoreOperations.v ===== *)
(** * Publication, reading and deletion keep the store safe

    Each operation, call by call and whatever the others do, keeps the invariant of the
    store and moves a report only as its phases allow, which the rely-guarantee rule
    carries to every reachable configuration. *)

From S2P Require Import Prelude PyStr Num PyObj Json Bytes ByteLaws FrozenPackage EvidenceIo Documents MezoDex TroveReport SealedInput Archive Report Bundle Programs Store StoreSafety.
Open Scope Z_scope.

Section operations_safety.
Context `{UnicodeTables} `{UnicodeLower} `{UnicodeNormal} `{ReportResources}.

Abbreviation guarantee := (guarantee Inv rely act).
Abbreviation safe := (safe perform admissible Inv rely act).

(** ** Publication *)

Definition staging_of (a name : pystr) : Prop := exists x, name = staging_prefix a ++ x /\ length x = 8%nat.

(** The lock is held and the temporary directory has these files. *)
Definition staged (me : op) (a : pystr) (f : fd) (staging : pystr) (d : gmap pystr (ino * leaf)) (s : store) : Prop :=
  locked me a f s /\ staging_of a staging /\ exists i, st_entries s !! staging = Some (i, EDirectory d).

Lemma staged_rely me a f staging d s s' : valid_id a -> rely me s s' -> staged me a f staging d s -> staged me a f staging d s'.
Proof.
  intros Ha Hr (Hl & Hs & i & Hi). split; [by apply (locked_rely me a f s)|]. split; [done|]. exists i.
  rewrite (locked_area me a f s s' staging); [done..|]. by right.
Qed.

Lemma locked_entries me a f s g :
  valid_id a -> locked me a f s -> (forall name, ~ area a name -> g (st_entries s) !! name = st_entries s !! name) ->
  locked me a f (with_entries g s).
Proof.
  intros Ha (Hf & (e & He) & Hl) Hg. split; [done|]. split; [|done]. exists e. cbn. rewrite Hg; [done|]. by apply lock_outside.
Qed.

Lemma staging_area a name : staging_of a name -> area a name.
Proof. intros Hs. by right. Qed.

(** A change of the temporary directory. *)
Lemma staged_change me a f staging g s :
  valid_id a -> Inv s -> locked me a f s -> staging_of a staging ->
  (forall name, name <> staging -> g (st_entries s) !! name = st_entries s !! name) ->
  guarantee me s (with_entries g s) /\ locked me a f (with_entries g s).
Proof.
  intros Ha Hi Hl Hs Hg. split.
  - apply (guarantee_staging me s g a); [done|by apply (locked_holds me a f)|done|]. intros n Hn. apply Hg. intros ->. by apply Hn.
  - apply locked_entries; [done..|]. intros n Hn. apply Hg. intros ->. by apply Hn, staging_area.
Qed.

Lemma staged_insert me a f staging d s i d' :
  valid_id a -> Inv s -> staged me a f staging d s ->
  guarantee me s (with_entries <[staging := (i, EDirectory d')]> s) /\
  staged me a f staging d' (with_entries <[staging := (i, EDirectory d')]> s).
Proof.
  intros Ha Hi (Hl & Hs & _). destruct (staged_change me a f staging <[staging := (i, EDirectory d')]> s) as [Hg Hl']; [done..| |].
  - intros n Hn. by rewrite lookup_insert_ne.
  - split; [done|]. split; [done|]. split; [done|]. exists i. cbn. by rewrite lookup_insert_eq.
Qed.

(** A file is staged with a content of the digest of its payload. *)
Lemma safe_stage_file me a f staging d name payload s :
  valid_id a -> staged me a f staging d s -> d !! name = None ->
  safe me (stage_file staging (name, payload)) s (fun r s' =>
    match r with
    | Ok _ => exists j raw, staged me a f staging (<[name := (j, LFile raw)]> d) s' /\ digest raw = digest payload
    | Raise _ => locked me a f s'
    end).
Proof.
  intros Ha Hs Hd. unfold stage_file. set (Q := fun r s' => match r with Ok _ => _ | Raise _ => _ end).
  assert (forall d s, staged me a f staging d s -> may_raise me s Q) as HQ
    by (intros d' s' [Hl _] e s1 Hr _; by apply (locked_rely me a f s')).
  apply safe_do. intros s1 ch1 Hr1 Hi1 _. apply (staged_rely _ _ _ _ _ _ s1 Ha Hr1) in Hs. pose proof Hs as (_ & _ & i & Hi).
  cbn [perform]. unfold update, os_error, raise. rewrite Hi, Hd.
  destruct (ch_fault ch1); cbn [fst snd]; [split; [by apply guarantee_same|by intros; eapply HQ]|].
  destruct (staged_insert me a f staging d s1 i (<[name := (ch_ino ch1, LFile [])]> d)) as [Hg2 Hs2]; [done..|].
  split; [done|]. set (s1' := with_entries _ s1) in *. set (d1 := <[name := _]> d) in *.
  apply safe_read; [done|by apply (HQ d1)|]. intros s2 _ _ Hr2 Hi2 _. apply (staged_rely _ _ _ _ _ _ s2 Ha Hr2) in Hs2.
  apply safe_do. intros s3 ch3 Hr3 Hi3 _. apply (staged_rely _ _ _ _ _ _ s3 Ha Hr3) in Hs2. pose proof Hs2 as (_ & _ & k & Hk).
  cbn [perform]. unfold os_error, raise. rewrite Hk.
  assert (d1 !! name = Some (ch_ino ch1, LFile [])) as Hd1 by apply lookup_insert_eq. rewrite Hd1. cbn [fst snd].
  set (stored := default payload (ch_stored ch3)).
  destruct (staged_insert me a f staging d1 s3 k (<[name := (ch_ino ch1, LFile stored)]> d1)) as [Hg3 Hs3]; [done..|].
  split; [done|]. set (s3' := with_entries _ s3) in *.
  assert (<[name := (ch_ino ch1, LFile stored)]> d1 = <[name := (ch_ino ch1, LFile stored)]> d) as E
    by (unfold d1; apply insert_insert_eq).
  rewrite E in Hs3.
  destruct (ch_fault ch3); [intros s4 Hr4 Hi4; by eapply (HQ _ s3')|].
  apply safe_read; [done|by eapply HQ|]. intros s4 _ _ Hr4 Hi4 _. apply (staged_rely _ _ _ _ _ _ s4 Ha Hr4) in Hs3.
  apply safe_read; [done|by eapply HQ|]. intros s5 ch5 raw Hr5 Hi5 Hraw. apply (staged_rely _ _ _ _ _ _ s5 Ha Hr5) in Hs3.
  assert (raw = stored) as ->.
  { pose proof Hs3 as (_ & _ & k' & Hk'). cbn [perform query fst] in Hraw. unfold query, directory_at in Hraw.
    rewrite Hk' in Hraw. cbn [fst mbind result_bind] in Hraw. rewrite lookup_insert_eq in Hraw.
    destruct (ch_fault ch5); [done|congruence]. }
  unfold prog_reject_if, lift, reject_if. apply safe_Done. intros s6 Hr6 Hi6.
  apply (staged_rely _ _ _ _ _ _ s6 Ha Hr6) in Hs3. destruct (str_eqb (digest stored) (digest payload)) eqn:Ed; cbn.
  - exists (ch_ino ch1), stored. split; [done|]. by apply str_eqb_spec.
  - apply Hs3.
Qed.

(** What is verified is the file the directory holds. *)
Lemma safe_verify_bundle me a f staging d j raw expected s :
  valid_id a -> staged me a f staging d s -> d !! EVIDENCE = Some (j, LFile raw) ->
  safe me (verify_bundle staging EVIDENCE expected) s (fun r s' => staged me a f staging d s' /\
    forall built, r = Ok built -> verify_bundle_bytes (take (Z.to_nat (MAX_BUNDLE_BYTES + 1)) raw) expected = Ok built).
Proof.
  intros Ha Hs Hd. unfold verify_bundle. eapply (safe_bind _ _ _ _ _ rely_refl _ _ _ _ (fun r s' =>
    staged me a f staging d s' /\ forall taken, r = Ok taken -> taken = take (Z.to_nat (MAX_BUNDLE_BYTES + 1)) raw)).
  - unfold prog_except. apply safe_Call. intros s1 ch Hr Hi _. apply (staged_rely _ _ _ _ _ _ s1 Ha Hr) in Hs.
    pose proof Hs as (_ & _ & i & He). cbn [perform]. unfold query, directory_at. rewrite He. cbn [fst snd mbind result_bind].
    rewrite Hd. split; [by apply guarantee_same|].
    destruct (ch_fault ch); cbn; intros s2 Hr2 _; (split; [by apply (staged_rely _ _ _ _ _ s1)|]); [done|by intros ? [= <-]].
  - intros taken s1 Hi1 [Hs1 Ht]. apply safe_Done. intros s2 Hr2 _. split; [by apply (staged_rely _ _ _ _ _ s1)|].
    intros built Hb. by rewrite <- (Ht taken).
  - intros e s1 s2 _ [Hs1 _] Hr2 _. split; [by apply (staged_rely _ _ _ _ _ s1)|done].
Qed.

Lemma safe_prepare me a f built s :
  valid_id a -> locked me a f s ->
  safe me (prepare a built) s (fun r s' => locked me a f s' /\ forall bundle staging, r = Ok (bundle, staging) ->
    build_bundle built = Ok bundle /\ staged me a f staging ∅ s').
Proof.
  intros Ha Hl. set (Q := fun r s' => locked me a f s' /\ _).
  assert (forall s, locked me a f s -> may_raise me s Q) as HQ
    by (intros s' Hl' e s1 Hr _; split; [by apply (locked_rely me a f s')|done]).
  apply safe_read; [done|by apply HQ|]. intros s1 ch1 exists_ Hr1 Hi1 _. apply (locked_rely _ _ _ _ s1 Ha Hr1) in Hl.
  apply safe_lift; [by apply HQ|]. intros _ _. apply safe_lift; [by apply HQ|]. intros bundle Hb.
  apply safe_do. intros s2 ch2 Hr2 Hi2 (Hlen & _). apply (locked_rely _ _ _ _ s2 Ha Hr2) in Hl.
  cbn [perform]. unfold update, os_error, raise. set (staging := staging_prefix a ++ ch_suffix ch2).
  assert (staging_of a staging) as Hs by by exists (ch_suffix ch2).
  destruct (ch_fault ch2); [|destruct (st_entries s2 !! staging) eqn:E]; cbn [fst snd].
  - split; [by apply guarantee_same|]. intros s3 Hr3 Hi3. by apply (HQ s2).
  - split; [by apply guarantee_same|]. intros s3 Hr3 Hi3. by apply (HQ s2).
  - destruct (staged_change me a f staging <[staging := (ch_ino ch2, EDirectory ∅)]> s2) as [Hg Hl']; [done..| |].
    { intros n Hn. by rewrite lookup_insert_ne. }
    split; [done|]. apply safe_Done. intros s3 Hr3 Hi3. split; [by eapply (locked_rely _ _ _ _ s3 Ha Hr3)|].
    intros b st [= <- <-]. split; [done|]. eapply staged_rely; [done|exact Hr3|]. split; [done|]. split; [done|].
    exists (ch_ino ch2). cbn. by rewrite lookup_insert_eq.
Qed.

(** The renaming publishes the two files. *)
Lemma guarantee_rename me a f staging i d s p r z :
  valid_id a -> Inv s -> locked me a f s -> staging_of a staging ->
  st_entries s !! staging = Some (i, EDirectory d) -> form d (Published r z) -> genuine a r z ->
  in_phase s a p -> p = Absent \/ p = Emptied ->
  guarantee me s (with_entries (fun m => <[a := (i, EDirectory d)]> (delete staging m)) s) /\
  locked me a f (with_entries (fun m => <[a := (i, EDirectory d)]> (delete staging m)) s).
Proof.
  intros Ha Hi Hl Hs He Hf Hg Hp Hpc. set (g := fun m => _).
  assert (forall n, ~ area a n -> g (st_entries s) !! n = st_entries s !! n) as Hn.
  { intros n Hn. unfold g. rewrite lookup_insert_ne, lookup_delete_ne; [done| |].
    - intros ->. by apply Hn, staging_area.
    - intros ->. by apply Hn, area_self. }
  split; [|by apply locked_entries]. apply (guarantee_area me s g a p (Published r z)); try done.
  - by apply (locked_holds me a f).
  - eapply phase_present; [|exact Hf]. cbn. unfold g. by rewrite lookup_insert_eq.
  - right. destruct Hpc as [->| ->]; constructor.
Qed.

(** What a publication returns: the digests of the report and of its bundle, of which
    the store has verified a pair of files with the same digests. *)
Definition published_result (a : pystr) (built : BuiltReport) (artifact : PublishedArtifact) : Prop :=
  exists report evidence bundle, genuine a report evidence /\
    (subscript (u "report_id") (br_document built) ≫= identifier) = Ok a /\ build_bundle built = Ok bundle /\
    digest report = digest (br_report_bytes built) /\ digest evidence = digest bundle /\
    artifact = mkArtifact a (br_report_sha256 built) (digest bundle) (zlength (br_report_bytes built)) (zlength bundle).

(** The phase of a report does not change while its lock is held. *)
Lemma phase_rely me a f p s s' : valid_id a -> rely me s s' -> locked me a f s -> in_phase s a p -> in_phase s' a p.
Proof.
  intros Ha Hr Hl. apply in_phase_entries. symmetry. apply (locked_area me a f s s' a); [done..|]. apply area_self.
Qed.

(** The store has the two files of a publication. *)
Definition published_now (a : pystr) (built : BuiltReport) (bundle : bytes) (s : store) : Prop :=
  exists report evidence, in_phase s a (Published report evidence) /\
    digest report = digest (br_report_bytes built) /\ digest evidence = digest bundle.

Lemma safe_fill me a f built bundle staging s :
  valid_id a -> subscript (u "report_id") (br_document built) ≫= identifier = Ok a -> build_bundle built = Ok bundle ->
  staged me a f staging ∅ s ->
  safe me (fill a built bundle staging) s (fun r s' => locked me a f s' /\
    forall artifact, r = Ok artifact -> published_result a built artifact /\ published_now a built bundle s').
Proof.
  intros Ha Hid Hb Hs. set (Q := fun r s' => _).
  assert (forall s, locked me a f s -> may_raise me s Q) as HQ
    by (intros s' Hl' e s1 Hr _; split; [by apply (locked_rely me a f s')|done]).
  apply safe_read; [done|apply HQ, Hs|]. intros s1 _ _ Hr1 Hi1 _. apply (staged_rely _ _ _ _ _ _ s1 Ha Hr1) in Hs.
  eapply (safe_bind _ _ _ _ _ rely_refl _ _ _ _ (fun r s' => match r with
    | Ok _ => exists d r z, staged me a f staging d s' /\ form d (Published r z) /\
        digest r = digest (br_report_bytes built) /\ digest z = digest bundle
    | Raise _ => locked me a f s' end)).
  - cbn [prog_each]. eapply (safe_bind _ _ _ _ _ rely_refl); [by apply safe_stage_file| |].
    2: { intros e s2 s3 _ Hl Hr _. by apply (locked_rely me a f s2). }
    intros [] s2 Hi2 (j & r & Hs2 & Hr). eapply (safe_bind _ _ _ _ _ rely_refl); [by apply (safe_stage_file _ _ _ _ _ EVIDENCE bundle s2 Ha Hs2)| |].
    2: { intros e s3 s4 _ Hl Hr' _. by apply (locked_rely me a f s3). }
    intros [] s3 Hi3 (k & z & Hs3 & Hz). apply safe_Done. intros s4 Hr4 _. eexists _, r, z.
    split; [by eapply (staged_rely _ _ _ _ _ _ s4 Ha Hr4)|]. split; [|done].
    rewrite insert_insert_ne by done. apply form_published.
  - intros [] s2 Hi2 (d & r & z & Hs2 & Hf & Hr & Hz).
    assert (exists k, d !! EVIDENCE = Some (k, LFile z)) as [k Hk] by (inversion Hf; subst; by eexists).
    eapply (safe_bind _ _ _ _ _ rely_refl); [by apply (safe_verify_bundle me a f staging d k z _ s2 Ha Hs2 Hk)| |].
    2: { intros e s3 s4 _ [[Hl _] _] Hr4 _. split; [by apply (locked_rely me a f s3)|done]. }
    intros verified s3 Hi3 [Hs3 Hv]. specialize (Hv verified eq_refl).
    apply safe_read; [done|apply HQ, Hs3|]. intros s4 _ _ Hr4 Hi4 _. apply (staged_rely _ _ _ _ _ _ s4 Ha Hr4) in Hs3.
    apply safe_read; [done|apply HQ, Hs3|]. intros s5 _ exists_ Hr5 Hi5 _. apply (staged_rely _ _ _ _ _ _ s5 Ha Hr5) in Hs3.
    apply safe_lift; [apply HQ, Hs3|]. intros _ _.
    apply safe_do. intros s6 ch6 Hr6 Hi6 _. apply (staged_rely _ _ _ _ _ _ s6 Ha Hr6) in Hs3. destruct Hs3 as (Hl & Hst & i & He).
    assert (guarantee me s6 s6 /\ forall e s', rely me s6 s' -> Inv s' -> Q (Raise e) s') as [Hsame Hraise]
      by (split; [by apply guarantee_same|exact (HQ s6 Hl)]).
    assert (genuine a r z) as Hgen by by exists built, bundle, verified.
    destruct (Hi6 a Ha) as (p & Hp & _).
    cbn [perform]. unfold update, os_error, missing, raise. rewrite He. destruct (ch_fault ch6); [split; [done|exact (Hraise _)]|].
    assert (p = Absent \/ p = Emptied ->
      guarantee me s6 (with_entries (fun m => <[a := (i, EDirectory d)]> (delete staging m)) s6) /\
      safe me (do (Fsync []) ;;
        Done (Ok (mkArtifact a (br_report_sha256 built) (digest bundle) (zlength (br_report_bytes built)) (zlength bundle))))
        (with_entries (fun m => <[a := (i, EDirectory d)]> (delete staging m)) s6) Q) as Hpub.
    { intros Hpc. destruct (guarantee_rename me a f staging i d s6 p r z) as [Hg Hl']; [done..|]. split; [done|].
      apply safe_read; [done|exact (HQ _ Hl')|]. intros s7 _ _ Hr7 _ _. apply safe_Done. intros s8 Hr8 _.
      assert (locked me a f s7) as Hl7 by by eapply (locked_rely _ _ _ _ s7 Ha Hr7).
      split; [by apply (locked_rely _ _ _ s7 _ Ha Hr8)|].
      intros artifact [= <-]. split; [by exists r, z, bundle|]. exists r, z. split; [|done].
      apply (phase_rely me a f _ s7 s8 Ha Hr8 Hl7). apply (phase_rely me a f _ _ s7 Ha Hr7 Hl').
      eapply phase_present; [|exact Hf]. cbn. by rewrite lookup_insert_eq. }
    destruct Hp as [Hn|i' d' p Hn Hf']; rewrite Hn; cbn [fst snd].
    + apply Hpub. by left.
    + case_bool_decide as Hd; cbn [fst snd]; [|split; [done|exact (Hraise _)]]. apply Hpub. right. subst d'.
      by apply form_empty.
  - intros e s2 s3 _ Hl Hr3 _. split; [by apply (locked_rely me a f s2)|done].
Qed.

(** The exceptions of the two calls that clean up, [Exists] and [Rmtree]: no other call
    raises them, and the code raises none of them itself. *)
Definition cleanup_failed (e : exn) : Prop := e = Exc OSError "cleanup" \/ e = Exc FileNotFoundError "cleanup".

(** The cleanup closes the lock, unless it fails before. *)
Definition left_with {A} (me : op) (r r' : result A) (s : store) : Prop :=
  r' = r /\ idle me s \/ exists e, r' = Raise e /\ cleanup_failed e.

Lemma safe_close_lock {A} me a f (r : result A) s :
  locked me a f s -> safe me (do (Close f) ;; Done r) s (left_with me r).
Proof.
  intros (_ & _ & Hl). apply safe_close; [intros i; apply Hl|]. intros s1 s2 _ _ Hi _. apply safe_Done.
  intros s3 Hr _. left. split; [done|]. by apply (idle_rely me s2).
Qed.

Lemma safe_leave {A} me a f staging (r : result A) s :
  valid_id a -> locked me a f s -> (forall name, staging = Some name -> staging_of a name) ->
  safe me (leave f staging r) s (left_with me r).
Proof.
  intros Ha Hl Hst. destruct staging as [staging|]; [|by apply (safe_close_lock me a)]. specialize (Hst staging eq_refl).
  unfold leave. eapply (safe_bind _ _ _ _ _ rely_refl _ _ _ _ (fun r s' => locked me a f s' /\ forall e, r = Raise e -> cleanup_failed e)).
  - apply safe_do. intros s1 ch Hr Hi _. apply (locked_rely _ _ _ _ s1 Ha Hr) in Hl. cbn [perform fst snd].
    split; [by apply guarantee_same|]. unfold cleanup_error, raise. destruct (ch_fault ch); cbn [fst snd].
    { intros s2 Hr2 _. split; [by apply (locked_rely me a f s1)|]. intros ? [= <-]. by left. }
    destruct (match st_entries s1 !! staging with Some _ => _ | None => _ end); cbn [fst snd].
    2: { apply safe_Done. intros s2 Hr2 _. split; [by apply (locked_rely me a f s1)|done]. }
    unfold do. apply safe_Call. intros s2 ch2 Hr2 Hi2 _. apply (locked_rely _ _ _ _ s2 Ha Hr2) in Hl. cbn [perform].
    assert (forall (r : result unit) g, (forall name, name <> staging -> g (st_entries s2) !! name = st_entries s2 !! name) ->
      (forall e, r = Raise e -> cleanup_failed e) ->
      guarantee me s2 (with_entries g s2) /\
      safe me (Done r : program unit) (with_entries g s2) (fun r s' => locked me a f s' /\ forall e, r = Raise e -> cleanup_failed e)) as Hg.
    { intros r' g Hg Hr'. destruct (staged_change me a f staging g s2) as [Hgu Hl']; [done..|]. split; [done|].
      apply safe_Done. intros s3 Hr3 _. split; [by eapply (locked_rely _ _ _ _ s3 Ha Hr3)|done]. }
    pose proof (fun r => Hg r id (fun _ _ => eq_refl)) as Hsame. rewrite with_entries_id in Hsame.
    assert (forall e c, c = OSError \/ c = FileNotFoundError -> (@Raise unit (Exc c "cleanup")) = Raise e -> cleanup_failed e) as Hio
      by (intros e c [->| ->] [= <-]; [by left|by right]).
    unfold cleanup_error, raise.
    destruct (st_entries s2 !! staging) as [[i [| d | |]]|]; [| |..]; try destruct (ch_fault ch2); cbn [fst snd];
      (apply Hsame || (apply Hg; [intros n Hn; by rewrite ?lookup_insert_ne, ?lookup_delete_ne by done|])); try done;
      intros e; apply Hio; tauto.
  - intros [] s1 _ [Hl1 _]. by apply (safe_close_lock me a).
  - intros e s1 s2 _ [_ He] _ _. right. exists e. split; [done|]. by apply He.
Qed.

(** Whatever the other operations do, and wherever calls fail, a publication keeps
    the invariant of the store and its discipline, and ends with its lock released
    unless a call of its cleanup failed. *)
Theorem publish_artifact_safe me absolute built s :
  idle me s ->
  safe me (publish_artifact absolute built) s (fun r s' => (idle me s' \/ exists e, r = Raise e /\ cleanup_failed e) /\
    forall artifact, r = Ok artifact -> exists a, published_result a built artifact).
Proof.
  intros Hidle. set (Q := fun r s' => _).
  assert (forall s, idle me s -> may_raise me s Q) as HQ by (intros s' Hi e s1 Hr _; split; [left; by apply (idle_rely me s')|done]).
  unfold publish_artifact. apply safe_lift; [by apply HQ|]. intros a Hid.
  assert (valid_id a) as Ha.
  { apply bind_Ok in Hid as (v & _ & Hv). destruct v as [| | | |s'| |]; try done. exists a.
    pose proof (identifier_text _ _ Hv) as [-> _]. done. }
  apply safe_reject; [by apply HQ|]. intros _.
  apply safe_read; [done|by apply HQ|]. intros s1 _ b1 Hr1 Hi1 _. apply (idle_rely _ _ s1 Hr1) in Hidle.
  apply safe_reject; [by apply HQ|]. intros _.
  apply safe_read; [done|by apply HQ|]. intros s2 _ b2 Hr2 Hi2 _. apply (idle_rely _ _ s2 Hr2) in Hidle.
  apply safe_reject; [by apply HQ|]. intros _.
  eapply (safe_bind _ _ _ _ _ rely_refl); [by apply safe_open_lock| |].
  2: { intros e s3 s4 _ Hi Hr _. split; [left; by apply (idle_rely me s3)|done]. }
  intros f s3 Hi3 Hl. cbn beta iota in Hl.
  assert (forall (r r' : result PublishedArtifact) s, (forall artifact, r = Ok artifact -> published_result a built artifact) ->
    left_with me r r' s -> Q r' s) as Hleft.
  { intros r r' s' Hp [[-> Hi]|He]; (split; [|intros artifact Hr]).
    - by left.
    - exists a. by apply Hp.
    - by right.
    - destruct He as (e & -> & _). done. }
  eapply (safe_then _ _ _ _ _ rely_refl); [by apply safe_prepare|]. intros [[bundle staging]|e] s4 Hi4 [Hl4 Hp].
  - destruct (Hp _ _ eq_refl) as [Hb Hs]. eapply (safe_then _ _ _ _ _ rely_refl); [by apply (safe_fill me a f)|].
    intros r s5 Hi5 [Hl5 Hp5]. eapply safe_mono; [apply (safe_leave me a f (Some staging)); [done..|]|intros r' s'; apply Hleft].
    { intros name [= <-]. apply Hs. }
    intros artifact Hr. by apply Hp5.
  - eapply safe_mono; [by apply (safe_leave me a f None)|intros r' s'; by apply Hleft].
Qed.

(** ** Deletion *)

(** The lock is held and the report is this directory. *)
Definition under (me : op) (a : pystr) (f : fd) (i : ino) (d : gmap pystr (ino * leaf)) (s : store) : Prop :=
  locked me a f s /\ st_entries s !! a = Some (i, EDirectory d).

Lemma under_rely me a f i d s s' : valid_id a -> rely me s s' -> under me a f i d s -> under me a f i d s'.
Proof.
  intros Ha Hr (Hl & He). split; [by apply (locked_rely me a f s)|].
  rewrite (locked_area me a f s s' a); [done..|]. apply area_self.
Qed.

(** The names of a directory, in the order of their removal. *)
Lemma form_names d p : form d p ->
  py_sorted str_leb (remove_dups (names_of d)) =
  match p with Published _ _ => [EVIDENCE; REPORT] | Halved _ => [REPORT] | _ => [] end.
Proof. intros []; vm_compute; reflexivity. Qed.

(** A change of the report itself. *)
Lemma report_change me a f s g p p' :
  valid_id a -> Inv s -> locked me a f s -> in_phase s a p -> in_phase (with_entries g s) a p' -> phase_ok a p' ->
  transition p p' -> (forall name, name <> a -> g (st_entries s) !! name = st_entries s !! name) ->
  guarantee me s (with_entries g s) /\ locked me a f (with_entries g s).
Proof.
  intros Ha Hi Hl Hp Hp' Hok Ht Hg.
  assert (forall name, ~ area a name -> g (st_entries s) !! name = st_entries s !! name) as Hout
    by (intros n Hn; apply Hg; intros ->; by apply Hn, area_self).
  split; [|by apply locked_entries].
  apply (guarantee_area me s g a p p'); try done; [by apply (locked_holds me a f)|by right].
Qed.

Lemma safe_remove_member me a f i d p p' entries name s :
  valid_id a -> under me a f i d s -> form d p -> form (delete name d) p' -> phase_ok a p' -> transition p p' ->
  safe me (remove_member (a, i) entries name) s (fun r s' =>
    match r with Ok _ => under me a f i (delete name d) s' | Raise _ => locked me a f s' end).
Proof.
  intros Ha Hu Hf Hf' Hok Ht. set (Q := fun r s' => match r with Ok _ => _ | Raise _ => _ end).
  assert (forall s, locked me a f s -> may_raise me s Q) as HQ
    by (intros s' Hl' e s1 Hr _; by apply (locked_rely me a f s')).
  apply safe_read; [done|apply HQ, Hu|]. intros s1 _ current Hr1 Hi1 _. apply (under_rely _ _ _ _ _ _ s1 Ha Hr1) in Hu.
  apply safe_reject; [apply HQ, Hu|]. intros _.
  unfold do. apply safe_Call. intros s2 ch Hr2 Hi2 _. apply (under_rely _ _ _ _ _ _ s2 Ha Hr2) in Hu. destruct Hu as [Hl He].
  assert (forall e, guarantee me s2 s2 /\ safe me (Done (Raise e) : program unit) s2 Q) as Hsame
    by (intros e; split; [by apply guarantee_same|]; apply safe_Done; intros s3 Hr3; exact (HQ s2 Hl e s3 Hr3)).
  cbn [perform]. unfold update, opened_directory, opened, os_error, missing, raise. cbn [fst snd]. rewrite He.
  rewrite bool_decide_true by done. cbn [mbind result_bind]. destruct (ch_fault ch); [apply Hsame|].
  assert (guarantee me s2 (with_entries <[a := (i, EDirectory (delete name d))]> s2) /\
          safe me (Done (Ok tt) : program unit) (with_entries <[a := (i, EDirectory (delete name d))]> s2) Q) as Hdel.
  { destruct (report_change me a f s2 <[a := (i, EDirectory (delete name d))]> p p') as [Hg Hl']; try done.
    - by eapply phase_present.
    - eapply phase_present; [|exact Hf']. cbn. by rewrite lookup_insert_eq.
    - intros n Hn. by rewrite lookup_insert_ne.
    - split; [done|]. apply safe_Done. intros s3 Hr3 _. apply (under_rely _ _ _ _ _ _ s3 Ha Hr3). split; [done|].
      cbn. by rewrite lookup_insert_eq. }
  destruct (d !! name) as [[j [| | |]]|]; cbn [fst snd]; first [apply Hdel|apply Hsame].
Qed.

(** Every file is removed, the evidence first. *)
Lemma safe_remove_all me a f i d p entries s :
  valid_id a -> under me a f i d s -> form d p ->
  safe me (prog_each (remove_member (a, i) entries) (py_sorted str_leb (remove_dups (names_of d)))) s (fun r s' =>
    match r with Ok _ => under me a f i ∅ s' | Raise _ => locked me a f s' end).
Proof.
  intros Ha Hu Hf. set (Q := fun r s' => match r with Ok _ => _ | Raise _ => _ end).
  rewrite (form_names d p Hf).
  assert (forall s, under me a f i ∅ s -> safe me (Done (Ok tt) : program unit) s Q) as Hdone
    by (intros s1 Hu1; apply safe_Done; intros s2 Hr2 _; by apply (under_rely _ _ _ _ _ s1)).
  assert (forall j r s, under me a f i {[REPORT := (j, LFile r)]} s ->
    safe me (prog_each (remove_member (a, i) entries) [REPORT]) s Q) as Hhalf.
  { intros j r s1 Hu1. cbn [prog_each]. eapply (safe_bind _ _ _ _ _ rely_refl).
    - eapply (safe_remove_member me a f i _ (Halved r) Emptied); [done|exact Hu1|constructor| |done|constructor].
      rewrite delete_singleton_eq. constructor.
    - intros [] s2 Hi2 Hu2. cbn beta iota in Hu2. rewrite delete_singleton_eq in Hu2. by apply Hdone.
    - intros e s2 s3 _ Hl Hr3 _. by apply (locked_rely me a f s2). }
  destruct Hf as [j k r z|j r|]; [|by apply (Hhalf j r)|by apply Hdone].
  assert (delete EVIDENCE (<[REPORT := (j, LFile r)]> {[EVIDENCE := (k, LFile z)]}) =
    ({[REPORT := (j, LFile r)]} : gmap pystr (ino * leaf))) as E.
  { rewrite delete_insert_ne by done. rewrite delete_singleton_eq. done. }
  change (prog_each (remove_member (a, i) entries) [EVIDENCE; REPORT]) with
    (remove_member (a, i) entries EVIDENCE ;; prog_each (remove_member (a, i) entries) [REPORT]).
  eapply (safe_bind _ _ _ _ _ rely_refl).
  - eapply (safe_remove_member me a f i _ (Published r z) (Halved r)); [done|exact Hu|constructor| |done|constructor].
    rewrite E. constructor.
  - intros [] s2 Hi2 Hu2. cbn beta iota in Hu2. rewrite E in Hu2. by apply (Hhalf j r).
  - intros e s2 s3 _ Hl Hr3 _. by apply (locked_rely me a f s2).
Qed.

Lemma reading_map {A B} (g : A -> program B) l : (forall x, reading (g x)) -> reading (prog_map g l).
Proof.
  intros Hg. induction l as [|x l IH]; [done|]. apply reading_then; [apply Hg|]. intros [y|e]; [|done].
  apply reading_then; [apply IH|]. by intros [ys|e].
Qed.

Lemma reading_preflight directory name : reading (preflight directory name).
Proof. unfold preflight. apply reading_do; [done|]. intros entry. by destruct (negb _). Qed.

Lemma safe_clear_directory me a f i d p before s :
  valid_id a -> under me a f i d s -> form d p ->
  safe me (clear_directory a (a, i) before) s (fun r s' => locked me a f s' /\ forall b, r = Ok b -> in_phase s' a Absent).
Proof.
  intros Ha Hu Hf. set (Q := fun r s' => _).
  assert (forall s, locked me a f s -> may_raise me s Q) as HQ
    by (intros s' Hl' e s1 Hr _; split; [by apply (locked_rely me a f s')|done]).
  apply safe_read; [done|apply HQ, Hu|]. intros s1 _ opened Hr1 Hi1 _. apply (under_rely _ _ _ _ _ _ s1 Ha Hr1) in Hu.
  apply safe_reject; [apply HQ, Hu|]. intros _.
  apply safe_read; [done|apply HQ, Hu|]. intros s2 ch2 names Hr2 Hi2 Hnames. apply (under_rely _ _ _ _ _ _ s2 Ha Hr2) in Hu.
  assert (names = names_of d) as ->.
  { destruct Hu as [_ He]. cbn [perform] in Hnames. unfold query, opened_directory, Store.opened in Hnames. cbn [fst snd] in Hnames.
    rewrite He, bool_decide_true in Hnames by done. cbn [mbind result_bind] in Hnames.
    destruct (ch_fault ch2); [done|]. by injection Hnames as ->. }
  apply safe_reject; [apply HQ, Hu|]. intros _.
  eapply (safe_bind _ _ _ _ _ rely_refl); [apply safe_reading, reading_map, reading_preflight| |].
  2: { intros e s3 s4 _ Hr3 Hr4 Hi4. apply (HQ s2 (proj1 Hu)); [|done]. by apply (rely_trans _ _ s3). }
  intros entries s3 Hi3 Hr3. apply (under_rely _ _ _ _ _ _ s3 Ha Hr3) in Hu.
  eapply (safe_bind _ _ _ _ _ rely_refl); [by apply (safe_remove_all me a f i d p)| |].
  2: { intros e s4 s5 _ Hl Hr5 _. split; [by apply (locked_rely me a f s4)|done]. }
  intros [] s4 Hi4 Hu4. cbn beta iota in Hu4.
  apply safe_read; [done|apply HQ, Hu4|]. intros s5 _ _ Hr5 Hi5 _. apply (under_rely _ _ _ _ _ _ s5 Ha Hr5) in Hu4.
  apply safe_read; [done|apply HQ, Hu4|]. intros s6 _ current Hr6 Hi6 _. apply (under_rely _ _ _ _ _ _ s6 Ha Hr6) in Hu4.
  apply safe_reject; [apply HQ, Hu4|]. intros _.
  apply safe_do. intros s7 ch7 Hr7 Hi7 _. apply (under_rely _ _ _ _ _ _ s7 Ha Hr7) in Hu4. destruct Hu4 as [Hl He].
  cbn [perform]. unfold update, os_error, raise. rewrite He.
  destruct (ch_fault ch7); [split; [by apply guarantee_same|exact (HQ s7 Hl _)]|].
  rewrite bool_decide_true by done. cbn [fst snd].
  destruct (report_change me a f s7 (delete a) Emptied Absent) as [Hg Hl']; try done.
  - eapply phase_present; [done|constructor].
  - apply phase_absent. cbn. by rewrite lookup_delete_eq.
  - constructor.
  - intros n Hn. by rewrite lookup_delete_ne.
  - split; [done|]. apply safe_read; [done|exact (HQ _ Hl')|]. intros s8 _ _ Hr8 _ _. apply safe_Done. intros s9 Hr9 _.
    assert (locked me a f s8) as Hl8 by by eapply (locked_rely _ _ _ _ s8 Ha Hr8).
    split; [by apply (locked_rely _ _ _ s8 _ Ha Hr9)|]. intros b _.
    apply (phase_rely me a f _ s8 s9 Ha Hr9 Hl8), (phase_rely me a f _ _ s8 Ha Hr8 Hl'), phase_absent. cbn. by rewrite lookup_delete_eq.
Qed.

(** At most the lock of one report is held. *)
Definition at_most (me : op) (f : fd) (s : store) : Prop := forall i, st_locks s !! i = Some me -> i = snd f.

Lemma at_most_rely me f s s' : rely me s s' -> at_most me f s -> at_most me f s'.
Proof. intros Hr Hm i Hi. by apply Hm, (rl_own _ _ _ Hr). Qed.

Lemma safe_close_directory {A} me f g (r : result A) s :
  at_most me f s -> safe me (do (Close g) ;; Done r) s (fun _ s' => at_most me f s').
Proof.
  intros Hm. apply safe_do. intros s1 ch Hr Hi _. apply (at_most_rely _ _ _ s1 Hr) in Hm. cbn [perform fst snd].
  case_bool_decide as Hd.
  - split.
    + apply guarantee_locks; [done|]. intros o i Ho. rewrite lookup_delete_Some. naive_solver congruence.
    + apply safe_Done. intros s2 Hr2 _. apply (at_most_rely _ _ _ s2 Hr2). intros i. cbn. rewrite lookup_delete_Some.
      intros [_ Hi']. by apply Hm.
  - split; [by apply guarantee_same|]. apply safe_Done. intros s2 Hr2 _. by apply (at_most_rely _ _ _ s2 Hr2).
Qed.

Lemma safe_finally {A} me (p : program A) q s (Q R : store -> Prop) :
  safe me p s (fun _ s' => Q s') -> (forall (r : result A) s', Inv s' -> Q s' -> safe me (q ;; Done r : program A) s' (fun _ s'' => R s'')) ->
  safe me (prog_finally p q) s (fun _ s' => R s').
Proof. intros Hp Hq. eapply (safe_then _ _ _ _ _ rely_refl); [exact Hp|]. intros r s' Hi Hs. by apply Hq. Qed.

(** Whatever the other operations do, and wherever calls fail, a deletion keeps the
    invariant of the store and its discipline, and ends with its lock released. *)
Theorem delete_published_safe me absolute a s :
  idle me s -> safe me (delete_published absolute a) s (fun _ s' => idle me s').
Proof.
  intros Hidle. set (Q := fun _ s' => _).
  assert (forall {A} s, idle me s -> may_raise me s (fun (_ : result A) s' => idle me s')) as HQ
    by (intros A s' Hi e s1 Hr _; by apply (idle_rely me s')).
  apply safe_lift; [by apply HQ|]. intros a' Ha'. assert (valid_id a) as Ha by by exists a'.
  apply safe_reject; [by apply HQ|]. intros _.
  apply safe_read; [done|by apply HQ|]. intros s1 _ _ Hr1 Hi1 _. apply (idle_rely _ _ s1 Hr1) in Hidle.
  apply (safe_finally me _ _ _ (idle me) (idle me)).
  2: { intros r s2 _ Hi2. apply safe_read; [done|by apply HQ|]. intros s3 _ _ Hr3 _ _. apply safe_Done. intros s4 Hr4 _.
       apply (idle_rely me s3); [done|]. by apply (idle_rely me s2). }
  eapply (safe_bind _ _ _ _ _ rely_refl); [by apply safe_open_lock| |].
  2: { intros e s3 s4 _ Hi Hr _. by apply (idle_rely me s3). }
  intros f s2 Hi2 Hl. cbn beta iota in Hl. apply (safe_finally me _ _ _ (at_most me f) (idle me)).
  2: { intros r s3 _ Hm. apply safe_close; [exact Hm|]. intros s4 s5 _ _ Hid _. apply safe_Done. intros s6 Hr6 _.
       by apply (idle_rely me s5). }
  assert (forall {A} s, locked me a f s -> may_raise me s (fun (_ : result A) s' => at_most me f s')) as HM.
  { intros A s' (_ & _ & Hm) e s3 Hr _. apply (at_most_rely me f s'); [done|]. intros i. apply Hm. }
  eapply (safe_bind _ _ _ _ _ rely_refl); [apply safe_reading| |].
  { apply reading_then; [by apply reading_do|]. intros [x|e]; [done|]. by destruct (existsb _ _). }
  2: { intros e s3 s4 _ Hr3 Hr4 Hi4. apply (HM unit s2 Hl e s4); [by apply (rely_trans _ _ s3)|done]. }
  intros [before|] s3 Hi3 Hr3; apply (locked_rely _ _ _ _ s3 Ha Hr3) in Hl.
  2: { apply safe_Done. intros s4 Hr4 _. apply (at_most_rely me f s3); [done|]. intros i. apply Hl. }
  apply safe_reject; [by apply HM|]. intros _.
  apply safe_read; [done|by apply HM|]. intros s4 ch4 directory Hr4 Hi4 Hd. apply (locked_rely _ _ _ _ s4 Ha Hr4) in Hl.
  assert (exists i d p, directory = (a, i) /\ under me a f i d s4 /\ form d p) as (i & d & p & -> & Hu & Hf).
  { destruct (Hi4 a Ha) as (p & Hp & _). cbn [perform] in Hd. unfold query, missing, raise in Hd.
    destruct (ch_fault ch4); [done|]. destruct Hp as [Hn|i d p He Hf].
    - by rewrite Hn in Hd.
    - rewrite He in Hd. injection Hd as <-. by exists i, d, p. }
  apply (safe_finally me _ _ _ (at_most me f) (at_most me f)).
  - eapply safe_mono; [by apply (safe_clear_directory me a f i d p)|]. intros _ s5 [(_ & _ & Hm) _] j. apply Hm.
  - intros r s5 _ Hm. by apply safe_close_directory.
Qed.

(** ** Reading *)

Lemma reading_verify_bundle directory name expected : reading (verify_bundle directory name expected).
Proof.
  apply reading_then.
  - apply reading_then; [split; [done|]; intros [[raw|]|e]; done|]. intros [raw|e]; [done|]. by destruct (existsb _ _).
  - by intros [raw|e].
Qed.

Ltac reading_next :=
  match goal with
  | |- reading (do _ ≫= _) => apply reading_do; [done|intros ?]
  | |- reading (lift _ ≫= _) => apply reading_then; [done|intros [?|?]; [|done]]
  | |- reading (prog_reject_if _ _ ≫= _) => apply reading_then; [done|intros [?|?]; [|done]]
  | |- reading (verify_bundle _ _ _ ≫= _) => apply reading_then; [apply reading_verify_bundle|intros [?|?]; [|done]]
  | |- reading (match ?x with Some _ => _ | None => _ end ≫= _) => apply reading_then; [by destruct x|intros [?|?]; [|done]]
  end.

Lemma reading_published a : reading (read_published a).
Proof. unfold read_published. repeat reading_next. done. Qed.

(** An expected digest only adds a check. *)
Lemma verify_unexpected raw sha built :
  verify_bundle_bytes raw (Some sha) = Ok built -> verify_bundle_bytes raw None = Ok built.
Proof.
  unfold verify_bundle_bytes. intros Hv%try_except_Ok. destruct Hv as [Hv|(e & _ & Hv)].
  2: { by destruct (bool_decide _). }
  enough (verify_members raw None = Ok built) as -> by done.
  unfold verify_members in *. apply bind_Ok in Hv as (members & Hm & (report & Hr & Hv)%bind_Ok).
  rewrite Hm. cbn [mbind result_bind]. enough (check_bundle members None = Ok report) as -> by exact Hv.
  clear Hv Hm. unfold check_bundle in *.
  repeat match type of Hr with
    | (?m ≫= _) = Ok _ => let x := fresh "x" in let Hx := fresh "Hx" in
        apply bind_Ok in Hr as (x & Hx & Hr); try (rewrite Hx; cbn [mbind result_bind]); clear Hx
    | match ?x with _ => _ end = Ok _ => destruct x; try discriminate Hr
    end.
  exact Hr.
Qed.

(** What a reader returns: a report that was published under the identifier, as its
    publisher verified it. *)
Definition genuine_result (a : pystr) (built : BuiltReport) (artifact : PublishedArtifact) : Prop :=
  exists report evidence bundle, genuine a report evidence /\
    verify_bundle_bytes (take (Z.to_nat (MAX_BUNDLE_BYTES + 1)) evidence) None = Ok built /\
    subscript (u "report_id") (br_document built) = Ok (JStr a) /\ build_bundle built = Ok bundle /\
    artifact = mkArtifact a (br_report_sha256 built) (digest bundle) (zlength (br_report_bytes built)) (zlength bundle).

(** The evidence of a report, when the store has it. *)
Lemma evidence_genuine s a d i j raw :
  Inv s -> valid_id a -> st_entries s !! a = Some (i, EDirectory d) -> d !! EVIDENCE = Some (j, LFile raw) ->
  exists report, genuine a report raw.
Proof.
  intros Hi Ha He Hd. destruct (Hi a Ha) as (p & Hp & Hok). destruct Hp as [Hn|i' d' p He' Hf]; [congruence|].
  assert (d = d') as <- by congruence. destruct (form_contents _ _ Hf) as [_ Hz]. unfold content in Hz. rewrite Hd in Hz.
  destruct p as [|r z| |]; try done. injection Hz as <-. by exists r.
Qed.

(** Whatever the other operations do, a reader returns only a report that was
    published under its identifier, as its publisher verified it. *)
Theorem read_published_genuine me a s :
  idle me s ->
  safe me (read_published a) s (fun r s' => idle me s' /\ forall built artifact, r = Ok (built, artifact) -> genuine_result a built artifact).
Proof.
  intros Hidle. set (Q := fun r s' => _).
  assert (forall {A} (R : result A -> Prop) s, idle me s -> (forall e, R (Raise e)) -> may_raise me s (fun r s' => idle me s' /\ R r)) as HQ
    by (intros A R s' Hi HR e s1 Hr _; split; [by apply (idle_rely me s')|apply HR]).
  assert (forall s, idle me s -> may_raise me s Q) as HQ1 by (intros s' Hs; by apply HQ).
  apply safe_lift; [by apply HQ1|]. intros a' Ha'. assert (valid_id a) as Ha by by exists a'.
  apply safe_read; [done|by apply HQ1|]. intros s1 _ b1 Hr1 _ _. apply (idle_rely _ _ s1 Hr1) in Hidle.
  apply safe_reject; [by apply HQ1|]. intros _.
  apply safe_read; [done|by apply HQ1|]. intros s2 _ b2 Hr2 _ _. apply (idle_rely _ _ s2 Hr2) in Hidle.
  apply safe_reject; [by apply HQ1|]. intros _.
  apply safe_read; [done|by apply HQ1|]. intros s3 _ names Hr3 _ _. apply (idle_rely _ _ s3 Hr3) in Hidle.
  apply safe_reject; [by apply HQ1|]. intros _.
  eapply (safe_bind _ _ _ _ _ rely_refl _ _ _ _ (fun r s' => idle me s' /\ (forall built, r = Ok built ->
    exists report evidence, genuine a report evidence /\
      verify_bundle_bytes (take (Z.to_nat (MAX_BUNDLE_BYTES + 1)) evidence) None = Ok built))).
  - eapply (safe_bind _ _ _ _ _ rely_refl _ _ _ _ (fun r s' => idle me s' /\ (forall taken, r = Ok taken ->
      exists report evidence, genuine a report evidence /\ taken = take (Z.to_nat (MAX_BUNDLE_BYTES + 1)) evidence))).
    + unfold prog_except. apply safe_Call. intros s4 ch Hr4 Hi4 _. apply (idle_rely _ _ s4 Hr4) in Hidle.
      cbn [perform query fst snd]. split; [by apply guarantee_same|]. unfold query, directory_at, os_error, missing, raise.
      assert (forall e, safe me (prog_then (Done (Raise e) : program bytes)
        (fun r => match r with Ok a => Done (Ok a) | Raise e =>
           if existsb (exc_subclass (exn_class e)) [OSError] then lift (rejected "INVALID_DATASET") else Done (Raise e) end)) s4
        (fun r s' => idle me s' /\ (forall taken, r = Ok taken ->
          exists report evidence, genuine a report evidence /\ taken = take (Z.to_nat (MAX_BUNDLE_BYTES + 1)) evidence))) as He.
      { intros e. cbn [prog_then]. destruct (existsb _ _); (apply safe_Done; intros s5 Hr5 _; split; [by apply (idle_rely me s4)|done]). }
      destruct (ch_fault ch); [apply He|].
      destruct (st_entries s4 !! a) as [[i [| d | |]]|] eqn:Ea; try apply He. cbn [fst mbind result_bind].
      destruct (d !! EVIDENCE) as [[j [raw| | |]]|] eqn:Ed; try apply He.
      apply safe_Done. intros s5 Hr5 _. split; [by apply (idle_rely me s4)|]. intros taken [= <-].
      destruct (evidence_genuine s4 a d i j raw Hi4 Ha Ea Ed) as [report Hg]. by exists report, raw.
    + intros taken s4 Hi4 [Hid Ht]. apply safe_Done. intros s5 Hr5 _. split; [by apply (idle_rely me s4)|].
      intros built Hb. destruct (Ht taken eq_refl) as (report & evidence & Hg & ->). by exists report, evidence.
    + intros e s4 s5 _ [Hid _] Hr5 _. split; [by apply (idle_rely me s4)|done].
  - intros built s4 _ [Hid Hb]. destruct (Hb built eq_refl) as (report & evidence & Hg & Hv). clear Hb Hidle.
    apply safe_read; [done|by apply HQ1|]. intros s5 _ stream Hr5 _ _. apply (idle_rely _ _ s5 Hr5) in Hid.
    eapply (safe_bind _ _ _ _ _ rely_refl _ _ _ _ (fun _ s' => idle me s')).
    { destruct stream; (apply safe_Done; intros s6 Hr6 _; by apply (idle_rely me s5)). }
    2: { intros e s6 s7 _ Hid6 Hr7 Hi7. exact (HQ1 s6 Hid6 e s7 Hr7 Hi7). }
    intros report_bytes s6 _ Hid6. apply safe_lift; [by apply HQ1|]. intros named Hnamed.
    apply safe_reject; [by apply HQ1|]. intros [Hn%negb_false_iff Hb%negb_false_iff]%orb_false_iff.
    apply safe_lift; [by apply HQ1|]. intros bundle Hbundle. apply safe_Done. intros s7 Hr7 _.
    split; [by apply (idle_rely me s6)|]. intros b' art [= <- <-]. exists report, evidence, bundle.
    apply str_eqb_spec in Hb as ->. split_and!; try done. rewrite Hnamed. by apply json_is_Ok in Hn as ->.
  - intros e s4 s5 _ [Hid _] Hr5 Hi5. exact (HQ1 s4 Hid e s5 Hr5 Hi5).
Qed.
End operations_safety.
