(* ===== verification/StoreHistory.v ===== *)
(** * What the store passed through

    The operations of the store, with the states that the store has passed through:
    proved here of each, whatever the others do, is what its answer says of the run: a
    publication that answers was in place, whole, before its lock was released, what a
    reader returns was in the store when it read it, and a deletion that answers left,
    or found, nothing under its identifier. *)

From S2P Require Import Prelude PyStr Num PyObj Json Bytes ByteLaws FrozenPackage EvidenceIo Documents MezoDex TroveReport SealedInput Archive Report Bundle Programs Store StoreSafety StoreOperations.
Open Scope Z_scope.

Section history.
Context `{UnicodeTables} `{UnicodeLower} `{UnicodeNormal} `{ReportResources}.

Abbreviation safe := (safe perform admissible Inv rely act).
Abbreviation safe_run := (Programs.safe (perform_past perform) (admissible_past admissible) (Inv_past Inv) (rely_past rely) (act_past act)).

Lemma since_rely_refl o sp : rely_past rely o sp sp.
Proof. apply rely_past_refl, rely_refl. Qed.

Lemma since_rely_trans o s1 s2 s3 : rely_past rely o s1 s2 -> rely_past rely o s2 s3 -> rely_past rely o s1 s3.
Proof. apply rely_past_trans, rely_trans. Qed.

(** ** Rules *)

(** What follows a part: the state it ends in is one of the past. *)
Lemma past_then {A B} me (p : program A) (f : result A -> program B) s h Q R :
  safe me p s Q ->
  (forall r s' h', Inv s' -> Q r s' -> h ⊆ h' -> s' ∈ h' -> safe_run me (f r) (s', h') R) ->
  safe_run me (prog_then p f) (s, h) R.
Proof.
  intros Hp Hf. eapply (safe_then _ _ _ _ _ since_rely_refl); [by apply safe_past|].
  intros r [s' h'] [Hi _] (Hq & Hh & Hin). by apply Hf.
Qed.

(** A part after which no lock is held. *)
Lemma past_idle {A B} me (p : program A) (f : A -> program B) s h (R : result B -> store * list store -> Prop) :
  safe me p s (fun _ s' => idle me s') -> (forall e sp, idle me (fst sp) -> R (Raise e) sp) ->
  (forall a s' h', Inv s' -> idle me s' -> h ⊆ h' -> safe_run me (f a) (s', h') R) ->
  safe_run me (p ≫= f) (s, h) R.
Proof.
  intros Hp He Hf. eapply past_then; [exact Hp|]. intros [a|e] s' h' Hi Hidle Hh Hin; [by apply Hf|].
  apply safe_Done. intros sp [Hr _] _. apply He. by apply (idle_rely me s').
Qed.

Lemma past_reading {A B} me (p : program A) (f : A -> program B) s h (R : result B -> store * list store -> Prop) :
  reading p -> idle me s -> (forall e sp, idle me (fst sp) -> R (Raise e) sp) ->
  (forall a s' h', Inv s' -> idle me s' -> h ⊆ h' -> safe_run me (f a) (s', h') R) ->
  safe_run me (p ≫= f) (s, h) R.
Proof.
  intros Hp Hidle. apply past_idle. eapply safe_mono; [by apply safe_reading|]. intros r s' Hr. by apply (idle_rely me s).
Qed.

Lemma past_lift {A B} me (m : result A) (f : A -> program B) s h (R : result B -> store * list store -> Prop) :
  idle me s -> (forall e sp, idle me (fst sp) -> R (Raise e) sp) ->
  (forall a, m = Ok a -> safe_run me (f a) (s, h) R) -> safe_run me (lift m ≫= f) (s, h) R.
Proof.
  intros Hidle He Hf. destruct m as [a|e]; [by apply Hf|]. apply safe_Done. intros sp [Hr _] _. apply He. by apply (idle_rely me s).
Qed.

(** ** Publication *)

(** What a publication of a built report ends with. *)
Definition publishes_report (me : op) (built : BuiltReport) (r : result PublishedArtifact) (sp : store * list store) : Prop :=
  (idle me (fst sp) \/ exists e, r = Raise e /\ cleanup_failed e) /\
  forall artifact, r = Ok artifact -> exists a bundle t,
    valid_id a /\ published_result a built artifact /\ build_bundle built = Ok bundle /\ t ∈ snd sp /\ published_now a built bundle t.

Lemma publish_run me absolute built s h :
  idle me s -> safe_run me (publish_artifact absolute built) (s, h) (publishes_report me built).
Proof.
  intros Hidle. assert (forall e sp, idle me (fst sp) -> publishes_report me built (Raise e) sp) as He by (intros e sp Hi; split; [by left|done]).
  unfold publish_artifact, prog_reject_if. apply past_lift; [done..|]. intros a Hid.
  assert (valid_id a) as Ha.
  { apply bind_Ok in Hid as (v & _ & Hv). destruct v as [| | | |s'| |]; try done. exists a. by pose proof (identifier_text _ _ Hv) as [-> _]. }
  apply past_lift; [done..|]. intros _ _. apply past_reading; [by split|done..|]. intros b1 s1 h1 _ Hi1 _.
  apply past_lift; [done..|]. intros _ _. apply past_reading; [by split|done..|]. intros b2 s2 h2 _ Hi2 _.
  apply past_lift; [done..|]. intros _ _. eapply past_then; [by apply safe_open_lock|].
  intros [f|e] s3 h3 Hi3 Hl _ _; cbn beta iota in Hl.
  2: { apply safe_Done. intros sp [Hr _] _. apply He. by apply (idle_rely me s3). }
  assert (forall (r r' : result PublishedArtifact) t h4 sp, h4 ⊆ snd sp -> left_with me r r' (fst sp) ->
    (forall artifact, r = Ok artifact -> exists bundle, published_result a built artifact /\ build_bundle built = Ok bundle /\
       t ∈ h4 /\ published_now a built bundle t) -> publishes_report me built r' sp) as Hleft.
  { intros r r' t h4 sp Hsub [[-> Hi]|(e & -> & Hc)] Hp; (split; [|intros artifact Hr]); try done.
    - by left.
    - destruct (Hp artifact Hr) as (bundle & Hres & Hb & Ht & Hn). exists a, bundle, t. split_and!; try done. by apply Hsub.
    - right. by exists e. }
  eapply past_then; [by apply safe_prepare|]. intros [[bundle staging]|e] s4 h4 Hi4 [Hl4 Hp] _ _.
  - destruct (Hp _ _ eq_refl) as [Hb Hs]. eapply past_then; [by apply (safe_fill me a f)|].
    intros r s5 h5 Hi5 [Hl5 Hp5] _ Hin5. eapply safe_mono; [apply safe_past, (safe_leave me a f (Some staging)); [done..|]|].
    { intros name [= <-]. apply Hs. }
    intros r' sp (Hw & Hsub & _). apply (Hleft r r' s5 h5 sp Hsub Hw). intros artifact Hr. exists bundle.
    destruct (Hp5 artifact Hr) as [Hres Hn]. done.
  - eapply safe_mono; [apply safe_past, (safe_leave me a f None (Raise e)); done|].
    intros r' sp (Hw & Hsub & _). by apply (Hleft (Raise e) r' s4 h4 sp Hsub Hw).
Qed.

(** ** Reading *)

(** What a reader of a report ends with. *)
Definition reads_report (me : op) (a : pystr) (r : result (BuiltReport * PublishedArtifact)) (sp : store * list store) : Prop :=
  idle me (fst sp) /\ forall built artifact, r = Ok (built, artifact) -> exists report evidence bundle t,
    t ∈ snd sp /\ in_phase t a (Published report evidence) /\ genuine a report evidence /\
    verify_bundle_bytes (take (Z.to_nat (MAX_BUNDLE_BYTES + 1)) evidence) None = Ok built /\
    subscript (u "report_id") (br_document built) = Ok (JStr a) /\ build_bundle built = Ok bundle /\
    artifact = mkArtifact a (br_report_sha256 built) (digest bundle) (zlength (br_report_bytes built)) (zlength bundle).

(** The evidence that is read is that of a published report, at that moment. *)
Lemma open_evidence_run me a s h :
  valid_id a -> idle me s ->
  safe_run me (do (OpenRead a EVIDENCE)) (s, h) (fun r sp => idle me (fst sp) /\
    forall raw, r = Ok (Some raw) -> exists t report, t ∈ snd sp /\ in_phase t a (Published report raw) /\ genuine a report raw).
Proof.
  intros Ha Hidle. apply safe_Call. intros [s1 h1] ch [Hr1 Hh] [Hi1 Hin] _. cbn [fst snd] in *. apply (idle_rely _ _ s1 Hr1) in Hidle.
  cbn [perform_past perform query fst snd]. split; [apply (guarantee_past _ _ _ me (s1, h1)); by apply guarantee_same|].
  apply safe_Done. intros [s2 h2] [Hr2 Hh2] _. cbn [fst snd] in *. split; [by apply (idle_rely me s1)|]. intros raw Hraw.
  exists s1. unfold directory_at, os_error, missing, raise in Hraw. destruct (ch_fault ch); [done|].
  destruct (Hi1 a Ha) as (p & Hp & Hok). destruct Hp as [Hn|i d p He Hf].
  { by rewrite Hn in Hraw. }
  rewrite He in Hraw. cbn [mbind result_bind] in Hraw. destruct (form_contents _ _ Hf) as [_ Hz]. unfold content in Hz.
  destruct (d !! EVIDENCE) as [[j [raw'| | |]]|]; try done. injection Hraw as ->. destruct p as [|report z| |]; try done.
  injection Hz as <-. exists report. split; [apply Hh2; by left|]. split; [by eapply phase_present|exact Hok].
Qed.

Lemma read_run me a s h : idle me s -> safe_run me (read_published a) (s, h) (reads_report me a).
Proof.
  intros Hidle. assert (forall e sp, idle me (fst sp) -> reads_report me a (Raise e) sp) as He by done.
  unfold read_published, prog_reject_if. apply past_lift; [done..|]. intros a' Ha'. assert (valid_id a) as Ha by by exists a'.
  apply past_reading; [by split|done..|]. intros b1 s1 h1 _ Hi1 _. apply past_lift; [done..|]. intros _ _.
  apply past_reading; [by split|done..|]. intros b2 s2 h2 _ Hi2 _. apply past_lift; [done..|]. intros _ _.
  apply past_reading; [by split|done..|]. intros names s3 h3 _ Hi3 _. apply past_lift; [done..|]. intros _ _.
  eapply (safe_bind _ _ _ _ _ since_rely_refl _ _ _ _ (fun r sp => idle me (fst sp) /\ forall built, r = Ok built ->
    exists t report evidence, t ∈ snd sp /\ in_phase t a (Published report evidence) /\ genuine a report evidence /\
      verify_bundle_bytes (take (Z.to_nat (MAX_BUNDLE_BYTES + 1)) evidence) None = Ok built)).
  - unfold Store.verify_bundle, prog_except. eapply (safe_bind _ _ _ _ _ since_rely_refl _ _ _ _ (fun r sp => idle me (fst sp) /\
      forall taken, r = Ok taken -> exists t report evidence, t ∈ snd sp /\ in_phase t a (Published report evidence) /\ genuine a report evidence /\
        taken = take (Z.to_nat (MAX_BUNDLE_BYTES + 1)) evidence)).
    + eapply (safe_then _ _ _ _ _ since_rely_refl _ _ _ _ (fun r sp => idle me (fst sp) /\
        forall taken, r = Ok taken -> exists t report evidence, t ∈ snd sp /\ in_phase t a (Published report evidence) /\ genuine a report evidence /\
          taken = take (Z.to_nat (MAX_BUNDLE_BYTES + 1)) evidence)).
      * eapply (safe_bind _ _ _ _ _ since_rely_refl); [by apply open_evidence_run| |].
        -- intros stream [s4 h4] _ [Hi4 Hraw]. cbn [fst snd] in *. destruct stream as [raw|]; apply safe_Done; intros [s5 h5] [Hr5 Hh5] _; cbn [fst snd] in *.
           ++ split; [by apply (idle_rely me s4)|]. intros taken [= <-]. destruct (Hraw raw eq_refl) as (t & report & Ht & Hp & Hg).
              exists t, report, raw. split; [by apply Hh5|done].
           ++ split; [by apply (idle_rely me s4)|done].
        -- intros e sp sp' _ [Hi4 _] [Hr _] _. split; [by apply (idle_rely me (fst sp))|done].
      * intros [taken|e] [s4 h4] _ [Hi4 Ht]; cbn [fst snd] in *; [|destruct (existsb _ _)]; apply safe_Done;
          intros [s5 h5] [Hr5 Hh5] _; cbn [fst snd] in *; (split; [by apply (idle_rely me s4)|]); try done.
        intros taken' [= <-]. destruct (Ht taken eq_refl) as (t & report & evidence & Hin & Hp & Hg & Hev).
        exists t, report, evidence. split; [by apply Hh5|done].
    + intros taken [s4 h4] _ [Hi4 Ht]. cbn [fst snd] in *. apply safe_Done. intros [s5 h5] [Hr5 Hh5] _. cbn [fst snd] in *.
      split; [by apply (idle_rely me s4)|]. intros built Hb. destruct (Ht taken eq_refl) as (t & report & evidence & Hin & Hp & Hg & ->).
      exists t, report, evidence. split; [by apply Hh5|done].
    + intros e sp sp' _ [Hi4 _] [Hr _] _. split; [by apply (idle_rely me (fst sp))|done].
  - intros built [s4 h4] _ [Hi4 Hb]. cbn [fst snd] in *. destruct (Hb built eq_refl) as (t & report & evidence & Hin & Hp & Hg & Hv). clear Hb.
    apply past_reading; [by split|done..|]. intros stream s5 h5 _ Hi5 Hh5.
    apply past_reading; [by destruct stream|done..|]. intros report_bytes s6 h6 _ Hi6 Hh6.
    apply past_lift; [done..|]. intros named Hnamed. apply past_lift; [done..|].
    intros [] [Hn%negb_false_iff Hbytes%negb_false_iff%str_eqb_spec]%raise_if_Ok%orb_false_iff. subst report_bytes.
    apply past_lift; [done..|]. intros bundle Hbundle. apply safe_Done. intros [s7 h7] [Hr7 Hh7] _. cbn [fst snd] in *.
    split; [by apply (idle_rely me s6)|]. intros b' artifact [= <- <-]. exists report, evidence, bundle, t.
    split_and!; try done; [by apply Hh7, Hh6, Hh5|]. rewrite Hnamed. by apply json_is_Ok in Hn as ->.
  - intros e sp sp' _ [Hi4 _] [Hr _] _. apply He. by apply (idle_rely me (fst sp)).
Qed.

(** ** Deletion *)

(** The report was absent at a moment of the past, when the deletion answers. *)
Definition was_absent (a : pystr) (r : result bool) (h : list store) : Prop :=
  forall b, r = Ok b -> exists t, t ∈ h /\ in_phase t a Absent.

Lemma was_absent_later a r h h' : h ⊆ h' -> was_absent a r h -> was_absent a r h'.
Proof. intros Hh Hw b Hb. destruct (Hw b Hb) as (t & Ht & Hp). exists t. split; [by apply Hh|done]. Qed.

(** What a deletion ends with. *)
Definition deletes_report (me : op) (a : pystr) (r : result bool) (sp : store * list store) : Prop :=
  idle me (fst sp) /\ was_absent a r (snd sp).

(** A [finally] whose clause leaves the result alone. *)
Lemma past_finally {A} me (p : program A) (q : program unit) s h (P : result A -> list store -> Prop) (Q R : store -> Prop) :
  (forall r h h', h ⊆ h' -> P r h -> P r h') -> (forall e h, P (Raise e) h) ->
  safe_run me p (s, h) (fun r sp => Q (fst sp) /\ P r (snd sp)) ->
  (forall s', Inv s' -> Q s' -> safe me q s' (fun _ s'' => R s'')) -> (forall s1 s2, rely me s1 s2 -> R s1 -> R s2) ->
  safe_run me (prog_finally p q) (s, h) (fun r sp => R (fst sp) /\ P r (snd sp)).
Proof.
  intros Hmono Hraise Hp Hq HR. unfold prog_finally. eapply (safe_then _ _ _ _ _ since_rely_refl); [exact Hp|].
  intros r [s1 h1] [Hi1 _] [Hq1 HP]. cbn [fst snd] in *. eapply past_then; [by apply Hq|].
  intros [[]|e] s2 h2 _ Hr2 Hh2 _; apply safe_Done; intros [s3 h3] [Hr3 Hh3] _; cbn [fst snd] in *; (split; [by apply (HR s2)|]); [|apply Hraise].
  apply (Hmono r h2); [done|]. by apply (Hmono r h1).
Qed.

Lemma close_lock me f s : at_most me f s -> safe me (do (Close f)) s (fun _ s' => idle me s').
Proof.
  intros Hm s1 Hr Hi ch Hch.
  assert (safe me (do (Close f) ≫= fun x => Done (Ok x)) s (fun (_ : result unit) s' => idle me s')) as Hs.
  { apply safe_close; [exact Hm|]. intros s3 s4 _ _ Hid _. apply safe_Done. intros s5 Hr5 _. by apply (idle_rely me s4). }
  exact (Hs s1 Hr Hi ch Hch).
Qed.

(** The status of the report, unless it is absent. *)
Lemma safe_stat me a f s :
  valid_id a -> locked me a f s ->
  safe me (prog_except (found ← do (Stat a); Done (Ok (Some found))) [FileNotFoundError] (fun _ => Done (Ok None))) s
    (fun r s' => locked me a f s' /\ (r = Ok None -> in_phase s' a Absent)).
Proof.
  intros Ha Hl. unfold prog_except. apply safe_Call. intros s1 ch Hr Hi _. apply (locked_rely _ _ _ _ s1 Ha Hr) in Hl.
  cbn [perform query fst snd]. split; [by apply guarantee_same|].
  assert (forall r : result (option status), (r = Ok None -> st_entries s1 !! a = None) ->
    safe me (Done r : program _) s1 (fun r s' => locked me a f s' /\ (r = Ok None -> in_phase s' a Absent))) as Hd.
  { intros r Hr'. apply safe_Done. intros s2 Hr2 _. split; [by apply (locked_rely me a f s1)|]. intros Hn.
    apply (phase_rely me a f _ s1 s2 Ha Hr2 Hl), phase_absent, Hr', Hn. }
  unfold os_error, missing, raise. destruct (ch_fault ch); [by apply Hd|].
  destruct (st_entries s1 !! a) as [x|] eqn:E; by apply Hd.
Qed.

(** The directory that is opened is that of the report. *)
Lemma safe_open_directory me a f s :
  valid_id a -> locked me a f s ->
  safe me (do (OpenDirectory a)) s (fun r s' => locked me a f s' /\
    forall directory, r = Ok directory -> exists i d p, directory = (a, i) /\ under me a f i d s' /\ form d p).
Proof.
  intros Ha Hl. apply safe_Call. intros s1 ch Hr Hi _. apply (locked_rely _ _ _ _ s1 Ha Hr) in Hl.
  cbn [perform query fst snd]. split; [by apply guarantee_same|]. apply safe_Done. intros s2 Hr2 _.
  split; [by apply (locked_rely me a f s1)|]. intros directory Hd. unfold os_error, missing, raise in Hd.
  destruct (ch_fault ch); [done|]. destruct (Hi a Ha) as (p & Hp & _). destruct Hp as [Hn|i d p He Hf]; [by rewrite Hn in Hd|].
  rewrite He in Hd. injection Hd as <-. exists i, d, p. split; [done|]. split; [|done]. apply (under_rely me a f i d s1 s2 Ha Hr2). by split.
Qed.

Lemma delete_run me absolute a s h : idle me s -> safe_run me (delete_published absolute a) (s, h) (deletes_report me a).
Proof.
  intros Hidle. assert (forall e sp, idle me (fst sp) -> deletes_report me a (Raise e) sp) as He by done.
  unfold delete_published, prog_reject_if. apply past_lift; [done..|]. intros a' Ha'. assert (valid_id a) as Ha by by exists a'.
  apply past_lift; [done..|]. intros _ _. apply past_reading; [by split|done..|]. intros _ s1 h1 _ Hi1 _.
  apply (past_finally me _ _ s1 h1 (was_absent a) (idle me) (idle me)); [apply was_absent_later|done| |
    intros s' _ Hi'; eapply safe_mono; [by apply safe_reading|intros r s'' Hr; by apply (idle_rely me s')]|apply idle_rely].
  eapply past_then; [by apply safe_open_lock|]. intros [f|e] s2 h2 Hi2 Hl _ _; cbn beta iota in Hl.
  2: { apply safe_Done. intros [s3 h3] [Hr _] _. split; [by apply (idle_rely me s2)|done]. }
  apply (past_finally me _ _ s2 h2 (was_absent a) (at_most me f) (idle me)); [apply was_absent_later|done| |by intros s' _; apply close_lock|apply idle_rely].
  assert (forall s, locked me a f s -> at_most me f s) as Hmost by (intros s' (_ & _ & Hm) i; apply Hm).
  assert (forall s3 h3 e, locked me a f s3 -> safe_run me (Done (Raise e)) (s3, h3) (fun r sp => at_most me f (fst sp) /\ was_absent a r (snd sp))) as Hraise.
  { intros s3 h3 e Hl3. apply safe_Done. intros [s4 h4] [Hr4 _] _. split; [|done]. by apply Hmost, (locked_rely me a f s3). }
  eapply past_then; [by apply safe_stat|]. intros [[before|]|e] s3 h3 Hi3 [Hl3 Habs] _ Hin3; [| |by apply Hraise].
  2: { apply safe_Done. intros [s4 h4] [Hr4 Hh4] _. split; [by apply Hmost, (locked_rely me a f s3)|]. intros b _.
       exists s3. split; [by apply Hh4|by apply Habs]. }
  unfold reject_if, raise_if. destruct (negb _); [by apply Hraise|]. cbn [lift mbind prog_bind prog_then].
  eapply past_then; [by apply safe_open_directory|]. intros [directory|e] s4 h4 Hi4 [Hl4 Hd] _ _; [|by apply Hraise].
  destruct (Hd directory eq_refl) as (i & d & p & -> & Hu & Hf).
  apply (past_finally me _ _ s4 h4 (was_absent a) (at_most me f) (at_most me f)); [apply was_absent_later|done| | |by apply at_most_rely].
  - eapply safe_mono; [by apply safe_past, (safe_clear_directory me a f i d p)|]. intros r [s5 h5] ([Hl5 Hgone] & _ & Hin5).
    split; [by apply Hmost|]. intros b Hb. exists s5. split; [done|]. by apply (Hgone b).
  - intros s' _ Hm. intros s5 Hr5 Hi5 ch Hch.
    exact (safe_close_directory me f (a, i) (Ok tt) s' Hm s5 Hr5 Hi5 ch Hch).
Qed.
End history.
