(* ===== verification/StoreRuns.v ===== *)
(** * The report store in use: every reachable state, and complete runs

    The operations of the store together, with the theorems about all their
    interleavings; then what an operation does when it runs to its end: what is
    published is read back, nothing is published twice, a deletion can be resumed, and
    the one way in which a lock is left behind. *)

From S2P Require Import Prelude PyStr Num PyObj Json JsonRoundtrip Bytes ByteLaws FrozenPackage EvidenceIo Documents MezoDex MezoTroves TroveReport SealedInput Archive Report Bundle Programs Store StoreSafety StoreOperations StoreHistory.
Open Scope Z_scope.

(** ** The operations together *)

Inductive outcome :=
  | OPublished (artifact : PublishedArtifact)
  | ORead (built : BuiltReport) (artifact : PublishedArtifact)
  | ODeleted (deleted : bool).

Inductive operation :=
  | PublishReport (root_is_absolute : bool) (built : BuiltReport)
  | ReadReport (report_id : pystr)
  | DeleteReport (root_is_absolute : bool) (report_id : pystr).

Section system.
Context `{UnicodeTables} `{UnicodeLower} `{UnicodeNormal} `{ReportResources}.

Definition operate (o : operation) : program outcome :=
  match o with
  | PublishReport absolute built => artifact ← publish_artifact absolute built; Done (Ok (OPublished artifact))
  | ReadReport report_id => r ← read_published report_id; Done (Ok (ORead (fst r) (snd r)))
  | DeleteReport absolute report_id => deleted ← delete_published absolute report_id; Done (Ok (ODeleted deleted))
  end.

Definition started (_ : op) (p : program outcome) : Prop := exists o, p = operate o.

(** A step of the system, from a store and the operations under way to the next. *)
Definition system_step : store * gmap op (program outcome) -> store * gmap op (program outcome) -> Prop :=
  step perform admissible stop idle started.

Definition system_reachable (s0 : store) (c : store * gmap op (program outcome)) : Prop :=
  reachable perform admissible stop idle started s0 c.

(** What the end of an operation says. *)
Definition Post (o : op) (r : result outcome) (s : store) : Prop :=
  match r with
  | Ok (OPublished artifact) => idle o s /\ exists report_id built, published_result report_id built artifact
  | Ok (ORead built artifact) => idle o s /\ exists report_id, genuine_result report_id built artifact
  | Ok _ => idle o s
  | Raise e => idle o s \/ cleanup_failed e
  end.

Lemma operate_safe o p s : started o p -> Inv s -> idle o s -> safe perform admissible Inv rely act o p s (Post o).
Proof.
  intros [[absolute built|a|absolute a] ->] Hi Hidle; cbn [operate].
  - eapply (safe_bind _ _ _ _ _ rely_refl); [by apply publish_artifact_safe| |].
    + intros artifact s1 _ [[Hs|(e & [=] & _)] Hp]. apply safe_Done. intros s2 Hr _. split; [by apply (idle_rely o s1)|].
      destruct (Hp artifact eq_refl) as [a Ha]. by exists a, built.
    + intros e s1 s2 _ [[Hs|(e' & [= <-] & He)] _] Hr _; [left; by apply (idle_rely o s1)|by right].
  - eapply (safe_bind _ _ _ _ _ rely_refl); [by apply read_published_genuine| |].
    + intros [built artifact] s1 _ [Hs Hg]. apply safe_Done. intros s2 Hr _. split; [by apply (idle_rely o s1)|].
      exists a. by apply Hg.
    + intros e s1 s2 _ [Hs _] Hr _. left. by apply (idle_rely o s1).
  - eapply (safe_bind _ _ _ _ _ rely_refl); [by apply delete_published_safe| |].
    + intros deleted s1 _ Hs. apply safe_Done. intros s2 Hr _. by apply (idle_rely o s1).
    + intros e s1 s2 _ Hs Hr _. left. by apply (idle_rely o s1).
Qed.

Lemma reachable_safe s0 c : Inv s0 -> system_reachable s0 c ->
  config_ok perform admissible Inv rely act Post c.
Proof.
  intros Hi Hr. eapply (reachable_ok _ _ _ _ _ rely_refl rely_trans); [apply act_refl|exact guarantee_stop|exact operate_safe|exact Hi|exact Hr].
Qed.

(** C7: in every reachable state, with any operations under way, failing calls and
    stopped processes, a report is absent, or one verified pair of files that a
    publication wrote, or what a deletion has left of one. *)
Theorem store_invariant s0 s pool report_id :
  Inv s0 -> system_reachable s0 (s, pool) -> valid_id report_id ->
  exists p, in_phase s report_id p /\ phase_ok report_id p.
Proof. intros Hi Hr Ha. by apply (reachable_safe s0 (s, pool) Hi Hr). Qed.

(** C8: every step leaves a report as it is or moves it along its phases (published,
    then without evidence, then empty, then absent), and only the holder of its lock
    does: a published report is never overwritten. *)
Theorem store_transitions s0 c c' report_id p p' :
  Inv s0 -> system_reachable s0 c -> system_step c c' -> valid_id report_id ->
  in_phase (fst c) report_id p -> in_phase (fst c') report_id p' ->
  p = p' \/ exists o, holds o (fst c) report_id /\ transition p p'.
Proof.
  intros Hi Hr Hs Ha Hp Hp'.
  destruct (step_act perform admissible Inv rely act rely_refl stop idle started Post act_refl guarantee_stop c c'
              (reachable_safe s0 c Hi Hr) Hs) as [o Hact].
  destruct (Hact report_id p p' Ha Hp Hp') as [->|[Hh Ht]]; [by left|right; by exists o].
Qed.

(** What the answer to an operation says, where [moment P] is that [P] held at a moment
    while the operation was under way. *)
Definition answered (x : operation) (out : outcome) (moment : (store -> Prop) -> Prop) : Prop :=
  match x, out with
  | PublishReport _ built, OPublished artifact =>
      exists a bundle, valid_id a /\ published_result a built artifact /\ build_bundle built = Ok bundle /\ moment (published_now a built bundle)
  | ReadReport a, ORead built artifact =>
      exists report evidence bundle, moment (fun t => in_phase t a (Published report evidence)) /\ genuine a report evidence /\
        verify_bundle_bytes (take (Z.to_nat (MAX_BUNDLE_BYTES + 1)) evidence) None = Ok built /\
        subscript (u "report_id") (br_document built) = Ok (JStr a) /\ build_bundle built = Ok bundle /\
        artifact = mkArtifact a (br_report_sha256 built) (digest bundle) (zlength (br_report_bytes built)) (zlength bundle)
  | DeleteReport _ a, ODeleted _ => moment (fun t => in_phase t a Absent)
  | _, _ => False
  end.

(** What an operation ends with, over the states since its start. *)
Definition ends_with (x : operation) (o : op) (r : result outcome) (sp : store * list store) : Prop :=
  match r with
  | Ok out => idle o (fst sp) /\ answered x out (fun P => exists t, t ∈ snd sp /\ P t)
  | Raise e => idle o (fst sp) \/ cleanup_failed e
  end.

Lemma operate_run o x s h :
  idle o s ->
  Programs.safe (perform_past perform) (admissible_past admissible) (Inv_past Inv) (rely_past rely) (act_past act) o (operate x) (s, h)
    (ends_with x o).
Proof.
  intros Hidle. destruct x as [absolute built|a|absolute a]; cbn [operate].
  - eapply (safe_bind _ _ _ _ _ since_rely_refl); [by apply publish_run| |].
    + intros artifact sp _ [[Hs|(e & [=] & _)] Hp]. apply safe_Done. intros sp' [Hr Hh] _. split; [by apply (idle_rely o (fst sp))|].
      destruct (Hp artifact eq_refl) as (a & bundle & t & Ha & Hres & Hb & Ht & Hn). exists a, bundle. split_and!; try done.
      exists t. split; [by apply Hh|done].
    + intros e sp sp' _ [[Hs|(e' & [= <-] & He)] _] [Hr _] _; [left; by apply (idle_rely o (fst sp))|by right].
  - eapply (safe_bind _ _ _ _ _ since_rely_refl); [by apply read_run| |].
    + intros [built artifact] sp _ [Hs Hg]. apply safe_Done. intros sp' [Hr Hh] _. split; [by apply (idle_rely o (fst sp))|].
      destruct (Hg built artifact eq_refl) as (report & evidence & bundle & t & Ht & Hp & Hgen & Hv & Hid & Hb & ->).
      exists report, evidence, bundle. split_and!; try done. exists t. split; [by apply Hh|done].
    + intros e sp sp' _ [Hs _] [Hr _] _. left. by apply (idle_rely o (fst sp)).
  - eapply (safe_bind _ _ _ _ _ since_rely_refl); [by apply delete_run| |].
    + intros deleted sp _ [Hs Hw]. apply safe_Done. intros sp' [Hr Hh] _. split; [by apply (idle_rely o (fst sp))|].
      destruct (Hw deleted eq_refl) as (t & Ht & Hp). exists t. split; [by apply Hh|done].
    + intros e sp sp' _ [Hs _] [Hr _] _. left. by apply (idle_rely o (fst sp)).
Qed.

(** C12: when an operation ends, whatever ran meanwhile, its lock is released, unless a
    call that its cleanup makes failed; and its answer is true of the run: between its
    start and its end there is a moment at which the store had, whole and under its
    identifier, the report that a publication answers for, with the digests that it
    answers; one at which the report that a reader returns was published under the
    identifier that was asked for, with the evidence that verifies to what is returned;
    and one at which a report whose deletion answers was absent. *)
Theorem store_outcomes s0 s pool o r :
  Inv s0 -> system_reachable s0 (s, pool) -> pool !! o = Some (Done r) ->
  exists x s1 pool1, system_reachable s0 (s1, pool1) /\ pool1 !! o = Some (operate x) /\
    meanwhile perform admissible stop idle started o (s1, pool1) (s, pool) /\
    match r with
    | Ok out => idle o s /\ answered x out (at_a_moment perform admissible stop idle started o (s1, pool1) (s, pool))
    | Raise e => idle o s \/ cleanup_failed e
    end.
Proof.
  intros Hi Hr Ho.
  destruct (end_past perform admissible Inv rely act stop idle started Post s0 (s, pool) o r rely_refl rely_trans act_refl
    guarantee_stop operate_safe Hi Hr Ho) as (s1 & pool1 & p & Hr1 & Hidle & [x ->] & Hx1 & Hmean & Hend).
  destruct (Hend _ (operate_run o x s1 [s1] Hidle)) as (h & Hx & Hm). exists x, s1, pool1. split_and!; try done.
  destruct r as [out|e]; [|done]. destruct Hx as [Hx Hans]. split; [done|].
  destruct x as [absolute built|a|absolute a]; destruct out; try done.
  - destruct Hans as (a & bundle & ? & ? & ? & Hn). exists a, bundle. split_and!; try done. by apply Hm.
  - destruct Hans as (report & evidence & bundle & Hn & Hrest). exists report, evidence, bundle. split; [by apply Hm|done].
  - by apply Hm.
Qed.

(** An operation that starts and runs to its end alone. *)
Lemma operate_reachable oracle s0 s pool o operation :
  (forall s, admissible (oracle s) s) -> system_reachable s0 (s, pool) -> pool !! o = None -> idle o s ->
  system_reachable s0 (snd (run perform o oracle (operate operation) s),
    <[o := Done (fst (run perform o oracle (operate operation) s))]> pool).
Proof.
  intros Ho Hr Hn Hidle. unfold system_reachable, reachable in *. etransitivity; [exact Hr|]. eapply rtc_l.
  - apply (step_start _ _ _ _ _ o (operate operation)); [done..|]. by exists operation.
  - rewrite <- (insert_insert_eq pool o (Done (fst (run perform o oracle (operate operation) s))) (operate operation)). apply run_steps; [done|]. by rewrite lookup_insert_eq.
Qed.
End system.

(** ** Every operation ends *)

Section ends.
Context `{UnicodeTables} `{UnicodeLower} `{UnicodeNormal} `{ReportResources}.

Lemma within_do {A B} (c : call B) (f : B -> program A) n : (forall b, calls_within n (f b)) -> calls_within (S n) (do c ≫= f).
Proof. intros Hf [b|e]; [apply Hf|exact I]. Qed.

Lemma within_lift {A B} (m : result A) (f : A -> program B) n : (forall a, m = Ok a -> calls_within n (f a)) -> calls_within n (lift m ≫= f).
Proof. intros Hf. destruct m as [a|e]; [by apply Hf|exact I]. Qed.

Lemma within_reject {A} b code (f : unit -> program A) n : (b = false -> calls_within n (f tt)) -> calls_within n (prog_reject_if b code ≫= f).
Proof. intros Hf. apply within_lift. by intros [] ?%raise_if_Ok%Hf. Qed.

Lemma within_each {A} (g : A -> program unit) l n : (forall x, calls_within n (g x)) -> calls_within (length l * n) (prog_each g l).
Proof.
  intros Hg. induction l as [|x l IH]; [exact I|]. cbn [prog_each length Nat.mul]. apply calls_within_bind; [apply Hg|]. by intros [].
Qed.

Lemma within_map {A B} (g : A -> program B) l n : (forall x, calls_within n (g x)) -> calls_within (length l * n) (prog_map g l).
Proof.
  intros Hg. induction l as [|x l IH]; [exact I|]. cbn [prog_map length Nat.mul]. apply calls_within_bind; [apply Hg|]. intros y.
  replace (length l * n)%nat with (length l * n + 0)%nat by lia. apply calls_within_bind; [done|]. intros ys. exact I.
Qed.

Lemma within_finally {A} (p : program A) q n m : calls_within n p -> calls_within m q -> calls_within (n + m) (prog_finally p q).
Proof.
  intros Hp Hq. apply calls_within_then; [done|]. intros r. replace m with (m + 0)%nat by lia.
  apply calls_within_bind; [done|]. intros []. exact I.
Qed.

Lemma within_lock path : calls_within 4 (open_report_lock path).
Proof.
  apply within_do. intros f. apply (calls_within_then _ _ 2 1).
  - apply within_do. intros metadata. apply within_reject. intros _. intros [[]|e]; [exact I|]. cbn [prog_then]. case_match; exact I.
  - intros [[]|e]; [exact I|]. intros r. by destruct r.
Qed.

Lemma within_verify directory name expected : calls_within 1 (verify_bundle directory name expected).
Proof.
  apply (calls_within_bind _ _ 1 0); [|intros raw; exact I].
  intros r. destruct r as [[raw|]|e]; cbn [prog_then]; [exact I|cbn; exact I|]. cbn [prog_then]. case_match; exact I.
Qed.

Lemma within_leave {A} lock staging (r : result A) : calls_within 3 (leave lock staging r).
Proof.
  unfold leave. apply (calls_within_bind _ _ 2 1).
  - destruct staging as [staging|]; [|exact I]. apply within_do. intros []; [|exact I]. intros a. exact I.
  - intros []. apply within_do. intros []. exact I.
Qed.

Lemma within_stage staging file : calls_within 5 (stage_file staging file).
Proof. destruct file as [name payload]. repeat (apply within_do; intros ?). unfold prog_reject_if, lift. exact I. Qed.

Lemma publish_within absolute built : calls_within 27 (publish_artifact absolute built).
Proof.
  unfold publish_artifact. apply within_lift. intros a _. apply within_reject. intros _. apply within_do. intros ?.
  apply within_reject. intros _. apply within_do. intros ?. apply within_reject. intros _.
  apply (calls_within_bind _ _ 4 21); [apply within_lock|]. intros lock. apply (calls_within_then _ _ 2 19).
  - unfold prepare. apply within_do. intros ?. apply within_lift. intros _ _. apply within_lift. intros ? _. apply within_do. intros ?. exact I.
  - intros [[bundle staging]|e]; [|eapply calls_within_le; [apply within_leave|lia]].
    apply (calls_within_then _ _ 16 3); [|intros r; apply within_leave].
    unfold fill. apply within_do. intros _. apply (calls_within_bind _ _ 10 5); [exact (within_each _ [(REPORT, br_report_bytes built); (EVIDENCE, bundle)] 5 (within_stage staging))|]. intros [].
    apply (calls_within_bind _ _ 1 4); [apply within_verify|]. intros ?. apply within_do. intros ?. apply within_do. intros ?.
    apply within_lift. intros _ _. apply within_do. intros ?. intros r. by destruct r.
Qed.

(** At most the two names that a published report has. *)
Lemma at_most_two names :
  forallb (fun n => bool_decide (n ∈ [REPORT; EVIDENCE])) (remove_dups names) = true -> (length (remove_dups names) <= 2)%nat.
Proof.
  intros Hall. change 2%nat with (length [REPORT; EVIDENCE]). apply submseteq_length, NoDup_submseteq; [apply NoDup_remove_dups|].
  intros n Hn%list_elem_of_In. by apply (proj1 (forallb_forall _ _) Hall), bool_decide_eq_true in Hn.
Qed.

Lemma within_remove directory entries name : calls_within 2 (remove_member directory entries name).
Proof. apply within_do. intros ?. apply within_reject. intros _ r. exact I. Qed.

Lemma within_preflight directory name : calls_within 1 (preflight directory name).
Proof. apply within_do. intros ?. apply within_reject. intros _. exact I. Qed.

Lemma within_clear a directory before : calls_within 12 (clear_directory a directory before).
Proof.
  apply within_do. intros ?. apply within_reject. intros _. apply within_do. intros names. apply within_reject.
  intros Hn%negb_false_iff%at_most_two. set (n := length (remove_dups names)) in *.
  eapply (calls_within_le _ (n * 1 + (n * 2 + 4))); [|lia].
  apply calls_within_bind; [apply within_map, within_preflight|]. intros entries.
  apply calls_within_bind; [|intros []; apply within_do; intros ?; apply within_do; intros ?; apply within_reject; intros _;
    apply within_do; intros ?; intros r; by destruct r].
  assert (n = length (py_sorted str_leb (remove_dups names))) as -> by (unfold n; by rewrite py_sorted_perm).
  apply within_each, within_remove.
Qed.

Lemma delete_within absolute a : calls_within 22 (delete_published absolute a).
Proof.
  unfold delete_published. apply within_lift. intros _ _. apply within_reject. intros _. apply within_do. intros _.
  apply (within_finally _ _ 20 1); [|intros r; exact I]. apply (calls_within_bind _ _ 4 16); [apply within_lock|]. intros lock.
  apply (within_finally _ _ 15 1); [|intros r; exact I]. apply (calls_within_bind _ _ 1 14).
  - intros [st|e]; [exact I|]. cbn [prog_then]. case_match; exact I.
  - intros [before|]; [|exact I]. apply within_reject. intros _. apply within_do. intros directory.
    apply (within_finally _ _ 12 1); [apply within_clear|intros r; exact I].
Qed.

Lemma read_within a : calls_within 5 (read_published a).
Proof.
  unfold read_published. apply within_lift. intros _ _. apply within_do. intros ?. apply within_reject. intros _.
  apply within_do. intros ?. apply within_reject. intros _. apply within_do. intros ?. apply within_reject. intros _.
  apply (calls_within_bind _ _ 1 1); [apply within_verify|]. intros built. apply within_do. intros stream.
  apply (calls_within_bind _ _ 0 0); [by destruct stream|]. intros raw. apply within_lift. intros named _. apply within_reject. intros _.
  apply within_lift. intros ? _. exact I.
Qed.

(** Every operation ends: whatever its calls answer, it makes at most 27 of them. *)
Theorem operations_end o : calls_within 27 (operate o).
Proof.
  destruct o as [absolute built|a|absolute a]; cbn [operate].
  - apply (calls_within_bind _ _ 27 0); [apply publish_within|]. intros ?. exact I.
  - eapply (calls_within_le _ (5 + 0)); [|lia]. apply calls_within_bind; [apply read_within|]. intros ?. exact I.
  - eapply (calls_within_le _ (22 + 0)); [|lia]. apply calls_within_bind; [apply delete_within|]. intros ?. exact I.
Qed.
End ends.

(** ** Complete runs *)

Section runs.
Context `{UnicodeTables} `{UnicodeLower} `{UnicodeNormal} `{ReportResources}.
Context (oracle : store -> choice).

(** No call fails, writes are stored, new names and numbers are not in use. *)
Record calm : Prop := {
  calm_fault : forall s, ch_fault (oracle s) = false;
  calm_stored : forall s, ch_stored (oracle s) = None;
  calm_fresh : forall s, admissible (oracle s) s }.

(** The lock of the report can be taken. *)
Definition lock_free (s : store) (a : pystr) : Prop :=
  match st_entries s !! lock_name a with
  | None => True
  | Some (i, EFile _ links) => links = 1 /\ st_locks s !! i = None
  | Some _ => False
  end.

(** No temporary directory was left. *)
Definition no_staging (s : store) (a : pystr) : Prop := forall x, length x = 8%nat -> st_entries s !! (staging_prefix a ++ x) = None.

Context (Hcalm : calm).

Lemma run_ok {A B} me (c : call B) (f : B -> program A) s b s' :
  perform me _ c (oracle s) s = (Ok b, s') -> run perform me oracle (do c ≫= f) s = run perform me oracle (f b) s'.
Proof using. intros Hp. unfold mbind, prog_bind, do. cbn [prog_then run]. by rewrite Hp. Qed.

Lemma query_ok {B} s (m : result B) : query (oracle s) s m = (m, s).
Proof using Hcalm. unfold query. by rewrite (calm_fault Hcalm). Qed.

Lemma update_ok {B} s (b : B) f : update (oracle s) s (Ok (b, f)) = (Ok b, with_entries f s).
Proof using Hcalm. unfold update. by rewrite (calm_fault Hcalm). Qed.

Lemma run_lock me s a :
  lock_free s a -> exists lock s', run perform me oracle (open_report_lock (lock_name a)) s = (Ok lock, s') /\
    fst lock = lock_name a /\ st_root s' = st_root s /\ st_locks s !! snd lock = None /\
    st_locks s' = <[snd lock := me]> (st_locks s) /\
    (forall n, n <> lock_name a -> st_entries s' !! n = st_entries s !! n) /\
    exists raw, st_entries s' !! lock_name a = Some (snd lock, EFile raw 1).
Proof using Hcalm.
  intros Hfree.
  assert (exists i s1 raw, perform me _ (OpenLock (lock_name a)) (oracle s) s = (Ok (lock_name a, i), s1) /\ st_root s1 = st_root s /\
    st_locks s1 = st_locks s /\ st_locks s !! i = None /\ (forall n, n <> lock_name a -> st_entries s1 !! n = st_entries s !! n) /\
    st_entries s1 !! lock_name a = Some (i, EFile raw 1)) as (i & s1 & raw & Hopen & Hroot & Hlocks & Hi & Hn & He).
  { unfold lock_free in Hfree. cbn [perform]. destruct (st_entries s !! lock_name a) as [[i [raw links| | |]]|] eqn:E; try done.
    - destruct Hfree as [-> Hi]. exists i, (with_entries id s), raw. rewrite update_ok. by split_and!.
    - exists (ch_ino (oracle s)), (with_entries <[lock_name a := (ch_ino (oracle s), EFile [] 1)]> s), [].
      rewrite update_ok. split_and!; try done; [apply (calm_fresh Hcalm)| |cbn; by rewrite lookup_insert_eq].
      intros n Hne. cbn. by rewrite lookup_insert_ne. }
  exists (lock_name a, i), (mkStore (st_root s1) (st_entries s1) (<[i := me]> (st_locks s1))).
  split; [|split_and!; try done; [by cbn; rewrite Hlocks|by exists raw]].
  unfold open_report_lock. rewrite (run_ok _ _ _ _ _ _ Hopen), run_then.
  assert (run perform me oracle (metadata ← do (Fstat (lock_name a, i));
     prog_reject_if (negb (is_kind KFile metadata) || negb (sx_links metadata =? 1)) "ARTIFACT_INTEGRITY_FAILED" ;;
     prog_except (do (Flock (lock_name a, i))) [BlockingIOError]
       (fun _ => lift (raise FileExistsError "report operation already in progress"))) s1 =
     (Ok tt, mkStore (st_root s1) (st_entries s1) (<[i := me]> (st_locks s1)))) as ->; [|done].
  rewrite (run_ok _ _ _ _ (mkStatus KFile i 1) s1).
  2: { cbn [perform]. rewrite query_ok. unfold opened. cbn [fst snd]. rewrite He, bool_decide_true by done. done. }
  unfold prog_except. rewrite run_bind. cbn -[perform]. cbn [perform]. rewrite (calm_fault Hcalm), Hlocks.
  cbn [fst snd]. by rewrite Hi.
Qed.

Lemma run_read {A B} me (c : call B) (f : B -> program A) s b :
  perform me _ c (oracle s) s = query (oracle s) s (Ok b) -> run perform me oracle (do c ≫= f) s = run perform me oracle (f b) s.
Proof using Hcalm. intros Hp. apply run_ok. by rewrite Hp, query_ok. Qed.

Lemma run_lift {A B} me (m : result A) x (f : A -> program B) s :
  m = Ok x -> run perform me oracle (lift m ≫= f) s = run perform me oracle (f x) s.
Proof using. by intros ->. Qed.

Lemma run_reject {A} me b code (f : unit -> program A) s :
  b = false -> run perform me oracle (prog_reject_if b code ≫= f) s = run perform me oracle (f tt) s.
Proof using. by intros ->. Qed.

(** A file is written to the temporary directory. *)
Lemma run_stage me staging name payload s i d :
  st_entries s !! staging = Some (i, EDirectory d) -> d !! name = None ->
  exists j, run perform me oracle (stage_file staging (name, payload)) s =
    (Ok tt, with_entries <[staging := (i, EDirectory (<[name := (j, LFile payload)]> d))]> s).
Proof using Hcalm.
  intros He Hd. exists (ch_ino (oracle s)). unfold stage_file.
  set (d1 := <[name := (ch_ino (oracle s), LFile [])]> d). set (s1 := with_entries <[staging := (i, EDirectory d1)]> s).
  set (d2 := <[name := (ch_ino (oracle s), LFile payload)]> d). set (s2 := with_entries <[staging := (i, EDirectory d2)]> s).
  assert (st_entries s1 !! staging = Some (i, EDirectory d1)) as He1 by (cbn; by rewrite lookup_insert_eq).
  assert (st_entries s2 !! staging = Some (i, EDirectory d2)) as He2 by (cbn; by rewrite lookup_insert_eq).
  assert (d1 !! name = Some (ch_ino (oracle s), LFile [])) as Hd1 by apply lookup_insert_eq.
  assert (d2 !! name = Some (ch_ino (oracle s), LFile payload)) as Hd2 by apply lookup_insert_eq.
  rewrite (run_ok _ _ _ _ tt s1) by (cbn [perform]; by rewrite He, Hd, update_ok).
  rewrite (run_read _ _ _ _ tt) by done.
  rewrite (run_ok _ _ _ _ tt s2).
  2: { cbn [perform]. rewrite He1, Hd1, (calm_fault Hcalm), (calm_stored Hcalm). cbn [default]. f_equal. unfold s2, s1, with_entries. cbn.
       f_equal. rewrite insert_insert_eq. unfold d1, d2. by rewrite insert_insert_eq. }
  rewrite (run_read _ _ _ _ tt) by done.
  rewrite (run_read _ _ _ _ payload).
  2: { cbn [perform]. unfold directory_at. rewrite He2. cbn [mbind result_bind]. by rewrite Hd2. }
  unfold prog_reject_if, lift, reject_if. cbn [run]. by rewrite str_eqb_refl.
Qed.

Lemma run_verify me directory name expected s i d j raw built :
  st_entries s !! directory = Some (i, EDirectory d) -> d !! name = Some (j, LFile raw) ->
  verify_bundle_bytes (take (Z.to_nat (MAX_BUNDLE_BYTES + 1)) raw) expected = Ok built ->
  run perform me oracle (verify_bundle directory name expected) s = (Ok built, s).
Proof using Hcalm.
  intros He Hd Hv. unfold verify_bundle. rewrite run_bind.
  assert (run perform me oracle (prog_except (stream ← do (OpenRead directory name);
           match stream with
           | Some raw => Done (Ok (take (Z.to_nat (MAX_BUNDLE_BYTES + 1)) raw))
           | None => lift (rejected "INVALID_DATASET")
           end) [OSError] (fun _ => lift (rejected "INVALID_DATASET"))) s = (Ok (take (Z.to_nat (MAX_BUNDLE_BYTES + 1)) raw), s)) as ->.
  2: { cbn [fst snd run lift]. by rewrite Hv. }
  unfold prog_except. rewrite run_then, (run_read _ _ _ _ (Some raw)); [done|].
  cbn [perform]. unfold directory_at. rewrite He. cbn [mbind result_bind]. by rewrite Hd.
Qed.

(** The two files of a report under its name. *)
Definition published_as (s : store) (a : pystr) (report evidence : bytes) : Prop :=
  exists i j k, st_entries s !! a =
    Some (i, EDirectory (<[REPORT := (j, LFile report)]> {[EVIDENCE := (k, LFile evidence)]})).

Definition artifact_of (a : pystr) (built : BuiltReport) (bundle : bytes) : PublishedArtifact :=
  mkArtifact a (br_report_sha256 built) (digest bundle) (zlength (br_report_bytes built)) (zlength bundle).

Context (a : pystr) (Ha : valid_id a).

Lemma run_fill me built bundle verified staging s i :
  staging_of a staging -> st_entries s !! staging = Some (i, EDirectory ∅) -> st_entries s !! a = None ->
  verify_bundle_bytes (take (Z.to_nat (MAX_BUNDLE_BYTES + 1)) bundle) (Some (br_report_sha256 built)) = Ok verified ->
  exists s', run perform me oracle (fill a built bundle staging) s = (Ok (artifact_of a built bundle), s') /\
    published_as s' a (br_report_bytes built) bundle /\ st_entries s' !! staging = None /\
    (forall n, n <> a -> n <> staging -> st_entries s' !! n = st_entries s !! n) /\
    st_locks s' = st_locks s /\ st_root s' = st_root s.
Proof using Hcalm Ha.
  intros Hst He Hn Hv. assert (staging <> a) as Hne by (destruct Hst as (x & -> & _); by apply staging_not_self).
  destruct (run_stage me staging REPORT (br_report_bytes built) s i ∅) as [j Hj]; [done..|].
  set (d1 := <[REPORT := (j, LFile (br_report_bytes built))]> ∅) in *. set (s1 := with_entries _ s) in *.
  assert (st_entries s1 !! staging = Some (i, EDirectory d1)) as He1 by (cbn; by rewrite lookup_insert_eq).
  destruct (run_stage me staging EVIDENCE bundle s1 i d1) as [k Hk]; [done..|].
  set (d2 := <[EVIDENCE := (k, LFile bundle)]> d1) in *. set (s2 := with_entries _ s1) in *.
  assert (st_entries s2 !! staging = Some (i, EDirectory d2)) as He2 by (cbn; by rewrite lookup_insert_eq).
  assert (st_entries s2 !! a = None) as Hn2 by (cbn; by rewrite !lookup_insert_ne by done).
  exists (with_entries (fun m => <[a := (i, EDirectory d2)]> (delete staging m)) s2). split_and!; try done.
  - unfold fill. rewrite (run_read _ _ _ _ tt) by done.
    assert (run perform me oracle (prog_each (stage_file staging) [(REPORT, br_report_bytes built); (EVIDENCE, bundle)]) s = (Ok tt, s2)) as Hst2.
    { cbn [prog_each]. rewrite run_bind, Hj. cbn [fst snd]. rewrite run_bind, Hk. done. }
    rewrite run_bind, Hst2. cbn [fst snd]. rewrite run_bind.
    rewrite (run_verify me staging EVIDENCE _ s2 i d2 k bundle verified He2) by (done || apply lookup_insert_eq). cbn [fst snd].
    rewrite (run_read _ _ _ _ tt) by done. rewrite (run_ok _ _ _ _ false s2).
    2: { cbn [perform]. rewrite (calm_fault Hcalm), Hn2. done. }
    rewrite (run_lift _ _ tt) by done.
    rewrite (run_ok _ _ _ _ tt (with_entries (fun m => <[a := (i, EDirectory d2)]> (delete staging m)) s2)).
    2: { cbn [perform]. by rewrite He2, Hn2, update_ok. }
    rewrite (run_read _ _ _ _ tt) by done. done.
  - exists i, j, k. cbn. rewrite lookup_insert_eq. unfold d2, d1. by rewrite insert_insert_ne.
  - cbn. rewrite lookup_insert_ne by done. by rewrite lookup_delete_eq.
  - intros n Hna Hns. cbn. rewrite lookup_insert_ne, lookup_delete_ne by done. by rewrite !lookup_insert_ne by done.
Qed.

(** Closing the lock restores the locks. *)
Lemma run_close {A} me lock (r : result A) s locks :
  st_locks s = <[snd lock := me]> locks -> locks !! snd lock = None ->
  run perform me oracle (do (Close lock) ;; Done r) s = (r, mkStore (st_root s) (st_entries s) locks).
Proof using.
  intros Hl Hn. rewrite (run_ok _ _ _ _ tt (mkStore (st_root s) (st_entries s) locks)); [done|].
  cbn [perform]. rewrite Hl, lookup_insert_eq, bool_decide_true by done. f_equal. f_equal. by rewrite delete_insert_id.
Qed.

(** A publication that meets no obstacle publishes the two files and changes no other
    report; the lock is free again. *)
Lemma publish_runs me built bundle verified s :
  subscript (u "report_id") (br_document built) ≫= identifier = Ok a -> build_bundle built = Ok bundle ->
  verify_bundle_bytes (take (Z.to_nat (MAX_BUNDLE_BYTES + 1)) bundle) (Some (br_report_sha256 built)) = Ok verified ->
  st_root s = KDirectory -> st_entries s !! a = None -> no_staging s a -> lock_free s a ->
  exists s', run perform me oracle (publish_artifact true built) s = (Ok (artifact_of a built bundle), s') /\
    published_as s' a (br_report_bytes built) bundle /\ no_staging s' a /\ lock_free s' a /\
    (forall n, n <> a -> n <> lock_name a -> st_entries s' !! n = st_entries s !! n) /\
    st_locks s' = st_locks s /\ st_root s' = KDirectory.
Proof using Hcalm Ha.
  intros Hid Hb Hv Hroot Hn Hst Hfree.
  destruct (run_lock me s a Hfree) as (lock & s1 & Hlock & Hfst & Hroot1 & Hl0 & Hl1 & He1 & raw & Hraw).
  assert (a <> lock_name a) as Hal by (intros E; apply (lock_outside a a Ha Ha); rewrite <- E; apply area_self).
  assert (forall x, length x = 8%nat -> staging_prefix a ++ x <> lock_name a) as Hsl
    by (intros x Hx E; apply (lock_outside a a Ha Ha); rewrite <- E; right; by exists x).
  set (staging := staging_prefix a ++ ch_suffix (oracle s1)).
  assert (length (ch_suffix (oracle s1)) = 8%nat) as Hlen by apply (calm_fresh Hcalm).
  set (i := ch_ino (oracle s1)). set (s2 := with_entries <[staging := (i, EDirectory ∅)]> s1).
  assert (staging <> a) as Hsa by by apply staging_not_self.
  assert (st_entries s !! staging = None) as Hsn by by apply Hst.
  destruct (run_fill me built bundle verified staging s2 i) as (s3 & Hfill & Hpub & Hgone & He3 & Hl3 & Hroot3).
  { by exists (ch_suffix (oracle s1)). }
  { cbn. by rewrite lookup_insert_eq. }
  { cbn. rewrite lookup_insert_ne by done. by rewrite He1. }
  { done. }
  exists (mkStore (st_root s3) (st_entries s3) (st_locks s)). split; [|split_and!].
  - unfold publish_artifact. rewrite (run_lift _ _ a) by done. rewrite run_reject by done.
    rewrite (run_read _ _ _ _ false) by (cbn [perform]; by rewrite Hroot). rewrite run_reject by done.
    rewrite (run_read _ _ _ _ true) by (cbn [perform]; rewrite Hroot; by rewrite bool_decide_true by (by left)).
    rewrite run_reject by done. rewrite run_bind, Hlock. cbn [fst snd]. rewrite run_then.
    assert (run perform me oracle (prepare a built) s1 = (Ok (bundle, staging), s2)) as ->.
    { unfold prepare. rewrite (run_ok _ _ _ _ false s1).
      2: { cbn [perform]. rewrite (calm_fault Hcalm), He1, Hn by done. done. }
      rewrite (run_lift _ _ tt), (run_lift _ _ bundle) by done. rewrite (run_ok _ _ _ _ staging s2); [done|].
      cbn [perform]. fold staging. rewrite He1 by by apply Hsl. by rewrite Hsn, update_ok. }
    cbn [fst snd]. rewrite run_then, Hfill. cbn [fst snd]. unfold leave. rewrite run_bind.
    rewrite (run_ok _ _ _ _ false s3) by (cbn [perform]; by rewrite (calm_fault Hcalm), Hgone). cbn [run fst snd].
    apply run_close; [by rewrite Hl3|done].
  - exact Hpub.
  - intros x Hx. cbn [st_entries]. destruct (decide (staging_prefix a ++ x = staging)) as [->|Hne]; [done|].
    rewrite He3 by (try apply staging_not_self; done). cbn. rewrite lookup_insert_ne by done.
    rewrite He1 by by apply Hsl. by apply Hst.
  - unfold lock_free. cbn [st_entries st_locks]. rewrite He3 by (congruence || (intros E; by apply (Hsl _ Hlen))).
    cbn. rewrite lookup_insert_ne by (by apply Hsl). by rewrite Hraw.
  - intros n Hna Hnl. cbn [st_entries]. destruct (decide (n = staging)) as [->|Hne].
    + rewrite Hgone. symmetry. by apply Hst.
    + rewrite He3 by done. cbn. rewrite lookup_insert_ne by done. by apply He1.
  - done.
  - by rewrite <- Hroot, <- Hroot1.
Qed.

(** Reading a published report. *)
Lemma read_runs me built bundle s :
  published_as s a (br_report_bytes built) bundle ->
  verify_bundle_bytes (take (Z.to_nat (MAX_BUNDLE_BYTES + 1)) bundle) None = Ok built ->
  subscript (u "report_id") (br_document built) = Ok (JStr a) -> build_bundle built = Ok bundle ->
  zlength (br_report_bytes built) <= MAX_MEMBER_BYTES ->
  run perform me oracle (read_published a) s = (Ok (built, artifact_of a built bundle), s).
Proof using Hcalm Ha.
  intros (i & j & k & He) Hv Hid Hb Hlen. set (d := <[REPORT := (j, LFile (br_report_bytes built))]> {[EVIDENCE := (k, LFile bundle)]}) in He.
  assert (d !! REPORT = Some (j, LFile (br_report_bytes built))) as Hr by reflexivity.
  assert (d !! EVIDENCE = Some (k, LFile bundle)) as Hz by reflexivity.
  unfold read_published. rewrite (run_lift _ _ a) by by apply valid_identifier.
  rewrite (run_read _ _ _ _ false) by (cbn [perform]; by rewrite He). rewrite run_reject by done.
  rewrite (run_read _ _ _ _ true) by (cbn [perform]; by rewrite He). rewrite run_reject by done.
  rewrite (run_read _ _ _ _ [EVIDENCE; REPORT]) by (cbn [perform]; unfold directory_at; by rewrite He).
  rewrite run_reject by reflexivity. rewrite run_bind, (run_verify me a EVIDENCE None s i d k bundle built) by done. cbn [fst snd].
  rewrite (run_read _ _ _ _ (Some (br_report_bytes built))).
  2: { cbn [perform]. unfold directory_at. rewrite He. cbn [mbind result_bind]. by rewrite Hr. }
  assert (take (Z.to_nat (MAX_MEMBER_BYTES + 1)) (br_report_bytes built) = br_report_bytes built) as Htake
    by (apply take_ge; unfold zlength in Hlen; lia).
  rewrite run_bind. cbn [run fst snd]. rewrite Htake, (run_lift _ _ (JStr a)) by done.
  rewrite run_reject.
  2: { rewrite (proj2 (json_is_Ok (JStr a) a)) by done. by rewrite str_eqb_refl. }
  rewrite (run_lift _ _ bundle) by done. done.
Qed.

(** A deletion that meets no obstacle, from any phase: the report is gone and the lock
    is free. *)
Definition deletes (s s' : store) : Prop :=
  st_entries s' !! a = None /\ (forall n, n <> a -> n <> lock_name a -> st_entries s' !! n = st_entries s !! n) /\
  st_locks s' = st_locks s /\ st_root s' = st_root s.

Lemma run_preflight me s i d name j raw :
  st_entries s !! a = Some (i, EDirectory d) -> d !! name = Some (j, LFile raw) ->
  run perform me oracle (preflight (a, i) name) s = (Ok (name, j), s).
Proof using Hcalm.
  intros He Hd. unfold preflight. rewrite (run_read _ _ _ _ (mkStatus KFile j 1)).
  2: { cbn [perform]. unfold opened_directory, opened. cbn [fst snd]. rewrite He, bool_decide_true by done.
       cbn [mbind result_bind]. by rewrite Hd. }
  by rewrite run_reject.
Qed.

Lemma run_remove me s i d entries name j raw :
  st_entries s !! a = Some (i, EDirectory d) -> d !! name = Some (j, LFile raw) -> assoc name entries = Some j ->
  run perform me oracle (remove_member (a, i) entries name) s =
    (Ok tt, with_entries <[a := (i, EDirectory (delete name d))]> s).
Proof using Hcalm.
  intros He Hd Hj. unfold remove_member. rewrite (run_read _ _ _ _ (mkStatus KFile j 1)).
  2: { cbn [perform]. unfold opened_directory, opened. cbn [fst snd]. rewrite He, bool_decide_true by done.
       cbn [mbind result_bind]. by rewrite Hd. }
  rewrite run_reject by (unfold is_kind; cbn [sx_ino sx_kind]; rewrite Hj; by rewrite !bool_decide_true by done).
  unfold do. cbn [run perform]. unfold opened_directory, opened. cbn [fst snd]. rewrite He, bool_decide_true by done.
  cbn [mbind result_bind]. by rewrite Hd, update_ok.
Qed.

(** The members of a report, removed in order. *)
Lemma run_remove_all me s i d p :
  st_entries s !! a = Some (i, EDirectory d) -> form d p ->
  exists entries, run perform me oracle (prog_map (preflight (a, i)) (remove_dups (names_of d))) s = (Ok entries, s) /\
    run perform me oracle (prog_each (remove_member (a, i) entries) (py_sorted str_leb (remove_dups (names_of d)))) s =
      (Ok tt, with_entries (fun m => match p with Emptied => m | _ => <[a := (i, EDirectory ∅)]> m end) s).
Proof using Hcalm.
  intros He Hf. rewrite (form_names d p Hf). destruct Hf as [j k r z|j r|].
  - set (d := <[REPORT := (j, LFile r)]> {[EVIDENCE := (k, LFile z)]}) in *. exists [(EVIDENCE, k); (REPORT, j)].
    change (remove_dups (names_of d)) with [EVIDENCE; REPORT]. cbn [prog_map prog_each].
    rewrite !run_bind, (run_preflight me s i d EVIDENCE k z) by done. cbn [fst snd].
    rewrite ?run_bind, (run_preflight me s i d REPORT j r) by done. split; [done|].
    rewrite (run_remove me s i d _ EVIDENCE k z) by done. cbn [fst snd].
    rewrite ?run_bind, (run_remove me _ i (delete EVIDENCE d) _ REPORT j r) by (done || (cbn; by rewrite lookup_insert_eq)).
    cbn [fst snd run]. unfold with_entries. cbn. do 2 f_equal. rewrite insert_insert_eq. do 3 f_equal.
  - set (d := {[REPORT := (j, LFile r)]}) in *. exists [(REPORT, j)].
    change (remove_dups (names_of d)) with [REPORT]. cbn [prog_map prog_each].
    rewrite ?run_bind, (run_preflight me s i d REPORT j r) by done. split; [done|].
    rewrite (run_remove me s i d _ REPORT j r) by done. done.
  - exists []. split; [done|]. cbn. by destruct s.
Qed.

Lemma run_clear me before s i d p :
  st_entries s !! a = Some (i, EDirectory d) -> form d p -> sx_ino before = i ->
  run perform me oracle (clear_directory a (a, i) before) s = (Ok true, with_entries (delete a) s).
Proof using Hcalm.
  intros He Hf Hb. destruct (run_remove_all me s i d p He Hf) as (entries & Hpre & Hrem).
  unfold clear_directory. rewrite (run_read _ _ _ _ (mkStatus KDirectory i 2)).
  2: { cbn [perform]. unfold opened. cbn [fst snd]. by rewrite He, bool_decide_true. }
  rewrite run_reject by (rewrite Hb; by rewrite bool_decide_true).
  rewrite (run_read _ _ _ _ (names_of d)).
  2: { cbn [perform]. unfold opened_directory, opened. cbn [fst snd]. by rewrite He, bool_decide_true. }
  rewrite run_reject by by destruct Hf.
  rewrite run_bind, Hpre. cbn [fst snd]. rewrite run_bind, Hrem. cbn [fst snd].
  set (s1 := with_entries _ s). rewrite (run_read _ _ _ _ tt) by done.
  assert (st_entries s1 !! a = Some (i, EDirectory ∅)) as He1.
  { unfold s1. destruct Hf; cbn; [by rewrite lookup_insert_eq..|exact He]. }
  rewrite (run_read _ _ _ _ (mkStatus KDirectory i 2)) by (cbn [perform]; by rewrite He1).
  rewrite run_reject by (unfold is_kind; by rewrite !bool_decide_true).
  rewrite (run_ok _ _ _ _ tt (with_entries (delete a) s1)) by (cbn [perform]; by rewrite He1, bool_decide_true, update_ok).
  rewrite (run_read _ _ _ _ tt) by done. cbn [run].
  enough (with_entries (delete a) s1 = with_entries (delete a) s) as -> by done.
  unfold s1, with_entries. cbn. f_equal. destruct Hf; [apply delete_insert_eq..|done].
Qed.

Lemma run_close_directory {B} me (g : fd) (r : result B) s (lock : fd) locks :
  st_locks s = <[snd lock := me]> locks -> locks !! snd lock = None -> (forall i, locks !! i <> Some me) ->
  exists s', run perform me oracle (do (Close g) ;; Done r) s = (r, s') /\
    st_entries s' = st_entries s /\ st_root s' = st_root s /\ (st_locks s' = st_locks s \/ st_locks s' = locks).
Proof using.
  intros Hl Hn Hidle. exists (snd (perform me _ (Close g) (oracle s) s)). split; [reflexivity|]. cbn [perform snd]. case_bool_decide as Hd; [|by split_and!; try left].
  cbn. split_and!; [done..|]. right. rewrite Hl in *. apply lookup_insert_Some in Hd as [[<- _]|[_ Hd]].
  - by apply delete_insert_id.
  - by destruct (Hidle (snd g)).
Qed.

Lemma run_finally {A} me (p : program A) q s :
  run perform me oracle (prog_finally p q) s =
  run perform me oracle (q ;; Done (fst (run perform me oracle p s))) (snd (run perform me oracle p s)).
Proof using. unfold prog_finally. by rewrite run_then. Qed.

(** Under the lock: what is deleted, with the locks before or after the lock is closed. *)
Lemma run_delete_locked me s p (lock : fd) locks :
  in_phase s a p -> st_locks s = <[snd lock := me]> locks -> locks !! snd lock = None -> (forall i, locks !! i <> Some me) ->
  exists s', run perform me oracle (before ← prog_except (found ← do (Stat a); Done (Ok (Some found))) [FileNotFoundError] (fun _ => Done (Ok None));
     match before with
     | None => Done (Ok false)
     | Some before =>
       prog_reject_if (negb (is_kind KDirectory before)) "ARTIFACT_INTEGRITY_FAILED" ;;
       directory ← do (OpenDirectory a);
       prog_finally (clear_directory a directory before) (do (Close directory))
     end) s = (Ok match p with Absent => false | _ => true end, s') /\
    st_entries s' = delete a (st_entries s) /\ st_root s' = st_root s /\ (st_locks s' = st_locks s \/ st_locks s' = locks).
Proof using Hcalm.
  intros Hp Hl Hn Hidle. rewrite run_bind. unfold prog_except. rewrite run_then. destruct Hp as [He|i d p He Hf].
  - exists s. unfold do. cbn [mbind prog_bind prog_then run perform]. rewrite He. rewrite query_ok. cbn.
    split_and!; [done| |done|by left]. by rewrite delete_id.
  - destruct (run_close_directory me (a, i) (Ok true) (with_entries (delete a) s) lock locks) as (s' & Hs' & He' & Hroot' & Hl'); [done..|].
    exists s'. rewrite (run_read _ _ _ _ (mkStatus KDirectory i 2)) by (cbn [perform]; by rewrite He). cbn [run fst snd].
    rewrite run_reject by done. rewrite (run_read _ _ _ _ (a, i)) by (cbn [perform]; by rewrite He).
    rewrite run_finally, (run_clear me _ s i d p He Hf) by done. cbn [fst snd]. rewrite Hs'.
    split; [by destruct Hf|]. by rewrite He'.
Qed.

(** C14: from any phase, published, interrupted or absent, a deletion whose calls do not
    fail succeeds: the report is gone, the lock is free and no other report changed. *)
Theorem delete_runs me s p :
  in_phase s a p -> st_root s = KDirectory -> lock_free s a -> idle me s ->
  exists s', run perform me oracle (delete_published true a) s = (Ok match p with Absent => false | _ => true end, s') /\
    deletes s s' /\ lock_free s' a.
Proof using Hcalm Ha.
  intros Hp Hroot Hfree Hidle. destruct (run_lock me s a Hfree) as (lock & s1 & Hlock & Hfst & Hroot1 & Hl0 & Hl1 & He1 & raw & Hraw).
  assert (a <> lock_name a) as Hal by (intros E; apply (lock_outside a a Ha Ha); rewrite <- E; apply area_self).
  assert (in_phase s1 a p) as Hp1 by (eapply in_phase_entries; [|exact Hp]; symmetry; by apply He1).
  destruct (run_delete_locked me s1 p lock (st_locks s) Hp1 Hl1 Hl0 Hidle) as (s2 & Hdel & He2 & Hroot2 & Hl2).
  exists (mkStore (st_root s2) (st_entries s2) (st_locks s)). split; [|split].
  - unfold delete_published. rewrite (run_lift _ _ a) by by apply valid_identifier. rewrite run_reject by done.
    rewrite (run_read _ _ _ _ tt) by (cbn [perform]; by rewrite Hroot). rewrite run_finally.
    set (r := Ok match p with Absent => false | _ => true end) in *. set (s' := mkStore _ _ _).
    assert (run perform me oracle (do (Close lock) ;; Done r) s2 = (r, s')) as Hclose.
    { destruct Hl2 as [Hl2|Hl2]; [apply run_close; [by rewrite Hl2|done]|].
      rewrite (run_ok _ _ _ _ tt s2); [unfold s'; rewrite <- Hl2; by destruct s2|]. cbn [perform].
      rewrite bool_decide_false; [done|]. rewrite Hl2. apply Hidle. }
    match goal with |- context [run perform me oracle ?q s] => assert (run perform me oracle q s = (r, s')) as ->; [|done] end.
    rewrite run_bind, Hlock. cbn [fst snd]. rewrite run_finally, Hdel. cbn [fst snd]. exact Hclose.
  - split_and!; cbn; [by rewrite He2, lookup_delete_eq| |done|by rewrite Hroot2, Hroot1].
    intros n Hna Hnl. rewrite He2, lookup_delete_ne by done. by apply He1.
  - unfold lock_free. cbn. rewrite He2, lookup_delete_ne by done. by rewrite Hraw.
Qed.

(** The sizes that the bundle has checked. *)
Lemma bundle_sizes built bundle :
  well_built built -> build_bundle built = Ok bundle ->
  zlength bundle <= MAX_BUNDLE_BYTES /\ zlength (br_report_bytes built) <= MAX_MEMBER_BYTES.
Proof using.
  intros Hwell Hb. destruct (build_bundle_Ok built bundle Hwell Hb) as (_ & manifest & _ & _ & Hz).
  apply zip_members_Ok in Hz as (_ & _ & Hs & _ & Hlen). split; [done|].
  rewrite Forall_forall in Hs. apply (Hs (u "report.json", br_report_bytes built)).
  unfold archived, sort_items. rewrite !py_sorted_perm. apply elem_of_app. left. apply assoc_elem, (wb_report _ Hwell).
Qed.

(** A report whose identifier is taken is not published again. *)
Lemma publish_refused me other s i e :
  subscript (u "report_id") (br_document other) ≫= identifier = Ok a -> st_root s = KDirectory ->
  st_entries s !! a = Some (i, e) -> lock_free s a ->
  exists s', run perform me oracle (publish_artifact true other) s =
    (Raise (Exc FileExistsError "immutable report already exists"), s') /\
    (forall n, n <> lock_name a -> st_entries s' !! n = st_entries s !! n) /\ st_locks s' = st_locks s.
Proof using Hcalm Ha.
  intros Hid Hroot He Hfree. destruct (run_lock me s a Hfree) as (lock & s1 & Hlock & Hfst & Hroot1 & Hl0 & Hl1 & He1 & raw & Hraw).
  assert (a <> lock_name a) as Hal by (intros E; apply (lock_outside a a Ha Ha); rewrite <- E; apply area_self).
  exists (mkStore (st_root s1) (st_entries s1) (st_locks s)). split; [|done].
  unfold publish_artifact. rewrite (run_lift _ _ a) by done. rewrite run_reject by done.
  rewrite (run_read _ _ _ _ false) by (cbn [perform]; by rewrite Hroot). rewrite run_reject by done.
  rewrite (run_read _ _ _ _ true) by (cbn [perform]; rewrite Hroot; by rewrite bool_decide_true by (by left)).
  rewrite run_reject by done. rewrite run_bind, Hlock. cbn [fst snd]. rewrite run_then.
  assert (run perform me oracle (prepare a other) s1 = (Raise (Exc FileExistsError "immutable report already exists"), s1)) as ->.
  { unfold prepare. rewrite (run_ok _ _ _ _ true s1); [done|]. cbn [perform]. by rewrite (calm_fault Hcalm), He1, He. }
  cbn [fst snd]. unfold leave. rewrite run_bind. cbn [run fst snd]. by apply run_close.
Qed.

(** C13: what is published under an identifier is read back as it was built, byte for byte
    and with the same digests, and the identifier takes no second report. *)
Theorem publish_then_read me you built bundle other s :
  subscript (u "report_id") (br_document built) = Ok (JStr a) -> well_built built -> build_bundle built = Ok bundle ->
  verify_bundle_bytes bundle (Some (br_report_sha256 built)) = Ok built ->
  subscript (u "report_id") (br_document other) = Ok (JStr a) ->
  st_root s = KDirectory -> st_entries s !! a = None -> no_staging s a -> lock_free s a ->
  exists s' s'', run perform me oracle (publish_artifact true built) s = (Ok (artifact_of a built bundle), s') /\
    run perform you oracle (read_published a) s' = (Ok (built, artifact_of a built bundle), s') /\
    run perform you oracle (publish_artifact true other) s' =
      (Raise (Exc FileExistsError "immutable report already exists"), s'') /\
    st_entries s'' !! a = st_entries s' !! a.
Proof using Hcalm Ha.
  intros Hid Hwell Hb Hv Hother Hroot Hn Hst Hfree. destruct (bundle_sizes built bundle Hwell Hb) as [Hz Hr].
  assert (take (Z.to_nat (MAX_BUNDLE_BYTES + 1)) bundle = bundle) as Htake by (apply take_ge; unfold zlength in Hz; lia).
  assert (forall d, d = Ok (JStr a) -> d ≫= identifier = Ok a) as Hident by (intros d ->; by apply valid_identifier).
  destruct (publish_runs me built bundle built s) as (s' & Hpub & Has & Hst' & Hfree' & _ & _ & Hroot'); try done;
    [by apply Hident|by rewrite Htake|].
  destruct Has as (i & j & k & He). destruct (publish_refused you other s' i _ (Hident _ Hother) Hroot' He Hfree') as (s'' & Href & Hsame & _).
  exists s', s''. split; [exact Hpub|]. split; [|split; [exact Href|]].
  - apply read_runs; try done; [by exists i, j, k|]. rewrite Htake. by eapply verify_unexpected.
  - apply Hsame. intros E. apply (lock_outside a a Ha Ha). rewrite <- E. apply area_self.
Qed.
End runs.

(** ** Runs on concrete stores *)

(** The numbers in use. *)
Definition inodes (s : store) : gset ino :=
  list_to_set (map (fun x => fst (snd x)) (map_to_list (st_entries s))) ∪ dom (st_locks s).

Definition next_choice (s : store) : choice := mkChoice (u "a0b1c2d3") (fresh (inodes s)) false None [].

Lemma next_choice_calm : calm next_choice.
Proof.
  split; [done..|]. intros s. split; [done|]. cbn [next_choice ch_ino].
  pose proof (is_fresh (inodes s)) as Hf. unfold inodes in Hf at 2. rewrite not_elem_of_union, elem_of_list_to_set in Hf.
  destruct Hf as [Hf Hl]. split; [|by apply not_elem_of_dom in Hl].
  intros name e He. apply Hf. apply list_elem_of_fmap. exists (name, (fresh (inodes s), e)). split; [done|]. by apply elem_of_map_to_list.
Qed.

Definition empty_store : store := mkStore KDirectory ∅ ∅.

(** The smallest report that a bundle archives, and its identifier. *)
Definition demo_report_id : pystr := u "12345678-1234-5678-1234-567812345678".

Definition demo_report : BuiltReport :=
  mkBuilt (JDict [(u "report_id", JStr demo_report_id)]) (u "{}") (digest (u "{}")) [] (u "{}") (u "{}") [].

(** Calls fail while a temporary directory is there. *)
Definition failing_choice (s : store) : choice :=
  mkChoice (u "a0b1c2d3") (fresh (inodes s)) (isSome (st_entries s !! (staging_prefix demo_report_id ++ u "a0b1c2d3"))) None [].

(** The cleanup of a publication can leave its lock held: when a call of it fails, the
    exception leaves before the lock is closed, and while the process lives the report
    can be neither published nor deleted. *)
Theorem failed_cleanup_keeps_lock :
  let s := snd (run perform 1%positive failing_choice (publish_artifact (H1 := demo_normal) (H2 := demo_resources) true demo_report) empty_store) in
  fst (run perform 1%positive failing_choice (publish_artifact (H1 := demo_normal) (H2 := demo_resources) true demo_report) empty_store) =
    Raise (Exc OSError "cleanup") /\
  holds 1%positive s demo_report_id /\
  fst (run perform 2%positive next_choice (delete_published true demo_report_id) s) =
    Raise (Exc FileExistsError "report operation already in progress") /\
  fst (run perform 2%positive next_choice (publish_artifact (H1 := demo_normal) (H2 := demo_resources) true demo_report) s) =
    Raise (Exc FileExistsError "report operation already in progress").
Proof.
  split; [vm_compute; reflexivity|]. split; [|split; vm_compute; reflexivity].
  eexists _, _. split; vm_compute; reflexivity.
Qed.

(** ** The theorems on a published report *)

Lemma empty_inv `{UnicodeTables} `{UnicodeLower} `{UnicodeNormal} `{ReportResources} : Inv empty_store.
Proof. intros a _. exists Absent. split; [by constructor|done]. Qed.

Lemma empty_idle o : idle o empty_store.
Proof. intros i. cbn. by rewrite lookup_empty. Qed.

Definition demo_trove_id : pystr := uuid_str (tq_report_id demo_request).

Lemma demo_trove_valid : valid_id demo_trove_id.
Proof. exists demo_trove_id. vm_compute. reflexivity. Qed.

(** A trove report, as it is published, with what its bundle verifies as. *)
Lemma demo_trove_publishable : exists built bundle,
  well_built (H := demo_normal) built /\ build_bundle (H2 := demo_resources) built = Ok bundle /\
  verify_bundle_bytes (H1 := demo_normal) (H2 := demo_resources) bundle (Some (br_report_sha256 built)) = Ok built /\
  subscript (u "report_id") (br_document built) = Ok (JStr demo_trove_id).
Proof.
  destruct demo_trove_bundle_ok as (built & bundle & Hb & Hz & Hraw). exists built, bundle.
  assert (request_ok demo_request) as Hreq by (split; [vm_compute; split; [discriminate|reflexivity]|vm_compute; reflexivity]).
  assert (json_plain demo_trove_capture = true) as Hp by (vm_compute; reflexivity).
  assert (forall s, Forall printable s -> @nfc demo_normal s = s) as Hnfc by done.
  split; [|split; [exact Hz|split]].
  - refine (trove_well_built (H1 := demo_normal) (H2 := demo_resources) Hnfc demo_validate _ _ demo_trove_capture demo_request built Hp Hreq Hb);
      discriminate.
  - refine (trove_bundle_verified (H1 := demo_normal) (H2 := demo_resources) Hnfc demo_validate _ _ demo_trove_capture demo_request built
      bundle (Some (br_report_sha256 built)) Hp _ Hreq Hb Hz Hraw eq_refl); [discriminate..|]. vm_compute. reflexivity.
  - destruct (build_trove_report_Ok (H1 := demo_resources) demo_trove_capture demo_request built Hp Hreq Hb) as [_ Hm].
    exact (bm_id _ _ _ Hm).
Qed.

Section demonstration.
#[local] Existing Instance demo_normal.
#[local] Existing Instance demo_resources.

(** The report is published by one operation and read by another. *)
Lemma demo_published : exists built bundle s,
  subscript (u "report_id") (br_document built) = Ok (JStr demo_trove_id) /\
  system_reachable empty_store (s, {[1%positive := Done (Ok (OPublished (artifact_of demo_trove_id built bundle)))]}) /\
  published_as s demo_trove_id (br_report_bytes built) bundle /\ st_root s = KDirectory /\ st_locks s = ∅ /\
  run perform 2%positive next_choice (read_published demo_trove_id) s =
    (Ok (built, artifact_of demo_trove_id built bundle), s).
Proof.
  destruct demo_trove_publishable as (built & bundle & Hwell & Hz & Hv & Hid). exists built, bundle.
  destruct (bundle_sizes built bundle Hwell Hz) as [Hzl Hrl].
  assert (take (Z.to_nat (MAX_BUNDLE_BYTES + 1)) bundle = bundle) as Htake by (apply take_ge; unfold zlength in Hzl; lia).
  assert (forall d, d = Ok (JStr demo_trove_id) -> d ≫= identifier = Ok demo_trove_id) as Hident
    by (intros d ->; exact (valid_identifier _ demo_trove_valid)).
  destruct (publish_runs next_choice next_choice_calm demo_trove_id demo_trove_valid 1%positive built bundle built empty_store)
    as (s & Hrun & Hpub & _ & _ & _ & Hl & Hroot); try done.
  { by apply Hident. }
  { by rewrite Htake. }
  exists s. split; [exact Hid|]. split; [|split_and!; try done].
  - pose proof (operate_reachable next_choice empty_store empty_store ∅ 1%positive (PublishReport true built)
      (calm_fresh _ next_choice_calm) (rtc_refl _ _) (lookup_empty _) (empty_idle _)) as Hr.
    cbn [operate] in Hr. rewrite run_bind, Hrun in Hr. exact Hr.
  - apply (read_runs next_choice next_choice_calm demo_trove_id demo_trove_valid); try done.
    rewrite Htake. by eapply verify_unexpected.
Qed.

Lemma store_invariant_witness : exists s pool,
  system_reachable empty_store (s, pool) /\ exists p, in_phase s demo_trove_id p /\ phase_ok demo_trove_id p.
Proof.
  destruct demo_published as (built & bundle & s & _ & Hr & _). exists s. eexists. split; [exact Hr|].
  exact (store_invariant empty_store s _ demo_trove_id empty_inv Hr demo_trove_valid).
Defined.

Lemma store_transitions_witness : exists s pool c',
  system_reachable empty_store (s, pool) /\ system_step (s, pool) c' /\
  exists p, in_phase s demo_trove_id p /\ in_phase (fst c') demo_trove_id p /\
    (p = p \/ exists o, holds o s demo_trove_id /\ transition p p).
Proof.
  destruct demo_published as (built & bundle & s & _ & Hr & (i & j & k & He) & _ & Hl & _).
  eexists s, _, (s, <[2%positive := operate (DeleteReport true demo_trove_id)]> _). split; [exact Hr|].
  assert (system_step (s, {[1%positive := Done (Ok (OPublished (artifact_of demo_trove_id built bundle)))]})
    (s, <[2%positive := operate (DeleteReport true demo_trove_id)]> {[1%positive := Done (Ok (OPublished (artifact_of demo_trove_id built bundle)))]})) as Hs.
  { apply step_start; [reflexivity| |by exists (DeleteReport true demo_trove_id)]. intros x. by rewrite Hl, lookup_empty. }
  split; [exact Hs|]. exists (Published (br_report_bytes built) bundle).
  assert (in_phase s demo_trove_id (Published (br_report_bytes built) bundle)) as Hp by (eapply phase_present; [exact He|constructor]).
  split; [exact Hp|]. split; [exact Hp|].
  exact (store_transitions empty_store _ _ demo_trove_id _ _ empty_inv Hr Hs demo_trove_valid Hp Hp).
Defined.

Lemma store_outcomes_witness : exists s pool built artifact x s1 pool1,
  system_reachable empty_store (s, pool) /\ pool !! 2%positive = Some (Done (Ok (ORead built artifact))) /\
  pool1 !! 2%positive = Some (operate x) /\ idle 2%positive s /\
  answered x (ORead built artifact) (at_a_moment perform admissible stop idle started 2%positive (s1, pool1) (s, pool)).
Proof.
  destruct demo_published as (built & bundle & s & _ & Hr & _ & _ & Hl & Hread).
  pose proof (operate_reachable next_choice empty_store s _ 2%positive (ReadReport demo_trove_id)
    (calm_fresh _ next_choice_calm) Hr eq_refl ltac:(intros x; by rewrite Hl, lookup_empty)) as Hr2.
  cbn [operate] in Hr2. rewrite run_bind, Hread in Hr2. cbn [fst snd run] in Hr2.
  eexists s, _, built, (artifact_of demo_trove_id built bundle).
  destruct (store_outcomes empty_store s _ 2%positive (Ok (ORead built (artifact_of demo_trove_id built bundle))) empty_inv Hr2 (lookup_insert_eq _ _ _))
    as (x & s1 & pool1 & H1 & H2 & H3 & H4 & H5).
  exists x, s1, pool1. split; [exact Hr2|]. split; [by rewrite lookup_insert_eq|]. split; [exact H2|]. split; [exact H4|exact H5].
Defined.

Lemma publish_then_read_witness : exists built bundle s' s'',
  run perform 1%positive next_choice (publish_artifact true built) empty_store = (Ok (artifact_of demo_trove_id built bundle), s') /\
  run perform 2%positive next_choice (read_published demo_trove_id) s' = (Ok (built, artifact_of demo_trove_id built bundle), s') /\
  run perform 2%positive next_choice (publish_artifact true built) s' =
    (Raise (Exc FileExistsError "immutable report already exists"), s'') /\
  st_entries s'' !! demo_trove_id = st_entries s' !! demo_trove_id.
Proof.
  destruct demo_trove_publishable as (built & bundle & Hwell & Hz & Hv & Hid). exists built, bundle.
  exact (publish_then_read next_choice next_choice_calm demo_trove_id demo_trove_valid 1%positive 2%positive built bundle built empty_store
    Hid Hwell Hz Hv Hid eq_refl eq_refl (fun _ _ => eq_refl) I).
Defined.
End demonstration.

(** A report whose deletion stopped after its first file. *)
Definition halved_store : store :=
  mkStore KDirectory {[demo_report_id := (1%positive, EDirectory {[REPORT := (2%positive, LFile (u "{}"))]})]} ∅.

Lemma delete_runs_witness : exists s',
  run perform 1%positive next_choice (delete_published true demo_report_id) halved_store = (Ok true, s') /\
  st_entries s' !! demo_report_id = None.
Proof.
  assert (valid_id demo_report_id) as Ha by (exists demo_report_id; vm_compute; reflexivity).
  destruct (delete_runs next_choice next_choice_calm demo_report_id Ha 1%positive halved_store (Halved (u "{}"))) as (s' & Hrun & Hd & _).
  - eapply phase_present; [apply lookup_singleton_eq|constructor].
  - reflexivity.
  - unfold lock_free, halved_store. cbn [st_entries]. by rewrite lookup_singleton_ne by done.
  - intros i. cbn. by rewrite lookup_empty.
  - exists s'. split; [exact Hrun|apply Hd].
Defined.
