(* ===== verification/Service.v ===== *)
(** * The report service: [liqvera_evidence_report.service] and [product_request]

    One handler runs per request, in a thread of its own: it checks the request, adds
    the report to the set of those being built, reads or builds and publishes it
    through the store, replies, and takes the report out of the set.  Handlers are
    programs of calls of the store, of the connection, of the set and of the clocks.
    Proved here: no two handlers work on a report and none leaves it in the set, no
    request is answered twice, and what is answered is of a closed vocabulary. *)

From S2P Require Import Prelude PyStr Num PyObj Json JsonRoundtrip Bytes Exact Vwap EvidenceIo Documents MezoDex TroveReport FrozenPackage SealedInput Report Tree.
From S2P Require Import Bundle Programs Store Environ.
From Stdlib Require Import Qcanon.
Open Scope Z_scope.

(** ** [product_request] *)

Inductive product_request :=
  | Snapshot (request : ReportRequest)
  | TroveRisk (request : TroveReportRequest).

Definition parse_product_request (body : json) (engine_commit : pystr) (created_at_ms : Z) : result product_request :=
  let market := Snapshot <$> parse_request body (JStr engine_commit) in
  match body with
  | JDict d =>
    if json_is (json_get (u "product_id") d) (u "trove_risk") then
      reject_if (negb (keys_equal d (map u ["report_id"; "product_id"; "borrower"]%string))) "INVALID_INPUT" ;;
      report_id ← identifier (json_get (u "report_id") d) ≫= uuid_parse;
      TroveRisk <$> trove_request_init report_id (json_get (u "borrower") d) (JStr engine_commit) (JInt created_at_ms)
                      (JStr (u "live-public"))
    else market
  | _ => market
  end.

Definition request_identity (request : product_request) : json :=
  match request with
  | TroveRisk r => JDict [(u "product_id", JStr (u "trove_risk")); (u "borrower", JStr (tq_borrower r))]
  | Snapshot r => JDict [(u "side", JStr (side_value (rq_side r))); (u "quantity_base", JStr (exact_str (rq_quantity_base r)))]
  end.

Definition request_id (request : product_request) : pystr :=
  uuid_str match request with Snapshot r => rq_report_id r | TroveRisk r => tq_report_id r end.

(** ** The service *)

Definition PUBLIC_CODES : list string :=
  ["MEZO_SOURCE_UNAVAILABLE"; "MEZO_DEX_INVALID_EVIDENCE"; "INVALID_INPUT"; "INVALID_DATASET"; "SOURCE_UNAVAILABLE";
   "STALE_SOURCE"; "CLOCK_SKEW"; "IDENTITY_UNVERIFIED"; "IDENTITY_MISMATCH"; "CROSSED_BOOK"; "DEPTH_INSUFFICIENT";
   "UNSUPPORTED_INSTRUMENT"; "ARTIFACT_INTEGRITY_FAILED"; "STORAGE_UNAVAILABLE"; "REPORT_ALREADY_EXISTS"]%string.

(** The parts of [urlsplit(origin)]. *)
Record split_url := mkUrl {
  su_scheme : pystr; su_hostname : option pystr; su_path : pystr; su_query : pystr; su_fragment : pystr;
  su_username : option pystr; su_password : option pystr; su_port : option Z }.

Record configuration := mkConfiguration {
  cf_internal_token : pystr; cf_engine_commit : pystr; cf_mode : pystr; cf_capture_url : split_url;
  cf_dex_enabled : bool; cf_troves_enabled : bool }.

(** What the handlers read of a request; its body is read from the connection. *)
Record http_request := mkHttp {
  hr_path : pystr; hr_authorization : list pystr; hr_content_length : list pystr;
  hr_transfer_encoding : option pystr; hr_content_type : pystr }.

(** The calls of a handler.  [PostCapture] is the exchange with the capture service;
    what [http.client] raises is an [OSError] here, both being caught together. *)
Inductive event : Type -> Type :=
  | OnStore {B} (c : call B) : event B
  | SendReply (status : Z) (raw : bytes) : event unit
  | ReadBody (length : Z) : event bytes
  | Enter (report_id : pystr) : event bool
  | Discard (report_id : pystr) : event unit
  | TimeNs : event Z
  | MonotonicNs : event Z
  | NewUuid : event uuid
  | PostCapture (body : bytes) : event (Z * bytes)
  | CaptureTree (capture_id : pystr) : event (option node)
  | Ready : event bool.

Abbreviation handler := (prog event).

(** The same program, over the calls of a handler. *)
Fixpoint on_store {A} (p : prog call A) : handler A :=
  match p with
  | Done r => Done r
  | Call c k => Call (OnStore c) (fun a => on_store (k a))
  end.

Definition reply (status : Z) (document : json) : handler unit :=
  raw ← lift (Canonical.canonical_json_bytes document); do (SendReply status raw).

Definition code_document (code : string) (retryable : bool) : json :=
  JDict [(u "code", JStr (u code)); (u "retryable", JBool retryable)].

(** [_internal_token], of the contents of the file. *)
Definition internal_token (file : bytes) : result pystr :=
  let raw := take 258 file in
  let token := match rev raw with 10 :: r => rev r | _ => raw end in
  raise_if (negb ((32 <=? zlength token) && (zlength token <=? 256)) || existsb (fun c => (c <? 33) || (126 <? c)) token)
    ValueError "invalid internal authentication configuration" ;;
  Ok token.

(** ** The configuration: [main] up to the server *)

Definition FORBIDDEN : list string :=
  ["SECRET"; "TOKEN"; "PASSWORD"; "PRIVATE"; "WALLET"; "SIGNER"; "API_KEY"; "APIKEY"; "DATABASE"; "PAY_TO"; "FACILITATOR"; "RPC_URL"]%string.

Definition forbidden_key `{UnicodeUpper} (key : pystr) : bool :=
  negb (str_eqb key (u "LIQVERA_INTERNAL_TOKEN_FILE")) && marked FORBIDDEN key.

(** The flag of an extension: only of the live source. *)
Definition extension_flag (environ : environment) (key : string) (mode : pystr) (what : string) : result bool :=
  let flag := getenv environ key "false" in
  raise_if (negb (bool_decide (flag ∈ map u ["true"; "false"]%string)) ||
            str_eqb flag (u "true") && negb (str_eqb mode (u "live-public"))) ValueError what ;;
  Ok (str_eqb flag (u "true")).

(** [token] is what reading the file of the token gives, [roots] whether the two roots
    are absolute paths and no links. *)
Definition configure `{UnicodeUpper} (urlsplit : pystr -> split_url) (environ : environment)
    (token : result bytes) (roots : bool) : result configuration :=
  raise_if (existsb (fun kv => forbidden_key (fst kv)) environ) ValueError
    "report service must not receive gateway credentials or payment configuration" ;;
  internal ← try_except (token ≫= internal_token) [OSError; ValueError]
    (fun _ => raise ValueError "invalid internal authentication configuration");
  let engine_commit := getenv environ "LIQVERA_ENGINE_COMMIT" "" in
  let mode := getenv environ "LIQVERA_SOURCE_MODE" "fixture" in
  raise_if (negb (is_commit engine_commit) || negb (bool_decide (mode ∈ map u ["fixture"; "live-public"]%string)) || negb roots)
    ValueError "invalid report service configuration" ;;
  dex ← extension_flag environ "LIQVERA_MEZO_DEX_ENABLED" mode "invalid Mezo DEX source configuration";
  troves ← extension_flag environ "LIQVERA_MEZO_TROVES_ENABLED" mode "invalid Mezo Trove source configuration";
  Ok (mkConfiguration internal engine_commit mode
        (urlsplit (getenv environ "LIQVERA_CAPTURE_URL" "http://evidence-capture:8081")) dex troves).

Section service.
Context `{UnicodeTables} `{UnicodeLower} `{UnicodeNormal} `{ReportResources}.
Context (cf : configuration).

Definition authorized (request : http_request) : handler bool :=
  if match hr_authorization request with
     | [value] => forallb (fun c => c <? 128) value && str_eqb value (u "Bearer " ++ cf_internal_token cf)
     | _ => false
     end
  then Done (Ok true)
  else reply 401 (code_document "UNAUTHORIZED" false) ;; Done (Ok false).

(** ** The capture service *)

Definition url_allowed (url : split_url) : bool :=
  str_eqb (su_scheme url) (u "http") &&
  match su_hostname url with
  | Some h => bool_decide (h ∈ map u ["evidence-capture"; "127.0.0.1"; "localhost"]%string)
  | None => false
  end &&
  (str_eqb (su_path url) [] || str_eqb (su_path url) (u "/")) && str_eqb (su_query url) [] && str_eqb (su_fragment url) [] &&
  match su_username url with Some name => str_eqb name [] | None => true end &&
  match su_password url with Some word => str_eqb word [] | None => true end &&
  match su_port url with Some port => port =? 8081 | None => true end.

Definition capture (capture_id : pystr) (extra : list (pystr * json)) : handler (list (pystr * json)) :=
  lift (reject_if (negb (url_allowed (cf_capture_url cf))) "SOURCE_UNAVAILABLE") ;;
  prog_except
    (body ← lift (Canonical.canonical_json_bytes (JDict ((u "capture_id", JStr capture_id) :: extra)));
     response ← do (PostCapture body);
     let raw := take (Z.to_nat 16385) (snd response) in
     if (16384 <? zlength raw) || negb (fst response =? 201) then
       (if zlength raw <=? 16384 then
          failure ← lift (strict_json raw);
          lift match failure with
               | JDict d => reject_if (json_is (json_get (u "code") d) (u "MEZO_SOURCE_UNAVAILABLE")) "MEZO_SOURCE_UNAVAILABLE"
               | _ => Ok tt
               end
        else Done (Ok tt)) ;;
       lift (rejected "SOURCE_UNAVAILABLE")
     else
       value ← lift (strict_json raw);
       lift match value with
            | JDict d =>
              reject_if (negb (keys_equal d (map u ["capture_id"; "source_mode"; "identity_status"]%string)) ||
                         negb (json_is (json_get (u "capture_id") d) capture_id)) "SOURCE_UNAVAILABLE" ;;
              Ok d
            | _ => rejected "SOURCE_UNAVAILABLE"
            end)
    [OSError] (fun _ => lift (rejected "SOURCE_UNAVAILABLE")).

(** ** Building a product *)

Definition require_mezo_source (built : BuiltReport) : result unit :=
  reject_if (negb (isSome (assoc (u "source/mezo-dex.json") (br_input_members built)) &&
                   isSome (assoc (u "mezo-dex/capture.json") (br_extra_members built)) &&
                   match br_document built with JDict d => isSome (assoc (u "mezo_dex") d) | _ => false end))
    "MEZO_SOURCE_UNAVAILABLE".

(** [document[a][b]] *)
Definition document_item (built : BuiltReport) (a b : string) : result json :=
  section ← subscript (u a) (br_document built); subscript (u b) section.

Definition build_trove_product (path : option node) (capture_id : pystr) (request : TroveReportRequest) (created_at_ms : Z)
  : result BuiltReport :=
  capture ← read_trove_package path capture_id;
  request ← trove_request_init (tq_report_id request) (JStr (tq_borrower request)) (JStr (tq_engine_commit request))
              (JInt created_at_ms) (JStr (tq_source_mode request));
  built ← build_trove_report capture request;
  status ← document_item built "quality" "snapshot_status";
  reject_if (negb (json_is status (u "VALID_FOR_SNAPSHOT_CALCULATION"))) "STALE_SOURCE" ;;
  Ok built.

(** [Fraction(str(request.quantity_base)) * 10**18], and its numerator. *)
Definition quantity_wei (request : ReportRequest) : pystr :=
  str_of_Z (numerator (frac (scaled (rq_quantity_base request)) 100000000 * frac_of_Z (10 ^ 18))%Qc).

(** A fresh capture and the report on it. *)
Definition build_product (request : product_request) : handler BuiltReport :=
  capture_id ← do NewUuid;
  let capture_id := uuid_str capture_id in
  extra ← match request with
          | TroveRisk r =>
            lift (reject_if (negb (cf_troves_enabled cf)) "UNSUPPORTED_INSTRUMENT") ;;
            Done (Ok [(u "trove_risk", JDict [(u "borrower", JStr (tq_borrower r))])])
          | Snapshot r =>
            if cf_dex_enabled cf
            then Done (Ok [(u "mezo_dex", JDict [(u "side", JStr (side_value (rq_side r)));
                                                 (u "quantity_wei", JStr (quantity_wei r))])])
            else Done (Ok [])
          end;
  captured ← capture capture_id extra;
  lift (reject_if (negb (json_is (json_get (u "source_mode") captured) (cf_mode cf))) "INVALID_DATASET") ;;
  match request with
  | TroveRisk r =>
    created ← do TimeNs;
    path ← do (CaptureTree capture_id);
    lift (build_trove_product path capture_id r (created / 1000000))
  | Snapshot r =>
    path ← do (CaptureTree capture_id);
    built ← lift (build_report path r None);
    lift (if cf_dex_enabled cf then require_mezo_source built else Ok tt) ;;
    Done (Ok built)
  end.

(** The report of an identifier that the store has, or a fresh one. *)
Definition produce (request : product_request) (report_id : pystr) (deadline : Z) : handler (BuiltReport * PublishedArtifact) :=
  exists_ ← on_store (do (Lexists report_id));
  if exists_ : bool then
    found ← on_store (read_published report_id);
    asked ← lift (subscript (u "request") (br_document (fst found)));
    lift (reject_if (negb (py_eq asked (request_identity request))) "REPORT_ALREADY_EXISTS") ;;
    mode ← lift (document_item (fst found) "source" "source_mode");
    lift (reject_if (negb (json_is mode (cf_mode cf))) "INVALID_DATASET") ;;
    Done (Ok found)
  else
    built ← build_product request;
    mode ← lift (document_item built "source" "source_mode");
    lift (reject_if (negb (json_is mode (cf_mode cf))) "INVALID_DATASET") ;;
    now ← do MonotonicNs;
    lift (reject_if (deadline <=? now) "SOURCE_UNAVAILABLE") ;;
    artifact ← on_store (publish_artifact true built);
    Done (Ok (built, artifact)).

(** [{**asdict(artifact), ...}] *)
Definition artifact_document (built : BuiltReport) (artifact : PublishedArtifact) : result json :=
  snapshot_at ← document_item built "source" "source_at";
  created_at ← document_item built "source" "created_at";
  source_mode ← document_item built "source" "source_mode";
  snapshot_status ← document_item built "quality" "snapshot_status";
  limitations ← document_item built "quality" "limitations";
  Ok (JDict [(u "report_id", JStr (pa_report_id artifact)); (u "report_sha256", JStr (pa_report_sha256 artifact));
             (u "bundle_sha256", JStr (pa_bundle_sha256 artifact)); (u "report_size_bytes", JInt (pa_report_size artifact));
             (u "bundle_size_bytes", JInt (pa_bundle_size artifact)); (u "snapshot_at", snapshot_at);
             (u "created_at", created_at); (u "source_mode", source_mode); (u "snapshot_status", snapshot_status);
             (u "limitations", limitations)]).

Definition serve (request : product_request) (report_id : pystr) : handler unit :=
  start ← do MonotonicNs;
  let deadline := start + 15 * 10 ^ 9 in
  result ← produce request report_id deadline;
  now ← do MonotonicNs;
  lift (reject_if (deadline <=? now) "SOURCE_UNAVAILABLE") ;;
  document ← lift (artifact_document (fst result) (snd result));
  reply 200 document.

(** ** [do_POST] *)

(** One decimal length between 1 and 16384. *)
Definition body_length (request : http_request) : result Z :=
  match hr_content_length request with
  | [length] =>
    reject_if (negb (negb (str_eqb length []) && ascii_digits length) || isSome (hr_transfer_encoding request) ||
               negb (str_eqb (hr_content_type request) (u "application/json"))) "INVALID_INPUT" ;;
    n ← py_int 10 length;
    reject_if (negb ((1 <=? n) && (n <=? 16384))) "INVALID_INPUT" ;;
    Ok n
  | _ => rejected "INVALID_INPUT"
  end.

Definition read_request (request : http_request) : handler product_request :=
  n ← lift (body_length request);
  raw ← do (ReadBody n);
  lift (reject_if (negb (zlength raw =? n)) "INVALID_INPUT") ;;
  body ← lift (strict_json raw);
  now ← do TimeNs;
  lift (parse_product_request body (cf_engine_commit cf) (now / 1000000)).

(** The report joins the set, or another handler has it. *)
Definition claim_slot (report_id : pystr) : handler bool :=
  entered ← do (Enter report_id);
  if entered : bool then Done (Ok true)
  else reply 409 (code_document "BUILD_IN_PROGRESS" true) ;; Done (Ok false).

Definition public_code (code : string) : string := if bool_decide (code ∈ PUBLIC_CODES) then code else "INVALID_DATASET".

Definition public_status (code : string) : Z :=
  if bool_decide (code ∈ ["MEZO_SOURCE_UNAVAILABLE"; "SOURCE_UNAVAILABLE"; "STORAGE_UNAVAILABLE"; "ARTIFACT_INTEGRITY_FAILED"]%string)
  then 503 else 422.

Definition post_error (e : exn) : handler unit :=
  if exc_subclass (exn_class e) EvidenceRejected then
    let code := public_code (exn_msg e) in
    reply (public_status code) (code_document code false)
  else if exc_subclass (exn_class e) FileExistsError then reply 409 (code_document "REPORT_ALREADY_EXISTS" false)
  else if existsb (exc_subclass (exn_class e)) [OSError; ValueError; TypeError; KeyError]
  then reply 503 (code_document "STORAGE_UNAVAILABLE" false)
  else Done (Raise e).

(** [try: p  except ...: reply] *)
Definition answering (on_error : exn -> handler unit) (p : handler unit) : handler unit :=
  prog_then p (fun r => match r with Ok _ => Done (Ok tt) | Raise e => on_error e end).

(** The work on an admitted report; the set is left after the reply. *)
Definition admitted (on_error : exn -> handler unit) (report_id : pystr) (p : handler unit) : handler unit :=
  prog_then (claim_slot report_id) (fun r =>
    match r with
    | Ok true => prog_finally (answering on_error p) (do (Discard report_id))
    | Ok false => Done (Ok tt)
    | Raise e => on_error e
    end).

Definition do_POST (request : http_request) : handler unit :=
  if negb (str_eqb (hr_path request) (u "/internal/v1/reports")) then reply 404 (code_document "NOT_FOUND" false)
  else
    allowed ← authorized request;
    if allowed : bool then
      prog_then (read_request request) (fun r =>
        match r with
        | Ok product => admitted post_error (request_id product) (serve product (request_id product))
        | Raise e => post_error e
        end)
    else Done (Ok tt).

(** ** [do_DELETE] and [do_GET] *)

Definition delete_error (e : exn) : handler unit :=
  if exc_subclass (exn_class e) EvidenceRejected then
    reply (if String.eqb (exn_msg e) "INVALID_INPUT" then 400 else 409) (code_document (exn_msg e) false)
  else if exc_subclass (exn_class e) FileExistsError then reply 409 (code_document "BUILD_IN_PROGRESS" true)
  else if exc_subclass (exn_class e) OSError then reply 503 (code_document "STORAGE_UNAVAILABLE" false)
  else Done (Raise e).

(** The identifier of the path, without a body. *)
Definition delete_target (request : http_request) : result pystr :=
  report_id ← identifier (JStr (drop (length (u "/internal/v1/reports/")) (hr_path request)));
  reject_if (isSome (hr_transfer_encoding request) ||
             negb (bool_decide (hr_content_length request = [] \/ hr_content_length request = [u "0"]))) "INVALID_INPUT" ;;
  Ok report_id.

Definition serve_delete (report_id : pystr) : handler unit :=
  deleted ← on_store (delete_published true report_id);
  reply 200 (JDict [(u "report_id", JStr report_id); (u "deleted", JBool deleted)]).

Definition do_DELETE (request : http_request) : handler unit :=
  allowed ← authorized request;
  if allowed : bool then
    if negb (str_startswith (u "/internal/v1/reports/") (hr_path request))
    then answering delete_error (reply 404 (code_document "NOT_FOUND" false))
    else match delete_target request with
         | Ok report_id => admitted delete_error report_id (serve_delete report_id)
         | Raise e => delete_error e
         end
  else Done (Ok tt).

Definition ready_document (ready : bool) : json := JDict
  [(u "ready", JBool ready); (u "source_mode", JStr (cf_mode cf)); (u "payment_ready", JBool false);
   (u "live_identity_approved", JBool false);
   (u "blockers", JList [JStr (if str_eqb (cf_mode cf) (u "live-public") then u "IDENTITY_UNVERIFIED" else u "SIMULATED_SOURCE")])].

Definition do_GET (request : http_request) : handler unit :=
  if str_eqb (hr_path request) (u "/healthz") then reply 200 (JDict [(u "status", JStr (u "ok"))])
  else if str_eqb (hr_path request) (u "/readyz") then
    ready ← do Ready; reply (if ready : bool then 200 else 503) (ready_document ready)
  else reply 404 (code_document "NOT_FOUND" false).
End service.

(** ** What a configuration promises *)

Record configured (cf : configuration) : Prop := {
  configured_mode : cf_mode cf = u "fixture" \/ cf_mode cf = u "live-public";
  configured_commit : is_commit (cf_engine_commit cf) = true;
  configured_token : (32 <= zlength (cf_internal_token cf) <= 256) /\ Forall (fun c => 33 <= c <= 126) (cf_internal_token cf);
  configured_extensions : cf_dex_enabled cf || cf_troves_enabled cf = true -> cf_mode cf = u "live-public" }.

Lemma internal_token_Ok file token : internal_token file = Ok token ->
  (32 <= zlength token <= 256) /\ Forall (fun c => 33 <= c <= 126) token.
Proof.
  unfold internal_token. generalize (match rev (take 258 file) with 10 :: r => rev r | _ => take 258 file end) as t.
  intros t ([] & [Hl Hc]%raise_if_Ok%orb_false_iff & [= <-])%bind_Ok. rewrite negb_false_iff, andb_true_iff, !Z.leb_le in Hl.
  split; [done|]. apply Forall_forall. intros c Hin%list_elem_of_In.
  assert ((c <? 33) || (126 <? c) = false) as [H1 H2]%orb_false_iff; [|lia].
  apply not_true_iff_false. intros Hb. apply not_true_iff_false in Hc. apply Hc, existsb_exists. by exists c.
Qed.

Lemma extension_flag_Ok environ key mode what flag :
  extension_flag environ key mode what = Ok flag -> flag = true -> mode = u "live-public".
Proof.
  unfold extension_flag. intros ([] & [_ Hf]%raise_if_Ok%orb_false_iff & [= <-])%bind_Ok Ht. rewrite Ht in Hf.
  cbn [andb] in Hf. by apply negb_false_iff, str_eqb_spec in Hf.
Qed.

Lemma configure_configured `{UnicodeUpper} urlsplit environ token roots cf :
  configure urlsplit environ token roots = Ok cf -> configured cf.
Proof.
  unfold configure. intros ([] & _ & (internal & Hi & ([] & Hm & (dex & Hd & (troves & Ht & [= <-])%bind_Ok)%bind_Ok)%bind_Ok)%bind_Ok)%bind_Ok.
  apply try_except_Ok in Hi as [(raw & _ & Hi)%bind_Ok|(e & _ & Hi)]; [|done].
  apply raise_if_Ok in Hm as [[Hc Hm]%orb_false_iff _]%orb_false_iff.
  apply negb_false_iff in Hc. apply negb_false_iff, bool_decide_eq_true in Hm.
  split; cbn [cf_mode cf_engine_commit cf_internal_token cf_dex_enabled cf_troves_enabled].
  - change (getenv environ "LIQVERA_SOURCE_MODE" "fixture" ∈ [u "fixture"; u "live-public"]) in Hm.
    rewrite !elem_of_cons, elem_of_nil in Hm. tauto.
  - exact Hc.
  - by apply (internal_token_Ok raw).
  - intros [Hf|Hf]%orb_true_iff; [exact (extension_flag_Ok _ _ _ _ _ Hd Hf)|exact (extension_flag_Ok _ _ _ _ _ Ht Hf)].
Qed.
