(* ===== verification/ServiceSafety.v ===== *)
(** * The handlers of the report service, together

    Handlers run in threads over one store, one set of reports under way and their
    connections: here are the state that they share, what each call does to it, and the
    configurations that they reach. *)

From S2P Require Import Prelude PyStr Num PyObj Json JsonRoundtrip Bytes Exact Vwap EvidenceIo Documents MezoDex TroveReport FrozenPackage SealedInput Report Tree.
From S2P Require Import Bundle Programs Store StoreSafety Service.
Open Scope Z_scope.

(** ** What the calls of a handler do *)

(** The store, the set of reports under way with the handler that added each (the code
    keeps the names alone and never asks whose they are), and the replies that were
    sent, the last first. *)
Record service_state := mkService { sv_store : store; sv_active : gmap pystr op; sv_sent : list (Z * bytes) }.

Definition with_active (active : gmap pystr op) (s : service_state) : service_state := mkService (sv_store s) active (sv_sent s).

(** What a handler does not decide. *)
Record answers := mkAnswers {
  an_store : choice; an_fault : bool; an_body : bytes; an_time : Z; an_monotonic : Z; an_uuid : uuid;
  an_response : Z * bytes; an_tree : option node; an_ready : bool }.

Definition perform_event (me : op) (B : Type) (e : event B) (an : answers) (s : service_state) : result B * service_state :=
  match e with
  | OnStore c =>
    (fst (perform me _ c (an_store an) (sv_store s)),
     mkService (snd (perform me _ c (an_store an) (sv_store s))) (sv_active s) (sv_sent s))
  | SendReply status raw =>
    if an_fault an then (os_error, s) else (Ok tt, mkService (sv_store s) (sv_active s) ((status, raw) :: sv_sent s))
  | ReadBody n => (if an_fault an then os_error else Ok (take (Z.to_nat n) (an_body an)), s)
  | Enter report_id =>
    match sv_active s !! report_id with
    | Some _ => (Ok false, s)
    | None => (Ok true, with_active (<[report_id := me]> (sv_active s)) s)
    end
  | Discard report_id => (Ok tt, with_active (delete report_id (sv_active s)) s)
  | TimeNs => (Ok (an_time an), s)
  | MonotonicNs => (Ok (an_monotonic an), s)
  | NewUuid => (Ok (an_uuid an), s)
  | PostCapture _ => (if an_fault an then os_error else Ok (an_response an), s)
  | CaptureTree _ => (Ok (an_tree an), s)
  | Ready => (if an_fault an then os_error else Ok (an_ready an), s)
  end.

(** ** The set of reports under way *)

Definition owns (o : op) (s : service_state) (report_id : pystr) : Prop := sv_active s !! report_id = Some o.

Definition owns_none (o : op) (s : service_state) : Prop := forall report_id, ~ owns o s report_id.

(** A process that stops takes its set with it. *)
Definition service_stop (o : op) (s : service_state) : service_state :=
  mkService (stop o (sv_store s)) (filter (fun x => snd x <> o) (sv_active s)) (sv_sent s).

(** The store's part of the answers is admissible there; the rest is free. *)
Definition store_answers (an : answers) (s : service_state) : Prop := admissible (an_store an) (sv_store s).

(** The handler of a new thread: it has no report and no lock. *)
Definition fresh_handler (o : op) (s : service_state) : Prop := owns_none o s /\ idle o (sv_store s).

(** The calls that leave the set alone. *)
Definition leaves_set {B} (e : event B) : Prop :=
  match e with Enter _ | Discard _ => False | _ => True end.

Lemma quiet_active {B} me (e : event B) an s : leaves_set e -> sv_active (snd (perform_event me _ e an s)) = sv_active s.
Proof. destruct e; try done. cbn. by destruct (an_fault an). Qed.

(** ** Every interleaving of handlers *)

Section requests.
Context `{UnicodeTables} `{UnicodeLower} `{UnicodeNormal} `{ReportResources}.
Context (cf : configuration).

Inductive method := GET | POST | DELETE.

Definition handle (m : method) (request : http_request) : handler unit :=
  match m with GET => do_GET cf request | POST => do_POST cf request | DELETE => do_DELETE cf request end.

End requests.

Section together.
Context `{UnicodeTables} `{UnicodeLower} `{UnicodeNormal} `{ReportResources}.
Context (cf : configuration).

Definition handling (_ : op) (p : handler unit) : Prop := exists m request, p = handle cf m request.

Definition service_step : service_state * gmap op (handler unit) -> service_state * gmap op (handler unit) -> Prop :=
  step perform_event store_answers service_stop fresh_handler handling.

Definition service_reachable (s0 : service_state) (c : service_state * gmap op (handler unit)) : Prop :=
  reachable perform_event store_answers service_stop fresh_handler handling s0 c.
End together.

(** ** A deletion under way *)

Definition demo_configuration : configuration :=
  mkConfiguration (u "0123456789abcdef0123456789abcdef") (u "0123456789abcdef0123456789abcdef01234567") (u "fixture")
    (mkUrl (u "http") (Some (u "evidence-capture")) [] [] [] None None (Some 8081)) false false.

Definition demo_id : pystr := u "12345678-1234-5678-1234-567812345678".

Definition demo_delete : http_request :=
  mkHttp (u "/internal/v1/reports/" ++ demo_id) [u "Bearer " ++ cf_internal_token demo_configuration] [] None (u "application/json").

Definition demo_service : service_state := mkService (mkStore KDirectory ∅ ∅) ∅ [].

Section demonstration.
#[local] Existing Instance demo_normal.
#[local] Existing Instance demo_resources.

Lemma demo_delete_admitted :
  handle demo_configuration DELETE demo_delete = admitted delete_error demo_id (serve_delete demo_id).
Proof.
  cbn [handle]. unfold do_DELETE.
  assert (authorized demo_configuration demo_delete = Done (Ok true)) as -> by (vm_compute; reflexivity).
  assert (str_startswith (u "/internal/v1/reports/") (hr_path demo_delete) = true) as Hp by (vm_compute; reflexivity).
  assert (delete_target demo_delete = Ok demo_id) as Ht by (vm_compute; reflexivity).
  unfold mbind, prog_bind. cbn [prog_then]. by rewrite Hp, Ht.
Qed.
End demonstration.
