(* ===== verification/ServiceScope.v ===== *)
(** * Who works on a report

    A handler works on a report from the call that adds it to the set of those under way
    to the call that takes it out.  Proved here of every interleaving: a report is in the
    set exactly while a handler works on it, no two handlers work on one report, and a
    handler touches no report of the store but the one it works on. *)

From S2P Require Import Prelude PyStr Num PyObj Json JsonRoundtrip Bytes Exact Vwap EvidenceIo Documents MezoDex TroveReport FrozenPackage SealedInput Report Tree.
From S2P Require Import Bundle SnapshotBundle Programs Store StoreSafety Service ServiceSafety.
Open Scope Z_scope.

(** ** The reports that calls touch *)

(** A call of the store names a report: its directory, or its lock. *)
Definition names {B} (c : call B) (report_id : pystr) : Prop :=
  match c with
  | OpenLock name => name = lock_name report_id
  | Lexists name | IsSymlink name | IsDirectory name | ListDirectory name | Stat name | OpenDirectory name | Rmdir name => name = report_id
  | Rename _ name => name = report_id
  | _ => False
  end.

(** A call of a handler that only a handler which works on the report makes. *)
Definition touches {B} (e : event B) (report_id : pystr) : Prop :=
  match e with OnStore c => names c report_id | Discard name => name = report_id | _ => False end.

Definition enters {B} (e : event B) : Prop := match e with Enter _ => True | _ => False end.

(** What is left of a handler works on a report: some course of it comes to a call that
    touches the report, and it does not ask for a report before. *)
Fixpoint works_on {A} (report_id : pystr) (p : handler A) : Prop :=
  match p with
  | Done _ => False
  | Call e k => touches e report_id \/ (~ enters e /\ exists r, works_on report_id (k r))
  end.

(** ** The discipline of a handler *)

(** The report that a handler holds, from its calls and their answers. *)
Definition after {B} (held : option pystr) (e : event B) : result B -> option pystr :=
  match e with
  | Enter report_id => fun r => match r with Ok true => Some report_id | _ => held end
  | Discard _ => fun _ => None
  | _ => fun _ => held
  end.

(** A handler asks for a report when it holds none, and touches only the one it holds. *)
Definition allowed {B} (held : option pystr) (e : event B) : Prop :=
  (enters e -> held = None) /\ forall report_id, touches e report_id -> held = Some report_id.

Fixpoint scoped {A} (held : option pystr) (p : handler A) (Q : option pystr -> result A -> Prop) : Prop :=
  match p with
  | Done r => Q held r
  | Call e k => allowed held e /\ forall r, scoped (after held e r) (k r) Q
  end.

Lemma scoped_then {A B} held (p : handler A) (f : result A -> handler B) Q R :
  scoped held p Q -> (forall h r, Q h r -> scoped h (f r) R) -> scoped held (prog_then p f) R.
Proof.
  revert held. induction p as [r|C c k IH]; intros held Hp Hf; [by apply Hf|]. split; [apply Hp|]. intros a. apply IH; [apply Hp|done].
Qed.

Lemma scoped_mono {A} held (p : handler A) (Q R : option pystr -> result A -> Prop) :
  scoped held p Q -> (forall h r, Q h r -> R h r) -> scoped held p R.
Proof.
  revert held. induction p as [r|C c k IH]; intros held Hp Hq; [by apply Hq|]. split; [apply Hp|]. intros a. apply IH; [apply Hp|done].
Qed.

(** Calls that leave the set alone and touch no report but the one that is held. *)
Definition within (held : option pystr) (B : Type) (e : event B) : Prop :=
  leaves_set e /\ forall report_id, touches e report_id -> held = Some report_id.

Abbreviation stays held := (silent_program (within held)).

Lemma scoped_stays {A} held (p : handler A) P : stays held p -> returns p P -> scoped held p (fun h r => h = held /\ P r).
Proof.
  induction p as [r|B e k IH]; intros Hs Hr; [done|]. destruct Hs as [[Hl Ht] Hk]. split.
  - split; [|exact Ht]. by destruct e.
  - intros a. assert (after held e a = held) as -> by by destruct e. apply IH; [apply Hk|apply Hr].
Qed.

Lemma scoped_after {A B} held (p : handler A) (f : result A -> handler B) Q :
  stays held p -> (forall r, scoped held (f r) Q) -> scoped held (prog_then p f) Q.
Proof. intros Hp Hf. eapply scoped_then; [apply scoped_stays; [exact Hp|apply returns_any]|]. by intros h r [-> _]. Qed.

(** What is left of a disciplined handler works on the report it holds, and on no other. *)
Lemma scoped_works {A} held (p : handler A) report_id :
  scoped held p (fun h _ => h = None) -> works_on report_id p <-> held = Some report_id.
Proof.
  revert held. induction p as [r|B e k IH]; intros held Hp; cbn [works_on]; [cbn in Hp; by subst|]. destruct Hp as [[He Ht] Hk]. split.
  - intros [Ha|[Hne [r Hr]]]; [by apply Ht|]. apply (IH r (after held e r)) in Hr; [|apply Hk].
    destruct e; try exact Hr; [by destruct Hne|done].
  - intros ->. destruct (match e with Discard _ => true | _ => false end) eqn:Ed.
    + left. destruct e; try done. specialize (Ht report_id0 eq_refl). cbn. congruence.
    + right. assert (~ enters e) as Hne by (intros Hen; by specialize (He Hen)). split; [done|].
      exists (raise OSError "no answer"). apply (IH _ _ (Hk _)). by destruct e.
Qed.

(** ** The handlers keep the discipline *)

(** Values that a part yields, kept for the next. *)
Lemma stays_yields {A B} held (p : handler A) (f : A -> handler B) P :
  stays held p -> yields p P -> (forall a, P a -> stays held (f a)) -> stays held (p ≫= f).
Proof.
  unfold yields, mbind, prog_bind. induction p as [r|C c k IH]; intros Hp Hy Hf; cbn [prog_then].
  - destruct r as [a|e]; [by apply Hf, Hy|done].
  - split; [apply Hp|]. intros a. apply IH; [apply Hp|apply Hy|done].
Qed.

Definition names_only (report_id : pystr) (B : Type) (c : call B) : Prop := forall name, names c name -> report_id = name.

Abbreviation only report_id := (silent_program (names_only report_id)).

Lemma stays_on_store {A} report_id (p : prog call A) : only report_id p -> stays (Some report_id) (on_store p).
Proof.
  induction p as [r|C c k IH]; intros Hp; [done|]. destruct Hp as [Hc Hk]. split; [|intros a; apply IH, Hk].
  split; [done|]. intros name Hn. f_equal. by apply Hc.
Qed.

Lemma stays_do {B} held (e : event B) : within held B e -> stays held (do e).
Proof. by split. Qed.

Lemma stays_lift {A} held (m : result A) : stays held (lift m).
Proof. done. Qed.

Lemma stays_reply held status document : stays held (reply status document).
Proof. apply silent_program_bind; [done|]. intros raw. by apply stays_do. Qed.

Lemma stays_except {A} held (p : handler A) cs h : stays held p -> (forall e, stays held (h e)) -> stays held (prog_except p cs h).
Proof. intros Hp Hh. apply silent_program_then; [done|]. intros [a|e]; [done|]. destruct (existsb _ cs); [apply Hh|done]. Qed.

Create HintDb stays_programs.
#[export] Hint Resolve stays_reply stays_lift : stays_programs.

Ltac stays_program :=
  repeat first
    [ exact I
    | solve [auto 2 with stays_programs nocore]
    | apply silent_program_bind; [|intros ?] | apply stays_except; [|intros ?]
    | match goal with |- silent_program _ (if ?b then _ else _) => destruct b end
    | match goal with |- silent_program _ (match ?x with _ => _ end) => destruct x end
    | apply stays_do; split; [exact I|by intros ?] ].

Lemma lock_name_same a b : lock_name a = lock_name b -> a = b.
Proof. unfold lock_name. by intros ?%(inj (app _))%(inj (fun x => x ++ _)). Qed.

(** Programs of the store whose calls name one report. *)
Ltac only_program :=
  repeat first
    [ exact I
    | apply silent_program_bind; [|intros ?] | apply silent_program_then; [|intros ?]
    | match goal with |- silent_program _ (if ?b then _ else _) => destruct b end
    | match goal with |- silent_program _ (match ?x with _ => _ end) => destruct x end
    | split; [intros name Hname; first [exact Hname | done | by apply lock_name_same]|intros ?] ].

Section discipline.
Context `{UnicodeTables} `{UnicodeLower} `{UnicodeNormal} `{ReportResources}.
Context (cf : configuration).

Lemma only_each {A} report_id (f : A -> program unit) l : (forall x, only report_id (f x)) -> only report_id (prog_each f l).
Proof. intros Hf. induction l as [|x l IH]; [exact I|]. apply silent_program_bind; [apply Hf|by intros []]. Qed.

Lemma only_read report_id : only report_id (read_published report_id).
Proof. unfold read_published, Store.verify_bundle, prog_except, prog_reject_if. only_program. Qed.

Lemma only_publish built report_id :
  subscript (u "report_id") (br_document built) = Ok (JStr report_id) -> only report_id (publish_artifact true built).
Proof.
  intros Hid. unfold publish_artifact, mbind at 1, prog_bind, lift. cbn [prog_then]. rewrite Hid. cbn [mbind result_bind].
  destruct (identifier (JStr report_id)) as [a|e] eqn:Ha; [|exact I].
  assert (a = report_id) as ->.
  { cbn [identifier] in Ha. apply try_except_Ok in Ha as [(? & _ & ([] & _ & [= <-])%bind_Ok)%bind_Ok|(e & _ & He)]; done. }
  unfold prog_reject_if. only_program.
Qed.

Lemma only_map {A B} report_id (f : A -> program B) l : (forall x, only report_id (f x)) -> only report_id (prog_map f l).
Proof.
  intros Hf. induction l as [|x l IH]; [exact I|]. apply silent_program_bind; [apply Hf|]. intros y.
  apply silent_program_bind; [exact IH|]. intros ys. exact I.
Qed.

Lemma only_delete report_id : only report_id (delete_published true report_id).
Proof.
  unfold delete_published, prog_reject_if, prog_finally, prog_except. only_program.
  - apply only_map. intros x. unfold preflight, prog_reject_if. only_program.
  - apply only_each. intros x. unfold remove_member, prog_reject_if. only_program.
Qed.

(** A fresh report is of the identifier that was asked for. *)
Lemma product_id request : yields (build_product cf request) (fun built => subscript (u "report_id") (br_document built) = Ok (JStr (request_id request))).
Proof.
  unfold build_product. do 3 (apply yields_after; intros ?). apply yields_after. intros _. destruct request as [r|r].
  - apply yields_after. intros path. apply yields_lift_bind. intros built Hb. apply yields_after. intros _ ? [= <-].
    apply bind_Ok in Hb as (ev & _ & Hb%build_report_Ok).
    destruct (sb_document _ _ _ _ Hb) as (m & mode & calculation & dex & inputs & source & -> & _). reflexivity.
  - do 2 (apply yields_after; intros ?). apply yields_lift. intros built Hb.
    apply bind_Ok in Hb as (document & _ & (r' & Hr & (built' & Hb & (status & _ & ([] & _ & [= <-])%bind_Ok)%bind_Ok)%bind_Ok)%bind_Ok).
    unfold trove_request_init in Hr. apply bind_Ok in Hr as ([] & _ & [= <-]).
    unfold build_trove_report in Hb. apply bind_Ok in Hb as ([v risk] & _ & Hb).
    cbv zeta in Hb. repeat (apply bind_Ok in Hb as (? & _ & Hb)). injection Hb as <-. reflexivity.
Qed.

Lemma stays_capture held capture_id extra : stays held (capture cf capture_id extra).
Proof. unfold capture. stays_program. Qed.

#[local] Hint Resolve stays_capture : stays_programs.

Lemma stays_produce request deadline : stays (Some (request_id request)) (produce cf request (request_id request) deadline).
Proof.
  unfold produce. apply silent_program_bind.
  { apply stays_on_store. split; [by intros name ->|intros ?; exact I]. }
  intros []; [apply silent_program_bind; [apply stays_on_store, only_read|intros ?]; stays_program|].
  eapply stays_yields; [|apply product_id|].
  - unfold build_product. stays_program.
  - intros built Hid. stays_program. by apply stays_on_store, only_publish.
Qed.

Lemma stays_serve request : stays (Some (request_id request)) (serve cf request (request_id request)).
Proof.
  unfold serve. apply silent_program_bind; [stays_program|]. intros start.
  apply silent_program_bind; [apply stays_produce|]. intros result. stays_program.
Qed.

Lemma stays_post_error held e : stays held (post_error e).
Proof. unfold post_error. stays_program. Qed.

Lemma stays_delete_error held e : stays held (delete_error e).
Proof. unfold delete_error. stays_program. Qed.

(** A handler that has ended, or that never held a report, holds none. *)
Abbreviation ends := (fun h (_ : result unit) => h = None).

Lemma stays_ends (p : handler unit) : stays None p -> scoped None p ends.
Proof.
  intros Hp. eapply scoped_mono; [by apply scoped_stays; [|apply returns_any]|]. by intros h r [-> _].
Qed.

Lemma scoped_admitted on_error report_id p :
  (forall held e, stays held (on_error e)) -> stays (Some report_id) p -> scoped None (admitted on_error report_id p) ends.
Proof.
  intros He Hp. unfold admitted.
  apply (scoped_then _ _ _ (fun h r => h = match r with Ok true => Some report_id | _ => None end)).
  - unfold claim_slot. split; [by split; [|intros name []]|]. intros [[]|e]; [done| |done].
    apply (scoped_after None (reply 409 _)); [apply stays_reply|]. by intros [[]|e].
  - intros h [[]|e] ->; [|done|by apply stays_ends].
    unfold prog_finally. apply scoped_after.
    + unfold answering. apply silent_program_then; [exact Hp|]. intros [[]|e]; [done|apply He].
    + intros r. split; [|by intros [[]|e]]. split; [done|]. by intros name ->.
Qed.

Lemma scoped_handle m request : scoped None (handle cf m request) ends.
Proof.
  assert (stays None (authorized cf request)) as Hauth by (unfold authorized; stays_program).
  destruct m; cbn [handle].
  - apply stays_ends. unfold do_GET. stays_program.
  - unfold do_POST. destruct (negb _); [by apply stays_ends, stays_reply|].
    apply scoped_after; [done|]. intros [[]|e]; try done. apply scoped_after; [unfold read_request; stays_program|].
    intros [product|e]; [|by apply stays_ends, stays_post_error]. apply scoped_admitted; [apply stays_post_error|apply stays_serve].
  - unfold do_DELETE. apply scoped_after; [done|]. intros [[]|e]; try done.
    destruct (negb _).
    { apply stays_ends, silent_program_then; [apply stays_reply|]. intros [[]|e]; [done|apply stays_delete_error]. }
    destruct (delete_target request) as [report_id|e]; [|by apply stays_ends, stays_delete_error].
    apply scoped_admitted; [apply stays_delete_error|]. unfold serve_delete.
    apply silent_program_bind; [apply stays_on_store, only_delete|]. intros deleted. apply stays_reply.
Qed.

(** ** Every interleaving *)

(** The reports a handler holds, by its calls, are those it has in the set. *)
Definition pool_scoped (c : service_state * gmap op (handler unit)) : Prop :=
  (forall o p, snd c !! o = Some p ->
     exists held, scoped held p ends /\ forall report_id, owns o (fst c) report_id <-> held = Some report_id) /\
  forall report_id o, owns o (fst c) report_id -> is_Some (snd c !! o).

Lemma perform_owns me B (e : event B) held an s :
  allowed held e -> (forall report_id, owns me s report_id <-> held = Some report_id) ->
  (forall report_id, owns me (snd (perform_event me B e an s)) report_id <-> after held e (fst (perform_event me B e an s)) = Some report_id) /\
  forall o report_id, o <> me -> owns o (snd (perform_event me B e an s)) report_id <-> owns o s report_id.
Proof.
  intros [Hen Ht] Hh. destruct (match e with Enter _ | Discard _ => true | _ => false end) eqn:Ee.
  2: { assert (leaves_set e) as Hl by by destruct e. unfold owns. rewrite quiet_active by done. split; [|done].
       intros a. assert (forall r, after held e r = held) as -> by by destruct e. apply Hh. }
  destruct e as [| | |a|a| | | | | |]; try done; cbn [perform_event fst snd after].
  - specialize (Hen I). subst held. destruct (sv_active s !! a) as [x|] eqn:Ea; cbn [fst snd]; [done|]. unfold owns, with_active. cbn [sv_active]. split.
    + intros b. rewrite lookup_insert_Some. split; [intros [[<- _]|[_ Hb]]; [done|by apply Hh in Hb]|]. intros [= ->]. by left.
    + intros o b Hne. rewrite lookup_insert_Some. split; [intros [[_ ?]|[_ ?]]; [by destruct Hne|done]|]. intros Hb. right. split; [congruence|done].
  - specialize (Ht a eq_refl). subst held. unfold owns, with_active. cbn [sv_active]. split.
    + intros b. rewrite lookup_delete_Some. split; [|done]. intros [Hne Hb]. apply Hh in Hb. congruence.
    + intros o b Hne. rewrite lookup_delete_Some. split; [tauto|]. intros Hb. split; [|done]. intros ->.
      assert (owns me s b) as Hm by by apply Hh. unfold owns in Hm. congruence.
Qed.

Lemma pool_scoped_step c c' : pool_scoped c -> service_step cf c c' -> pool_scoped c'.
Proof.
  intros [Hp Ho] Hs. destruct Hs as [o p s pool Hn [Hidle _] (m & request & ->)|o p p' s s' pool Hl Hs|o r s pool Hl|o s pool]; cbn [fst snd] in *.
  - split.
    + intros o' p'. cbn [fst snd]. rewrite lookup_insert_Some. intros [[<- <-]|[_ Hl]]; [|by apply Hp]. exists None. split; [apply scoped_handle|].
      intros a. split; [by intros ?%Hidle|done].
    + intros a o' Ha. cbn [fst snd] in *. apply lookup_insert_is_Some'. right. by apply (Ho a).
  - destruct p as [|B e k]; [done|]. destruct Hs as (an & r & _ & E & ->). destruct (Hp o _ Hl) as (held & [Hal Hk] & Hown).
    destruct (perform_owns o B e held an s Hal Hown) as [Hme Hoth]. rewrite E in Hme, Hoth. cbn [fst snd] in *. split.
    + intros o' p'. cbn [fst snd]. rewrite lookup_insert_Some. intros [[<- <-]|[Hne Hl']]; [by exists (after held e r)|].
      destruct (Hp o' p' Hl') as (held' & Hsc & Hown'). exists held'. split; [done|]. intros a. by rewrite Hoth.
    + intros a o' Ha. cbn [fst snd] in *. apply lookup_insert_is_Some'. destruct (decide (o' = o)) as [->|Hne]; [by left|right].
      apply (Ho a). by apply Hoth.
  - destruct (Hp o _ Hl) as (held & -> & Hown). split.
    + intros o' p'. cbn [fst snd]. rewrite lookup_delete_Some. intros [_ Hl']. by apply Hp.
    + intros a o' Ha. cbn [fst snd] in *. destruct (decide (o' = o)) as [->|Hne]; [by apply Hown in Ha|]. rewrite lookup_delete_ne by done. by apply (Ho a).
  - assert (forall o' a, owns o' (service_stop o s) a <-> owns o' s a /\ o' <> o) as Hst.
    { intros o' a. unfold owns, service_stop. cbn [sv_active]. by rewrite map_lookup_filter_Some. }
    split.
    + intros o' p'. cbn [fst snd]. rewrite lookup_delete_Some. intros [Hne Hl']. destruct (Hp o' p' Hl') as (held & Hsc & Hown).
      exists held. split; [done|]. intros a. rewrite Hst. split; [intros [Ha _]; by apply Hown|]. intros Ha. split; [by apply Hown|done].
    + intros a o' [Ha Hne]%Hst. cbn [fst snd]. rewrite lookup_delete_ne by done. by apply (Ho a).
Qed.

(** C10: whatever handlers run at once, end, raise or stop: a report is in the set of those
    under way exactly while a handler works on it, which is from the call that adds it
    until the call that takes it out; no two handlers work on one report, so that none
    touches the directory or the lock of a report on which another works; and none
    stays refused after its handler has ended. *)
Theorem active_reports_running s0 s pool :
  sv_active s0 = ∅ -> service_reachable cf s0 (s, pool) ->
  (forall report_id o, sv_active s !! report_id = Some o <-> exists p, pool !! o = Some p /\ works_on report_id p) /\
  forall report_id o1 o2 p1 p2,
    pool !! o1 = Some p1 -> pool !! o2 = Some p2 -> works_on report_id p1 -> works_on report_id p2 -> o1 = o2.
Proof.
  intros H0' Hr. assert (pool_scoped (s, pool)) as [Hp Ho].
  { assert (pool_scoped (s0, ∅)) as Hinit.
    { split; [intros o p; cbn; by rewrite lookup_empty|]. intros a o. unfold owns. cbn. by rewrite H0', lookup_empty. }
    unfold service_reachable, reachable in Hr. clear H0'. induction Hr as [|c1 c2 c3 Hs _ IH]; [done|].
    by apply IH, (pool_scoped_step c1). }
  assert (forall report_id o, sv_active s !! report_id = Some o <-> exists p, pool !! o = Some p /\ works_on report_id p) as Hiff.
  { intros a o. split.
    - intros Ha. destruct (Ho a o Ha) as [p Hl]. exists p. split; [done|]. destruct (Hp o p Hl) as (held & Hsc & Hown).
      by apply (scoped_works held p a Hsc), Hown.
    - intros (p & Hl & Hw). destruct (Hp o p Hl) as (held & Hsc & Hown). by apply Hown, (scoped_works held p a Hsc). }
  split; [exact Hiff|]. intros a o1 o2 p1 p2 H1' H2' Hw1 Hw2.
  assert (sv_active s !! a = Some o1) as Ha1 by (apply Hiff; by exists p1).
  assert (sv_active s !! a = Some o2) as Ha2 by (apply Hiff; by exists p2). congruence.
Qed.
End discipline.

(** ** A deletion under way *)

Section demonstration.
#[local] Existing Instance demo_normal.
#[local] Existing Instance demo_resources.

Lemma active_reports_running_witness : exists s pool,
  service_reachable demo_configuration demo_service (s, pool) /\ owns 1%positive s demo_id /\
  (exists p, pool !! 1%positive = Some p /\ works_on demo_id p) /\
  forall o p1 p, pool !! 1%positive = Some p1 -> pool !! o = Some p -> works_on demo_id p1 -> works_on demo_id p -> 1%positive = o.
Proof.
  assert (exists p, service_reachable demo_configuration demo_service
    (with_active {[demo_id := 1%positive]} demo_service,
     <[1%positive := p]> {[1%positive := handle demo_configuration DELETE demo_delete]})) as [p Hr].
  { eexists. eapply rtc_l.
    - apply (step_start _ _ _ _ _ 1%positive (handle demo_configuration DELETE demo_delete)); [done| |by eexists _, _].
      split; intros a; cbn; unfold owns; cbn; by rewrite lookup_empty.
    - apply rtc_once. eapply (step_call _ _ _ _ _ 1%positive); [exact (lookup_insert_eq _ _ _)|]. rewrite demo_delete_admitted.
      exists (mkAnswers (mkChoice (u "a0b1c2d3") 1%positive false None []) false [] 0 0 0 (201, []) None true), (Ok true).
      split; [split_and!; [done|intros n e; cbn; by rewrite lookup_empty|done]|]. split; [vm_compute; reflexivity|reflexivity]. }
  eexists _, _. split; [exact Hr|]. split; [exact (lookup_insert_eq _ _ _)|].
  destruct (active_reports_running demo_configuration demo_service _ _ eq_refl Hr) as [Hiff Hone]. split.
  - apply Hiff. exact (lookup_insert_eq _ _ _).
  - intros o p1 p'. apply Hone.
Defined.
End demonstration.
