(* ===== verification/ServiceReplies.v ===== *)
(** * What the report service answers

    Of every path through a handler, whatever its calls answer: it sends one reply
    unless an exception leaves it, its replies are of a closed vocabulary, and only the
    failure of a system call leaves a deletion. *)

From S2P Require Import Prelude PyStr Num PyObj Json JsonRoundtrip ByteLaws Bytes Exact ExactText Vwap EvidenceIo Documents MezoDex TroveReport FrozenPackage SealedInput Report Tree.
From S2P Require Import Bundle Programs Store StoreSafety Service ServiceSafety.
Open Scope Z_scope.

(** ** One reply *)

Definition is_reply {B} (e : event B) : bool := match e with SendReply _ _ => true | _ => false end.

(** On every path no reply follows one that was sent; [Q] holds at the end, of whether
    one was sent and of the result. *)
Fixpoint paced {A} (p : handler A) (sent : bool) (Q : bool -> result A -> Prop) : Prop :=
  match p with
  | Done r => Q sent r
  | Call e k => (is_reply e = true -> sent = false) /\ forall a, paced (k a) (sent || is_reply e && is_Ok a) Q
  end.

Lemma paced_then {A B} (p : handler A) (f : result A -> handler B) sent Q R :
  paced p sent Q -> (forall sent r, Q sent r -> paced (f r) sent R) -> paced (prog_then p f) sent R.
Proof.
  revert sent. induction p as [r|C e k IH]; intros sent Hp Hf; [by apply Hf|].
  split; [apply Hp|]. intros a. apply IH; [apply Hp|exact Hf].
Qed.

Lemma paced_mono {A} (p : handler A) sent (Q R : bool -> result A -> Prop) :
  paced p sent Q -> (forall sent r, Q sent r -> R sent r) -> paced p sent R.
Proof.
  revert sent. induction p as [r|C e k IH]; intros sent Hp HQ; [by apply HQ|].
  split; [apply Hp|]. intros a. by apply IH; [apply Hp|].
Qed.

Lemma paced_bind {A B} (p : handler A) (f : A -> handler B) sent Q R :
  paced p sent Q -> (forall sent a, Q sent (Ok a) -> paced (f a) sent R) -> (forall sent e, Q sent (Raise e) -> R sent (Raise e)) ->
  paced (p ≫= f) sent R.
Proof. intros Hp Hf He. eapply paced_then; [exact Hp|]. intros sent' [a|e] Hq; [by apply Hf|by apply He]. Qed.

(** Programs that send nothing. *)
Fixpoint silent {A} (p : handler A) : Prop :=
  match p with Done _ => True | Call e k => is_reply e = false /\ forall a, silent (k a) end.

Lemma silent_then {A B} (p : handler A) (f : result A -> handler B) : silent p -> (forall r, silent (f r)) -> silent (prog_then p f).
Proof. induction p as [r|C e k IH]; intros Hp Hf; [apply Hf|]. split; [apply Hp|]. intros a. by apply IH; [apply Hp|]. Qed.

Lemma silent_bind {A B} (p : handler A) (f : A -> handler B) : silent p -> (forall a, silent (f a)) -> silent (p ≫= f).
Proof. intros Hp Hf. apply silent_then; [done|]. by intros [a|e]. Qed.

Lemma silent_store {A} (p : prog call A) : silent (on_store p).
Proof. induction p as [r|C e k IH]; [done|]. by split. Qed.

Lemma silent_paced {A} (p : handler A) sent : silent p -> paced p sent (fun sent' _ => sent' = sent).
Proof.
  induction p as [r|C e k IH]; [done|]. intros [He Hk]. cbn [paced]. rewrite He. split; [done|]. intros a.
  rewrite orb_false_r. by apply IH.
Qed.

Create HintDb silent_programs.
#[export] Hint Resolve silent_store : silent_programs.

Ltac silent_program :=
  repeat first
    [ exact I
    | solve [auto 2 with silent_programs nocore]
    | apply silent_bind; [|intros ?] | apply silent_then; [|intros ?]
    | match goal with |- silent (if ?b then _ else _) => destruct b end
    | match goal with |- silent (match ?x with _ => _ end) => destruct x end
    | match goal with |- silent (do _) => split; [reflexivity|intros ?; exact I] end ].

(** A reply is sent, or an exception leaves. *)
Definition sent_or_raised (sent : bool) (r : result unit) : Prop := sent = is_Ok r.

Lemma paced_reply status document : paced (reply status document) false sent_or_raised.
Proof.
  unfold reply, lift, mbind, prog_bind. cbn [prog_then]. destruct (Canonical.canonical_json_bytes document) as [raw|e]; [|done].
  split; [done|]. by intros [[]|e].
Qed.

Lemma paced_answering on_error p :
  paced p false sent_or_raised -> (forall e, paced (on_error e) false sent_or_raised) ->
  paced (answering on_error p) false sent_or_raised.
Proof.
  intros Hp He. unfold answering. eapply paced_then; [exact Hp|]. intros sent [[]|e] ->; [done|]. apply He.
Qed.

(** A test that replies when it fails. *)
Definition allowed_or_sent (sent : bool) (r : result bool) : Prop :=
  sent = match r with Ok b => negb b | Raise _ => false end.

Definition one_reply (sent : bool) (r : result unit) : Prop := sent = true \/ is_Ok r = false.

Lemma sent_one_reply {p : handler unit} sent : paced p sent sent_or_raised -> paced p sent one_reply.
Proof. intros Hp. eapply paced_mono; [exact Hp|]. intros sent' [[]|e] ->; [by left|by right]. Qed.

Lemma paced_refusal status document : paced (reply status document ;; Done (Ok false)) false allowed_or_sent.
Proof. eapply paced_bind; [apply paced_reply|by intros ? [] ->|by intros ? ? ->]. Qed.

Lemma paced_admitted on_error report_id p :
  paced p false sent_or_raised -> (forall e, paced (on_error e) false sent_or_raised) ->
  paced (admitted on_error report_id p) false one_reply.
Proof.
  intros Hp He. unfold admitted. eapply (paced_then _ _ _ allowed_or_sent).
  - unfold claim_slot. split; [done|]. intros [[]|e]; [done| |done]. apply paced_refusal.
  - intros sent [[]|e] ->; [|by left|apply sent_one_reply, He].
    eapply paced_then; [by apply paced_answering|]. intros sent r Hr. split; [done|].
    intros [[]|e]; [|by right]. cbn. rewrite orb_false_r. destruct r as [[]|e]; [by left|by right].
Qed.

(** ** What is answered *)

(** A failure of the system: an [OSError]. *)
Definition system_failure {A} (a : result A) : Prop := caught [OSError] a.

Lemma failure_fmap {A B} (f : A -> B) (m : result A) : system_failure m -> system_failure (f <$> m).
Proof. by destruct m. Qed.

Lemma query_fails {B} (ch : choice) (s : store) (m : result B) : system_failure m -> system_failure (fst (query ch s m)).
Proof. unfold query. by destruct (ch_fault ch). Qed.

Lemma update_fails {B} (ch : choice) (s : store) (m : result (B * (gmap pystr (ino * entry) -> gmap pystr (ino * entry)))) :
  system_failure m -> system_failure (fst (update ch s m)).
Proof. unfold update. destruct (ch_fault ch); [done|]. by destruct m as [[]|]. Qed.

Ltac failure :=
  repeat first
    [ exact I | reflexivity
    | apply query_fails | apply update_fails | apply failure_fmap | apply caught_bind; [|intros ? _]
    | match goal with |- system_failure (fst (?x, _)) => change (system_failure x) end
    | match goal with |- system_failure (fst (match ?x with _ => _ end)) => destruct x end
    | match goal with |- system_failure (match ?x with _ => _ end) => destruct x end
    | match goal with |- caught _ (match ?x with _ => _ end) => destruct x end ].

Lemma perform_fails me B (c : call B) ch s : system_failure (fst (perform me B c ch s)).
Proof. destruct c; cbn [perform]; unfold directory_at, opened_directory, opened; failure. Qed.

(** Every failure of a call is one. *)
Lemma perform_event_fails me B (e : event B) an s : system_failure (fst (perform_event me B e an s)).
Proof. destruct e; cbn [perform_event fst]; [apply perform_fails|failure..]. Qed.

(** Whatever the calls answer: they satisfy [P], and the results satisfy [Q]. *)
Fixpoint keeps {E : Type -> Type} {A} (P : forall B, E B -> Prop) (p : prog E A) (Q : result A -> Prop) : Prop :=
  match p with
  | Done r => Q r
  | Call e k => P _ e /\ forall a, system_failure a -> keeps P (k a) Q
  end.

Lemma keeps_then {E A B} P (p : prog E A) (f : result A -> prog E B) Q R :
  keeps P p Q -> (forall r, Q r -> keeps P (f r) R) -> keeps P (prog_then p f) R.
Proof.
  induction p as [r|C e k IH]; intros Hp Hf; [by apply Hf|]. split; [apply Hp|]. intros a Ha. apply IH; [by apply Hp|done].
Qed.

Lemma keeps_mbind {E A B} P (p : prog E A) (f : A -> prog E B) Q R :
  keeps P p Q -> (forall a, Q (Ok a) -> keeps P (f a) R) -> (forall e, Q (Raise e) -> R (Raise e)) -> keeps P (p ≫= f) R.
Proof. intros Hp Hf He. eapply keeps_then; [exact Hp|]. intros [a|e] Hq; [by apply Hf|by apply He]. Qed.

Lemma keeps_mono {E A} P (p : prog E A) (Q R : result A -> Prop) : keeps P p Q -> (forall r, Q r -> R r) -> keeps P p R.
Proof. induction p as [r|C e k IH]; intros Hp HQ; [by apply HQ|]. split; [apply Hp|]. intros a Ha. by apply IH; [apply Hp|]. Qed.

(** The results of a program of calls of the store. *)
Lemma keeps_store {A} (P : forall B, event B -> Prop) (p : prog call A) Q :
  (forall B c, P B (OnStore c)) -> keeps (fun _ _ => True) p Q -> keeps P (on_store p) Q.
Proof. intros HP. induction p as [r|C c k IH]; [done|]. intros [_ Hk]. split; [apply HP|]. intros a Ha. by apply IH, Hk. Qed.

(** *** What leaves a deletion of the store *)

Definition deletion_exception (e : exn) : Prop :=
  exc_subclass (exn_class e) OSError = true \/ e = Exc EvidenceRejected "INVALID_INPUT" \/
  e = Exc EvidenceRejected "ARTIFACT_INTEGRITY_FAILED".

Definition deletion_ends {A} (r : result A) : Prop := match r with Ok _ => True | Raise e => deletion_exception e end.

(** Programs of the store that end so. *)
Definition deletes {A} (p : prog call A) : Prop := keeps (fun _ _ => True) p deletion_ends.

Lemma failure_deletes {A} (r : result A) : system_failure r -> deletion_ends r.
Proof. destruct r as [|e]; [done|]. unfold system_failure. cbn. rewrite orb_false_r. by left. Qed.

Lemma deletes_bind {A B} (p : prog call A) (f : A -> prog call B) : deletes p -> (forall a, deletes (f a)) -> deletes (p ≫= f).
Proof. intros Hp Hf. eapply keeps_mbind; [exact Hp|by intros a _; apply Hf|done]. Qed.

Lemma deletes_do {B} (c : call B) : deletes (do c).
Proof. split; [done|]. intros a. apply failure_deletes. Qed.

Lemma deletes_reject b : deletes (prog_reject_if b "ARTIFACT_INTEGRITY_FAILED").
Proof. destruct b; [right; by right|exact I]. Qed.

Lemma uuid_parse_fails s : fails_with ValueError (uuid_parse s).
Proof. unfold uuid_parse. fails. Qed.

Lemma identifier_raises value e : identifier value = Raise e -> e = Exc EvidenceRejected "INVALID_INPUT".
Proof.
  destruct value as [| | | |s| |]; cbn [identifier]; try by intros [= <-].
  destruct (uuid_parse s) as [n|e'] eqn:E; cbn [mbind result_bind].
  - destruct (negb _); cbn [raise_if mbind result_bind]; [by intros [= <-]|done].
  - pose proof (uuid_parse_fails s) as Hf. rewrite E in Hf. change (exc_subclass (exn_class e') ValueError = true) in Hf.
    cbn [try_except existsb]. rewrite Hf. by intros [= <-].
Qed.

Lemma deletes_identifier value : deletes (lift (identifier value)).
Proof.
  change (deletion_ends (identifier value)). destruct (identifier value) as [|e] eqn:E; [exact I|].
  right. left. by apply identifier_raises in E.
Qed.

Lemma deletes_each {A} (f : A -> prog call unit) l : (forall x, deletes (f x)) -> deletes (prog_each f l).
Proof. intros Hf. induction l as [|x l IH]; [exact I|]. by apply deletes_bind. Qed.

Lemma deletes_map {A B} (f : A -> prog call B) l : (forall x, deletes (f x)) -> deletes (prog_map f l).
Proof.
  intros Hf. induction l as [|x l IH]; [exact I|]. apply deletes_bind; [done|]. intros y. by apply deletes_bind.
Qed.

Lemma deletes_finally {A} (p : prog call A) q : deletes p -> deletes q -> deletes (prog_finally p q).
Proof. intros Hp Hq. eapply keeps_then; [exact Hp|]. intros r Hr. eapply keeps_mbind; [exact Hq|done|done]. Qed.

Lemma deletes_except {A} (p : prog call A) cs h : deletes p -> (forall e, deletes (h e)) -> deletes (prog_except p cs h).
Proof. intros Hp Hh. eapply keeps_then; [exact Hp|]. intros [a|e] He; [done|]. destruct (existsb _ _); [apply Hh|done]. Qed.

Lemma deletes_lock path : deletes (open_report_lock path).
Proof.
  apply deletes_bind; [apply deletes_do|]. intros f. eapply (keeps_then _ _ _ deletion_ends).
  - apply deletes_bind; [apply deletes_do|]. intros metadata. apply deletes_bind; [apply deletes_reject|]. intros _.
    apply deletes_except; [apply deletes_do|]. intros e. by left.
  - intros [[]|e] He; [exact I|]. apply deletes_bind; [apply deletes_do|]. by intros _.
Qed.

#[local] Hint Resolve deletes_do deletes_reject deletes_lock : core.

Lemma deletes_clear a directory before : deletes (clear_directory a directory before).
Proof.
  unfold clear_directory. repeat (apply deletes_bind; [|intros ?]); auto.
  - apply deletes_map. intros x. unfold preflight. by repeat (apply deletes_bind; [|intros ?]); auto.
  - apply deletes_each. intros x. unfold remove_member. by repeat (apply deletes_bind; [|intros ?]); auto.
  - exact I.
Qed.

Lemma delete_published_ends a : deletes (delete_published true a).
Proof.
  unfold delete_published. apply deletes_bind; [apply deletes_identifier|]. intros _.
  apply deletes_bind; [exact I|]. intros _. apply deletes_bind; [auto|]. intros _. apply deletes_finally; [|auto].
  apply deletes_bind; [auto|]. intros lock. apply deletes_finally; [|auto].
  apply deletes_bind; [apply deletes_except; [apply deletes_bind; auto|]; by intros|]. intros [before|]; [|exact I].
  apply deletes_bind; [auto|]. intros _. apply deletes_bind; [auto|]. intros directory.
  apply deletes_finally; [apply deletes_clear|auto].
Qed.

Section replies.
Context `{UnicodeTables} `{UnicodeLower} `{UnicodeNormal} `{ReportResources}.
Context (cf : configuration).

Lemma paced_authorized request : paced (authorized cf request) false allowed_or_sent.
Proof. unfold authorized. destruct (match hr_authorization request with [_] => _ | _ => _ end); [done|]. apply paced_refusal. Qed.

Lemma paced_post_error e : paced (post_error e) false sent_or_raised.
Proof. unfold post_error. repeat destruct (exc_subclass _ _); try apply paced_reply. destruct (existsb _ _); [apply paced_reply|done]. Qed.

Lemma paced_delete_error e : paced (delete_error e) false sent_or_raised.
Proof. unfold delete_error. repeat destruct (exc_subclass _ _); try apply paced_reply. done. Qed.

Lemma silent_capture capture_id extra : silent (capture cf capture_id extra).
Proof. unfold capture, prog_except. silent_program. Qed.

#[local] Hint Resolve silent_capture : silent_programs.

(** What is silent up to its last call, a reply. *)
Lemma paced_ending {A} (p : handler A) (f : A -> handler unit) :
  silent p -> (forall a, paced (f a) false sent_or_raised) -> paced (p ≫= f) false sent_or_raised.
Proof. intros Hp Hf. eapply paced_bind; [by apply silent_paced|by intros ? a ->|by intros ? e ->]. Qed.

Lemma paced_serve request report_id : paced (serve cf request report_id) false sent_or_raised.
Proof.
  unfold serve. apply paced_ending; [silent_program|]. intros start.
  apply paced_ending; [unfold produce, build_product; silent_program|]. intros result.
  do 3 (apply paced_ending; [silent_program|intros ?]). apply paced_reply.
Qed.

(** A handler never sends a second reply after one was sent, and sends one before it
    ends, unless an exception leaves it — whatever the store, the connection, the clocks
    and the capture service answer. *)
Theorem one_reply_per_request m request : paced (handle cf m request) false one_reply.
Proof.
  destruct m; cbn [handle].
  - apply sent_one_reply. unfold do_GET. destruct (str_eqb _ _); [apply paced_reply|].
    destruct (str_eqb _ _); [|apply paced_reply]. apply paced_ending; [by split|]. intros ready. apply paced_reply.
  - unfold do_POST. destruct (negb _); [apply sent_one_reply, paced_reply|].
    eapply paced_bind; [apply paced_authorized| |by intros ? e ->; right]. intros sent [] ->; [|by left].
    eapply paced_then; [apply silent_paced; unfold read_request; silent_program|]. intros sent [product|e] ->.
    + apply paced_admitted; [apply paced_serve|apply paced_post_error].
    + apply sent_one_reply, paced_post_error.
  - unfold do_DELETE. eapply paced_bind; [apply paced_authorized| |by intros ? e ->; right]. intros sent [] ->; [|by left].
    destruct (negb _); [apply sent_one_reply, paced_answering; [apply paced_reply|apply paced_delete_error]|].
    destruct (delete_target request) as [report_id|e]; [|apply sent_one_reply, paced_delete_error].
    apply paced_admitted; [|apply paced_delete_error]. unfold serve_delete. apply paced_ending; [silent_program|].
    intros deleted. apply paced_reply.
Qed.

(** The replies of each method. *)
Inductive vocabulary : method -> Z -> json -> Prop :=
  | say_unauthorized m : m <> GET -> vocabulary m 401 (code_document "UNAUTHORIZED" false)
  | say_not_found m : vocabulary m 404 (code_document "NOT_FOUND" false)
  | say_in_progress m : m <> GET -> vocabulary m 409 (code_document "BUILD_IN_PROGRESS" true)
  | say_storage m : m <> GET -> vocabulary m 503 (code_document "STORAGE_UNAVAILABLE" false)
  | say_healthy : vocabulary GET 200 (JDict [(u "status", JStr (u "ok"))])
  | say_ready (ready : bool) : vocabulary GET (if ready then 200 else 503) (ready_document cf ready)
  | say_built built artifact document :
      artifact_document built artifact = Ok document -> vocabulary POST 200 document
  | say_exists : vocabulary POST 409 (code_document "REPORT_ALREADY_EXISTS" false)
  | say_unavailable code :
      code ∈ ["MEZO_SOURCE_UNAVAILABLE"; "SOURCE_UNAVAILABLE"; "ARTIFACT_INTEGRITY_FAILED"]%string ->
      vocabulary POST 503 (code_document code false)
  | say_unprocessable code :
      code ∈ ["MEZO_DEX_INVALID_EVIDENCE"; "INVALID_INPUT"; "INVALID_DATASET"; "STALE_SOURCE"; "CLOCK_SKEW"; "IDENTITY_UNVERIFIED";
              "IDENTITY_MISMATCH"; "CROSSED_BOOK"; "DEPTH_INSUFFICIENT"; "UNSUPPORTED_INSTRUMENT"; "REPORT_ALREADY_EXISTS"]%string ->
      vocabulary POST 422 (code_document code false)
  | say_deleted report_id deleted :
      valid_id report_id -> vocabulary DELETE 200 (JDict [(u "report_id", JStr report_id); (u "deleted", JBool deleted)])
  | say_malformed : vocabulary DELETE 400 (code_document "INVALID_INPUT" false)
  | say_corrupted : vocabulary DELETE 409 (code_document "ARTIFACT_INTEGRITY_FAILED" false).

(** A call that sends nothing, or a reply of the vocabulary. *)
Definition says (m : method) (B : Type) (e : event B) : Prop :=
  match e with
  | SendReply status raw => exists document, vocabulary m status document /\ Canonical.canonical_json_bytes document = Ok raw
  | _ => True
  end.

Lemma silent_says {A} m (p : handler A) : silent p -> keeps (says m) p (fun _ => True).
Proof. induction p as [r|C e k IH]; [done|]. intros [He Hk]. split; [by destruct e|]. intros a _. by apply IH. Qed.

(** An exception of a reply is that of the connection, or of the encoding. *)
Definition leaves_reply (document : json) (r : result unit) : Prop :=
  system_failure r \/ exists e, Canonical.canonical_json_bytes document = Raise e /\ r = Raise e.

Lemma says_reply m status document : vocabulary m status document -> keeps (says m) (reply status document) (leaves_reply document).
Proof.
  intros Hv. unfold reply, lift, mbind, prog_bind. cbn [prog_then].
  destruct (Canonical.canonical_json_bytes document) as [raw|e] eqn:E; [|right; by exists e].
  split; [by exists document|]. intros [[]|e] Ha; [by left|by left].
Qed.

(** ** The documents are encodable *)

Lemma encodable_document document text :
  json_plain document = true -> Canonical.require_json_value document = Ok tt ->
  json_dumps_with unicode_style document = Ok text -> is_Ok (Canonical.canonical_json_bytes document) = true.
Proof.
  intros Hp Hr Ht. unfold Canonical.canonical_json_bytes. rewrite Hr, Ht. cbn [mbind result_bind].
  rewrite encode_utf8_text; [done|]. pose proof (dumps_scalar _ _ Hp Ht) as Hs. unfold text_ok in *. by rewrite forallb_app, Hs.
Qed.

Lemma valid_id_text a : valid_id a -> text_ok a = true.
Proof.
  intros [t Ht]. unfold identifier in Ht. apply try_except_Ok in Ht as [Ht|(e & _ & Ht)]; [|done].
  apply bind_Ok in Ht as (n & _ & ([] & Hs & _)%bind_Ok). apply raise_if_Ok, negb_false_iff, str_eqb_spec in Hs as <-.
  apply forallb_forall. intros c Hc%list_elem_of_In. apply (Forall_at _ _ _ (uuid_str_chars n)) in Hc.
  destruct Hc as [-> |Hc]; [done|]. unfold scalar_value, hexchar in *. rewrite !andb_true_iff, !Z.leb_le, negb_true_iff, andb_false_iff, !Z.leb_gt. lia.
Qed.

Lemma deleted_encodes a deleted : valid_id a ->
  is_Ok (Canonical.canonical_json_bytes (JDict [(u "report_id", JStr a); (u "deleted", JBool deleted)])) = true.
Proof.
  intros Ha%valid_id_text. eapply encodable_document; [|reflexivity|reflexivity]. cbn [json_plain forallb fst snd].
  rewrite Ha. by destruct deleted.
Qed.

Lemma encoded_reply m status document :
  vocabulary m status document -> is_Ok (Canonical.canonical_json_bytes document) = true ->
  keeps (says m) (reply status document) system_failure.
Proof.
  intros Hv He. eapply keeps_mono; [by apply says_reply|]. intros r [Hr|(e & E & _)]; [done|]. by rewrite E in He.
Qed.

(** A reply of a code: [vm_compute] encodes it. *)
Ltac say := apply encoded_reply; [|vm_compute; reflexivity].

Lemma says_authorized m request : m <> GET -> keeps (says m) (authorized cf request) system_failure.
Proof.
  intros Hm. unfold authorized. destruct (match hr_authorization request with [_] => _ | _ => _ end); [done|].
  eapply keeps_mbind; [say; by constructor|done|done].
Qed.

Lemma says_admitted m on_error report_id p (Q R : result unit -> Prop) :
  m <> GET -> (forall r, system_failure r -> R r) ->
  (forall e, Q (Raise e) -> keeps (says m) (on_error e) R) -> (forall e, system_failure (Raise e : result unit) -> Q (Raise e)) ->
  keeps (says m) p Q -> keeps (says m) (admitted on_error report_id p) R.
Proof.
  intros Hm HR He HQ Hp. unfold admitted. eapply (keeps_then _ _ _ system_failure).
  - unfold claim_slot. split; [exact I|]. intros [[]|e] Ha; [done| |done].
    change (keeps (says m) (reply 409 (code_document "BUILD_IN_PROGRESS" true) ;; Done (Ok false)) system_failure).
    eapply keeps_mbind; [say; by constructor|done|done].
  - intros [[]|e] Hr; [|by apply HR|by apply He, HQ].
    unfold prog_finally. eapply (keeps_then _ _ _ R).
    + unfold answering. eapply keeps_then; [exact Hp|]. intros [[]|e] Hq; [by apply HR|by apply He].
    + intros r Hr'. split; [exact I|]. by intros [[]|e] Ha; [|by apply HR].
Qed.

(** *** Publications *)

(** What leaves [do_POST]: a failure of the connection, or an exception that no clause
    names. *)
Definition leaves_post (r : result unit) : Prop :=
  match r with
  | Ok _ => True
  | Raise e => exc_subclass (exn_class e) OSError = true \/
      existsb (exc_subclass (exn_class e)) [OSError; ValueError; TypeError; KeyError] = false
  end.

Lemma failure_leaves_post r : system_failure r -> leaves_post r.
Proof. destruct r as [|e]; [done|]. unfold system_failure. cbn. rewrite orb_false_r. by left. Qed.

Lemma public_code_in code : public_code code ∈ PUBLIC_CODES.
Proof. unfold public_code. case_bool_decide; [done|]. apply (bool_decide_unpack _). vm_compute. exact I. Qed.

(** Every public code, one at a time. *)
Lemma public_codes (P : string -> Prop) code : Forall P PUBLIC_CODES -> P (public_code code).
Proof. intros HP. exact (Forall_at _ _ _ HP (public_code_in code)). Qed.

Ltac member := apply (bool_decide_unpack _); vm_compute; exact I.

Lemma public_code_cases code : vocabulary POST (public_status (public_code code)) (code_document (public_code code) false).
Proof.
  apply (public_codes (fun c => vocabulary POST (public_status c) (code_document c false))).
  repeat apply Forall_cons_2; [..|apply Forall_nil_2];
    match goal with |- context [public_status ?c] => let z := eval vm_compute in (public_status c) in change (public_status c) with z end;
    first [by apply say_storage | apply say_unavailable; member | apply say_unprocessable; member].
Qed.

Lemma public_code_encodes code : is_Ok (Canonical.canonical_json_bytes (code_document (public_code code) false)) = true.
Proof.
  apply (public_codes (fun c => is_Ok (Canonical.canonical_json_bytes (code_document c false)) = true)).
  repeat apply Forall_cons_2; [..|apply Forall_nil_2]; vm_compute; reflexivity.
Qed.

Lemma says_post_error e : keeps (says POST) (post_error e) leaves_post.
Proof.
  unfold post_error. destruct (exc_subclass (exn_class e) EvidenceRejected).
  { eapply keeps_mono; [apply encoded_reply; [apply public_code_cases|apply public_code_encodes]|apply failure_leaves_post]. }
  destruct (exc_subclass (exn_class e) FileExistsError).
  { eapply keeps_mono; [say; constructor|apply failure_leaves_post]. }
  destruct (existsb _ _) eqn:E; [|by right].
  eapply keeps_mono; [say; by constructor|apply failure_leaves_post].
Qed.

Lemma says_ending {A} m (p : handler A) (f : A -> handler unit) :
  silent p -> (forall a, keeps (says m) (f a) (fun _ => True)) -> keeps (says m) (p ≫= f) (fun _ => True).
Proof. intros Hp Hf. eapply keeps_mbind; [by apply silent_says|by intros a _|done]. Qed.

Lemma says_serve request report_id : keeps (says POST) (serve cf request report_id) (fun _ => True).
Proof.
  unfold serve. apply says_ending; [silent_program|]. intros start.
  apply says_ending; [unfold produce, build_product; silent_program|]. intros result.
  apply says_ending; [silent_program|]. intros now. apply says_ending; [silent_program|]. intros _.
  cbn. destruct (artifact_document _ _) as [document|e] eqn:E; [|done].
  eapply keeps_mono; [apply says_reply; by apply say_built in E|done].
Qed.

Lemma says_post request : keeps (says POST) (do_POST cf request) leaves_post.
Proof.
  unfold do_POST. destruct (negb _). { eapply keeps_mono; [say; constructor|apply failure_leaves_post]. }
  eapply keeps_mbind; [by apply says_authorized| |intros e He; by apply failure_leaves_post]. intros [] _; [|done].
  eapply keeps_then; [apply silent_says; unfold read_request; silent_program|]. intros [product|e] _; [|apply says_post_error].
  eapply says_admitted; [done|apply failure_leaves_post|intros e _; apply says_post_error| |apply says_serve]. done.
Qed.

(** *** Deletions *)

Lemma says_delete_error e : deletion_exception e -> keeps (says DELETE) (delete_error e) system_failure.
Proof.
  intros [He|[->| ->]].
  - unfold delete_error. destruct (exc_subclass (exn_class e) EvidenceRejected) eqn:Ee.
    { exfalso. by destruct (exn_class e). }
    destruct (exc_subclass (exn_class e) FileExistsError); [say; by constructor|]. rewrite He. say. by constructor.
  - apply (encoded_reply DELETE 400); [constructor|vm_compute; reflexivity].
  - apply (encoded_reply DELETE 409); [constructor|vm_compute; reflexivity].
Qed.

Lemma delete_target_cases request :
  match delete_target request with Ok a => valid_id a | Raise e => e = Exc EvidenceRejected "INVALID_INPUT" end.
Proof.
  unfold delete_target. set (value := drop _ _).
  destruct (identifier (JStr value)) as [a|e] eqn:E; cbn [mbind result_bind]; [|by apply identifier_raises in E].
  destruct (_ || _); [done|]. pose proof (identifier_text _ _ E) as [-> _]. by exists value.
Qed.

Lemma says_delete request : keeps (says DELETE) (do_DELETE cf request) system_failure.
Proof.
  unfold do_DELETE. eapply keeps_mbind; [by apply says_authorized| |done]. intros [] _; [|done].
  destruct (negb _).
  { unfold answering. eapply keeps_then; [say; by constructor|]. intros [[]|e] He; [done|].
    apply says_delete_error. apply (failure_deletes (Raise e : result unit) He). }
  pose proof (delete_target_cases request) as Ht. destruct (delete_target request) as [a|e].
  2: { subst e. apply says_delete_error. right. by left. }
  eapply (says_admitted DELETE _ _ _ deletion_ends); [done|done|intros e He; by apply says_delete_error|
    intros e He; by apply (failure_deletes (Raise e : result unit) He)|].
  unfold serve_delete. eapply (keeps_mbind _ _ _ deletion_ends); [by apply keeps_store, delete_published_ends| |done].
  intros deleted _. eapply keeps_mono; [apply encoded_reply; [by apply say_deleted|by apply deleted_encodes]|].
  intros r. apply failure_deletes.
Qed.

Lemma says_get request : configured cf -> keeps (says GET) (do_GET cf request) system_failure.
Proof.
  intros Hc. unfold do_GET. destruct (str_eqb _ _); [say; constructor|]. destruct (str_eqb _ _); [|say; constructor].
  split; [exact I|]. intros [ready|e] He; [|done].
  change (keeps (says GET) (reply (if ready then 200 else 503) (ready_document cf ready)) system_failure).
  apply encoded_reply; [constructor|]. unfold ready_document.
  destruct (configured_mode cf Hc) as [-> | ->]; destruct ready; vm_compute; reflexivity.
Qed.

(** What leaves a handler. *)
Definition leaves (m : method) (e : exn) : Prop :=
  exc_subclass (exn_class e) OSError = true \/
  m = POST /\ existsb (exc_subclass (exn_class e)) [OSError; ValueError; TypeError; KeyError] = false.

(** C11: every reply of a handler is of the vocabulary of its method, in canonical JSON, and
    nothing but a failure of the system leaves a [GET] or a [DELETE]; what leaves a
    [POST] is that, or an exception that none of its clauses names. *)
Theorem replies_vocabulary m request : configured cf ->
  keeps (says m) (handle cf m request) (fun r => match r with Ok _ => True | Raise e => leaves m e end).
Proof.
  intros Hc. assert (forall m (r : result unit), system_failure r -> match r with Ok _ => True | Raise e => leaves m e end) as Hf.
  { intros m' [[]|e]; [done|]. unfold system_failure. cbn. rewrite orb_false_r. by left. }
  destruct m; cbn [handle].
  - eapply keeps_mono; [by apply says_get|apply Hf].
  - eapply keeps_mono; [apply says_post|]. intros [[]|e] He; [done|]. destruct He as [He|He]; [by left|by right].
  - eapply keeps_mono; [apply says_delete|apply Hf].
Qed.
End replies.

(** ** The theorem on a configuration *)

Lemma demo_configured : configured demo_configuration.
Proof.
  split; [by left|reflexivity| |done]. split; [done|]. apply Forall_forall. intros c Hc.
  by repeat (apply elem_of_cons in Hc as [->|Hc]; [done|]); apply elem_of_nil in Hc.
Qed.

Section demonstration.
#[local] Existing Instance demo_normal.
#[local] Existing Instance demo_resources.

Lemma replies_vocabulary_witness :
  keeps (says demo_configuration DELETE) (handle demo_configuration DELETE demo_delete)
    (fun r => match r with Ok _ => True | Raise e => leaves DELETE e end).
Proof. exact (replies_vocabulary demo_configuration DELETE demo_delete demo_configured). Defined.
End demonstration.
