(* ===== verification/ServiceStore.v ===== *)
(** * The store of the report service

    The handlers of the service are the operations of its store.  Proved here of every
    interleaving of handlers, with failing calls and stopped threads: the store keeps
    its invariant, a report changes only as the phases allow, and every report that the
    service has answered is one whose two files the store has verified. *)

From S2P Require Import Prelude PyStr Num PyObj Json JsonRoundtrip Bytes Exact Vwap EvidenceIo Documents MezoDex TroveReport FrozenPackage SealedInput Report Tree.
From S2P Require Import Bundle Programs Store StoreSafety StoreOperations StoreRuns Service ServiceSafety ServiceReplies.
Open Scope Z_scope.

Section service_store.
Context `{UnicodeTables} `{UnicodeLower} `{UnicodeNormal} `{ReportResources}.
Context (cf : configuration).

(** ** What the service promises with a reply *)

(** The documents of the replies with status 200.  That of a report tells the
    identifier, digests and sizes of a report that the store has verified: one that was
    published under its identifier and read back, or one just published. *)
Inductive promised : json -> Prop :=
  | promise_healthy : promised (JDict [(u "status", JStr (u "ok"))])
  | promise_ready : promised (ready_document cf true)
  | promise_deleted a deleted : valid_id a -> promised (JDict [(u "report_id", JStr a); (u "deleted", JBool deleted)])
  | promise_report a built artifact document :
      genuine_result a built artifact \/ published_result a built artifact ->
      artifact_document built artifact = Ok document -> promised document.

Definition honest (sent : Z * bytes) : Prop :=
  fst sent = 200 -> exists document, Canonical.canonical_json_bytes document = Ok (snd sent) /\ promised document.

(** ** The rely-guarantee of the store, for handlers *)

Definition service_inv (s : service_state) : Prop := Inv (sv_store s) /\ Forall honest (sv_sent s).
Definition store_rely (me : op) (s s' : service_state) : Prop := rely me (sv_store s) (sv_store s').
Definition store_act (me : op) (s s' : service_state) : Prop := act me (sv_store s) (sv_store s').

Abbreviation safe := (Programs.safe perform_event store_answers service_inv store_rely store_act).
Abbreviation guarantee := (Programs.guarantee service_inv store_rely store_act).

Lemma store_rely_refl o s : store_rely o s s.
Proof. apply rely_refl. Qed.

Lemma store_rely_trans o s1 s2 s3 : store_rely o s1 s2 -> store_rely o s2 s3 -> store_rely o s1 s3.
Proof. apply rely_trans. Qed.

Lemma idle_store_rely o s s' : store_rely o s s' -> idle o (sv_store s) -> idle o (sv_store s').
Proof. apply idle_rely. Qed.

(** A step of the store, and one that leaves it alone. *)
Lemma guarantee_store me s t :
  service_inv s -> Programs.guarantee Inv rely act me (sv_store s) t ->
  guarantee me s (mkService t (sv_active s) (sv_sent s)).
Proof. intros [Hi Hs] (Hi' & Ha & Hr). by split_and!. Qed.

Lemma guarantee_apart me s active sent :
  service_inv s -> Forall honest sent -> guarantee me s (mkService (sv_store s) active sent).
Proof. intros [Hi _] Hs. split_and!; [by split|apply act_refl|]. intros o _. apply rely_refl. Qed.

Lemma safe_on_store {A} me (p : prog call A) s Q :
  Programs.safe perform admissible Inv rely act me p (sv_store s) Q -> safe me (on_store p) s (fun r s' => Q r (sv_store s')).
Proof.
  revert s. induction p as [r|C c k IH]; intros s Hp.
  - apply safe_Done. intros s1 Hr [Hi _]. by apply Hp.
  - apply safe_Call. intros s1 an Hr Hi Hch. destruct (Hp (sv_store s1) Hr (proj1 Hi) (an_store an) Hch) as [Hg Hk].
    cbn [perform_event fst snd]. split; [by apply guarantee_store|]. by apply IH.
Qed.

(** ** The rest of a handler *)

(** Programs without calls of the store, whose replies are honest. *)
Definition apart_event {B} (e : event B) : Prop :=
  match e with OnStore _ => False | SendReply status raw => honest (status, raw) | _ => True end.

Definition apart {A} (p : handler A) : Prop := keeps (fun B => @apart_event B) p (fun _ => True).

Lemma apart_perform me B (e : event B) an s :
  service_inv s -> apart_event e -> guarantee me s (snd (perform_event me B e an s)) /\
  sv_store (snd (perform_event me B e an s)) = sv_store s.
Proof.
  intros Hi He. assert (guarantee me s s) as Hs by (destruct s; by apply guarantee_apart; [|apply Hi]).
  destruct e; cbn [perform_event snd] in *; try done.
  - destruct (an_fault an); [done|]. split; [|done]. apply guarantee_apart; [done|]. constructor; [done|apply Hi].
  - destruct (sv_active s !! report_id); [done|]. split; [|done]. apply guarantee_apart; [done|apply Hi].
Qed.

Lemma safe_apart {A} me (p : handler A) s : apart p -> safe me p s (fun _ s' => store_rely me s s').
Proof.
  intros Hp. enough (forall s', store_rely me s s' -> safe me p s' (fun _ s' => store_rely me s s')) as Hs by (apply Hs, store_rely_refl).
  induction p as [r|C e k IH]; intros s' Hs.
  - apply safe_Done. intros s1 Hr _. by apply (store_rely_trans _ _ s').
  - apply safe_Call. intros s1 an Hr Hi _. destruct Hp as [He Hk].
    destruct (apart_perform me C e an s1 Hi He) as [Hg Hst]. split; [done|]. apply IH.
    + apply Hk, perform_event_fails.
    + unfold store_rely. rewrite Hst. apply (store_rely_trans _ _ s' s1); done.
Qed.

Lemma apart_bind {A B} (p : handler A) (f : A -> handler B) : apart p -> (forall a, apart (f a)) -> apart (p ≫= f).
Proof. intros Hp Hf. eapply keeps_mbind; [exact Hp|by intros a _; apply Hf|done]. Qed.

Lemma apart_then {A B} (p : handler A) (f : result A -> handler B) : apart p -> (forall r, apart (f r)) -> apart (prog_then p f).
Proof. intros Hp Hf. eapply keeps_then; [exact Hp|]. intros r _. apply Hf. Qed.

Lemma apart_reply status document :
  (status = 200 -> promised document) -> apart (reply status document).
Proof.
  intros Hp. unfold reply, lift, mbind, prog_bind. cbn [prog_then].
  destruct (Canonical.canonical_json_bytes document) as [raw|e] eqn:E; [|done].
  split; [|by intros [[]|e] _]. intros Hs. exists document. split; [done|]. by apply Hp.
Qed.

Lemma apart_do {B} (e : event B) : apart_event e -> apart (do e).
Proof. by split. Qed.

Ltac apart_program :=
  repeat first
    [ exact I
    | apply apart_reply; intros Hstatus; first [discriminate Hstatus | solve [constructor] | by case_match]
    | apply apart_do; exact I
    | apply apart_bind; [|intros ?] | apply apart_then; [|intros ?]
    | match goal with |- apart (if ?b then _ else _) => destruct b end
    | match goal with |- apart (match ?x with _ => _ end) => destruct x end ].

(** What is apart leaves a handler without locks. *)
Lemma safe_apart_idle {A} me (p : handler A) s : apart p -> idle me (sv_store s) -> safe me p s (fun _ s' => idle me (sv_store s')).
Proof. intros Hp Hn. eapply safe_mono; [by apply safe_apart|]. intros r s' Hr. by apply (idle_store_rely me s). Qed.

Lemma safe_any {A} me (p : handler A) s Q : safe me p s Q -> safe me p s (fun _ _ => True).
Proof. intros Hp. eapply safe_mono; [exact Hp|done]. Qed.

(** What follows a part that is apart. *)
Lemma safe_after {A B} me (p : handler A) (f : A -> handler B) s :
  apart p -> idle me (sv_store s) ->
  (forall a s', idle me (sv_store s') -> safe me (f a) s' (fun _ _ => True)) ->
  safe me (p ≫= f) s (fun _ _ => True).
Proof.
  intros Hp Hn Hf. eapply (safe_bind _ _ _ _ _ store_rely_refl); [by apply safe_apart_idle| |done].
  intros a s' _ Hn'. by apply Hf.
Qed.

(** A handler that works on an admitted report. *)
Lemma safe_admitted_store me on_error report_id p s :
  (forall e, apart (on_error e)) -> idle me (sv_store s) ->
  (forall s', idle me (sv_store s') -> safe me p s' (fun _ _ => True)) ->
  safe me (admitted on_error report_id p) s (fun _ _ => True).
Proof.
  intros He Hn Hp. unfold admitted.
  eapply (safe_then _ _ _ _ _ store_rely_refl); [apply safe_apart_idle; [unfold claim_slot; apart_program|done]|].
  intros [[]|e] s1 _ Hn1; [|by apply safe_Done|by eapply safe_any, safe_apart].
  unfold prog_finally. eapply (safe_then _ _ _ _ _ store_rely_refl _ _ _ _ (fun _ _ => True)).
  - unfold answering. eapply (safe_then _ _ _ _ _ store_rely_refl); [by apply Hp|].
    intros [[]|e] s2 _ _; [by apply safe_Done|by eapply safe_any, safe_apart].
  - intros r s2 _ _. eapply safe_any, safe_apart. apart_program.
Qed.

(** ** The work on a report *)

(** A report that the store vouches for. *)
Definition vouched (built : BuiltReport) (artifact : PublishedArtifact) : Prop :=
  exists a, genuine_result a built artifact \/ published_result a built artifact.

Lemma safe_produce me request report_id deadline s :
  idle me (sv_store s) ->
  safe me (produce cf request report_id deadline) s (fun r _ => forall built artifact, r = Ok (built, artifact) -> vouched built artifact).
Proof.
  intros Hn. unfold produce.
  eapply (safe_bind _ _ _ _ _ store_rely_refl _ _ _ _ (fun _ s' => idle me (sv_store s'))); [| |done].
  { apply (safe_on_store _ _ _ (fun _ t => idle me t)). unfold do. apply safe_Call. intros s1 ch Hr Hi _. cbn [perform snd fst].
    split; [by apply guarantee_same|]. apply safe_Done. intros s2 Hr2 _. apply (idle_rely me s1); [done|]. by apply (idle_rely me (sv_store s)). }
  intros [] s1 _ Hn1; cbn beta iota in Hn1.
  - eapply (safe_bind _ _ _ _ _ store_rely_refl); [by apply safe_on_store, read_published_genuine| |done].
    intros [built artifact] s2 _ [_ Hg]. specialize (Hg built artifact eq_refl).
    do 4 (eapply (safe_bind _ _ _ _ _ store_rely_refl _ _ _ _ (fun _ _ => True)); [by apply safe_Done| |done]; intros ? ? _ _).
    apply safe_Done. intros s4 _ _ b' art' [= <- <-]. exists report_id. by left.
  - eapply (safe_bind _ _ _ _ _ store_rely_refl); [apply safe_apart_idle; [unfold build_product, capture, prog_except; apart_program|exact Hn1]| |done].
    intros built s2 _ Hn2; cbn beta iota in Hn2.
    do 4 (eapply (safe_bind _ _ _ _ _ store_rely_refl); [by apply safe_apart_idle; [apart_program|eassumption]| |done]; intros ? ? _ ?).
    eapply (safe_bind _ _ _ _ _ store_rely_refl); [by apply safe_on_store, publish_artifact_safe| |done].
    intros artifact s4 _ [_ Hp]. apply safe_Done. intros s5 _ _ b' art' [= <- <-]. destruct (Hp artifact eq_refl) as [b Hb].
    exists b. by right.
Qed.

Lemma safe_serve me request report_id s :
  idle me (sv_store s) -> safe me (serve cf request report_id) s (fun _ _ => True).
Proof.
  intros Hn. unfold serve. apply safe_after; [apart_program|done|]. intros start s1 Hn1.
  eapply (safe_bind _ _ _ _ _ store_rely_refl); [by apply safe_produce| |done]. intros [built artifact] s2 _ Hv.
  destruct (Hv built artifact eq_refl) as [a Ha]. eapply safe_any, safe_apart. cbn [fst snd].
  apply apart_bind; [apart_program|]. intros now. apply apart_bind; [apart_program|]. intros _.
  cbn. destruct (artifact_document built artifact) as [document|e] eqn:E; [|done]. apply apart_reply. intros _.
  by apply (promise_report a built artifact).
Qed.

Lemma safe_handle_store me m request s :
  idle me (sv_store s) -> safe me (handle cf m request) s (fun _ _ => True).
Proof.
  intros Hn. assert (forall e, apart (post_error e)) as Hpost.
  { intros e. unfold post_error, public_status. apart_program. }
  assert (forall e, apart (delete_error e)) as Hdelete by (intros e; unfold delete_error; apart_program).
  assert (apart (authorized cf request)) as Hauth by (unfold authorized; apart_program).
  destruct m; cbn [handle].
  - eapply safe_any, safe_apart. unfold do_GET. destruct (str_eqb _ _); [apart_program|]. destruct (str_eqb _ _); [|apart_program].
    apply apart_bind; [apart_program|]. intros ready. apply apart_reply. destruct ready; [constructor|done].
  - unfold do_POST. destruct (negb _); [eapply safe_any, safe_apart; apart_program|].
    apply safe_after; [done..|]. intros [] s1 Hn1; [|by apply safe_Done].
    eapply (safe_then _ _ _ _ _ store_rely_refl); [apply safe_apart_idle; [unfold read_request; apart_program|done]|].
    intros [product|e] s2 _ Hn2; [|by eapply safe_any, safe_apart].
    apply safe_admitted_store; [done..|]. intros s3. apply safe_serve.
  - unfold do_DELETE. apply safe_after; [done..|]. intros [] s1 Hn1; [|by apply safe_Done].
    destruct (negb _); [eapply safe_any, safe_apart; unfold answering; apart_program; done|].
    pose proof (delete_target_cases request) as Ht. destruct (delete_target request) as [a|e]; [|by eapply safe_any, safe_apart].
    apply safe_admitted_store; [done..|]. intros s2 Hn2. unfold serve_delete.
    eapply (safe_bind _ _ _ _ _ store_rely_refl); [by apply safe_on_store, delete_published_safe| |done].
    intros deleted s3 _ _. eapply safe_any, safe_apart. apply apart_reply. intros _. by constructor.
Qed.

(** ** Every interleaving of handlers *)

Lemma reachable_service s0 c : service_inv s0 -> service_reachable cf s0 c ->
  config_ok perform_event store_answers service_inv store_rely store_act (fun _ (_ : result unit) _ => True) c.
Proof.
  intros Hi Hr. eapply (reachable_ok _ _ _ _ _ store_rely_refl store_rely_trans); [|..|exact Hi|exact Hr].
  - intros o s. apply act_refl.
  - intros o s [Hs Hsent]. destruct (guarantee_stop o (sv_store s) Hs) as (Hi' & Ha & Hrely). by split_and!.
  - intros o p s (m & request & ->) _ [_ Hn]. by apply safe_handle_store.
Qed.

(** C9: whatever handlers run at once, end, raise or stop, and wherever calls fail: the
    store keeps its invariant, and every reply with status 200 is the document of the
    service's health, or of a deletion, or of a report whose files the store has
    verified, with their digests. *)
Theorem service_replies_honest s0 s pool :
  Inv (sv_store s0) -> sv_sent s0 = [] -> service_reachable cf s0 (s, pool) ->
  Inv (sv_store s) /\
  forall raw, (200, raw) ∈ sv_sent s -> exists document, Canonical.canonical_json_bytes document = Ok raw /\ promised document.
Proof.
  intros Hi Hs Hr. destruct (reachable_service s0 (s, pool)) as [[Hi' Hh] _]; [|done|].
  { split; [done|]. by rewrite Hs. }
  split; [done|]. intros raw Hin. by apply (Forall_at _ _ _ Hh Hin).
Qed.

(** A step of the service leaves a report as it is, or moves it along its phases, and
    only the handler that holds its lock does. *)
Theorem service_report_transitions s0 c c' report_id p p' :
  Inv (sv_store s0) -> sv_sent s0 = [] -> service_reachable cf s0 c -> service_step cf c c' -> valid_id report_id ->
  in_phase (sv_store (fst c)) report_id p -> in_phase (sv_store (fst c')) report_id p' ->
  p = p' \/ exists o, holds o (sv_store (fst c)) report_id /\ transition p p'.
Proof.
  intros Hi Hsent Hr Hs Ha Hp Hp'. destruct (step_act perform_event store_answers service_inv store_rely store_act store_rely_refl
    service_stop fresh_handler (handling cf) (fun _ (_ : result unit) _ => True)) with (c := c) (c' := c') as [o Hact]; [..|exact Hs|].
  - intros o s. apply act_refl.
  - intros o s [Hs' Hh]. destruct (guarantee_stop o (sv_store s) Hs') as (Hi' & Hac & Hrely). by split_and!.
  - apply (reachable_service s0 c); [|done]. split; [done|]. by rewrite Hsent.
  - destruct (Hact report_id p p' Ha Hp Hp') as [->|[Hh Ht]]; [by left|right; by exists o].
Qed.

(** A handler that starts and runs to its end alone. *)
Lemma handle_reachable oracle s o m request :
  (forall s, store_answers (oracle s) s) -> fresh_handler o s ->
  service_reachable cf s (snd (run perform_event o oracle (handle cf m request) s),
    <[o := Done (fst (run perform_event o oracle (handle cf m request) s))]> (<[o := handle cf m request]> ∅)).
Proof.
  intros Ho Hs. eapply rtc_l.
  - apply (step_start _ _ _ _ _ o (handle cf m request)); [done|exact Hs|by eexists _, _].
  - apply run_steps; [exact Ho|exact (lookup_insert_eq _ _ _)].
Qed.
End service_store.

(** ** A deletion, from the request to the reply *)

Section demonstration.
#[local] Existing Instance demo_normal.
#[local] Existing Instance demo_resources.

(** Every call succeeds. *)
Definition demo_answers (s : service_state) : answers :=
  mkAnswers (next_choice (sv_store s)) false [] 0 0 0 (201, []) None true.

Definition demo_run : result unit * service_state :=
  run perform_event 1%positive demo_answers (handle demo_configuration DELETE demo_delete) demo_service.

Lemma demo_reachable :
  service_reachable demo_configuration demo_service (snd demo_run, <[1%positive := Done (fst demo_run)]>
    (<[1%positive := handle demo_configuration DELETE demo_delete]> ∅)).
Proof.
  apply (handle_reachable demo_configuration demo_answers demo_service 1%positive DELETE demo_delete).
  - intros s. exact (calm_fresh _ next_choice_calm (sv_store s)).
  - split; intros a; unfold owns; cbn; by rewrite lookup_empty.
Qed.

Lemma service_replies_honest_witness : exists raw,
  sv_sent (snd demo_run) = [(200, raw)] /\
  Inv (sv_store (snd demo_run)) /\
  exists document, Canonical.canonical_json_bytes document = Ok raw /\ promised demo_configuration document.
Proof.
  exists (match sv_sent (snd demo_run) with (_, raw) :: _ => raw | [] => [] end).
  assert (sv_sent (snd demo_run) = [(200, match sv_sent (snd demo_run) with (_, raw) :: _ => raw | [] => [] end)]) as E
    by (vm_compute; reflexivity).
  split; [exact E|].
  destruct (service_replies_honest demo_configuration demo_service _ _ empty_inv eq_refl demo_reachable) as [Hi Hh].
  split; [exact Hi|]. apply Hh. rewrite E at 2. left.
Defined.
End demonstration.
