(* ===== verification/IsoTime.v ===== *)
(** * [datetime.fromisoformat] and [datetime.isoformat]

    The reading of a time in any of the formats CPython 3.12 accepts, after its C
    implementation, whose indulgences decide which texts pass: it works on the UTF-8
    bytes, ends at the first NUL, and looks no further at what follows the digits of a
    time with an offset.  Proved here: what [isoformat] writes is read back. *)

From S2P Require Import Prelude PyStr PyObj Bytes Calendar.
Open Scope Z_scope.

(** A time of day on a date, with the offset from UTC in microseconds, if it has one. *)
Record datetime := mkTime {
  dt_year : Z; dt_month : Z; dt_day : Z; dt_hour : Z; dt_minute : Z; dt_second : Z; dt_us : Z;
  dt_offset : option Z }.

#[global] Instance datetime_eq_dec : EqDecision datetime.
Proof. solve_decision. Defined.

Definition DAY_US : Z := 86400000000.

(** What the constructor checks. *)
Definition datetime_valid (t : datetime) : bool :=
  (1 <=? dt_year t) && (dt_year t <=? 9999) && (1 <=? dt_month t) && (dt_month t <=? 12) &&
  (1 <=? dt_day t) && (dt_day t <=? days_in_month (is_leap (dt_year t)) (dt_month t)) &&
  (0 <=? dt_hour t) && (dt_hour t <? 24) && (0 <=? dt_minute t) && (dt_minute t <? 60) &&
  (0 <=? dt_second t) && (dt_second t <? 60) && (0 <=? dt_us t) && (dt_us t <? 1000000) &&
  match dt_offset t with Some o => (- DAY_US <? o) && (o <? DAY_US) | None => true end.

(** The fields as microseconds, and the moment of a time with an offset. *)
Definition local_us (t : datetime) : Z :=
  (ymd_to_ordinal (dt_year t) (dt_month t) (dt_day t) * 86400 +
   dt_hour t * 3600 + dt_minute t * 60 + dt_second t) * 1000000 + dt_us t.

Definition instant_us (t : datetime) : option Z := (fun o => local_us t - o) <$> dt_offset t.

(** ** Reading *)

Definition is_digit (c : Z) : bool := (48 <=? c) && (c <=? 57).

(** [p[i]], NUL beyond the end. *)
Definition char_at (i : nat) (b : bytes) : Z := nth i b 0.

Fixpoint leading_digits (b : bytes) : nat :=
  match b with c :: b => if is_digit c then S (leading_digits b) else O | [] => O end.

(** Where the date ends; the formats are told apart by their fifth and sixth bytes. *)
Definition date_end (b : bytes) : option nat :=
  let len := length b in
  if (len =? 7)%nat then Some 7%nat
  else if char_at 4 b =? 45 then
    if char_at 5 b =? 87 then
      if (len <? 8)%nat then None
      else if (8 <? len)%nat && (char_at 8 b =? 45) then
        if (len =? 9)%nat then None
        else if (10 <? len)%nat && is_digit (char_at 10 b) then Some 8%nat else Some 10%nat
      else Some 8%nat
    else Some 10%nat
  else if char_at 4 b =? 87 then
    let pos := (7 + leading_digits (drop 7 b))%nat in
    Some (if (pos <? 9)%nat then pos else if Nat.even pos then 7%nat else 8%nat)
  else Some 8%nat.

(** The first Monday of an ISO year, and the date of a day of one of its weeks. *)
Definition iso_week1_monday (year : Z) : Z :=
  let first_day := ymd_to_ordinal year 1 1 in
  let weekday := (first_day + 6) mod 7 in
  first_day - weekday + (if 3 <? weekday then 7 else 0).

Definition iso_to_ymd (year week day : Z) : option (Z * Z * Z) :=
  let weekday := (ymd_to_ordinal year 1 1 + 6) mod 7 in
  if negb ((1 <=? year) && (year <=? 9999)) then None
  else if negb ((1 <=? week) && (week <=? 52) || (week =? 53) && ((weekday =? 3) || (weekday =? 2) && is_leap year)) then None
  else if negb ((1 <=? day) && (day <=? 7)) then None
  else Some (ordinal_to_ymd (iso_week1_monday year + (week - 1) * 7 + (day - 1))).

Definition skip_if (sep : bool) (c : Z) (b : bytes) : option bytes := if sep then skip_char c b else Some b.

Definition read_date (b : bytes) (end_ : nat) : option (Z * Z * Z) :=
  '(y, s) ← field 4 b;
  let sep := char_at 0 s =? 45 in
  s ← skip_if sep 45 s;
  match skip_char 87 s with
  | Some s =>
    '(week, s) ← field 2 s;
    if (length b - length s <? end_)%nat then
      s ← skip_if sep 45 s;
      '(day, _) ← field 1 s;
      iso_to_ymd y week day
    else iso_to_ymd y week 1
  | None =>
    '(m, s) ← field 2 s;
    s ← skip_if sep 45 s;
    '(d, _) ← field 2 s;
    Some (y, m, d)
  end.

(** The digits of a fraction of a second, up to six; [next] follows the text.  The flag
    is whether anything but a NUL does. *)
Definition read_fraction (s : bytes) (next : Z) : option (Z * bool) :=
  let n := Nat.min 6 (length s) in
  '(us, r) ← field n s;
  let us := us * 10 ^ (6 - Z.of_nat n) in
  Some (us, negb (char_at (leading_digits r) (r ++ [next]) =? 0)).

(** [HH[:?MM[:?SS[{.,}fff[fff]]]]], from the [i]-th field. *)
Fixpoint read_clock (turns : nat) (i : Z) (sep : bool) (s : bytes) (next : Z) : option (list Z * Z * bool) :=
  match turns with
  | O => '(us, more) ← read_fraction s next; Some ([], us, more)
  | S turns =>
    '(v, s) ← field 2 s;
    match s with
    | [] => Some ([v], 0, negb (next =? 0))
    | [c] => Some ([v], 0, negb (c =? 0))
    | c :: r =>
      let sep := if i =? 0 then c =? 58 else sep in
      if sep && (c =? 58) then
        if i =? 2 then None else '(vs, us, more) ← read_clock turns (i + 1) sep r next; Some (v :: vs, us, more)
      else if (c =? 46) || (c =? 44) then
        if i <? 2 then None else '(us, more) ← read_fraction r next; Some ([v], us, more)
      else if negb sep then '(vs, us, more) ← read_clock turns (i + 1) sep s next; Some (v :: vs, us, more)
      else None
    end
  end.

Definition read_hh_mm_ss_ff (s : bytes) (next : Z) : option (Z * Z * Z * Z * bool) :=
  '(vs, us, more) ← read_clock 3 0 true s next;
  Some (nth 0 vs 0, nth 1 vs 0, nth 2 vs 0, us, more).

(** Where the offset starts. *)
Fixpoint split_offset (s : bytes) : bytes * bytes :=
  match s with
  | c :: r => if (c =? 43) || (c =? 45) || (c =? 90) then ([], s) else let '(t, o) := split_offset r in (c :: t, o)
  | [] => ([], [])
  end.

(** The offset of what follows the time; [None] for one that is no offset. *)
Definition read_offset (s : bytes) : option Z :=
  match s with
  | 90 :: r => if char_at 0 r =? 0 then Some 0 else None
  | sign :: r =>
    '(hh, mm, ss, us, more) ← read_hh_mm_ss_ff r 0;
    let seconds := hh * 3600 + mm * 60 + ss in
    if more : bool then None
    else if seconds =? 0 then Some 0
    else Some ((if sign =? 45 then -1 else 1) * (seconds * 1000000 + us))
  | [] => None
  end.

Definition read_time (s : bytes) : option (Z * Z * Z * Z * option Z) :=
  let '(clock, offset) := split_offset s in
  '(hh, mm, ss, us, more) ← read_hh_mm_ss_ff clock (char_at 0 offset);
  match offset with
  | [] => if more : bool then None else Some (hh, mm, ss, us, None)
  | _ => o ← read_offset offset; Some (hh, mm, ss, us, Some o)
  end.

(** A surrogate that may be the separator reads as "T". *)
Definition surrogate_at (s : pystr) (i : nat) : bool := let c := char_at i s in (55296 <=? c) && (c <=? 57343).

Definition sanitize (s : pystr) : pystr :=
  match List.find (surrogate_at s) [7; 8; 10]%nat with
  | Some i => <[i := 84]> s
  | None => s
  end.

(** The bytes of the separator, by the first of them. *)
Definition utf8_width (c : Z) : nat :=
  if c <? 128 then 1 else if (224 <=? c) && (c <? 240) then 3 else if 240 <=? c then 4 else 2.

(** [datetime.fromisoformat(text)]; every failure is a [ValueError]. *)
Definition parse_isoformat (s : pystr) : option datetime :=
  if (length s <? 7)%nat then None
  else
    b ← match encode_utf8 (sanitize s) with Ok b => Some b | Raise _ => None end;
    end_ ← date_end b;
    '(y, m, d) ← read_date b end_;
    let rest := drop end_ b in
    '(hh, mm, ss, us, offset) ←
      (if (end_ <? length b)%nat then read_time (drop (utf8_width (char_at 0 rest)) rest) else Some (0, 0, 0, 0, None));
    let t := mkTime y m d hh mm ss us offset in
    if datetime_valid t then Some t else None.

Definition fromisoformat (s : pystr) : result datetime :=
  match parse_isoformat s with Some t => Ok t | None => raise ValueError "Invalid isoformat string" end.

(** ** Writing *)

(** [utcoffset] as "+HH:MM", with the seconds and their fraction when there are any. *)
Definition offset_text (o : Z) : pystr :=
  let s := Z.abs o / 1000000 in
  let us := Z.abs o mod 1000000 in
  (if o <? 0 then u "-" else u "+") ++ two (s / 3600) ++ u ":" ++ two (s / 60 mod 60) ++
  (if negb (us =? 0) then u ":" ++ two (s mod 60) ++ u "." ++ pad_zeros 6 (str_of_nonneg 10 us)
   else if negb (s mod 60 =? 0) then u ":" ++ two (s mod 60) else []).

Definition isoformat (t : datetime) : pystr :=
  pad_zeros 4 (str_of_nonneg 10 (dt_year t)) ++ u "-" ++ two (dt_month t) ++ u "-" ++ two (dt_day t) ++ u "T" ++
  two (dt_hour t) ++ u ":" ++ two (dt_minute t) ++ u ":" ++ two (dt_second t) ++
  (if dt_us t =? 0 then [] else u "." ++ pad_zeros 6 (str_of_nonneg 10 (dt_us t))) ++
  match dt_offset t with Some o => offset_text o | None => [] end.

Example isoformat_ex1 : isoformat (mkTime 2026 9 29 17 5 0 0 (Some 0)) = u "2026-09-29T17:05:00+00:00". Proof. reflexivity. Qed.
Example isoformat_ex2 :
  isoformat (mkTime 1 2 3 4 5 6 700 (Some (-5400000001))) = u "0001-02-03T04:05:06.000700-01:30:00.000001".
Proof. vm_compute. reflexivity. Qed.

(** ** What is written is read back *)

Lemma digit_field_range c : is_digit c = true <-> 48 <= c <= 57.
Proof. unfold is_digit. rewrite andb_true_iff, !Z.leb_le. done. Qed.

(** A field of so many digits. *)
Lemma padded_text k n :
  0 <= n < 10 ^ Z.of_nat (S k) ->
  length (pad_zeros (S k) (str_of_nonneg 10 n)) = S k /\ Forall (fun c => 48 <= c <= 57) (pad_zeros (S k) (str_of_nonneg 10 n)).
Proof.
  intros Hn. rewrite pad_zeros_digits, length_map. split; [apply padded_digits_length; [lia|done]|].
  apply Forall_map. eapply Forall_impl; [apply (padded_digits_range 10); lia|]. intros d Hd. cbn beta in *.
  unfold digit_char. rewrite (proj2 (Z.ltb_lt d 10)) by lia. lia.
Qed.

Lemma two_text n : 0 <= n < 100 -> exists a b, two n = [a; b] /\ 48 <= a <= 57 /\ 48 <= b <= 57.
Proof.
  intros Hn. destruct (padded_text 1 n) as [Hl Hd]; [cbn; lia|]. unfold two.
  destruct (pad_zeros 2 (str_of_nonneg 10 n)) as [|a [|b [|]]]; try done. exists a, b.
  inversion Hd as [|? ? Ha Hd']; subst. inversion Hd'; subst. done.
Qed.

(** One turn of the clock before a colon. *)
Lemma read_clock_colon turns i n r next :
  0 <= n < 100 -> r <> [] -> (i =? 2) = false ->
  read_clock (S turns) i true (two n ++ 58 :: r) next =
  '(vs, us, more) ← read_clock turns (i + 1) true r next; Some (n :: vs, us, more).
Proof.
  intros Hn Hr Hi. cbn [read_clock]. rewrite field_two by done. cbn [mbind option_bind].
  destruct r as [|x r]; [done|]. destruct (i =? 0); rewrite Hi; reflexivity.
Qed.

Lemma read_clock_last turns i n next : 0 <= n < 100 -> read_clock (S turns) i true (two n) next = Some ([n], 0, negb (next =? 0)).
Proof. intros Hn. rewrite <- (app_nil_r (two n)). cbn [read_clock]. by rewrite field_two. Qed.

Definition fraction_text (us : Z) : pystr := u "." ++ pad_zeros 6 (str_of_nonneg 10 us).

Lemma read_clock_fraction turns n us next :
  0 <= n < 100 -> 0 <= us < 1000000 ->
  read_clock (S turns) 2 true (two n ++ fraction_text us) next = Some ([n], us, negb (next =? 0)).
Proof.
  intros Hn Hus. destruct (padded_text 5 us) as [Hl _]; [cbn; lia|].
  cbn [read_clock]. rewrite field_two by done. cbn [mbind option_bind]. unfold fraction_text. change (u ".") with [46]. cbn [app].
  pose proof (field_padded 5 us [] ltac:(cbn; lia)) as Hf. rewrite app_nil_r in Hf.
  unfold read_fraction. rewrite Hl.
  destruct (pad_zeros 6 (str_of_nonneg 10 us)) as [|x r]; [done|]. cbn [Z.eqb Pos.eqb andb orb Z.ltb Z.compare Pos.compare Pos.compare_cont].
  change (Nat.min 6 6) with 6%nat. rewrite Hf. cbn [mbind option_bind leading_digits app char_at nth].
  replace (us * 10 ^ (6 - Z.of_nat 6)) with us by (cbn; lia). reflexivity.
Qed.

(** The text of the seconds, of [time] and of [utcoffset]. *)
Definition seconds_text (s us : Z) : pystr := u ":" ++ two s ++ (if us =? 0 then [] else fraction_text us).

Lemma read_seconds h mi s us next :
  0 <= h < 100 -> 0 <= mi < 100 -> 0 <= s < 100 -> 0 <= us < 1000000 ->
  read_hh_mm_ss_ff (two h ++ u ":" ++ two mi ++ seconds_text s us) next = Some (h, mi, s, us, negb (next =? 0)).
Proof.
  intros Hh Hm Hs Hus. unfold read_hh_mm_ss_ff, seconds_text. change (u ":") with [58]. cbn [app].
  destruct (two_text mi Hm) as (m1 & m2 & Em & _). destruct (two_text s Hs) as (s1 & s2 & Es & _).
  rewrite read_clock_colon by (done || by rewrite Em). rewrite read_clock_colon by (done || by rewrite Es). cbn [Z.add Pos.add].
  destruct (Z.eqb_spec us 0) as [->|Hne]; [rewrite app_nil_r, read_clock_last by done|rewrite read_clock_fraction by done]; reflexivity.
Qed.

Lemma read_minutes h mi next :
  0 <= h < 100 -> 0 <= mi < 100 -> read_hh_mm_ss_ff (two h ++ u ":" ++ two mi) next = Some (h, mi, 0, 0, negb (next =? 0)).
Proof.
  intros Hh Hm. unfold read_hh_mm_ss_ff. change (u ":") with [58]. cbn [app]. destruct (two_text mi Hm) as (m1 & m2 & Em & _).
  rewrite read_clock_colon by (done || by rewrite Em). by rewrite read_clock_last.
Qed.

(** An offset of less than a second but zero is lost: [utcoffset] writes it, and reading
    takes its zero seconds for UTC. *)
Definition offset_readable (o : Z) : Prop := o = 0 \/ 1000000 <= Z.abs o.

Lemma read_offset_text o :
  - DAY_US < o < DAY_US -> offset_readable o -> read_offset (offset_text o) = Some o /\
  exists sign r, offset_text o = sign :: r /\ (sign = 43 \/ sign = 45).
Proof.
  unfold DAY_US. intros Ho Hr. unfold offset_text. set (s := Z.abs o / 1000000). set (us := Z.abs o mod 1000000).
  pose proof (div_parts (Z.abs o) 1000000 ltac:(lia)) as Ha. fold s us in Ha.
  pose proof (div_parts s 60 ltac:(lia)) as Hs. pose proof (div_parts (s / 60) 60 ltac:(lia)) as Hm.
  assert (s / 60 / 60 = s / 3600) as E by (rewrite Z.div_div by lia; reflexivity). rewrite E in Hm.
  set (tail := if negb (us =? 0) then _ else _).
  assert (read_hh_mm_ss_ff (two (s / 3600) ++ u ":" ++ two (s / 60 mod 60) ++ tail) 0 =
          Some (s / 3600, s / 60 mod 60, s mod 60, us, false)) as Hread.
  { unfold tail. destruct (Z.eqb_spec us 0) as [Hu|Hu]; cbn [negb].
    - destruct (Z.eqb_spec (s mod 60) 0) as [Hz|Hz]; cbn [negb].
      + rewrite app_nil_r, read_minutes, Hz, Hu by lia. reflexivity.
      + pose proof (read_seconds (s / 3600) (s / 60 mod 60) (s mod 60) 0 0) as Hsec. unfold seconds_text in Hsec.
        rewrite app_nil_r in Hsec. rewrite Hsec, Hu by lia. reflexivity.
    - pose proof (read_seconds (s / 3600) (s / 60 mod 60) (s mod 60) us 0) as Hsec. unfold seconds_text, fraction_text in Hsec.
      rewrite (proj2 (Z.eqb_neq us 0) Hu) in Hsec. rewrite Hsec by lia. reflexivity. }
  destruct (Z.ltb_spec o 0) as [Hneg|Hneg]; change (u "-") with [45]; change (u "+") with [43]; cbn [app read_offset];
    (split; [|eexists _, _; split; [reflexivity|tauto]]); rewrite Hread; cbn [mbind option_bind];
    replace (s / 3600 * 3600 + s / 60 mod 60 * 60 + s mod 60) with s by lia.
  - destruct (Z.eqb_spec s 0) as [Hz|Hz]; [exfalso; unfold offset_readable in Hr; lia|]. cbn [Z.eqb Pos.eqb]. f_equal. lia.
  - destruct (Z.eqb_spec s 0) as [Hz|Hz]; [f_equal; unfold offset_readable in Hr; lia|]. cbn [Z.eqb Pos.eqb]. f_equal. lia.
Qed.

(** Where no sign and no "Z" is, no offset starts. *)
Lemma split_offset_app t o :
  Forall (fun c => c <> 43 /\ c <> 45 /\ c <> 90) t -> (o = [] \/ exists sign r, o = sign :: r /\ (sign = 43 \/ sign = 45)) ->
  split_offset (t ++ o) = (t, o).
Proof.
  intros Ht Ho. induction Ht as [|c t (Hp & Hm & Hz) _ IH].
  - destruct Ho as [->|(sign & r & -> & [->| ->])]; reflexivity.
  - cbn [app split_offset]. rewrite (proj2 (Z.eqb_neq c 43)), (proj2 (Z.eqb_neq c 45)), (proj2 (Z.eqb_neq c 90)) by done.
    cbn [orb]. by rewrite IH.
Qed.

Lemma encode_ascii_text s : Forall (fun c => c < 128) s -> encode_utf8 (sanitize s) = Ok s.
Proof.
  intros Hs. assert (forall i, surrogate_at s i = false) as Hn.
  { intros i. unfold surrogate_at, char_at. destruct (nth_in_or_default i s 0) as [Hin|E]; [|by rewrite E].
    apply (Forall_at _ _ _ Hs) in Hin as Hc || (apply list_elem_of_In in Hin; pose proof (Forall_at _ _ _ Hs Hin) as Hc).
    cbn beta in Hc. rewrite (proj2 (Z.leb_gt 55296 (nth i s 0))) by lia. reflexivity. }
  assert (sanitize s = s) as -> by (unfold sanitize; cbn [List.find]; by rewrite !Hn). unfold encode_utf8.
  assert (existsb (fun c => (55296 <=? c) && (c <=? 57343)) s = false) as ->.
  { clear Hn. induction Hs as [|c s Hc _ IH]; [done|]. cbn [existsb]. by rewrite (proj2 (Z.leb_gt 55296 c)) by lia. }
  f_equal. clear Hn. induction Hs as [|c s Hc _ IH]; [done|]. cbn [flat_map]. unfold encode_utf8_char at 1.
  by rewrite (proj2 (Z.ltb_lt c 128)), IH by lia.
Qed.

(** Digits and the marks of a time. *)
Definition time_char (c : Z) : Prop := 48 <= c <= 57 \/ c = 58 \/ c = 46.

Lemma two_chars n : 0 <= n < 100 -> Forall time_char (two n).
Proof. intros Hn. destruct (two_text n Hn) as (a & b & -> & Ha & Hb). apply Forall_cons; split; [by left|]. apply Forall_cons; split; [by left|done]. Qed.

Lemma seconds_chars s us : 0 <= s < 100 -> 0 <= us < 1000000 -> Forall time_char (seconds_text s us).
Proof.
  intros Hs Hus. unfold seconds_text. change (u ":") with [58]. cbn [app]. constructor; [right; by left|]. apply Forall_app. split; [by apply two_chars|].
  destruct (us =? 0); [done|]. unfold fraction_text. change (u ".") with [46]. cbn [app]. constructor; [by right; right|].
  eapply Forall_impl; [apply (padded_text 5 us); cbn; lia|]. intros c Hc. by left.
Qed.

Lemma offset_chars o : - DAY_US < o < DAY_US -> Forall (fun c => c < 128) (offset_text o).
Proof.
  unfold DAY_US. intros Ho. unfold offset_text. set (s := Z.abs o / 1000000). set (us := Z.abs o mod 1000000).
  pose proof (div_parts (Z.abs o) 1000000 ltac:(lia)) as Ha. fold s us in Ha.
  pose proof (div_parts s 60 ltac:(lia)) as Hs. pose proof (div_parts (s / 60) 60 ltac:(lia)) as Hm.
  assert (s / 60 / 60 = s / 3600) as E by (rewrite Z.div_div by lia; reflexivity). rewrite E in Hm.
  assert (forall n, 0 <= n < 100 -> Forall (fun c => c < 128) (two n)) as Htwo.
  { intros n Hn. eapply Forall_impl; [by apply two_chars|]. unfold time_char. lia. }
  change (u "-") with [45]. change (u "+") with [43]. change (u ":") with [58]. change (u ".") with [46].
  assert (Forall (fun c => c < 128) (pad_zeros 6 (str_of_nonneg 10 us))) as Hus.
  { eapply Forall_impl; [apply (padded_text 5 us); cbn; lia|]. cbn beta. lia. }
  repeat match goal with
    | |- Forall _ (_ ++ _) => apply Forall_app; split
    | |- Forall _ (_ :: _) => apply Forall_cons; split; [lia|]
    | |- Forall _ [] => apply Forall_nil_2
    | |- Forall _ (if ?b then _ else _) => destruct b
    | |- Forall _ (two _) => apply Htwo; lia
    | |- _ => exact Hus
    end.
Qed.

(** The date of a text that starts with one. *)
Lemma date_text_read y m d rest :
  0 <= y <= 9999 -> 0 <= m < 100 -> 0 <= d < 100 ->
  let b := pad_zeros 4 (str_of_nonneg 10 y) ++ 45 :: two m ++ 45 :: two d ++ rest in
  rest <> [] -> date_end b = Some 10%nat /\ read_date b 10 = Some (y, m, d) /\ drop 10 b = rest /\ (10 < length b)%nat.
Proof.
  intros Hy Hm Hd b Hrest. destruct (padded_text 3 y) as [Hl _]; [cbn; lia|].
  destruct (two_text m Hm) as (m1 & m2 & Em & Hm1 & _). destruct (two_text d Hd) as (d1 & d2 & Ed & _).
  split_and!.
  - unfold date_end, b. destruct (pad_zeros 4 (str_of_nonneg 10 y)) as [|y1 [|y2 [|y3 [|y4 [|]]]]]; try done.
    rewrite Em, Ed. cbn [app length]. unfold char_at. cbn [nth]. rewrite (proj2 (Z.eqb_neq m1 87)) by lia. reflexivity.
  - unfold read_date, b. rewrite (field_padded 3) by (cbn; lia). cbn [mbind option_bind char_at nth Z.eqb Pos.eqb skip_if skip_char].
    assert (skip_char 87 (two m ++ 45 :: two d ++ rest) = None) as ->.
    { rewrite Em. cbn [app skip_char]. by rewrite (proj2 (Z.eqb_neq m1 87)) by lia. }
    rewrite field_two by done. cbn [mbind option_bind skip_char Z.eqb Pos.eqb]. by rewrite field_two.
  - unfold b. destruct (pad_zeros 4 (str_of_nonneg 10 y)) as [|y1 [|y2 [|y3 [|y4 [|]]]]]; try done. by rewrite Em, Ed.
  - unfold b. rewrite length_app, Hl, Em, Ed. cbn [app length]. destruct rest; [done|]. cbn [length]. lia.
Qed.

(** What [isoformat] writes is read back, but for an offset below a second. *)
Theorem isoformat_roundtrip t :
  datetime_valid t = true -> (forall o, dt_offset t = Some o -> offset_readable o) -> fromisoformat (isoformat t) = Ok t.
Proof.
  intros Hv Hread. pose proof Hv as Hv0. unfold datetime_valid in Hv. rewrite !andb_true_iff in Hv.
  destruct Hv as [[[[[[[[[[[[[[Hy1 Hy2] Hm1] Hm2] Hd1] Hd2] Hh1] Hh2] Hi1] Hi2] Hs1] Hs2] Hu1] Hu2] Ho]. reflect_bools.
  pose proof (month_days (is_leap (dt_year t)) (dt_month t) ltac:(lia)) as Hmd.
  assert (0 <= dt_month t < 100 /\ 0 <= dt_day t < 100 /\ 0 <= dt_hour t < 100 /\ 0 <= dt_minute t < 100 /\ 0 <= dt_second t < 100)
    as (Hm & Hd & Hh & Hi & Hs) by lia.
  set (clock := two (dt_hour t) ++ u ":" ++ two (dt_minute t) ++ seconds_text (dt_second t) (dt_us t)).
  set (offset := match dt_offset t with Some o => offset_text o | None => [] end).
  assert (isoformat t = pad_zeros 4 (str_of_nonneg 10 (dt_year t)) ++ 45 :: two (dt_month t) ++ 45 :: two (dt_day t) ++ 84 :: clock ++ offset) as ->.
  { unfold isoformat, clock, offset, seconds_text, fraction_text. change (u "-") with [45]. change (u "T") with [84]. change (u ":") with [58].
    cbn [app]. repeat (rewrite <- app_assoc; cbn [app]). reflexivity. }
  assert (Forall time_char clock) as Hclock.
  { unfold clock. change (u ":") with [58]. cbn [app]. apply Forall_app; split; [by apply two_chars|].
    apply Forall_cons; split; [right; by left|]. apply Forall_app; split; [by apply two_chars|apply seconds_chars; lia]. }
  assert (Forall (fun c => c < 128) offset) as Hoffset.
  { unfold offset. destruct (dt_offset t) as [o|]; [|done]. apply offset_chars. reflect_bools. lia. }
  destruct (padded_text 3 (dt_year t)) as [Hl Hdigits]; [cbn; lia|].
  set (b := pad_zeros 4 _ ++ _).
  assert (Forall (fun c => c < 128) b) as Hb.
  { assert (forall l, Forall time_char l -> Forall (fun c => c < 128) l) as Hlow
      by (intros l Hc; eapply Forall_impl; [exact Hc|unfold time_char; lia]).
    unfold b. apply Forall_app; split; [eapply Forall_impl; [exact Hdigits|cbn beta; lia]|].
    apply Forall_cons; split; [lia|]. apply Forall_app; split; [by apply Hlow, two_chars|].
    apply Forall_cons; split; [lia|]. apply Forall_app; split; [by apply Hlow, two_chars|].
    apply Forall_cons; split; [lia|]. apply Forall_app; split; [by apply Hlow|done]. }
  destruct (date_text_read (dt_year t) (dt_month t) (dt_day t) (84 :: clock ++ offset)) as (He & Hrd & Hdrop & Hlen); [lia|done|done|done|].
  fold b in He, Hrd, Hdrop, Hlen.
  unfold fromisoformat, parse_isoformat. rewrite (proj2 (Nat.ltb_ge (length b) 7)) by lia. rewrite encode_ascii_text by done.
  cbn [mbind option_bind]. rewrite He. cbn [mbind option_bind]. rewrite Hrd. cbn [mbind option_bind].
  rewrite (proj2 (Nat.ltb_lt 10 (length b)) Hlen), Hdrop. cbn [char_at nth]. change (utf8_width 84) with 1%nat. cbn [drop]. rewrite drop_0.
  assert (read_time (clock ++ offset) = Some (dt_hour t, dt_minute t, dt_second t, dt_us t, dt_offset t)) as ->.
  { assert (offset = [] \/ exists sign r, offset = sign :: r /\ (sign = 43 \/ sign = 45)) as Hsign.
    { unfold offset. destruct (dt_offset t) as [o|]; [right|by left].
      apply read_offset_text; [unfold DAY_US in *; reflect_bools; lia|by apply Hread]. }
    unfold read_time. rewrite split_offset_app; [|eapply Forall_impl; [exact Hclock|unfold time_char; lia]|exact Hsign].
    unfold clock. rewrite read_seconds by lia. cbn [mbind option_bind]. clear Hsign. unfold offset.
    destruct (dt_offset t) as [o|]; [|reflexivity].
    destruct (read_offset_text o) as [Hro (sign & r & E & Hsg)]; [unfold DAY_US in *; reflect_bools; lia|by apply Hread|].
    rewrite E in *. by rewrite Hro. }
  cbn [mbind option_bind].
  replace (mkTime (dt_year t) (dt_month t) (dt_day t) (dt_hour t) (dt_minute t) (dt_second t) (dt_us t) (dt_offset t)) with t by by destruct t.
  by rewrite Hv0.
Qed.
