(* ===== verification/PublicRead.v ===== *)
(** * One-time grants for public reads: [public_read] and [execute_a07] of [tools/mezo_acceptance]

    A grant names one request to one address, a time after which it is void, and a
    journal: a private directory in which the grant is marked as consumed before
    anything is sent.  Here are the checks of a grant and of what a read observed, as
    functions, and the operations on the journal and on the network, as programs. *)

From S2P Require Import Prelude PyStr Num PyObj Json Bytes EvidenceIo Calendar IsoTime Store Programs.
Open Scope Z_scope.

(** ** The standard library *)

(** [urlsplit]: the parts of a URL; the port is converted when it is asked for. *)
Record url_parts := mkParts {
  up_scheme : pystr; up_username : option pystr; up_password : option pystr; up_port : result (option Z);
  up_hostname : option pystr; up_path : pystr; up_query : pystr }.

(** Its treatment of brackets and of text beyond ASCII, and [is_global] of an address
    ([None] for a text that is none), depend on the interpreter's tables. *)
Class UrlLibrary := urlsplit : pystr -> result url_parts.
Class AddressTables := address_global : pystr -> option bool.

(** [s.replace("Z", "+00:00")] and [s.replace("+00:00", "Z")] *)
Definition zulu_to_offset (s : pystr) : pystr := flat_map (fun c => if c =? 90 then u "+00:00" else [c]) s.

Fixpoint offset_to_zulu (fuel : nat) (s : pystr) : pystr :=
  match fuel, s with
  | S fuel, c :: r =>
    if str_startswith (u "+00:00") s then 90 :: offset_to_zulu fuel (drop 6 s) else c :: offset_to_zulu fuel r
  | _, _ => s
  end.

Example offset_to_zulu_ex : offset_to_zulu 8 (u "1+00:00b") = u "1Zb". Proof. reflexivity. Qed.

(** [OID.fullmatch(x)] and [DIGEST.fullmatch(x)] *)
Definition hex_of_length (n : nat) (s : pystr) : bool := (length s =? n)%nat && forallb lower_hex s.
Definition OID : pystr -> bool := hex_of_length 40.
Definition DIGEST : pystr -> bool := hex_of_length 64.

(** [isinstance(x, str) and test(x)] *)
Definition str_and (test : pystr -> bool) (x : json) : bool := match x with JStr s => test s | _ => false end.

(** [str(uuid.UUID(s)) == s]; a text that is no UUID raises the [ValueError] that every
    caller turns into the same refusal. *)
Definition is_uuid (s : pystr) : bool := match uuid_parse s with Ok n => str_eqb (uuid_str n) s | Raise _ => false end.

(** [hashlib.sha256(json.dumps(x, sort_keys=True, separators=(",", ":")).encode()).hexdigest()] *)
Definition json_sha256 (x : json) : result pystr := text ← json_dumps x; Ok (sha256_hex text).

Definition MINUTES_15 : Z := 900000000.

(** [now + timedelta(minutes=15)] of a time in UTC. *)
Definition in_15_minutes (now : Z) : result Z :=
  raise_if ((MAX_ORDINAL + 1) * DAY_US <=? now + MINUTES_15) OverflowError "date value out of range" ;; Ok (now + MINUTES_15).

Definition grant_if (b : bool) (code : string) : result unit := raise_if b GrantError code.

(** ** [PublicReadPlan] and [PublicReadGrant] *)

Record PublicReadPlan := mkReadPlan {
  pl_case : pystr; pl_method : pystr; pl_url : pystr; pl_body : bytes;
  pl_timeout_seconds : Z; pl_max_response_bytes : Z; pl_maximum_attempts : Z }.

Definition plan_body_sha256 (plan : PublicReadPlan) : pystr := sha256_hex (pl_body plan).

Definition plan_digest (plan : PublicReadPlan) : result pystr := json_sha256 (JDict
  [(u "case", JStr (pl_case plan)); (u "method", JStr (pl_method plan)); (u "url", JStr (pl_url plan));
   (u "body_sha256", JStr (plan_body_sha256 plan)); (u "timeout_seconds", JInt (pl_timeout_seconds plan));
   (u "max_response_bytes", JInt (pl_max_response_bytes plan)); (u "maximum_attempts", JInt (pl_maximum_attempts plan))]).

Record PublicReadGrant := mkGrant {
  gr_grant_id : pystr; gr_journal_id : pystr; gr_journal_sha256 : pystr; gr_subject_commit : pystr;
  gr_subject_tree : pystr; gr_plan_sha256 : pystr; gr_case : pystr; gr_method : pystr; gr_url : pystr;
  gr_expires_at : datetime; gr_maximum_attempts : Z; gr_timeout_seconds : Z; gr_max_response_bytes : Z;
  gr_body_sha256 : pystr }.

Definition ALLOWED : list (pystr * pystr * pystr) :=
  [(u "A07", u "POST", u "https://api.hyperliquid.xyz/info");
   (u "A07", u "LOCAL_POST", u "https://source.invalid/internal/v1/reports");
   (u "A29", u "GIT_CLONE", u "https://github.com/Dimkox/liqvera.git")].

Definition FIELDS : list pystr := map u
  ["schema"; "grant_id"; "journal_id"; "journal_sha256"; "subject_commit"; "subject_tree"; "plan_sha256"; "case";
   "method"; "url"; "expires_at"; "maximum_attempts"; "timeout_seconds"; "max_response_bytes"; "body_sha256"]%string.

Definition AMBIENT_AUTHORITY : list pystr := map u
  ["HTTP_PROXY"; "HTTPS_PROXY"; "ALL_PROXY"; "NO_PROXY"; "http_proxy"; "https_proxy"; "all_proxy"; "no_proxy"; "NETRC"]%string.

Definition text_of (x : json) : pystr := match x with JStr s => s | _ => [] end.
Definition int_of (x : json) : Z := match x with JInt z => z | _ => 0 end.
Definition is_text (x : json) : bool := match x with JStr _ => true | _ => false end.
Definition is_int (x : json) : bool := match x with JInt _ => true | _ => false end.

(** [parsed.port not in (None, 443)] *)
Definition other_port (port : option Z) : bool := match port with Some p => negb (p =? 443) | None => false end.
Definition given (x : option pystr) : bool := match x with Some s => negb (str_eqb s []) | None => false end.

(** The time a grant ends, which has an offset. *)
Definition moment (t : datetime) : Z := default 0 (instant_us t).

(** [PublicReadGrant.parse] *)
Definition parse_grant `{UnicodeTables} `{UrlLibrary} (raw : json) (now : Z) : result PublicReadGrant :=
  d ← match raw with JDict d => Ok d | _ => raise GrantError "PUBLIC_READ_GRANT_INVALID" end;
  grant_if (negb (keys_equal d FIELDS) || negb (json_is (json_get (u "schema") d) (u "liqvera-public-read-grant/v1")))
    "PUBLIC_READ_GRANT_INVALID" ;;
  let value k := json_get (u k) d in
  let text k := text_of (value k) in
  grant_if (negb (str_and is_uuid (value "grant_id"))) "PUBLIC_READ_GRANT_INVALID" ;;
  grant_if (negb (str_and is_uuid (value "journal_id"))) "PUBLIC_READ_GRANT_INVALID" ;;
  grant_if (negb (str_and DIGEST (value "journal_sha256"))) "PUBLIC_READ_GRANT_INVALID" ;;
  grant_if (negb (str_and OID (value "subject_commit") && str_and OID (value "subject_tree") && str_and DIGEST (value "plan_sha256")))
    "PUBLIC_READ_GRANT_INVALID" ;;
  grant_if (negb (is_text (value "case") && is_text (value "method") && is_text (value "url"))) "PUBLIC_READ_GRANT_INVALID" ;;
  parsed ← urlsplit (text "url");
  grant_if (negb (str_eqb (up_scheme parsed) (u "https"))) "PUBLIC_READ_TLS_REQUIRED" ;;
  grant_if (given (up_username parsed) || given (up_password parsed)) "PUBLIC_READ_DESTINATION_FORBIDDEN" ;;
  port ← up_port parsed;
  grant_if (other_port port || negb (bool_decide ((text "case", text "method", text "url") ∈ ALLOWED)))
    "PUBLIC_READ_DESTINATION_FORBIDDEN" ;;
  expires ← try_except (s ← json_str (value "expires_at"); fromisoformat (zulu_to_offset s)) [ValueError; TypeError]
    (fun _ => raise GrantError "PUBLIC_READ_GRANT_INVALID");
  grant_if (match dt_offset expires with None => true | Some _ => moment expires <=? now end) "PUBLIC_READ_GRANT_EXPIRED" ;;
  latest ← in_15_minutes now;
  grant_if (latest <? moment expires) "PUBLIC_READ_GRANT_EXPIRED" ;;
  let maximum_bytes := if str_eqb (text "case") (u "A29") then 52428800 else 2097152 in
  let limit k := int_of (value k) in
  grant_if (negb (is_int (value "maximum_attempts") && is_int (value "timeout_seconds") && is_int (value "max_response_bytes")) ||
            negb ((limit "maximum_attempts" =? 1) && (1 <=? limit "timeout_seconds") && (limit "timeout_seconds" <=? 15) &&
                  (1 <=? limit "max_response_bytes") && (limit "max_response_bytes" <=? maximum_bytes)))
    "PUBLIC_READ_GRANT_INVALID" ;;
  grant_if (negb (str_and DIGEST (value "body_sha256"))) "PUBLIC_READ_GRANT_INVALID" ;;
  Ok (mkGrant (text "grant_id") (text "journal_id") (text "journal_sha256") (text "subject_commit") (text "subject_tree")
        (text "plan_sha256") (text "case") (text "method") (text "url") expires (limit "maximum_attempts")
        (limit "timeout_seconds") (limit "max_response_bytes") (text "body_sha256")).

Definition grant_document (grant : PublicReadGrant) : json :=
  let expires := isoformat (gr_expires_at grant) in JDict
  [(u "schema", JStr (u "liqvera-public-read-grant/v1")); (u "grant_id", JStr (gr_grant_id grant));
   (u "journal_id", JStr (gr_journal_id grant)); (u "journal_sha256", JStr (gr_journal_sha256 grant));
   (u "subject_commit", JStr (gr_subject_commit grant)); (u "subject_tree", JStr (gr_subject_tree grant));
   (u "plan_sha256", JStr (gr_plan_sha256 grant)); (u "case", JStr (gr_case grant)); (u "method", JStr (gr_method grant));
   (u "url", JStr (gr_url grant)); (u "expires_at", JStr (offset_to_zulu (length expires) expires));
   (u "maximum_attempts", JInt (gr_maximum_attempts grant)); (u "timeout_seconds", JInt (gr_timeout_seconds grant));
   (u "max_response_bytes", JInt (gr_max_response_bytes grant)); (u "body_sha256", JStr (gr_body_sha256 grant))].

Definition grant_digest (grant : PublicReadGrant) : result pystr := json_sha256 (grant_document grant).

(** [grant.authorize(plan, ...)] *)
Definition authorize (grant : PublicReadGrant) (plan : PublicReadPlan) (subject_commit subject_tree : pystr) (now : Z) : result unit :=
  grant_if (moment (gr_expires_at grant) <=? now) "PUBLIC_READ_GRANT_EXPIRED" ;;
  digest ← plan_digest plan;
  grant_if (negb (bool_decide
    ((subject_commit, subject_tree, digest, pl_case plan, pl_method plan, pl_url plan, pl_maximum_attempts plan,
      pl_timeout_seconds plan, pl_max_response_bytes plan, plan_body_sha256 plan) =
     (gr_subject_commit grant, gr_subject_tree grant, gr_plan_sha256 grant, gr_case grant, gr_method grant, gr_url grant,
      gr_maximum_attempts grant, gr_timeout_seconds grant, gr_max_response_bytes grant, gr_body_sha256 grant))))
    "PUBLIC_READ_GRANT_MISMATCH".

(** [grant.validate_resolution(before, connected)] *)
Definition validate_resolution `{AddressTables} (before connected : list pystr) : result unit :=
  grant_if (bool_decide (before = []) || negb (forallb (fun a => bool_decide (a ∈ connected)) before &&
                                              forallb (fun a => bool_decide (a ∈ before)) connected))
    "PUBLIC_READ_DNS_REBINDING" ;;
  foldM (fun _ value =>
    address ← expect (address_global value) GrantError "PUBLIC_READ_PRIVATE_ADDRESS";
    grant_if (negb address) "PUBLIC_READ_PRIVATE_ADDRESS") tt before.

(** ** [validate_public_read_evidence] *)

Definition ambient (environ : list pystr) : bool := existsb (fun name => bool_decide (name ∈ environ)) AMBIENT_AUTHORITY.

Definition EVIDENCE_FIELDS : list pystr := map u
  ["status"; "final_url"; "response_bytes"; "response_sha256"; "resolved_addresses"; "connected_address"; "attempts"]%string.

Definition validate_public_read_evidence `{AddressTables} (grant : PublicReadGrant) (raw : json) (environ : list pystr) (now : Z)
  : result (list (pystr * json)) :=
  grant_if (ambient environ) "PUBLIC_READ_AMBIENT_AUTHORITY" ;;
  grant_if (moment (gr_expires_at grant) <=? now) "PUBLIC_READ_GRANT_EXPIRED" ;;
  d ← match raw with JDict d => Ok d | _ => raise GrantError "PUBLIC_READ_EVIDENCE_INVALID" end;
  let value k := json_get (u k) d in
  grant_if (negb (keys_equal d EVIDENCE_FIELDS) || negb (py_eq (value "status") (JInt 200))) "PUBLIC_READ_EVIDENCE_INVALID" ;;
  grant_if (negb (py_eq (value "final_url") (JStr (gr_url grant)))) "PUBLIC_READ_REDIRECT_BLOCKED" ;;
  let size := value "response_bytes" in
  let attempts := value "attempts" in
  grant_if (negb (is_int size) || (int_of size <? 0) || (gr_max_response_bytes grant <? int_of size)) "PUBLIC_READ_RESPONSE_TOO_LARGE" ;;
  grant_if (negb (is_int attempts) || (int_of attempts <? 1) || (gr_maximum_attempts grant <? int_of attempts) ||
            negb (str_and DIGEST (value "response_sha256"))) "PUBLIC_READ_EVIDENCE_INVALID" ;;
  addresses ← match value "resolved_addresses" with
              | JList l => Ok l
              | _ => raise GrantError "PUBLIC_READ_EVIDENCE_INVALID" end;
  grant_if (negb (forallb is_text addresses && is_text (value "connected_address"))) "PUBLIC_READ_EVIDENCE_INVALID" ;;
  validate_resolution (map text_of addresses) [text_of (value "connected_address")] ;;
  Ok [(u "case", JStr (gr_case grant)); (u "method", JStr (gr_method grant)); (u "url", JStr (gr_url grant));
      (u "status", JInt 200); (u "response_bytes", size); (u "response_sha256", value "response_sha256");
      (u "attempts", attempts)].

(** ** The journal *)

(** What [lstat] says of a file: its kind, its permission bits and its links. *)
Record file_status := mkStatusOf { fs_kind : kind; fs_mode : Z; fs_links : Z }.

(** The calls: on the directory of the journal and its files, the clock, the resolver,
    the one connection of a read, and the two processes of the harness. *)
Inductive event : Type -> Type :=
  | Now : event Z
  | LstatDirectory : event file_status
  | LstatFile (name : pystr) : event file_status
  | ReadFile (name : pystr) : event bytes
  | CreateFile (name : pystr) : event unit
  | WriteFile (name : pystr) (raw : bytes) : event unit
  | SyncFile (name : pystr) : event unit
  | CloseFile (name : pystr) : event unit
  | OpenDirectory : event unit
  | SyncDirectory : event unit
  | CloseDirectory : event unit
  | Resolve (host : option pystr) : event (list pystr)
  | Request (host : option pystr) (address : pystr) (timeout : Z) (method path : pystr) (body : bytes) : event unit
  | GetResponse : event Z
  | ReadResponse (n : Z) : event bytes
  | CloseClient : event unit
  | RunBuild : event (Z * pystr)
  | RunHarness : event (Z * pystr * pystr).

Definition journal_document (journal_id : pystr) : result bytes :=
  grant_if (negb (is_uuid journal_id)) "PUBLIC_READ_JOURNAL_INVALID" ;;
  text ← json_dumps (JDict [(u "schema", JStr (u "liqvera-public-read-journal/v1")); (u "journal_id", JStr journal_id)]);
  Ok (text ++ [10]).

(** The calls after a file was created in the directory. *)
Definition write_durably (name : pystr) (raw : bytes) : prog event unit :=
  prog_finally (do (WriteFile name raw) ;; do (SyncFile name)) (do (CloseFile name)) ;;
  do OpenDirectory ;;
  prog_finally (do SyncDirectory) (do CloseDirectory).

Definition check_state_dir : prog event unit :=
  info ← do LstatDirectory;
  lift (grant_if (negb (bool_decide (fs_kind info = KDirectory) && (fs_mode info =? 448))) "PUBLIC_READ_STATE_DIR_INVALID").

Definition JOURNAL : pystr := u "journal.json".

Definition initialize_public_read_journal (journal_id : pystr) : prog event pystr :=
  check_state_dir ;;
  raw ← lift (journal_document journal_id);
  do (CreateFile JOURNAL) ;;
  write_durably JOURNAL raw ;;
  Done (Ok (sha256_hex raw)).

Definition validate_public_read_journal (journal_id journal_sha256 : pystr) : prog event pystr :=
  info ← do (LstatFile JOURNAL);
  lift (grant_if (negb (bool_decide (fs_kind info = KFile) && (fs_links info =? 1) && (fs_mode info =? 256))) "PUBLIC_READ_JOURNAL_INVALID") ;;
  raw ← do (ReadFile JOURNAL);
  expected ← lift (journal_document journal_id);
  lift (grant_if (negb (bool_decide (raw = expected)) || negb (str_eqb (sha256_hex raw) journal_sha256)) "PUBLIC_READ_JOURNAL_MISMATCH") ;;
  Done (Ok (sha256_hex raw)).

(** The name of the marker of a consumed grant. *)
Definition grant_marker (grant : PublicReadGrant) : result pystr :=
  digest ← grant_digest grant;
  raw ← encode_utf8 (gr_grant_id grant ++ [58] ++ digest);
  Ok (sha256_hex raw).

Definition consume_public_read_grant (grant : PublicReadGrant) : prog event pystr :=
  check_state_dir ;;
  identity ← validate_public_read_journal (gr_journal_id grant) (gr_journal_sha256 grant);
  marker ← lift (grant_marker grant);
  prog_except (do (CreateFile marker)) [FileExistsError] (fun _ => lift (raise GrantError "PUBLIC_READ_GRANT_ALREADY_CONSUMED")) ;;
  digest ← lift (grant_digest grant);
  write_durably marker (digest ++ [10]) ;;
  Done (Ok identity).

(** ** [execute_public_read] *)

Definition check_now (grant : PublicReadGrant) : prog event unit :=
  now ← do Now; lift (grant_if (moment (gr_expires_at grant) <=? now) "PUBLIC_READ_GRANT_EXPIRED").

(** The chunks of the response after [size] bytes of it; a turn takes one byte at least,
    so [limit + 1] turns are enough. *)
Fixpoint read_chunks (turns : nat) (limit size : Z) : prog event bytes :=
  match turns with
  | O => Done (raise RuntimeError "turns")
  | S turns =>
    chunk ← do (ReadResponse (Z.min 65536 (limit - size + 1)));
    if bool_decide (chunk = []) then Done (Ok [])
    else
      let size := size + zlength chunk in
      lift (grant_if (limit <? size) "PUBLIC_READ_RESPONSE_TOO_LARGE") ;;
      rest ← read_chunks turns limit size;
      Done (Ok (chunk ++ rest))
  end.

Definition request_path (parsed : url_parts) : pystr :=
  up_path parsed ++ (if bool_decide (up_query parsed = []) then [] else u "?" ++ up_query parsed).

(** The document of a grant that was used. *)
Definition use_document (reduced : list (pystr * json)) (grant : PublicReadGrant) (plan : PublicReadPlan)
    (subject_commit subject_tree identity : pystr) : result (list (pystr * json)) :=
  grant_sha ← grant_digest grant;
  plan_sha ← plan_digest plan;
  Ok (reduced ++
    [(u "grant_id", JStr (gr_grant_id grant)); (u "grant_digest", JStr grant_sha); (u "plan_sha256", JStr plan_sha);
     (u "subject_commit", JStr subject_commit); (u "subject_tree", JStr subject_tree); (u "state_dir_identity", JStr identity)]).

Definition observed (url : pystr) (raw : bytes) (before : list pystr) (connected : pystr) : json := JDict
  [(u "status", JInt 200); (u "final_url", JStr url); (u "response_bytes", JInt (zlength raw));
   (u "response_sha256", JStr (sha256_hex raw)); (u "resolved_addresses", JList (map JStr before));
   (u "connected_address", JStr connected); (u "attempts", JInt 1)].

(** From the request to the document; the connection is closed however it ends. *)
Definition exchange `{AddressTables} (plan : PublicReadPlan) (grant : PublicReadGrant) (subject_commit subject_tree : pystr)
    (environ : list pystr) (parsed : url_parts) (before : list pystr) (connected identity : pystr)
  : prog event (list (pystr * json)) :=
  do (Request (up_hostname parsed) connected (pl_timeout_seconds plan) (pl_method plan) (request_path parsed) (pl_body plan)) ;;
  status ← do GetResponse;
  lift (grant_if ((300 <=? status) && (status <? 400)) "PUBLIC_READ_REDIRECT_BLOCKED") ;;
  lift (grant_if (negb (status =? 200)) "PUBLIC_READ_HTTP_STATUS") ;;
  raw ← read_chunks (S (Z.to_nat (pl_max_response_bytes plan))) (pl_max_response_bytes plan) 0;
  check_now grant ;;
  now ← do Now;
  reduced ← lift (validate_public_read_evidence grant (observed (pl_url plan) raw before connected) environ now);
  lift (use_document reduced grant plan subject_commit subject_tree identity).

Definition execute_public_read `{UrlLibrary} `{AddressTables} (plan : PublicReadPlan) (grant : PublicReadGrant)
    (subject_commit subject_tree : pystr) (environ : list pystr) : prog event (list (pystr * json)) :=
  now ← do Now;
  lift (authorize grant plan subject_commit subject_tree now) ;;
  lift (grant_if (ambient environ) "PUBLIC_READ_AMBIENT_AUTHORITY") ;;
  parsed ← lift (urlsplit (pl_url plan));
  before ← do (Resolve (up_hostname parsed));
  lift (validate_resolution before before) ;;
  connected ← do (Resolve (up_hostname parsed));
  lift (validate_resolution before connected) ;;
  check_now grant ;;
  identity ← consume_public_read_grant grant;
  address ← lift (expect (head connected) IndexError "tuple index out of range");
  prog_finally (exchange plan grant subject_commit subject_tree environ parsed before address identity) (do CloseClient).

(** ** [execute_a07] of live_cases.py: the same grant, used by a local harness *)

Definition a07_expected : list (pystr * json) :=
  [(u "schema", JStr (u "liqvera-a07-source-unavailable/v1")); (u "adapter", JStr (u "HttpReportService.build"));
   (u "request_count", JInt 1); (u "reason", JStr (u "SOURCE_UNAVAILABLE")); (u "source_mode", JStr (u "live-public"));
   (u "fixture_fallback_used", JBool false); (u "artifact_emitted", JBool false)].

Definition execute_a07 (plan : PublicReadPlan) (grant : PublicReadGrant) (subject_commit subject_tree : pystr)
  : prog event (list (pystr * json)) :=
  now ← do Now;
  lift (authorize grant plan subject_commit subject_tree now) ;;
  identity ← consume_public_read_grant grant;
  build ← do RunBuild;
  lift (grant_if (negb (fst build =? 0)) "A07_HARNESS_BUILD_FAILED") ;;
  completed ← do RunHarness;
  let '(returncode, stdout, stderr) := completed in
  raw ← lift (try_except (json_loads stdout) [JSONDecodeError] (fun _ => raise GrantError "A07_HARNESS_INVALID"));
  lift (grant_if (negb (returncode =? 0) || negb (py_eq raw (JDict a07_expected)) || negb (bool_decide (stderr = [])))
    "A07_SEMANTICS_FAILED") ;;
  document ← lift (use_document a07_expected grant plan subject_commit subject_tree identity);
  stdout_sha ← lift (encode_utf8 stdout);
  build_sha ← lift (encode_utf8 (snd build));
  Done (Ok (document ++ [(u "stdout_sha256", JStr (sha256_hex stdout_sha)); (u "build_stdout_sha256", JStr (sha256_hex build_sha))])).

(** ** What the checks say of what passes them *)

Lemma grant_if_Ok b code x : grant_if b code = Ok x -> b = false.
Proof. unfold grant_if, raise_if. by destruct b. Qed.

Lemma authorize_Ok grant plan commit tree now :
  authorize grant plan commit tree now = Ok tt ->
  now < moment (gr_expires_at grant) /\ plan_digest plan = Ok (gr_plan_sha256 grant) /\
  commit = gr_subject_commit grant /\ tree = gr_subject_tree grant /\
  pl_case plan = gr_case grant /\ pl_method plan = gr_method grant /\ pl_url plan = gr_url grant /\
  pl_maximum_attempts plan = gr_maximum_attempts grant /\ pl_timeout_seconds plan = gr_timeout_seconds grant /\
  pl_max_response_bytes plan = gr_max_response_bytes grant /\ plan_body_sha256 plan = gr_body_sha256 grant.
Proof.
  unfold authorize. intros ([] & Hnow%grant_if_Ok & (digest & Hd & Heq%grant_if_Ok)%bind_Ok)%bind_Ok.
  apply Z.leb_gt in Hnow. apply negb_false_iff, bool_decide_eq_true in Heq. injection Heq as -> -> -> -> -> -> -> -> -> ->.
  by split_and!.
Qed.

Lemma authorize_intro grant plan now :
  now < moment (gr_expires_at grant) -> plan_digest plan = Ok (gr_plan_sha256 grant) ->
  pl_case plan = gr_case grant -> pl_method plan = gr_method grant -> pl_url plan = gr_url grant ->
  pl_maximum_attempts plan = gr_maximum_attempts grant -> pl_timeout_seconds plan = gr_timeout_seconds grant ->
  pl_max_response_bytes plan = gr_max_response_bytes grant -> plan_body_sha256 plan = gr_body_sha256 grant ->
  authorize grant plan (gr_subject_commit grant) (gr_subject_tree grant) now = Ok tt.
Proof.
  intros Hnow Hd E1 E2 E3 E4 E5 E6 E7. unfold authorize. rewrite (proj2 (Z.leb_gt _ _)) by lia.
  cbn [grant_if raise_if mbind result_bind]. rewrite Hd. cbn [mbind result_bind]. rewrite E1, E2, E3, E4, E5, E6, E7.
  by rewrite bool_decide_true.
Qed.

Section evidence.
Context `{AddressTables}.

Lemma validate_resolution_Ok before connected :
  validate_resolution before connected = Ok tt ->
  before <> [] /\ (forall a, a ∈ before <-> a ∈ connected) /\ Forall (fun a => address_global a = Some true) before.
Proof.
  unfold validate_resolution. intros ([] & Hb%grant_if_Ok & Ha)%bind_Ok.
  apply orb_false_iff in Hb as [Hne%bool_decide_eq_false Hb].
  apply negb_false_iff, andb_true_iff in Hb as [Hsub Hsup]. rewrite forallb_forall in Hsub, Hsup. split_and!; [done| |].
  - setoid_rewrite list_elem_of_In. intros a. split.
    + intros Ha1. specialize (Hsub a Ha1). apply bool_decide_eq_true in Hsub. by apply list_elem_of_In.
    + intros Ha2. specialize (Hsup a Ha2). apply bool_decide_eq_true in Hsup. by apply list_elem_of_In.
  - clear -Ha. induction before as [|a l IH]; [done|]. cbn [foldM] in Ha.
    apply bind_Ok in Ha as ([] & (g & Hg%expect_Ok & Hn%grant_if_Ok)%bind_Ok & Ha). apply negb_false_iff in Hn as ->.
    by constructor; [|apply IH].
Qed.

(** The document of a read, of all that was sent. *)
Definition read_document (grant : PublicReadGrant) (plan_sha grant_sha commit tree identity : pystr) (body : bytes) : list (pystr * json) :=
  [(u "case", JStr (gr_case grant)); (u "method", JStr (gr_method grant)); (u "url", JStr (gr_url grant));
   (u "status", JInt 200); (u "response_bytes", JInt (zlength body)); (u "response_sha256", JStr (sha256_hex body));
   (u "attempts", JInt 1);
   (u "grant_id", JStr (gr_grant_id grant)); (u "grant_digest", JStr grant_sha); (u "plan_sha256", JStr plan_sha);
   (u "subject_commit", JStr commit); (u "subject_tree", JStr tree); (u "state_dir_identity", JStr identity)].

Lemma observed_evidence grant url body before connected environ now reduced :
  validate_public_read_evidence grant (observed url body before connected) environ now = Ok reduced ->
  now < moment (gr_expires_at grant) /\ zlength body <= gr_max_response_bytes grant /\
  reduced = [(u "case", JStr (gr_case grant)); (u "method", JStr (gr_method grant)); (u "url", JStr (gr_url grant));
    (u "status", JInt 200); (u "response_bytes", JInt (zlength body)); (u "response_sha256", JStr (sha256_hex body));
    (u "attempts", JInt 1)].
Proof.
  unfold validate_public_read_evidence, observed. cbn [mbind result_bind]. intros He.
  apply bind_Ok in He as ([] & _ & He). apply bind_Ok in He as ([] & Hnow%grant_if_Ok & He).
  apply bind_Ok in He as ([] & _ & He). apply bind_Ok in He as ([] & _ & He). apply bind_Ok in He as ([] & Hsize%grant_if_Ok & He).
  apply bind_Ok in He as ([] & _ & He). apply bind_Ok in He as (l & _ & He).
  apply bind_Ok in He as ([] & _ & He). apply bind_Ok in He as ([] & _ & [= <-]).
  apply Z.leb_gt in Hnow. apply orb_false_iff in Hsize as [_ Hsize%Z.ltb_ge]. by split_and!.
Qed.

Lemma use_document_Ok reduced grant plan commit tree identity document :
  use_document reduced grant plan commit tree identity = Ok document ->
  exists grant_sha plan_sha, grant_digest grant = Ok grant_sha /\ plan_digest plan = Ok plan_sha /\ document = reduced ++
    [(u "grant_id", JStr (gr_grant_id grant)); (u "grant_digest", JStr grant_sha); (u "plan_sha256", JStr plan_sha);
     (u "subject_commit", JStr commit); (u "subject_tree", JStr tree); (u "state_dir_identity", JStr identity)].
Proof.
  unfold use_document. intros (gs & Hg & (ps & Hp & [= <-])%bind_Ok)%bind_Ok. by exists gs, ps.
Qed.
End evidence.

(** ** What a parsed grant is *)

Record grant_wf (now : Z) (g : PublicReadGrant) : Prop := {
  gw_grant_id : is_uuid (gr_grant_id g) = true;
  gw_journal_id : is_uuid (gr_journal_id g) = true;
  gw_journal : DIGEST (gr_journal_sha256 g) = true;
  gw_commit : OID (gr_subject_commit g) = true;
  gw_tree : OID (gr_subject_tree g) = true;
  gw_plan : DIGEST (gr_plan_sha256 g) = true;
  gw_destination : (gr_case g, gr_method g, gr_url g) ∈ ALLOWED;
  gw_expiry : exists instant, instant_us (gr_expires_at g) = Some instant /\ now < instant <= now + MINUTES_15;
  gw_attempts : gr_maximum_attempts g = 1;
  gw_timeout : 1 <= gr_timeout_seconds g <= 15;
  gw_bytes : 1 <= gr_max_response_bytes g <= (if str_eqb (gr_case g) (u "A29") then 52428800 else 2097152);
  gw_body : DIGEST (gr_body_sha256 g) = true }.

Lemma str_and_Ok test x : str_and test x = true -> test (text_of x) = true.
Proof. by destruct x. Qed.

Lemma parse_grant_Ok `{UnicodeTables} `{UrlLibrary} raw now g : parse_grant raw now = Ok g -> grant_wf now g.
Proof.
  unfold parse_grant. intros (d & _ & Hg)%bind_Ok.
  apply bind_Ok in Hg as ([] & _ & Hg). cbv zeta in Hg.
  apply bind_Ok in Hg as ([] & Hid%grant_if_Ok & Hg). apply bind_Ok in Hg as ([] & Hj%grant_if_Ok & Hg).
  apply bind_Ok in Hg as ([] & Hjs%grant_if_Ok & Hg). apply bind_Ok in Hg as ([] & Hs%grant_if_Ok & Hg).
  apply bind_Ok in Hg as ([] & _ & Hg). apply bind_Ok in Hg as (parsed & _ & Hg). apply bind_Ok in Hg as ([] & _ & Hg).
  apply bind_Ok in Hg as ([] & _ & Hg). apply bind_Ok in Hg as (port & _ & Hg).
  apply bind_Ok in Hg as ([] & Hdest%grant_if_Ok & Hg). apply bind_Ok in Hg as (expires & _ & Hg).
  apply bind_Ok in Hg as ([] & Hsoon%grant_if_Ok & Hg). apply bind_Ok in Hg as (latest & Hlatest & Hg).
  apply bind_Ok in Hg as ([] & Hlate%grant_if_Ok & Hg). apply bind_Ok in Hg as ([] & Hlim%grant_if_Ok & Hg).
  apply bind_Ok in Hg as ([] & Hbody%grant_if_Ok & [= <-]).
  assert (latest = now + MINUTES_15) as -> by (clear -Hlatest; unfold in_15_minutes in Hlatest; inv_ok; done).
  apply negb_false_iff in Hid, Hj, Hjs, Hbody, Hs. rewrite !andb_true_iff in Hs. destruct Hs as [[? ?] ?].
  apply orb_false_iff in Hdest as [_ Hdest]. apply negb_false_iff, bool_decide_eq_true in Hdest.
  apply orb_false_iff in Hlim as [_ Hlim]. rewrite negb_false_iff, !andb_true_iff in Hlim.
  destruct Hlim as [[[[Ha Ht1] Ht2] Hb1] Hb2]. apply Z.ltb_ge in Hlate. reflect_bools.
  split; cbn -[u json_get text_of int_of OID DIGEST is_uuid instant_us MINUTES_15]; try by apply str_and_Ok.
  - exact Hdest.
  - unfold moment, instant_us in *. destruct (dt_offset expires) as [o|]; [|done]. cbn in *.
    apply Z.leb_gt in Hsoon. eexists. split; [done|lia].
  - exact Ha.
  - lia.
  - destruct (str_eqb _ _); lia.
Qed.
