(* ===== verification/PublicReadSafety.v ===== *)
(** * One-time grants, used by several processes at once

    Processes share the directory of the journal: each starts the journal, reads with
    a grant or runs the harness with one, and may stop for ever between any two calls.
    Proved here, of every interleaving: a grant is used once at most, its marker is
    there before, what is sent is what the grant authorises, and no more of a response
    is taken than the grant allows and one byte; and the document that a read returns
    describes all of what the server sent. *)

From S2P Require Import Prelude PyStr Num PyObj Json Bytes EvidenceIo Calendar IsoTime Store Programs PublicRead.
Open Scope Z_scope.

(** ** What the calls do *)

(** A process, with the name of the marker of the grant it was given. *)
Definition process : Type := positive * pystr.

(** A file of the directory.  Who created it is nothing the code can see. *)
Record file := mkFile { fi_status : file_status; fi_raw : bytes; fi_creator : option process }.

(** A request that was sent, or a run of the harness. *)
Inductive use :=
  | Sent (host : option pystr) (address : pystr) (timeout : Z) (method path : pystr) (body : bytes)
  | Harness.

(** The directory and its files, the uses of grants so far, and for each process the
    response the server sends and how much of it was taken. *)
Record world := mkWorld {
  w_dir : file_status; w_files : gmap pystr file; w_used : list (process * use);
  w_served : gmap process (bytes * nat) }.

(** What a process does not decide: a failure of the call, the time, the addresses of
    the host, the response, how much a read or a write takes, and the processes run. *)
Record answers := mkAnswers {
  an_fault : option exn; an_time : Z; an_addresses : list pystr; an_status : Z; an_body : bytes; an_part : nat;
  an_build : Z * pystr; an_harness : Z * pystr * pystr }.

Definition with_files (files : gmap pystr file) (s : world) : world := mkWorld (w_dir s) files (w_used s) (w_served s).
Definition with_used (used : list (process * use)) (s : world) : world := mkWorld (w_dir s) (w_files s) used (w_served s).
Definition with_served (served : gmap process (bytes * nat)) (s : world) : world := mkWorld (w_dir s) (w_files s) (w_used s) served.

Definition on_file {B} (name : pystr) (s : world) (f : file -> result B * world) : result B * world :=
  match w_files s !! name with Some x => f x | None => (raise FileNotFoundError "No such file or directory", s) end.

(** The effect of a call that does not fail. *)
Definition perform_call (me : process) (B : Type) (e : event B) (an : answers) (s : world) : result B * world :=
  match e with
  | Now => (Ok (an_time an), s)
  | LstatDirectory => (Ok (w_dir s), s)
  | LstatFile name => on_file name s (fun x => (Ok (fi_status x), s))
  | ReadFile name => on_file name s (fun x => (Ok (fi_raw x), s))
  | CreateFile name =>
    match w_files s !! name with
    | Some _ => (raise FileExistsError "File exists", s)
    | None => (Ok tt, with_files (<[name := mkFile (mkStatusOf KFile 256 1) [] (Some me)]> (w_files s)) s)
    end
  | WriteFile name raw =>
    on_file name s (fun x =>
      (Ok tt, with_files (<[name := mkFile (fi_status x) (take (an_part an) raw) (fi_creator x)]> (w_files s)) s))
  | SyncFile _ | CloseFile _ | OpenDirectory | SyncDirectory | CloseDirectory | CloseClient => (Ok tt, s)
  | Resolve _ => (Ok (an_addresses an), s)
  | Request host address timeout method path body =>
    (Ok tt, with_served (<[me := (an_body an, O)]> (w_served s))
              (with_used ((me, Sent host address timeout method path body) :: w_used s) s))
  | GetResponse => (Ok (an_status an), s)
  | ReadResponse n =>
    match w_served s !! me with
    | Some (body, taken) =>
      let chunk := take (Nat.max 1 (Nat.min (an_part an) (Z.to_nat n))) (drop taken body) in
      (Ok chunk, with_served (<[me := (body, taken + length chunk)%nat]> (w_served s)) s)
    | None => (raise OSError "not connected", s)
    end
  | RunBuild => (Ok (an_build an), s)
  | RunHarness => (Ok (an_harness an), with_used ((me, Harness) :: w_used s) s)
  end.

(** A failed call changes nothing, but a request or a harness that fails may have been
    sent or have run. *)
Definition perform_event (me : process) (B : Type) (e : event B) (an : answers) (s : world) : result B * world :=
  match an_fault an with
  | None => perform_call me B e an s
  | Some error =>
    (Raise error, match e with
                  | Request _ _ _ _ _ _ | RunHarness => snd (perform_call me B e an s)
                  | _ => s
                  end)
  end.

(** ** What a process owns, and what it leaves to the others *)

Definition created (o : process) (s : world) (name : pystr) : Prop :=
  exists x, w_files s !! name = Some x /\ fi_creator x = Some o.

Definition uses (o : process) (s : world) : list (process * use) := filter (fun x => fst x = o) (w_used s).

Definition read_rely (me : process) (s s' : world) : Prop :=
  uses me s' = uses me s /\ w_served s' !! me = w_served s !! me /\ forall name, created me s name -> created me s' name.

Definition read_act (_ : process) (_ _ : world) : Prop := True.

(** No call fails with the exception that stands for too few turns of a loop. *)
Definition out_of_turns : exn := Exc RuntimeError "turns".
Definition any_answers (an : answers) (_ : world) : Prop := an_fault an <> Some out_of_turns.
Definition read_stop (_ : process) (s : world) : world := s.

(** A process that has done nothing yet. *)
Definition unused (o : process) (s : world) : Prop := uses o s = [] /\ w_served s !! o = None.

Lemma read_rely_refl o s : read_rely o s s.
Proof. by split_and!. Qed.

Lemma read_rely_trans o s1 s2 s3 : read_rely o s1 s2 -> read_rely o s2 s3 -> read_rely o s1 s3.
Proof. intros (H1 & H2 & H3) (H4 & H5 & H6). split_and!; [congruence|congruence|auto]. Qed.

Lemma unused_rely o s s' : read_rely o s s' -> unused o s -> unused o s'.
Proof. intros (H1 & H2 & _) [H3 H4]. split; congruence. Qed.

(** ** What is promised of every use *)

Section promises.
Context `{UnicodeTables} `{UrlLibrary} `{AddressTables}.

(** The grant of a process, which was parsed, and a plan and a time it was authorised for. *)
Definition authorised (o : process) (plan : PublicReadPlan) (grant : PublicReadGrant) : Prop :=
  grant_marker grant = Ok (snd o) /\ (exists raw now, parse_grant raw now = Ok grant) /\
  exists commit tree now, authorize grant plan commit tree now = Ok tt.

Lemma authorised_bytes o plan grant : authorised o plan grant -> 1 <= gr_max_response_bytes grant.
Proof. intros (_ & (raw & now & Hg%parse_grant_Ok) & _). apply (gw_bytes _ _ Hg). Qed.

(** What a use has to do with the grant of its process. *)
Definition lawful (o : process) (x : use) : Prop :=
  exists plan grant, authorised o plan grant /\
  match x with
  | Sent host address timeout method path body =>
    (exists parsed, urlsplit (gr_url grant) = Ok parsed /\ host = up_hostname parsed /\ path = request_path parsed) /\
    address_global address = Some true /\ timeout = gr_timeout_seconds grant /\ method = gr_method grant /\
    sha256_hex body = gr_body_sha256 grant
  | Harness => True
  end.

Definition taken_within (o : process) (taken : nat) : Prop :=
  exists plan grant, authorised o plan grant /\ Z.of_nat taken <= gr_max_response_bytes grant + 1.

Definition read_inv (s : world) : Prop :=
  (forall o x, (o, x) ∈ w_used s -> created o s (snd o) /\ lawful o x) /\
  NoDup (map fst (w_used s)) /\
  (forall o body taken, w_served s !! o = Some (body, taken) -> taken_within o taken).

(** What a returned document stands for: the whole response to the one request of the
    process, the one run of the harness, or a journal that was started. *)
Definition accounted (o : process) (document : list (pystr * json)) (s : world) : Prop :=
  (exists plan grant commit tree plan_sha grant_sha identity body, authorised o plan grant /\
     (exists host address timeout method path sent, uses o s = [(o, Sent host address timeout method path sent)]) /\
     w_served s !! o = Some (body, length body) /\ zlength body <= gr_max_response_bytes grant /\
     grant_digest grant = Ok grant_sha /\ plan_digest plan = Ok plan_sha /\
     document = read_document grant plan_sha grant_sha commit tree identity body) \/
  (exists plan grant rest, authorised o plan grant /\ uses o s = [(o, Harness)] /\ document = a07_expected ++ rest) \/
  (exists journal_id raw, journal_document journal_id = Ok raw /\ document = [(u "journal_sha256", JStr (sha256_hex raw))]).

Lemma accounted_rely o document s s' : read_rely o s s' -> accounted o document s -> accounted o document s'.
Proof. intros (Hu & Hs & _). unfold accounted. by rewrite Hu, Hs. Qed.

Abbreviation safe := (safe perform_event any_answers read_inv read_rely read_act).
Abbreviation guarantee := (guarantee read_inv read_rely read_act).

(** ** The calls that use nothing *)

Definition passive {B} (e : event B) : Prop :=
  match e with Request _ _ _ _ _ _ | ReadResponse _ | RunHarness => False | _ => True end.

(** They only ever create files. *)
Definition grows (s s' : world) : Prop :=
  w_used s' = w_used s /\ w_served s' = w_served s /\ forall o name, created o s name -> created o s' name.

Lemma grows_refl s : grows s s.
Proof. by split_and!. Qed.

Lemma grows_file name x s :
  (forall y, w_files s !! name = Some y -> fi_creator x = fi_creator y) -> grows s (with_files (<[name := x]> (w_files s)) s).
Proof.
  intros Hx. split_and!; [done..|]. intros o n (y & Hy & Ho). destruct (decide (n = name)) as [->|Hne].
  - exists x. cbn. rewrite lookup_insert_eq. split; [done|]. by rewrite (Hx y Hy).
  - exists y. cbn. by rewrite lookup_insert_ne.
Qed.

Lemma passive_grows {B} me (e : event B) an s : passive e -> grows s (snd (perform_event me B e an s)).
Proof.
  unfold perform_event. destruct (an_fault an) as [error|]; [destruct e; try done; intros _; apply grows_refl|].
  destruct e; try done; intros _; cbn [perform_call]; unfold on_file; try apply grows_refl;
    destruct (w_files s !! name) as [x|] eqn:E; try apply grows_refl; apply grows_file; cbn [fi_creator]; intros y Hy; congruence.
Qed.

Lemma grows_rely o s s' : grows s s' -> read_rely o s s'.
Proof. intros (Hu & Hs & Hc). split_and!; [unfold uses; by rewrite Hu|by rewrite Hs|apply Hc]. Qed.

Lemma grows_inv s s' : grows s s' -> read_inv s -> read_inv s'.
Proof.
  intros (Hu & Hs & Hc) (Hi & Hn & Ht). split_and!.
  - intros o x Hx. rewrite Hu in Hx. destruct (Hi o x Hx). auto.
  - by rewrite Hu.
  - intros o b t Hb. rewrite Hs in Hb. by apply (Ht o b).
Qed.

Lemma grows_guarantee me s s' : grows s s' -> read_inv s -> guarantee me s s'.
Proof. intros Hg Hi. split_and!; [by apply (grows_inv s)|done|]. intros o _. by apply grows_rely. Qed.

Lemma passive_silent me B (e : event B) an s :
  passive e -> any_answers an s -> read_inv s ->
  guarantee me s (snd (perform_event me B e an s)) /\ read_rely me s (snd (perform_event me B e an s)).
Proof. intros He _ Hi. pose proof (passive_grows me e an s He). split; [by apply grows_guarantee|by apply grows_rely]. Qed.

Abbreviation safe_do := (safe_silent_do _ _ _ _ _ read_rely_trans (@passive) passive_silent).
Abbreviation safe_passive_call := (safe_silent_call _ _ _ _ _ (@passive) passive_silent).
Abbreviation safe_quiet_bind := (safe_silent_bind _ _ _ _ _ read_rely_refl read_rely_trans (@passive) passive_silent).
Abbreviation safe_lift := (safe_Ok_lift perform_event any_answers read_inv read_rely read_act).
Abbreviation safe_return := (safe_Ok_return perform_event any_answers read_inv read_rely read_act).
Abbreviation quiet := (silent_program (@passive)).

Lemma quiet_durably name raw : quiet (write_durably name raw).
Proof.
  unfold write_durably, prog_finally. apply silent_program_bind.
  - apply silent_program_then; [apply silent_program_bind; done|]. intros r. by apply silent_program_bind.
  - intros _. apply silent_program_bind; [done|]. intros _. apply silent_program_then; [done|]. intros r. by apply silent_program_bind.
Qed.

Lemma quiet_state_dir : quiet check_state_dir.
Proof. by apply silent_program_bind. Qed.

Lemma quiet_journal journal_id sha : quiet (validate_public_read_journal journal_id sha).
Proof. repeat (apply silent_program_bind; [done|intros ?]). done. Qed.

(** ** The grant is consumed *)

(** The journal's directory then has the marker, created by this process alone. *)
Lemma safe_consume me grant s :
  safe me (consume_public_read_grant grant) s
    (on_Ok (fun _ s' => read_rely me s s' /\ exists marker, grant_marker grant = Ok marker /\ created me s' marker)).
Proof.
  unfold consume_public_read_grant. apply safe_quiet_bind; [apply quiet_state_dir|]. intros _ s1 Hr1.
  apply safe_quiet_bind; [apply quiet_journal|]. intros identity s2 Hr2. apply safe_lift. intros marker Hm.
  pose proof (read_rely_trans _ _ _ _ Hr1 Hr2) as Hr12.
  eapply (safe_bind _ _ _ _ _ read_rely_refl _ _ _ _ (on_Ok (fun _ s' => read_rely me s2 s' /\ created me s' marker))).
  - apply safe_passive_call; [exact I|]. intros an s4 Hr Hi _. unfold perform_event. destruct (an_fault an) as [e|].
    { cbn [fst snd prog_then]. destruct (existsb _ _); by apply safe_Done. }
    cbn [perform_call]. destruct (w_files s4 !! marker) as [x|] eqn:E; [by apply safe_Done|].
    apply safe_Done. intros s5 Hr5 _. split.
    + eapply read_rely_trans; [exact Hr|]. eapply read_rely_trans; [|exact Hr5]. apply grows_rely, grows_file. cbn. congruence.
    + apply Hr5. eexists. cbn. by rewrite lookup_insert_eq.
  - intros _ s3 _ [Hr3 Hc]. apply safe_lift. intros digest _. apply safe_quiet_bind; [apply quiet_durably|]. intros _ s4 Hr4.
    apply safe_return. intros i s5 _ Hr5 _. split; [by repeat (eapply read_rely_trans; [eassumption|])|].
    exists marker. split; [done|]. by apply Hr5, Hr4.
  - done.
Qed.

(** ** The grant is used *)

Lemma uses_none o s x : uses o s = [] -> (o, x) ∉ w_used s.
Proof.
  intros Hu Hx. assert ((o, x) ∈ uses o s) as H2 by by apply list_elem_of_filter. rewrite Hu in H2. by apply elem_of_nil in H2.
Qed.

(** A first use, of a process whose marker is there. *)
Lemma guarantee_use me x served s :
  read_inv s -> unused me s -> created me s (snd me) -> lawful me x ->
  (forall o, o <> me -> served !! o = w_served s !! o) ->
  (forall body taken, served !! me = Some (body, taken) -> taken_within me taken) ->
  guarantee me s (with_served served (with_used ((me, x) :: w_used s) s)).
Proof.
  intros (Hi & Hn & Ht) [Hu _] Hc Hl Ho Hm. split_and!; [|done|].
  - split_and!.
    + intros o y Hy. cbn in Hy. apply elem_of_cons in Hy as [[= -> ->]|Hy]; [done|]. destruct (Hi o y Hy). done.
    + cbn. apply NoDup_cons. split; [|done]. intros ((o & y) & -> & Hy)%list_elem_of_fmap. by apply (uses_none o s y).
    + cbn. intros o b t Hs. destruct (decide (o = me)) as [->|Hne]; [by apply (Hm b)|]. rewrite (Ho o Hne) in Hs. by apply (Ht o b).
  - intros o Hne. split_and!; [|by apply Ho|done]. unfold uses, with_served, with_used. cbn [w_used]. by rewrite filter_cons_False by (cbn; congruence).
Qed.

Lemma guarantee_taken me body taken s :
  read_inv s -> taken_within me taken -> guarantee me s (with_served (<[me := (body, taken)]> (w_served s)) s).
Proof.
  intros (Hi & Hn & Ht) Hm. split_and!; [|done|].
  - split_and!; [done|done|]. cbn. intros o b t. rewrite lookup_insert_Some. intros [[<- [= <- <-]]|[_ Hs]]; [done|by apply (Ht o b)].
  - intros o Hne. split_and!; [done| |done]. cbn. by rewrite lookup_insert_ne.
Qed.

Lemma take_then_drop {A} k (d : list A) : take k d ++ drop (length (take k d)) d = d.
Proof.
  rewrite length_take. destruct (Nat.le_ge_cases k (length d)); [rewrite Nat.min_l by lia; apply take_drop|].
  by rewrite Nat.min_r, take_ge, drop_all, app_nil_r by lia.
Qed.

Lemma lift_Ok_bind {A B} (a : A) (f : A -> prog event B) : lift (Ok a) ≫= f = f a.
Proof. done. Qed.

(** The response is taken to its end, or refused for its length. *)
Lemma safe_read_chunks me plan grant turns limit size body s :
  authorised me plan grant -> limit = gr_max_response_bytes grant -> 0 <= size <= limit -> limit - size + 1 <= Z.of_nat turns ->
  w_served s !! me = Some (body, Z.to_nat size) -> (Z.to_nat size <= length body)%nat ->
  safe me (read_chunks turns limit size) s
    (fun r s' => match r with
     | Ok raw => w_served s' !! me = Some (body, length body) /\ drop (Z.to_nat size) body = raw /\ uses me s' = uses me s
     | Raise e => e <> out_of_turns
     end).
Proof.
  intros Ha ->. revert size s. induction turns as [|turns IH]; intros size s Hs Ht Hb Hle; [lia|]. cbn [read_chunks].
  apply safe_Call. intros s1 an (Hu & Hr & _) Hi Hok. rewrite Hb in Hr. unfold perform_event.
  destruct (an_fault an) as [e|] eqn:Ef.
  { split; [by apply grows_guarantee; [apply grows_refl|]|]. apply safe_Done. intros s2 _ _ ->. by apply Hok. }
  cbn [perform_call]. rewrite Hr. set (n := Z.to_nat _). set (chunk := take _ _). cbn [fst snd].
  assert (length chunk = Nat.min (Nat.max 1 (Nat.min (an_part an) n)) (length body - Z.to_nat size)) as Hl
    by (unfold chunk; by rewrite length_take, length_drop).
  split.
  { apply guarantee_taken; [done|]. exists plan, grant. split; [done|]. lia. }
  rewrite (bool_decide_ext (chunk = []) (length chunk = 0%nat)) by (destruct chunk; cbn; naive_solver lia).
  case_bool_decide as Hc.
  - apply safe_Done. intros s2 (Hu2 & Hr2 & _) _. cbn in Hr2. rewrite lookup_insert_eq in Hr2.
    split_and!; [|by rewrite drop_ge by lia|by rewrite Hu2]. rewrite Hr2. do 2 f_equal. lia.
  - unfold grant_if, raise_if. destruct (_ <? _) eqn:El.
    { by apply safe_Done. }
    apply Z.ltb_ge in El. unfold zlength in *. rewrite lift_Ok_bind.
    eapply (safe_bind _ _ _ _ _ read_rely_refl).
    + apply (IH (size + Z.of_nat (length chunk))); [lia|lia| |lia]. cbn. rewrite lookup_insert_eq. do 2 f_equal. lia.
    + intros rest s2 _ (H2' & <- & Hu2). apply safe_Done. intros s3 (Hu3 & Hr3 & _) _. rewrite Hr3.
      split_and!; [done| |by rewrite Hu3, Hu2].
      replace (Z.to_nat (size + Z.of_nat (length chunk))) with (Z.to_nat size + length chunk)%nat by lia.
      rewrite <- drop_drop. symmetry. apply take_then_drop.
    + intros e s2 s3 _ He _ _. exact He.
Qed.

(** ** The operations *)

Lemma safe_exchange me plan grant commit tree now0 environ parsed before connected identity s :
  authorised me plan grant -> authorize grant plan commit tree now0 = Ok tt ->
  urlsplit (gr_url grant) = Ok parsed -> address_global connected = Some true -> unused me s -> created me s (snd me) ->
  safe me (exchange plan grant commit tree environ parsed before connected identity) s (on_Ok (accounted me)).
Proof.
  intros Ha Hauth Hp Hg Hu Hc. pose proof (authorised_bytes _ _ _ Ha) as Hmax.
  pose proof (authorize_Ok _ _ _ _ _ Hauth) as (_ & _ & _ & _ & _ & Em & Eu & _ & Et & El & Eb). unfold exchange.
  apply safe_Call. intros s1 an Hr Hi _. apply (unused_rely _ _ _ Hr) in Hu as Hu1. assert (created me s1 (snd me)) as Hc1 by by apply Hr.
  unfold perform_event. cbn [perform_call fst snd]. set (x := Sent _ _ _ _ _ _). set (s2 := with_served _ _).
  assert (guarantee me s1 s2) as Hg2.
  { apply guarantee_use; [done..| | |].
    - exists plan, grant. split; [done|]. split_and!; [by exists parsed|done..].
    - intros o Hne. by rewrite lookup_insert_ne.
    - intros b t. rewrite lookup_insert_eq. intros [= <- <-]. exists plan, grant. split; [done|lia]. }
  assert (uses me s2 = [(me, x)]) as Hu2.
  { unfold uses, s2, with_served, with_used. cbn [w_used]. rewrite filter_cons_True by done. f_equal. apply Hu1. }
  assert (w_served s2 !! me = Some (an_body an, O)) as Hs2 by apply lookup_insert_eq.
  destruct (an_fault an) as [e|]; cbn [fst snd]; (split; [exact Hg2|]); [by apply safe_Done|].
  clearbody s2. cbn [prog_then].
  apply safe_do; [exact I|]. intros status s3 Hr3. apply safe_lift. intros [] _. apply safe_lift. intros [] _.
  eapply (safe_bind _ _ _ _ _ read_rely_refl).
  - apply (safe_read_chunks me plan grant _ _ 0 (an_body an)); [done..|lia|lia| |cbn; lia].
    destruct Hr3 as (_ & -> & _). done.
  - intros raw s4 _ (Hs4 & Hraw & Hu4). cbn in Hraw. rewrite drop_0 in Hraw. subst raw.
    apply safe_quiet_bind; [by apply silent_program_bind|]. intros _ s5 Hr5. apply safe_do; [exact I|]. intros now s6 Hr6.
    apply safe_lift. intros reduced (_ & Hlen & ->)%observed_evidence. apply safe_return.
    intros document s7 (grant_sha & plan_sha & Hgs & Hps & ->)%use_document_Ok Hr7 _. left.
    exists plan, grant, commit, tree, plan_sha, grant_sha, identity, (an_body an).
    assert (read_rely me s4 s7) as (Hu7 & Hs7 & _) by by repeat (eapply read_rely_trans; [eassumption|]).
    split_and!; [done| | |done..].
    + eexists _, _, _, _, _, _. rewrite Hu7, Hu4, (proj1 Hr3), Hu2. reflexivity.
    + by rewrite Hs7.
  - done.
Qed.

Lemma safe_execute_public_read me plan grant commit tree environ s :
  (forall marker, grant_marker grant = Ok marker -> marker = snd me) -> (exists raw now, parse_grant raw now = Ok grant) ->
  unused me s -> safe me (execute_public_read plan grant commit tree environ) s (on_Ok (accounted me)).
Proof.
  intros Hm Hparsed Hu. unfold execute_public_read. apply safe_do; [exact I|]. intros now s1 Hr1.
  apply safe_lift. intros [] Hauth. apply safe_lift. intros [] _. apply safe_lift. intros parsed Hp.
  apply safe_do; [exact I|]. intros before s2 Hr2. apply safe_lift. intros [] _.
  apply safe_do; [exact I|]. intros connected s3 Hr3. apply safe_lift. intros [] (Hne & Hsame & Hglobal)%validate_resolution_Ok.
  apply safe_quiet_bind; [by apply silent_program_bind|]. intros _ s4 Hr4.
  eapply (safe_bind _ _ _ _ _ read_rely_refl); [apply safe_consume| |done].
  intros identity s5 _ (Hr5 & marker & Hmarker & Hc). apply Hm in Hmarker as Hme. subst marker.
  assert (unused me s5) as Hu5 by (apply (unused_rely _ s); [by repeat (eapply read_rely_trans; [eassumption|])|done]).
  apply safe_lift. intros address Ha%expect_Ok.
  assert (address_global address = Some true) as Hg.
  { apply (Forall_at _ _ _ Hglobal), Hsame. destruct connected as [|a l]; [done|]. injection Ha as ->. left. }
  assert (authorised me plan grant) as Hok by (split_and!; [done|done|by exists commit, tree, now]).
  unfold prog_finally. eapply (safe_then _ _ _ _ _ read_rely_refl).
  - eapply (safe_exchange _ _ _ _ _ now); [done|done| |done|done|done].
    apply authorize_Ok in Hauth as (_ & _ & _ & _ & _ & _ & Eu & _). by rewrite <- Eu.
  - intros [document|e] s6 _ Hq.
    + apply safe_do; [exact I|]. intros [] s7 Hr7. apply (safe_return _ (Ok document)). intros d s8 [= <-] Hr8 _.
      eapply accounted_rely; [|exact Hq]. by apply (read_rely_trans _ _ s7).
    + apply safe_do; [exact I|]. intros [] s7 Hr7. by apply safe_Done.
Qed.

Lemma safe_execute_a07 me plan grant commit tree s :
  (forall marker, grant_marker grant = Ok marker -> marker = snd me) -> (exists raw now, parse_grant raw now = Ok grant) ->
  unused me s -> safe me (execute_a07 plan grant commit tree) s (on_Ok (accounted me)).
Proof.
  intros Hm Hparsed Hu. unfold execute_a07. apply safe_do; [exact I|]. intros now s1 Hr1. apply safe_lift. intros [] Hauth.
  eapply (safe_bind _ _ _ _ _ read_rely_refl); [apply safe_consume| |done].
  intros identity s2 _ (Hr2 & marker & Hmarker & Hc). apply Hm in Hmarker as Hme. subst marker.
  assert (unused me s2) as Hu2 by (apply (unused_rely _ s); [by apply (read_rely_trans _ _ s1)|done]).
  assert (authorised me plan grant) as Hok by (split_and!; [done|done|by exists commit, tree, now]).
  apply safe_do; [exact I|]. intros build s3 Hr3. apply safe_lift. intros [] _.
  apply safe_Call. intros s4 an Hr4 Hi _.
  assert (unused me s4) as Hu4 by (apply (unused_rely _ s2); [by apply (read_rely_trans _ _ s3)|done]).
  assert (created me s4 (snd me)) as Hc4 by by apply Hr4, Hr3.
  unfold perform_event. cbn [perform_call fst snd].
  assert (guarantee me s4 (with_used ((me, Harness) :: w_used s4) s4)) as Hg.
  { pose proof (guarantee_use me Harness (w_served s4) s4 Hi Hu4 Hc4) as Hg. apply Hg; [by exists plan, grant|done|].
    intros b t Hb. destruct Hu4 as [_ Hn]. by rewrite Hb in Hn. }
  assert (uses me (with_used ((me, Harness) :: w_used s4) s4) = [(me, Harness)]) as Hu5.
  { unfold uses, with_used. cbn [w_used]. rewrite filter_cons_True by done. f_equal. apply Hu4. }
  destruct (an_fault an) as [e|]; cbn [fst snd]; (split; [exact Hg|]); [by apply safe_Done|].
  cbn [prog_then]. destruct (an_harness an) as [[returncode stdout] stderr].
  apply safe_lift. intros raw _. apply safe_lift. intros [] _. apply safe_lift. intros document (gs & ps & _ & _ & ->)%use_document_Ok.
  apply safe_lift. intros b1 _. apply safe_lift. intros b2 _. apply safe_Done. intros s6 (Hu6 & _) _.
  right. left. exists plan, grant. eexists. split; [done|]. split; [by rewrite Hu6|]. by rewrite <- app_assoc.
Qed.

(** Starting a journal, as the process that does nothing else. *)
Definition initializing (journal_id : pystr) : prog event (list (pystr * json)) :=
  sha ← initialize_public_read_journal journal_id; Done (Ok [(u "journal_sha256", JStr sha)]).

Lemma safe_initializing me journal_id s : safe me (initializing journal_id) s (on_Ok (accounted me)).
Proof.
  unfold initializing.
  eapply (safe_bind _ _ _ _ _ read_rely_refl _ _ _ _ (on_Ok (fun sha _ => exists raw, journal_document journal_id = Ok raw /\ sha = sha256_hex raw))).
  - unfold initialize_public_read_journal. apply safe_quiet_bind; [apply quiet_state_dir|]. intros _ s1 _.
    apply safe_lift. intros raw Hraw. apply safe_do; [exact I|]. intros _ s2 _.
    apply safe_quiet_bind; [apply quiet_durably|]. intros _ s3 _. apply safe_Done. intros s4 _ _. by exists raw.
  - intros sha s1 _ (raw & Hraw & ->). apply safe_Done. intros s2 _ _. right. right. by exists journal_id, raw.
  - done.
Qed.
End promises.

(** ** Every interleaving *)

Section together.
Context `{UnicodeTables} `{UrlLibrary} `{AddressTables}.

(** A process reads with its grant, runs the harness with it, or starts the journal. *)
Definition granted (o : process) (grant : PublicReadGrant) : Prop :=
  (forall marker, grant_marker grant = Ok marker -> marker = snd o) /\ exists raw now, parse_grant raw now = Ok grant.

Definition reading (o : process) (p : prog event (list (pystr * json))) : Prop :=
  (exists plan grant commit tree environ, granted o grant /\ p = execute_public_read plan grant commit tree environ) \/
  (exists plan grant commit tree, granted o grant /\ p = execute_a07 plan grant commit tree) \/
  (exists journal_id, p = initializing journal_id).

Definition reads_reachable (s0 : world) (c : world * gmap process (prog event (list (pystr * json)))) : Prop :=
  reachable perform_event any_answers read_stop unused reading s0 c.

Lemma reading_safe o p s :
  reading o p -> read_inv s -> unused o s -> Programs.safe perform_event any_answers read_inv read_rely read_act o p s (on_Ok (accounted o)).
Proof.
  intros [(plan & grant & commit & tree & environ & [Hm Hg] & ->)|[(plan & grant & commit & tree & [Hm Hg] & ->)|[j ->]]] _ Hu.
  - by apply safe_execute_public_read.
  - by apply safe_execute_a07.
  - by apply safe_initializing.
Qed.

Lemma reads_ok s0 c :
  w_used s0 = [] -> w_served s0 = ∅ -> reads_reachable s0 c ->
  config_ok perform_event any_answers read_inv read_rely read_act (fun o => on_Ok (accounted o)) c.
Proof.
  intros Hu Hs Hr.
  apply (reachable_ok perform_event any_answers read_inv read_rely read_act read_rely_refl read_rely_trans read_stop unused reading)
    with (s0 := s0).
  - done.
  - intros o s Hi. by apply grows_guarantee; [apply grows_refl|].
  - exact reading_safe.
  - split_and!; [rewrite Hu; intros o x []%elem_of_nil|rewrite Hu; apply NoDup_nil_2|rewrite Hs; intros o b t; by rewrite lookup_empty].
  - exact Hr.
Qed.

(** One process alone creates a file. *)
Lemma created_unique o o' s name : created o s name -> created o' s name -> o = o'.
Proof. intros (x & Hx & Ho) (y & Hy & Ho'). congruence. Qed.

(** C20: whatever processes read, run the harness or start the journal at once, fail, end
    or stop for ever: no grant is used twice; whoever used one had created its marker;
    every request goes to a public address and the URL of an authorised, parsed grant,
    with its method, its time-out and a body of its hash; and of a response one byte at
    most is taken beyond what the grant allows. *)
Theorem grants_used_once s0 s pool :
  w_used s0 = [] -> w_served s0 = ∅ -> reads_reachable s0 (s, pool) ->
  NoDup (map (fun x => snd (fst x)) (w_used s)) /\
  (forall o x, (o, x) ∈ w_used s -> created o s (snd o) /\ lawful o x) /\
  (forall o body taken, w_served s !! o = Some (body, taken) -> taken_within o taken).
Proof.
  intros Hu Hs Hr. destruct (reads_ok _ _ Hu Hs Hr) as [(Hi & Hn & Ht) _]. cbn in *. split_and!; [|exact Hi|exact Ht].
  clear -Hi Hn. induction (w_used s) as [|[o x] l IH]; [apply NoDup_nil_2|]. cbn in *.
  apply NoDup_cons in Hn as [Hno Hn]. apply NoDup_cons. split.
  - intros ([o' y] & E & Hy)%list_elem_of_fmap. cbn in E. apply Hno.
    destruct (Hi o x) as [Hc _]; [left|]. destruct (Hi o' y) as [Hc' _]; [by right|]. rewrite <- E in Hc'.
    rewrite (created_unique _ _ _ _ Hc Hc'). apply list_elem_of_fmap. by exists (o', y).
  - apply IH; [|done]. intros o' y Hy. apply Hi. by right.
Qed.

(** C21: a process that returns a document used its grant once, and the document is that of
    the whole response to its request, within the grant's limit, or of its run of the
    harness; or it started the journal and returns the journal's hash. *)
Theorem returned_reads_accounted s0 s pool o document :
  w_used s0 = [] -> w_served s0 = ∅ -> reads_reachable s0 (s, pool) -> pool !! o = Some (Done (Ok document)) ->
  accounted o document s.
Proof.
  intros Hu Hs Hr Ho. pose proof (reads_ok _ _ Hu Hs Hr) as Hok.
  exact (end_ok perform_event any_answers read_inv read_rely read_act read_rely_refl (fun o => on_Ok (accounted o)) _ o (Ok document) Hok Ho).
Qed.

(** A process that runs to its end alone. *)
Lemma reading_reachable oracle s o p :
  (forall s, any_answers (oracle s) s) -> unused o s -> reading o p ->
  reads_reachable s (snd (run perform_event o oracle p s), <[o := Done (fst (run perform_event o oracle p s))]> (<[o := p]> ∅)).
Proof.
  intros Ho Hu Hp. eapply rtc_l.
  - apply (step_start _ _ _ _ _ o p); [done|exact Hu|exact Hp].
  - apply run_steps; [exact Ho|exact (lookup_insert_eq _ _ _)].
Qed.
End together.

(** ** A read, from the grant to the document *)

Definition demo_url : pystr := u "https://api.hyperliquid.xyz/info".

#[local] Instance demo_urls : UrlLibrary := fun url =>
  if str_eqb url demo_url
  then Ok (mkParts (u "https") None None (Ok None) (Some (u "api.hyperliquid.xyz")) (u "/info") [])
  else raise ValueError "not a URL of this library".
#[local] Instance demo_addresses : AddressTables := fun address => if str_eqb address (u "203.0.113.9") then Some true else None.

Definition demo_body : bytes := u "{}".
Definition demo_plan : PublicReadPlan := mkReadPlan (u "A07") (u "POST") demo_url demo_body 5 100 1.
Definition demo_hex (n : nat) : pystr := repeat 97 n.
Definition demo_uuid : pystr := u "00000000-0000-4000-8000-000000000013".
Definition demo_journal : bytes := Eval vm_compute in match journal_document demo_uuid with Ok raw => raw | Raise _ => [] end.
Definition demo_plan_sha : pystr := Eval vm_compute in match plan_digest demo_plan with Ok sha => sha | Raise _ => [] end.

Definition demo_grant : PublicReadGrant :=
  mkGrant demo_uuid demo_uuid (sha256_hex demo_journal) (demo_hex 40) (demo_hex 40) demo_plan_sha (u "A07") (u "POST") demo_url
    (mkTime 2026 9 29 17 5 0 0 (Some 0)) 1 5 100 (sha256_hex demo_body).

(** 2026-09-29 17:00:00 UTC *)
Definition demo_now : Z := local_us (mkTime 2026 9 29 17 0 0 0 None).

Lemma demo_grant_parsed : parse_grant (grant_document demo_grant) demo_now = Ok demo_grant.
Proof. vm_compute. reflexivity. Qed.

Definition demo_marker : pystr := Eval vm_compute in match grant_marker demo_grant with Ok marker => marker | Raise _ => [] end.

Definition demo_process : process := (1%positive, demo_marker).

Definition demo_world : world :=
  mkWorld (mkStatusOf KDirectory 448 2) {[JOURNAL := mkFile (mkStatusOf KFile 256 1) demo_journal None]} [] ∅.

Definition demo_response : bytes := u "[1,2,3]".

Definition demo_answers (_ : world) : answers :=
  mkAnswers None demo_now [u "203.0.113.9"] 200 demo_response 3 (0, []) (0, [], []).

Definition demo_read : prog event (list (pystr * json)) := execute_public_read demo_plan demo_grant (demo_hex 40) (demo_hex 40) [].

Definition demo_run : result (list (pystr * json)) * world := run perform_event demo_process demo_answers demo_read demo_world.

Lemma demo_granted : granted demo_process demo_grant.
Proof.
  split; [|by eexists _, _; exact demo_grant_parsed]. intros marker Hm.
  assert (grant_marker demo_grant = Ok demo_marker) as E by (vm_compute; reflexivity). rewrite E in Hm. by injection Hm as <-.
Qed.

Lemma demo_read_reachable :
  reads_reachable demo_world (snd demo_run, <[demo_process := Done (fst demo_run)]> (<[demo_process := demo_read]> ∅)).
Proof.
  apply (reading_reachable demo_answers demo_world demo_process demo_read); [done|done|].
  left. exists demo_plan, demo_grant, (demo_hex 40), (demo_hex 40), []. split; [exact demo_granted|reflexivity].
Qed.

Lemma grants_used_once_witness :
  map fst (w_used (snd demo_run)) = [demo_process] /\
  NoDup (map (fun x => snd (fst x)) (w_used (snd demo_run))) /\
  (forall o x, (o, x) ∈ w_used (snd demo_run) -> created o (snd demo_run) (snd o) /\ lawful o x) /\
  (forall o body taken, w_served (snd demo_run) !! o = Some (body, taken) -> taken_within o taken).
Proof.
  split; [vm_compute; reflexivity|]. exact (grants_used_once demo_world _ _ eq_refl eq_refl demo_read_reachable).
Defined.

Lemma returned_reads_accounted_witness : exists document,
  fst demo_run = Ok document /\
  assoc (u "response_sha256") document = Some (JStr (sha256_hex demo_response)) /\
  accounted demo_process document (snd demo_run).
Proof.
  assert (match fst demo_run with
          | Ok document => bool_decide (assoc (u "response_sha256") document = Some (JStr (sha256_hex demo_response)))
          | Raise _ => false
          end = true) as E by (vm_compute; reflexivity).
  destruct (fst demo_run) as [document|] eqn:Ed; [|done]. exists document. split; [done|]. split; [by apply bool_decide_eq_true in E|].
  pose proof demo_read_reachable as Hr. rewrite Ed in Hr.
  exact (returned_reads_accounted demo_world _ _ demo_process document eq_refl eq_refl Hr (lookup_insert_eq _ _ _)).
Defined.
