(* ===== verification/Authority.v ===== *)
(** * Live acceptance grants: [tools/mezo_acceptance/live.py]

    A bundle of grants is one document for one commit, valid for fifteen minutes at
    most, whose cases repeat a plan fixed in the code: two public reads (P2), or one
    payment on the test network (P3).  Proved here: a validated P2 bundle
    yields a grant for its read when the limits of its case are integers, and a grant that
    it yields authorises the plan the runner executes, until it expires. *)

From S2P Require Import Prelude PyStr Num PyObj Json Bytes EvidenceIo Calendar IsoTime PublicRead.
Open Scope Z_scope.

Definition live_if (b : bool) (code : string) : result unit := raise_if b LiveAuthorityError code.

Definition ADDRESS (s : pystr) : bool := str_startswith (u "0x") s && hex_of_length 40 (drop 2 s).

(** [_expiry]; the comparison of a time without an offset with [now] raises. *)
Definition expiry `{UnicodeTables} (raw : json) (now : Z) : result datetime :=
  value ← try_except (s ← json_str raw; fromisoformat (zulu_to_offset s)) [ValueError] (fun _ => raise LiveAuthorityError "LIVE_GRANT_INVALID");
  raise_if (negb (isSome (dt_offset value))) TypeError "can't compare offset-naive and offset-aware datetimes" ;;
  live_if (moment value <=? now) "LIVE_GRANT_EXPIRED" ;;
  latest ← in_15_minutes now;
  live_if (latest <? moment value) "LIVE_GRANT_EXPIRED" ;;
  Ok value.

(** ** The plans *)

Definition A07_BODY : bytes := flat_map (fun c => if c =? 39 then [34] else [c]) (u "{'scenario':'source-unavailable','fallback':'forbidden'}").

Definition A07_URL : pystr := u "https://source.invalid/internal/v1/reports".

Definition a07_case : list (pystr * json) :=
  [(u "action", JStr (u "gateway_source_unavailable_harness")); (u "method", JStr (u "LOCAL_POST")); (u "url", JStr A07_URL);
   (u "body_sha256", JStr (sha256_hex A07_BODY)); (u "timeout_seconds", JInt 15); (u "max_response_bytes", JInt 2097152);
   (u "maximum_attempts", JInt 1)].

Definition a29_case : list (pystr * json) :=
  [(u "action", JStr (u "anonymous_clone")); (u "url", JStr (u "https://github.com/Dimkox/liqvera.git"));
   (u "timeout_seconds", JInt 15); (u "max_aggregate_disk_bytes", JInt 52428800); (u "max_single_file_bytes", JInt 26214400);
   (u "max_process_memory_bytes", JInt 536870912); (u "max_output_bytes", JInt 65536); (u "maximum_attempts", JInt 1);
   (u "network_byte_limit_enforced", JBool false)].

Definition p3_payment : list (pystr * json) :=
  [(u "scheme", JStr (u "exact")); (u "settlement_broadcaster", JStr (u "facilitator")); (u "network", JStr (u "eip155:31611"));
   (u "chain_id", JInt 31611); (u "asset", JStr (u "0x118917a40FAF1CD7a13dB0Ef56C86De7973Ac503"));
   (u "amount_atomic", JStr (u "10000000000000000")); (u "maximum_settlement_submissions", JInt 1);
   (u "max_buyer_native_gas_wei", JStr (u "100000000000000")); (u "asset_transfer_method", JStr (u "permit2"));
   (u "permit2_address", JStr (u "0x000000000022D473030F116dDEE9F6B43aC78BA3"));
   (u "permit2_proxy", JStr (u "0x402085c248EeA27D92E8b30b2C58ed07f9E20001"));
   (u "approval_mode", JStr (u "eip2612-gas-sponsoring")); (u "required_extension", JStr (u "eip2612GasSponsoring"));
   (u "authorization_identity_version", JStr (u "liqvera-permit2-eip2612-identity/v1"));
   (u "facilitator_url", JStr (u "https://facilitator.vativ.io/")); (u "rpc_url", JStr (u "https://rpc.test.mezo.org/"));
   (u "database_identity_kind", JStr (u "sha256-credential-free-postgresql-endpoint/v1"));
   (u "database_host_policy", JStr (u "loopback-only/v1"))].

Abbreviation plan_cases := (list (pystr * list (pystr * json))).

Definition p2_cases : plan_cases := [(u "A07", a07_case); (u "A29", a29_case)].
Definition p3_cases : plan_cases := [(u "A13", p3_payment); (u "A14", p3_payment)].

Definition cases_digest (cases : plan_cases) : result pystr := json_sha256 (JDict (prod_map id JDict <$> cases)).

(** What the runner executes for A07. *)
Definition a07_plan : PublicReadPlan := mkReadPlan (u "A07") (u "LOCAL_POST") A07_URL A07_BODY 15 2097152 1.

(** ** The checks of a bundle *)

(** A case of a bundle: its document and the hash of it. *)
Record CaseGrant := mkCase { cg_value : list (pystr * json); cg_digest : pystr }.

Record P2Authority := mkP2 {
  p2_expires_at : datetime; p2_journal_id : pystr; p2_journal_sha256 : pystr; p2_grants : list (pystr * CaseGrant) }.

Record P3Authority := mkP3 { p3_digest : pystr; p3_expires_at : datetime; p3_grants : list (pystr * CaseGrant) }.

(** [value.get(k) == v] for every item *)
Definition items_agree (value expected : list (pystr * json)) : bool :=
  forallb (fun kv => py_eq (json_get (fst kv) value) (snd kv)) expected.

(** [if str(uuid.UUID(x)) != x: raise ValueError], within [except (ValueError, TypeError)]:
    [UUID] of neither a text nor [None] raises what is not caught. *)
Definition require_uuid (x : json) (code : string) : result unit :=
  try_except (match x with
              | JStr s => n ← uuid_parse s; raise_if (negb (str_eqb (uuid_str n) s)) ValueError ""
              | JNull => raise TypeError "one of the hex, bytes, bytes_le, fields, or int arguments must be given"
              | _ => raise AttributeError "replace"
              end) [ValueError; TypeError] (fun _ => raise LiveAuthorityError code).

(** [_base] *)
Definition base `{UnicodeTables} (raw : json) (schema : string) (cases : list pystr) (digest subject_commit subject_tree : pystr)
    (now : Z) (extra : list pystr) : result (list (pystr * json) * list (pystr * json) * datetime) :=
  let fields := map u ["schema"; "subject_commit"; "subject_tree"; "plan_sha256"; "expires_at"; "cases"]%string ++ extra in
  d ← match raw with JDict d => Ok d | _ => raise LiveAuthorityError "LIVE_GRANT_INVALID" end;
  let value k := json_get (u k) d in
  live_if (negb (keys_equal d fields) || negb (json_is (value "schema") (u schema))) "LIVE_GRANT_INVALID" ;;
  live_if (negb (json_is (value "subject_commit") subject_commit && json_is (value "subject_tree") subject_tree) ||
           negb (OID subject_commit) || negb (OID subject_tree)) "LIVE_SUBJECT_MISMATCH" ;;
  live_if (negb (json_is (value "plan_sha256") digest)) "LIVE_PLAN_MISMATCH" ;;
  expires ← expiry (value "expires_at") now;
  grants ← match value "cases" with JDict grants => Ok grants | _ => raise LiveAuthorityError "LIVE_GRANT_INVALID" end;
  live_if (negb (keys_equal grants cases)) "LIVE_GRANT_INVALID" ;;
  Ok (d, grants, expires).

(** What a document of a case repeats: its plan and the binding. *)
Definition case_document (grants : list (pystr * json)) (case : pystr) (expected : list (pystr * json)) (extra : list string)
  : result (list (pystr * json)) :=
  value ← match json_get case grants with JDict value => Ok value | _ => raise LiveAuthorityError "LIVE_CASE_GRANT_MISMATCH" end;
  live_if (negb (keys_equal value (map fst expected ++ map u extra))) "LIVE_CASE_GRANT_MISMATCH" ;;
  live_if (negb (items_agree value expected)) "LIVE_CASE_GRANT_MISMATCH" ;;
  Ok value.

(** [validate_p2_bundle] *)
Definition p2_case_digest (case : pystr) (expected : list (pystr * json)) : result pystr :=
  if str_eqb case (u "A29") then json_sha256 (JDict expected) else plan_digest a07_plan.

Definition p2_grant (d grants : list (pystr * json)) (subject_commit subject_tree : pystr) (case : pystr)
    (expected : list (pystr * json)) : result (pystr * CaseGrant) :=
  case_sha ← p2_case_digest case expected;
  let binding :=
    [(u "journal_id", json_get (u "journal_id") d); (u "journal_sha256", json_get (u "journal_sha256") d);
     (u "subject_commit", JStr subject_commit); (u "subject_tree", JStr subject_tree); (u "plan_sha256", JStr case_sha);
     (u "expires_at", json_get (u "expires_at") d)] in
  value ← case_document grants case (expected ++ binding) ["grant_id"%string];
  require_uuid (json_get (u "grant_id") value) "LIVE_CASE_GRANT_MISMATCH" ;;
  sha ← json_sha256 (JDict value);
  Ok (case, mkCase value sha).

Definition validate_p2_bundle `{UnicodeTables} (raw : json) (subject_commit subject_tree : pystr) (now : Z) : result P2Authority :=
  digest ← cases_digest p2_cases;
  '(d, grants, expires) ← base raw "liqvera-p2-acceptance-grants/v1" (map fst p2_cases) digest subject_commit subject_tree now
    (map u ["journal_id"; "journal_sha256"]%string);
  require_uuid (json_get (u "journal_id") d) "LIVE_JOURNAL_INVALID" ;;
  live_if (negb (str_and DIGEST (json_get (u "journal_sha256") d))) "LIVE_JOURNAL_INVALID" ;;
  granted ← mapR (fun ce => p2_grant d grants subject_commit subject_tree (fst ce) (snd ce)) p2_cases;
  Ok (mkP2 expires (text_of (json_get (u "journal_id") d)) (text_of (json_get (u "journal_sha256") d)) granted).

(** [P2Authority.a07_grant] *)
Definition A07_KEYS : list pystr := map u
  ["grant_id"; "journal_id"; "journal_sha256"; "subject_commit"; "subject_tree"; "plan_sha256"; "method"; "url";
   "expires_at"; "maximum_attempts"; "timeout_seconds"; "max_response_bytes"; "body_sha256"]%string.

Definition a07_document (value : list (pystr * json)) : result json :=
  items ← mapR (fun k => x ← json_item k value; Ok (k, x)) A07_KEYS;
  Ok (JDict ((u "schema", JStr (u "liqvera-public-read-grant/v1")) :: items ++ [(u "case", JStr (u "A07"))])).

Definition a07_grant `{UnicodeTables} `{UrlLibrary} (authority : P2Authority) (now : Z) : result PublicReadGrant :=
  granted ← expect (assoc (u "A07") (p2_grants authority)) KeyError "A07";
  raw ← a07_document (cg_value granted);
  parse_grant raw now.

(** [validate_p3_bundle] *)
Definition p3_grant `{UnicodeTables} (d grants : list (pystr * json)) (digest subject_commit subject_tree : pystr) (case : pystr)
    (expected : list (pystr * json)) : result (pystr * CaseGrant) :=
  let expected :=
    [(u "schema", JStr (u "liqvera-mezo-payment-grant/v1")); (u "subject_commit", JStr subject_commit);
     (u "subject_tree", JStr subject_tree); (u "plan_sha256", JStr digest); (u "expires_at", json_get (u "expires_at") d)] ++ expected in
  value ← case_document grants case expected ["grant_id"; "buyer"; "pay_to"; "database_identity"]%string;
  let mismatch b := live_if b "LIVE_CASE_GRANT_MISMATCH" in
  buyer ← json_str (json_get (u "buyer") value);
  mismatch (negb (ADDRESS buyer)) ;;
  pay_to ← json_str (json_get (u "pay_to") value);
  mismatch (negb (ADDRESS pay_to)) ;;
  mismatch (str_eqb (ascii_lower buyer) (ascii_lower pay_to)) ;;
  identity ← json_str (json_get (u "database_identity") value);
  mismatch (negb (DIGEST identity)) ;;
  require_uuid (json_get (u "grant_id") value) "LIVE_CASE_GRANT_MISMATCH" ;;
  sha ← json_sha256 (JDict value);
  Ok (case, mkCase value sha).

Definition validate_p3_bundle `{UnicodeTables} (raw : json) (subject_commit subject_tree : pystr) (now : Z) : result P3Authority :=
  digest ← cases_digest p3_cases;
  '(d, grants, expires) ← base raw "liqvera-p3-payment-grants/v1" (map fst p3_cases) digest subject_commit subject_tree now [];
  granted ← mapR (fun ce => p3_grant d grants digest subject_commit subject_tree (fst ce) (snd ce)) p3_cases;
  live_if (negb match map (fun cg => JDict (cg_value (snd cg))) granted with [a13; a14] => py_eq a13 a14 | _ => true end)
    "LIVE_PAYMENT_LINK_MISMATCH" ;;
  Ok (mkP3 digest expires granted).

(** ** The read of a P2 bundle *)

Lemma live_if_Ok b code x : live_if b code = Ok x -> b = false.
Proof. unfold live_if, raise_if. by destruct b. Qed.

Lemma require_uuid_Ok x code : require_uuid x code = Ok tt -> exists s, x = JStr s /\ is_uuid s = true.
Proof.
  unfold require_uuid. destruct x as [| | | |s| |]; try done. intros Hx. exists s. split; [done|]. unfold is_uuid.
  destruct (uuid_parse s) as [n|e]; cbn [mbind result_bind try_except] in Hx.
  - unfold raise_if in Hx. by destruct (str_eqb (uuid_str n) s).
  - by destruct (existsb (exc_subclass (exn_class e)) _).
Qed.

Lemma json_item_get k d x : json_get k d = x -> x <> JNull -> json_item k d = Ok x.
Proof. unfold json_get, json_item. intros <-. by destruct (assoc k d). Qed.

Lemma items_agree_at value expected k v : items_agree value expected = true -> (k, v) ∈ expected -> py_eq (json_get k value) v = true.
Proof. unfold items_agree. rewrite forallb_forall. intros Ha Hin. apply (Ha (k, v)). by apply list_elem_of_In. Qed.

(** Two numbers that are integers. *)
Lemma py_eq_integer x z : is_int x = true -> py_eq x (JInt z) = true -> x = JInt z.
Proof.
  destruct x; try done. intros _. cbn [py_eq number_of]. unfold number_eqb. cbn [fst snd].
  change (2 ^ (0 - Z.min 0 0)) with 1. intros Hz%Z.eqb_eq. f_equal. lia.
Qed.

Section a07.
Context `{UnicodeTables} `{UrlLibrary}.

(** The read document, of the texts of the case. *)
Definition a07_raw (grant_id journal_id journal_sha commit tree plan_sha expires : pystr) : json := JDict
  [(u "schema", JStr (u "liqvera-public-read-grant/v1")); (u "grant_id", JStr grant_id); (u "journal_id", JStr journal_id);
   (u "journal_sha256", JStr journal_sha); (u "subject_commit", JStr commit); (u "subject_tree", JStr tree);
   (u "plan_sha256", JStr plan_sha); (u "method", JStr (u "LOCAL_POST")); (u "url", JStr A07_URL);
   (u "expires_at", JStr expires); (u "maximum_attempts", JInt 1); (u "timeout_seconds", JInt 15);
   (u "max_response_bytes", JInt 2097152); (u "body_sha256", JStr (sha256_hex A07_BODY)); (u "case", JStr (u "A07"))].

(** What [urlsplit] says of the URL of the plan. *)
Definition splits_a07 : Prop := exists parts, urlsplit A07_URL = Ok parts /\
  up_scheme parts = u "https" /\ up_username parts = None /\ up_password parts = None /\ up_port parts = Ok None.

Lemma parse_a07 grant_id journal_id journal_sha commit tree plan_sha expires at_ offset now :
  splits_a07 -> is_uuid grant_id = true -> is_uuid journal_id = true -> DIGEST journal_sha = true -> OID commit = true ->
  OID tree = true -> DIGEST plan_sha = true -> fromisoformat (zulu_to_offset expires) = Ok at_ -> dt_offset at_ = Some offset ->
  now < moment at_ <= now + MINUTES_15 -> in_15_minutes now = Ok (now + MINUTES_15) ->
  parse_grant (a07_raw grant_id journal_id journal_sha commit tree plan_sha expires) now =
  Ok (mkGrant grant_id journal_id journal_sha commit tree plan_sha (u "A07") (u "LOCAL_POST") A07_URL at_ 1 15 2097152 (sha256_hex A07_BODY)).
Proof.
  intros (parts & Hsplit & Hscheme & Huser & Hword & Hport) Hg Hj Hjs Hc Ht Hp Hexp Hoff Hnow Hin.
  unfold parse_grant, a07_raw. cbn [mbind result_bind]. set (d := [_; _; _; _; _; _; _; _; _; _; _; _; _; _; _]).
  assert (keys_equal d FIELDS = true) as -> by (vm_compute; reflexivity).
  replace (json_get (u "schema") d) with (JStr (u "liqvera-public-read-grant/v1")) by reflexivity.
  replace (json_get (u "grant_id") d) with (JStr grant_id) by reflexivity.
  replace (json_get (u "journal_id") d) with (JStr journal_id) by reflexivity.
  replace (json_get (u "journal_sha256") d) with (JStr journal_sha) by reflexivity.
  replace (json_get (u "subject_commit") d) with (JStr commit) by reflexivity.
  replace (json_get (u "subject_tree") d) with (JStr tree) by reflexivity.
  replace (json_get (u "plan_sha256") d) with (JStr plan_sha) by reflexivity.
  replace (json_get (u "method") d) with (JStr (u "LOCAL_POST")) by reflexivity.
  replace (json_get (u "url") d) with (JStr A07_URL) by reflexivity.
  replace (json_get (u "expires_at") d) with (JStr expires) by reflexivity.
  replace (json_get (u "maximum_attempts") d) with (JInt 1) by reflexivity.
  replace (json_get (u "timeout_seconds") d) with (JInt 15) by reflexivity.
  replace (json_get (u "max_response_bytes") d) with (JInt 2097152) by reflexivity.
  replace (json_get (u "body_sha256") d) with (JStr (sha256_hex A07_BODY)) by reflexivity.
  replace (json_get (u "case") d) with (JStr (u "A07")) by reflexivity. clearbody d.
  cbn [str_and text_of is_text json_is negb andb orb json_str mbind result_bind]. rewrite str_eqb_refl, Hg, Hj, Hjs, Hc, Ht, Hp, Hsplit.
  cbn [str_and grant_if raise_if negb andb orb mbind result_bind]. rewrite Hscheme, Huser, Hword, Hport, str_eqb_refl.
  cbn [given grant_if raise_if negb orb mbind result_bind other_port].
  assert (bool_decide ((u "A07", u "LOCAL_POST", A07_URL) ∈ ALLOWED) = true) as -> by (vm_compute; reflexivity).
  cbn [grant_if raise_if negb orb mbind result_bind]. rewrite Hexp. cbn [try_except mbind result_bind]. rewrite Hoff, Hin.
  rewrite (proj2 (Z.leb_gt (moment at_) now)) by lia. cbn [grant_if raise_if mbind result_bind]. rewrite (proj2 (Z.ltb_ge (now + MINUTES_15) (moment at_))) by lia.
  assert (DIGEST (sha256_hex A07_BODY) = true) as -> by (vm_compute; reflexivity). reflexivity.
Qed.

Lemma py_eq_text_l x s : py_eq (JStr s) x = true -> x = JStr s.
Proof. destruct x; try done. cbn. by intros ->%str_eqb_spec. Qed.

Lemma expiry_Ok x now at_ :
  expiry x now = Ok at_ ->
  (exists s, json_str x = Ok s /\ fromisoformat (zulu_to_offset s) = Ok at_) /\ (exists offset, dt_offset at_ = Some offset) /\
  now < moment at_ <= now + MINUTES_15.
Proof.
  unfold expiry. intros He. apply bind_Ok in He as (value & Hv & He). apply bind_Ok in He as ([] & Ho & He).
  apply bind_Ok in He as ([] & Hnow%live_if_Ok & He). apply bind_Ok in He as (latest & Hl & He).
  apply bind_Ok in He as ([] & Hlate%live_if_Ok & [= ->]).
  assert (latest = now + MINUTES_15) as -> by (clear -Hl; unfold in_15_minutes in Hl; inv_ok; done).
  apply Z.leb_gt in Hnow. apply Z.ltb_ge in Hlate. split_and!; [| |done..].
  - apply try_except_Ok in Hv as [(s & Hs & Hf)%bind_Ok|(e & _ & Hv)]; [by exists s|done].
  - apply raise_if_Ok, negb_false_iff in Ho. destruct (dt_offset at_) as [o|]; [by exists o|done].
Qed.

(** What the checks of [base] and of a case leave. *)
Lemma base_Ok raw schema cases digest commit tree now extra d grants at_ :
  base raw schema cases digest commit tree now extra = Ok (d, grants, at_) ->
  raw = JDict d /\ OID commit = true /\ OID tree = true /\ expiry (json_get (u "expires_at") d) now = Ok at_ /\
  json_get (u "cases") d = JDict grants.
Proof.
  unfold base. intros Hb. apply bind_Ok in Hb as (d' & Hd & Hb). apply bind_Ok in Hb as ([] & _ & Hb).
  apply bind_Ok in Hb as ([] & Hs%live_if_Ok & Hb). apply bind_Ok in Hb as ([] & _ & Hb).
  apply bind_Ok in Hb as (e & He & Hb). apply bind_Ok in Hb as (g & Hg & Hb). apply bind_Ok in Hb as ([] & _ & [= -> -> ->]).
  apply orb_false_iff in Hs as [Hs Ht]. apply orb_false_iff in Hs as [_ Hc]. apply negb_false_iff in Hc, Ht.
  destruct raw; try discriminate Hd. injection Hd as ->.
  destruct (json_get (u "cases") d) as [| | | | | |cases_]; try discriminate Hg. injection Hg as ->. by split_and!.
Qed.

Lemma case_document_Ok grants case expected extra value :
  case_document grants case expected extra = Ok value -> json_get case grants = JDict value /\ items_agree value expected = true.
Proof.
  unfold case_document. intros Hc. apply bind_Ok in Hc as (v & Hv & Hc). apply bind_Ok in Hc as ([] & _ & Hc).
  apply bind_Ok in Hc as ([] & Ha%live_if_Ok & [= ->]). apply negb_false_iff in Ha.
  split; [|done]. destruct (json_get case grants); try done. by injection Hv as ->.
Qed.

(** The limits of a case are integers: the bundle is compared with [==], which admits [1.0]
    and [True] for [1], and the grant is not. *)
Definition LIMITS : list string := ["maximum_attempts"; "timeout_seconds"; "max_response_bytes"]%string.
Definition integral_limits (value : list (pystr * json)) : Prop := forall k, k ∈ LIMITS -> is_int (json_get (u k) value) = true.

Lemma a07_document_texts value grant_id journal_id journal_sha commit tree plan_sha expires :
  integral_limits value ->
  json_get (u "grant_id") value = JStr grant_id ->
  items_agree value (a07_case ++
    [(u "journal_id", JStr journal_id); (u "journal_sha256", JStr journal_sha); (u "subject_commit", JStr commit);
     (u "subject_tree", JStr tree); (u "plan_sha256", JStr plan_sha); (u "expires_at", JStr expires)]) = true ->
  a07_document value = Ok (a07_raw grant_id journal_id journal_sha commit tree plan_sha expires).
Proof.
  intros Hint Hid Hitems. set (expected := a07_case ++ _) in Hitems.
  assert (forall k s, (u k, JStr s) ∈ expected -> json_item (u k) value = Ok (JStr s)) as Htext.
  { intros k s Hin. apply json_item_get; [|done]. apply py_eq_text. exact (items_agree_at _ _ _ _ Hitems Hin). }
  assert (forall k z, (u k, JInt z) ∈ expected -> k ∈ LIMITS ->
    json_item (u k) value = Ok (JInt z)) as Hnumber.
  { intros k z Hin Hk. apply json_item_get; [|done]. apply py_eq_integer; [by apply Hint|]. exact (items_agree_at _ _ _ _ Hitems Hin). }
  apply json_item_get in Hid; [|done].
  assert (forall {A} (x : A) l n, l !! n = Some x -> x ∈ l) as Hat by (intros A x l n; apply list_elem_of_lookup_2).
  unfold a07_document, A07_KEYS. cbn [map mapR]. rewrite Hid.
  rewrite (Htext "journal_id"%string journal_id) by exact (Hat _ _ expected 7%nat eq_refl).
  rewrite (Htext "journal_sha256"%string journal_sha) by exact (Hat _ _ expected 8%nat eq_refl).
  rewrite (Htext "subject_commit"%string commit) by exact (Hat _ _ expected 9%nat eq_refl).
  rewrite (Htext "subject_tree"%string tree) by exact (Hat _ _ expected 10%nat eq_refl).
  rewrite (Htext "plan_sha256"%string plan_sha) by exact (Hat _ _ expected 11%nat eq_refl).
  rewrite (Htext "method"%string (u "LOCAL_POST")) by exact (Hat _ _ expected 1%nat eq_refl).
  rewrite (Htext "url"%string A07_URL) by exact (Hat _ _ expected 2%nat eq_refl).
  rewrite (Htext "expires_at"%string expires) by exact (Hat _ _ expected 12%nat eq_refl).
  rewrite (Hnumber "maximum_attempts"%string 1) by (first [exact (Hat _ _ expected 6%nat eq_refl)|by left]).
  rewrite (Hnumber "timeout_seconds"%string 15) by (first [exact (Hat _ _ expected 4%nat eq_refl)|by right; left]).
  rewrite (Hnumber "max_response_bytes"%string 2097152) by (first [exact (Hat _ _ expected 5%nat eq_refl)|by right; right; left]).
  rewrite (Htext "body_sha256"%string (sha256_hex A07_BODY)) by exact (Hat _ _ expected 3%nat eq_refl).
  reflexivity.
Qed.

Lemma a07_body_sha : plan_body_sha256 a07_plan = sha256_hex A07_BODY.
Proof. unfold plan_body_sha256, a07_plan. cbn [pl_body]. reflexivity. Qed.

(** The A07 case of a validated bundle. *)
Lemma p2_bundle_case raw commit tree now a :
  validate_p2_bundle raw commit tree now = Ok a ->
  exists d grants value sha plan_sha,
    raw = JDict d /\ OID commit = true /\ OID tree = true /\ expiry (json_get (u "expires_at") d) now = Ok (p2_expires_at a) /\
    json_get (u "journal_id") d = JStr (p2_journal_id a) /\ is_uuid (p2_journal_id a) = true /\
    json_get (u "journal_sha256") d = JStr (p2_journal_sha256 a) /\ DIGEST (p2_journal_sha256 a) = true /\
    json_get (u "A07") grants = JDict value /\ plan_digest a07_plan = Ok plan_sha /\
    assoc (u "A07") (p2_grants a) = Some (mkCase value sha) /\
    (exists grant_id, json_get (u "grant_id") value = JStr grant_id /\ is_uuid grant_id = true) /\
    items_agree value (a07_case ++
      [(u "journal_id", json_get (u "journal_id") d); (u "journal_sha256", json_get (u "journal_sha256") d);
       (u "subject_commit", JStr commit); (u "subject_tree", JStr tree); (u "plan_sha256", JStr plan_sha);
       (u "expires_at", json_get (u "expires_at") d)]) = true.
Proof.
  unfold validate_p2_bundle. intros Hv. apply bind_Ok in Hv as (digest & _ & Hv).
  apply bind_Ok in Hv as ([[d grants] at_] & Hb & Hv). apply base_Ok in Hb as (-> & Hc & Ht & He & _).
  apply bind_Ok in Hv as ([] & (j & Hj & Hju)%require_uuid_Ok & Hv). apply bind_Ok in Hv as ([] & Hs%live_if_Ok & Hv).
  apply negb_false_iff in Hs. apply bind_Ok in Hv as (granted & Hg & [= <-]).
  cbn [p2_cases mapR fst snd] in Hg. apply bind_Ok in Hg as (g7 & Hg7 & Hg). apply bind_Ok in Hg as (g29 & _ & [= <-]).
  unfold p2_grant in Hg7. apply bind_Ok in Hg7 as (plan_sha & Hp & Hg7). cbv zeta in Hg7.
  apply bind_Ok in Hg7 as (value & (Hcase & Hitems)%case_document_Ok & Hg7).
  apply bind_Ok in Hg7 as ([] & (gid & Hgid & Hgu)%require_uuid_Ok & Hg7). apply bind_Ok in Hg7 as (sha & _ & [= <-]).
  exists d, grants, value, sha, plan_sha. cbn [p2_expires_at p2_journal_id p2_journal_sha256 p2_grants]. rewrite Hj. cbn [text_of].
  destruct (json_get (u "journal_sha256") d) as [| | | |js| |] eqn:Ejs; cbn [str_and] in Hs; try discriminate Hs. cbn [text_of].
  rewrite Hj in Hitems. split_and!; [reflexivity|exact Hc|exact Ht|exact He|reflexivity|exact Hju|reflexivity|exact Hs|exact Hcase|exact Hp|reflexivity
  |exists gid; split; [exact Hgid|exact Hgu]|exact Hitems].
Qed.

Lemma json_item_Ok k d x : json_item k d = Ok x -> json_get k d = x.
Proof. unfold json_get, json_item. destruct (assoc k d); [by intros [= ->]|done]. Qed.

(** What the runner reads of a case is what the grant is parsed from. *)
Lemma a07_document_item value d k :
  a07_document value = Ok (JDict d) -> k ∈ LIMITS -> json_get (u k) d = json_get (u k) value.
Proof.
  unfold a07_document, A07_KEYS, LIMITS. cbn [map mapR]. intros Hd Hk. inv_ok.
  repeat match goal with H : json_item _ value = Ok _ |- _ => apply json_item_Ok in H as <- end.
  repeat (apply elem_of_cons in Hk as [->|Hk]; [reflexivity|]). by apply elem_of_nil in Hk.
Qed.

(** A grant is parsed only of integral limits. *)
Lemma parse_grant_limits d now grant k : parse_grant (JDict d) now = Ok grant -> k ∈ LIMITS -> is_int (json_get (u k) d) = true.
Proof.
  unfold parse_grant, LIMITS. cbv zeta. intros Hp Hk. cbn [mbind result_bind] in Hp.
  do 6 (apply bind_Ok in Hp as ([] & _ & Hp)). apply bind_Ok in Hp as (parsed & _ & Hp). do 2 (apply bind_Ok in Hp as ([] & _ & Hp)).
  apply bind_Ok in Hp as (port & _ & Hp). apply bind_Ok in Hp as ([] & _ & Hp). apply bind_Ok in Hp as (expires & _ & Hp).
  apply bind_Ok in Hp as ([] & _ & Hp). apply bind_Ok in Hp as (latest & _ & Hp). apply bind_Ok in Hp as ([] & _ & Hp).
  apply bind_Ok in Hp as ([] & Hl & _). unfold grant_if in Hl. apply raise_if_Ok, orb_false_iff in Hl as [Hl _].
  apply negb_false_iff, andb_true_iff in Hl as [[Ha Hb]%andb_true_iff Hc].
  repeat (apply elem_of_cons in Hk as [->|Hk]; [done|]). by apply elem_of_nil in Hk.
Qed.

(** The grant of a case whose limits are integers. *)
Lemma a07_grant_of_case raw commit tree now a t granted :
  splits_a07 -> validate_p2_bundle raw commit tree now = Ok a ->
  assoc (u "A07") (p2_grants a) = Some granted -> is_text (json_get (u "expires_at") (cg_value granted)) = true ->
  integral_limits (cg_value granted) ->
  now <= t < moment (p2_expires_at a) -> t + MINUTES_15 < (MAX_ORDINAL + 1) * DAY_US ->
  exists grant, a07_grant a t = Ok grant /\ authorize grant a07_plan commit tree t = Ok tt /\
    gr_expires_at grant = p2_expires_at a /\ gr_journal_id grant = p2_journal_id a /\ gr_journal_sha256 grant = p2_journal_sha256 a.
Proof.
  intros Hsplit Hv Hgranted Htext Hplain Ht Hend.
  destruct (p2_bundle_case _ _ _ _ _ Hv) as (d & grants & value & sha & plan_sha & -> & Hc & Htr & He & Hj & Hju & Hjs & Hjd & _ &
    Hp & Hassoc & (gid & Hgid & Hgu) & Hitems).
  assert (granted = mkCase value sha) as -> by congruence. cbn [cg_value] in Htext, Hplain.
  assert (exists s, json_get (u "expires_at") value = JStr s /\ json_get (u "expires_at") d = JStr s) as (s & Hes & Hed).
  { destruct (json_get (u "expires_at") value) as [| | | |s| |] eqn:E; try discriminate Htext.
    exists s. split; [reflexivity|]. apply py_eq_text_l. rewrite <- E. set (expected := a07_case ++ _) in Hitems.
    exact (items_agree_at _ _ (u "expires_at") (json_get (u "expires_at") d) Hitems (list_elem_of_lookup_2 expected 12%nat _ eq_refl)). }
  rewrite Hj, Hjs, Hed in Hitems. rewrite Hed in He. apply expiry_Ok in He as ((s' & [= <-] & Hf) & (offset & Hoff) & Hmoment).
  assert (DIGEST plan_sha = true) as Hpd.
  { assert (match plan_digest a07_plan with Ok sha => DIGEST sha | Raise _ => false end = true) as E by (vm_compute; reflexivity).
    by rewrite Hp in E. }
  exists (mkGrant gid (p2_journal_id a) (p2_journal_sha256 a) commit tree plan_sha (u "A07") (u "LOCAL_POST") A07_URL
            (p2_expires_at a) 1 15 2097152 (sha256_hex A07_BODY)).
  assert (in_15_minutes t = Ok (t + MINUTES_15)) as Hin
    by (unfold in_15_minutes; rewrite (proj2 (Z.leb_gt _ _)) by lia; reflexivity).
  split; [|split; [|split_and!; reflexivity]].
  - unfold a07_grant. rewrite Hassoc. cbn [expect mbind result_bind cg_value].
    rewrite (a07_document_texts value gid (p2_journal_id a) (p2_journal_sha256 a) commit tree plan_sha s Hplain Hgid Hitems).
    cbn [mbind result_bind]. 
    exact (parse_a07 gid _ _ commit tree plan_sha s (p2_expires_at a) offset t Hsplit Hgu Hju Hjd Hc Htr Hpd Hf Hoff ltac:(lia) Hin).
  - exact (authorize_intro (mkGrant gid (p2_journal_id a) (p2_journal_sha256 a) commit tree plan_sha (u "A07") (u "LOCAL_POST")
      A07_URL (p2_expires_at a) 1 15 2097152 (sha256_hex A07_BODY)) a07_plan t (proj2 Ht) Hp
      eq_refl eq_refl eq_refl eq_refl eq_refl eq_refl a07_body_sha).
Qed.

(** C22: of a validated P2 bundle whose A07 case has a text for its expiry, at any time from
    the validation until it expires (and fifteen minutes before the end of the calendar),
    the runner gets a grant exactly when the limits of that case are
    integers, which the validation, comparing with [==], does not ask ([1.0] and [true]
    pass it); and any grant that it gets is of the bundle's journal and expiry, and
    authorises the plan that the runner executes for the commit of the bundle. The
    library that splits URLs is supposed to split the one of the plan as documented. *)
Theorem a07_grant_authorises raw commit tree now a t :
  splits_a07 -> validate_p2_bundle raw commit tree now = Ok a ->
  (forall granted, assoc (u "A07") (p2_grants a) = Some granted -> is_text (json_get (u "expires_at") (cg_value granted)) = true) ->
  now <= t < moment (p2_expires_at a) -> t + MINUTES_15 < (MAX_ORDINAL + 1) * DAY_US ->
  (exists granted, assoc (u "A07") (p2_grants a) = Some granted /\
     (is_Ok (a07_grant a t) = true <-> integral_limits (cg_value granted))) /\
  forall grant, a07_grant a t = Ok grant -> authorize grant a07_plan commit tree t = Ok tt /\
    gr_expires_at grant = p2_expires_at a /\ gr_journal_id grant = p2_journal_id a /\ gr_journal_sha256 grant = p2_journal_sha256 a.
Proof.
  intros Hsplit Hv Htext Ht Hend.
  destruct (p2_bundle_case _ _ _ _ _ Hv) as (_ & _ & value & sha & _ & _ & _ & _ & _ & _ & _ & _ & _ & _ & _ & Hassoc & _).
  specialize (Htext _ Hassoc). pose proof (a07_grant_of_case raw commit tree now a t _ Hsplit Hv Hassoc Htext) as Hgrant.
  assert (forall grant, a07_grant a t = Ok grant -> integral_limits value) as Hints.
  { unfold a07_grant. rewrite Hassoc. cbn [expect mbind result_bind cg_value]. intros grant (document & Hd & Hg)%bind_Ok k Hk.
    destruct document as [| | | | | |d]; try discriminate Hg. rewrite <- (a07_document_item value d k Hd Hk). by eapply parse_grant_limits. }
  split.
  - exists (mkCase value sha). split; [exact Hassoc|]. split.
    + intros Hok. destruct (a07_grant a t) as [grant|] eqn:E; [by apply (Hints grant)|discriminate Hok].
    + intros Hl. destruct (Hgrant Hl Ht Hend) as (grant & -> & _). reflexivity.
  - intros grant Hg. destruct (Hgrant (Hints grant Hg) Ht Hend) as (grant' & Hg' & Hrest). by replace grant with grant' by congruence.
Qed.
End a07.

(** ** The payment of a P3 bundle *)

Lemma p3_grant_Ok `{UnicodeTables} d grants digest commit tree case expected granted :
  p3_grant d grants digest commit tree case expected = Ok granted ->
  exists value sha buyer pay_to, granted = (case, mkCase value sha) /\ json_get case grants = JDict value /\
  json_sha256 (JDict value) = Ok sha /\
  items_agree value ([(u "schema", JStr (u "liqvera-mezo-payment-grant/v1")); (u "subject_commit", JStr commit);
     (u "subject_tree", JStr tree); (u "plan_sha256", JStr digest); (u "expires_at", json_get (u "expires_at") d)] ++ expected) = true /\
  json_str (json_get (u "buyer") value) = Ok buyer /\ ADDRESS buyer = true /\
  json_str (json_get (u "pay_to") value) = Ok pay_to /\ ADDRESS pay_to = true /\ ascii_lower buyer <> ascii_lower pay_to.
Proof.
  unfold p3_grant. cbv zeta. intros Hg. apply bind_Ok in Hg as (value & (Hcase & Hitems)%case_document_Ok & Hg).
  apply bind_Ok in Hg as (buyer & Hb & Hg). apply bind_Ok in Hg as ([] & Hab%live_if_Ok & Hg).
  apply bind_Ok in Hg as (pay_to & Hp & Hg). apply bind_Ok in Hg as ([] & Hap%live_if_Ok & Hg).
  apply bind_Ok in Hg as ([] & Hne%live_if_Ok & Hg). apply bind_Ok in Hg as (identity & _ & Hg).
  apply bind_Ok in Hg as ([] & _ & Hg). apply bind_Ok in Hg as ([] & _ & Hg). apply bind_Ok in Hg as (sha & Hs & [= <-]).
  apply negb_false_iff in Hab, Hap. exists value, sha, buyer, pay_to.
  split_and!; [reflexivity|exact Hcase|exact Hs|exact Hitems|exact Hb|exact Hab|exact Hp|exact Hap|].
  intros E. rewrite E, str_eqb_refl in Hne. discriminate Hne.
Qed.

(** The payment grant of a validated bundle: of the commit, the tree and the plan, not
    expired, between two addresses. *)
Lemma p3_bundle_case `{UnicodeTables} raw commit tree now a granted :
  validate_p3_bundle raw commit tree now = Ok a -> assoc (u "A13") (p3_grants a) = Some granted ->
  exists d grants buyer pay_to, raw = JDict d /\ json_get (u "cases") d = JDict grants /\
  json_get (u "A13") grants = JDict (cg_value granted) /\ json_sha256 (JDict (cg_value granted)) = Ok (cg_digest granted) /\
  OID commit = true /\ OID tree = true /\ now < moment (p3_expires_at a) <= now + MINUTES_15 /\
  items_agree (cg_value granted) p3_payment = true /\
  json_str (json_get (u "buyer") (cg_value granted)) = Ok buyer /\ ADDRESS buyer = true /\
  json_str (json_get (u "pay_to") (cg_value granted)) = Ok pay_to /\ ADDRESS pay_to = true /\ ascii_lower buyer <> ascii_lower pay_to.
Proof.
  unfold validate_p3_bundle. intros Hv Ha. apply bind_Ok in Hv as (digest & _ & Hv).
  apply bind_Ok in Hv as ([[d grants] at_] & (-> & Hc & Ht & He & Hcases)%base_Ok & Hv).
  apply bind_Ok in Hv as (granted_ & Hg & Hv). apply bind_Ok in Hv as ([] & _ & [= <-]).
  cbn [p3_cases mapR fst snd] in Hg. apply bind_Ok in Hg as (g13 & Hg13 & Hg). apply bind_Ok in Hg as (g14 & _ & [= <-]).
  apply p3_grant_Ok in Hg13 as (value & sha & buyer & pay_to & -> & Hcase & Hs & Hitems & Hb & Hab & Hp & Hap & Hne).
  cbn [p3_grants] in Ha. assert (granted = mkCase value sha) as -> by (injection Ha as <-; reflexivity).
  apply expiry_Ok in He as (_ & _ & He). exists d, grants, buyer, pay_to. cbn [cg_value cg_digest p3_expires_at].
  assert (items_agree value p3_payment = true) as Hplan.
  { unfold items_agree in *. rewrite forallb_app in Hitems. by apply andb_true_iff in Hitems as [_ ?]. }
  split_and!; [reflexivity|exact Hcases|exact Hcase|exact Hs|exact Hc|exact Ht|apply He|apply He|exact Hplan|exact Hb|exact Hab|exact Hp|exact Hap|exact Hne].
Qed.

(** ** A bundle and the grant it yields *)

#[local] Instance demo_a07_urls : UrlLibrary := fun url =>
  if str_eqb url A07_URL
  then Ok (mkParts (u "https") None None (Ok None) (Some (u "source.invalid")) (u "/internal/v1/reports") [])
  else raise ValueError "not a URL of this library".

Definition demo_oid : pystr := repeat 97 40.
Definition demo_sha : pystr := repeat 98 64.
Definition demo_expires : pystr := u "2026-09-29T17:05:00Z".
Definition demo_grant_id : pystr := u "00000000-0000-4000-8000-000000000007".
Definition sha_or_empty (m : result pystr) : pystr := match m with Ok sha => sha | Raise _ => [] end.
Definition p2_sha : pystr := Eval vm_compute in sha_or_empty (cases_digest p2_cases).

Definition demo_case (case : pystr) (expected : list (pystr * json)) : json := JDict (expected ++
  [(u "grant_id", JStr demo_grant_id); (u "journal_id", JStr demo_grant_id); (u "journal_sha256", JStr demo_sha);
   (u "subject_commit", JStr demo_oid); (u "subject_tree", JStr demo_oid);
   (u "plan_sha256", JStr (sha_or_empty (p2_case_digest case expected))); (u "expires_at", JStr demo_expires)]).

Definition demo_p2 : json := Eval vm_compute in JDict
  [(u "schema", JStr (u "liqvera-p2-acceptance-grants/v1")); (u "subject_commit", JStr demo_oid); (u "subject_tree", JStr demo_oid);
   (u "plan_sha256", JStr p2_sha); (u "expires_at", JStr demo_expires); (u "journal_id", JStr demo_grant_id);
   (u "journal_sha256", JStr demo_sha);
   (u "cases", JDict [(u "A07", demo_case (u "A07") a07_case); (u "A29", demo_case (u "A29") a29_case)])].

(** 2026-09-29 17:00:00 UTC and a minute later. *)
Definition demo_validated : Z := Eval vm_compute in local_us (mkTime 2026 9 29 17 0 0 0 None).
Definition demo_used : Z := Eval vm_compute in demo_validated + 60000000.

Definition text_expiry (a : P2Authority) : bool :=
  match assoc (u "A07") (p2_grants a) with Some granted => is_text (json_get (u "expires_at") (cg_value granted)) | None => true end.

Lemma demo_p2_validated : exists a,
  validate_p2_bundle demo_p2 demo_oid demo_oid demo_validated = Ok a /\
  text_expiry a && is_Ok (a07_grant a demo_used) && (demo_used <? moment (p2_expires_at a)) = true.
Proof. apply Ok_satisfies. vm_compute. reflexivity. Qed.

Lemma a07_grant_authorises_witness : exists a grant,
  validate_p2_bundle demo_p2 demo_oid demo_oid demo_validated = Ok a /\
  a07_grant a demo_used = Ok grant /\ authorize grant a07_plan demo_oid demo_oid demo_used = Ok tt.
Proof.
  destruct demo_p2_validated as (a & Ha & [[Hp Hok]%andb_true_iff Hu]%andb_true_iff). apply Z.ltb_lt in Hu.
  destruct (a07_grant a demo_used) as [grant|] eqn:Hg; [|discriminate Hok]. exists a, grant. split; [exact Ha|]. split; [exact Hg|].
  refine (proj1 (proj2 (a07_grant_authorises demo_p2 demo_oid demo_oid demo_validated a demo_used _ Ha _ _ _) grant Hg)).
  - eexists. split; [reflexivity|]. split_and!; reflexivity.
  - intros granted Hgr. unfold text_expiry in Hp. by rewrite Hgr in Hp.
  - split; [|exact Hu]. by vm_compute.
  - by vm_compute.
Defined.

(** A bundle whose expiry has no offset, or whose grant identifier is no text, leaves with
    an exception the contract does not name. *)
Example naive_expiry_escapes : expiry (JStr (u "2026-09-29T17:05:00")) demo_validated =
  raise TypeError "can't compare offset-naive and offset-aware datetimes".
Proof. vm_compute. reflexivity. Qed.
Example numeric_uuid_escapes : require_uuid (JInt 7) "LIVE_CASE_GRANT_MISMATCH" = raise AttributeError "replace".
Proof. reflexivity. Qed.

(** The hash of the payment plan. *)
Definition p3_sha : pystr := Eval vm_compute in sha_or_empty (cases_digest p3_cases).
