(* ===== verification/Operator.v ===== *)
(** * The payment operator: [tools/mezo_acceptance/p3_operator.py]

    The operator turns a grant of a P3 bundle into one settlement: it checks the grant
    and the signed payment, consumes the grant in a durable store, settles, and from
    then on only confirms.  The store and the facilitator are interfaces the operator is
    given; their methods are the calls of the programs here. *)

From S2P Require Import Prelude PyStr Num PyObj Json Bytes EvidenceIo Calendar IsoTime MezoDex Programs PublicRead Authority.
Open Scope Z_scope.

Abbreviation dict := (list (pystr * json)).

Definition REQUIRED_MIGRATIONS : dict :=
  [(u "001_ledger.sql", JStr (u "bc127e55c876961112f33ca2abdfac01827769d6156ddba2f42856d070c75b3b"));
   (u "002_fix_immutable_ledger_identity.sql", JStr (u "981f48215e64fdd0fb72be5a6df78238cf8050de722adb454b4e28b1940ccbcb"));
   (u "003_live_grant_consumption.sql", JStr (u "bbedff6137a648166b77233c56a466e46247480b404b8829b64f29123109bcf0"));
   (u "004_receipt_confirmation_provenance.sql", JStr (u "96bba00d344d81670a4c0f8741186004910e959f374ecd77ce78268d52fd465a"));
   (u "005_receipt_confirmation_count.sql", JStr (u "e99e5cffab60c08dfb1cd73d13caf2915f31aec542c26c87b016d0e125a23b11"))].

Definition PAYMENT_FIELDS : list pystr := map u
  ["schema"; "quote_id"; "scope_hash"; "report_id"; "payment_signature"; "buyer"; "pay_to"]%string.

Definition operator_if (b : bool) (code : string) : result unit := raise_if b P3OperatorError code.

(** [isinstance(x, str) and 1 <= len(x) <= 16384] *)
Definition is_signature : json -> bool := str_and (fun s => (1 <=? zlength s) && (zlength s <=? 16384)).

(** [test(str(x))] *)
Definition text_matches `{UnicodeTables} (test : pystr -> bool) (x : json) : result bool := s ← json_str x; Ok (test s).

(** [load_payment_input], of the decoded file. *)
Definition load_payment_input `{UnicodeTables} (raw : json) : result dict :=
  let refuse b := operator_if b "P3_PAYMENT_INPUT_INVALID" in
  d ← match raw with JDict d => Ok d | _ => raise P3OperatorError "P3_PAYMENT_INPUT_INVALID" end;
  refuse (negb (keys_equal d PAYMENT_FIELDS) || negb (json_is (json_get (u "schema") d) (u "liqvera-p3-signed-payment/v1"))) ;;
  scope ← text_matches DIGEST (json_get (u "scope_hash") d);
  refuse (negb scope) ;;
  buyer ← text_matches ADDRESS (json_get (u "buyer") d);
  refuse (negb buyer) ;;
  pay_to ← text_matches ADDRESS (json_get (u "pay_to") d);
  refuse (negb pay_to || py_eq (json_get (u "buyer") d) (json_get (u "pay_to") d) ||
          negb (is_signature (json_get (u "payment_signature") d))) ;;
  Ok d.

(** The document of the payment case. *)
Definition payment_grant (authority : P3Authority) : result dict :=
  granted ← expect (assoc (u "A13") (p3_grants authority)) KeyError "A13"; Ok (cg_value granted).

(** [grant_digest] *)
Definition grant_hash (authority : P3Authority) : result pystr := grant ← payment_grant authority; json_sha256 (JDict grant).

(** What a payment must be for a grant. *)
Definition check_payment `{UnicodeTables} (payment : json) (grant : dict) : result dict :=
  let refuse b := operator_if b "P3_PAYMENT_INPUT_INVALID" in
  d ← match payment with JDict d => Ok d | _ => raise P3OperatorError "P3_PAYMENT_INPUT_INVALID" end;
  refuse (negb (keys_equal d PAYMENT_FIELDS) || negb (json_is (json_get (u "schema") d) (u "liqvera-p3-signed-payment/v1"))) ;;
  buyer ← json_item (u "buyer") grant;
  refuse (negb (py_eq (json_get (u "buyer") d) buyer)) ;;
  pay_to ← json_item (u "pay_to") grant;
  refuse (negb (py_eq (json_get (u "pay_to") d) pay_to)) ;;
  scope ← text_matches DIGEST (json_get (u "scope_hash") d);
  refuse (negb scope || negb (is_signature (json_get (u "payment_signature") d))) ;;
  Ok d.

(** ** The calls *)

(** Of the clock, of the store and of the external adapters. *)
Inductive event : Type -> Type :=
  | OperatorNow : event Z
  | Migrations : event dict
  | Existing (digest : pystr) : event (option dict)
  | Consume (digest : pystr) (grant_id : json) (payment : dict) : event bool
  | MarkUnknown (tx_hash : json) : event unit
  | Confirm (observation : dict) : event unit
  | Snapshot (buyer : json) : event json
  | Verify (payment : dict) : event dict
  | Settle (payment : dict) : event dict
  | Confirmation (tx_hash : json) (state : dict) : event (option dict).

(** [{**d, **e}] *)
Definition merged (d e : dict) : dict := fold_left (fun d kv => assoc_set (fst kv) (snd kv) d) e d.

Section operator.
Context `{UnicodeTables} `{UnicodeLower}.

(** [_validate] *)
Definition validate (bundle payment : json) (subject_commit subject_tree : pystr) : prog event (P3Authority * dict * dict) :=
  now ← do OperatorNow;
  authority ← lift (validate_p3_bundle bundle subject_commit subject_tree now);
  grant ← lift (payment_grant authority);
  payment ← lift (check_payment payment grant);
  lift (Ok (authority, grant, payment)).

(** [preflight] *)
Definition PREFLIGHT_KEYS : list pystr := map u
  ["network"; "asset"; "amount_atomic"; "maximum_settlement_submissions"; "max_buyer_native_gas_wei"; "asset_transfer_method";
   "permit2_address"; "permit2_proxy"; "approval_mode"; "required_extension"; "authorization_identity_version";
   "facilitator_url"; "rpc_url"; "database_identity_kind"; "database_host_policy"; "database_identity"]%string.

Definition preflight_document (authority : P3Authority) (grant : dict) (subject_commit subject_tree : pystr) : result dict :=
  grant_id ← json_item (u "grant_id") grant;
  digest ← grant_hash authority;
  buyer ← json_item (u "buyer") grant;
  pay_to ← json_item (u "pay_to") grant;
  copied ← mapR (fun k =>
    x ← (if str_eqb k (u "maximum_settlement_submissions") then Ok (JInt 1) else json_item k grant); Ok (k, x)) PREFLIGHT_KEYS;
  Ok ([(u "schema", JStr (u "liqvera-p3-preflight/v1")); (u "subject_commit", JStr subject_commit);
       (u "subject_tree", JStr subject_tree); (u "plan_sha256", JStr (p3_digest authority)); (u "grant_id", grant_id);
       (u "grant_digest", JStr digest); (u "buyer", buyer); (u "pay_to", pay_to)] ++ copied ++
      [(u "migration_checksums", JDict REQUIRED_MIGRATIONS); (u "external_calls", JInt 0); (u "database_writes", JInt 0)]).

Definition preflight (bundle payment : json) (subject_commit subject_tree : pystr) : prog event dict :=
  '(authority, grant, _) ← validate bundle payment subject_commit subject_tree;
  lift (preflight_document authority grant subject_commit subject_tree).

(** [_check_migrations] *)
Definition check_migrations : prog event unit :=
  migrations ← do Migrations; lift (operator_if (negb (py_eq (JDict migrations) (JDict REQUIRED_MIGRATIONS))) "P3_MIGRATION_MISMATCH").

(** ** [_reconcile] *)

Definition CONFIRMATION_FIELDS : list pystr := map u
  ["tx_hash"; "transaction_from"; "buyer_native_balance_before"; "buyer_native_balance_after"; "buyer_native_gas_spent";
   "observation_before_block_number"; "observation_before_block_hash"; "observation_after_block_number";
   "observation_after_block_hash"; "block_number"; "block_hash"; "log_index"; "confirmations"; "authorization_identity";
   "transfer_identity"; "payer"; "pay_to"]%string.

(** [x < 12] *)
Definition below_12 (x : json) : result bool :=
  match x with
  | JFloat FNan => Ok false
  | JFloat (FInf neg) => Ok neg
  | _ => match number_of x with
         | Some (m, e) => Ok (if 0 <=? e then m * 2 ^ e <? 12 else m <? 12 * 2 ^ (- e))
         | None => raise TypeError "'<' not supported between instances"
         end
  end.

(** The checks of a confirmation, in their order. *)
Definition check_confirmation (confirmation : dict) (tx_hash : json) (grant : dict) : result unit :=
  let mismatch b := operator_if b "P3_CONFIRMATION_MISMATCH" in
  let value k := json_get (u k) confirmation in
  mismatch (negb (keys_equal confirmation CONFIRMATION_FIELDS) || negb (py_eq (value "tx_hash") tx_hash)) ;;
  buyer ← json_item (u "buyer") grant;
  mismatch (negb (py_eq (value "payer") buyer)) ;;
  pay_to ← json_item (u "pay_to") grant;
  mismatch (negb (py_eq (value "pay_to") pay_to)) ;;
  sender ← lower_method (value "transaction_from");
  buyer_ ← lower_method buyer;
  mismatch (str_eqb sender buyer_) ;;
  mismatch (negb (py_eq (value "buyer_native_balance_before") (value "buyer_native_balance_after")) ||
            negb (py_eq (value "buyer_native_gas_spent") (JStr (u "0")))) ;;
  few ← below_12 (value "confirmations");
  mismatch few.

Definition unknown_document (grant_id : json) (digest : pystr) (tx_hash : json) : dict :=
  [(u "schema", JStr (u "liqvera-p3-payment-observation/v1")); (u "status", JStr (u "UNKNOWN")); (u "grant_id", grant_id);
   (u "grant_digest", JStr digest); (u "tx_hash", tx_hash); (u "settlement_count", JInt 1); (u "retry_allowed", JBool false)].

Definition confirmed_document (grant_id : json) (digest : pystr) (confirmation : dict) : dict :=
  merged [(u "schema", JStr (u "liqvera-p3-payment-observation/v1")); (u "status", JStr (u "CONFIRMED")); (u "grant_id", grant_id);
          (u "grant_digest", JStr digest); (u "settlement_count", JInt 1); (u "retry_allowed", JBool false)] confirmation.

Definition stored_document (state : dict) (digest : pystr) : dict :=
  merged state [(u "grant_digest", JStr digest); (u "settlement_count", JInt 1)].

Definition reconcile (state : option dict) (digest : pystr) (grant : dict) : prog event dict :=
  state ← lift (expect state TypeError "'NoneType' object is not subscriptable");
  phase ← lift (json_item (u "state") state);
  if json_is phase (u "CONFIRMED") then lift (Ok (stored_document state digest))
  else
    let tx_hash := json_get (u "tx_hash") state in
    confirmation ← do (Confirmation tx_hash state);
    grant_id ← lift (json_item (u "grant_id") grant);
    match confirmation with
    | None => lift (Ok (unknown_document grant_id digest tx_hash))
    | Some confirmation =>
      lift (check_confirmation confirmation tx_hash grant) ;;
      let observation := confirmed_document grant_id digest confirmation in
      do (Confirm observation) ;;
      lift (Ok observation)
    end.

(** ** [execute] *)

(** From the store's knowledge of the grant. *)
Definition pay (digest : pystr) (grant payment : dict) : prog event dict :=
  existing ← do (Existing digest);
  match existing with
  | Some _ => reconcile existing digest grant
  | None =>
    buyer ← lift (json_item (u "buyer") grant);
    before ← do (Snapshot buyer);
    verified ← do (Verify payment);
    let durable_payment := merged (merged payment verified) [(u "before", before)] in
    grant_id ← lift (json_item (u "grant_id") grant);
    consumed ← do (Consume digest grant_id durable_payment);
    if consumed : bool then
      settled ← do (Settle payment);
      do (MarkUnknown (json_get (u "tx_hash") settled)) ;;
      state ← do (Existing digest);
      reconcile state digest grant
    else
      existing ← do (Existing digest);
      match existing with
      | None => lift (raise P3OperatorError "P3_CONSUMPTION_CONFLICT")
      | Some _ => reconcile existing digest grant
      end
  end.

Definition execute (bundle payment : json) (subject_commit subject_tree : pystr) : prog event dict :=
  '(authority, grant, payment) ← validate bundle payment subject_commit subject_tree;
  check_migrations ;;
  digest ← lift (grant_hash authority);
  pay digest grant payment.
End operator.
