(* ===== verification/OperatorSafety.v ===== *)
(** * One settlement for a grant, whatever happens

    Operators run at once over one durable store, fail, and stop for ever between any two
    calls.  The store is an interface: what it promises is that it consumes a grant once
    and remembers it.  Proved against that interface: in every interleaving a grant is
    settled at most once, by the operator that consumed it, after its checks; and what an
    operator returns is the row that the store had for its grant while it ran, or a
    confirmation of the transaction of that row that passed every check, or a refusal to
    retry it. *)

From S2P Require Import Prelude PyStr Num PyObj Json Bytes EvidenceIo Calendar IsoTime MezoDex Programs PublicRead Authority Operator.
From stdpp Require Import gmap.
Open Scope Z_scope.

(** ** The store *)

(** The methods of a store, and the grants it has consumed. *)
Class PaymentStore (St : Type) := {
  ps_migrations : St -> dict;
  ps_existing : St -> pystr -> option dict;
  ps_consume : St -> pystr -> json -> dict -> bool * St;
  ps_mark_unknown : St -> json -> St;
  ps_confirm : St -> dict -> St;
  ps_spent : St -> gset pystr }.

(** What its transaction promises: the digest is the key of a row that is never removed. *)
Class PaymentStoreLaws (St : Type) `{PaymentStore St} := {
  consume_once s digest grant_id payment s' : ps_consume s digest grant_id payment = (true, s') ->
    (digest ∉ ps_spent s) /\ (digest ∈ ps_spent s') /\ ps_spent s ⊆ ps_spent s';
  consume_refused s digest grant_id payment s' : ps_consume s digest grant_id payment = (false, s') -> ps_spent s ⊆ ps_spent s';
  mark_unknown_keeps s tx_hash : ps_spent s ⊆ ps_spent (ps_mark_unknown s tx_hash);
  confirm_keeps s observation : ps_spent s ⊆ ps_spent (ps_confirm s observation);
  existing_spent s digest : is_Some (ps_existing s digest) <-> digest ∈ ps_spent s }.

(** ** What the calls do *)

(** An operator, with the digest of the grant it was given. *)
Definition operator : Type := positive * pystr.

(** What was asked of the facilitator and the chain, by whom. *)
Inductive outside := AskedSnapshot | AskedVerify | AskedSettle (payment : dict) | AskedConfirmation.

(** The store; who consumed each grant, which the code does not see; and the external calls. *)
Record ledger (St : Type) := mkLedger { lg_store : St; lg_owner : gmap pystr operator; lg_outside : list (operator * outside) }.
Arguments mkLedger {St} _ _ _.
Arguments lg_store {St} _.
Arguments lg_owner {St} _.
Arguments lg_outside {St} _.

(** What an operator does not decide; a call that fails may have had its effect. *)
Record outcome := mkOutcome {
  oc_fault : option exn; oc_done : bool; oc_time : Z; oc_document : json; oc_verified : dict; oc_settled : dict;
  oc_confirmation : option dict }.

Section calls.
Context {St : Type} `{PaymentStore St}.

Definition with_store (s : ledger St) (store : St) : ledger St := mkLedger store (lg_owner s) (lg_outside s).
Definition asked (me : operator) (x : outside) (s : ledger St) : ledger St := mkLedger (lg_store s) (lg_owner s) ((me, x) :: lg_outside s).

Definition effect (me : operator) (B : Type) (e : event B) (oc : outcome) (s : ledger St) : result B * ledger St :=
  match e with
  | OperatorNow => (Ok (oc_time oc), s)
  | Migrations => (Ok (ps_migrations (lg_store s)), s)
  | Existing digest => (Ok (ps_existing (lg_store s) digest), s)
  | Consume digest grant_id payment =>
    match ps_consume (lg_store s) digest grant_id payment with
    | (true, store) => (Ok true, mkLedger store (<[digest := me]> (lg_owner s)) (lg_outside s))
    | (false, store) => (Ok false, with_store s store)
    end
  | MarkUnknown tx_hash => (Ok tt, with_store s (ps_mark_unknown (lg_store s) tx_hash))
  | Confirm observation => (Ok tt, with_store s (ps_confirm (lg_store s) observation))
  | Snapshot _ => (Ok (oc_document oc), asked me AskedSnapshot s)
  | Verify _ => (Ok (oc_verified oc), asked me AskedVerify s)
  | Settle payment => (Ok (oc_settled oc), asked me (AskedSettle payment) s)
  | Confirmation _ _ => (Ok (oc_confirmation oc), asked me AskedConfirmation s)
  end.

Definition external {B} (e : event B) : bool :=
  match e with Snapshot _ | Verify _ | Settle _ | Confirmation _ _ => true | _ => false end.

(** A failed call of an adapter counts as made. *)
Definition perform_call (me : operator) (B : Type) (e : event B) (oc : outcome) (s : ledger St) : result B * ledger St :=
  match oc_fault oc with
  | None => effect me B e oc s
  | Some error => (Raise error, if external e || oc_done oc then snd (effect me B e oc s) else s)
  end.

(** ** What an operator owns *)

Definition consumed (o : operator) (s : ledger St) : Prop := lg_owner s !! snd o = Some o.

(** The settlements asked of the facilitator. *)
Definition settled (s : ledger St) : list (operator * dict) :=
  omap (fun x => match snd x with AskedSettle payment => Some (fst x, payment) | _ => None end) (lg_outside s).

Definition settles (o : operator) (s : ledger St) : list (operator * dict) := filter (fun x => fst x = o) (settled s).

Definition pay_rely (me : operator) (s s' : ledger St) : Prop :=
  settles me s' = settles me s /\ (consumed me s -> consumed me s') /\ ps_spent (lg_store s) ⊆ ps_spent (lg_store s').

Definition pay_act (_ : operator) (_ _ : ledger St) : Prop := True.
Definition any_outcome (_ : outcome) (_ : ledger St) : Prop := True.
Definition pay_stop (_ : operator) (s : ledger St) : ledger St := s.
Definition settled_nothing (o : operator) (s : ledger St) : Prop := settles o s = [].

Lemma pay_rely_refl o s : pay_rely o s s.
Proof. done. Qed.

Lemma pay_rely_trans o s1 s2 s3 : pay_rely o s1 s2 -> pay_rely o s2 s3 -> pay_rely o s1 s3.
Proof. intros (Ha & Hc & Hs) (Ha' & Hc' & Hs'). split_and!; [congruence|auto|set_solver]. Qed.

(** ** What is promised of every settlement *)

Context `{UnicodeTables} `{UnicodeLower}.

(** A payment that passed the checks of an unexpired bundle whose grant has the digest. *)
Definition checked_payment (digest : pystr) (payment : dict) : Prop :=
  exists bundle commit tree now authority grant,
    validate_p3_bundle bundle commit tree now = Ok authority /\ payment_grant authority = Ok grant /\
    grant_hash authority = Ok digest /\ check_payment (JDict payment) grant = Ok payment.

Definition pay_inv (s : ledger St) : Prop :=
  (forall o payment, (o, payment) ∈ settled s -> consumed o s /\ checked_payment (snd o) payment) /\
  NoDup (map fst (settled s)) /\
  (forall digest o, lg_owner s !! digest = Some o -> digest = snd o /\ digest ∈ ps_spent (lg_store s)).

(** What a returned document stands for, where [moment P] is that [P] held at a moment
    while the operator was under way: the row that the store had for the grant, which was
    confirmed; or an unknown settlement that must not be retried, of the transaction of
    that row; or a confirmation of that transaction that passed every check, and that the
    store was given. *)
Definition outcome_ok (o : operator) (bundle : json) (commit tree : pystr) (document : dict) (moment : (ledger St -> Prop) -> Prop) : Prop :=
  exists row, moment (fun t => ps_existing (lg_store t) (snd o) = Some row) /\
  ((exists phase, json_item (u "state") row = Ok phase /\ json_is phase (u "CONFIRMED") = true /\ document = stored_document row (snd o)) \/
   exists now authority grant grant_id,
     validate_p3_bundle bundle commit tree now = Ok authority /\ payment_grant authority = Ok grant /\
     grant_hash authority = Ok (snd o) /\ json_item (u "grant_id") grant = Ok grant_id /\
     (document = unknown_document grant_id (snd o) (json_get (u "tx_hash") row) \/
      exists confirmation, check_confirmation confirmation (json_get (u "tx_hash") row) grant = Ok tt /\
        document = confirmed_document grant_id (snd o) confirmation /\
        moment (fun t => exists store, lg_store t = ps_confirm store document))).

Lemma outcome_moment o bundle commit tree document (m m' : (ledger St -> Prop) -> Prop) :
  (forall P, m P -> m' P) -> outcome_ok o bundle commit tree document m -> outcome_ok o bundle commit tree document m'.
Proof.
  intros Hm (row & Hrow & Hc). exists row. split; [by apply Hm|]. destruct Hc as [Hc|(now & authority & grant & gid & Hb & Hg & Hd & Hi & Hc)]; [by left|].
  right. exists now, authority, grant, gid. split_and!; try done. destruct Hc as [Hc|(c & Hc & Hdoc & Hs)]; [by left|]. right. exists c. split_and!; try done. by apply Hm.
Qed.

(** A moment of the past. *)
Definition past_moment (h : list (ledger St)) (P : ledger St -> Prop) : Prop := exists t, t ∈ h /\ P t.

Lemma past_moment_later h h' P : h ⊆ h' -> past_moment h P -> past_moment h' P.
Proof. intros Hh (t & Ht & HP). exists t. split; [by apply Hh|done]. Qed.

(** What an operator ends with, over the states since its start. *)
Definition accounted (o : operator) (bundle : json) (commit tree : pystr) (document : dict) (sp : ledger St * list (ledger St)) : Prop :=
  snd o ∈ ps_spent (lg_store (fst sp)) /\ outcome_ok o bundle commit tree document (past_moment (snd sp)).

Context `{!PaymentStoreLaws St}.

Abbreviation perform_since := (perform_past perform_call).
Abbreviation admissible_since := (admissible_past any_outcome).
Abbreviation inv_since := (Inv_past pay_inv).
Abbreviation rely_since := (rely_past pay_rely).
Abbreviation act_since := (act_past pay_act).
Abbreviation safe := (safe perform_since admissible_since inv_since rely_since act_since).
Abbreviation guarantee := (guarantee pay_inv pay_rely pay_act).

Lemma rely_since_refl o sp : rely_since o sp sp.
Proof. apply rely_past_refl, pay_rely_refl. Qed.

Lemma rely_since_trans o s1 s2 s3 : rely_since o s1 s2 -> rely_since o s2 s3 -> rely_since o s1 s3.
Proof. apply rely_past_trans, pay_rely_trans. Qed.

(** ** The calls that neither consume nor settle *)

Definition passive {B} (e : event B) : Prop :=
  match e with Consume _ _ _ | Settle _ => False | _ => True end.

(** The store may only grow. *)
Definition keeps (s s' : ledger St) : Prop :=
  settled s' = settled s /\ lg_owner s' = lg_owner s /\ ps_spent (lg_store s) ⊆ ps_spent (lg_store s').

Lemma passive_keeps {B} me (e : event B) oc s : passive e -> keeps s (snd (perform_call me B e oc s)).
Proof.
  intros He. assert (keeps s s) as Hs by done.
  assert (keeps s (snd (effect me B e oc s))) as Hf.
  { destruct e; try done; cbn [effect snd]; try exact Hs; split_and!; try done; [apply mark_unknown_keeps|apply confirm_keeps]. }
  unfold perform_call. destruct (oc_fault oc); [|exact Hf]. cbn [snd]. by destruct (external e || oc_done oc).
Qed.

Lemma keeps_inv s s' : keeps s s' -> pay_inv s -> pay_inv s'.
Proof.
  intros (Hst & Ho & Hs) (Hi & Hn & Hw). unfold pay_inv, consumed in *. rewrite Hst, Ho. split_and!; [done|done|].
  intros digest o Hd. destruct (Hw digest o Hd). set_solver.
Qed.

Lemma keeps_rely o s s' : keeps s s' -> pay_rely o s s'.
Proof. intros (Hst & Ho & Hs). unfold pay_rely, settles, consumed. by rewrite Hst, Ho. Qed.

Lemma pay_silent me B (e : event B) oc s :
  passive e -> any_outcome oc s -> pay_inv s ->
  guarantee me s (snd (perform_call me B e oc s)) /\ pay_rely me s (snd (perform_call me B e oc s)).
Proof.
  intros He _ Hi. pose proof (passive_keeps me e oc s He) as Hk. split; [|by apply keeps_rely].
  split_and!; [by apply (keeps_inv s)|done|]. intros o _. by apply keeps_rely.
Qed.

Lemma pay_silent_since me B (e : event B) oc sp :
  passive e -> admissible_since oc sp -> inv_since sp ->
  Programs.guarantee inv_since rely_since act_since me sp (snd (perform_since me B e oc sp)) /\ rely_since me sp (snd (perform_since me B e oc sp)).
Proof. apply (silent_past perform_call any_outcome pay_inv pay_rely pay_act (@passive) pay_silent). Qed.

Abbreviation safe_do := (safe_silent_do _ _ _ _ _ rely_since_trans (@passive) pay_silent_since).
Abbreviation safe_quiet_bind := (safe_silent_bind _ _ _ _ _ rely_since_refl rely_since_trans (@passive) pay_silent_since).
Abbreviation safe_lift := (safe_Ok_lift perform_since admissible_since inv_since rely_since act_since).
Abbreviation safe_return := (safe_Ok_return perform_since admissible_since inv_since rely_since act_since).
Abbreviation quiet := (silent_program (@passive)).

(** ** The two calls that matter *)

Lemma guarantee_consume me grant_id payment store s :
  pay_inv s -> ps_consume (lg_store s) (snd me) grant_id payment = (true, store) ->
  guarantee me s (mkLedger store (<[snd me := me]> (lg_owner s)) (lg_outside s)).
Proof.
  intros (Hi & Hn & Hw) Hc. destruct (consume_once _ _ _ _ _ Hc) as (Hnew & Hin & Hsub).
  assert (forall o, consumed o s -> snd o <> snd me) as Hother.
  { intros o Ho Heq. destruct (Hw _ _ Ho) as [_ Hs]. rewrite Heq in Hs. done. }
  assert (forall o, consumed o s -> lookup (snd o) (<[snd me := me]> (lg_owner s)) = Some o) as Hkeep.
  { intros o Ho. rewrite lookup_insert_ne; [exact Ho|]. intros Heq. by apply (Hother o). }
  split_and!; [|done|].
  - split_and!; [|done|].
    + intros o p Hp. destruct (Hi o p Hp) as [Ho Hch]. split; [by apply Hkeep|done].
    + cbn [lg_owner lg_store]. intros digest o. rewrite lookup_insert_Some. intros [[<- <-]|[_ Hd]]; [done|].
      destruct (Hw _ _ Hd). set_solver.
  - intros o _. split_and!; [done|apply Hkeep|exact Hsub].
Qed.

Lemma guarantee_refused me grant_id payment store s :
  pay_inv s -> ps_consume (lg_store s) (snd me) grant_id payment = (false, store) ->
  guarantee me s (with_store s store) /\ pay_rely me s (with_store s store).
Proof.
  intros Hi Hc. assert (keeps s (with_store s store)) as Hk by (split_and!; [done..|exact (consume_refused _ _ _ _ _ Hc)]).
  split; [|by apply keeps_rely]. split_and!; [by apply (keeps_inv s)|done|]. intros o _. by apply keeps_rely.
Qed.

Lemma guarantee_settle me payment s :
  pay_inv s -> consumed me s -> settles me s = [] -> checked_payment (snd me) payment ->
  guarantee me s (asked me (AskedSettle payment) s).
Proof.
  intros (Hi & Hn & Hw) Hc Hs Hp. split_and!; [|done|].
  - split_and!; [|cbn; apply NoDup_cons; split; [|exact Hn]|exact Hw].
    + intros o p. cbn. intros [[= -> ->]|Hin]%elem_of_cons; [done|by apply Hi].
    + intros ([o p] & -> & Hin)%list_elem_of_fmap. assert ((o, p) ∈ settles o s) as Hin2 by by apply list_elem_of_filter.
      cbn in Hs, Hin2. rewrite Hs in Hin2. by apply elem_of_nil in Hin2.
  - intros o Ho. split_and!; [|done|done]. unfold settles. change (settled (asked me (AskedSettle payment) s)) with ((me, payment) :: settled s).
    by rewrite filter_cons_False by (cbn; congruence).
Qed.

(** ** The operations *)

(** The row that the store has for a grant, once it is consumed. *)
Definition known (digest : pystr) (row : option dict) (sp : ledger St * list (ledger St)) : Prop :=
  forall d, row = Some d -> digest ∈ ps_spent (lg_store (fst sp)) /\
    past_moment (snd sp) (fun t => ps_existing (lg_store t) digest = Some d).

(** A call that leaves the state alone. *)
Lemma guarantee_stay me s : pay_inv s -> guarantee me s s.
Proof. intros Hi. by apply (pay_silent me _ OperatorNow (mkOutcome None false 0 JNull [] [] None)). Qed.

Lemma safe_existing {A} me digest (f : option dict -> prog event A) sp Q :
  (forall row sp', rely_since me sp sp' -> known digest row sp' -> safe me (f row) sp' (on_Ok Q)) ->
  safe me (do (Existing digest) ≫= f) sp (on_Ok Q).
Proof.
  intros Hf. apply safe_Call. intros [s1 h1] oc Hr [Hi _] _. unfold perform_past, perform_call. cbn [external effect fst snd] in *.
  destruct (oc_fault oc) as [e|]; cbn [fst snd].
  - assert ((if false || oc_done oc then s1 else s1) = s1) as -> by by destruct (oc_done oc).
    split; [by apply (guarantee_past _ _ _ me (s1, h1)), guarantee_stay|by apply safe_Done].
  - split; [by apply (guarantee_past _ _ _ me (s1, h1)), guarantee_stay|].
    apply Hf; [apply (rely_since_trans _ _ _ _ Hr); split; [apply pay_rely_refl|intros t Ht; by right]|]. intros d Hd.
    split; [cbn; apply existing_spent; by rewrite Hd|]. exists s1. split; [by left|done].
Qed.

(** A confirmation is given to the store before it is returned. *)
Lemma safe_confirm {A} me observation (f : unit -> prog event A) sp Q :
  (forall sp', rely_since me sp sp' -> past_moment (snd sp') (fun t => exists store, lg_store t = ps_confirm store observation) ->
    safe me (f tt) sp' (on_Ok Q)) ->
  safe me (do (Confirm observation) ≫= f) sp (on_Ok Q).
Proof.
  intros Hf. apply safe_Call. intros [s1 h1] oc Hr Hi Hoc.
  destruct (pay_silent_since me _ (Confirm observation) oc (s1, h1) I Hoc Hi) as [Hg Hrc]. split; [exact Hg|].
  pose proof (rely_since_trans _ _ _ _ Hr Hrc) as Hr2. clear Hr Hrc Hg. unfold perform_past, perform_call in *. cbn [external effect fst snd orb] in *.
  destruct (oc_fault oc) as [e|]; cbn [fst snd prog_then] in *; [by apply safe_Done|].
  apply Hf; [exact Hr2|]. exists (with_store s1 (ps_confirm (lg_store s1) observation)). split; [by left|]. by exists (lg_store s1).
Qed.

Lemma safe_reconcile me row grant authority bundle commit tree now sp :
  validate_p3_bundle bundle commit tree now = Ok authority -> payment_grant authority = Ok grant -> grant_hash authority = Ok (snd me) ->
  known (snd me) row sp ->
  safe me (reconcile row (snd me) grant) sp (on_Ok (accounted me bundle commit tree)).
Proof.
  intros Hb Hg Hd Hknown. unfold reconcile. apply safe_lift. intros d ->%expect_Ok. destruct (Hknown d eq_refl) as [Hspent Hrow].
  apply safe_lift. intros phase Hphase. destruct (json_is phase (u "CONFIRMED")) eqn:Ec.
  { apply safe_return. intros document s' [= <-] [(_ & _ & Hs) Hh] _. split; [set_solver|]. exists d.
    split; [by apply (past_moment_later (snd sp))|]. left. by exists phase. }
  apply safe_do; [exact I|]. intros confirmation s1 [(_ & _ & Hs1) Hh1]. apply safe_lift. intros grant_id Hgid.
  destruct confirmation as [confirmation|].
  - apply safe_lift. intros [] Hc. apply safe_confirm. intros s2 [(_ & _ & Hs2) Hh2] Hstored.
    apply safe_return. intros document s3 [= <-] [(_ & _ & Hs3) Hh3] _. split; [set_solver|]. exists d.
    split; [by apply (past_moment_later (snd sp)); [set_solver|]|]. right. exists now, authority, grant, grant_id. split_and!; try done.
    right. exists confirmation. split_and!; try done. by apply (past_moment_later (snd s2)).
  - apply safe_return. intros document s2 [= <-] [(_ & _ & Hs2) Hh2] _. split; [set_solver|]. exists d.
    split; [by apply (past_moment_later (snd sp)); [set_solver|]|]. right. exists now, authority, grant, grant_id. split_and!; try done. by left.
Qed.

Lemma settled_nothing_rely o s s' : pay_rely o s s' -> settled_nothing o s -> settled_nothing o s'.
Proof. intros (Hs & _) Hn. unfold settled_nothing. by rewrite Hs. Qed.

(** From the consumption on. *)
Lemma safe_settle me grant payment authority bundle commit tree now sp :
  validate_p3_bundle bundle commit tree now = Ok authority -> payment_grant authority = Ok grant -> grant_hash authority = Ok (snd me) ->
  check_payment (JDict payment) grant = Ok payment -> settled_nothing me (fst sp) -> consumed me (fst sp) ->
  safe me (settled ← do (Settle payment);
           do (MarkUnknown (json_get (u "tx_hash") settled)) ;;
           state ← do (Existing (snd me));
           reconcile state (snd me) grant) sp (on_Ok (accounted me bundle commit tree)).
Proof.
  intros Hb Hg Hd Hp Hn Hc. apply safe_Call. intros [s6 h6] oc6 [(Hs6 & Hc6 & _) _] [Hi6 _] _. cbn [fst snd] in *.
  assert (guarantee me s6 (asked me (AskedSettle payment) s6)) as Hgs.
  { apply guarantee_settle; [exact Hi6|by apply Hc6|by rewrite Hs6|]. by exists bundle, commit, tree, now, authority, grant. }
  apply (guarantee_past _ _ _ me (s6, h6)) in Hgs.
  unfold perform_past, perform_call. cbn [effect external orb fst snd]. destruct (oc_fault oc6) as [e|]; cbn [fst snd prog_then].
  { split; [exact Hgs|by apply safe_Done]. }
  split; [exact Hgs|]. apply safe_do; [exact I|]. intros _ s7 _. apply safe_existing. intros state s8 _ Hknown.
  by eapply safe_reconcile.
Qed.

Lemma safe_pay me grant payment authority bundle commit tree now sp :
  validate_p3_bundle bundle commit tree now = Ok authority -> payment_grant authority = Ok grant -> grant_hash authority = Ok (snd me) ->
  check_payment (JDict payment) grant = Ok payment -> settled_nothing me (fst sp) ->
  safe me (pay (snd me) grant payment) sp (on_Ok (accounted me bundle commit tree)).
Proof.
  intros Hb Hg Hd Hp Hn. unfold pay. apply safe_existing. intros existing s1 [Hr1 _] Hknown1.
  destruct existing as [d|]; [by eapply safe_reconcile|]. apply (settled_nothing_rely _ _ _ Hr1) in Hn.
  apply safe_lift. intros buyer _. apply safe_do; [exact I|]. intros before s2 [Hr2 _]. apply safe_do; [exact I|]. intros verified s3 [Hr3 _].
  apply safe_lift. intros grant_id _. apply (settled_nothing_rely _ _ _ Hr2), (settled_nothing_rely _ _ _ Hr3) in Hn.
  apply safe_Call. intros [s4 h4] oc [Hr4 _] [Hi4 _] _. apply (settled_nothing_rely _ _ _ Hr4) in Hn. cbn [fst snd] in *.
  pose proof (guarantee_past _ _ _ me (s4, h4) s4 (guarantee_stay me s4 Hi4)) as Hstay.
  unfold perform_past, perform_call. cbn [effect external orb fst snd].
  destruct (ps_consume (lg_store s4) (snd me) grant_id _) as [[] store] eqn:Ec; cbn [fst snd].
  - pose proof (guarantee_past _ _ _ me (s4, h4) _ (guarantee_consume _ _ _ _ _ Hi4 Ec)) as Hgc. set (s5 := mkLedger store _ _) in *.
    assert (consumed me s5) as Hc5 by apply lookup_insert_eq.
    assert (settled_nothing me s5) as Hn5 by exact Hn. clearbody s5.
    destruct (oc_fault oc) as [e|]; cbn [fst snd prog_then].
    { split; [|by apply safe_Done]. by destruct (oc_done oc). }
    split; [exact Hgc|]. by eapply safe_settle.
  - destruct (guarantee_refused _ _ _ _ _ Hi4 Ec) as [Hgr Hrr]. apply (guarantee_past _ _ _ me (s4, h4)) in Hgr.
    destruct (oc_fault oc) as [e|]; cbn [fst snd prog_then].
    { split; [|by apply safe_Done]. by destruct (oc_done oc). }
    split; [exact Hgr|]. apply safe_existing. intros existing s5 _ Hknown5.
    destruct existing as [d|]; [by eapply safe_reconcile|]. by apply safe_return.
Qed.

Lemma safe_execute me bundle payment commit tree sp :
  (forall authority now digest, validate_p3_bundle bundle commit tree now = Ok authority -> grant_hash authority = Ok digest -> digest = snd me) ->
  settled_nothing me (fst sp) -> safe me (execute bundle payment commit tree) sp (on_Ok (accounted me bundle commit tree)).
Proof.
  intros Hme Hn. unfold execute, validate.
  eapply (Programs.safe_Ok_bind _ _ _ _ _ rely_since_refl _ _ _ _ (fun x sp' => settled_nothing me (fst sp') /\ exists now,
    validate_p3_bundle bundle commit tree now = Ok (fst (fst x)) /\ payment_grant (fst (fst x)) = Ok (snd (fst x)) /\
    check_payment (JDict (snd x)) (snd (fst x)) = Ok (snd x))).
  - apply safe_do; [exact I|]. intros now s1 [Hr1 _]. apply safe_lift. intros authority Ha. apply safe_lift. intros grant Hg.
    apply safe_lift. intros p Hp. apply safe_return. intros x s2 [= <-] [Hr2 _] _.
    split; [by apply (settled_nothing_rely _ (fst s1)), (settled_nothing_rely _ (fst sp))|]. exists now. cbn [fst snd]. split_and!; [done|done|].
    unfold check_payment in *. destruct payment as [| | | | | |d]; try done. cbn [mbind result_bind] in *.
    assert (d = p) as <- by (clear -Hp; inv_ok; done). exact Hp.
  - intros [[authority grant] p] s1 _ (Hn1 & now & Ha & Hg & Hp). cbn [fst snd] in *.
    apply safe_quiet_bind; [by apply silent_program_bind|]. intros _ s2 [Hr2 _]. apply safe_lift. intros digest Hd.
    pose proof (Hme _ _ _ Ha Hd) as ->. eapply safe_pay; [done..|]. by apply (settled_nothing_rely _ (fst s1)).
Qed.

(** ** Every interleaving *)

Definition paying (o : operator) (p : prog event dict) : Prop :=
  exists bundle payment commit tree, p = execute bundle payment commit tree /\
  forall authority now digest, validate_p3_bundle bundle commit tree now = Ok authority -> grant_hash authority = Ok digest -> digest = snd o.

Definition pays_reachable (s0 : ledger St) (c : ledger St * gmap operator (prog event dict)) : Prop :=
  reachable perform_call any_outcome pay_stop settled_nothing paying s0 c.

(** Of a result, nothing more than that its grant is spent. *)
Definition ends_spent (o : operator) : result dict -> ledger St -> Prop := on_Ok (fun _ s => snd o ∈ ps_spent (lg_store s)).

Lemma paying_safe o p s :
  paying o p -> pay_inv s -> settled_nothing o s ->
  Programs.safe perform_call any_outcome pay_inv pay_rely pay_act o p s (ends_spent o).
Proof.
  intros (bundle & payment & commit & tree & -> & Hme) _ Hn.
  eapply safe_mono; [apply (safe_present _ _ _ _ _ _ _ _ []), (safe_execute o bundle payment commit tree (s, []) Hme Hn)|].
  intros [document|e] s' [h Ha]; [apply Ha|done].
Qed.

Lemma pay_inv_initial s0 : settled s0 = [] -> lg_owner s0 = ∅ -> pay_inv s0.
Proof.
  intros Hs Ho. split_and!; [rewrite Hs; intros o p []%elem_of_nil|rewrite Hs; apply NoDup_nil_2|rewrite Ho; intros d o; by rewrite lookup_empty].
Qed.

Lemma pays_ok s0 c :
  settled s0 = [] -> lg_owner s0 = ∅ -> pays_reachable s0 c ->
  config_ok perform_call any_outcome pay_inv pay_rely pay_act ends_spent c.
Proof.
  intros Hs Ho Hr. refine (reachable_ok perform_call any_outcome pay_inv pay_rely pay_act pay_rely_refl pay_rely_trans pay_stop settled_nothing paying
    _ _ _ paying_safe s0 c (pay_inv_initial s0 Hs Ho) Hr); [done|]. intros o s. apply guarantee_stay.
Qed.

(** C18: whatever operators run at once over a store that consumes a grant once, and wherever
    their calls fail or they stop for ever: no grant is settled twice; who asked for a
    settlement had consumed its grant, which stays spent, with a payment that passed the
    checks of a validated bundle. *)
Theorem settled_at_most_once s0 s pool :
  settled s0 = [] -> lg_owner s0 = ∅ -> pays_reachable s0 (s, pool) ->
  NoDup (map (fun x => snd (fst x)) (settled s)) /\
  forall o payment, (o, payment) ∈ settled s ->
    consumed o s /\ snd o ∈ ps_spent (lg_store s) /\ checked_payment (snd o) payment.
Proof.
  intros Hs Ho Hr. destruct (pays_ok _ _ Hs Ho Hr) as [(Hi & Hn & Hw) _]. cbn [fst snd] in *. split.
  - clear -Hi Hn. induction (settled s) as [|[o p] l IH]; [apply NoDup_nil_2|]. cbn in *.
    apply NoDup_cons in Hn as [Hno Hn]. apply NoDup_cons. split.
    + intros ([o' q] & E & Hq)%list_elem_of_fmap. cbn in E. apply Hno.
      destruct (Hi o p) as [Hc _]; [left|]. destruct (Hi o' q) as [Hc' _]; [by right|]. unfold consumed in *.
      rewrite <- E in Hc'. assert (o = o') as -> by congruence. apply list_elem_of_fmap. by exists (o', q).
    + apply IH; [|done]. intros o' q Hq. apply Hi. by right.
  - intros o payment Hin. destruct (Hi o payment Hin) as [Hc Hp]. split_and!; [exact Hc|by apply (Hw _ _ Hc)|exact Hp].
Qed.

(** C19: what an operator returns is of a spent grant, and of the row that the store had for
    that grant at a moment while the operator was under way: that row, when it was
    confirmed; or an unknown settlement of the row's transaction, not to be retried; or a
    confirmation of that transaction that passed every check for the grant of the
    operator's bundle, and that the store was given first. *)
Theorem returned_payments_accounted s0 s pool o document :
  settled s0 = [] -> lg_owner s0 = ∅ -> pays_reachable s0 (s, pool) -> pool !! o = Some (Done (Ok document)) ->
  exists bundle payment commit tree s1 pool1,
    pays_reachable s0 (s1, pool1) /\ pool1 !! o = Some (execute bundle payment commit tree) /\
    meanwhile perform_call any_outcome pay_stop settled_nothing paying o (s1, pool1) (s, pool) /\
    snd o ∈ ps_spent (lg_store s) /\
    outcome_ok o bundle commit tree document
      (at_a_moment perform_call any_outcome pay_stop settled_nothing paying o (s1, pool1) (s, pool)).
Proof.
  intros Hs Ho Hr Hd.
  destruct (end_past perform_call any_outcome pay_inv pay_rely pay_act pay_stop settled_nothing paying ends_spent s0 (s, pool) o (Ok document)
    pay_rely_refl pay_rely_trans (fun _ _ => I) (fun o s => guarantee_stay o s) paying_safe (pay_inv_initial s0 Hs Ho) Hr Hd)
    as (s1 & pool1 & p & Hr1 & Hidle & (bundle & payment & commit & tree & -> & Hme) & Hp1 & Hmean & Hend).
  destruct (Hend _ (safe_execute o bundle payment commit tree (s1, [s1]) Hme Hidle)) as (h & [Hspent Hok] & Hm).
  exists bundle, payment, commit, tree, s1, pool1. split_and!; try done. by apply (outcome_moment _ _ _ _ _ (past_moment h)).
Qed.

(** An operator that runs to its end alone. *)
Lemma paying_reachable oracle s o p :
  settled_nothing o s -> paying o p ->
  pays_reachable s (snd (run perform_call o oracle p s), <[o := Done (fst (run perform_call o oracle p s))]> (<[o := p]> ∅)).
Proof.
  intros Hn Hp. eapply rtc_l.
  - apply (step_start _ _ _ _ _ o p); [done|exact Hn|exact Hp].
  - apply run_steps; [done|exact (lookup_insert_eq _ _ _)].
Qed.

(** ** What a passed confirmation says, and the calls of a replay *)

Lemma operator_if_Ok b code x : operator_if b code = Ok x -> b = false.
Proof. unfold operator_if, raise_if. by destruct b. Qed.

Lemma check_confirmation_Ok confirmation tx_hash grant buyer pay_to :
  json_item (u "buyer") grant = Ok buyer -> json_item (u "pay_to") grant = Ok pay_to ->
  check_confirmation confirmation tx_hash grant = Ok tt ->
  keys_equal confirmation CONFIRMATION_FIELDS = true /\
  py_eq (json_get (u "tx_hash") confirmation) tx_hash = true /\ py_eq (json_get (u "payer") confirmation) buyer = true /\
  py_eq (json_get (u "pay_to") confirmation) pay_to = true /\ json_get (u "buyer_native_gas_spent") confirmation = JStr (u "0") /\
  below_12 (json_get (u "confirmations") confirmation) = Ok false.
Proof.
  unfold check_confirmation. cbv zeta. intros -> ->. cbn [mbind result_bind]. intros Hc.
  apply bind_Ok in Hc as ([] & Hkeys%operator_if_Ok & Hc). apply bind_Ok in Hc as ([] & Hpayer%operator_if_Ok & Hc).
  apply bind_Ok in Hc as ([] & Hto%operator_if_Ok & Hc). apply bind_Ok in Hc as (sender & _ & Hc).
  apply bind_Ok in Hc as (buyer' & _ & Hc). apply bind_Ok in Hc as ([] & _ & Hc).
  apply bind_Ok in Hc as ([] & Hgas%operator_if_Ok & Hc). apply bind_Ok in Hc as (few & Hfew & Hc%operator_if_Ok).
  apply orb_false_iff in Hkeys as [Hk Htx]. apply orb_false_iff in Hgas as [_ Hgas]. apply negb_false_iff in Hk, Htx, Hpayer, Hto, Hgas.
  subst few. split_and!; try done. by apply py_eq_text.
Qed.

(** Confirmations and their record. *)
Definition confirming {B} (e : event B) : Prop := match e with Confirmation _ _ | Confirm _ => True | _ => False end.

Lemma reconcile_confirms state digest grant : silent_program (@confirming) (reconcile state digest grant).
Proof.
  unfold reconcile. apply silent_program_bind; [done|]. intros d. apply silent_program_bind; [done|]. intros phase.
  destruct (json_is phase _); [done|]. apply silent_program_bind; [done|]. intros [c|]; (apply silent_program_bind; [done|]); intros grant_id; [|done].
  apply silent_program_bind; [done|]. intros _. by apply silent_program_bind.
Qed.

(** With a grant the store knows, nothing but confirmations is asked for. *)
Lemma replay_confirms digest grant payment :
  exists f, pay digest grant payment = do (Existing digest) ≫= f /\ forall d, silent_program (@confirming) (f (Some d)).
Proof. eexists. split; [reflexivity|]. intros d. apply reconcile_confirms. Qed.
End calls.

(** ** A store of rows, and a payment from the grant to the confirmation *)

(** The rows by digest, and the digest of the last that was consumed. *)
Record table := mkTable { tb_rows : gmap pystr dict; tb_last : pystr }.

Definition update_row (digest : pystr) (change : dict -> dict) (t : table) : table :=
  mkTable (alter change digest (tb_rows t)) (tb_last t).

#[export] Instance table_store : PaymentStore table := {
  ps_migrations _ := REQUIRED_MIGRATIONS;
  ps_existing t digest := tb_rows t !! digest;
  ps_consume t digest _ _ :=
    match tb_rows t !! digest with
    | Some _ => (false, t)
    | None => (true, mkTable (<[digest := [(u "state", JStr (u "SUBMITTING")); (u "tx_hash", JNull)]]> (tb_rows t)) digest)
    end;
  ps_mark_unknown t tx_hash :=
    update_row (tb_last t) (fun row => merged row [(u "state", JStr (u "UNKNOWN")); (u "tx_hash", tx_hash)]) t;
  ps_confirm t observation :=
    update_row (text_of (json_get (u "grant_digest") observation)) (fun _ => merged [(u "state", JStr (u "CONFIRMED"))] observation) t;
  ps_spent t := dom (tb_rows t) }.

#[export] Instance table_laws : PaymentStoreLaws table.
Proof.
  split; cbn.
  - intros t d _ _ t'. destruct (tb_rows t !! d) as [row|] eqn:E; intros [= <-]. cbn.
    rewrite dom_insert. apply not_elem_of_dom in E. set_solver.
  - intros t d _ _ t'. destruct (tb_rows t !! d) as [row|] eqn:E; intros [= <-]. done.
  - intros t tx. by rewrite dom_alter.
  - intros t d. by rewrite dom_alter.
  - intros t d. by rewrite elem_of_dom.
Qed.

Definition demo_buyer : pystr := u "0x" ++ repeat 49 40.
Definition demo_payee : pystr := u "0x" ++ repeat 50 40.
Definition demo_tx : pystr := u "0x" ++ repeat 51 64.

Definition demo_payment_grant : dict := p3_payment ++
  [(u "schema", JStr (u "liqvera-mezo-payment-grant/v1")); (u "subject_commit", JStr demo_oid); (u "subject_tree", JStr demo_oid);
   (u "plan_sha256", JStr p3_sha); (u "expires_at", JStr demo_expires);
   (u "grant_id", JStr (u "00000000-0000-4000-8000-000000000013")); (u "buyer", JStr demo_buyer); (u "pay_to", JStr demo_payee);
   (u "database_identity", JStr demo_sha)].

Definition demo_p3 : json := JDict
  [(u "schema", JStr (u "liqvera-p3-payment-grants/v1")); (u "subject_commit", JStr demo_oid); (u "subject_tree", JStr demo_oid);
   (u "plan_sha256", JStr p3_sha); (u "expires_at", JStr demo_expires);
   (u "cases", JDict [(u "A13", JDict demo_payment_grant); (u "A14", JDict demo_payment_grant)])].

Definition demo_payment : json := JDict
  [(u "schema", JStr (u "liqvera-p3-signed-payment/v1")); (u "quote_id", JStr (u "q")); (u "scope_hash", JStr demo_sha);
   (u "report_id", JStr (u "r")); (u "payment_signature", JStr (u "signed")); (u "buyer", JStr demo_buyer); (u "pay_to", JStr demo_payee)].

Definition demo_confirmation : dict :=
  [(u "tx_hash", JStr demo_tx); (u "transaction_from", JStr (u "0x" ++ repeat 53 40)); (u "buyer_native_balance_before", JStr (u "7"));
   (u "buyer_native_balance_after", JStr (u "7")); (u "buyer_native_gas_spent", JStr (u "0"));
   (u "observation_before_block_number", JInt 10); (u "observation_before_block_hash", JStr demo_sha);
   (u "observation_after_block_number", JInt 22); (u "observation_after_block_hash", JStr demo_sha);
   (u "block_number", JInt 11); (u "block_hash", JStr demo_sha); (u "log_index", JInt 0); (u "confirmations", JInt 12);
   (u "authorization_identity", JStr (u "auth")); (u "transfer_identity", JStr (u "transfer")); (u "payer", JStr demo_buyer);
   (u "pay_to", JStr demo_payee)].

(** Every call succeeds, and the chain has confirmed. *)
Definition demo_outcome (_ : ledger table) : outcome :=
  mkOutcome None true demo_validated (JDict []) [] [(u "tx_hash", JStr demo_tx)] (Some demo_confirmation).

Definition demo_digest : pystr := Eval vm_compute in sha_or_empty (json_sha256 (JDict demo_payment_grant)).
Definition demo_operator : operator := (1%positive, demo_digest).
Definition demo_ledger : ledger table := mkLedger (mkTable ∅ []) ∅ [].
Definition demo_execute : prog event dict := execute demo_p3 demo_payment demo_oid demo_oid.
Definition demo_paid : result dict * ledger table := run perform_call demo_operator demo_outcome demo_execute demo_ledger.

(** Whatever the time, the payment grant of the bundle is the document it was given. *)
Lemma demo_hash authority now digest :
  validate_p3_bundle demo_p3 demo_oid demo_oid now = Ok authority -> grant_hash authority = Ok digest -> digest = demo_digest.
Proof.
  intros Hv Hd. unfold grant_hash, payment_grant in Hd. apply bind_Ok in Hd as (grant & Hg & Hd).
  apply bind_Ok in Hg as (granted & Hg%expect_Ok & [= <-]).
  destruct (p3_bundle_case _ _ _ _ _ _ Hv Hg) as (d & grants & buyer & pay_to & Hraw & Hcases & Hcase & _).
  injection Hraw as <-. injection Hcases as <-. injection Hcase as Hvalue.
  assert (json_sha256 (JDict demo_payment_grant) = Ok demo_digest) as E by (vm_compute; reflexivity).
  change (demo_payment_grant = cg_value granted) in Hvalue. rewrite <- Hvalue, E in Hd. by injection Hd.
Qed.

Lemma demo_paying : paying demo_operator demo_execute.
Proof. exists demo_p3, demo_payment, demo_oid, demo_oid. split; [reflexivity|]. exact demo_hash. Qed.

Lemma demo_paid_reachable :
  pays_reachable demo_ledger (snd demo_paid, <[demo_operator := Done (fst demo_paid)]> (<[demo_operator := demo_execute]> ∅)).
Proof. exact (paying_reachable demo_outcome demo_ledger demo_operator demo_execute eq_refl demo_paying). Qed.

Lemma settled_at_most_once_witness :
  map fst (settled (snd demo_paid)) = [demo_operator] /\
  NoDup (map (fun x => snd (fst x)) (settled (snd demo_paid))) /\
  forall o payment, (o, payment) ∈ settled (snd demo_paid) ->
    consumed o (snd demo_paid) /\ snd o ∈ ps_spent (lg_store (snd demo_paid)) /\ checked_payment (snd o) payment.
Proof.
  split; [vm_compute; reflexivity|]. exact (settled_at_most_once demo_ledger _ _ eq_refl eq_refl demo_paid_reachable).
Defined.

Lemma returned_payments_accounted_witness : exists document bundle commit tree moment,
  fst demo_paid = Ok document /\ json_is (json_get (u "status") document) (u "CONFIRMED") = true /\
  outcome_ok demo_operator bundle commit tree document moment.
Proof.
  assert (match fst demo_paid with Ok document => json_is (json_get (u "status") document) (u "CONFIRMED") | Raise _ => false end = true)
    as E by (vm_compute; reflexivity).
  destruct (fst demo_paid) as [document|] eqn:Ed; [|done].
  pose proof demo_paid_reachable as Hr. rewrite Ed in Hr.
  destruct (returned_payments_accounted demo_ledger _ _ demo_operator document eq_refl eq_refl Hr (lookup_insert_eq _ _ _))
    as (bundle & payment & commit & tree & s1 & pool1 & _ & _ & _ & _ & Hok).
  exists document, bundle, commit, tree. eexists. split; [done|]. split; [exact E|exact Hok].
Defined.
