(* ===== verification/Captures.v ===== *)
(** * Publication of captures: [capture_responses] and [capture_package] of [liqvera_public_capture]

    A capture asks the venue twice, or a source on chain, and publishes the members of
    the sealed package as one new directory of its root: a lock file that must be new, a
    temporary directory that is filled, read back and flushed, and a renaming.  The
    programs here make the calls of the file system, of the HTTP client and of the
    clocks; [CapturesSafety] runs them together. *)

From S2P Require Import Prelude PyStr Num PyObj Json Bytes JsonBytes EvidenceIo Documents MezoDex TroveReport FrozenPackage SealedInput CapturePackage.
From S2P Require Import Report Programs Store.
Import EvidenceCapture EvidencePackage.
Open Scope Z_scope.

Definition capture_if (b : bool) (code : string) : result unit := raise_if b CaptureRejected code.

(** ** [strict_json] *)

(** [Decimal(text)] of a number with a fraction or an exponent.  The code never looks at
    it but for its type and [int] of it, so only its integral part is kept. *)
Definition json_decimal (neg : bool) (whole fraction : pystr) (e : Z) : result json :=
  let c := ascii_value (whole ++ fraction) in
  let e := e - Z.of_nat (length fraction) in
  raise_if ((max_emax <? e + Z.of_nat (length (digits 10 c)) - 1) || (e <? min_etiny)) InvalidOperation "ConversionSyntax" ;;
  Ok (JFloat (FFin neg (if 0 <=? e then c * 10 ^ e else c / 10 ^ (- e)) 0)).

Definition capture_hooks : json_hooks := {|
  on_pairs := fun ps => foldM (fun d kv => raise_if (isSome (assoc (fst kv) d)) ValueError "duplicate JSON key" ;; Ok (d ++ [kv])) [] ps;
  on_float := json_decimal;
  on_constant := fun _ => raise ValueError "non-finite JSON" |}.

Definition strict_json (raw : bytes) : result json := text ← decode_utf8 raw; json_loads_with capture_hooks text.

(** ** The calls *)

(** What the code reads of the headers of a response. *)
Record http_response := mkHttpResponse {
  hs_status : Z; hs_encoding : option pystr; hs_content_type : option pystr; hs_length : option pystr }.

(** Of the root and its entries, the clocks, the HTTP client and the connection of a
    handler.  A path is a list of names from the root.  [ReadStream] yields the chunks
    of the response until its end.  [LiveDex] and [LiveTrove] are [capture_live_dex] and
    [capture_live_trove]; an [httpx.HTTPError] is an [OSError] here, both being caught
    together. *)
Inductive event : Type -> Type :=
  | RootIsSymlink : event bool
  | RootIsDirectory : event bool
  | CreateLock (name : pystr) : event unit
  | CloseLock : event unit
  | UnlinkLock (name : pystr) : event unit
  | PathLexists (name : pystr) : event bool
  | PathExists (name : pystr) : event bool
  | MakeTemporary (prefix : pystr) : event pystr
  | SetMode (path : list pystr) (mode : Z) : event unit
  | MakeParents (directory name : pystr) : event unit
  | SetParentMode (directory name : pystr) (mode : Z) : event unit
  | CreateNew (directory name : pystr) : event unit
  | WriteAll (directory name : pystr) (raw : bytes) : event unit
  | SyncFile (directory name : pystr) : event unit
  | ReadBack (directory name : pystr) : event bytes
  | WalkTree (name : pystr) : event (list (list pystr))
  | OpenDirectory (path : list pystr) : event unit
  | SyncDirectory (path : list pystr) : event unit
  | CloseDirectory (path : list pystr) : event unit
  | RenameTo (from to : pystr) : event unit
  | RemoveTree (name : pystr) : event unit
  | TimeNs : event Z
  | MonotonicNs : event Z
  | EnterDeadline : event unit
  | LeaveDeadline : event unit
  | OpenClient : event unit
  | CloseClient : event unit
  | OpenStream (request : bytes) : event http_response
  | ReadStream : event (list bytes)
  | CloseStream : event unit
  | LiveDex (side : json) (quantity : Z) : event json
  | LiveTrove (borrower : json) : event json
  | RootReady : event bool
  | ReadBody (n : Z) : event bytes
  | SendReply (status : Z) (raw : bytes) : event unit.

Abbreviation program := (prog event).

(** ** [capture_responses] *)

Section captures.
Context `{UnicodeLower}.

(** [s.split(c, 1)[0]] *)
Fixpoint before (c : Z) (s : pystr) : pystr :=
  match s with [] => [] | x :: s => if x =? c then [] else x :: before c s end.

(** The checks of a response's headers, and the length it declares. *)
Definition accept_headers (response : http_response) : result (option Z) :=
  capture_if (negb (hs_status response =? 200) ||
              negb (str_eqb (str_lower (default (u "identity") (hs_encoding response))) (u "identity"))) "SOURCE_UNAVAILABLE" ;;
  let content_type := before 59 (default [] (hs_content_type response)) in
  capture_if (negb (str_eqb (str_lower (str_strip content_type)) (u "application/json"))) "SOURCE_UNAVAILABLE" ;;
  match hs_length response with
  | None => Ok None
  | Some declared =>
    capture_if (negb (negb (str_eqb declared []) && ascii_digits declared)) "SOURCE_UNAVAILABLE" ;;
    n ← py_int 10 declared;
    capture_if (MAX_PAYLOAD_BYTES <? n) "SOURCE_UNAVAILABLE" ;;
    Ok (Some n)
  end.

Definition take_body (chunks : list bytes) : result bytes :=
  foldM (fun payload chunk =>
    capture_if (MAX_PAYLOAD_BYTES <? zlength payload + zlength chunk) "SOURCE_UNAVAILABLE" ;; Ok (payload ++ chunk)) [] chunks.

(** One of the two requests. *)
Definition fetch (request : pystr * bytes) : program CapturedResponse :=
  started ← do TimeNs;
  monotonic ← do MonotonicNs;
  response ← do (OpenStream (snd request));
  '(declared, payload) ← prog_finally
    (declared ← lift (accept_headers response);
     chunks ← do ReadStream;
     payload ← lift (take_body chunks);
     Done (Ok (declared, payload)))
    (do CloseStream);
  received ← do TimeNs;
  ended ← do MonotonicNs;
  lift (capture_if match declared with Some n => negb (zlength payload =? n) | None => false end "SOURCE_UNAVAILABLE") ;;
  let started := started / 1000000 in
  let received := received / 1000000 in
  lift (capture_if (str_eqb payload [] || (received <? started)) "CLOCK_SKEW") ;;
  _ ← lift (strict_json payload);
  Done (Ok (mkResponse (fst request) payload started received (ended - monotonic) 200)).

Definition live_responses : program (list CapturedResponse) :=
  do EnterDeadline ;;
  prog_finally (do OpenClient ;; prog_finally (prog_map fetch REQUESTS) (do CloseClient)) (do LeaveDeadline).

(** [metadata, book = responses] *)
Definition two {A} (l : list A) : result (A * A) :=
  match l with [x; y] => Ok (x, y) | _ => raise ValueError "values to unpack" end.

Definition capture_responses (source_mode : pystr) : program (CapturedResponse * CapturedResponse) :=
  if str_eqb source_mode (u "fixture") then Done (Ok fixture_responses)
  else
    lift (capture_if (negb (str_eqb source_mode (u "live-public"))) "INVALID_INPUT") ;;
    responses ← prog_then live_responses (fun r =>
      match r with
      | Ok responses => Done (Ok responses)
      | Raise e =>
        if exc_subclass (exn_class e) CaptureRejected then Done (Raise e)
        else if existsb (exc_subclass (exn_class e)) [OSError; ValueError; UnicodeError; RecursionError]
        then lift (raise CaptureRejected "SOURCE_UNAVAILABLE")
        else Done (Raise e)
      end);
    lift (two responses).

(** ** [capture_package] *)

(** The package of a trove: its capture and a manifest. *)
Definition trove_members (name source_mode : pystr) (raw : bytes) : result (list (pystr * bytes)) :=
  manifest ← canonical_json_bytes (JDict
    [(u "schema", JStr (u "liqvera-trove-capture-package/v1")); (u "capture_id", JStr name); (u "source_mode", JStr source_mode);
     (u "capture_sha256", JStr (sha256_hex raw)); (u "capture_length", JInt (zlength raw))]);
  Ok [(u "trove-capture.json", raw); (u "manifest.json", manifest)].

Definition live_only (source_mode : pystr) : bool := str_eqb source_mode (u "live-public").

Definition collect_trove (name source_mode : pystr) (mezo_request : option json) (request : json) : program (list (pystr * bytes)) :=
  let refuse b := lift (capture_if b "INVALID_INPUT") in
  refuse (negb (live_only source_mode) || isSome mezo_request) ;;
  d ← lift match request with JDict d => Ok d | _ => raise CaptureRejected "INVALID_INPUT" end;
  refuse (negb (keys_equal d [u "borrower"])) ;;
  raw ← prog_except
    (capture ← do (LiveTrove (json_get (u "borrower") d)); lift (canonical_json_bytes capture))
    [ValueError; TypeError; KeyError] (fun _ => lift (raise CaptureRejected "MEZO_SOURCE_UNAVAILABLE"));
  lift (trove_members name source_mode raw).

Definition collect_dex (source_mode : pystr) (request : json) : program json :=
  let refuse b := lift (capture_if b "INVALID_INPUT") in
  refuse (negb (live_only source_mode)) ;;
  d ← lift match request with JDict d => Ok d | _ => raise CaptureRejected "INVALID_INPUT" end;
  refuse (negb (keys_equal d (map u ["side"; "quantity_wei"]%string))) ;;
  prog_except (quantity ← lift (json_int (json_get (u "quantity_wei") d)); do (LiveDex (json_get (u "side") d) quantity))
    [ValueError; TypeError] (fun _ => lift (raise CaptureRejected "MEZO_SOURCE_UNAVAILABLE")).

(** The members of the package: the source on chain is captured before the book. *)
Definition collect (capture_id : uuid) (source_mode : pystr) (mezo_request trove_request : option json) : program (list (pystr * bytes)) :=
  troves ← match trove_request with
           | Some request => members ← collect_trove (uuid_str capture_id) source_mode mezo_request request; Done (Ok (Some members))
           | None => Done (Ok None)
           end;
  mezo ← match mezo_request with
         | Some request => capture ← collect_dex source_mode request; Done (Ok (Some capture))
         | None => Done (Ok None)
         end;
  match troves with
  | Some members => Done (Ok members)
  | None => responses ← capture_responses source_mode; lift (capture_members capture_id source_mode responses mezo)
  end.

(** One member: written new, flushed and read back. *)
Definition write_member (staging : pystr) (m : pystr * bytes) : program unit :=
  let '(name, raw) := m in
  do (MakeParents staging name) ;;
  do (SetParentMode staging name 488) ;;
  do (CreateNew staging name) ;;
  do (SetMode [staging; name] 416) ;;
  do (WriteAll staging name raw) ;;
  do (SyncFile staging name) ;;
  again ← do (ReadBack staging name);
  lift (raise_if (negb (str_eqb (sha256_hex again) (sha256_hex raw))) OSError "capture integrity failure").

Definition sync_directory (path : list pystr) : program unit :=
  do (OpenDirectory path) ;;
  prog_finally (do (SyncDirectory path)) (do (CloseDirectory path)).

Definition not_published (name : pystr) : program unit :=
  exists_ ← do (PathLexists name); lift (raise_if exists_ FileExistsError "capture already exists").

Definition stage (capture_id : uuid) (source_mode : pystr) (mezo_request trove_request : option json)
  : program (list (pystr * bytes) * pystr) :=
  let name := uuid_str capture_id in
  not_published name ;;
  members ← collect capture_id source_mode mezo_request trove_request;
  staging ← do (MakeTemporary (staging_prefix name));
  Done (Ok (members, staging)).

Definition publish (name : pystr) (members : list (pystr * bytes)) (staging : pystr) : program pystr :=
  do (SetMode [staging] 488) ;;
  prog_each (write_member staging) members ;;
  directories ← do (WalkTree staging);
  prog_each sync_directory directories ;;
  not_published name ;;
  do (RenameTo staging name) ;;
  sync_directory [] ;;
  Done (Ok name).

(** The [finally] clause: what it raises leaves the lock in place. *)
Definition leave_capture {A} (name : pystr) (staging : option pystr) (r : result A) : program A :=
  match staging with
  | Some staging => left ← do (PathExists staging); if left : bool then do (RemoveTree staging) else Done (Ok tt)
  | None => Done (Ok tt)
  end ;;
  do CloseLock ;;
  do (UnlinkLock (lock_name name)) ;;
  Done r.

Definition capture_package (root_is_absolute : bool) (capture_id : uuid) (source_mode : pystr)
    (mezo_request trove_request : option json) : program pystr :=
  let name := uuid_str capture_id in
  let refuse b := lift (raise_if b ValueError "INVALID_INPUT") in
  refuse (negb root_is_absolute) ;;
  symlink ← do RootIsSymlink;
  refuse symlink ;;
  directory ← do RootIsDirectory;
  refuse (negb directory) ;;
  do (CreateLock (lock_name name)) ;;
  prog_then (stage capture_id source_mode mezo_request trove_request) (fun r =>
    match r with
    | Ok (members, staging) => prog_then (publish name members staging) (leave_capture name (Some staging))
    | Raise e => leave_capture name None (Raise e)
    end).
End captures.
