(* ===== verification/CaptureService.v ===== *)
(** * The capture service: [liqvera_public_capture.evidence_service]

    A private service that publishes one capture per request.  Its configuration, its
    handlers as programs over the calls of [Captures], and what every handler replies:
    at most one reply that arrives, of a closed vocabulary. *)

From S2P Require Import Prelude PyStr Num PyObj Json Bytes JsonBytes EvidenceIo Documents MezoDex TroveReport FrozenPackage SealedInput CapturePackage.
From S2P Require Import Report Programs Store Service Environ Runtime Captures.
Import EvidenceCapture EvidencePackage.
Open Scope Z_scope.

(** ** [main], up to the server *)

Definition GATEWAY_MARKERS : list string := ["DATABASE"; "PAY_TO"; "FACILITATOR"; "RPC_URL"]%string.

(** [usable path] tells whether a path is absolute and no link. *)
Definition capture_configure `{UnicodeUpper} (environ : environment) (usable : pystr -> bool) : result (pystr * pystr) :=
  _ ← load_public_configuration environ;
  raise_if (existsb (fun kv => marked GATEWAY_MARKERS (fst kv)) environ) ValueError "capture must not receive gateway configuration" ;;
  let root := getenv environ "LIQVERA_CAPTURE_ROOT" "/var/lib/liqvera/captures" in
  let mode := getenv environ "LIQVERA_SOURCE_MODE" "fixture" in
  raise_if (negb (bool_decide (mode ∈ map u ["fixture"; "live-public"]%string)) || negb (usable root))
    ValueError "invalid capture configuration" ;;
  Ok (root, mode).

Section service.
Context `{UnicodeLower}.
Context (mode : pystr).

Definition capture_reply (status : Z) (document : json) : program unit :=
  raw ← lift (canonical_json_bytes document); do (SendReply status raw).

Definition error_document (code : string) : json := JDict [(u "code", JStr (u code)); (u "retryable", JBool false)].

(** ** [do_GET] *)

Definition capture_ready_document (ready : bool) : json := JDict
  [(u "ready", JBool ready); (u "source_mode", JStr mode); (u "identity_ready", JBool false); (u "payment_ready", JBool false)].

Definition capture_do_GET (path : pystr) : program unit :=
  if str_eqb path (u "/healthz") then capture_reply 200 (JDict [(u "status", JStr (u "ok"))])
  else if str_eqb path (u "/readyz") then
    ready ← do RootReady; capture_reply (if ready : bool then 200 else 503) (capture_ready_document ready)
  else capture_reply 404 (error_document "NOT_FOUND").

(** ** [do_POST] *)

(** One decimal length between 1 and 16384, of a JSON body. *)
Definition capture_length (request : http_request) : result Z :=
  match hr_content_length request with
  | [length] =>
    capture_if (negb (negb (str_eqb length []) && ascii_digits length) || isSome (hr_transfer_encoding request) ||
                negb (str_eqb (hr_content_type request) (u "application/json"))) "INVALID_INPUT" ;;
    n ← py_int 10 length;
    capture_if (negb ((1 <=? n) && (n <=? 16384))) "INVALID_INPUT" ;;
    Ok n
  | _ => raise CaptureRejected "INVALID_INPUT"
  end.

Definition is_dict (x : json) : bool := match x with JDict _ => true | _ => false end.

(** What a body asks for: the capture, and the request of a source on chain. *)
Definition parse_capture (body : json) : result (uuid * option json * option json) :=
  let refuse b := capture_if b "INVALID_INPUT" in
  d ← match body with JDict d => Ok d | _ => raise CaptureRejected "INVALID_INPUT" end;
  refuse (negb (existsb (fun extra => keys_equal d (u "capture_id" :: map u extra)) [[]; ["mezo_dex"]; ["trove_risk"]]%string)) ;;
  text ← match json_get (u "capture_id") d with JStr s => Ok s | _ => raise CaptureRejected "INVALID_INPUT" end;
  refuse (existsb (fun key => match assoc (u key) d with Some x => negb (is_dict x) | None => false end)
            ["mezo_dex"; "trove_risk"]%string) ;;
  capture_id ← uuid_parse text;
  refuse (negb (str_eqb (uuid_str capture_id) text)) ;;
  Ok (capture_id, assoc (u "mezo_dex") d, assoc (u "trove_risk") d).

Definition created_document (capture_id : uuid) : json := JDict
  [(u "capture_id", JStr (uuid_str capture_id)); (u "source_mode", JStr mode);
   (u "identity_status", JStr (if str_eqb mode (u "fixture") then u "SIMULATED" else u "UNVERIFIED"))].

(** The body of the [try]. *)
Definition create_capture (request : http_request) : program unit :=
  n ← lift (capture_length request);
  raw ← do (ReadBody n);
  lift (capture_if (negb (zlength raw =? n)) "INVALID_INPUT") ;;
  body ← lift (strict_json raw);
  '(capture_id, mezo, trove) ← lift (parse_capture body);
  _ ← capture_package true capture_id mode mezo trove;
  capture_reply 201 (created_document capture_id).

Definition capture_error (e : exn) : program unit :=
  if exc_subclass (exn_class e) FileExistsError then capture_reply 409 (error_document "CAPTURE_ALREADY_EXISTS")
  else if exc_subclass (exn_class e) CaptureRejected
  then capture_reply (if String.eqb (exn_msg e) "INVALID_INPUT" then 422 else 503) (error_document (exn_msg e))
  else if existsb (exc_subclass (exn_class e)) [ValueError; TypeError; UnicodeError; KeyError]
  then capture_reply 400 (error_document "INVALID_INPUT")
  else if exc_subclass (exn_class e) OSError then capture_reply 503 (error_document "SOURCE_UNAVAILABLE")
  else Done (Raise e).

Definition capture_do_POST (request : http_request) : program unit :=
  if negb (str_eqb (hr_path request) (u "/internal/v1/captures")) then capture_reply 404 (error_document "NOT_FOUND")
  else prog_then (create_capture request) (fun r => match r with Ok _ => Done (Ok tt) | Raise e => capture_error e end).
End service.

(** ** What leaves the handlers unanswered, or answered as the caller's error *)

(** A number whose exponent [decimal] refuses is none of the errors that are caught: the
    request gets no reply. *)
Example oversized_number_escapes :
  strict_json (double_quoted "{'capture_id':1e99999999999999999999}") = Raise (Exc InvalidOperation "ConversionSyntax") /\
  capture_error (Exc InvalidOperation "ConversionSyntax") = Done (Raise (Exc InvalidOperation "ConversionSyntax")).
Proof. split; vm_compute; reflexivity. Qed.

(** Metadata of the venue that do not identify the instrument. *)
Example identity_error_blamed : capture_error (Exc ValueError "IDENTITY_UNVERIFIED") = capture_reply 400 (error_document "INVALID_INPUT").
Proof. reflexivity. Qed.
