(* ===== verification/CapturesSafety.v ===== *)
(** * Captures that are published whole, kept and honestly reported

    Handlers of the capture service run at once over one root, fail, and stop for ever
    between any two calls.  Proved here of every interleaving: under the name of a
    capture there is nothing or the whole sealed package of its identifier, which never
    changes again; a reply 201 is sent for such a package; no request is answered twice;
    and a lock that a stopped handler leaves keeps its capture from ever existing. *)

From S2P Require Import Prelude PyStr Num PyObj Json Bytes JsonBytes EvidenceIo Documents MezoDex TroveReport FrozenPackage SealedInput CapturePackage.
From S2P Require Import Report Programs Store StoreSafety Service Environ Runtime Captures CaptureService.
Import EvidenceCapture EvidencePackage.
Open Scope Z_scope.

(** ** What the calls do *)

(** An entry of the root: a file, with the handler that created it (which the code does
    not see), a directory by the paths of the files below it, or anything else. *)
Inductive entry := CFile (maker : option op) | CTree (files : gmap pystr bytes) | COther.

Record world := mkWorld { w_root : Store.kind; w_entries : gmap pystr entry; w_sent : list (op * (Z * bytes)) }.

(** What a handler does not decide: a failure of the call, a random name, what a write
    leaves when that is not its payload, the files a failed removal leaves, the clocks,
    the venue, the sources on chain, and the body of its request. *)
Record answers := mkAnswers {
  an_fault : option exn; an_suffix : pystr; an_stored : option bytes; an_left : list pystr; an_time : Z;
  an_response : http_response; an_chunks : list bytes; an_live : json; an_paths : list (list pystr); an_flag : bool; an_body : bytes }.

Definition with_entries (f : gmap pystr entry -> gmap pystr entry) (s : world) : world := mkWorld (w_root s) (f (w_entries s)) (w_sent s).

(** A call that changes the entries when it succeeds. *)
Definition change {B} (an : answers) (s : world) (m : result (B * (gmap pystr entry -> gmap pystr entry))) : result B * world :=
  match an_fault an with
  | Some e => (Raise e, s)
  | None => match m with Ok (b, f) => (Ok b, with_entries f s) | Raise e => (Raise e, s) end
  end.

Definition query {B} (an : answers) (s : world) (m : result B) : result B * world :=
  (match an_fault an with Some e => Raise e | None => m end, s).

Definition file_below (s : world) (directory name : pystr) : result bytes :=
  match w_entries s !! directory with
  | Some (CTree files) => expect (files !! name) FileNotFoundError "no such file"
  | Some _ => os_error
  | None => missing
  end.

Definition perform_event (me : op) (B : Type) (e : event B) (an : answers) (s : world) : result B * world :=
  match e with
  | RootIsSymlink => query an s (Ok (bool_decide (w_root s = KLink)))
  | RootIsDirectory => query an s (Ok (bool_decide (w_root s = KDirectory \/ w_root s = KLink)))
  | CreateLock name => change an s
      match w_entries s !! name with
      | None => Ok (tt, <[name := CFile (Some me)]>)
      | Some _ => raise FileExistsError "File exists"
      end
  | CloseLock => (Ok tt, s)
  | UnlinkLock name => change an s
      match w_entries s !! name with
      | Some (CFile _) => Ok (tt, delete name)
      | Some _ => os_error
      | None => missing
      end
  | PathLexists name => (Ok (match an_fault an with None => isSome (w_entries s !! name) | Some _ => false end), s)
  | PathExists name => query an s (Ok (isSome (w_entries s !! name)))
  | MakeTemporary prefix => change an s
      (let name := prefix ++ an_suffix an in
       match w_entries s !! name with
       | None => Ok (name, <[name := CTree ∅]>)
       | Some _ => raise FileExistsError "no usable temporary name"
       end)
  | SetMode _ _ | MakeParents _ _ | SetParentMode _ _ _ | SyncFile _ _ | OpenDirectory _ | SyncDirectory _ => query an s (Ok tt)
  | CloseDirectory _ => (Ok tt, s)
  | CreateNew directory name => change an s
      match w_entries s !! directory with
      | Some (CTree files) =>
        match files !! name with
        | None => Ok (tt, <[directory := CTree (<[name := []]> files)]>)
        | Some _ => raise FileExistsError "File exists"
        end
      | Some _ => os_error
      | None => missing
      end
  | WriteAll directory name raw =>
      match w_entries s !! directory with
      | Some (CTree files) =>
        (match an_fault an with Some e => Raise e | None => Ok tt end,
         with_entries <[directory := CTree (<[name := default raw (an_stored an)]> files)]> s)
      | _ => (os_error, s)
      end
  | ReadBack directory name => query an s (file_below s directory name)
  | WalkTree _ => query an s (Ok (an_paths an))
  | RenameTo from to => change an s
      match w_entries s !! from, w_entries s !! to with
      | Some (CTree files), None => Ok (tt, fun m => <[to := CTree files]> (delete from m))
      | Some (CTree files), Some (CTree others) =>
        if bool_decide (others = ∅) then Ok (tt, fun m => <[to := CTree files]> (delete from m)) else os_error
      | None, _ => missing
      | _, _ => os_error
      end
  | RemoveTree name =>
      match w_entries s !! name with
      | Some (CTree files) =>
        match an_fault an with
        | Some e => (Raise e, with_entries <[name := CTree (filter (fun x => fst x ∈ an_left an) files)]> s)
        | None => (Ok tt, with_entries (delete name) s)
        end
      | Some _ => (os_error, s)
      | None => (missing, s)
      end
  | TimeNs | MonotonicNs => query an s (Ok (an_time an))
  | EnterDeadline | LeaveDeadline | OpenClient | CloseClient | CloseStream => query an s (Ok tt)
  | OpenStream _ => query an s (Ok (an_response an))
  | ReadStream => query an s (Ok (an_chunks an))
  | LiveDex _ _ | LiveTrove _ => query an s (Ok (an_live an))
  | RootReady => query an s (Ok (an_flag an))
  | ReadBody _ => query an s (Ok (an_body an))
  | SendReply status raw =>
      match an_fault an with
      | Some e => (Raise e, s)
      | None => (Ok tt, mkWorld (w_root s) (w_entries s) ((me, (status, raw)) :: w_sent s))
      end
  end.

(** [tempfile] draws eight characters. *)
Definition drawn (an : answers) (_ : world) : Prop := length (an_suffix an) = 8%nat.

(** ** What a capture is *)

Section captures.
Context `{UnicodeLower}.

(** A response of the venue that was accepted. *)
Record fetched (what : pystr) (r : CapturedResponse) : Prop := {
  fe_kind : EvidenceCapture.kind r = what;
  fe_length : 1 <= zlength (payload r) <= MAX_PAYLOAD_BYTES;
  fe_order : started_at_ms r <= received_at_ms r;
  fe_status : http_status r = 200;
  fe_json : exists document, strict_json (payload r) = Ok document }.

Inductive responses_of (mode : pystr) : CapturedResponse * CapturedResponse -> Prop :=
  | fixture_of : mode = u "fixture" -> responses_of mode fixture_responses
  | live_of metadata book : mode = u "live-public" -> fetched (u "metadata") metadata -> fetched (u "book") book ->
      responses_of mode (metadata, book).

(** The members that a package of the identifier is made of. *)
Inductive members_of (mode a : pystr) (members : list (pystr * bytes)) : Prop :=
  | book_members capture_id responses mezo : a = uuid_str capture_id -> responses_of mode responses ->
      (mezo <> None -> mode = u "live-public") ->
      capture_members capture_id mode responses mezo = Ok members -> members_of mode a members
  | chain_members raw : mode = u "live-public" -> trove_members a mode raw = Ok members -> members_of mode a members.

(** The files are exactly the members, up to their digests. *)
Definition seals (files : gmap pystr bytes) (members : list (pystr * bytes)) : Prop :=
  (forall name, is_Some (files !! name) <-> name ∈ map fst members) /\
  forall name raw, (name, raw) ∈ members -> exists again, files !! name = Some again /\ sha256_hex again = sha256_hex raw.

Definition captured (mode a : pystr) (files : gmap pystr bytes) : Prop := exists members, members_of mode a members /\ seals files members.

(** Under the name of a capture there is nothing, or a whole package. *)
Definition whole (s : world) : Prop :=
  forall a x, valid_id a -> w_entries s !! a = Some x -> exists mode files, x = CTree files /\ captured mode a files.

(** What was replied: 201 for a package that is there, and the other documents. *)
Inductive replied (s : world) : Z -> json -> Prop :=
  | replied_created capture_id mode files : valid_id (uuid_str capture_id) ->
      w_entries s !! uuid_str capture_id = Some (CTree files) -> captured mode (uuid_str capture_id) files ->
      replied s 201 (created_document mode capture_id)
  | replied_healthy : replied s 200 (JDict [(u "status", JStr (u "ok"))])
  | replied_ready mode (ready : bool) : replied s (if ready then 200 else 503) (capture_ready_document mode ready)
  | replied_unknown : replied s 404 (error_document "NOT_FOUND")
  | replied_exists : replied s 409 (error_document "CAPTURE_ALREADY_EXISTS")
  | replied_invalid : replied s 400 (error_document "INVALID_INPUT")
  | replied_unavailable : replied s 503 (error_document "SOURCE_UNAVAILABLE")
  | replied_refused code : replied s (if String.eqb code "INVALID_INPUT" then 422 else 503) (error_document code).

Definition answered (s : world) : Prop :=
  forall o status raw, (o, (status, raw)) ∈ w_sent s -> exists document, canonical_json_bytes document = Ok raw /\ replied s status document.

Definition capture_inv (s : world) : Prop := whole s /\ answered s /\ NoDup (map fst (w_sent s)).

(** ** What a handler owns *)

Definition holds (o : op) (s : world) (a : pystr) : Prop := w_entries s !! lock_name a = Some (CFile (Some o)).

Definition unsent (o : op) (s : world) : Prop := o ∉ map fst (w_sent s).

(** Captures stay; what the holder of a lock alone may touch, and whether a handler has
    replied, is its own. *)
Record capture_rely (me : op) (s s' : world) : Prop := {
  cr_kept : forall a x, valid_id a -> w_entries s !! a = Some x -> w_entries s' !! a = Some x;
  cr_lock : forall a, valid_id a -> holds me s a -> holds me s' a;
  cr_area : forall a name, valid_id a -> holds me s a -> area a name -> w_entries s' !! name = w_entries s !! name;
  cr_sent : unsent me s <-> unsent me s' }.

Definition capture_act (me : op) (s s' : world) : Prop :=
  forall a, valid_id a -> (forall x, w_entries s !! a = Some x -> w_entries s' !! a = Some x) /\
    (w_entries s' !! a <> w_entries s !! a -> holds me s a).

Definition capture_stop (_ : op) (s : world) : world := s.

(** A handler that has not replied and holds no lock. *)
Definition fresh (o : op) (s : world) : Prop := unsent o s /\ forall a, valid_id a -> ~ holds o s a.

Lemma capture_rely_refl o s : capture_rely o s s.
Proof. by split. Qed.

Lemma capture_rely_trans o s1 s2 s3 : capture_rely o s1 s2 -> capture_rely o s2 s3 -> capture_rely o s1 s3.
Proof.
  intros H12 H23. split.
  - intros a x Ha Hx. by apply (cr_kept _ _ _ H23), (cr_kept _ _ _ H12).
  - intros a Ha Hh. by apply (cr_lock _ _ _ H23), (cr_lock _ _ _ H12).
  - intros a name Ha Hh Hn. rewrite (cr_area _ _ _ H23 a name); [by apply (cr_area _ _ _ H12 a)|done| |done].
    by apply (cr_lock _ _ _ H12).
  - transitivity (unsent o s2); [apply (cr_sent _ _ _ H12)|apply (cr_sent _ _ _ H23)].
Qed.

Lemma capture_act_refl o s : capture_act o s s.
Proof. intros a _. by split. Qed.

Abbreviation guarantee := (guarantee capture_inv capture_rely capture_act).
Abbreviation safe := (Programs.safe perform_event drawn capture_inv capture_rely capture_act).

Lemma guarantee_unchanged o s : capture_inv s -> guarantee o s s.
Proof. intros Hi. split_and!; [done|apply capture_act_refl|]. intros o' _. apply capture_rely_refl. Qed.

(** What was replied stays true while captures stay. *)
Lemma replied_kept s s' status document :
  (forall a x, valid_id a -> w_entries s !! a = Some x -> w_entries s' !! a = Some x) ->
  replied s status document -> replied s' status document.
Proof.
  intros Hk Hr. destruct Hr as [capture_id mode files Hv He Hc|
    |mode ready| | | | |code]; [|constructor..].
  apply (replied_created s' capture_id mode files); [done|by apply Hk|done].
Qed.

(** A change of entries that belong to the holder of a lock. *)
Lemma guarantee_change me s f a :
  capture_inv s -> valid_id a -> holds me s a ->
  (forall name, ~ area a name -> name <> lock_name a -> f (w_entries s) !! name = w_entries s !! name) ->
  (f (w_entries s) !! a = w_entries s !! a \/
   w_entries s !! a = None /\ exists mode files, f (w_entries s) !! a = Some (CTree files) /\ captured mode a files) ->
  guarantee me s (with_entries f s).
Proof.
  intros (Hw & Hs & Hn) Ha Hh Hout Hself.
  assert (forall b, valid_id b -> b <> a -> f (w_entries s) !! b = w_entries s !! b) as Hother.
  { intros b Hb Hne. apply Hout.
    - intros Hab. apply Hne. by apply (area_unique b a b); [..|apply area_self|].
    - intros ->. by apply (lock_outside (lock_name a) a); [..|apply area_self]. }
  assert (forall b x, valid_id b -> w_entries s !! b = Some x -> f (w_entries s) !! b = Some x) as Hkeep.
  { intros b x Hb Hx. destruct (decide (b = a)) as [->|Hne]; [|by rewrite Hother].
    destruct Hself as [->|[Hnone _]]; [done|congruence]. }
  assert (forall b, valid_id b -> b <> a -> f (w_entries s) !! lock_name b = w_entries s !! lock_name b) as Hlocks.
  { intros b Hb Hne. apply Hout; [by apply lock_outside|]. intros E. by apply Hne, lock_name_inj. }
  split_and!.
  - split_and!; [| |done].
    + intros b x Hb Hx. cbn in Hx. destruct (decide (b = a)) as [->|Hne]; [|rewrite Hother in Hx by done; by apply (Hw b x)].
      destruct Hself as [E|(Hnone & mode & files & E & Hc)]; rewrite E in Hx; [by apply (Hw a x)|]. injection Hx as <-. by exists mode, files.
    + intros o status raw Hin. destruct (Hs o status raw Hin) as (document & Hd & Hr). exists document. split; [done|].
      by apply (replied_kept s).
  - intros b Hb. split; [intros x; by apply Hkeep|]. intros Hne. destruct (decide (b = a)) as [->|Hba]; [done|]. by rewrite Hother in Hne.
  - intros o Ho. assert (forall b, holds o s b -> b <> a) as Hnot.
    { intros b Hb ->. apply Ho. unfold holds in *. congruence. }
    split; [done| | |done].
    + intros b Hb Hhb. unfold holds. cbn. by rewrite Hlocks; [|done|by apply Hnot].
    + intros b name Hb Hhb Hname. cbn. apply Hout.
      * intros Hn2. apply (Hnot b Hhb). by apply (area_unique b a name).
      * intros ->. by apply (lock_outside b a).
Qed.

(** A new lock. *)
Lemma guarantee_lock me s a :
  capture_inv s -> valid_id a -> w_entries s !! lock_name a = None ->
  guarantee me s (with_entries <[lock_name a := CFile (Some me)]> s).
Proof.
  intros (Hw & Hs & Hn) Ha Hnone.
  assert (forall b, valid_id b -> <[lock_name a := CFile (Some me)]> (w_entries s) !! b = w_entries s !! b) as Hother.
  { intros b Hb. rewrite lookup_insert_ne; [done|]. intros <-. by apply (lock_outside (lock_name a) a); [..|apply area_self]. }
  assert (forall b x, w_entries s !! b = Some x -> <[lock_name a := CFile (Some me)]> (w_entries s) !! b = Some x) as Hkeep.
  { intros b x Hx. rewrite lookup_insert_ne; [done|]. intros <-. congruence. }
  split_and!.
  - split_and!; [| |done].
    + intros b x Hb Hx. cbn in Hx. rewrite Hother in Hx by done. by apply (Hw b x).
    + intros o status raw Hin. destruct (Hs o status raw Hin) as (document & Hd & Hr). exists document. split; [done|].
      apply (replied_kept s); [|done]. intros b x _ Hx. by apply Hkeep.
  - intros b Hb. split; [intros x; apply Hkeep|]. intros Hne. by rewrite Hother in Hne.
  - intros o Ho. split; [intros b x _; apply Hkeep| | |done].
    + intros b Hb Hh. by apply Hkeep.
    + intros b name Hb _ Hname. cbn. rewrite lookup_insert_ne; [done|]. intros <-. by apply (lock_outside b a).
Qed.

(** The removal of a lock, which is no longer held. *)
Lemma guarantee_unlock me s a :
  capture_inv s -> valid_id a -> holds me s a -> guarantee me s (with_entries (delete (lock_name a)) s).
Proof.
  intros Hi Ha Hh. apply (guarantee_change me s _ a); [done..| |].
  - intros name _ Hne. by rewrite lookup_delete_ne.
  - left. rewrite lookup_delete_ne; [done|]. intros E. apply (lock_outside a a); [done..|]. rewrite E. apply area_self.
Qed.

(** A reply. *)
Lemma guarantee_reply me s status raw document :
  capture_inv s -> unsent me s -> canonical_json_bytes document = Ok raw -> replied s status document ->
  guarantee me s (mkWorld (w_root s) (w_entries s) ((me, (status, raw)) :: w_sent s)).
Proof.
  intros (Hw & Hs & Hn) Hu Hd Hr. split_and!.
  - split_and!; [done| |].
    + intros o status' raw' [[= -> -> ->]|Hin]%elem_of_cons; [exists document|destruct (Hs o status' raw' Hin) as (document' & Hd' & Hr'); exists document'];
        (split; [done|]); by apply (replied_kept s).
    + cbn. by apply NoDup_cons.
  - intros a _. by split.
  - intros o Ho. split; [done..|]. unfold unsent. cbn. rewrite elem_of_cons. naive_solver.
Qed.

(** ** What the members are made of *)

Lemma capture_if_Ok b code x : capture_if b code = Ok x -> b = false.
Proof. unfold capture_if, raise_if. by destruct b. Qed.

Lemma take_body_length chunks payload : take_body chunks = Ok payload -> zlength payload <= MAX_PAYLOAD_BYTES.
Proof.
  unfold take_body. assert (zlength (A := Z) [] <= MAX_PAYLOAD_BYTES) as H0 by done. revert H0. generalize (@nil Z) as acc.
  induction chunks as [|chunk chunks IH]; intros acc Hacc; cbn [foldM]; [by intros [= <-]|].
  intros (acc' & ([] & Hl%capture_if_Ok & [= <-])%bind_Ok & Hp)%bind_Ok. apply (IH (acc ++ chunk)); [|done].
  apply Z.ltb_ge in Hl. rewrite zlength_app. lia.
Qed.

Lemma fetch_yields request : yields (fetch request) (fetched (fst request)).
Proof.
  unfold fetch. do 3 (apply yields_after; intros ?).
  eapply (yields_bind _ _ (fun x => zlength (snd x) <= MAX_PAYLOAD_BYTES)).
  - apply yields_finally. apply yields_lift_bind. intros declared _. apply yields_after. intros chunks.
    apply yields_lift_bind. intros payload Hp. intros x [= <-]. by apply (take_body_length chunks).
  - intros [declared payload] Hl. cbn [snd] in Hl. do 2 (apply yields_after; intros ?). apply yields_lift_bind. intros _ _.
    cbv zeta. apply yields_lift_bind. intros [] [Hne Hle]%capture_if_Ok%orb_false_iff. apply yields_lift_bind. intros document Hd.
    intros x [= <-]. apply Z.ltb_ge in Hle. split; cbn; [done| |done|done|by exists document].
    split; [|done]. destruct payload; [done|]. unfold zlength. cbn [length]. lia.
Qed.

Lemma capture_responses_yields mode : yields (capture_responses mode) (responses_of mode).
Proof.
  unfold capture_responses. destruct (str_eqb mode (u "fixture")) eqn:Ef.
  { intros x [= <-]. apply fixture_of. by apply str_eqb_spec. }
  apply yields_lift_bind. intros [] Hm%capture_if_Ok%negb_false_iff%str_eqb_spec.
  eapply (yields_bind _ _ (Forall2 (fun request => fetched (fst request)) REQUESTS)).
  - eapply (returns_then _ _ (fun r => forall a, r = Ok a -> Forall2 (fun request => fetched (fst request)) REQUESTS a));
      [|intros [responses|e] Hr; [exact Hr|]].
    + unfold live_responses. apply yields_after. intros _. apply yields_finally. apply yields_after. intros _.
      apply yields_finally, yields_map. intros request _. apply fetch_yields.
    + destruct (exc_subclass _ _); [done|]. by destruct (existsb _ _).
  - intros responses Hr. unfold REQUESTS in Hr.
    inversion Hr as [|? metadata ? ? Hmeta Hr2]; subst. inversion Hr2 as [|? book ? ? Hbook Hr3]; subst. inversion Hr3; subst.
    intros x [= <-]. by apply live_of.
Qed.

Lemma collect_trove_yields name mode mezo request :
  yields (collect_trove name mode mezo request) (fun members => mode = u "live-public" /\ exists raw, trove_members name mode raw = Ok members).
Proof.
  unfold collect_trove. cbv zeta. apply yields_lift_bind. intros [] [Hm _]%capture_if_Ok%orb_false_iff.
  apply negb_false_iff, str_eqb_spec in Hm. apply yields_lift_bind. intros d _. apply yields_lift_bind. intros _ _.
  apply yields_after. intros raw members Hmem. split; [done|]. by exists raw.
Qed.

Lemma collect_dex_yields mode request : yields (collect_dex mode request) (fun _ => mode = u "live-public").
Proof.
  unfold collect_dex. cbv zeta. apply yields_lift_bind. intros [] Hm%capture_if_Ok. apply negb_false_iff, str_eqb_spec in Hm.
  do 2 (apply yields_after; intros ?). eapply returns_then; [apply returns_any|]. intros r _. cbn beta.
  destruct r as [x|e]; [by intros ? _|]. by destruct (existsb _ _).
Qed.

Lemma collect_yields capture_id mode mezo trove : yields (collect capture_id mode mezo trove) (members_of mode (uuid_str capture_id)).
Proof.
  unfold collect. eapply (yields_bind _ _ (fun troves => forall members, troves = Some members -> members_of mode (uuid_str capture_id) members)).
  { destruct trove as [request|]; [|by intros ? [= <-]]. eapply yields_bind; [apply collect_trove_yields|].
    intros members (Hm & raw & Hr) x [= <-] ? [= <-]. by apply (chain_members _ _ _ raw). }
  intros troves Ht. eapply (yields_bind _ _ (fun capture => capture <> None -> mode = u "live-public")).
  { destruct mezo as [request|]; [|by intros ? [= <-]]. eapply yields_bind; [apply collect_dex_yields|]. by intros ? ? ? [= <-]. }
  intros capture Hc. destruct troves as [members|]; [intros ? [= <-]; by apply Ht|].
  eapply yields_bind; [apply capture_responses_yields|]. intros responses Hr members Hm. by apply (book_members _ _ _ capture_id responses capture).
Qed.

Lemma members_of_nonempty mode a members : members_of mode a members -> exists m, m ∈ members.
Proof.
  intros [capture_id responses mezo _ _ _ Hm|raw _ Hm].
  - unfold capture_members in Hm. destruct responses as [metadata book]. cbv zeta in Hm.
    inv_ok. repeat (case_match; inv_ok). all: eexists; first [by left|apply elem_of_app; right; by left].
  - unfold trove_members in Hm. inv_ok. eexists. by left.
Qed.

Lemma captured_nonempty mode a files : captured mode a files -> files <> ∅.
Proof.
  intros (members & Hm & Hd & _) ->. destruct (members_of_nonempty _ _ _ Hm) as [m Hin].
  assert (fst m ∈ map fst members) as Hn by by apply list_elem_of_fmap_2.
  apply Hd in Hn. rewrite lookup_empty in Hn. by destruct Hn.
Qed.

(** ** Calls that change nothing *)

Definition unseen (B : Type) (e : event B) : Prop :=
  match e with
  | CreateLock _ | UnlinkLock _ | MakeTemporary _ | CreateNew _ _ | WriteAll _ _ _ | RenameTo _ _ | RemoveTree _ | SendReply _ _ => False
  | _ => True
  end.

Lemma unseen_same me B (e : event B) an s : unseen B e -> snd (perform_event me B e an s) = s.
Proof. by destruct e. Qed.

Lemma unseen_silent me B (e : event B) an s :
  unseen B e -> drawn an s -> capture_inv s ->
  guarantee me s (snd (perform_event me B e an s)) /\ capture_rely me s (snd (perform_event me B e an s)).
Proof. intros He _ Hi. rewrite unseen_same by done. split; [by apply guarantee_unchanged|apply capture_rely_refl]. Qed.

Abbreviation quiet := (silent_program unseen).

Create HintDb quiet_programs.

Ltac quiet_program :=
  repeat first
    [ exact I
    | solve [auto 2 with quiet_programs nocore]
    | apply silent_program_bind; [|intros ?] | apply silent_program_then; [|intros ?]
    | match goal with |- silent_program _ (if ?b then _ else _) => destruct b end
    | match goal with |- silent_program _ (match ?x with _ => _ end) => destruct x end
    | match goal with |- silent_program _ (do _) => split; [exact I|intros ?; exact I] end ].

Lemma fetch_quiet request : quiet (fetch request).
Proof. unfold fetch, prog_finally. quiet_program. Qed.

Lemma capture_responses_quiet mode : quiet (capture_responses mode).
Proof.
  unfold capture_responses, live_responses, prog_finally, REQUESTS. cbn [prog_map]. pose proof fetch_quiet. quiet_program; done.
Qed.

Lemma collect_quiet capture_id mode mezo trove : quiet (collect capture_id mode mezo trove).
Proof.
  unfold collect, collect_trove, collect_dex, prog_except. cbv zeta. pose proof (capture_responses_quiet mode). quiet_program; done.
Qed.

Lemma not_published_quiet name : quiet (not_published name).
Proof. unfold not_published. quiet_program. Qed.

Lemma sync_directory_quiet path : quiet (sync_directory path).
Proof. unfold sync_directory, prog_finally. quiet_program. Qed.

Lemma each_quiet {X} (f : X -> program unit) l : (forall x, quiet (f x)) -> quiet (prog_each f l).
Proof. intros Hf. induction l as [|x l IH]; [done|]. apply silent_program_bind; [apply Hf|by intros _]. Qed.

(** ** Rules *)

Lemma safe_unseen {A B} me (p : program A) (f : A -> program B) s P Q :
  quiet p -> yields p P -> (forall e s', capture_rely me s s' -> Q (Raise e) s') ->
  (forall a s', capture_rely me s s' -> capture_inv s' -> P a -> safe me (f a) s' Q) -> safe me (p ≫= f) s Q.
Proof.
  intros Hp Hy He Hf. eapply (safe_bind _ _ _ _ _ capture_rely_refl).
  - by apply (safe_silent_returns _ _ _ _ _ capture_rely_refl capture_rely_trans unseen unseen_silent).
  - intros a s' Hi [Hr Ha]. by apply Hf; [..|apply Ha].
  - intros e s' s1 _ [Hr _] Hr1 _. apply He. by apply (capture_rely_trans _ _ s').
Qed.

(** One call that changes nothing. *)
Lemma safe_look {A B} me (e : event B) (f : B -> program A) s Q :
  unseen B e -> (forall x s', capture_rely me s s' -> Q (Raise x) s') ->
  (forall b s', capture_rely me s s' -> capture_inv s' -> safe me (f b) s' Q) -> safe me (do e ≫= f) s Q.
Proof.
  intros He Hx Hf. apply (safe_unseen _ _ _ _ (fun _ => True)); [by split|by intros ? ? ?|done|]. intros b s' Hr Hi _. by apply Hf.
Qed.

Lemma safe_value {A B} me (m : result B) (f : B -> program A) s Q :
  (forall x s', capture_rely me s s' -> Q (Raise x) s') -> (forall b, m = Ok b -> safe me (f b) s Q) -> safe me (lift m ≫= f) s Q.
Proof. intros Hx Hf. destruct m as [b|x]; [by apply Hf|]. apply safe_Done. intros s1 Hr _. by apply Hx. Qed.

(** One call that changes the state. *)
Lemma safe_change {A B} me (e : event B) (f : B -> program A) s Q :
  (forall s1 an, capture_rely me s s1 -> capture_inv s1 -> drawn an s1 ->
    guarantee me s1 (snd (perform_event me B e an s1)) /\
    match fst (perform_event me B e an s1) with
    | Ok b => safe me (f b) (snd (perform_event me B e an s1)) Q
    | Raise x => forall s2, capture_rely me (snd (perform_event me B e an s1)) s2 -> Q (Raise x) s2
    end) -> safe me (do e ≫= f) s Q.
Proof.
  intros Hc. apply safe_Call. intros s1 an Hr Hi Ha. destruct (Hc s1 an Hr Hi Ha) as [Hg Hk]. split; [exact Hg|].
  destruct (fst (perform_event me B e an s1)) as [b|x]; [exact Hk|]. apply safe_Done. intros s2 Hr2 _. by apply Hk.
Qed.

(** ** The temporary directory *)

Definition temporary (a name : pystr) : Prop := exists x, name = staging_prefix a ++ x /\ length x = 8%nat.

(** The lock of a capture is held, and nothing was replied. *)
Definition holding (me : op) (a : pystr) (s : world) : Prop := holds me s a /\ unsent me s.

Definition staged (me : op) (a staging : pystr) (files : gmap pystr bytes) (s : world) : Prop :=
  holding me a s /\ temporary a staging /\ w_entries s !! staging = Some (CTree files).

Lemma temporary_area a name : temporary a name -> area a name.
Proof. by right. Qed.

Lemma unsent_rely me s s' : capture_rely me s s' -> unsent me s -> unsent me s'.
Proof. intros Hr. apply (cr_sent _ _ _ Hr). Qed.

Lemma holding_rely me a s s' : valid_id a -> capture_rely me s s' -> holding me a s -> holding me a s'.
Proof. intros Ha Hr [Hh Hu]. split; [by apply (cr_lock _ _ _ Hr)|by apply (unsent_rely me s)]. Qed.

Lemma staging_rely me a staging files s s' : valid_id a -> capture_rely me s s' -> staged me a staging files s -> staged me a staging files s'.
Proof.
  intros Ha Hr (Hh & Ht & He). split; [by apply (holding_rely me a s)|]. split; [done|].
  rewrite (cr_area _ _ _ Hr a); [done|done|apply Hh|by apply temporary_area].
Qed.

(** A change of the temporary directory alone. *)
Lemma staging_change me a staging f s :
  capture_inv s -> valid_id a -> holding me a s -> temporary a staging ->
  (forall name, name <> staging -> f (w_entries s) !! name = w_entries s !! name) ->
  guarantee me s (with_entries f s) /\ holding me a (with_entries f s).
Proof.
  intros Hi Ha [Hh Hu] (x & -> & Hx) Hf.
  assert (forall b, valid_id b -> lock_name b <> staging_prefix a ++ x) as Hlock.
  { intros b Hb E. apply (lock_outside a b); [done..|]. rewrite E. by apply temporary_area; exists x. }
  split.
  - apply (guarantee_change me s f a); [done..| |].
    + intros name Hn _. apply Hf. intros ->. by apply Hn, temporary_area; exists x.
    + left. apply Hf. intros E. by apply (staging_not_self a x).
  - split; [|done]. unfold holds. cbn. rewrite Hf; [done|]. by apply Hlock.
Qed.

Lemma staging_insert me a staging files files' s :
  capture_inv s -> valid_id a -> staged me a staging files s ->
  guarantee me s (with_entries <[staging := CTree files']> s) /\ staged me a staging files' (with_entries <[staging := CTree files']> s).
Proof.
  intros Hi Ha (Hh & Ht & _). destruct (staging_change me a staging <[staging := CTree files']> s) as [Hg Hh']; [done..| |].
  - intros name Hn. by rewrite lookup_insert_ne.
  - split; [done|]. split; [done|]. split; [done|]. cbn. by rewrite lookup_insert_eq.
Qed.

(** One member is written and read back with its digest. *)
Lemma safe_write_member me a staging files name raw s :
  valid_id a -> staged me a staging files s ->
  safe me (write_member staging (name, raw)) s (fun r s' =>
    match r with
    | Ok _ => files !! name = None /\ exists again, staged me a staging (<[name := again]> files) s' /\ sha256_hex again = sha256_hex raw
    | Raise _ => holding me a s'
    end).
Proof.
  intros Ha Hs. unfold write_member. set (Q := fun r s' => match r with Ok _ => _ | Raise _ => _ end).
  assert (forall files s, staged me a staging files s -> forall x s', capture_rely me s s' -> Q (Raise x) s') as HQ
    by (intros files' s' [Hh _] x s1 Hr; by apply (holding_rely me a s')).
  apply safe_look; [done|by eapply HQ|]. intros _ s1 Hr1 _. apply (staging_rely _ _ _ _ _ s1 Ha Hr1) in Hs.
  apply safe_look; [done|by eapply HQ|]. intros _ s2 Hr2 _. apply (staging_rely _ _ _ _ _ s2 Ha Hr2) in Hs.
  apply safe_change. intros s3 an3 Hr3 Hi3 _. apply (staging_rely _ _ _ _ _ s3 Ha Hr3) in Hs. pose proof Hs as (_ & _ & He3).
  cbn [perform_event]. unfold change, raise. rewrite He3.
  destruct (an_fault an3); cbn [fst snd]; [split; [by apply guarantee_unchanged|by eapply HQ]|].
  destruct (files !! name) eqn:En; cbn [fst snd]; [split; [by apply guarantee_unchanged|by eapply HQ]|].
  destruct (staging_insert me a staging files (<[name := []]> files) s3) as [Hg4 Hs4]; [done..|]. split; [done|].
  set (s4 := with_entries _ s3) in *. clearbody s4.
  apply safe_look; [done|by eapply HQ|]. intros _ s5 Hr5 _. apply (staging_rely _ _ _ _ _ s5 Ha Hr5) in Hs4.
  apply safe_change. intros s6 an6 Hr6 Hi6 _. apply (staging_rely _ _ _ _ _ s6 Ha Hr6) in Hs4. pose proof Hs4 as (_ & _ & He6).
  cbn [perform_event]. rewrite He6. cbn [fst snd]. set (stored := default raw (an_stored an6)).
  destruct (staging_insert me a staging (<[name := []]> files) (<[name := stored]> (<[name := []]> files)) s6) as [Hg7 Hs7]; [done..|].
  split; [done|]. rewrite insert_insert_eq in *. set (s7 := with_entries _ s6) in *. clearbody s7.
  destruct (an_fault an6); [by eapply HQ|].
  apply safe_look; [done|by eapply HQ|]. intros _ s8 Hr8 _. apply (staging_rely _ _ _ _ _ s8 Ha Hr8) in Hs7.
  apply safe_change. intros s9 an9 Hr9 Hi9 _. apply (staging_rely _ _ _ _ _ s9 Ha Hr9) in Hs7. pose proof Hs7 as (_ & _ & He9).
  cbn [perform_event]. unfold query, file_below. rewrite He9, lookup_insert_eq. cbn [fst snd expect].
  split; [by apply guarantee_unchanged|]. destruct (an_fault an9); [by eapply HQ|]. unfold lift, raise_if.
  apply safe_Done. intros s10 Hr10 _. apply (staging_rely _ _ _ _ _ s10 Ha Hr10) in Hs7.
  destruct (str_eqb (sha256_hex stored) (sha256_hex raw)) eqn:Ed; cbn [negb]; [|apply Hs7].
  split; [done|]. exists stored. split; [done|]. by apply str_eqb_spec.
Qed.

(** The files after members were added to a directory. *)
Definition filled (files : gmap pystr bytes) (members : list (pystr * bytes)) (files' : gmap pystr bytes) : Prop :=
  (forall name, is_Some (files' !! name) <-> is_Some (files !! name) \/ name ∈ map fst members) /\
  (forall name raw, (name, raw) ∈ members -> exists again, files' !! name = Some again /\ sha256_hex again = sha256_hex raw) /\
  (forall name x, files !! name = Some x -> files' !! name = Some x).

Lemma filled_cons files name raw again members files' :
  files !! name = None -> sha256_hex again = sha256_hex raw -> filled (<[name := again]> files) members files' ->
  filled files ((name, raw) :: members) files'.
Proof.
  intros Hn Ha (Hd & Hm & Hk). split_and!.
  - intros b. rewrite Hd, lookup_insert_is_Some'. cbn [map fst]. rewrite elem_of_cons. split; intros; naive_solver.
  - intros b x [[= -> ->]|Hin]%elem_of_cons; [|by apply Hm]. exists again. split; [|done]. apply Hk. by rewrite lookup_insert_eq.
  - intros b x Hb. apply Hk. rewrite lookup_insert_ne; [done|congruence].
Qed.

Lemma filled_seals members files : filled ∅ members files -> seals files members.
Proof.
  intros (Hd & Hm & _). split; [|done]. intros name. rewrite Hd, lookup_empty. split; [|by right]. by intros [[]|].
Qed.

Lemma safe_write_members me a staging members files s :
  valid_id a -> staged me a staging files s ->
  safe me (prog_each (write_member staging) members) s (fun r s' =>
    match r with
    | Ok _ => exists files', staged me a staging files' s' /\ filled files members files'
    | Raise _ => holding me a s'
    end).
Proof.
  intros Ha. revert files s. induction members as [|[name raw] members IH]; intros files s Hs; cbn [prog_each].
  - apply safe_Done. intros s1 Hr _. exists files. split; [by apply (staging_rely _ _ _ _ s)|].
    split_and!; [|by intros ? ? ?%elem_of_nil|done]. intros b. cbn [map]. rewrite elem_of_nil. tauto.
  - eapply (safe_bind _ _ _ _ _ capture_rely_refl); [by apply (safe_write_member me a staging files)| |].
    + intros [] s1 _ (Hn & again & Hs1 & Hd). eapply safe_mono; [by apply IH|].
      intros [[]|e] s2; [|done]. intros (files' & Hs2 & Hf). exists files'. split; [done|]. by apply (filled_cons _ _ _ again).
    + intros e s1 s2 _ Hh Hr _. by apply (holding_rely me a s1).
Qed.

(** ** Publication *)

(** The capture is there, whole. *)
Definition published (mode a : pystr) (s : world) : Prop :=
  exists files, w_entries s !! a = Some (CTree files) /\ captured mode a files.

Definition keeps_captures (s s' : world) : Prop := forall b x, valid_id b -> w_entries s !! b = Some x -> w_entries s' !! b = Some x.

Lemma published_kept mode a s s' : valid_id a -> keeps_captures s s' -> published mode a s -> published mode a s'.
Proof. intros Ha Hk (files & He & Hc). exists files. split; [by apply Hk|done]. Qed.

Lemma rely_keeps o s s' : capture_rely o s s' -> keeps_captures s s'.
Proof. intros Hr b x. apply (cr_kept _ _ _ Hr). Qed.

Lemma guarantee_keeps o s s' : guarantee o s s' -> keeps_captures s s'.
Proof. intros (_ & Ha & _) b x Hb. by apply (Ha b Hb). Qed.

Lemma keeps_trans s1 s2 s3 : keeps_captures s1 s2 -> keeps_captures s2 s3 -> keeps_captures s1 s3.
Proof. intros H12 H23 b x Hb Hx. by apply H23, H12. Qed.

(** The renaming: nothing is there before, for what is there is a package and not empty. *)
Lemma safe_rename me mode a staging files (f : unit -> program pystr) s Q :
  valid_id a -> staged me a staging files s -> captured mode a files ->
  (forall s x s', holding me a s -> capture_rely me s s' -> Q (Raise x) s') ->
  (forall s', holding me a s' -> published mode a s' -> safe me (f tt) s' Q) ->
  safe me (do (RenameTo staging a) ≫= f) s Q.
Proof.
  intros Ha Hs Hc HQ Hf. apply safe_change. intros s1 an Hr1 Hi1 _. apply (staging_rely _ _ _ _ _ s1 Ha Hr1) in Hs.
  pose proof Hs as (Hh & Ht & He). cbn [perform_event]. unfold change, os_error, raise. rewrite He.
  assert (guarantee me s1 s1 /\ forall x s2, capture_rely me s1 s2 -> Q (Raise x) s2) as [Hsame Hraise]
    by (split; [by apply guarantee_unchanged|by intros x s2; apply HQ]).
  destruct (an_fault an); [exact (conj Hsame (Hraise _))|].
  destruct (w_entries s1 !! a) as [[|others|]|] eqn:Ea; cbn [fst snd]; [exact (conj Hsame (Hraise _))| |exact (conj Hsame (Hraise _))|].
  { destruct (proj1 Hi1 a _ Ha Ea) as (mode' & others' & [= <-] & Hc'%captured_nonempty).
    rewrite bool_decide_eq_false_2 by done. exact (conj Hsame (Hraise _)). }
  set (g := fun m => _). assert (a <> staging) as Hne by (destruct Ht as (x & -> & _); intros E; by apply (staging_not_self a x)).
  assert (holds me (with_entries g s1) a) as Hh'.
  { destruct Hh as [Hh _]. unfold holds, g. cbn. rewrite lookup_insert_ne, lookup_delete_ne; [done| |].
    - intros E. apply (lock_outside a a); [done..|]. rewrite <- E. by apply temporary_area.
    - intros E. apply (lock_outside a a); [done..|]. rewrite <- E. apply area_self. }
  assert (w_entries (with_entries g s1) !! a = Some (CTree files)) as Hp by (cbn; unfold g; by rewrite lookup_insert_eq).
  split; [|apply Hf; [by split; [|apply Hh]|by exists files]].
  apply (guarantee_change me s1 g a); [done|done|apply Hh| |].
  - intros name Hn _. unfold g. rewrite lookup_insert_ne, lookup_delete_ne; [done| |].
    + intros ->. by apply Hn, temporary_area.
    + intros ->. apply Hn, area_self.
  - right. split; [done|]. by exists mode, files.
Qed.

Lemma safe_publish me mode a members staging s :
  valid_id a -> members_of mode a members -> staged me a staging ∅ s ->
  safe me (publish a members staging) s (fun r s' => holding me a s' /\ forall name, r = Ok name -> name = a /\ published mode a s').
Proof.
  intros Ha Hm Hs. unfold publish. set (Q := fun r s' => holding me a s' /\ _).
  assert (forall s x s', holding me a s -> capture_rely me s s' -> Q (Raise x) s') as HQ
    by (intros s' x s1 Hh Hr; split; [by apply (holding_rely me a s')|done]).
  apply safe_look; [done|by intros; eapply HQ; [apply Hs|]|]. intros _ s1 Hr1 _. apply (staging_rely _ _ _ _ _ s1 Ha Hr1) in Hs.
  eapply (safe_bind _ _ _ _ _ capture_rely_refl); [by apply safe_write_members| |intros e s2 s3 _ Hh Hr _; exact (HQ s2 e s3 Hh Hr)].
  intros [] s2 _ (files & Hs2 & Hf%filled_seals). assert (captured mode a files) as Hc by by exists members. clear Hs Hf.
  apply safe_look; [done|by intros; eapply HQ; [apply Hs2|]|]. intros paths s3 Hr3 _. apply (staging_rely _ _ _ _ _ s3 Ha Hr3) in Hs2.
  apply (safe_unseen _ _ _ _ (fun _ => True)); [apply each_quiet, sync_directory_quiet|apply yields_any|by intros; eapply HQ; [apply Hs2|]|].
  intros _ s4 Hr4 _ _. apply (staging_rely _ _ _ _ _ s4 Ha Hr4) in Hs2.
  apply (safe_unseen _ _ _ _ (fun _ => True)); [apply not_published_quiet|apply yields_any|by intros; eapply HQ; [apply Hs2|]|].
  intros _ s5 Hr5 _ _. apply (staging_rely _ _ _ _ _ s5 Ha Hr5) in Hs2.
  apply (safe_rename me mode a staging files); [done..|]. intros s6 Hh6 Hp6.
  apply (safe_unseen _ _ _ _ (fun _ => True)); [apply sync_directory_quiet|apply yields_any|by intros; eapply HQ|].
  intros _ s7 Hr7 _ _. apply safe_Done. intros s8 Hr8 _.
  pose proof (holding_rely me a _ _ Ha (capture_rely_trans _ _ _ _ Hr7 Hr8) Hh6) as Hh8. split; [done|].
  intros name [= <-]. split; [done|]. apply (published_kept mode a s6); [done| |done].
  by apply (rely_keeps me), (capture_rely_trans _ _ s7).
Qed.

(** ** The [finally] clause *)

Lemma keeps_captures_refl s : keeps_captures s s.
Proof. by intros b x. Qed.

Lemma safe_remove_tree me a staging s0 s :
  valid_id a -> temporary a staging -> holding me a s -> keeps_captures s0 s ->
  safe me (do (RemoveTree staging)) s (fun _ s' => holding me a s' /\ keeps_captures s0 s').
Proof.
  intros Ha Ht Hh Hk. apply safe_Call. intros s1 an Hr1 Hi1 _. apply (holding_rely me a _ _ Ha Hr1) in Hh.
  assert (keeps_captures s0 s1) as Hk1 by (eapply keeps_trans; [exact Hk|by apply (rely_keeps me)]).
  assert (forall (x : result unit) s2, guarantee me s1 s2 -> holding me a s2 ->
    guarantee me s1 s2 /\ safe me (Done x : program unit) s2 (fun _ s' => holding me a s' /\ keeps_captures s0 s')) as Hend.
  { intros x s2 Hg Hh2. split; [done|]. apply safe_Done. intros s3 Hr3 _. split; [by apply (holding_rely me a s2)|].
    eapply keeps_trans; [|by apply (rely_keeps me)]. eapply keeps_trans; [exact Hk1|by apply (guarantee_keeps me)]. }
  assert (guarantee me s1 s1) as Hsame by by apply guarantee_unchanged.
  cbn [perform_event]. destruct (w_entries s1 !! staging) as [[|files|]|]; cbn [fst snd]; try exact (Hend _ _ Hsame Hh).
  destruct (an_fault an); cbn [fst snd].
  - destruct (staging_change me a staging <[staging := CTree (filter (fun x => fst x ∈ an_left an) files)]> s1) as [Hg Hh2]; [done..| |by apply Hend].
    intros name Hn. by rewrite lookup_insert_ne.
  - destruct (staging_change me a staging (delete staging) s1) as [Hg Hh2]; [done..| |by apply Hend].
    intros name Hn. by rewrite lookup_delete_ne.
Qed.

Lemma safe_leave_capture {A} me a staging (r : result A) s :
  valid_id a -> holding me a s -> (forall name, staging = Some name -> temporary a name) ->
  safe me (leave_capture a staging r) s (fun r' s' => unsent me s' /\ forall x, r' = Ok x -> r = Ok x /\ keeps_captures s s').
Proof.
  intros Ha Hh Ht. unfold leave_capture. set (Q := fun r' s' => _).
  assert (forall s1 x s2, holding me a s1 -> capture_rely me s1 s2 -> Q (Raise x) s2) as HQ
    by (intros s1 x s2 [_ Hu] Hr; split; [by apply (unsent_rely me s1)|done]).
  eapply (safe_bind _ _ _ _ _ capture_rely_refl _ _ _ _ (fun _ s' => holding me a s' /\ keeps_captures s s')).
  - destruct staging as [name|].
    2: { apply safe_Done. intros s1 Hr _. split; [by apply (holding_rely me a s)|by apply (rely_keeps me)]. }
    assert (forall s1, capture_rely me s s1 -> holding me a s1 /\ keeps_captures s s1) as Hstep
      by (intros s1 Hr; split; [by apply (holding_rely me a s)|by apply (rely_keeps me)]).
    apply safe_look; [done|by intros x s1 Hr; apply Hstep|]. intros left s1 Hr1 _. destruct (Hstep s1 Hr1) as [Hh1 Hk1].
    destruct left; [by apply safe_remove_tree; [|apply Ht|..]|]. apply safe_Done. intros s2 Hr2 _. apply Hstep.
    by apply (capture_rely_trans _ _ s1).
  - intros [] s1 _ [Hh1 Hk1].
    apply safe_look; [done|by intros; eapply HQ|]. intros _ s2 Hr2 _.
    assert (keeps_captures s s2) as Hk2 by (eapply keeps_trans; [exact Hk1|by apply (rely_keeps me)]).
    apply (holding_rely me a _ _ Ha Hr2) in Hh1. clear Hk1.
    apply safe_change. intros s3 an Hr3 Hi3 _. apply (holding_rely me a _ _ Ha Hr3) in Hh1. pose proof Hh1 as [Hl Hu].
    cbn [perform_event]. unfold change. rewrite Hl. destruct (an_fault an); cbn [fst snd].
    { split; [by apply guarantee_unchanged|by intros s4; apply HQ]. }
    pose proof (guarantee_unlock me s3 a Hi3 Ha Hl) as Hg. split; [exact Hg|]. apply safe_Done. intros s4 Hr4 _. split.
    + by apply (unsent_rely me _ _ Hr4).
    + intros x Hx. split; [done|]. eapply keeps_trans; [exact Hk2|]. eapply keeps_trans; [by apply (rely_keeps me)|].
      eapply keeps_trans; [by apply (guarantee_keeps me)|by apply (rely_keeps me)].
  - intros e s1 s2 _ [Hh1 _] Hr _. by apply (HQ s1).
Qed.

(** ** [capture_package] *)

Lemma safe_stage me capture_id mode mezo trove s :
  let a := uuid_str capture_id in
  valid_id a -> holding me a s ->
  safe me (stage capture_id mode mezo trove) s (fun r s' => holding me a s' /\ forall members staging, r = Ok (members, staging) ->
    members_of mode a members /\ staged me a staging ∅ s').
Proof.
  intros a Ha Hh. unfold stage. cbv zeta. fold a. set (Q := fun r s' => _).
  assert (forall s x s', holding me a s -> capture_rely me s s' -> Q (Raise x) s') as HQ
    by (intros s' x s1 Hh' Hr; split; [by apply (holding_rely me a s')|done]).
  apply (safe_unseen _ _ _ _ (fun _ => True)); [apply not_published_quiet|apply yields_any|by intros; eapply HQ|].
  intros _ s1 Hr1 _ _. apply (holding_rely me a _ _ Ha Hr1) in Hh.
  apply (safe_unseen _ _ _ _ (members_of mode a)); [apply collect_quiet|apply collect_yields|by intros; eapply HQ|].
  intros members s2 Hr2 _ Hm. apply (holding_rely me a _ _ Ha Hr2) in Hh.
  apply safe_change. intros s3 an Hr3 Hi3 Hdrawn. apply (holding_rely me a _ _ Ha Hr3) in Hh.
  cbn [perform_event]. unfold change, raise. set (staging := staging_prefix a ++ an_suffix an).
  assert (guarantee me s3 s3 /\ forall x s4, capture_rely me s3 s4 -> Q (Raise x) s4) as [Hsame Hraise]
    by (split; [by apply guarantee_unchanged|by intros x s4; apply HQ]).
  destruct (an_fault an); [exact (conj Hsame (Hraise _))|].
  destruct (w_entries s3 !! staging) eqn:E; [exact (conj Hsame (Hraise _))|]. cbn [fst snd].
  assert (temporary a staging) as Ht by by exists (an_suffix an).
  destruct (staging_change me a staging <[staging := CTree ∅]> s3) as [Hg Hh4]; [done..| |].
  { intros name Hn. by rewrite lookup_insert_ne. }
  split; [done|]. apply safe_Done. intros s5 Hr5 _. split; [by apply (holding_rely me a _ _ Ha Hr5)|].
  intros ? ? [= <- <-]. split; [done|]. apply (staging_rely me a staging ∅ _ s5 Ha Hr5). split_and!; [done..|].
  cbn. by rewrite lookup_insert_eq.
Qed.

Lemma safe_capture_package me absolute capture_id mode mezo trove s :
  let a := uuid_str capture_id in
  valid_id a -> unsent me s ->
  safe me (capture_package absolute capture_id mode mezo trove) s (fun r s' =>
    unsent me s' /\ forall name, r = Ok name -> name = a /\ published mode a s').
Proof.
  intros a Ha Hu. unfold capture_package. cbv zeta. fold a. set (Q := fun r s' => _).
  assert (forall s x s', unsent me s -> capture_rely me s s' -> Q (Raise x) s') as HQ
    by (intros s' x s1 Hu' Hr; split; [by apply (unsent_rely me s')|done]).
  apply safe_value; [by intros; eapply HQ|]. intros _ _.
  apply safe_look; [done|by intros; eapply HQ|]. intros symlink s1 Hr1 _. apply (unsent_rely _ _ _ Hr1) in Hu.
  apply safe_value; [by intros; eapply HQ|]. intros _ _.
  apply safe_look; [done|by intros; eapply HQ|]. intros directory s2 Hr2 _. apply (unsent_rely _ _ _ Hr2) in Hu.
  apply safe_value; [by intros; eapply HQ|]. intros _ _.
  apply safe_change. intros s3 an Hr3 Hi3 _. apply (unsent_rely _ _ _ Hr3) in Hu.
  cbn [perform_event]. unfold change, raise.
  assert (guarantee me s3 s3 /\ forall x s4, capture_rely me s3 s4 -> Q (Raise x) s4) as [Hsame Hraise]
    by (split; [by apply guarantee_unchanged|by intros x s4; apply HQ]).
  destruct (an_fault an); [exact (conj Hsame (Hraise _))|].
  destruct (w_entries s3 !! lock_name a) eqn:E; [exact (conj Hsame (Hraise _))|]. cbn [fst snd].
  split; [by apply guarantee_lock|]. set (s4 := with_entries _ s3).
  assert (holding me a s4) as Hh by (split; [cbn; unfold holds; cbn; by rewrite lookup_insert_eq|done]). clearbody s4.
  eapply (safe_then _ _ _ _ _ capture_rely_refl); [by apply (safe_stage me capture_id mode mezo trove)|].
  intros [[members staging]|e] s5 _ [Hh5 Hok].
  - destruct (Hok members staging eq_refl) as [Hm Hs5].
    eapply (safe_then _ _ _ _ _ capture_rely_refl); [by apply (safe_publish me mode a)|].
    intros r s6 _ [Hh6 Hp6]. eapply safe_mono; [apply (safe_leave_capture me a); [done..|]|].
    + intros name [= <-]. apply Hs5.
    + intros r' s7 [Hu7 Hk7]. split; [done|]. intros name Hr'. destruct (Hk7 name Hr') as [Hr Hk]. destruct (Hp6 name Hr) as [-> Hp].
      split; [done|]. by apply (published_kept mode a s6).
  - eapply safe_mono; [by apply (safe_leave_capture me a)|]. intros r' s7 [Hu7 Hk7]. split; [done|]. intros name Hr'.
    by destruct (Hk7 name Hr').
Qed.

(** ** The handlers *)

Lemma safe_reply me status document s :
  unsent me s -> (forall s', capture_rely me s s' -> replied s' status document) ->
  safe me (capture_reply status document) s (fun r s' => match r with Ok _ => True | Raise _ => unsent me s' end).
Proof.
  intros Hu Hd. unfold capture_reply. set (Q := fun r s' => match r with Ok _ => True | Raise _ => _ end).
  assert (forall s1 x s2, unsent me s1 -> capture_rely me s1 s2 -> Q (Raise x) s2) as HQ
    by (intros s1 x s2 Hu1 Hr; by apply (unsent_rely me s1)).
  apply safe_value; [by intros; eapply HQ|]. intros raw Hraw.
  apply safe_Call. intros s1 an Hr1 Hi1 _. pose proof (unsent_rely _ _ _ Hr1 Hu) as Hu1. cbn [perform_event].
  destruct (an_fault an) as [e|]; cbn [fst snd].
  - split; [by apply guarantee_unchanged|]. apply safe_Done. intros s2 Hr2 _. by apply (HQ s1).
  - split; [|by apply safe_Done]. apply (guarantee_reply me s1 status raw document); [done..|]. by apply Hd.
Qed.

(** A reply that does not depend on the captures. *)
Lemma safe_plain me status document s :
  unsent me s -> (forall s', replied s' status document) ->
  safe me (capture_reply status document) s (fun r s' => match r with Ok _ => True | Raise _ => unsent me s' end).
Proof. intros Hu Hd. apply safe_reply; [done|]. by intros s' _. Qed.

Lemma uuid_valid n text : uuid_parse text = Ok n -> uuid_str n = text -> valid_id (uuid_str n).
Proof.
  intros Hp Ht. exists text. unfold identifier. rewrite Ht, Hp. cbn [mbind result_bind]. rewrite Ht, str_eqb_refl. reflexivity.
Qed.

Lemma parse_capture_valid body capture_id mezo trove : parse_capture body = Ok (capture_id, mezo, trove) -> valid_id (uuid_str capture_id).
Proof.
  unfold parse_capture. cbv zeta. intros (d & _ & ([] & _ & (text & _ & ([] & _ & (n & Hp & ([] & He%capture_if_Ok & [= <- _ _])%bind_Ok)%bind_Ok)%bind_Ok)%bind_Ok)%bind_Ok)%bind_Ok.
  apply negb_false_iff, str_eqb_spec in He. by apply (uuid_valid n text).
Qed.

Lemma safe_create_capture me mode request s :
  unsent me s -> safe me (create_capture mode request) s (fun r s' => match r with Ok _ => True | Raise _ => unsent me s' end).
Proof.
  intros Hu. unfold create_capture. set (Q := fun r s' => match r with Ok _ => True | Raise _ => _ end).
  assert (forall s1 x s2, unsent me s1 -> capture_rely me s1 s2 -> Q (Raise x) s2) as HQ
    by (intros s1 x s2 Hu1 Hr; by apply (unsent_rely me s1)).
  apply safe_value; [by intros; eapply HQ|]. intros n _.
  apply safe_look; [done|by intros; eapply HQ|]. intros raw s1 Hr1 _. apply (unsent_rely _ _ _ Hr1) in Hu.
  apply safe_value; [by intros; eapply HQ|]. intros _ _. apply safe_value; [by intros; eapply HQ|]. intros body _.
  apply safe_value; [by intros; eapply HQ|]. intros [[capture_id mezo] trove] Hv%parse_capture_valid.
  eapply (safe_bind _ _ _ _ _ capture_rely_refl); [by apply safe_capture_package| |].
  - intros name s2 _ [Hu2 Hp]. destruct (Hp name eq_refl) as [-> (files & He & Hc)]. apply safe_reply; [done|].
    intros s3 Hr3. apply (replied_created s3 capture_id mode files); [done| |done]. by apply (cr_kept _ _ _ Hr3).
  - intros e s2 s3 _ [Hu2 _] Hr _. by apply (HQ s2).
Qed.

Lemma safe_capture_error me e s : unsent me s -> safe me (capture_error e) s (fun _ _ => True).
Proof.
  intros Hu. unfold capture_error.
  assert (forall status document, (forall s', replied s' status document) -> safe me (capture_reply status document) s (fun _ _ => True)) as Hreply
    by (intros status document Hd; eapply safe_mono; [by apply safe_plain|done]).
  destruct (exc_subclass (exn_class e) FileExistsError); [apply Hreply; constructor|].
  destruct (exc_subclass (exn_class e) CaptureRejected); [apply Hreply; constructor|].
  destruct (existsb _ _); [apply Hreply; constructor|].
  destruct (exc_subclass (exn_class e) OSError); [apply Hreply; constructor|]. by apply safe_Done.
Qed.

(** A handler of either method. *)
Definition capturing (o : op) (p : program unit) : Prop :=
  exists mode, (exists request, p = capture_do_POST mode request) \/ (exists path, p = capture_do_GET mode path).

Lemma safe_handler me p s : capturing me p -> unsent me s -> safe me p s (fun _ _ => True).
Proof.
  intros (mode & [[request ->]|[path ->]]) Hu.
  - unfold capture_do_POST. destruct (negb _); [eapply safe_mono; [apply safe_plain; [done|constructor]|done]|].
    eapply (safe_then _ _ _ _ _ capture_rely_refl); [by apply safe_create_capture|].
    intros [[]|e] s1 _ Hr; [by apply safe_Done|by apply safe_capture_error].
  - unfold capture_do_GET. destruct (str_eqb _ _); [eapply safe_mono; [apply safe_plain; [done|constructor]|done]|].
    destruct (str_eqb _ _); [|eapply safe_mono; [apply safe_plain; [done|constructor]|done]].
    apply safe_look; [done|done|]. intros ready s1 Hr1 _. apply (unsent_rely _ _ _ Hr1) in Hu.
    eapply safe_mono; [apply safe_plain; [done|]|done]. intros s2. constructor.
Qed.

(** ** Every interleaving *)

Definition captures_reachable (s0 : world) (c : world * gmap op (program unit)) : Prop :=
  reachable perform_event drawn capture_stop fresh capturing s0 c.

Definition captures_step : relation (world * gmap op (program unit)) := step perform_event drawn capture_stop fresh capturing.

Abbreviation captures_ok := (config_ok perform_event drawn capture_inv capture_rely capture_act (fun _ _ _ => True)).

Lemma capture_stopped o s : capture_inv s -> guarantee o s (capture_stop o s).
Proof. apply guarantee_unchanged. Qed.

Lemma capture_started o p s : capturing o p -> capture_inv s -> fresh o s -> safe o p s (fun _ _ => True).
Proof. intros Hp _ [Hu _]. by apply safe_handler. Qed.

Lemma captures_step_ok c c' : captures_ok c -> captures_step c c' -> captures_ok c'.
Proof.
  exact (step_ok perform_event drawn capture_inv capture_rely capture_act capture_rely_refl capture_rely_trans capture_stop fresh capturing
    (fun _ _ _ => True) capture_act_refl capture_stopped capture_started c c').
Qed.

Lemma captures_ok_reachable s0 c : whole s0 -> w_sent s0 = [] -> captures_reachable s0 c -> captures_ok c.
Proof.
  intros Hw Hs. apply (reachable_ok perform_event drawn capture_inv capture_rely capture_act capture_rely_refl capture_rely_trans capture_stop
    fresh capturing (fun _ _ _ => True) capture_act_refl capture_stopped capture_started).
  split_and!; [done| |rewrite Hs; apply NoDup_nil_2]. intros o status raw. rewrite Hs. by intros ?%elem_of_nil.
Qed.

Lemma captures_step_keeps c c' : captures_ok c -> captures_step c c' -> keeps_captures (fst c) (fst c').
Proof.
  intros Hok Hs b x Hb. destruct (step_act perform_event drawn capture_inv capture_rely capture_act capture_rely_refl capture_stop fresh capturing
    (fun _ _ _ => True) capture_act_refl capture_stopped c c' Hok Hs) as [o Ha]. by apply (Ha b Hb).
Qed.

Lemma captures_rtc_ok c c' : captures_ok c -> rtc captures_step c c' -> captures_ok c' /\ keeps_captures (fst c) (fst c').
Proof.
  intros Hok Hr. induction Hr as [c|c1 c2 c3 Hs _ IH]; [split; [done|apply keeps_captures_refl]|].
  destruct (IH (captures_step_ok _ _ Hok Hs)) as [Hok3 Hk]. split; [done|]. eapply keeps_trans; [|exact Hk]. by apply captures_step_keeps.
Qed.

(** C15: whatever requests the capture services of one root handle at once, fail or stop
    for ever: under the name of a capture there is nothing or the whole package of its
    members, and once it is there it is never changed or removed. *)
Theorem captures_whole_and_kept s0 c c' a :
  whole s0 -> w_sent s0 = [] -> captures_reachable s0 c -> rtc captures_step c c' -> valid_id a ->
  (w_entries (fst c) !! a = None \/ exists mode, published mode a (fst c)) /\
  (forall x, w_entries (fst c) !! a = Some x -> w_entries (fst c') !! a = Some x).
Proof.
  intros Hw Hs Hr Hrtc Ha. pose proof (captures_ok_reachable _ _ Hw Hs Hr) as Hok. split.
  - destruct (w_entries (fst c) !! a) as [x|] eqn:E; [right|by left]. destruct (proj1 (proj1 Hok) a x Ha E) as (mode & files & -> & Hc).
    by exists mode, files.
  - intros x Hx. by apply (captures_rtc_ok _ _ Hok Hrtc).
Qed.

(** C16: no request is answered twice, every reply is a document of the service, and a reply
    201 names a capture that is there, whole. *)
Theorem capture_replies_honest s0 s pool :
  whole s0 -> w_sent s0 = [] -> captures_reachable s0 (s, pool) ->
  NoDup (map fst (w_sent s)) /\
  forall o status raw, (o, (status, raw)) ∈ w_sent s ->
    exists document, canonical_json_bytes document = Ok raw /\ replied s status document.
Proof. intros Hw Hs Hr. destruct (captures_ok_reachable _ _ Hw Hs Hr) as [(_ & Ha & Hn) _]. split; [exact Hn|exact Ha]. Qed.

(** C17: a lock whose handler has stopped, or could not remove it, stays for ever, and its
    capture, when it is not there, never will be. *)
Theorem abandoned_lock_blocks s0 s pool o a c' :
  whole s0 -> w_sent s0 = [] -> captures_reachable s0 (s, pool) -> valid_id a ->
  pool !! o = None -> holds o s a -> w_entries s !! a = None -> rtc captures_step (s, pool) c' ->
  holds o (fst c') a /\ w_entries (fst c') !! a = None.
Proof.
  intros Hw Hs0 Hr Ha Ho Hh Hn Hrtc. pose proof (captures_ok_reachable _ _ Hw Hs0 Hr) as Hok. clear Hr.
  remember (s, pool) as c eqn:Ec. assert (snd c !! o = None /\ holds o (fst c) a /\ w_entries (fst c) !! a = None) as (Ho1 & Hh1 & Hn1) by by rewrite Ec.
  clear Ec Ho Hh Hn s pool. induction Hrtc as [c|c1 c2 c3 Hs _ IH]; [done|].
  destruct (step_absent perform_event drawn capture_inv capture_rely capture_act capture_rely_refl capture_stop fresh capturing
    (fun _ _ _ => True) capture_stopped c1 c2 o) as [Hrely Ho2]; [intros s _; apply capture_rely_refl|done|done|done|by intros [_ Hf]; apply (Hf a)|].
  apply IH; [by apply (captures_step_ok c1)|done|by apply (cr_lock _ _ _ Hrely)|].
  rewrite (cr_area _ _ _ Hrely a a); [done..|apply area_self].
Qed.
End captures.

(** A handler that runs alone, from its start to its end. *)
Lemma handler_reachable `{UnicodeLower} oracle s o p :
  (forall s, drawn (oracle s) s) -> fresh o s -> capturing o p ->
  captures_reachable s (snd (run perform_event o oracle p s), <[o := Done (fst (run perform_event o oracle p s))]> (<[o := p]> ∅)).
Proof.
  intros Ho Hf Hp. eapply rtc_l; [by apply (step_start _ _ _ _ _ o p)|]. apply run_steps; [exact Ho|exact (lookup_insert_eq _ _ _)].
Qed.

(** ** A capture of the fixture *)

Definition demo_capture_text : pystr := Eval vm_compute in uuid_str demo_id.

Definition demo_capture_request : http_request :=
  mkHttp (u "/internal/v1/captures") [] [u "53"] None (u "application/json").

Definition demo_capture_body : bytes := double_quoted "{'capture_id':'" ++ demo_capture_text ++ double_quoted "'}".

Definition demo_world : world := mkWorld KDirectory ∅ [].

Definition demo_calls (failing : world -> bool) (s : world) : answers :=
  mkAnswers (if failing s then Some (Exc OSError "system call") else None) (u "abcdefgh") None [] 0
    (mkHttpResponse 200 None None None) [] JNull [[]] true demo_capture_body.

(** Every call after the lock was created fails, in the second run. *)
Definition demo_fails (s : world) : bool := isSome (w_entries s !! lock_name demo_capture_text).

Definition demo_handler : program unit := capture_do_POST (H := fun s => s) (u "fixture") demo_capture_request.

Definition demo_capture_run (failing : world -> bool) : result unit * world := run perform_event 1%positive (demo_calls failing) demo_handler demo_world.

Lemma demo_whole : whole (H := fun s => s) demo_world.
Proof. intros a x _ Hx. cbn in Hx. by rewrite lookup_empty in Hx. Qed.

Lemma demo_capture_reachable failing : captures_reachable (H := fun s => s) demo_world
  (snd (demo_capture_run failing), <[1%positive := Done (fst (demo_capture_run failing))]> (<[1%positive := demo_handler]> ∅)).
Proof.
  apply (handler_reachable (demo_calls failing) demo_world 1%positive demo_handler); [done| |].
  - split; [by intros ?%elem_of_nil|]. intros a _ Hh. unfold holds in Hh. cbn in Hh. by rewrite lookup_empty in Hh.
  - exists (u "fixture"). left. by exists demo_capture_request.
Qed.

Lemma demo_capture_valid : valid_id demo_capture_text.
Proof. exists demo_capture_text. vm_compute. reflexivity. Qed.

Lemma captures_whole_and_kept_witness :
  isSome (w_entries (snd (demo_capture_run (fun _ => false))) !! demo_capture_text) = true /\
  exists mode, published (H := fun s => s) mode demo_capture_text (snd (demo_capture_run (fun _ => false))).
Proof.
  assert (isSome (w_entries (snd (demo_capture_run (fun _ => false))) !! demo_capture_text) = true) as E by (vm_compute; reflexivity).
  split; [exact E|].
  destruct (captures_whole_and_kept (H := fun s => s) demo_world _ _ demo_capture_text demo_whole eq_refl
    (demo_capture_reachable (fun _ => false)) (rtc_refl _ _) demo_capture_valid) as [[Hn|Hp] _]; [|exact Hp].
  cbn [fst] in Hn. rewrite Hn in E. discriminate E.
Defined.

Definition demo_capture_reply : bytes :=
  Eval vm_compute in match canonical_json_bytes (created_document (u "fixture") demo_id) with Ok raw => raw | Raise _ => [] end.

Lemma capture_replies_honest_witness :
  w_sent (snd (demo_capture_run (fun _ => false))) = [(1%positive, (201, demo_capture_reply))] /\
  exists document, canonical_json_bytes document = Ok demo_capture_reply /\
    replied (H := fun s => s) (snd (demo_capture_run (fun _ => false))) 201 document.
Proof.
  assert (w_sent (snd (demo_capture_run (fun _ => false))) = [(1%positive, (201, demo_capture_reply))]) as E by (vm_compute; reflexivity).
  split; [exact E|].
  pose proof (capture_replies_honest (H := fun s => s) demo_world _ _ demo_whole eq_refl (demo_capture_reachable (fun _ => false))) as [_ Ha].
  apply (Ha 1%positive 201 demo_capture_reply). rewrite E. exact (list_elem_of_here _ _).
Defined.

(** The lock that a failed removal leaves, after its handler ended. *)
Lemma demo_abandoned_reachable : captures_reachable (H := fun s => s) demo_world (snd (demo_capture_run demo_fails), ∅).
Proof.
  eapply rtc_r; [exact (demo_capture_reachable demo_fails)|].
  set (pool := <[1%positive := Done _]> _). assert (∅ = delete 1%positive pool) as E.
  { unfold pool. by rewrite delete_insert_eq, delete_insert_id. }
  rewrite E. apply (step_end _ _ _ _ _ 1%positive (fst (demo_capture_run demo_fails))). exact (lookup_insert_eq _ _ _).
Qed.

Lemma abandoned_lock_blocks_witness :
  let s := snd (demo_capture_run demo_fails) in
  holds 1%positive s demo_capture_text /\ w_entries s !! demo_capture_text = None /\
  forall c', rtc (captures_step (H := fun s => s)) (s, ∅) c' -> w_entries (fst c') !! demo_capture_text = None.
Proof.
  cbv zeta.
  assert (holds 1%positive (snd (demo_capture_run demo_fails)) demo_capture_text) as Hh by (vm_compute; reflexivity).
  assert (w_entries (snd (demo_capture_run demo_fails)) !! demo_capture_text = None) as Hn by (vm_compute; reflexivity).
  split; [exact Hh|]. split; [exact Hn|]. intros c' Hc.
  exact (proj2 (abandoned_lock_blocks (H := fun s => s) demo_world _ ∅ 1%positive demo_capture_text c' demo_whole eq_refl
    demo_abandoned_reachable demo_capture_valid (lookup_empty _) Hh Hn Hc)).
Defined.
