(* ===== verification/ChunkedReader.v ===== *)
(** * The bounded reader of the compatibility probe: [_BudgetedReader] and [_BoundedHTTPResponse] of [tools/mezo_compatibility.py]

    The probe reads every response through a reader that counts all bytes it takes and,
    apart, those that frame the body, and decodes chunked bodies itself.  Proved here:
    the decoder accepts exactly the chunked encodings within its budgets, and however it
    ends it has taken one byte at most beyond them. *)

From S2P Require Import Prelude PyStr Num PyObj Json Bytes EvidenceIo MezoDex.
Open Scope Z_scope.

Definition MAX_RESPONSE_BYTES : Z := 2 * 1024 * 1024.
Definition MAX_FRAMING_BYTES : Z := 64 * 1024.
Definition MAX_LINE_BYTES : Z := 8192.

(** The budget of all bytes. *)
Definition MAX_WIRE_BYTES : Z := MAX_RESPONSE_BYTES + MAX_FRAMING_BYTES.

(** What the server still sends, and the two counters. *)
Record budgeted := mkReader { rd_stream : bytes; rd_wire : Z; rd_framing : Z }.

(** A method of the reader, which keeps its counters also when it raises. *)
Definition budget (A : Type) : Type := budgeted -> result A * budgeted.

#[global] Instance budget_ret : MRet budget := fun A a r => (Ok a, r).
#[global] Instance budget_bind : MBind budget := fun A B f m r =>
  match m r with (Ok a, r') => f a r' | (Raise e, r') => (Raise e, r') end.

(** [_FramingError], an [HTTPException]. *)
Definition framing_if (b : bool) : budget unit := fun r => (raise_if b HTTPException "framing", r).

(** [_account] *)
Definition account (data : bytes) (framing : bool) : budget bytes := fun r =>
  let r := mkReader (rd_stream r) (rd_wire r + zlength data) (if framing then rd_framing r + zlength data else rd_framing r) in
  (raise_if ((MAX_WIRE_BYTES <? rd_wire r) || (MAX_FRAMING_BYTES <? rd_framing r)) HTTPException "framing" ;; Ok data, r).

(** [self.stream.read(n)] and [self.stream.readline(n)] *)
Definition stream_read (n : Z) : budget bytes := fun r =>
  (Ok (take (Z.to_nat n) (rd_stream r)), mkReader (drop (Z.to_nat n) (rd_stream r)) (rd_wire r) (rd_framing r)).

Fixpoint line_of (s : bytes) : bytes :=
  match s with [] => [] | c :: s => if c =? 10 then [c] else c :: line_of s end.

Definition stream_readline (n : Z) : budget bytes := fun r => stream_read (Z.min n (zlength (line_of (rd_stream r)))) r.

(** [read] *)
Definition reader_read (amount : Z) : budget bytes := fun r =>
  let remaining := MAX_WIRE_BYTES - rd_wire r in
  let amount := if amount <? 0 then remaining + 1 else Z.min amount (remaining + 1) in
  (data ← stream_read amount; account data false) r.

Definition count_framing (n : Z) : budget unit := fun r =>
  let r := mkReader (rd_stream r) (rd_wire r) (rd_framing r + n) in framing_if (MAX_FRAMING_BYTES <? rd_framing r) r.

Definition read_framing (amount : Z) : budget bytes :=
  data ← reader_read amount;
  _ ← count_framing (zlength data);
  mret data.

Definition ends_crlf (data : bytes) : bool := match rev data with 10 :: 13 :: _ => true | _ => false end.

(** [readline] *)
Definition reader_readline (limit : Z) : budget bytes := fun r =>
  let remaining := MAX_FRAMING_BYTES - rd_framing r in
  let maximum := Z.min (MAX_LINE_BYTES + 1) (remaining + 1) in
  let maximum := if 0 <=? limit then Z.min maximum limit else maximum in
  (data ← stream_readline maximum;
   data ← account data true;
   _ ← framing_if ((MAX_LINE_BYTES <? zlength data) || negb (ends_crlf data));
   mret data) r.

(** [_safe_read] of [http.client] *)
Definition exact_read (size : Z) : budget bytes :=
  data ← reader_read size;
  _ ← framing_if (zlength data <? size);
  mret data.

(** ** [_read_chunked] *)

Definition CRLF : bytes := [13; 10].

(** [re.fullmatch(rb"[0-9a-fA-F]{1,8}\r\n", line)] and the size. *)
Definition size_line (line : bytes) : option Z :=
  let digits := take (length line - 2) line in
  if str_eqb (drop (length line - 2) line) CRLF && (1 <=? zlength digits) && (zlength digits <=? 8) && forallb any_hex digits
  then Some (hex_value digits) else None.

(** A turn takes three bytes at least. *)
Fixpoint chunk_loop (turns : nat) (maximum total : Z) : budget bytes :=
  match turns with
  | O => fun r => (raise RuntimeError "turns", r)
  | S turns =>
    line ← reader_readline (-1);
    match size_line line with
    | None => fun r => (raise HTTPException "framing", r)
    | Some size =>
      if size =? 0 then
        last ← reader_readline (-1);
        _ ← framing_if (negb (str_eqb last CRLF));
        mret []
      else
        _ ← framing_if (maximum <? total + size);
        data ← exact_read size;
        close ← read_framing 2;
        _ ← framing_if (negb (str_eqb close CRLF));
        rest ← chunk_loop turns maximum (total + size);
        mret (data ++ rest)
    end
  end.

Definition chunk_maximum (amt : option Z) : Z := match amt with None => MAX_RESPONSE_BYTES | Some amt => Z.min amt MAX_RESPONSE_BYTES end.

Definition read_chunked (amt : option Z) : budget bytes := fun r => chunk_loop (S (length (rd_stream r))) (chunk_maximum amt) 0 r.

Example read_chunked_ex1 :
  fst (read_chunked None (mkReader (u "3" ++ CRLF ++ u "abc" ++ CRLF ++ u "0A" ++ CRLF ++ u "0123456789" ++ CRLF ++ u "0" ++ CRLF ++ CRLF) 0 0)) =
  Ok (u "abc0123456789").
Proof. vm_compute. reflexivity. Qed.
Example read_chunked_ex2 : is_Ok (fst (read_chunked None (mkReader (u "4" ++ CRLF ++ u "abc" ++ CRLF) 0 0))) = false.
Proof. vm_compute. reflexivity. Qed.
Example read_chunked_ex3 : is_Ok (fst (read_chunked (Some 2) (mkReader (u "3" ++ CRLF ++ u "abc" ++ CRLF ++ u "0" ++ CRLF ++ CRLF) 0 0))) = false.
Proof. vm_compute. reflexivity. Qed.

(** ** What the decoder accepts *)

(** A chunked encoding and its body. *)
Inductive chunked : bytes -> bytes -> Prop :=
  | chunked_last line : size_line line = Some 0 -> chunked (line ++ CRLF) []
  | chunked_more line data wire body : size_line line = Some (zlength data) -> 0 < zlength data -> chunked wire body ->
      chunked (line ++ data ++ CRLF ++ wire) (data ++ body).

(** A reader within its budgets. *)
Definition within (r : budgeted) : Prop := 0 <= rd_wire r <= MAX_WIRE_BYTES /\ 0 <= rd_framing r <= MAX_FRAMING_BYTES.

(** Bytes were taken, some of which frame, within the budgets. *)
Definition moved (r r' : budgeted) (wire framing : Z) : Prop :=
  rd_wire r' = rd_wire r + wire /\ rd_framing r' = rd_framing r + framing /\ within r'.

(** A line that ends with its only line feed, after a carriage return. *)
Definition crlf_line (line : bytes) : Prop := exists a, line = a ++ CRLF /\ 10 ∉ a.

Lemma budget_bind_Ok {A B} (m : budget A) (f : A -> budget B) r b r' :
  (m ≫= f) r = (Ok b, r') <-> exists a r1, m r = (Ok a, r1) /\ f a r1 = (Ok b, r').
Proof.
  unfold mbind, budget_bind. destruct (m r) as [[a|e] r1].
  - split; [by exists a, r1|]. by intros (? & ? & [= <- <-] & ?).
  - split; [done|]. by intros (? & ? & [=] & ?).
Qed.

Lemma framing_if_Ok b r x r' : framing_if b r = (Ok x, r') <-> b = false /\ x = tt /\ r' = r.
Proof. unfold framing_if, raise_if. destruct b, x; split; try done; [by intros [[=]]|by intros [= <-]|by intros (_ & _ & ->)]. Qed.

Lemma account_Ok data framing r x r' :
  account data framing r = (Ok x, r') <->
  x = data /\ r' = mkReader (rd_stream r) (rd_wire r + zlength data) (if framing then rd_framing r + zlength data else rd_framing r) /\
  rd_wire r' <= MAX_WIRE_BYTES /\ rd_framing r' <= MAX_FRAMING_BYTES.
Proof.
  unfold account, raise_if. cbn [rd_wire rd_framing].
  case_match eqn:E; cbn [mbind result_bind].
  - split; [discriminate|]. intros (_ & -> & Hw & Hf). cbn [rd_wire rd_framing] in *. apply orb_true_iff in E. rewrite !Z.ltb_lt in E. lia.
  - apply orb_false_iff in E. rewrite !Z.ltb_ge in E. split; [intros [= <- <-]; cbn [rd_wire rd_framing]; tauto|]. by intros (-> & -> & _).
Qed.

Lemma take_drop_all (n : nat) (s a b : bytes) : take n s = a -> drop n s = b -> s = a ++ b.
Proof. intros <- <-. by rewrite take_drop. Qed.

(** A read takes what the stream has, up to the amount, when the budget has room. *)
Lemma reader_read_Ok size r data r' :
  within r -> 0 <= size ->
  reader_read size r = (Ok data, r') <->
  data = take (Z.to_nat size) (rd_stream r) /\ rd_stream r = data ++ rd_stream r' /\ moved r r' (zlength data) 0.
Proof.
  intros [Hw Hf] Hs. unfold reader_read. rewrite (proj2 (Z.ltb_ge size 0)) by lia.
  set (n := Z.min size (MAX_WIRE_BYTES - rd_wire r + 1)). rewrite budget_bind_Ok. unfold stream_read.
  assert (zlength (take (Z.to_nat n) (rd_stream r)) <= MAX_WIRE_BYTES - rd_wire r ->
    take (Z.to_nat n) (rd_stream r) = take (Z.to_nat size) (rd_stream r) /\
    drop (Z.to_nat n) (rd_stream r) = drop (Z.to_nat size) (rd_stream r)) as Hn.
  { unfold zlength. rewrite length_take. intros Hl. destruct (decide (n = size)) as [->|Hne]; [done|].
    assert (length (rd_stream r) <= Z.to_nat n)%nat by lia. rewrite !take_ge, !drop_ge by lia. done. }
  split.
  - intros (a & r1 & [= <- <-] & (-> & -> & Hw' & Hf')%account_Ok). cbn [rd_stream rd_wire rd_framing] in *.
    destruct Hn as [H1 H2]; [lia|]. split; [done|]. split; [by rewrite H1, H2, take_drop|].
    unfold moved, within. cbn [rd_wire rd_framing]. pose proof (zlength_nonneg (take (Z.to_nat n) (rd_stream r))). lia.
  - intros (-> & Hd & Hm1 & Hm2 & Hm3 & Hm4). eexists _, _. split; [reflexivity|]. rewrite account_Ok. cbn [rd_stream rd_wire rd_framing].
    assert (zlength (take (Z.to_nat n) (rd_stream r)) <= zlength (take (Z.to_nat size) (rd_stream r))) as Hle
      by (unfold zlength; rewrite !length_take; lia).
    destruct Hn as [H1 H2]; [lia|]. rewrite H1, H2. split; [done|]. destruct r' as [s w f]. cbn [rd_stream rd_wire rd_framing] in *.
    assert (s = drop (Z.to_nat size) (rd_stream r)) as ->.
    { apply (app_inv_head (take (Z.to_nat size) (rd_stream r))). by rewrite <- Hd, take_drop. }
    split; [f_equal; lia|lia].
Qed.

Lemma exact_read_Ok size r data r' :
  within r -> 0 <= size ->
  exact_read size r = (Ok data, r') <-> rd_stream r = data ++ rd_stream r' /\ zlength data = size /\ moved r r' size 0.
Proof.
  intros Hr Hs. unfold exact_read. rewrite budget_bind_Ok. split.
  - intros (a & r1 & (-> & Hd & Hm)%reader_read_Ok & Hk); [|done..]. apply budget_bind_Ok in Hk as ([] & r2 & (Hl & _ & ->)%framing_if_Ok & [= <- <-]).
    apply Z.ltb_ge in Hl. assert (zlength (take (Z.to_nat size) (rd_stream r)) = size) as E by (unfold zlength in *; rewrite length_take in *; lia).
    rewrite E in Hm. done.
  - intros (Hd & Hl & Hm). exists data, r'. split.
    + apply reader_read_Ok; [done..|]. rewrite Hl. split; [|done]. rewrite Hd, take_app_length' by (unfold zlength in Hl; lia). done.
    + apply budget_bind_Ok. exists tt, r'. split; [|done]. apply framing_if_Ok. by rewrite Hl, Z.ltb_irrefl.
Qed.

(** *** Lines *)

Lemma line_of_app a t : 10 ∉ a -> line_of (a ++ 10 :: t) = a ++ [10].
Proof.
  induction a as [|c a IH]; intros Ha; cbn; [done|]. apply not_elem_of_cons in Ha as [Hc Ha].
  rewrite (proj2 (Z.eqb_neq c 10)) by congruence. by rewrite IH.
Qed.

Lemma line_of_none s : 10 ∉ s -> line_of s = s.
Proof.
  induction s as [|c s IH]; intros Hs; cbn; [done|]. apply not_elem_of_cons in Hs as [Hc Hs].
  rewrite (proj2 (Z.eqb_neq c 10)) by congruence. by rewrite IH.
Qed.

Lemma line_cases s : 10 ∉ s \/ exists a t, s = a ++ 10 :: t /\ 10 ∉ a.
Proof.
  destruct (decide (10 ∈ s)) as [Hin|]; [right|by left]. by apply list_elem_of_split_l in Hin as (a & t & -> & Ha); exists a, t.
Qed.

Lemma ends_crlf_spec data : ends_crlf data = true <-> exists b, data = b ++ CRLF.
Proof.
  unfold ends_crlf, CRLF. split.
  - intros Hd. destruct (rev data) as [|x [|y l]] eqn:E; [done|by repeat (case_match; try done)|].
    assert (x = 10 /\ y = 13) as [-> ->] by (clear -Hd; repeat (case_match; try done)).
    exists (rev l). rewrite <- (rev_involutive data), E. cbn [rev]. by rewrite <- app_assoc.
  - intros [b ->]. by rewrite rev_app_distr.
Qed.

(** What is taken of the stream as a line that ends, is the line. *)
Lemma taken_line k s b :
  (k <= length (line_of s))%nat -> take k s = b ++ CRLF -> 10 ∉ b.
Proof.
  intros Hk E. destruct (line_cases s) as [Hn|(a & t & -> & Ha)].
  - intros Hb. apply Hn. rewrite <- (take_drop k s), E. rewrite !elem_of_app. tauto.
  - rewrite line_of_app in Hk by done. rewrite length_app in Hk. cbn [length] in Hk.
    destruct (decide (k <= length a)%nat) as [Hle|Hgt].
    + exfalso. apply Ha. rewrite take_app_le in E by lia. rewrite <- (take_drop k a), E.
      rewrite !elem_of_app. left. right. right. left.
    + assert (k = length a + 1)%nat as -> by lia. rewrite take_app_add in E. cbn [take] in E.
      unfold CRLF in E. change [13; 10] with ([13] ++ [10]) in E. rewrite app_assoc in E. apply app_inj_tail in E as [-> _].
      rewrite elem_of_app in Ha. tauto.
Qed.

Lemma readline_Ok r line r' :
  within r ->
  reader_readline (-1) r = (Ok line, r') <->
  rd_stream r = line ++ rd_stream r' /\ crlf_line line /\ zlength line <= MAX_LINE_BYTES /\ moved r r' (zlength line) (zlength line).
Proof.
  intros [Hw Hf]. unfold reader_readline. change (0 <=? -1) with false. cbv iota zeta.
  set (n := Z.min (MAX_LINE_BYTES + 1) (MAX_FRAMING_BYTES - rd_framing r + 1)).
  rewrite budget_bind_Ok. unfold stream_readline, stream_read.
  set (k := Z.to_nat (Z.min n (zlength (line_of (rd_stream r))))).
  assert (k <= length (line_of (rd_stream r)))%nat as Hk by (unfold k, zlength; lia).
  split.
  - intros (a0 & r0 & [= <- <-] & (a & r1 & (-> & -> & Hw' & Hf')%account_Ok & ([] & r2 & (He & _ & ->)%framing_if_Ok & [= <- <-])%budget_bind_Ok)%budget_bind_Ok).
    cbn [rd_stream rd_wire rd_framing] in *. apply orb_false_iff in He as [Hl He]. apply Z.ltb_ge in Hl.
    apply negb_false_iff, ends_crlf_spec in He as [b Hb].
    split; [by rewrite take_drop|]. split; [exists b; split; [done|by apply (taken_line k (rd_stream r))]|]. split; [done|].
    unfold moved, within. cbn [rd_wire rd_framing]. pose proof (zlength_nonneg (take k (rd_stream r))). lia.
  - intros (Hs & (b & -> & Hb) & Hl & Hm1 & Hm2 & Hm3 & Hm4).
    assert (line_of (rd_stream r) = b ++ CRLF) as Eline.
    { rewrite Hs. unfold CRLF. replace ((b ++ [13; 10]) ++ rd_stream r') with ((b ++ [13]) ++ 10 :: rd_stream r') by by rewrite <- !app_assoc.
      rewrite line_of_app; [by rewrite <- app_assoc|]. rewrite elem_of_app, list_elem_of_singleton. intros [?|?]; [done|lia]. }
    assert (k = length (b ++ CRLF)) as ->.
    { unfold k. rewrite Eline. unfold zlength in *. lia. }
    eexists _, _. split; [reflexivity|]. rewrite budget_bind_Ok. exists (b ++ CRLF), r'. rewrite account_Ok. cbn [rd_stream rd_wire rd_framing].
    rewrite Hs, take_app_length, drop_app_length. split.
    + split; [done|]. destruct r' as [s w f]. cbn [rd_stream rd_wire rd_framing] in *. split; [f_equal; lia|lia].
    + rewrite budget_bind_Ok. exists tt, r'. split; [|done]. apply framing_if_Ok. split; [|done].
      apply orb_false_iff. split; [by apply Z.ltb_ge|]. apply negb_false_iff, ends_crlf_spec. by exists b.
Qed.

Lemma size_line_Some line n : size_line line = Some n -> crlf_line line /\ 3 <= zlength line <= 10 /\ 0 <= n.
Proof.
  unfold size_line. set (digits := take _ line). destruct (_ && _) eqn:E; [|done]. intros [= <-].
  rewrite !andb_true_iff in E. destruct E as [[[Hc H1] H8] Hd]. apply str_eqb_spec in Hc. apply Z.leb_le in H1, H8.
  assert (line = digits ++ CRLF) as El by (rewrite <- Hc; unfold digits; by rewrite take_drop).
  split; [|split; [rewrite El; unfold zlength in *; rewrite length_app; cbn [CRLF length]; lia|apply hex_value_bound]].
  exists digits. split; [done|]. intros Hin. rewrite forallb_forall in Hd. by specialize (Hd 10 (proj1 (list_elem_of_In _ _) Hin)).
Qed.

Lemma CRLF_line : crlf_line CRLF.
Proof. exists []. split; [done|]. apply not_elem_of_nil. Qed.

Lemma moved_within r r' w f : moved r r' w f -> within r'.
Proof. by intros (_ & _ & ?). Qed.

Lemma moved_trans r r1 r' w f w' f' : moved r r1 w f -> moved r1 r' w' f' -> moved r r' (w + w') (f + f').
Proof. unfold moved. intros (-> & -> & _) (-> & -> & ?). split; [lia|]. split; [lia|done]. Qed.

Lemma read_framing_Ok data r r' :
  within r ->
  read_framing (zlength data) r = (Ok data, r') <-> rd_stream r = data ++ rd_stream r' /\ moved r r' (zlength data) (zlength data).
Proof.
  intros Hr. pose proof (zlength_nonneg data) as Hn. unfold read_framing. rewrite budget_bind_Ok. split.
  - intros (a & r1 & (Ha & Hd & Hm)%reader_read_Ok & Hk); [|done..].
    apply budget_bind_Ok in Hk as ([] & r2 & (Hl & _ & ->)%framing_if_Ok & [= -> <-]). cbn [rd_stream rd_wire rd_framing] in *.
    apply Z.ltb_ge in Hl. split; [done|]. destruct Hm as (Hm1 & Hm2 & Hm3 & Hm4). unfold moved, within. cbn [rd_wire rd_framing]. lia.
  - intros (Hd & Hm1 & Hm2 & Hm3 & Hm4). exists data, (mkReader (rd_stream r') (rd_wire r') (rd_framing r)). destruct Hr as [Hw Hf]. split.
    + apply reader_read_Ok; [done..|]. cbn [rd_stream]. rewrite Hd, take_app_length' by (unfold zlength; lia).
      split; [done|]. split; [done|]. unfold moved, within. cbn [rd_wire rd_framing]. lia.
    + apply budget_bind_Ok. unfold count_framing. cbn [rd_stream rd_wire rd_framing]. rewrite <- Hm2. exists tt, r'.
      destruct r' as [s w f]. cbn [rd_stream rd_wire rd_framing] in *. split; [|done]. apply framing_if_Ok. split; [apply Z.ltb_ge; lia|done].
Qed.

Lemma chunk_loop_sound turns maximum total r body r' :
  within r -> total <= maximum -> chunk_loop turns maximum total r = (Ok body, r') ->
  exists wire, rd_stream r = wire ++ rd_stream r' /\ chunked wire body /\ total + zlength body <= maximum /\
    moved r r' (zlength wire) (zlength wire - zlength body).
Proof.
  revert total r body r'. induction turns as [|turns IH]; intros total r body r' Hr Ht; [done|]. cbn [chunk_loop].
  intros (line & r1 & (Hs1 & Hl & _ & Hm1)%readline_Ok & Hk)%budget_bind_Ok; [|done].
  destruct (size_line line) as [size|] eqn:El; [|done]. pose proof (size_line_Some _ _ El) as (_ & _ & Hsize).
  destruct (Z.eqb_spec size 0) as [->|Hne].
  - apply budget_bind_Ok in Hk as (last & r2 & (Hs2 & _ & _ & Hm2)%readline_Ok & Hk); [|by eapply moved_within].
    apply budget_bind_Ok in Hk as ([] & r3 & (E & _ & ->)%framing_if_Ok & [= <- <-]).
    apply negb_false_iff, str_eqb_spec in E as ->. exists (line ++ CRLF).
    split; [by rewrite Hs1, Hs2, app_assoc|]. split; [by constructor|]. change (zlength (@nil Z)) with 0. split; [lia|].
    rewrite zlength_app, Z.sub_0_r. by eapply moved_trans.
  - apply budget_bind_Ok in Hk as ([] & r1' & (E & _ & ->)%framing_if_Ok & Hk). apply Z.ltb_ge in E.
    apply budget_bind_Ok in Hk as (data & r2 & (Hs2 & Hd & Hm2)%exact_read_Ok & Hk); [|by eapply moved_within|lia].
    apply budget_bind_Ok in Hk as (close & r3 & Hc & Hk).
    apply budget_bind_Ok in Hk as ([] & r3' & (Ec & _ & ->)%framing_if_Ok & Hk). apply negb_false_iff, str_eqb_spec in Ec as ->.
    change 2 with (zlength CRLF) in Hc. apply read_framing_Ok in Hc as (Hs3 & Hm3); [|by eapply moved_within].
    apply budget_bind_Ok in Hk as (rest & r4 & (wire & Hs4 & Hw & Hle & Hm4)%IH & [= <- <-]); [|by eapply moved_within|done].
    subst size. exists (line ++ data ++ CRLF ++ wire). split; [by rewrite Hs1, Hs2, Hs3, Hs4, <- !app_assoc|].
    split; [constructor; [done|lia|done]|]. rewrite !zlength_app. split; [lia|].
    pose proof (moved_trans _ _ _ _ _ _ _ Hm1 (moved_trans _ _ _ _ _ _ _ Hm2 (moved_trans _ _ _ _ _ _ _ Hm3 Hm4))) as Hm.
    by replace (zlength line + (zlength data + (zlength CRLF + zlength wire)) - (zlength data + zlength rest))
      with (zlength line + (0 + (zlength CRLF + (zlength wire - zlength rest)))) by lia.
Qed.

(** Each chunk takes at least its own bytes and five that frame it. *)
Lemma chunked_length wire body : chunked wire body -> zlength body + 5 <= zlength wire.
Proof.
  induction 1 as [line El|line data wire body El _ _ IH]; apply size_line_Some in El as (_ & ? & _); rewrite !zlength_app; change (zlength CRLF) with 2; [change (zlength (@nil Z)) with 0; lia|lia].
Qed.

Lemma chunk_loop_complete wire body turns maximum total r r' :
  chunked wire body -> zlength wire < Z.of_nat turns -> within r -> rd_stream r = wire ++ rd_stream r' -> total + zlength body <= maximum ->
  moved r r' (zlength wire) (zlength wire - zlength body) -> chunk_loop turns maximum total r = (Ok body, r').
Proof.
  intros Hw. revert turns total r. assert (forall s : bytes, 0 <= zlength s) as Hnn by apply zlength_nonneg. induction Hw as [line El|line data wire body El Hpos Hw IH]; intros turns total r Ht Hr Hs Hle Hm;
    destruct Hm as (Hm1 & Hm2 & Hr'); pose proof (size_line_Some _ _ El) as (Hline & Hlen & Hsize); rewrite !zlength_app in *;
    change (zlength CRLF) with 2 in *; (destruct turns as [|turns]; [try pose proof (Hnn wire); lia|]); cbn [chunk_loop]; apply budget_bind_Ok.
  - change (zlength (@nil Z)) with 0 in *. destruct Hr as [Hrw Hrf], Hr' as [Hrw' Hrf'].
    exists line, (mkReader (CRLF ++ rd_stream r') (rd_wire r + zlength line) (rd_framing r + zlength line)).
    split; [apply readline_Ok; [done|]; cbn [rd_stream]; split; [by rewrite Hs, <- app_assoc|]; split; [done|]; split; [unfold MAX_LINE_BYTES; lia|];
            unfold moved, within; cbn [rd_wire rd_framing]; lia|].
    rewrite El. cbn [Z.eqb]. apply budget_bind_Ok. exists CRLF, r'. split.
    + apply readline_Ok; [unfold within; cbn [rd_wire rd_framing]; lia|]. cbn [rd_stream]. split; [done|]. split; [apply CRLF_line|].
      split; [done|]. unfold moved, within. cbn [rd_wire rd_framing]. change (zlength CRLF) with 2. lia.
    + apply budget_bind_Ok. exists tt, r'. by split.
  - apply chunked_length in Hw as Hwl. destruct Hr as [Hrw Hrf], Hr' as [Hrw' Hrf'].
    pose proof (zlength_nonneg body) as Hb.
    set (w1 := rd_wire r + zlength line). set (f1 := rd_framing r + zlength line).
    exists line, (mkReader (data ++ CRLF ++ wire ++ rd_stream r') w1 f1).
    split; [apply readline_Ok; [done|]; cbn [rd_stream]; split; [by rewrite Hs, <- !app_assoc|]; split; [done|]; split; [unfold MAX_LINE_BYTES; lia|];
            unfold moved, within; cbn [rd_wire rd_framing]; lia|].
    rewrite El, (proj2 (Z.eqb_neq _ _)) by lia. apply budget_bind_Ok. exists tt. eexists. split; [apply framing_if_Ok; split; [by apply Z.ltb_ge; lia|done]|].
    apply budget_bind_Ok. exists data, (mkReader (CRLF ++ wire ++ rd_stream r') (w1 + zlength data) f1). split.
    { apply exact_read_Ok; [unfold within; cbn [rd_wire rd_framing]; lia|lia|]. cbn [rd_stream]. split; [done|]. split; [done|]. unfold moved, within. cbn [rd_wire rd_framing]. lia. }
    apply budget_bind_Ok. exists CRLF, (mkReader (wire ++ rd_stream r') (w1 + zlength data + 2) (f1 + 2)). split.
    { change 2 with (zlength CRLF) at 1. apply read_framing_Ok; [unfold within; cbn [rd_wire rd_framing]; lia|]. cbn [rd_stream]. split; [done|].
      unfold moved, within. cbn [rd_wire rd_framing]. change (zlength CRLF) with 2. lia. }
    apply budget_bind_Ok. exists tt. eexists. split; [by apply framing_if_Ok|]. apply budget_bind_Ok. exists body, r'. split; [|done].
    apply IH; cbn [rd_stream]; [lia|unfold within; cbn [rd_wire rd_framing]; lia|done|lia|].
    unfold moved, within. cbn [rd_wire rd_framing]. lia.
Qed.

(** C25: the decoder of chunked bodies returns a body exactly when the stream starts with a
    chunked encoding of it, strict in its lines and without extensions or trailers, that
    stays within the amount asked for and the two budgets; it has then taken that encoding
    and nothing more, and counted its bytes and, apart, those that are not the body's. *)
Theorem read_chunked_spec amt r body r' :
  within r -> 0 <= chunk_maximum amt ->
  read_chunked amt r = (Ok body, r') <->
  exists wire, rd_stream r = wire ++ rd_stream r' /\ chunked wire body /\ zlength body <= chunk_maximum amt /\
    moved r r' (zlength wire) (zlength wire - zlength body).
Proof.
  intros Hr Hm. unfold read_chunked. split.
  - intros (wire & H1 & H2 & H3 & H4)%chunk_loop_sound; [|done..]. by exists wire.
  - intros (wire & Hs & Hw & Hle & Hmv). eapply chunk_loop_complete; [done| |done..]. rewrite Hs, length_app. unfold zlength. lia.
Qed.

(** ** However it ends *)

(** The bytes taken of the stream are those counted; a result leaves the reader within its
    budgets, with at most [body] bytes that do not frame; a failure is the framing error,
    one byte beyond the budget at most. *)
Definition fair {A} (body : Z) (r : budgeted) (x : result A * budgeted) : Prop :=
  (exists taken, rd_stream r = taken ++ rd_stream x.2 /\ rd_wire x.2 = rd_wire r + zlength taken) /\
  match x.1 with
  | Ok _ => within x.2 /\ rd_wire x.2 - rd_framing x.2 <= body
  | Raise e => exn_class e = HTTPException /\ rd_wire x.2 <= MAX_WIRE_BYTES + 1
  end.

Lemma fair_bind {A B} (m : budget A) (f : A -> budget B) b b' r :
  fair b r (m r) ->
  (forall a r1, m r = (Ok a, r1) -> within r1 -> rd_wire r1 - rd_framing r1 <= b ->
    (length (rd_stream r1) <= length (rd_stream r))%nat -> fair b' r1 (f a r1)) -> fair b' r ((m ≫= f) r).
Proof.
  unfold mbind, budget_bind. destruct (m r) as [[a|e] r1] eqn:E; intros [(t & Ht & Hw) Hm] Hf; cbn [fst snd] in *.
  - destruct Hm as [Hwi Hb]. destruct (Hf a r1 eq_refl Hwi Hb ltac:(rewrite Ht, length_app; lia)) as [(t' & Ht' & Hw') Hx]. split; [|done].
    exists (t ++ t'). rewrite Ht, Ht', Hw', Hw, zlength_app, app_assoc. split; [done|lia].
  - split; [by exists t|done].
Qed.

(** A step that takes nothing. *)
Lemma fair_still {A} b r (x : result A) :
  within r -> rd_wire r - rd_framing r <= b -> match x with Ok _ => True | Raise e => exn_class e = HTTPException end -> fair b r (x, r).
Proof.
  intros [Hw Hf] Hb Hx. split; cbn [fst snd]; [exists []; change (zlength (@nil Z)) with 0; split; [done|lia]|].
  destruct x; [done|]. split; [done|lia].
Qed.

Lemma framing_if_fair c b r : within r -> rd_wire r - rd_framing r <= b -> fair b r (framing_if c r).
Proof. intros. apply fair_still; [done..|]. by destruct c. Qed.

Lemma mret_fair {A} (a : A) b r : within r -> rd_wire r - rd_framing r <= b -> fair b r (@mret budget _ A a r).
Proof. intros. by apply fair_still. Qed.

(** Bytes taken off the stream and accounted for. *)
Lemma account_fair n (framing : bool) r b :
  let data := take (Z.to_nat n) (rd_stream r) in
  within r -> rd_wire r + n <= MAX_WIRE_BYTES + 1 ->
  (rd_wire r + zlength data <= MAX_WIRE_BYTES -> rd_wire r - rd_framing r + (if framing then 0 else zlength data) <= b) ->
  fair b r ((data ← stream_read n; account data framing) r).
Proof.
  cbn zeta. intros [Hw Hf] Hn Hb. unfold mbind, budget_bind, stream_read, account. cbn [rd_stream rd_wire rd_framing].
  pose proof (zlength_nonneg (take (Z.to_nat n) (rd_stream r))) as H0.
  assert (zlength (take (Z.to_nat n) (rd_stream r)) <= Z.max 0 n) as H1 by (unfold zlength; rewrite length_take; lia).
  split; cbn [fst snd rd_stream rd_wire]; [eexists; split; [by rewrite take_drop|done]|].
  unfold raise_if, raise. destruct (_ || _) eqn:E; cbn [mbind result_bind].
  - split; [done|lia].
  - apply orb_false_iff in E. rewrite !Z.ltb_ge in E. unfold within. cbn [rd_wire rd_framing]. destruct framing; lia.
Qed.

Lemma reader_read_fair n b r : within r -> 0 <= n -> rd_wire r - rd_framing r + n <= b -> fair b r (reader_read n r).
Proof.
  intros Hr Hn Hb. unfold reader_read. rewrite (proj2 (Z.ltb_ge n 0)) by lia. apply account_fair; [done|lia|].
  unfold zlength. rewrite length_take. lia.
Qed.

Lemma budget_assoc {A B C} (m : budget A) (f : A -> budget B) (g : B -> budget C) r :
  (x ← m; y ← f x; g y) r = (y ← (x ← m; f x); g y) r.
Proof. unfold mbind, budget_bind. by destruct (m r) as [[?|?] ?]. Qed.

Lemma readline_fair b r : within r -> rd_wire r - rd_framing r <= b <= MAX_RESPONSE_BYTES -> fair b r (reader_readline (-1) r).
Proof.
  intros Hr Hb. unfold reader_readline. change (0 <=? -1) with false. cbv iota zeta. unfold stream_readline.
  change (?m ≫= ?f) with (mbind f m). rewrite (budget_assoc _ (fun data => account data true)).
  eapply (fair_bind _ _ b).
  - apply (account_fair _ true); [done|change MAX_WIRE_BYTES with (MAX_RESPONSE_BYTES + MAX_FRAMING_BYTES); lia|lia].
  - intros data r1 _ Hr1 Hb1 _. eapply fair_bind; [by apply (framing_if_fair _ b)|]. intros [] r2 _ Hr2 Hb2 _. by apply mret_fair.
Qed.

Lemma count_framing_fair n b r : within r -> 0 <= n -> rd_wire r - rd_framing r - n <= b -> fair b r (count_framing n r).
Proof.
  intros [Hw Hf] Hn Hb. unfold count_framing, framing_if, raise_if, raise. cbn [rd_framing].
  split; cbn [fst snd rd_stream rd_wire]; [exists []; change (zlength (@nil Z)) with 0; split; [done|lia]|].
  destruct (_ <? _) eqn:E; [split; [done|lia]|]. apply Z.ltb_ge in E. unfold within. cbn [rd_wire rd_framing]. lia.
Qed.

Lemma read_framing_fair n b r :
  within r -> 0 <= n -> rd_wire r - rd_framing r <= b -> fair b r (read_framing n r).
Proof.
  intros Hr Hn Hb. eapply (fair_bind _ _ (b + n)); [by apply reader_read_fair; [..|lia]|].
  intros data r1 (_ & _ & Hm1 & Hm2 & _)%reader_read_Ok Hr1 _ _; [|done..].
  eapply fair_bind; [apply (count_framing_fair _ b); [done|apply zlength_nonneg|lia]|]. intros [] r2 _ Hr2 Hb2 _. by apply mret_fair.
Qed.

Lemma exact_read_fair n b r : within r -> 0 <= n -> rd_wire r - rd_framing r + n <= b -> fair b r (exact_read n r).
Proof.
  intros Hr Hn Hb. eapply fair_bind; [by apply (reader_read_fair _ b)|].
  intros data r1 _ Hr1 Hb1 _. eapply fair_bind; [by apply (framing_if_fair _ b)|]. intros [] r2 _ Hr2 Hb2 _. by apply mret_fair.
Qed.

Lemma chunk_loop_fair turns maximum total r :
  within r -> rd_wire r - rd_framing r <= total -> total <= maximum <= MAX_RESPONSE_BYTES -> zlength (rd_stream r) < Z.of_nat turns ->
  fair maximum r (chunk_loop turns maximum total r).
Proof.
  revert total r. induction turns as [|turns IH]; intros total r Hr Hb Ht Hl; [pose proof (zlength_nonneg (rd_stream r)); lia|].
  cbn [chunk_loop]. eapply fair_bind; [apply (readline_fair total); [done|lia]|].
  intros line r1 (Hs & _)%readline_Ok Hr1 Hb1 _; [|done].
  destruct (size_line line) as [size|] eqn:El; [|apply fair_still; [done|lia|done]]. apply size_line_Some in El as (_ & Hlen & Hsize).
  apply (f_equal zlength) in Hs. rewrite zlength_app in Hs. destruct (Z.eqb_spec size 0) as [->|Hne].
  - eapply fair_bind; [apply (readline_fair maximum); [done|lia]|]. intros last r2 _ Hr2 Hb2 _.
    eapply fair_bind; [by apply framing_if_fair|]. intros [] r3 _ Hr3 Hb3 _. by apply mret_fair.
  - eapply (fair_bind _ _ total); [by apply framing_if_fair|]. intros [] r1' (E & _ & ->)%framing_if_Ok _ _ _. apply Z.ltb_ge in E.
    eapply fair_bind; [apply (exact_read_fair _ (total + size)); [done|lia|lia]|]. intros data r2 _ Hr2 Hb2 Hl2.
    eapply fair_bind; [apply (read_framing_fair _ (total + size)); [done|lia|lia]|]. intros close r3 _ Hr3 Hb3 Hl3.
    eapply fair_bind; [by apply framing_if_fair|]. intros [] r4 (_ & _ & ->)%framing_if_Ok _ _ _.
    eapply fair_bind; [apply IH; [done|lia|lia|unfold zlength in *; lia]|]. intros rest r5 _ Hr5 Hb5 _. by apply mret_fair.
Qed.

(** C26: whatever the server sends, the decoder ends, and every byte it took is counted: with
    a body, within the budgets, or with the framing error, one byte beyond the budget of all
    bytes at most. *)
Theorem read_chunked_ends amt r :
  within r -> rd_wire r = rd_framing r -> 0 <= chunk_maximum amt ->
  exists taken, let (x, r') := read_chunked amt r in
  rd_stream r = taken ++ rd_stream r' /\ rd_wire r' = rd_wire r + zlength taken /\
  match x with
  | Ok body => within r' /\ zlength body <= MAX_RESPONSE_BYTES
  | Raise e => exn_class e = HTTPException /\ rd_wire r' <= MAX_WIRE_BYTES + 1
  end.
Proof.
  intros Hr He Hm. assert (chunk_maximum amt <= MAX_RESPONSE_BYTES) as Hle by (destruct amt; cbn; lia).
  pose proof (chunk_loop_fair (S (length (rd_stream r))) (chunk_maximum amt) 0 r Hr ltac:(lia) ltac:(lia) ltac:(unfold zlength; lia)) as [(t & Ht & Hw) Hx].
  exists t. unfold read_chunked in *. destruct (chunk_loop _ _ _ r) as [[body|e] r'] eqn:E; cbn [fst snd] in *; [|done].
  apply chunk_loop_sound in E as (_ & _ & _ & Hb & _); [|done..]. split; [done|]. split; [done|]. split; [tauto|lia].
Qed.

(** ** Concrete streams *)

(** A body in two chunks after headers of forty bytes, and what follows it. *)
Definition demo_wire : bytes := u "3" ++ CRLF ++ u "abc" ++ CRLF ++ u "0A" ++ CRLF ++ u "0123456789" ++ CRLF ++ u "0" ++ CRLF ++ CRLF.
Definition demo_reader : budgeted := mkReader (demo_wire ++ u "next") 40 40.

Lemma demo_within : within demo_reader.
Proof. unfold within, MAX_WIRE_BYTES, MAX_RESPONSE_BYTES, MAX_FRAMING_BYTES. cbn. lia. Qed.

Lemma read_chunked_spec_witness :
  exists wire, rd_stream demo_reader = wire ++ u "next" /\ chunked wire (u "abc0123456789") /\
    rd_wire (snd (read_chunked None demo_reader)) = 40 + zlength wire.
Proof.
  destruct (proj1 (read_chunked_spec None demo_reader (u "abc0123456789") (snd (read_chunked None demo_reader)) demo_within ltac:(by vm_compute)))
    as (wire & Hs & Hw & _ & Hm & _); [vm_compute; reflexivity|].
  exists wire. split; [exact Hs|]. split; [exact Hw|exact Hm].
Defined.

(** A chunk that the stream cuts short. *)
Definition cut_reader : budgeted := mkReader (u "FF" ++ CRLF ++ u "abc") 40 40.

Lemma read_chunked_ends_witness :
  fst (read_chunked None cut_reader) = raise HTTPException "framing" /\ rd_wire (snd (read_chunked None cut_reader)) <= MAX_WIRE_BYTES + 1.
Proof.
  split; [vm_compute; reflexivity|].
  destruct (read_chunked_ends None cut_reader) as (taken & Ht); [exact demo_within|reflexivity|by vm_compute|].
  destruct (read_chunked None cut_reader) as [[body|e] r'] eqn:E; [vm_compute in E; discriminate|]. apply Ht.
Defined.
