(* ===== verification/Compatibility.v ===== *)
(** * The compatibility probe: [tools/mezo_compatibility.py]

    A read-only check of the fixed boundary the project builds on.  Its lock file, the
    judgement on what the remote ends answer, its requests and its publication are one
    program over calls; the reader of response bodies is [ChunkedReader].  Proved here:
    what the judgement accepts. *)

From S2P Require Import Prelude PyStr Num PyObj Json JsonRoundtrip Bytes JsonBytes EvidenceIo Documents MezoDex Report Programs ChunkedReader.
Open Scope Z_scope.

Definition INFO_URL : pystr := u "https://api.hyperliquid.xyz/info".
Definition RPC_URL : pystr := u "https://rpc.test.mezo.org".
Definition FACILITATOR_URL : pystr := u "https://facilitator.vativ.io".
Definition MUSD_ADDRESS : pystr := u "0x118917a40FAF1CD7a13dB0Ef56C86De7973Ac503".
Definition PACKAGES : list pystr := map u ["@x402/core"; "@x402/evm"; "@x402/express"; "@x402/paywall"]%string.
Definition SDK_VERSION : pystr := u "2.16.0".
Definition REGISTRY_METADATA : list (pystr * pystr) :=
  [(u "@x402/core", u "https://registry.npmjs.org/%40x402%2Fcore/2.16.0");
   (u "@x402/evm", u "https://registry.npmjs.org/%40x402%2Fevm/2.16.0");
   (u "@x402/express", u "https://registry.npmjs.org/%40x402%2Fexpress/2.16.0");
   (u "@x402/paywall", u "https://registry.npmjs.org/%40x402%2Fpaywall/2.16.0")].
Definition REQUEST_TIMEOUT_SECONDS : Z := 12.

(** [_require] *)
Definition approve (condition : bool) (reason : string) : result unit := raise_if (negb condition) CompatibilityError reason.

(** ** The lock *)

Definition str_field (k v : string) : pystr * json := (u k, JStr (u v)).

(** [expected] *)
Definition boundary : list (pystr * json) :=
  [str_field "schema" "liqvera-mezo-compatibility/v1";
   (u "hyperliquid", JDict [(u "info_url", JStr INFO_URL); str_field "coin" "BTC"; (u "maximum_levels_per_side", JInt 20)]);
   (u "mezo", JDict
     [str_field "network" "eip155:31611"; (u "chain_id", JInt 31611); (u "rpc_url", JStr RPC_URL);
      (u "musd_address", JStr MUSD_ADDRESS); (u "musd_decimals", JInt 18); (u "facilitator_url", JStr FACILITATOR_URL)]);
   (u "x402", JDict
     [(u "version", JInt 2); str_field "scheme" "exact"; (u "typescript_version", JStr SDK_VERSION);
      (u "packages", JList (map JStr PACKAGES))])].

(** [json.dumps(x, sort_keys=True)] *)
Definition sorted_style : json_style := mkStyle (u ", ") (u ": ") true true.
Definition sorted_dumps (x : json) : result pystr := json_dumps_with sorted_style x.

(** [{key: lock[key] for key in expected}] *)
Definition pinned (lock : list (pystr * json)) : result (list (pystr * json)) :=
  mapR (fun kv => v ← json_item (fst kv) lock; Ok (fst kv, v)) boundary.

Definition validate_boundary (lock : json) : result unit :=
  d ← match lock with JDict d => Ok d | _ => raise CompatibilityError "COMPATIBILITY_LOCK_INVALID" end;
  approve (keys_equal d (map fst boundary ++ [u "payment_readiness"])) "COMPATIBILITY_LOCK_INVALID" ;;
  actual ← try_except (p ← pinned d; sorted_dumps (JDict p)) [TypeError; ValueError]
             (fun _ => raise CompatibilityError "COMPATIBILITY_LOCK_INVALID");
  expected ← sorted_dumps (JDict boundary);
  approve (str_eqb actual expected) "COMPATIBILITY_LOCK_INVALID".

(** [x is True] *)
Definition is_true (x : json) : bool := match x with JBool true => true | _ => false end.

(** [lock.get(key)] of the lock, a dictionary by now. *)
Definition lock_get (key : string) (lock : json) : json := match lock with JDict d => json_get (u key) d | _ => JNull end.

Definition validate_payment_policy (lock : json) : result unit :=
  policy ← match lock_get "payment_readiness" lock with JDict d => Ok d | _ => raise CompatibilityError "PAY_TO_POLICY_UNSAFE" end;
  approve
    (keys_equal policy (map u ["pay_to_required"; "pay_to_source"; "default_pay_to_forbidden"; "finality_policy_status"]%string) &&
     is_true (json_get (u "pay_to_required") policy) &&
     json_is (json_get (u "pay_to_source") policy) (u "operator_environment") &&
     is_true (json_get (u "default_pay_to_forbidden") policy)) "PAY_TO_POLICY_UNSAFE" ;;
  approve (json_is (json_get (u "finality_policy_status") policy) (u "UNVERIFIED")) "FINALITY_POLICY_UNSUPPORTED".

Definition validate_lock (lock : json) : result unit :=
  validate_boundary lock ;; validate_payment_policy lock.

(** ** The judgement *)

Section probe.
Context `{UnicodeLower}.

(** [x is an int, and no bool, equal to n] *)
Definition int_is (x : json) (n : Z) : bool := match x with JInt z => z =? n | _ => false end.

(** [re.fullmatch(r"0x[0-9a-fA-F]{1,64}", value)] and its number. *)
Definition hex_equals (value : json) (expected : Z) : bool :=
  match value with
  | JStr s => is_hex s && (length s <=? 66)%nat && (hex_value (drop 2 s) =? expected)
  | _ => false
  end.

(** [isinstance(x, dict)] and what follows of its members; likewise of a list. *)
Definition of_dict (x : json) (f : list (pystr * json) -> bool) : bool := match x with JDict d => f d | _ => false end.
Definition of_list (x : json) (f : list json -> bool) : bool := match x with JList l => f l | _ => false end.
Definition of_text (x : json) (f : pystr -> bool) : bool := match x with JStr s => f s | _ => false end.

Definition is_musd (asset : json) : bool :=
  of_dict asset (fun d =>
    of_text (json_get (u "address") d) (fun s => str_eqb (str_lower s) (str_lower MUSD_ADDRESS)) &&
    int_is (json_get (u "decimals") d) 18).

Definition supports_kind (kind : json) : bool :=
  of_dict kind (fun d =>
    int_is (json_get (u "x402Version") d) 2 && json_is (json_get (u "scheme") d) (u "exact") &&
    json_is (json_get (u "network") d) (u "eip155:31611") &&
    of_dict (json_get (u "extra") d) (fun extra => of_list (json_get (u "assets") extra) (existsb is_musd))).

Definition supports_musd (value : json) : bool :=
  of_dict value (fun d => of_list (json_get (u "kinds") d) (existsb supports_kind)).

(** [re.fullmatch(r"[0-9]+(?:\.[0-9]+)?", value)] *)
Definition plain_number (s : pystr) : bool :=
  let decimal (t : pystr) := negb (str_eqb t []) && ascii_digits t in
  match span_ascii s with
  | (whole, []) => decimal whole
  | (whole, 46 :: fraction) => decimal whole && decimal fraction
  | _ => false
  end.

Definition valid_level (level : json) : bool :=
  of_dict level (fun d =>
    match json_get (u "n") d with JInt n => 0 <? n | _ => false end &&
    forallb (fun field => of_text (json_get field d) (fun value => plain_number value && existsb (fun c => (49 <=? c) && (c <=? 57)) value))
      (map u ["px"; "sz"]%string)).

(** [re.fullmatch(r"0x(?:[0-9a-fA-F]{2})+", code)], and some character but [0]. *)
Definition contract_code (code : json) : bool :=
  of_text code (fun s => is_hex s && Nat.even (length s) && existsb (fun c => negb (c =? 48)) (drop 2 s)).

Definition lists_btc (meta : json) : bool :=
  of_dict meta (fun d => of_list (json_get (u "universe") d)
    (existsb (fun item => of_dict item (fun i => json_is (json_get (u "name") i) (u "BTC"))))).

Definition summary (bids asks : Z) : json := JDict
  [str_field "schema" "liqvera-mezo-compatibility-result/v1"; str_field "status" "COMPATIBILITY_PASS_PAYMENT_BLOCKED";
   str_field "network" "eip155:31611"; (u "chain_id", JInt 31611); (u "musd_address", JStr MUSD_ADDRESS); (u "musd_decimals", JInt 18);
   (u "x402_version", JInt 2); str_field "scheme" "exact"; (u "sdk_version", JStr SDK_VERSION); str_field "coin" "BTC";
   (u "bid_levels", JInt bids); (u "ask_levels", JInt asks); str_field "payment_readiness" "BLOCKED";
   (u "payment_blockers", JList (map JStr [u "PAY_TO_MISSING"; u "FINALITY_RULE_UNVERIFIED"]))].

(** The two sides of a book. *)
Definition book_sides (book : json) : result (list json * list json) :=
  approve (of_dict book (fun d => json_is (json_get (u "coin") d) (u "BTC"))) "HYPERLIQUID_BOOK_INVALID" ;;
  match lock_get "levels" book with
  | JList [JList (b :: bids); JList (a :: asks)] => Ok (b :: bids, a :: asks)
  | _ => raise CompatibilityError "HYPERLIQUID_BOOK_INVALID"
  end.

Definition verify_observations (lock observations : json) : result json :=
  validate_boundary lock ;;
  o ← match observations with JDict d => Ok d | _ => raise CompatibilityError "OBSERVATIONS_INVALID" end;
  let get k := json_get (u k) o in
  approve (hex_equals (get "chain_id"%string) 31611) "MEZO_CHAIN_ID_MISMATCH" ;;
  approve (contract_code (get "token_code"%string)) "MUSD_CODE_MISSING" ;;
  approve (hex_equals (get "token_decimals"%string) 18) "MUSD_DECIMALS_MISMATCH" ;;
  approve (supports_musd (get "facilitator"%string)) "FACILITATOR_SUPPORT_MISSING" ;;
  approve (lists_btc (get "meta"%string)) "HYPERLIQUID_BTC_MISSING" ;;
  '(bids, asks) ← book_sides (get "book"%string);
  approve ((zlength bids <=? 20) && (zlength asks <=? 20)) "HYPERLIQUID_DEPTH_LIMIT_EXCEEDED" ;;
  approve (forallb valid_level (bids ++ asks)) "HYPERLIQUID_BOOK_INVALID" ;;
  approve (of_dict (get "npm_versions"%string) (fun v => forallb (fun name => json_is (json_get name v) SDK_VERSION) PACKAGES)) "X402_SDK_VERSION_MISSING" ;;
  validate_payment_policy lock ;;
  Ok (summary (zlength bids) (zlength asks)).

(** ** Requests *)

(** A response: the values of three headers, as received, whether its status has no
    content, and the reader of what follows the headers. *)
Record response := mkProbeResponse
  { rs_lengths : list pystr; rs_encodings : list pystr; rs_transfers : list pystr; rs_no_content : bool; rs_reader : budgeted }.

(** A request is answered, redirected, or cut by the alarm. *)
Inductive opened := Opened (r : response) | Redirected | Expired.

(** The calls of the probe.  [Receive] tells whether the body arrives before the alarm. *)
Inductive probe_call : Type -> Type :=
  | ReadLock (path : pystr) : probe_call pystr
  | MayArm : probe_call bool
  | AlarmIdle : probe_call bool
  | Monotonic : probe_call Z
  | SetHandler : probe_call unit
  | SetTimer (remaining : Z) : probe_call unit
  | RestoreHandler : probe_call unit
  | OpenUrl (url : pystr) (data : option bytes) : probe_call opened
  | Receive : probe_call bool
  | CloseResponse : probe_call unit
  | WriteStdout (text : pystr) : probe_call unit
  | WriteStderr (text : pystr) : probe_call unit
  | MakeParent (path : pystr) : probe_call unit
  | MakeTemp (path : pystr) : probe_call unit
  | WriteTemp (text : pystr) : probe_call unit
  | FlushTemp : probe_call unit
  | SyncTemp : probe_call unit
  | CloseTemp : probe_call unit
  | ReplaceOutput (path : pystr) : probe_call unit
  | UnlinkTemp : probe_call unit.

Abbreviation program := (prog probe_call).

Definition demand (condition : bool) (reason : string) : program unit := lift (approve condition reason).

(** [_request_deadline]: time is in nanoseconds. *)
Definition request_deadline {A} (reason : string) (body : program A) : program A :=
  armed ← do MayArm;
  demand armed reason ;;
  idle ← do AlarmIdle;
  demand idle reason ;;
  start ← do Monotonic;
  let deadline := start + REQUEST_TIMEOUT_SECONDS * 1000000000 in
  prog_finally
    (do SetHandler ;;
     now ← do Monotonic;
     demand (0 <? deadline - now) reason ;;
     do (SetTimer (deadline - now)) ;;
     x ← body;
     now ← do Monotonic;
     demand (now <=? deadline) reason ;;
     mret x)
    (do (SetTimer 0) ;; do RestoreHandler).

(** The headers, and the length they declare. *)
Definition declared_length (r : response) (reason : string) : result (option Z) :=
  let single (values : list pystr) (value : string) := match values with [] => true | [v] => str_eqb (str_lower v) (u value) | _ => false end in
  approve (single (rs_encodings r) "identity") reason ;;
  approve (single (rs_transfers r) "chunked") reason ;;
  approve (bool_decide (rs_lengths r = []) || bool_decide (rs_transfers r = [])) reason ;;
  match rs_lengths r with
  | [] => Ok None
  | lengths =>
    length ← match lengths with [length] => Ok length | _ => raise CompatibilityError reason end;
    approve ((1 <=? zlength length) && (zlength length <=? 10) && ascii_digits length) reason ;;
    n ← py_int 10 length;
    approve (n <=? MAX_RESPONSE_BYTES) reason ;;
    Ok (Some n)
  end.

(** [response.read(amt)] of [http.client], once the headers are accepted. *)
Definition response_read (amt : Z) (r : response) (length : option Z) : budget bytes :=
  if negb (bool_decide (rs_transfers r = [])) then read_chunked (Some amt)
  else reader_read (if rs_no_content r then 0 else match length with Some n => Z.min amt n | None => amt end).

(** The body of a response that arrives entirely. *)
Definition response_body (r : response) (expected : option Z) (reason : string) : result bytes :=
  body ← fst (response_read (MAX_RESPONSE_BYTES + 1) r expected (rs_reader r));
  approve match expected with Some n => zlength body =? n | None => true end reason ;;
  Ok body.

(** What the exceptions of a request become. *)
Definition unavailable {A} (reason : string) (e : exn) : program A :=
  if exc_subclass (exn_class e) CompatibilityError then Done (Raise e) else lift (raise CompatibilityError reason).

Definition request_json (url : pystr) (payload : option json) (reason : string) : program json :=
  data ← lift match payload with None => Ok None | Some p => text ← json_dumps_with default_style p; Ok (Some text) end;
  prog_except
    (body ← request_deadline reason
       (answer ← do (OpenUrl url data);
        match answer with
        | Redirected => lift (raise CompatibilityError "HTTP_REDIRECT_BLOCKED")
        | Expired => lift (raise CompatibilityError reason)
        | Opened r =>
          prog_finally
            (expected ← lift (declared_length r reason);
             arrived ← do Receive;
             demand arrived reason ;;
             lift (response_body r expected reason))
            (do CloseResponse)
        end);
     demand (zlength body <=? MAX_RESPONSE_BYTES) reason ;;
     lift (json_loads_bytes default_hooks body))
    [OSError; HTTPException; ValueError; RecursionError] (unavailable reason).

(** The part of a response to a call that is its result. *)
Definition rpc_result (response : json) : result json :=
  match response with
  | JDict d =>
    approve (json_is (json_get (u "jsonrpc") d) (u "2.0") && int_is (json_get (u "id") d) 1 &&
             isSome (assoc (u "result") d) && negb (isSome (assoc (u "error") d))) "MEZO_RPC_RESPONSE_INVALID" ;;
    json_item (u "result") d
  | _ => raise CompatibilityError "MEZO_RPC_RESPONSE_INVALID"
  end.

Definition rpc_payload (method : string) (params : list json) : json := JDict
  [str_field "jsonrpc" "2.0"; (u "id", JInt 1); str_field "method" method; (u "params", JList params)].

Definition rpc (method : string) (params : list json) : program json :=
  response ← request_json RPC_URL (Some (rpc_payload method params)) "MEZO_RPC_UNAVAILABLE";
  lift (rpc_result response).

Definition registry_version (package : pystr) (response : json) : result (pystr * json) :=
  approve (of_dict response (fun d => json_is (json_get (u "name") d) package && json_is (json_get (u "version") d) SDK_VERSION))
    "X402_SDK_VERSION_MISSING" ;;
  Ok (package, JStr SDK_VERSION).

Definition registry_versions : program json :=
  versions ← prog_map (fun '(package, url) =>
    response ← request_json url None "X402_REGISTRY_UNAVAILABLE";
    lift (registry_version package response)) REGISTRY_METADATA;
  mret (JDict versions).

Definition collect_observations : program json :=
  chain_id ← rpc "eth_chainId" [];
  token_code ← rpc "eth_getCode" [JStr MUSD_ADDRESS; JStr (u "latest")];
  token_decimals ← rpc "eth_call" [JDict [(u "to", JStr MUSD_ADDRESS); str_field "data" "0x313ce567"]; JStr (u "latest")];
  facilitator ← request_json (FACILITATOR_URL ++ u "/supported") None "FACILITATOR_UNAVAILABLE";
  meta ← request_json INFO_URL (Some (JDict [str_field "type" "meta"])) "HYPERLIQUID_UNAVAILABLE";
  book ← request_json INFO_URL (Some (JDict [str_field "type" "l2Book"; str_field "coin" "BTC"])) "HYPERLIQUID_UNAVAILABLE";
  npm_versions ← registry_versions;
  mret (JDict [(u "chain_id", chain_id); (u "token_code", token_code); (u "token_decimals", token_decimals);
               (u "facilitator", facilitator); (u "meta", meta); (u "book", book); (u "npm_versions", npm_versions)]).

(** ** Publication *)

Definition output_error {A} (p : program A) : program A :=
  prog_except p [OSError] (fun _ => lift (raise CompatibilityError "COMPATIBILITY_OUTPUT_UNAVAILABLE")).

Definition write_result (path content : pystr) : program unit :=
  output_error (do (MakeParent path) ;; do (MakeTemp path)) ;;
  prog_finally
    (output_error
       (prog_finally (do (WriteTemp content) ;; do FlushTemp ;; do SyncTemp) (do CloseTemp) ;;
        do (ReplaceOutput path)))
    (do UnlinkTemp).

(** [args] is what the parser makes of the arguments: nothing, when it rejects them. *)
Definition probe (args : option (pystr * option pystr)) : program unit :=
  '(path, output) ← lift match args with Some a => Ok a | None => raise CompatibilityError "CLI_ARGUMENTS_INVALID" end;
  lock ← prog_except (text ← do (ReadLock path); lift (json_loads text)) [OSError; ValueError]
           (fun _ => lift (raise CompatibilityError "COMPATIBILITY_LOCK_INVALID"));
  lift (validate_lock lock) ;;
  observations ← collect_observations;
  result ← lift (verify_observations lock observations);
  content ← lift (canonical_json_bytes result);
  match output with None => do (WriteStdout content) | Some path => write_result path content end.

Definition compat_main (args : option (pystr * option pystr)) : program Z :=
  prog_then (probe args) (fun r =>
    match r with
    | Ok _ => mret 0
    | Raise e =>
      if exc_subclass (exn_class e) CompatibilityError then do (WriteStderr (u (exn_msg e) ++ [10])) ;; mret 1
      else Done (Raise e)
    end).

(** ** What the judgement accepts *)

Definition has (d : list (pystr * json)) (k : string) (v : json) : Prop := assoc (u k) d = Some v.

Definition hex_char (c : Z) : Prop := any_hex c = true.

(** [0x...], a number of at most 64 digits. *)
Definition hex_number (x : json) (n : Z) : Prop :=
  exists s, x = JStr (u "0x" ++ s) /\ 1 <= zlength s <= 64 /\ Forall hex_char s /\ hex_value s = n.

(** Whole bytes of code, not all zero. *)
Definition deployed (x : json) : Prop :=
  exists s, x = JStr (u "0x" ++ s) /\ s <> [] /\ Nat.even (length s) = true /\ Forall hex_char s /\ Exists (fun c => c <> 48) s.

(** The facilitator takes the token in the exact scheme of the network. *)
Definition musd_supported (x : json) : Prop :=
  exists d kinds kind extra assets asset address,
    x = JDict d /\ has d "kinds" (JList kinds) /\ JDict kind ∈ kinds /\
    has kind "x402Version" (JInt 2) /\ has kind "scheme" (JStr (u "exact")) /\ has kind "network" (JStr (u "eip155:31611")) /\
    has kind "extra" (JDict extra) /\ has extra "assets" (JList assets) /\ JDict asset ∈ assets /\
    has asset "address" (JStr address) /\ str_lower address = str_lower MUSD_ADDRESS /\ has asset "decimals" (JInt 18).

(** A text of digits, with or without a fraction, that is more than zero. *)
Definition positive_number (s : pystr) : Prop :=
  exists whole fraction, s = whole ++ (match fraction with [] => [] | _ => 46 :: fraction end) /\
    whole <> [] /\ PyStr.ascii_digits (whole ++ fraction) /\ 0 < ascii_value (whole ++ fraction).

Definition level_sound (x : json) : Prop :=
  exists d n px sz, x = JDict d /\ has d "n" (JInt n) /\ 0 < n /\
    has d "px" (JStr px) /\ positive_number px /\ has d "sz" (JStr sz) /\ positive_number sz.

Definition btc_listed (x : json) : Prop :=
  exists d items item, x = JDict d /\ has d "universe" (JList items) /\ JDict item ∈ items /\ has item "name" (JStr (u "BTC")).

Definition book_sound (x : json) (bids asks : Z) : Prop :=
  exists d bs as_, x = JDict d /\ has d "coin" (JStr (u "BTC")) /\ has d "levels" (JList [JList bs; JList as_]) /\
    bids = zlength bs /\ asks = zlength as_ /\ 1 <= bids <= 20 /\ 1 <= asks <= 20 /\ Forall level_sound (bs ++ as_).

Definition versions_pinned (x : json) : Prop :=
  exists d, x = JDict d /\ Forall (fun name => assoc name d = Some (JStr SDK_VERSION)) PACKAGES.

Record compatible (o : list (pystr * json)) (bids asks : Z) : Prop := {
  chain_id_ok : hex_number (json_get (u "chain_id") o) 31611;
  token_code_ok : deployed (json_get (u "token_code") o);
  token_decimals_ok : hex_number (json_get (u "token_decimals") o) 18;
  facilitator_ok : musd_supported (json_get (u "facilitator") o);
  meta_ok : btc_listed (json_get (u "meta") o);
  book_ok : book_sound (json_get (u "book") o) bids asks;
  versions_ok : versions_pinned (json_get (u "npm_versions") o) }.

Lemma of_dict_true x f : of_dict x f = true <-> exists d, x = JDict d /\ f d = true.
Proof. destruct x; cbn; split; try done; try (by intros (? & [=] & _)); [intros Hf; by eexists|by intros (? & [= <-] & ?)]. Qed.
Lemma of_list_true x f : of_list x f = true <-> exists l, x = JList l /\ f l = true.
Proof. destruct x; cbn; split; try done; try (by intros (? & [=] & _)); [intros Hf; by eexists|by intros (? & [= <-] & ?)]. Qed.
Lemma of_text_true x f : of_text x f = true <-> exists s, x = JStr s /\ f s = true.
Proof. destruct x; cbn; split; try done; try (by intros (? & [=] & _)); [intros Hf; by eexists|by intros (? & [= <-] & ?)]. Qed.

Lemma int_is_true x n : int_is x n = true <-> x = JInt n.
Proof. destruct x; cbn; split; try done; [by intros ->%Z.eqb_eq|intros [= ->]; apply Z.eqb_refl]. Qed.

Lemma existsb_elem {A} (f : A -> bool) l : existsb f l = true <-> exists x, x ∈ l /\ f x = true.
Proof. rewrite existsb_exists. by setoid_rewrite list_elem_of_In. Qed.

Lemma get_assoc d k v : v <> JNull -> json_get k d = v <-> assoc k d = Some v.
Proof. unfold json_get. intros Hv. destruct (assoc k d); split; congruence. Qed.
Lemma get_has d k v : v <> JNull -> json_get (u k) d = v <-> has d k v.
Proof. apply get_assoc. Qed.

Lemma hex_text_split s : is_hex s = true <-> exists t, s = u "0x" ++ t /\ t <> [] /\ Forall hex_char t.
Proof.
  unfold is_hex, hex_text. split.
  - intros Hs. repeat (case_match; try done); subst. apply andb_true_iff in Hs as [H1 H2].
    eexists (_ :: _). split; [reflexivity|]. split; [done|]. constructor; [done|]. rewrite forallb_forall in H2. apply Forall_forall. intros c Hc. by apply H2, list_elem_of_In.
  - intros (t & -> & Ht & Hf). destruct t as [|c t]; [done|]. change (u "0x") with [48; 120]. cbn [app].
    apply Forall_cons in Hf as [Hc Hf]. rewrite Hc. apply forallb_forall. intros x Hx%list_elem_of_In. by eapply Forall_forall in Hf.
Qed.

Lemma hex_equals_spec x n : hex_equals x n = true <-> hex_number x n.
Proof.
  unfold hex_equals, hex_number. split.
  - destruct x as [| | | |s| |]; try done. rewrite !andb_true_iff, Nat.leb_le, Z.eqb_eq. intros [[(t & -> & Ht & Hf)%hex_text_split Hl] Hv].
    rewrite length_app in Hl. change (length (u "0x")) with 2%nat in Hl. exists t. split; [done|]. split; [|done].
    unfold zlength. destruct t; [done|]. cbn [length] in *. lia.
  - intros (s & -> & Hl & Hf & Hv). unfold zlength in Hl. rewrite !andb_true_iff, Nat.leb_le, Z.eqb_eq, length_app.
    change (length (u "0x")) with 2%nat. split; [|done]. split; [|lia]. apply hex_text_split. exists s. split; [done|]. split; [|done]. intros ->. cbn in Hl. lia.
Qed.

Lemma contract_code_spec x : contract_code x = true <-> deployed x.
Proof.
  unfold contract_code, deployed. rewrite of_text_true. split.
  - intros (s & -> & Hs). rewrite !andb_true_iff in Hs. destruct Hs as [[(t & -> & Ht & Hf)%hex_text_split He] Hn].
    exists t. split; [done|]. split; [done|]. split; [by rewrite length_app in He|]. split; [done|].
    apply Exists_exists. apply existsb_elem in Hn as (c & Hc & Hc'). exists c. split; [done|]. by apply negb_true_iff, Z.eqb_neq in Hc'.
  - intros (s & -> & Ht & He & Hf & (c & Hc & Hn)%Exists_exists). eexists. split; [done|]. rewrite !andb_true_iff. split; [split|].
    + apply hex_text_split. by exists s.
    + by rewrite length_app.
    + apply existsb_elem. exists c. split; [done|]. by apply negb_true_iff, Z.eqb_neq.
Qed.

(** A field that is there. *)
Lemma dict_is d k s : json_is (json_get (u k) d) s = true <-> has d k (JStr s).
Proof. by rewrite json_is_Ok, get_has. Qed.
Lemma dict_int d k n : int_is (json_get (u k) d) n = true <-> has d k (JInt n).
Proof. by rewrite int_is_true, get_has. Qed.
Lemma dict_dict d k f : of_dict (json_get (u k) d) f = true <-> exists x, has d k (JDict x) /\ f x = true.
Proof. rewrite of_dict_true. split; intros (x & Hx & Hf); exists x; by apply get_has in Hx || (split; [by apply get_has|done]). Qed.
Lemma dict_list d k f : of_list (json_get (u k) d) f = true <-> exists x, has d k (JList x) /\ f x = true.
Proof. rewrite of_list_true. split; intros (x & Hx & Hf); exists x; by apply get_has in Hx || (split; [by apply get_has|done]). Qed.
Lemma dict_text d k f : of_text (json_get (u k) d) f = true <-> exists x, has d k (JStr x) /\ f x = true.
Proof. rewrite of_text_true. split; intros (x & Hx & Hf); exists x; by apply get_has in Hx || (split; [by apply get_has|done]). Qed.

Lemma supports_musd_spec x : supports_musd x = true <-> musd_supported x.
Proof.
  unfold supports_musd, musd_supported. rewrite of_dict_true. split.
  - intros (d & -> & (kinds & Hk & (kind & Hin & (e & -> & Hs)%of_dict_true)%existsb_elem)%dict_list).
    rewrite !andb_true_iff, dict_int, !dict_is, dict_dict in Hs. destruct Hs as [[[H1 H2] H3] (extra & Hx & (assets & Ha & Hs)%dict_list)].
    apply existsb_elem in Hs as (asset & Hin' & (a & -> & Hs)%of_dict_true). rewrite andb_true_iff, dict_int, dict_text in Hs.
    destruct Hs as [(address & H4 & H5%str_eqb_spec) H6]. by exists d, kinds, e, extra, assets, a, address.
  - intros (d & kinds & kind & extra & assets & asset & address & -> & Hk & Hin & H1 & H2 & H3 & Hx & Ha & Hin' & H4 & H5 & H6).
    exists d. split; [done|]. apply dict_list. exists kinds. split; [done|]. apply existsb_elem. exists (JDict kind). split; [done|].
    cbn [supports_kind of_dict]. rewrite !andb_true_iff, dict_int, !dict_is, dict_dict. split; [done|]. exists extra. split; [done|].
    apply dict_list. exists assets. split; [done|]. apply existsb_elem. exists (JDict asset). split; [done|].
    cbn [is_musd of_dict]. rewrite andb_true_iff, dict_int, dict_text. split; [|done]. exists address. by rewrite str_eqb_spec.
Qed.

Lemma lists_btc_spec x : lists_btc x = true <-> btc_listed x.
Proof.
  unfold lists_btc, btc_listed. rewrite of_dict_true. split.
  - intros (d & -> & (items & Hi & (item & Hin & (i & -> & Hn%dict_is)%of_dict_true)%existsb_elem)%dict_list). by exists d, items, i.
  - intros (d & items & item & -> & Hi & Hin & Hn). exists d. split; [done|]. apply dict_list. exists items. split; [done|].
    apply existsb_elem. exists (JDict item). split; [done|]. by apply dict_is.
Qed.

Lemma ascii_digits_spec s : ascii_digits s = true <-> PyStr.ascii_digits s.
Proof.
  unfold ascii_digits, PyStr.ascii_digits. rewrite forallb_forall, Forall_forall. setoid_rewrite list_elem_of_In.
  setoid_rewrite andb_true_iff. setoid_rewrite Z.leb_le. done.
Qed.

Lemma span_ascii_spec s w r : span_ascii s = (w, r) -> s = w ++ r /\ PyStr.ascii_digits w.
Proof.
  revert w r. induction s as [|c s IH]; intros w r; cbn; [intros [= <- <-]; split; [done|constructor]|].
  destruct (_ && _) eqn:E; [|intros [= <- <-]; split; [done|constructor]]. destruct (span_ascii s) as [w' r'] eqn:Es. intros [= <- <-].
  destruct (IH _ _ eq_refl) as [-> Hw]. split; [done|]. constructor; [|done]. apply andb_true_iff in E. lia.
Qed.

(** A number is positive when some digit is. *)
Lemma ascii_value_pos s : PyStr.ascii_digits s -> 0 < ascii_value s <-> existsb (fun c => (49 <=? c) && (c <=? 57)) s = true.
Proof.
  unfold ascii_value. induction 1 as [|c s Hc Hs IH]; [done|]. cbn [map existsb]. rewrite of_digits_cons by lia.
  pose proof (of_digits_bound 10 ltac:(lia) (map (fun c => c - 48) s)) as Hb.
  destruct Hb as [Hb _]; [apply Forall_map; eapply Forall_impl; [exact Hs|]; cbn; lia|].
  rewrite orb_true_iff, <- IH, andb_true_iff, !Z.leb_le. pose proof (Z.pow_pos_nonneg 10 (Z.of_nat (length (map (fun c => c - 48) s))) ltac:(lia) ltac:(lia)).
  destruct (decide (c = 48)) as [->|Hne]; [lia|]. nia.
Qed.

Lemma plain_number_spec s :
  plain_number s && existsb (fun c => (49 <=? c) && (c <=? 57)) s = true <-> positive_number s.
Proof.
  unfold plain_number, positive_number. rewrite andb_true_iff. split.
  - intros [Hp Hx]. destruct (span_ascii s) as [w r] eqn:E. apply span_ascii_spec in E as [-> Hw].
    assert (exists fraction, r = match fraction with [] => [] | _ => 46 :: fraction end /\ w <> [] /\ PyStr.ascii_digits fraction) as (f & -> & Hne & Hf).
    { destruct r as [|c r].
      - exists []. apply andb_true_iff in Hp as [Hn _]. split; [done|]. split; [by intros ->|constructor].
      - destruct (decide (c = 46)) as [->|Hc]; [|by repeat (case_match; try done)].
        rewrite !andb_true_iff in Hp. destruct Hp as [[Hn _] [Hr Hd%ascii_digits_spec]]. exists r. destruct r; [done|].
        split; [done|]. split; [by intros ->|done]. }
    exists w, f. split; [done|]. split; [done|]. split; [by apply Forall_app|]. apply ascii_value_pos; [by apply Forall_app|].
    rewrite existsb_app in *. by destruct f.
  - intros (w & f & -> & Hne & [Hw Hf]%Forall_app & Hv%ascii_value_pos); [|by apply Forall_app].
    assert (forall t, t <> [] -> PyStr.ascii_digits t -> negb (str_eqb t []) && ascii_digits t = true) as Hd.
    { intros t Ht Htd. apply andb_true_iff. split; [by destruct t|by apply ascii_digits_spec]. }
    rewrite existsb_app in Hv. rewrite span_ascii_app by (done || by destruct f). destruct f as [|c f]; rewrite existsb_app.
    + split; [by apply Hd|done].
    + split; [|done]. by rewrite !Hd.
Qed.

Lemma valid_level_spec x : valid_level x = true <-> level_sound x.
Proof.
  unfold valid_level, level_sound. rewrite of_dict_true. cbn [forallb map]. split.
  - intros (d & -> & Hd). rewrite !andb_true_iff in Hd.
    destruct Hd as [Hn ((px & Hpx & Hp%plain_number_spec)%dict_text & (sz & Hsz & Hs%plain_number_spec)%dict_text & _)].
    destruct (json_get (u "n") d) as [| |n| | | |] eqn:En; try done. apply get_has in En; [|done]. apply Z.ltb_lt in Hn. by exists d, n, px, sz.
  - intros (d & n & px & sz & -> & Hn & Hpos & Hpx & Hp & Hsz & Hs). exists d. split; [done|]. apply get_has in Hn; [|done].
    rewrite Hn, !andb_true_iff, !dict_text. split; [by apply Z.ltb_lt|]. setoid_rewrite plain_number_spec. split; [by exists px|]. split; [by exists sz|done].
Qed.

Lemma forallb_Forall {A} (f : A -> bool) (P : A -> Prop) l : (forall x, f x = true <-> P x) -> forallb f l = true <-> Forall P l.
Proof. intros Hf. rewrite forallb_forall, Forall_forall. setoid_rewrite list_elem_of_In. by setoid_rewrite Hf. Qed.

Lemma version_is d name : json_is (json_get name d) SDK_VERSION = true <-> assoc name d = Some (JStr SDK_VERSION).
Proof. by rewrite json_is_Ok, get_assoc. Qed.

Lemma approve_Ok b reason x : approve b reason = Ok x <-> b = true.
Proof. unfold approve, raise_if. destruct b, x; by split. Qed.

Lemma book_sides_Ok book bids asks :
  book_sides book = Ok (bids, asks) <->
  exists d, book = JDict d /\ has d "coin" (JStr (u "BTC")) /\ has d "levels" (JList [JList bids; JList asks]) /\ bids <> [] /\ asks <> [].
Proof.
  unfold book_sides. split.
  - intros ([] & (d & -> & Hc%dict_is)%approve_Ok%of_dict_true & Hl)%bind_Ok. exists d. split; [done|]. split; [done|].
    cbn [lock_get] in Hl. destruct (json_get (u "levels") d) as [| | | | |l|] eqn:E; try done. apply get_has in E; [|done].
    repeat (case_match; try done); subst. by injection Hl as <- <-.
  - intros (d & -> & Hc & Hl & Hb & Ha). apply bind_Ok. exists tt. split; [by apply approve_Ok, dict_is|]. cbn [lock_get].
    apply get_has in Hl; [|done]. rewrite Hl. by destruct bids, asks.
Qed.

Lemma verify_observations_Ok lock observations result :
  verify_observations lock observations = Ok result <->
  validate_lock lock = Ok tt /\ exists o bids asks, observations = JDict o /\ compatible o bids asks /\ result = summary bids asks.
Proof.
  unfold verify_observations, validate_lock. split.
  - intros ([] & Hb & (o & Ho & Hr)%bind_Ok)%bind_Ok. destruct observations as [| | | | | |o']; try done. injection Ho as ->.
    apply bind_Ok in Hr as ([] & H1%approve_Ok & Hr). apply bind_Ok in Hr as ([] & H2%approve_Ok & Hr).
    apply bind_Ok in Hr as ([] & H3%approve_Ok & Hr). apply bind_Ok in Hr as ([] & H4%approve_Ok & Hr).
    apply bind_Ok in Hr as ([] & H5%approve_Ok & Hr). apply bind_Ok in Hr as ([bids asks] & H6%book_sides_Ok & Hr).
    apply bind_Ok in Hr as ([] & H7%approve_Ok & Hr). apply bind_Ok in Hr as ([] & H8%approve_Ok & Hr).
    apply bind_Ok in Hr as ([] & H9%approve_Ok & Hr). apply bind_Ok in Hr as ([] & Hp & [= <-]).
    split; [by rewrite Hb|]. exists o, (zlength bids), (zlength asks). split; [done|]. split; [|done].
    destruct H6 as (d & Hd & Hc & Hl & Hne & Hne'). apply andb_true_iff in H7 as [H7 H7']. apply Z.leb_le in H7, H7'.
    split; [by apply hex_equals_spec|by apply contract_code_spec|by apply hex_equals_spec|by apply supports_musd_spec|by apply lists_btc_spec| |].
    + exists d, bids, asks. split; [done|]. split; [done|]. split; [done|]. split; [done|]. split; [done|].
      split; [|split; [|by apply (forallb_Forall _ _ _ valid_level_spec)]]; unfold zlength in *; [by destruct bids; cbn in *; [|lia]|by destruct asks; cbn in *; [|lia]].
    + apply of_dict_true in H9 as (v & Hv & H9). exists v. split; [done|]. by apply (forallb_Forall _ _ _ (version_is v)).
  - intros [Hl (o & bids & asks & -> & [H1 H2 H3 H4 H5 H6 H7] & ->)].
    apply bind_Ok in Hl as ([] & Hb & Hp). rewrite Hb. cbn [mbind result_bind].
    apply hex_equals_spec in H1, H3. apply contract_code_spec in H2. apply supports_musd_spec in H4. apply lists_btc_spec in H5.
    rewrite H1, H2, H3, H4, H5. cbn [approve negb raise_if mbind result_bind].
    destruct H6 as (d & bs & as_ & Hd & Hc & Hlv & -> & -> & Hb1 & Ha1 & Hlevels).
    rewrite (proj2 (book_sides_Ok _ bs as_)) by (exists d; split; [done|split; [done|split; [done|unfold zlength in *; split; intros ->; cbn in *; lia]]]).
    cbn [mbind result_bind]. rewrite (proj2 (Z.leb_le _ _)), (proj2 (Z.leb_le _ _)) by lia.
    apply (forallb_Forall _ _ _ valid_level_spec) in Hlevels. rewrite Hlevels. destruct H7 as (v & Hv & H7). rewrite Hv. cbn [of_dict].
    apply (forallb_Forall _ _ _ (version_is v)) in H7. rewrite H7. by rewrite Hp.
Qed.

(** C27: the probe's judgement returns a summary exactly when the lock is the pinned boundary
    with its payment policy and the observations show the chain, deployed code and decimals
    of the token, a facilitator that takes it, the listed coin, a book of one to twenty sound
    levels on either side and the pinned package versions; and the summary tells nothing of
    them but the two counts. *)
Theorem verify_observations_spec lock observations result :
  verify_observations lock observations = Ok result <->
  validate_lock lock = Ok tt /\ exists o bids asks, observations = JDict o /\ compatible o bids asks /\ result = summary bids asks.
Proof. apply verify_observations_Ok. Qed.
End probe.

(** ** What the lock pins *)

Lemma keys_equal_perm d keys : NoDup (map fst d) -> NoDup keys -> keys_equal d keys = true -> map fst d ≡ₚ keys.
Proof.
  unfold keys_equal, keys_subset, keys_cover. rewrite andb_true_iff, !forallb_forall. intros Hd Hk [H1 H2].
  apply NoDup_Permutation; [done..|]. intros k. split.
  - intros (kv & -> & Hin)%list_elem_of_fmap. by apply list_elem_of_In, H1, bool_decide_eq_true in Hin.
  - intros Hin%list_elem_of_In%H2. by apply bool_decide_eq_true in Hin.
Qed.

(** The policy of a lock, whose keys come in any order. *)
Definition payment_policy : list (pystr * json) :=
  [(u "pay_to_required", JBool true); str_field "pay_to_source" "operator_environment";
   (u "default_pay_to_forbidden", JBool true); str_field "finality_policy_status" "UNVERIFIED"].

(** A dictionary with the keys and values of a list of distinct keys. *)
Lemma dict_perm {V} (d e : list (pystr * V)) :
  NoDup (map fst d) -> NoDup (map fst e) -> map fst d ≡ₚ map fst e -> (forall k v, assoc k e = Some v -> assoc k d = Some v) -> d ≡ₚ e.
Proof.
  intros Hd He Hp Ha. apply NoDup_Permutation; [by eapply NoDup_fmap_1|by eapply NoDup_fmap_1|]. intros [k v]. split.
  - intros Hin. assert (k ∈ map fst e) as Hk by (rewrite <- Hp; by apply (list_elem_of_fmap_2 fst _ (k, v))).
    destruct (assoc k e) as [v'|] eqn:E; [|by apply assoc_None in E]. apply Ha in E as E'. apply assoc_unique in Hin; [|done].
    assert (v' = v) as -> by congruence. by apply assoc_elem.
  - intros Hin. apply assoc_elem, Ha. by apply assoc_unique.
Qed.

Lemma validate_payment_policy_sound d :
  json_plain (JDict d) = true -> validate_payment_policy (JDict d) = Ok tt -> exists policy, has d "payment_readiness" (JDict policy) /\ policy ≡ₚ payment_policy.
Proof.
  unfold validate_payment_policy. cbn [lock_get]. intros Hd (policy & Hp & Hr)%bind_Ok.
  destruct (json_get (u "payment_readiness") d) as [| | | | | |policy'] eqn:E; try done. injection Hp as ->. apply get_has in E; [|done].
  exists policy. split; [done|]. apply bind_Ok in Hr as ([] & Hc%approve_Ok & Hs%approve_Ok). rewrite !andb_true_iff, dict_is in Hc.
  destruct Hc as [[[Hk H1] H2] H3]. apply dict_is in Hs.
  assert (NoDup (map fst policy)) as Hn.
  { apply plain_dict in Hd as [_ Hd]. apply Hd, plain_dict in E. apply E. }
  assert (forall k, is_true (json_get (u k) policy) = true -> has policy k (JBool true)) as Hb.
  { intros k Ht. destruct (json_get (u k) policy) as [|b| | | | |] eqn:Eb; try done. destruct b; [|done]. by apply get_has in Eb. }
  apply dict_perm; [done|by apply (bool_decide_unpack _)|by apply keys_equal_perm; [|apply (bool_decide_unpack _)|]|].
  intros k v Hv%assoc_elem. unfold payment_policy in Hv. rewrite !elem_of_cons, elem_of_nil in Hv.
  destruct Hv as [[= -> ->]|[[= -> ->]|[[= -> ->]|[[= -> ->]|[]]]]]; [by apply Hb|done|by apply Hb|done].
Qed.

(** The pinned fields of a lock. *)
Lemma pinned_Ok d p : pinned d = Ok p -> map fst p = map fst boundary /\ forall k v, assoc k p = Some v -> assoc k d = Some v.
Proof.
  unfold pinned. intros Hp%mapR_Ok. revert p Hp. generalize boundary as b. induction b as [|kv b IH]; intros p Hp.
  - apply Forall2_nil_inv_l in Hp as ->. done.
  - apply Forall2_cons_inv_l in Hp as (kv' & p' & (v & Hv & [= <-])%bind_Ok & Hp & ->). apply IH in Hp as [Hk Ha].
    split; [cbn; by rewrite Hk|]. intros k x. cbn [assoc]. case_decide as Hd; [|apply Ha]. intros [= <-]. subst. unfold json_item in Hv.
    by destruct (assoc (fst kv) d); [injection Hv as ->|].
Qed.

Lemma validate_boundary_sound d :
  json_plain (JDict d) = true -> validate_boundary (JDict d) = Ok tt ->
  map fst d ≡ₚ map fst boundary ++ [u "payment_readiness"] /\
  forall k v, assoc k boundary = Some v -> exists v', assoc k d = Some v' /\ json_arranged sorted_style v' = json_arranged sorted_style v.
Proof.
  intros Hpl Hv. apply plain_dict in Hpl as [Hn Hpl]. unfold validate_boundary in Hv. cbn [mbind result_bind] in Hv.
  apply bind_Ok in Hv as ([] & Hk%approve_Ok & Hv). apply bind_Ok in Hv as (a & Ha & Hv). apply bind_Ok in Hv as (e & He & Heq%approve_Ok%str_eqb_spec).
  subst e. split; [apply keys_equal_perm; [done|by apply (bool_decide_unpack _)|done]|].
  destruct (p ← pinned d; sorted_dumps (JDict p)) as [a'|x] eqn:E; [|by cbn in Ha; destruct (_ || _)]. injection Ha as ->.
  apply bind_Ok in E as (p & Hp%pinned_Ok & Hd). destruct Hp as [Hkeys Hp].
  assert (NoDup (map fst p)) as Hnp by (rewrite Hkeys; by apply (bool_decide_unpack _)).
  assert (NoDup (map fst boundary)) as Hnb by by apply (bool_decide_unpack _).
  assert (json_plain (JDict p) = true) as Hpp.
  { cbn [json_plain]. apply andb_true_iff. split; [by apply bool_decide_eq_true|]. apply forallb_forall. intros [k v] Hin%list_elem_of_In.
    apply andb_true_iff. cbn [fst snd]. split; [|by eapply Hpl, Hp, assoc_unique].
    apply (list_elem_of_fmap_2 fst) in Hin. change (fst <$> p) with (map fst p) in Hin. rewrite Hkeys in Hin. revert k Hin. cbn [fst]. clear.
    apply Forall_forall. by repeat constructor. }
  assert (forall j, json_plain j = true -> sorted_dumps j = Ok a -> json_loads_with default_hooks (a ++ []) = Ok (json_arranged sorted_style j)) as Hloads.
  { intros j Hj Hdj. apply (loads_dumps_with default_hooks default_hooks_pairs sorted_style [32] [32]); try done; by repeat constructor. }
  pose proof (Hloads _ Hpp Hd) as H1. pose proof (Hloads (JDict boundary) eq_refl He) as H2. rewrite H1 in H2. injection H2 as H2.
  intros k v Hkv. assert (assoc k (arranged_items sorted_style p) = assoc k (arranged_items sorted_style boundary)) as Hx by (unfold arranged_items; by rewrite H2).
  rewrite !arranged_assoc, Hkv in Hx by done. destruct (assoc k p) as [v'|] eqn:Ek; [|done]. injection Hx as Hx. exists v'. split; [by apply Hp|done].
Qed.

(** Of the locks of plain values, the probe accepts none but the pinned boundary: its keys
    are the five, every pinned field has the pinned value but for the order of keys, and its
    payment policy, which blocks payment, is the one of the code. *)
Theorem validate_lock_sound lock :
  json_plain lock = true -> validate_lock lock = Ok tt ->
  exists d policy, lock = JDict d /\ map fst d ≡ₚ map fst boundary ++ [u "payment_readiness"] /\
    (forall k v, assoc k boundary = Some v -> exists v', assoc k d = Some v' /\ json_arranged sorted_style v' = json_arranged sorted_style v) /\
    has d "payment_readiness" (JDict policy) /\ policy ≡ₚ payment_policy.
Proof.
  intros Hpl ([] & Hb & Hp)%bind_Ok. destruct lock as [| | | | | |d]; try done.
  destruct (validate_boundary_sound d Hpl Hb) as [Hk Ha]. destruct (validate_payment_policy_sound d Hpl Hp) as (policy & Hh & Hpp). by exists d, policy.
Qed.

(** [docs/compatibility/mezo-evidence-v1.json] *)
Definition shipped_lock : json := JDict (boundary ++ [(u "payment_readiness", JDict payment_policy)]).

Lemma validate_lock_sound_witness :
  exists d policy, shipped_lock = JDict d /\ has d "payment_readiness" (JDict policy) /\ policy ≡ₚ payment_policy.
Proof.
  destruct (validate_lock_sound shipped_lock) as (d & policy & Hd & _ & _ & H1 & H2); [vm_compute; reflexivity|vm_compute; reflexivity|].
  by exists d, policy.
Defined.

(** A boolean or a float in the place of an integer is another lock. *)
Definition relocked (v : json) : json := JDict (assoc_set (u "x402") (JDict
  [(u "version", v); str_field "scheme" "exact"; (u "typescript_version", JStr SDK_VERSION); (u "packages", JList (map JStr PACKAGES))])
  (boundary ++ [(u "payment_readiness", JDict payment_policy)])).

Example relocked_ex1 : validate_lock (relocked (JInt 2)) = Ok tt. Proof. vm_compute. reflexivity. Qed.
Example relocked_ex2 : is_Ok (validate_lock (relocked (JFloat (FFin false 2 0)))) = false. Proof. vm_compute. reflexivity. Qed.
Example relocked_ex3 : is_Ok (validate_lock (relocked (JBool true))) = false. Proof. vm_compute. reflexivity. Qed.
