(* ===== verification/CompatibilitySafety.v ===== *)
(** * What the compatibility probe does, whatever answers it

    Every trace of [Compatibility.compat_main]: it asks nothing before its lock is
    accepted, and then the ten fixed requests in their order; it puts out nothing but the
    summary of answers that its judgement accepts, whole; and it reports nothing but a
    reason of a closed list. *)

From S2P Require Import Prelude PyStr Num PyObj Json JsonRoundtrip Bytes JsonBytes EvidenceIo Documents MezoDex Report Programs ChunkedReader Compatibility.
Open Scope Z_scope.

(** ** What traces show *)

Abbreviation opening := (pystr * option bytes * result opened)%type.

Definition opening_of (i : interaction probe_call) : option opening :=
  match i with
  | Answered c a =>
    match c in probe_call B return result B -> option opening with
    | OpenUrl url data => fun a => Some (url, data, a)
    | _ => fun _ => None
    end a
  end.

(** The requests of a trace, with what each got. *)
Definition opens (t : list (interaction probe_call)) : list opening := omap opening_of t.

(** A temporary file: absent, holding nothing certain, or the text written to it. *)
Inductive staged := NoFile | Partial | Written (text : pystr).

(** What a probe leaves: texts sent to its streams, whether or not they arrive, its
    temporary file, and what replaced the output. *)
Record effects := mkEffects { ef_stdout : list pystr; ef_stderr : list pystr; ef_temp : staged; ef_output : option staged }.

Definition done_well {A} (a : result A) (yes no : effects) : effects := if is_Ok a then yes else no.

Definition effect (e : effects) (i : interaction probe_call) : effects :=
  let '(mkEffects out err temp output) := e in
  match i with
  | Answered c a =>
    match c with
    | WriteStdout text => mkEffects (out ++ [text]) err temp output
    | WriteStderr text => mkEffects out (err ++ [text]) temp output
    | MakeTemp _ => done_well a (mkEffects out err Partial output) e
    | WriteTemp text => mkEffects out err (if is_Ok a then Written text else Partial) output
    | ReplaceOutput _ => done_well a (mkEffects out err NoFile (Some temp)) e
    | UnlinkTemp => done_well a (mkEffects out err NoFile output) e
    | _ => e
    end
  end.

Definition nothing : effects := mkEffects [] [] NoFile None.
Definition after (e : effects) (t : list (interaction probe_call)) : effects := fold_left effect t e.
Definition left_by (t : list (interaction probe_call)) : effects := after nothing t.

(** Calls that leave nothing. *)
Definition quiet_call {B} (c : probe_call B) : bool :=
  match c with WriteStdout _ | WriteStderr _ | MakeTemp _ | WriteTemp _ | ReplaceOutput _ | UnlinkTemp => false | _ => true end.
Definition quiet (t : list (interaction probe_call)) : Prop := Forall (fun i => match i with Answered c _ => quiet_call c = true end) t.

Lemma quiet_after t e : quiet t -> after e t = e.
Proof.
  intros Ht. unfold after. revert e. induction Ht as [|[B c a] t Hc _ IH]; intros e; [done|]. cbn [fold_left]. rewrite IH. by destruct e, c.
Qed.

Lemma opens_app t1 t2 : opens (t1 ++ t2) = opens t1 ++ opens t2.
Proof. apply omap_app. Qed.

Lemma after_app e t1 t2 : after e (t1 ++ t2) = after (after e t1) t2.
Proof. apply fold_left_app. Qed.

Abbreviation program := (prog probe_call).

(** A program that leaves nothing, told by its requests and its result. *)
Definition asks {A} (S : list opening -> result A -> Prop) (p : program A) : Prop := tells p (fun t r => quiet t /\ S (opens t) r).

Lemma asks_weaken {A} (S S' : list opening -> result A -> Prop) p : asks S p -> (forall os r, S os r -> S' os r) -> asks S' p.
Proof. intros Hp HS. eapply tells_weaken; [exact Hp|]. intros t r [Hq Hs]. split; [done|by apply HS]. Qed.

Lemma asks_lift {A} (m : result A) (S : list opening -> result A -> Prop) : S [] m -> asks S (lift m).
Proof. intros HS. apply tells_lift. by split; [constructor|]. Qed.

Lemma asks_do {B} (c : probe_call B) (S : list opening -> result B -> Prop) :
  quiet_call c = true -> (forall a, S (opens [Answered c a]) a) -> asks S (do c).
Proof. intros Hc HS. apply tells_do. intros a. split; [by repeat constructor|apply HS]. Qed.

Lemma asks_bind {A B} (p : program A) (f : A -> program B) S1 S :
  asks S1 p -> (forall os a, S1 os (Ok a) -> asks (fun os2 r => S (os ++ os2) r) (f a)) -> (forall os e, S1 os (Raise e) -> S os (Raise e)) ->
  asks S (p ≫= f).
Proof.
  intros Hp Hf He. eapply tells_bind; [exact Hp|..].
  - intros t1 a [Hq Hs]. eapply tells_weaken; [by apply Hf|]. intros t2 r [Hq2 Hs2]. split; [by apply Forall_app|by rewrite opens_app].
  - intros t1 e [Hq Hs]. split; [done|by apply He].
Qed.

Lemma asks_finally {A} (p : program A) (q : program unit) S :
  asks S p -> asks (fun os _ => os = []) q -> (forall os r e, S os r -> S os (Raise e)) -> asks S (prog_finally p q).
Proof.
  intros Hp Hq HS. eapply tells_finally; [exact Hp|exact Hq|]. intros t1 r1 t2 r2 [Hq1 H1] [Hq2 H2].
  split; [by apply Forall_app|]. rewrite opens_app, H2, app_nil_r. destruct r2; [done|]. by eapply HS.
Qed.

Lemma asks_except {A} (p : program A) cs h S :
  asks S p -> (forall e, exists e', h e = Done (Raise e')) -> (forall os r e, S os r -> S os (Raise e)) -> asks S (prog_except p cs h).
Proof.
  intros Hp Hh HS. eapply tells_except; [exact Hp|by intros t1 a|by intros t1 e Hs|].
  intros t1 e [Hq Hs] _. destruct (Hh e) as [e' ->]. intros t2 r [-> ->]. rewrite app_nil_r. split; [done|]. by eapply HS.
Qed.

(** A step that asks nothing. *)
Lemma asks_step {A B} (c : probe_call B) (f : B -> program A) S :
  quiet_call c = true -> (forall a, opens [Answered c a] = []) -> (forall e, S [] (Raise e)) -> (forall b, asks S (f b)) -> asks S (do c ≫= f).
Proof.
  intros Hc Ho He Hf. eapply asks_bind; [apply (asks_do c (fun os _ => os = [])); [done|exact Ho]|..].
  - intros os b ->. apply Hf.
  - intros os e ->. apply He.
Qed.

Lemma asks_check {A B} (m : result B) (f : B -> program A) S :
  (forall e, S [] (Raise e)) -> (forall b, m = Ok b -> asks S (f b)) -> asks S (lift m ≫= f).
Proof.
  intros He Hf. eapply asks_bind; [apply (asks_lift m (fun os r => os = [] /\ m = r)); by split|..].
  - intros os b [-> Hm]. by apply Hf.
  - intros os e [-> _]. apply He.
Qed.

(** A request whose body, if any, is served by the answer of one opening. *)
Definition opens_once {A} (url : pystr) (data : option bytes) (K : response -> A -> Prop) (os : list opening) (r : result A) : Prop :=
  (os = [] /\ is_Ok r = false) \/
  exists a, os = [(url, data, a)] /\ forall x, r = Ok x -> exists response, a = Ok (Opened response) /\ K response x.

Lemma opens_once_Raise {A B} url data (K : response -> A -> Prop) (K' : response -> B -> Prop) os r e :
  opens_once url data K os r -> opens_once url data K' os (Raise e).
Proof. intros [[-> _]|(a & -> & _)]; [by left|right]. by exists a. Qed.

Lemma opens_none {A} url data (K : response -> A -> Prop) e : opens_once url data K [] (Raise e).
Proof. by left. Qed.

Lemma asks_deadline {A} reason url data (K : response -> A -> Prop) (body : program A) :
  asks (opens_once url data K) body -> asks (opens_once url data K) (request_deadline reason body).
Proof.
  intros Hb. unfold request_deadline, demand.
  assert (forall e, opens_once url data K [] (Raise e)) as Hn by apply opens_none.
  apply asks_step; [done..|]. intros armed. apply asks_check; [done|]. intros _ _.
  apply asks_step; [done..|]. intros idle. apply asks_check; [done|]. intros _ _.
  apply asks_step; [done..|]. intros start. apply asks_finally; [| |by intros ???; apply opens_once_Raise].
  - apply asks_step; [done..|]. intros _. apply asks_step; [done..|]. intros now. apply asks_check; [done|]. intros _ _.
    apply asks_step; [done..|]. intros _. eapply asks_bind; [exact Hb| |by intros].
    intros os x Hx. eapply (asks_weaken (fun os2 r => os2 = [] /\ forall y, r = Ok y -> y = x)).
    + apply asks_step; [done..|]. intros now'. apply asks_check; [done|]. intros _ _. apply asks_lift. split; [done|]. by intros y [= <-].
    + intros os2 r [-> Hr]. rewrite app_nil_r. destruct r as [y|e]; [by rewrite (Hr y eq_refl)|by eapply opens_once_Raise].
  - apply asks_step; [done..|]. intros _. by apply asks_do.
Qed.

(** [unavailable] raises. *)
Lemma unavailable_raises {A} reason e : exists e', unavailable (A := A) reason e = Done (Raise e').
Proof. unfold unavailable, lift, raise. destruct (exc_subclass _ _); by eexists. Qed.

Section probe.
Context `{UnicodeLower}.

(** ** What a request fetches *)

(** The document of a response. *)
Definition response_document (r : response) (reason : string) : result json :=
  expected ← declared_length r reason;
  body ← response_body r expected reason;
  approve (zlength body <=? MAX_RESPONSE_BYTES) reason ;;
  json_loads_bytes default_hooks body.

Definition serves (o : opening) (j : json) : Prop := exists r reason, snd o = Ok (Opened r) /\ response_document r reason = Ok j.


Definition payload_text (payload : option json) : result (option bytes) :=
  match payload with None => Ok None | Some p => text ← json_dumps_with default_style p; Ok (Some text) end.

Lemma request_json_asks url payload data reason :
  payload_text payload = Ok data ->
  asks (opens_once url data (fun r j => response_document r reason = Ok j)) (request_json url payload reason).
Proof.
  intros Hd. unfold request_json. fold (payload_text payload). rewrite Hd. unfold lift at 1. cbn [mbind prog_bind prog_then].
  apply asks_except; [|apply unavailable_raises|by intros ???; apply opens_once_Raise].
  eapply (asks_bind _ _ (opens_once url data (fun r body => exists expected, declared_length r reason = Ok expected /\ response_body r expected reason = Ok body))).
  - apply asks_deadline. eapply (asks_bind _ _ (fun os a => os = [(url, data, a)])); [by apply asks_do| |].
    + intros os [r| |] ->.
      * eapply (asks_weaken (fun os2 res => os2 = [] /\ forall body, res = Ok body -> exists expected, declared_length r reason = Ok expected /\ response_body r expected reason = Ok body)).
        -- apply asks_finally; [|by apply asks_do|by intros ??? [-> _]].
           apply asks_check; [done|]. intros expected He. apply asks_step; [done..|]. intros arrived. apply asks_check; [done|]. intros _ _.
           apply asks_lift. split; [done|]. intros body Hb. by exists expected.
        -- intros os2 res [-> Hr]. right. eexists. split; [done|]. intros body Hb. exists r. split; [done|]. by apply Hr.
      * apply asks_lift. right. by eexists.
      * apply asks_lift. right. by eexists.
    + intros os e ->. right. by eexists.
  - intros os body [[_ Hf]|(a & -> & Ha)]; [done|]. destruct (Ha body eq_refl) as (r & -> & expected & He & Hb).
    eapply (asks_weaken (fun os2 res => os2 = [] /\ forall j, res = Ok j -> response_document r reason = Ok j)).
    + apply asks_check; [done|]. intros [] Hl. apply asks_lift. split; [done|]. intros j Hj. unfold response_document. rewrite He. cbn [mbind result_bind].
      rewrite Hb. cbn [mbind result_bind]. by rewrite Hl.
    + intros os2 res [-> Hr]. right. eexists. split; [done|]. intros j Hj. exists r. split; [done|]. by apply Hr.
  - intros os e. apply opens_once_Raise.
Qed.

(** ** The fixed requests *)

(** A program that asks the given requests in order, or stops among them, and whose value
    is told by the documents they fetch. *)
Definition fetches {A} (requests : list (pystr * option bytes)) (K : list json -> A -> Prop) : program A -> Prop :=
  asks (fun os r => map fst os `prefix_of` requests /\
    forall x, r = Ok x -> map fst os = requests /\ exists docs, Forall2 serves os docs /\ K docs x).

Lemma fetches_request url payload data reason :
  payload_text payload = Ok data -> fetches [(url, data)] (fun docs j => docs = [j]) (request_json url payload reason).
Proof.
  intros Hd. eapply asks_weaken; [by apply request_json_asks|]. intros os r [[-> Hr]|(a & -> & Ha)].
  - split; [apply prefix_nil|]. by intros x ->.
  - split; [done|]. intros j Hj. split; [done|]. exists [j]. split; [|done]. repeat constructor.
    destruct (Ha j Hj) as (response & -> & Hresp). by exists response, reason.
Qed.

Lemma fetches_bind {A B} r1 r2 (K1 : list json -> A -> Prop) (K : list json -> B -> Prop) p f :
  fetches r1 K1 p -> (forall docs1 a, K1 docs1 a -> fetches r2 (fun docs2 => K (docs1 ++ docs2)) (f a)) -> fetches (r1 ++ r2) K (p ≫= f).
Proof.
  intros Hp Hf. eapply asks_bind; [exact Hp|..].
  - intros os a [_ Ha]. destruct (Ha a eq_refl) as [<- (docs1 & Hs1 & HK1)]. eapply asks_weaken; [by apply Hf|].
    intros os2 r [Hpre Hr]. rewrite map_app. split; [by apply prefix_app|]. intros x Hx. destruct (Hr x Hx) as [<- (docs2 & Hs2 & HK)].
    split; [done|]. exists (docs1 ++ docs2). split; [by apply Forall2_app|done].
  - intros os e [Hpre _]. split; [|done]. by apply prefix_app_r.
Qed.

Lemma fetches_lift {A} (m : result A) (K : list json -> A -> Prop) : (forall x, m = Ok x -> K [] x) -> fetches [] K (lift m).
Proof. intros HK. apply asks_lift. split; [done|]. intros x Hx. split; [done|]. exists []. split; [constructor|by apply HK]. Qed.

Lemma fetches_map {A B} (f : A -> program B) (request : A -> pystr * option bytes) (K : A -> json -> B -> Prop) l :
  (forall x, x ∈ l -> fetches [request x] (fun docs y => exists doc, docs = [doc] /\ K x doc y) (f x)) ->
  fetches (map request l) (fun docs ys => Forall2 (fun x dy => K x (fst dy) (snd dy)) l (zip docs ys) /\ length docs = length ys) (prog_map f l).
Proof.
  induction l as [|x l IH]; intros Hf; cbn [map prog_map].
  - apply fetches_lift. intros ys [= <-]. split; [constructor|done].
  - apply (fetches_bind [request x] (map request l) _ _ _ _ (Hf x ltac:(left))). intros docs1 y (doc & -> & Hy).
    rewrite <- (app_nil_r (map request l)). eapply fetches_bind; [apply IH; intros z Hz; apply Hf; by right|].
    intros docs2 ys [Hys Hl]. apply fetches_lift. intros zs [= <-]. rewrite app_nil_r. cbn. split; [by constructor|by f_equal].
Qed.

Definition text_of (payload : json) : bytes := match json_dumps_with default_style payload with Ok text => text | Raise _ => [] end.

(** The requests of the probe, in order. *)
Definition REQUESTS : list (pystr * option bytes) :=
  [(RPC_URL, Some (text_of (rpc_payload "eth_chainId" [])));
   (RPC_URL, Some (text_of (rpc_payload "eth_getCode" [JStr MUSD_ADDRESS; JStr (u "latest")])));
   (RPC_URL, Some (text_of (rpc_payload "eth_call" [JDict [(u "to", JStr MUSD_ADDRESS); str_field "data" "0x313ce567"]; JStr (u "latest")])));
   (FACILITATOR_URL ++ u "/supported", None);
   (INFO_URL, Some (text_of (JDict [str_field "type" "meta"])));
   (INFO_URL, Some (text_of (JDict [str_field "type" "l2Book"; str_field "coin" "BTC"])))] ++
  map (fun pu => (snd pu, None)) REGISTRY_METADATA.

(** What the probe makes of ten documents. *)
Definition observed (docs : list json) (o : list (pystr * json)) : Prop :=
  exists d1 d2 d3 facilitator meta book registry chain_id token_code token_decimals,
    docs = [d1; d2; d3; facilitator; meta; book] ++ registry /\
    rpc_result d1 = Ok chain_id /\ rpc_result d2 = Ok token_code /\ rpc_result d3 = Ok token_decimals /\
    Forall2 (fun package doc => exists v, registry_version package doc = Ok v) PACKAGES registry /\
    o = [(u "chain_id", chain_id); (u "token_code", token_code); (u "token_decimals", token_decimals);
         (u "facilitator", facilitator); (u "meta", meta); (u "book", book);
         (u "npm_versions", JDict (map (fun package => (package, JStr SDK_VERSION)) PACKAGES))].

Lemma fetches_rpc method params data :
  payload_text (Some (rpc_payload method params)) = Ok data ->
  fetches [(RPC_URL, data)] (fun docs x => exists d, docs = [d] /\ rpc_result d = Ok x) (rpc method params).
Proof.
  intros Hd. unfold rpc. rewrite <- (app_nil_r [(RPC_URL, data)]). eapply fetches_bind; [by apply fetches_request|].
  intros docs d ->. apply fetches_lift. intros x Hx. by exists d.
Qed.

Lemma registry_version_Ok package doc v : registry_version package doc = Ok v -> v = (package, JStr SDK_VERSION).
Proof. unfold registry_version. by intros ([] & _ & [= <-])%bind_Ok. Qed.

Lemma registry_versions_read l docs vs :
  Forall2 (fun (pu : pystr * pystr) dv => registry_version (fst pu) (fst dv) = Ok (snd dv)) l (zip docs vs) -> length docs = length vs ->
  Forall2 (fun package doc => exists v, registry_version package doc = Ok v) (map fst l) docs /\
  vs = map (fun package => (package, JStr SDK_VERSION)) (map fst l).
Proof.
  revert docs vs. induction l as [|pu l IH]; intros [|doc docs] [|v vs] Hf Hl; try (by apply Forall2_length in Hf); try done.
  apply Forall2_cons in Hf as [Hv Hf]. cbn [fst snd] in Hv. destruct (IH docs vs Hf ltac:(by injection Hl)) as [Hd ->].
  split; [constructor; [by exists v|done]|]. cbn [map]. by rewrite (registry_version_Ok _ _ _ Hv).
Qed.

Lemma fetches_registry :
  fetches (map (fun pu => (snd pu, None)) REGISTRY_METADATA)
    (fun docs x => Forall2 (fun package doc => exists v, registry_version package doc = Ok v) PACKAGES docs /\
       x = JDict (map (fun package => (package, JStr SDK_VERSION)) PACKAGES)) registry_versions.
Proof.
  unfold registry_versions. rewrite <- (app_nil_r (map _ REGISTRY_METADATA)). eapply fetches_bind.
  - apply (fetches_map _ (fun pu => (snd pu, None)) (fun pu doc v => registry_version (fst pu) doc = Ok v)).
    intros [package url] _. rewrite <- (app_nil_r [_]). eapply fetches_bind; [by apply fetches_request|]. intros docs doc ->.
    apply fetches_lift. intros v Hv. by exists doc.
  - intros docs vs [Hf Hl]. apply fetches_lift. intros x [= <-]. rewrite app_nil_r.
    change PACKAGES with (map fst REGISTRY_METADATA). apply registry_versions_read in Hf as [Hv ->]; [|done]. done.
Qed.

Lemma fetches_collect : fetches REQUESTS (fun docs x => exists o, x = JDict o /\ observed docs o) collect_observations.
Proof.
  unfold collect_observations, REQUESTS. cbn [app].
  eapply (fetches_bind [_]); [by apply fetches_rpc|]. intros ? chain_id (d1 & -> & H1).
  eapply (fetches_bind [_]); [by apply fetches_rpc|]. intros ? token_code (d2 & -> & H2).
  eapply (fetches_bind [_]); [by apply fetches_rpc|]. intros ? token_decimals (d3 & -> & H3).
  eapply (fetches_bind [_]); [by apply fetches_request|]. intros ? facilitator ->.
  eapply (fetches_bind [_]); [by apply fetches_request|]. intros ? meta ->.
  eapply (fetches_bind [_]); [by apply fetches_request|]. intros ? book ->.
  rewrite <- (app_nil_r (map _ REGISTRY_METADATA)). eapply fetches_bind; [apply fetches_registry|]. intros registry v [Hr ->].
  apply fetches_lift. intros x [= <-]. eexists. split; [done|]. rewrite app_nil_r.
  by exists d1, d2, d3, facilitator, meta, book, registry, chain_id, token_code, token_decimals.
Qed.

(** ** Publication *)

(** Nothing is put out yet. *)
Definition silent_so_far (e : effects) : Prop := ef_stdout e = [] /\ ef_stderr e = [] /\ ef_output e = None.

(** The output is replaced, if at all, by the whole text, and only once it has been
    written, flushed and synced. *)
Definition replaced_whole (content : pystr) (t : list (interaction probe_call)) (r : result unit) : Prop :=
  opens t = [] /\ ef_stdout (left_by t) = [] /\ ef_stderr (left_by t) = [] /\
  (ef_output (left_by t) = None /\ is_Ok r = false \/
   ef_output (left_by t) = Some (Written content) /\ (r = Ok tt /\ ef_temp (left_by t) = NoFile \/ exists e, r = Raise e /\ Answered UnlinkTemp (Raise e) ∈ t)).

Ltac follow Ht :=
  repeat match type of Ht with
         | exists _ _, _ => let a := fresh "a" in let t := fresh "t" in destruct Ht as (a & t & -> & Ht); destruct a; cbn in Ht
         | context [if ?b then _ else _] => destruct b; cbn in Ht
         end.

Lemma write_result_tells path content : tells (write_result path content) (replaced_whole content).
Proof.
  intros t r Ht. unfold write_result, output_error in Ht. cbn in Ht. follow Ht; destruct Ht as [-> ->]; unfold replaced_whole; cbn; try tauto.
  - destruct a5. tauto.
  - do 3 (split; [done|]). right. split; [done|]. right. exists e. split; [done|]. do 7 right. left.
Qed.

(** ** The whole probe *)

(** The lock is read first, and accepted. *)
Definition accepted_first (args : option (pystr * option pystr)) (t : list (interaction probe_call)) (lock : json) : Prop :=
  exists path output text rest, args = Some (path, output) /\ t = Answered (ReadLock path) (Ok text) :: rest /\
    json_loads text = Ok lock /\ validate_lock lock = Ok tt.

(** The answers to the requests of a trace, which the judgement accepts, and the text of
    their summary. *)
Definition summarised (t : list (interaction probe_call)) (content : pystr) : Prop :=
  exists docs o bids asks, map fst (opens t) = REQUESTS /\ Forall2 serves (opens t) docs /\ observed docs o /\
    compatible o bids asks /\ canonical_json_bytes (summary bids asks) = Ok content.

(** A text put out where the arguments say. *)
Definition put_out (output : option pystr) (content : pystr) (t : list (interaction probe_call)) (r : result unit) : Prop :=
  match output with
  | None => t = [Answered (WriteStdout content) r]
  | Some _ => replaced_whole content t r
  end.

(** What a trace of the probe is: nothing is put out, or its end puts out the summary. *)
Definition probed (args : option (pystr * option pystr)) (t : list (interaction probe_call)) (r : result unit) : Prop :=
  quiet t /\ is_Ok r = false \/
  exists path output t1 t2 content, args = Some (path, output) /\ t = t1 ++ t2 /\ quiet t1 /\ summarised t1 content /\ put_out output content t2 r.

Lemma read_lock_tells path :
  tells (prog_except (text ← do (ReadLock path); lift (json_loads text)) [OSError; ValueError]
           (fun _ => lift (raise CompatibilityError "COMPATIBILITY_LOCK_INVALID")))
    (fun t r => quiet t /\ opens t = [] /\ forall lock, r = Ok lock -> exists text, t = [Answered (ReadLock path) (Ok text)] /\ json_loads text = Ok lock).
Proof.
  assert (forall a, quiet [Answered (ReadLock path) a]) as Hq by by repeat constructor.
  eapply (tells_except _ _ _ (fun t r => quiet t /\ opens t = [] /\ forall lock, r = Ok lock -> exists text, t = [Answered (ReadLock path) (Ok text)] /\ json_loads text = Ok lock)).
  - eapply (tells_bind _ _ (fun t a => t = [Answered (ReadLock path) a])); [by apply tells_do| |by intros t1 e ->].
    intros t1 text ->. apply tells_lift. rewrite app_nil_r. split; [apply Hq|]. split; [done|]. intros lock Hl. by exists text.
  - by intros t1 lock (H1 & H2 & H3).
  - by intros t1 e (H1 & H2 & _).
  - intros t1 e (H1 & H2 & _) _. apply tells_lift. by rewrite app_nil_r.
Qed.

Lemma probe_tells args :
  tells (probe args) (fun t r => map fst (opens t) `prefix_of` REQUESTS /\ (opens t <> [] -> exists lock, accepted_first args t lock) /\ probed args t r).
Proof.
  set (Q := fun t r => _). assert (forall e, Q [] (Raise e)) as Hnil by (intros e; split; [apply prefix_nil|split; [done|left; by split; [constructor|]]]).
  unfold probe. destruct args as [[path output]|]; [|by apply (tells_lift _ Q)].
  eapply (tells_bind _ _ (fun t r => t = [] /\ r = Ok (path, output))); [by apply tells_lift| |by intros ? e [_ ?]].
  intros ? [path' output'] [-> [= -> ->]]. cbn [app].
  eapply tells_bind; [apply read_lock_tells| |by intros t1 e (H1 & H2 & _); split; [rewrite H2; apply prefix_nil|split; [by rewrite H2|by left]]].
  intros t1 lock (Hq & _ & Hl). destruct (Hl lock eq_refl) as (text & -> & Htext). clear Hl.
  eapply (tells_bind _ _ (fun t r => t = [] /\ r = validate_lock lock)); [by apply tells_lift| |by intros t2 e [-> _]; split; [apply prefix_nil|split; [done|by left]]].
  intros ? [] [-> Hv]. cbn [app].
  assert (forall rest, exists lock, accepted_first (Some (path, output)) (Answered (ReadLock path) (Ok text) :: rest) lock) as Hacc
    by (intros rest; by exists lock, path, output, text, rest).
  eapply tells_bind; [apply fetches_collect|..].
  - intros t2 x [Hq2 [Hpre Hx]]. destruct (Hx x eq_refl) as [Hreq (docs & Hserve & o & -> & Hobs)]. clear Hx.
    assert (forall e, Q (Answered (ReadLock path) (Ok text) :: t2) (Raise e)) as Hstop.
    { intros e. split; [exact Hpre|]. split; [by intros _|]. left. split; [by apply Forall_cons|done]. }
    eapply (tells_bind _ _ (fun t r => t = [] /\ verify_observations lock (JDict o) = r)); [by apply tells_lift| |by intros ? e [-> _]; cbn [app]; rewrite app_nil_r; apply Hstop].
    intros ? result [-> (_ & o' & bids & asks & [= <-] & Hcomp & ->)%verify_observations_Ok].
    eapply (tells_bind _ _ (fun t r => t = [] /\ canonical_json_bytes (summary bids asks) = r)); [by apply tells_lift| |by intros ? e [-> _]; cbn [app]; rewrite app_nil_r; apply Hstop].
    intros ? content [-> Hc]. cbn [app].
    assert (summarised (Answered (ReadLock path) (Ok text) :: t2) content) as Hsum by by exists docs, o, bids, asks.
    assert (quiet (Answered (ReadLock path) (Ok text) :: t2)) as Hq12 by by apply Forall_cons.
    assert (forall t3 r, put_out output content t3 r -> opens t3 = [] -> Q ((Answered (ReadLock path) (Ok text) :: t2) ++ t3) r) as Hput.
    { intros t3 r Hp Ho. split; [rewrite opens_app, Ho, app_nil_r; exact Hpre|]. split; [by intros _; apply Hacc|]. right.
      by exists path, output, (Answered (ReadLock path) (Ok text) :: t2), t3, content. }
    destruct output as [path'|].
    + eapply tells_weaken; [apply write_result_tells|]. intros t3 r Hr. apply Hput; [exact Hr|apply Hr].
    + apply tells_do. intros a. by apply Hput.
  - intros t2 e [Hq2 [Hpre _]]. split; [exact Hpre|]. split; [by intros _; apply Hacc|]. left. split; [by apply Forall_cons|done].
Qed.

(** What follows the probe: at most a line of errors. *)
Lemma main_tells args :
  tells (compat_main args) (fun t r => exists t1 r1 t2, t = t1 ++ t2 /\ trace (probe args) t1 r1 /\
    match r1 with
    | Ok _ => t2 = [] /\ r = Ok 0
    | Raise e =>
      exn_class e <> CompatibilityError /\ t2 = [] /\ r = Raise e \/
      exn_class e = CompatibilityError /\ exists a, t2 = [Answered (WriteStderr (u (exn_msg e) ++ [10])) a] /\ r = (_ ← a; Ok 1)
    end).
Proof.
  intros t r (t1 & r1 & t2 & -> & H1 & H2)%trace_then. exists t1, r1, t2. split; [done|]. split; [done|].
  destruct r1 as [[]|e]; [exact H2|]. destruct (exc_subclass (exn_class e) CompatibilityError) eqn:Ec.
  - right. split; [by destruct (exn_class e)|]. destruct H2 as (a & t' & -> & H2). exists a. destruct a; destruct H2 as [-> ->]; by split.
  - left. split; [by intros E; rewrite E in Ec|exact H2].
Qed.

(** C23: whatever answers the probe, it asks nothing until the lock it read is accepted, and
    then only the ten fixed requests, in their order; and it puts out nothing, or all ten
    were answered by documents that the judgement accepts and what is put out, on its output
    or in the file that replaces the old one, is the whole text of their summary. *)
Theorem probe_publishes args t r :
  trace (compat_main args) t r ->
  map fst (opens t) `prefix_of` REQUESTS /\ (opens t <> [] -> exists lock, accepted_first args t lock) /\
  (ef_stdout (left_by t) = [] /\ ef_output (left_by t) = None \/
   exists path output content, args = Some (path, output) /\ summarised t content /\
     match output with
     | None => ef_stdout (left_by t) = [content] /\ ef_output (left_by t) = None
     | Some _ => ef_stdout (left_by t) = [] /\ ef_output (left_by t) = Some (Written content)
     end).
Proof.
  intros (t1 & r1 & t2 & -> & (Hpre & Hacc & Hp)%probe_tells & H2)%main_tells.
  assert (opens t2 = [] /\ forall e, ef_stdout (after e t2) = ef_stdout e /\ ef_output (after e t2) = ef_output e) as [Ho He].
  { destruct r1 as [x|e]; [by destruct H2 as [-> _]|]. destruct H2 as [(_ & -> & _)|(_ & a & -> & _)]; [done|]. split; [done|]. by intros []. }
  assert (left_by (t1 ++ t2) = after (left_by t1) t2) as El by apply after_app.
  unfold summarised. rewrite opens_app, Ho, app_nil_r, El, (proj1 (He _)), (proj2 (He _)). split; [exact Hpre|].
  split; [intros Hn; destruct (Hacc Hn) as (lock & path & output & text & rest & -> & -> & Hl); by exists lock, path, output, text, (rest ++ t2)|].
  destruct Hp as [[Hq _]|(path & output & ta & tb & content & -> & -> & Hq & Hs & Hput)].
  - left. unfold left_by. by rewrite quiet_after.
  - assert (left_by (ta ++ tb) = left_by tb) as E by (unfold left_by; rewrite after_app; by rewrite (quiet_after ta)).
    rewrite E, opens_app. destruct output as [path'|]; cbn [put_out] in Hput.
    + destruct Hput as (Hob & Hout & _ & [[Hno _]|[Hyes _]]); [by left|right]. rewrite Hob, app_nil_r. by exists path, (Some path'), content.
    + rewrite Hput. right. exists path, None, content. cbn. by rewrite app_nil_r.
Qed.

(** ** What it reports *)

(** No call raises the probe's own error. *)
Definition outside (t : list (interaction probe_call)) : Prop :=
  Forall (fun i => match i with Answered _ a => forall e, a = Raise e -> exn_class e <> CompatibilityError end) t.

Definition REASONS : list string :=
  ["CLI_ARGUMENTS_INVALID"; "COMPATIBILITY_LOCK_INVALID"; "PAY_TO_POLICY_UNSAFE"; "FINALITY_POLICY_UNSUPPORTED";
   "OBSERVATIONS_INVALID"; "MEZO_CHAIN_ID_MISMATCH"; "MUSD_CODE_MISSING"; "MUSD_DECIMALS_MISMATCH"; "FACILITATOR_SUPPORT_MISSING";
   "HYPERLIQUID_BTC_MISSING"; "HYPERLIQUID_BOOK_INVALID"; "HYPERLIQUID_DEPTH_LIMIT_EXCEEDED"; "X402_SDK_VERSION_MISSING";
   "HTTP_REDIRECT_BLOCKED"; "MEZO_RPC_UNAVAILABLE"; "MEZO_RPC_RESPONSE_INVALID"; "FACILITATOR_UNAVAILABLE"; "HYPERLIQUID_UNAVAILABLE";
   "X402_REGISTRY_UNAVAILABLE"; "COMPATIBILITY_OUTPUT_UNAVAILABLE"]%string.

(** The probe's own error has one of the reasons. *)
Definition reasoned (e : exn) : Prop := exn_class e = CompatibilityError -> exn_msg e ∈ REASONS.
Definition computes {A} (m : result A) : Prop := forall e, m = Raise e -> reasoned e.
Definition reports {A} (p : program A) : Prop := tells p (fun t r => outside t -> computes r).

Lemma computes_bind {A B} (m : result A) (f : A -> result B) : computes m -> (forall a, computes (f a)) -> computes (m ≫= f).
Proof. intros Hm Hf. destruct m as [a|e]; [apply Hf|]. intros e' [= <-]. by apply Hm. Qed.

Lemma computes_Ok {A} (a : A) : computes (Ok a).
Proof. done. Qed.

Lemma computes_raise {A} c msg : c <> CompatibilityError \/ msg ∈ REASONS -> computes (raise (A := A) c msg).
Proof. by intros [Hc|Hm] e [= <-] Hr. Qed.

Lemma computes_approve b reason : reason ∈ REASONS -> computes (approve b reason).
Proof. intros Hr. destruct b; [done|]. apply computes_raise. by right. Qed.

(** What fails with a class that the probe's own error is not one of. *)
Lemma computes_builtin {A} (m : result A) : (forall e, m = Raise e -> exn_class e <> CompatibilityError) -> computes m.
Proof. intros Hm e He Hc. by destruct (Hm e He). Qed.

Lemma reports_lift {A} (m : result A) : computes m -> reports (lift m).
Proof. intros Hm. by apply tells_lift. Qed.

Lemma reports_do {B} (c : probe_call B) : reports (do c).
Proof. apply tells_do. intros a Ho. apply Forall_inv in Ho. intros e He Hc. by destruct (Ho e He). Qed.

Lemma reports_then {A B} (p : program A) (f : result A -> program B) :
  reports p -> (forall r, computes r -> reports (f r)) -> reports (prog_then p f).
Proof.
  intros Hp Hf t r (t1 & r1 & t2 & -> & H1 & H2)%trace_then [Ho1 Ho2]%Forall_app. eapply Hf; [by eapply Hp|exact H2|exact Ho2].
Qed.

Lemma reports_bind {A B} (p : program A) (f : A -> program B) : reports p -> (forall a, reports (f a)) -> reports (p ≫= f).
Proof. intros Hp Hf. apply reports_then; [done|]. intros [a|e] Hr; [apply Hf|]. apply reports_lift. intros e' [= <-]. by apply Hr. Qed.

Lemma reports_finally {A} (p : program A) (q : program unit) : reports p -> reports q -> reports (prog_finally p q).
Proof. intros Hp Hq. apply reports_then; [done|]. intros r Hr. apply reports_bind; [done|]. intros _. by apply reports_lift. Qed.

Lemma reports_except {A} (p : program A) cs h : reports p -> (forall e, reasoned e -> reports (h e)) -> reports (prog_except p cs h).
Proof.
  intros Hp Hh. apply reports_then; [done|]. intros [a|e] Hr; [by apply reports_lift|]. destruct (existsb _ cs); [apply Hh; by apply Hr|by apply reports_lift].
Qed.

Lemma reports_map {A B} (f : A -> program B) l : (forall x, reports (f x)) -> reports (prog_map f l).
Proof.
  intros Hf. induction l as [|x l IH]; cbn [prog_map]; [by apply reports_lift|].
  apply reports_bind; [done|]. intros y. apply reports_bind; [done|]. intros ys. by apply reports_lift.
Qed.

Ltac known := first [assumption | by apply (bool_decide_unpack _)].
Ltac computing :=
  repeat match goal with
    | |- computes (_ ≫= _) => apply computes_bind; [|intros]
    | |- computes (mbind _ _) => apply computes_bind; [|intros]
    | |- computes (approve _ _) => apply computes_approve; known
    | |- computes (raise CompatibilityError _) => apply computes_raise; right; known
    | |- computes (raise _ _) => apply computes_raise; by left
    | |- computes (Ok _) => exact (computes_Ok _)
    | |- computes (match ?x with _ => _ end) => destruct x
    | |- computes (let '(_, _) := ?x in _) => destruct x
    | |- computes _ => solve [eauto]
    end.

(** Every turn of the reader fails with its own error, or for want of turns. *)
Definition budgets {A} (m : budget A) : Prop := forall r, computes (fst (m r)).

Lemma budgets_bind {A B} (m : budget A) (f : A -> budget B) : budgets m -> (forall a, budgets (f a)) -> budgets (m ≫= f).
Proof.
  intros Hm Hf r. unfold mbind, budget_bind. pose proof (Hm r) as Hr. destruct (m r) as [[a|e] r1]; [apply Hf|].
  intros e' [= <-]. by apply Hr.
Qed.

Lemma budgets_ret {A} (a : A) : budgets (@mret budget _ A a).
Proof. intros r. apply computes_Ok. Qed.

Lemma budgets_framing b : budgets (framing_if b).
Proof. intros r. destruct b; [|exact (computes_Ok _)]. apply computes_raise. by left. Qed.

Lemma budgets_account data framing : budgets (account data framing).
Proof. intros r. unfold account, raise_if. cbn [fst]. computing. Qed.

Lemma budgets_read n : budgets (reader_read n).
Proof. intros r. unfold reader_read. apply budgets_bind; [intros r'; exact (computes_Ok _)|intros; apply budgets_account]. Qed.

Lemma budgets_readline : budgets (reader_readline (-1)).
Proof.
  intros r. unfold reader_readline. apply budgets_bind; [intros r'; exact (computes_Ok _)|]. intros data.
  apply budgets_bind; [apply budgets_account|]. intros data'. apply budgets_bind; [apply budgets_framing|]. intros _. apply budgets_ret.
Qed.

Lemma budgets_chunks turns maximum total : budgets (chunk_loop turns maximum total).
Proof.
  revert total. induction turns as [|turns IH]; intros total; cbn [chunk_loop]; [intros r; apply computes_raise; by left|].
  apply budgets_bind; [apply budgets_readline|]. intros line. destruct (size_line line) as [size|]; [|intros r; apply computes_raise; by left].
  destruct (size =? 0).
  - apply budgets_bind; [apply budgets_readline|]. intros last. apply budgets_bind; [apply budgets_framing|]. intros _. apply budgets_ret.
  - apply budgets_bind; [apply budgets_framing|]. intros _. apply budgets_bind.
    { apply budgets_bind; [apply budgets_read|]. intros data. apply budgets_bind; [apply budgets_framing|]. intros _. apply budgets_ret. }
    intros data. apply budgets_bind.
    { apply budgets_bind; [apply budgets_read|]. intros close. apply budgets_bind; [intros r; apply budgets_framing|]. intros _. apply budgets_ret. }
    intros close. apply budgets_bind; [apply budgets_framing|]. intros _. apply budgets_bind; [apply IH|]. intros rest. apply budgets_ret.
Qed.

Lemma computes_value_error {A} (m : result A) : (forall e, m = Raise e -> exn_class e = JSONDecodeError \/ exn_class e = ValueError \/ exn_class e = UnicodeDecodeError) -> computes m.
Proof. intros Hm. apply computes_builtin. intros e He Hc. destruct (Hm e He) as [E|[E|E]]; congruence. Qed.

Lemma computes_loads s : computes (json_loads s).
Proof. apply computes_value_error. intros e [He|He]%json_loads_builtin; tauto. Qed.

Lemma computes_decode b : computes (detect_and_decode b).
Proof.
  assert (forall fuel b, computes (decode_utf8_pass fuel b)) as H8.
  { induction fuel as [|fuel IH]; intros [|c b0]; cbn [decode_utf8_pass]; unfold decode_error; computing. }
  assert (forall big b, computes (decode_utf16 big b)) as H16.
  { intros big b0. unfold decode_utf16.
    assert (forall n b, (length b <= n)%nat -> computes (units16 big b)) as Hu.
    { induction n as [|n IH]; intros [|x [|y b1]] Hl; cbn [units16 length] in *; unfold decode_error; computing; try lia. apply IH. lia. }
    specialize (Hu _ b0 (le_n _)). intros e. destruct (units16 big b0); [done|]. cbn. intros [= <-]. by apply Hu. }
  assert (forall big b, computes (decode_utf32 big b)) as H32.
  { intros big b0. assert (forall n b, (length b <= n)%nat -> computes (decode_utf32 big b)) as Hu; [|by apply (Hu _ _ (le_n _))].
    induction n as [|n IH]; intros [|x [|y [|z [|w b1]]]] Hl; cbn [decode_utf32 length] in *; unfold decode_error; computing; try lia. apply IH. lia. }
  unfold detect_and_decode. computing.
Qed.

Lemma computes_loads_bytes b : computes (json_loads_bytes default_hooks b).
Proof. unfold json_loads_bytes. apply computes_bind; [apply computes_decode|]. apply computes_loads. Qed.

Lemma computes_int base s : computes (py_int base s).
Proof. unfold py_int, raise_if. computing. Qed.

Lemma computes_mapR {A B} (f : A -> result B) l : (forall x, computes (f x)) -> computes (mapR f l).
Proof. intros Hf. induction l as [|x l IH]; cbn [mapR]; [exact (computes_Ok _)|computing]. Qed.

Lemma computes_dumps y j : computes (json_dumps_with y j).
Proof.
  induction j as [|b|z|f|t|l IH|d IH] using json_ind_nested; cbn [json_dumps_with]; try exact (computes_Ok _).
  - unfold py_str_int, raise_if. computing.
  - apply computes_bind; [|by intros]. induction IH as [|x l Hx _ IHl]; cbn [mapR]; [exact (computes_Ok _)|computing].
  - apply computes_bind; [|by intros]. induction IH as [|x l Hx _ IHl]; cbn [mapR]; [exact (computes_Ok _)|computing].
Qed.

Lemma computes_validate_boundary lock : computes (validate_boundary lock).
Proof.
  unfold validate_boundary. apply computes_bind; [computing|]. intros d. apply computes_bind; [computing|]. intros _.
  apply computes_bind.
  - unfold try_except. assert (computes (p ← pinned d; sorted_dumps (JDict p))) as Hp.
    { apply computes_bind; [|intros; apply computes_dumps]. apply computes_mapR. intros kv. unfold json_item. computing. }
    destruct (p ← pinned d; _) as [a|e]; [exact (computes_Ok _)|]. destruct (existsb _ _); [computing|exact Hp].
  - intros actual. apply computes_bind; [apply computes_dumps|]. intros expected. computing.
Qed.

Lemma computes_policy lock : computes (validate_payment_policy lock).
Proof. unfold validate_payment_policy. computing. Qed.

Lemma computes_verify lock observations : computes (verify_observations lock observations).
Proof.
  unfold verify_observations. apply computes_bind; [apply computes_validate_boundary|]. intros _. apply computes_bind; [computing|]. intros o.
  repeat (apply computes_bind; [first [apply computes_policy|unfold book_sides; computing]|intros]).
  match goal with |- computes (let '(_, _) := ?x in _) => destruct x end.
  repeat (apply computes_bind; [first [apply computes_policy|computing]|intros]). exact (computes_Ok _).
Qed.

Section request.
Context (reason : string) (Hreason : reason ∈ REASONS).

Lemma computes_declared r : computes (declared_length r reason).
Proof using Hreason. unfold declared_length. pose proof (computes_int 10). computing. Qed.

Lemma computes_body r expected : computes (response_body r expected reason).
Proof using Hreason.
  unfold response_body. apply computes_bind; [|intros; computing]. unfold response_read. destruct (negb _); [|apply budgets_read].
  intros e. unfold read_chunked. apply budgets_chunks.
Qed.

Lemma reports_demand b : reports (demand b reason).
Proof using Hreason. by apply reports_lift, computes_approve. Qed.

Lemma reports_deadline {A} (body : program A) : reports body -> reports (request_deadline reason body).
Proof using Hreason.
  intros Hb. pose proof reports_demand. pose proof @reports_do. unfold request_deadline.
  repeat (apply reports_bind; [by auto|intros]). apply reports_finally; repeat (apply reports_bind; [by auto|intros]); [|by auto].
  by apply reports_lift.
Qed.

Lemma reports_request url payload : reports (request_json url payload reason).
Proof using Hreason.
  unfold request_json. apply reports_bind.
  { apply reports_lift. destruct payload; [|exact (computes_Ok _)]. apply computes_bind; [apply computes_dumps|by intros]. }
  intros data. apply reports_except.
  - apply reports_bind.
    + apply reports_deadline. apply reports_bind; [apply reports_do|]. intros [r| |]; [|apply reports_lift; computing|apply reports_lift; computing].
      apply reports_finally; [|apply reports_do]. apply reports_bind; [apply reports_lift, computes_declared|]. intros expected.
      apply reports_bind; [apply reports_do|]. intros arrived. apply reports_bind; [apply reports_demand|]. intros _. apply reports_lift, computes_body.
    + intros body. apply reports_bind; [apply reports_demand|]. intros _. apply reports_lift, computes_loads_bytes.
  - intros e He. unfold unavailable. destruct (exc_subclass _ _); [|apply reports_lift; computing]. apply reports_lift. by intros e' [= <-].
Qed.
End request.

Lemma reports_rpc method params : reports (rpc method params).
Proof.
  unfold rpc. apply reports_bind; [apply reports_request; known|]. intros response. apply reports_lift. unfold rpc_result, json_item. computing.
Qed.

Lemma reports_collect : reports collect_observations.
Proof.
  unfold collect_observations.
  repeat (apply reports_bind; [first [apply reports_rpc|apply reports_request; known]|intros]).
  apply reports_bind; [|intros; by apply reports_lift]. unfold registry_versions. apply reports_bind; [|intros; by apply reports_lift].
  apply reports_map. intros [package url]. apply reports_bind; [apply reports_request; known|]. intros response. apply reports_lift.
  unfold registry_version. computing.
Qed.

Lemma reports_write path content : reports (write_result path content).
Proof.
  assert (forall A (p : program A), reports p -> reports (output_error p)) as Hout.
  { intros A p Hp. apply reports_except; [done|]. intros e _. apply reports_lift. computing. }
  pose proof @reports_do. unfold write_result. apply reports_bind; [apply Hout; apply reports_bind; auto|]. intros _.
  apply reports_finally; [|auto]. apply Hout. apply reports_bind; [|auto]. apply reports_finally; [|auto].
  apply reports_bind; [auto|]. intros _. apply reports_bind; auto.
Qed.

Lemma reports_probe args : reports (probe args).
Proof.
  unfold probe. apply reports_bind; [apply reports_lift; computing|]. intros [path output]. apply reports_bind.
  { apply reports_except; [|intros; apply reports_lift; computing]. apply reports_bind; [apply reports_do|]. intros text. apply reports_lift, computes_loads. }
  intros lock. apply reports_bind.
  { apply reports_lift. apply computes_bind; [apply computes_validate_boundary|]. intros _. apply computes_policy. }
  intros _. apply reports_bind; [apply reports_collect|]. intros observations. apply reports_bind; [apply reports_lift, computes_verify|].
  intros result. apply reports_bind; [apply reports_lift; apply computes_bind; [apply computes_dumps|by intros]|]. intros content.
  destruct output; [apply reports_write|apply reports_do].
Qed.

(** Of what is put out, nothing goes to the error stream. *)
Lemma put_out_stderr output content t r : put_out output content t r -> ef_stderr (left_by t) = [].
Proof. destruct output; [by intros (_ & _ & ? & _)|by intros ->]. Qed.

(** Unless a call raises the probe's own error, an own error has put nothing out. *)
Lemma put_out_fails output content t e :
  put_out output content t (Raise e) -> outside t -> exn_class e = CompatibilityError -> ef_stdout (left_by t) = [] /\ ef_output (left_by t) = None.
Proof.
  destruct output; cbn [put_out].
  - intros (_ & Ho & _ & [[Hn _]|[_ [[? _]|(e' & [= <-] & Hin)]]]) Hout He; [done|done|]. eapply Forall_forall in Hout; [|exact Hin].
    by destruct (Hout e eq_refl).
  - intros -> Hout%Forall_inv He. by destruct (Hout e eq_refl).
Qed.

Lemma put_out_succeeds output content t : put_out output content t (Ok tt) -> ef_stdout (left_by t) <> [] \/ ef_output (left_by t) <> None.
Proof. destruct output; cbn [put_out]; [intros (_ & _ & _ & [[_ ?]|[E _]]); [done|right; by rewrite E]|intros ->; by left]. Qed.

(** What a probe leaves before its line of errors. *)
Lemma probed_leaves args t r : probed args t r -> outside t ->
  ef_stderr (left_by t) = [] /\
  match r with
  | Ok _ => ef_stdout (left_by t) <> [] \/ ef_output (left_by t) <> None
  | Raise e => exn_class e = CompatibilityError -> ef_stdout (left_by t) = [] /\ ef_output (left_by t) = None
  end.
Proof.
  intros [[Hq Hr]|(path & output & ta & tb & content & -> & -> & Hq & _ & Hput)] Ho.
  - unfold left_by. rewrite quiet_after by done. split; [done|]. by destruct r.
  - assert (left_by (ta ++ tb) = left_by tb) as -> by (unfold left_by; rewrite after_app; by rewrite (quiet_after ta)).
    apply Forall_app in Ho as [_ Ho]. split; [by eapply put_out_stderr|]. destruct r as [[]|e]; [by eapply put_out_succeeds|]. by eapply put_out_fails.
Qed.

(** C24: what the probe writes to its error stream is one of twenty fixed reasons, and nothing
    of what it read; when it ends, it has put something out and reports success, or has put
    nothing out and reports failure with one reason. *)
Theorem probe_reports args t r :
  trace (compat_main args) t r -> outside t ->
  (forall line, line ∈ ef_stderr (left_by t) -> exists reason, reason ∈ REASONS /\ line = u reason ++ [10]) /\
  (forall n, r = Ok n ->
    n = 0 /\ ef_stderr (left_by t) = [] /\ (ef_stdout (left_by t) <> [] \/ ef_output (left_by t) <> None) \/
    n = 1 /\ length (ef_stderr (left_by t)) = 1%nat /\ ef_stdout (left_by t) = [] /\ ef_output (left_by t) = None).
Proof.
  intros (t1 & r1 & t2 & -> & H1 & H2)%main_tells [Ho _]%Forall_app.
  pose proof (reports_probe args t1 r1 H1 Ho) as Hc. apply probe_tells in H1 as (_ & _ & Hp). apply probed_leaves in Hp as [Herr Hend]; [|done].
  assert (left_by (t1 ++ t2) = after (left_by t1) t2) as -> by apply after_app.
  destruct (left_by t1) as [out err temp output]. cbn [ef_stdout ef_stderr ef_output] in *. subst err.
  destruct r1 as [x|e].
  - destruct H2 as [-> ->]. cbn [after fold_left ef_stdout ef_stderr ef_output]. split; [by intros line ?%elem_of_nil|]. intros n [= <-]. by left.
  - destruct H2 as [(_ & -> & ->)|(Hcls & a & -> & ->)]; cbn [after fold_left effect ef_stdout ef_stderr ef_output app].
    + by split; [intros line ?%elem_of_nil|].
    + split; [intros line ->%list_elem_of_singleton; exists (exn_msg e); split; [by apply Hc|done]|].
      intros n Hn. right. destruct a; [|done]. injection Hn as <-. split; [done|]. split; [done|]. by apply Hend.
Qed.
End probe.

(** ** A probe that passes *)

(** A program played against a server. *)
Fixpoint played {A} (answer : forall B, probe_call B -> result B) (p : program A) : list (interaction probe_call) * result A :=
  match p with
  | Done r => ([], r)
  | Call c k => let '(t, r) := played answer (k (answer _ c)) in (Answered c (answer _ c) :: t, r)
  end.

Lemma played_trace {A} answer (p : program A) : trace p (fst (played answer p)) (snd (played answer p)).
Proof.
  induction p as [r|B c k IH]; cbn [played trace]; [done|]. specialize (IH (answer B c)).
  destruct (played answer (k (answer B c))) as [t r]. by exists (answer B c), t.
Qed.

Definition demo_level (px sz : string) : json := JDict [str_field "px" px; str_field "sz" sz; (u "n", JInt 3)].
Definition demo_rpc (result : string) : json := JDict [str_field "jsonrpc" "2.0"; (u "id", JInt 1); str_field "result" result].

Definition demo_documents : list json :=
  [demo_rpc "0x7b7b"; demo_rpc "0x6080"; demo_rpc "0x12";
   JDict [(u "kinds", JList [JDict [(u "x402Version", JInt 2); str_field "scheme" "exact"; str_field "network" "eip155:31611";
     (u "extra", JDict [(u "assets", JList [JDict [(u "address", JStr MUSD_ADDRESS); (u "decimals", JInt 18)]])])]])];
   JDict [(u "universe", JList [JDict [str_field "name" "BTC"]])];
   JDict [str_field "coin" "BTC"; (u "levels", JList [JList [demo_level "99.5" "1"; demo_level "99" "0.5"]; JList [demo_level "100.5" "2"]])]] ++
  map (fun pu => JDict [(u "name", JStr (fst pu)); (u "version", JStr SDK_VERSION)]) REGISTRY_METADATA.

(** One header, and the body with a length or, for the registry, in a chunk. *)
Definition demo_response (chunk : bool) (document : json) : response :=
  let body := text_of document in
  if chunk then mkProbeResponse [] [] [u "Chunked"] false (mkReader (str_of_nonneg 16 (zlength body) ++ CRLF ++ body ++ CRLF ++ u "0" ++ CRLF ++ CRLF) 60 60)
  else mkProbeResponse [str_of_Z (zlength body)] [] [] false (mkReader (body ++ u "excess") 60 60).

Definition demo_answer (B : Type) (c : probe_call B) : result B :=
  match c in probe_call B return result B with
  | ReadLock _ => sorted_dumps shipped_lock
  | MayArm | AlarmIdle | Receive => Ok true
  | Monotonic => Ok 5000000000
  | OpenUrl url data =>
    match assoc (url, data) (zip REQUESTS demo_documents) with
    | Some document => Ok (Opened (demo_response (bool_decide (data = None)) document))
    | None => raise OSError "no such resource"
    end
  | _ => Ok tt
  end.

Definition demo_args : option (pystr * option pystr) := Some (u "lock.json", Some (u "result.json")).
Definition demo_probe : list (interaction probe_call) * result Z := played demo_answer (compat_main demo_args).

Example demo_probe_ex : snd demo_probe = Ok 0.
Proof. vm_compute. reflexivity. Qed.

Lemma probe_publishes_witness :
  map fst (opens (fst demo_probe)) = REQUESTS /\ exists content, summarised (fst demo_probe) content /\ ef_output (left_by (fst demo_probe)) = Some (Written content).
Proof.
  split; [vm_compute; reflexivity|].
  destruct (probe_publishes demo_args (fst demo_probe) (snd demo_probe) (played_trace _ _)) as (_ & _ & [[_ Hno]|(path & output & content & E & Hs & Hout)]).
  - vm_compute in Hno. discriminate.
  - injection E as _ <-. exists content. split; [exact Hs|apply Hout].
Defined.

(** A server that is not there. *)
Definition refused_answer (B : Type) (c : probe_call B) : result B :=
  match c in probe_call B return result B with OpenUrl url data => raise OSError "refused" | c => demo_answer _ c end.
Definition refused_probe : list (interaction probe_call) * result Z := played refused_answer (compat_main demo_args).

Lemma probe_reports_witness :
  ef_stderr (left_by (fst refused_probe)) = [u "MEZO_RPC_UNAVAILABLE" ++ [10]] /\
  forall line, line ∈ ef_stderr (left_by (fst refused_probe)) -> exists reason, reason ∈ REASONS /\ line = u reason ++ [10].
Proof.
  split; [vm_compute; reflexivity|].
  apply (probe_reports demo_args (fst refused_probe) (snd refused_probe) (played_trace _ _)).
  unfold outside. vm_compute. repeat constructor; intros e [= <-]; discriminate.
Defined.
